(* ===== verification/_CoqProject ===== *)
-Q . S2P
Prelude.v
CLib.v
RegExp.v
Ragel.v
UriTable.v
Uri.v
UriGrammar.v
UriCheck.v
UriCorrect.v
ByteArray.v
ByteArrayCorrect.v
Address.v
AddressCorrect.v
UriAddress.v
CurrentThread.v
Monitor.v
RWMutex.v
LockOrder.v
Latch.v
Thread.v
LogFormat.v
Logger.v
LogThreads.v
Config.v
ConfigUnordered.v
ConfigThreads.v
LogConfig.v
LogYaml.v
Timer.v
TimestampFormat.v
TimerCorrect.v
Fiber.v
Scheduler.v
SchedulerCorrect.v
SchedulerQueue.v
Workers.v
IOManager.v
IOManagerCorrect.v
FdManager.v
FdThreads.v
Hook.v
HookCalls.v
Socket.v
SocketOps.v
TcpServer.v
EventLoop.v
EventLoopCorrect.v
EventLoopThread.v
Stream.v
StreamCorrect.v
Http.v
HttpCorrect.v
HttpCommon.v
HttpRequestTable.v
HttpRequestParser.v
HttpGrammar.v
HttpRequestCheck.v
HttpRequestRun.v
HttpRequestCorrect.v
HttpRequestSafe.v
HttpResponseTable.v
HttpResponseParser.v
HttpResponseCheck.v
HttpResponseSafe.v
HttpResponseRun.v
HttpResponseCorrect.v
HttpSession.v
HttpSessionCorrect.v
Servlet.v
HttpServer.v
HttpConnection.v
HttpConnectionCorrect.v
HttpPool.v
HttpClient.v
