(* ===== verification/Prelude.v ===== *)
(** * A verification development for qslary

    qslary is a C++ network library: fibers and a scheduler, an IO manager over
    epoll, system calls hooked so that a blocking call suspends its fiber,
    sockets, streams and buffers, URIs and addresses, HTTP on top, with server,
    sessions, client and connection pool, and below it threads, an event loop,
    logging and configuration. The development translates its components into
    executable Rocq definitions and proves what makes each of them correct; where
    the code does not do what it means to, the theorem states what it does. This
    file documents the whole and holds what the components share.

    ** How the program fits together

    - A [Fiber] is a callback with a saved context. [Scheduler] keeps a queue of
      fibers; each of its worker threads runs the loop [Scheduler::run], which
      takes the first fiber, switches to it, and when the queue is empty
      switches to an idle fiber.
    - [IOManager] derives from [Scheduler] (and from [TimerManger]): its idle
      fiber waits in [epoll_wait] and schedules the callbacks that are
      registered for the descriptors reported.
    - Hook.cc replaces the system calls: [do_io] makes a call, and when the
      descriptor is not ready starts a timer, registers the descriptor with the
      IO manager and yields its fiber. It consults the [FdContextManager], which
      tracks the sockets, their blocking mode and their timeouts.
    - [Socket] wraps the hooked calls; [SockStream] is a [Stream] over a socket
      that moves bytes to and from memory or a [ByteArray].
    - [URI] parses a reference with a Ragel-generated machine; [Address]
      resolves and compares socket addresses; [URI::createAddress] joins both.
    - Two more generated machines read HTTP: [HttpRequestParser] and
      [HttpResponseParser] feed them and store what they call back in a message.
      [HttpSession] receives requests and sends responses on a stream;
      [HttpServer] is a [TcpServer] whose clients are served by
      [HttpServer::handleClient], which hands each request to the servlet that
      [ServletDispatch] chooses. [HttpConnection] is the client's side, in one
      piece or in chunks, and [HttpConnectionPool] keeps its connections.
    - The older [EventLoop] owns an [EPollPoller] and runs the callbacks of its
      [Channel]s and the functors it is handed; [EventLoopThread] starts one.
    - [Thread], [CountDownLatch], [MutexLock], [Condition] and [RWMutex] wrap
      pthreads. [Logger]s hand events to appenders, which print them with a
      [LoggerFormatter]; [Config] keeps typed variables with listeners and loads
      them from YAML, and one of them, "logs", configures the loggers.

    ** Files

    The name of a definition is the name of the function, method or member it
    translates; a file that ends in Correct has theorems about the one before.

    - Prelude: outcomes of C++ calls ([outcome]: a value, or one of the faults
      of [fault]), automation, invariants along [outcome] ([safe]).
    - CLib: machine integers with their conversions written out, signed [char],
      [atoi], [strtol], [strncmp], [strcasecmp], number printing, and the bytes
      of an integer in memory.
    - RegExp: regular expressions, partial derivatives, and a checker that
      validates a certificate of the equivalence of an automaton with an
      expression ([dfa_check_sound]). Ragel: what generated machines share.
    - UriTable, Uri: src/qslary/net/uri.cc, URI.h. UriTable is the generated
      machine, block by block; Uri is the object, the actions and [Create].
      UriGrammar is the grammar of uri.rl; UriCheck has the certificates;
      UriCorrect the theorems.
    - Address, AddressCorrect: net/Endian.h, Address.h, Address.cc. UriAddress:
      [URI::createAddress].
    - ByteArray, ByteArrayCorrect: net/ByteArray.h, ByteArray.cc.
    - CurrentThread: base/CurrentThread.h/.cc, Exception.h/.cc, Atomic.h,
      util.h/.cc. Monitor: base/Mutex.h, Condition.h/.cc. RWMutex: the rest of
      base/Mutex.h. LockOrder: its locks when they are nested. Latch, Thread: base/CountDownLatch.h/.cc, Thread.h/.cc.
    - LogFormat, Logger: base/Logger.h and the first part of Logger.cc; LogThreads:
      these used by threads. Config,
      ConfigUnordered, ConfigThreads: base/Config.h, Config.cc. LogConfig,
      LogYaml: the rest of Logger.cc.
    - Timer, TimestampFormat, TimerCorrect: net/Timestamp.h/.cc, Timer.h/.cc,
      TimerId.h.
    - Fiber: base/Fiber.h, Fiber.cc. Scheduler, SchedulerCorrect,
      SchedulerQueue, Workers: net/Scheduler.h, Scheduler.cc, for one worker and
      for several.
    - IOManager, IOManagerCorrect: net/IOManager.h, IOManager.cc.
    - FdManager, FdThreads: net/FdManager.h, FdManager.cc. Hook, HookCalls:
      base/Hook.h, Hook.cc.
    - Socket, SocketOps: net/Socket.h, Socket.cc. TcpServer: net/TcpServer.h/.cc.
      Stream, StreamCorrect: net/Stream.h/.cc, SockStream.h/.cc.
    - EventLoop, EventLoopCorrect, EventLoopThread: net/EventLoop.h/.cc,
      Channel.h/.cc, Poller.h/.cc, EventLoopThread.h/.cc, poller/Epoller.h/.cc.
    - Http, HttpCorrect: http/Http.h, Http.cc. HttpCommon: http/http_common.h.
    - HttpRequestTable, HttpRequestParser: http/http_request_parser.h/.cc and the
      request half of HttpParser.h/.cc; HttpResponseTable, HttpResponseParser
      likewise. HttpGrammar has the grammars of both; the files in Check the
      certificates, in Run what the machines do on the parts of a message, in
      Safe and Correct the theorems.
    - HttpSession, Servlet, HttpServer: http/HttpSession, Servlet, HttpServer.
      HttpConnection, HttpPool, HttpClient: http/HttpConnection.h/.cc.

    ** How state and operations are modelled

    An object is a [Record] of its members under their names. A method is a
    function from the object and its arguments to the result and the new object;
    one that can fail an assertion, throw, or do something the C++ standard
    leaves undefined gives an [outcome]. The program is taken as built without
    NDEBUG, for a little endian 64-bit target with a signed [char].

    - Where objects are shared through pointers, the store is modelled: timers
      live on a heap ([heap]) indexed by address, so that a use after [delete]
      is a fault; fibers live in a [Store] indexed by the order of their
      creation, and the thread locals of Fiber.cc are its fields; loggers,
      appenders, channels and the sockets of a server are named by their places;
      their users hold [shared_ptr]s to them, so that those in use exist.
      The destructor [delete_Fiber] removes a fiber where its last reference
      goes ([Scheduler.release]) and fails its assertions as the source does.
    - Fibers: the callback of a fiber is a list of actions (do something
      observable, schedule a function or the running fiber, yield in either way,
      throw), and the context [swapcontext] saves is the list of the actions
      left. So a resumed fiber goes on where it was, and one that is made again
      starts afresh.
    - Threads take turns, in any order ([sched], [step], [reachable] in Monitor,
      RWMutex, Workers and TcpServer): a turn is what a thread does between two
      points where another can interfere. What a call does under a lock is an
      action of a monitor or a block of a [prog]; nested locks have ranks; theorems about threads are by
      induction on the turns, and termination by well-foundedness ([sn]).
    - Generated machines: the table is the [switch]es of the source, one
      definition per block; a parser runs it over a buffer, a list of characters
      in which a pointer is an offset, with some memory behind its end.
    - An indeterminate member (the indices of a new [ByteArray], [uri_relaxed])
      is [None] or an argument.
    - [double]s are the IEEE ones of the Standard Library ([SpecFloat]).

    ** Interfaces

    A component's theorems about another are proved against an interface where
    the source has one:

    - [ByteQueue] with [ByteQueueLaws]: a queue of bytes; [ByteArray] implements
      it ([ByteArray_queue_laws]).
    - [Wakeups], [Virtuals] with [WakeupsLaws], [VirtualsLaws]: the methods of
      [Scheduler] a derived class overrides. The loop is proved safe for every
      implementation; [Scheduler] itself and [IOManager] are two.
    - [Stream] with [StreamLaws]: the pure virtual methods; the transfers of a
      fixed size, sessions and connections are proved against it, and
      [SockStream] implements it.
    - [LexicalCast]: the casts of configuration values; containers, definitions
      of loggers and sets of them are instances. [Yaml] with [YamlLaws],
      [YamlMembers] with [YamlMembersLaws]: the YAML library. [Visits]: the order
      in which an unordered container is visited.

    ** What the theorems show

    - URIs. [Create_decides_grammar]: the generated machine of uri.cc
      accepts exactly the language of uri.rl, except where an action uses a null
      [mark], and [Create_null_mark] says where that is. [createAddress_correct]
      covers every branch of the resolution.
    - HTTP parsers. [execute_decides_grammar], [response_decides_grammar]: on any
      buffer, in bounds or with the memory they read behind it, the machines stop
      where the grammar says. [execute_reads_request], [response_round_trip]:
      what is read is what was written.
    - HTTP over streams. [recvRequest_reads], [recvRequest_wf], [client_receives]:
      a message arrives if and only if the reads that are left give the part of its
      body that is missing ([reads]); [chunks_received], [chunk_size_faults];
      [handleClient_answers], [handleClient_ends]: the whole answer is sent when the
      stream takes it ([writes]), and what makes a connection end; [client_request_refused] and [pool_request_refused]: the
      client's requests before the server's parser; [pool_counts],
      [pool_never_expires].
    - HTTP messages. [header_map_refines], [request_headers],
      [StringToHttpMethod_prefix], [status_round_trip], [dispatch_correct].
    - Timers. [run_events_safe]: an invariant of the two sets and the heap holds
      along every history, callbacks that call back into the manager included,
      with no assertion failed and no deleted timer touched.
      [handleRead_runs_due], [cancel_correct], [howMuchTimeFromNow_bounds]: what
      runs, when, and what the timerfd is armed for.
      [toFormattedString_round_trip]: the text of a timestamp.
    - Buffers. [run_ops_refines]: a buffer is a first-in first-out queue, for
      any sequence of operations; round trips of the integer and zigzag codecs.
    - Scheduler. [run_safe], [run_refines_queue], [stop_runs_everything]: the
      loop never faults, is a queue of jobs, and ends once stopped and drained;
      [YieldToReady_restarts] says what that yield does. For several workers:
      [workers_run_each_once], [all_run_when_exited], and
      [self_scheduled_fiber_runs_twice] where a callback schedules its fiber.
    - IO manager and hooks. [registered_callbacks], [epoll_interest_last],
      [waiting_fiber_never_resumed], [IOManager_never_exits]: what an event
      schedules, what is watched, and what never happens. [do_io_completes],
      [do_io_does_not_retry], [do_io_default_timeout_undefined],
      [fcntl_user_view], [fcntl_transparent], [hook_init_loads],
      [connect_timeout_follows], [getFdContext_correct]: the hooked calls.
    - Sockets, streams, server. [socket_lifecycle], [fixed_size_transfers],
      [array_transfers_lose], [reconnect_reports_old_peer], [clients_connected],
      [stop_winds_down].
    - Event loop. [epoll_matches_channels]: the epoll instance watches what the
      channels ask for, whatever callbacks do; [turn_fails_only_in_callbacks],
      [functors_wait_for_next_turn], [startLoop_returns], [startLoop_misses_loop].
    - Threads. [monitor_exclusive], [latch_opens], [start_returns],
      [rw_exclusive], [rw_calls_end], and [one_writer_sequential], from which
      [one_setter_sequential] and [one_creator_sequential] get the methods of
      Config.h and FdManager.cc for threads; [ordered_locks_end], from which
      [logging_never_deadlocks] gets the loggers, for roots that form no cycle, and
      [log_calls_alone] relates them to their methods; [shared_file_loses_message], [two_setters_disagree] and
      [two_creators_make_two] are what goes wrong with two.
    - Logging and configuration. [log_reaches_appenders]: where a message goes when
      the roots form no cycle, and [root_cycle_deadlocks] what happens when they do;
      what the loggers print is conditional on the dates that fit the buffer of
      [strftime] ([dates_fit], [note_ok]). [pattern_round_trip],
      [casts_round_trip], [unordered_round_trip], [listAllMember_paths],
      [registry_typed], [loadFromYaml_sets], [define_round_trip],
      [new_defines_apply], [unchanged_define_fails]; [toYamlString_reads_back] and
      [saved_loggers_restored]: printing the loggers and configuring from it.
    - Addresses. Masks and broadcast addresses bit by bit, [addr_order],
      [CountOneNumbers_correct], [split_host_forms].

    ** Parameters

    What is not in the sources is a parameter, and what is relied on is a named
    hypothesis: the clock (positive readings below [2 ^ 62] microseconds), the
    allocator (a fresh, non-null address or a failure), the callbacks' commands,
    the results of [epoll_wait] and of the wrapped system calls, [fstat] and
    [fcntl] (reading back what was set), [recv] and [send] (at most the bytes
    asked for and [transfer_limit]), [getaddrinfo], [inet_pton], [fnmatch],
    [boost::lexical_cast], whether a string can be resized, the contents of a
    new buffer, the texts of [strftime] (none where they do not fit the buffer of 64
    characters, which then is undefined to print), [strerror] and [backtrace_symbols],
    the demangler, [dlsym], whether a file can be opened, the YAML library, and the
    handlers of the application's servlets. The event loop is given what its
    callbacks do and which faults they may have; the effect of [epoll_ctl] is
    that of its manual page. The system's thread identifiers, the order of turns
    and wake-ups without a reason are whatever they may be.

    ** Bounds and fuel

    - The machines recur on the text, so they need no fuel. The certificates of
      the Check files are computed with a worklist of at most 2000 rounds (60 for
      the characters a state may still read); how they were found does not
      matter, since the checker validates them.
    - The transfers of Stream have as much fuel as there are bytes to transfer,
      and every turn moves at least one or ends the loop: [fixed_size_transfers]
      shows that they end. The receive loops of sessions and connections are
      given more turns than there are characters to come, and the theorems show
      that they end with those.
    - The bit count has one turn per bit and one more; the number printers twenty
      and sixteen digits, enough for 64 bits; a pattern is read with one turn
      more than it has characters ([init_total]); a message goes through at most
      as many loggers as there are, and of threads' calls through at most [top] roots,
      where a longer way takes a mutex that is held.
    - [do_io] is given the results of the calls it will make as a list; it has
      no result when they run out before the call is completed.
    - The loop of [run] is one definition per iteration; theorems about it are
      for every number of iterations, and termination is stated as a number of
      iterations after which it has ended.
    - The states of [EventLoopThread] are found with at most 400 rounds and then
      checked to be closed under its turns.
    - [limit] ([2 ^ 62]) bounds the sizes of buffers, far from the wrap-around
      of [size_t]; below it the theorems hold for all sizes.

    ** What is not modelled

    - [EventLoop::runAt], [runAfter], [runEvery] and [cancel]: they name a
      constructor of [TimerManger] that does not exist, so the file does not
      compile; the timers themselves are those of Timer.
    - With several workers: the deletion of fibers, the count of idle threads,
      which nothing reads, and the IO manager as the derived class. The pool of
      connections is modelled one call at a time.
    - Data races: a call that takes no mutex, like [setLevel] or [setRootLogger], is
      one step, though the standard leaves it undefined beside another thread's use.
    - The overlapping [std::copy] of [ByteArray::MakeSpace], which is taken to move
      the bytes as [memmove] does.
    - A listener that uses its own variable: it waits for a lock its thread holds.
    - Small utilities without behaviour: type aliases, macros, [noncopyable],
      [Singleton] (one static object), [implicit_cast] and [down_cast].
    - Pure input and output: [dump] to a stream, thread names given to the
      kernel, trace messages on the standard output.
    - The programs under tests/ and study/, build files and generated CMake
      output: they hold no code of the library. *)
From stdpp Require Import base list option gmap strings relations.
From Stdlib Require Import ZArith Lia.

(** ** Outcomes

    A C++ call either returns, or it faults: an [assert] fails, an exception
    leaves the function, the program does something the C++ standard leaves
    undefined (a null or out-of-range access, signed overflow, ...), or the
    thread that makes the call ends. *)
Inductive fault : Set :=
| AssertFailed
| Thrown
| Undefined
| ThreadEnded.

#[export] Instance fault_eq_dec : EqDecision fault.
Proof. solve_decision. Defined.

Inductive outcome (A : Type) : Type :=
| Ret (a : A)
| Fault (f : fault).
Arguments Ret {A} a.
Arguments Fault {A} f.

#[export] Instance outcome_eq_dec `{EqDecision A} : EqDecision (outcome A).
Proof. solve_decision. Defined.

Declare Scope outcome_scope.
Delimit Scope outcome_scope with outcome.
Open Scope outcome_scope.

Definition obind {A B} (m : outcome A) (k : A -> outcome B) : outcome B :=
  match m with
  | Ret a => k a
  | Fault f => Fault f
  end.

Notation "'let!' x ':=' m 'in' k" := (obind m (fun x => k))
  (at level 10, x pattern, m at level 100, k at level 200)
  : outcome_scope.

(** [assert(b)] of the source (compiled without NDEBUG). *)
Definition cassert (b : bool) : outcome unit :=
  if b then Ret tt else Fault AssertFailed.

(** Dereferencing a possibly null or dangling object. *)
Definition deref {A} (o : option A) : outcome A :=
  match o with
  | Some a => Ret a
  | None => Fault Undefined
  end.

(** ** Laws of the outcome monad *)
Section outcome_laws.
Context {A B C : Type}.

Lemma obind_ret (a : A) (k : A -> outcome B) : obind (Ret a) k = k a.
Proof. reflexivity. Qed.

Lemma obind_assoc (m : outcome A) (k : A -> outcome B) (l : B -> outcome C) :
  obind (obind m k) l = obind m (fun a => obind (k a) l).
Proof. by destruct m. Qed.

Lemma obind_Ret_inv (m : outcome A) (k : A -> outcome B) b :
  obind m k = Ret b -> exists a, m = Ret a /\ k a = Ret b.
Proof. destruct m; simpl; [eauto | discriminate]. Qed.
End outcome_laws.

(** ** Automation

    [outcome_inv] turns a hypothesis [obind m k = Ret b] into the value of [m]
    and the rest; [bool_hyps] moves boolean tests into propositions. *)
Ltac outcome_inv :=
  repeat match goal with
  | H : obind _ _ = Ret _ |- _ =>
      apply obind_Ret_inv in H; destruct H as (? & ? & H)
  | H : Ret _ = Ret _ |- _ => injection H as H; subst
  | H : Fault _ = Ret _ |- _ => discriminate H
  | H : cassert ?b = Ret _ |- _ =>
      unfold cassert in H; destruct b eqn:?; [clear H | discriminate H]
  | H : deref ?o = Ret _ |- _ =>
      destruct o eqn:?; [cbn in H; injection H as H; subst | discriminate H]
  end.

Ltac bool_hyps :=
  repeat match goal with
  | H : (_ && _)%bool = true |- _ => apply andb_true_iff in H; destruct H
  | H : (_ || _)%bool = false |- _ => apply orb_false_iff in H; destruct H
  | H : negb _ = true |- _ => apply negb_true_iff in H
  | H : negb _ = false |- _ => apply negb_false_iff in H
  | H : (_ =? _)%Z = true |- _ => apply Z.eqb_eq in H
  | H : (_ =? _)%Z = false |- _ => apply Z.eqb_neq in H
  | H : (_ <? _)%Z = true |- _ => apply Z.ltb_lt in H
  | H : (_ <? _)%Z = false |- _ => apply Z.ltb_ge in H
  | H : (_ <=? _)%Z = true |- _ => apply Z.leb_le in H
  | H : (_ <=? _)%Z = false |- _ => apply Z.leb_gt in H
  | H : bool_decide _ = true |- _ => apply bool_decide_eq_true in H
  | H : bool_decide _ = false |- _ => apply bool_decide_eq_false in H
  end.

Create HintDb qslary.
Create Rewrite HintDb qslary.
#[export] Hint Rewrite @obind_ret @obind_assoc : qslary.

(** ** Generic list lemmas *)
Lemma take_drop_app_exact {A} (l k : list A) n :
  length l = n -> take n (l ++ k) = l /\ drop n (l ++ k) = k.
Proof. intros <-. split; [apply take_app_length | apply drop_app_length]. Qed.

Lemma Forall_range (P : Z -> Prop) lo n :
  Forall P (map (fun i => lo + Z.of_nat i)%Z (seq 0 n)) ->
  forall z, (lo <= z < lo + Z.of_nat n)%Z -> P z.
Proof.
  intros H z Hz. rewrite Forall_forall in H. apply H.
  apply list_elem_of_In, in_map_iff.
  exists (Z.to_nat (z - lo)). split; [lia|]. apply in_seq. lia.
Qed.

(** A list whose first part satisfies [P] and whose rest does not. *)
Lemma filter_prefix {A} (P : A -> Prop) `{!forall x, Decision (P x)} (a b : list A) :
  (forall x, x ∈ a -> P x) -> (forall x, x ∈ b -> ~ P x) -> filter P (a ++ b) = a.
Proof.
  intros Ha Hb. rewrite filter_app.
  assert (filter P b = []) as ->.
  { induction b as [|x b IH]; [done|]. rewrite filter_cons_False by (apply Hb; left).
    apply IH. intros y Hy. apply Hb. by right. }
  rewrite app_nil_r. induction a as [|x a IH]; [done|].
  rewrite filter_cons_True by (apply Ha; left). f_equal.
  apply IH. intros y Hy. apply Ha. by right.
Qed.

(** ** Threads in any order

    One element of a list at a time: when each element can change only finitely often
    so can the list. *)
Definition one_of {A} (r : A -> A -> Prop) (l l' : list A) : Prop :=
  exists i a a', l !! i = Some a /\ r a a' /\ l' = <[i := a']> l.

Lemma one_of_ends {A} (r : A -> A -> Prop) l : Forall (sn r) l -> sn (one_of r) l.
Proof.
  induction 1 as [|a l Ha _ IH].
  - constructor. unfold flip. by intros y (i & a & a' & H & _).
  - revert l IH. induction Ha as [a _ IHa]. intros l Hl. revert a IHa. induction Hl as [l Hl IHl]. intros a IHa.
    constructor. unfold flip. intros y ([|i] & b & b' & Hb & Hr & ->); cbn in *.
    + injection Hb as <-. apply IHa; [done|]. by constructor.
    + apply IHl; [by exists i, b, b'|]. intros a' Ha' l' Hl'. by apply IHa.
Qed.

(** ** Running out of memory

    [safe oom m P]: the computation returns a value with [P], or it ends with
    the exception a failing allocation throws, and then [oom] holds. *)
Definition safe {A} (oom : Prop) (m : outcome A) (P : A -> Prop) : Prop :=
  match m with
  | Ret a => P a
  | Fault f => f = Thrown /\ oom
  end.

Lemma safe_bind {A B} oom (m : outcome A) (k : A -> outcome B) (P : A -> Prop) (Q : B -> Prop) :
  safe oom m P -> (forall a, P a -> safe oom (k a) Q) -> safe oom (obind m k) Q.
Proof. destruct m; simpl; auto. Qed.

Lemma safe_mono {A} oom (m : outcome A) (P Q : A -> Prop) :
  safe oom m P -> (forall a, P a -> Q a) -> safe oom m Q.
Proof. destruct m; simpl; auto. Qed.
