(* ===== verification/CLib.v ===== *)
(** * The C and C++ types and library functions the program uses

    Machine integers as [Z] with explicit wrap-around, [char] as the signed
    byte it is on the program's targets, and the functions of [<string.h>] and
    [<stdlib.h>] the sources call, as the C standard (for [atoi], glibc's
    [(int)strtol]) describes them. *)
From stdpp Require Import base list strings.
From Stdlib Require Import ZArith Ascii String Lia.
From S2P Require Import Prelude.
Open Scope Z_scope.

(** ** Machine integers *)

(** Conversion to an unsigned and to a signed two's complement type. *)
Definition wrapu (w : Z) (x : Z) : Z := x mod 2 ^ w.
Definition wraps (w : Z) (x : Z) : Z :=
  let u := x mod 2 ^ w in if u <? 2 ^ (w - 1) then u else u - 2 ^ w.

Abbreviation u8 := (wrapu 8).
Abbreviation u16 := (wrapu 16).
Abbreviation u32 := (wrapu 32).
Abbreviation u64 := (wrapu 64).
Abbreviation i32 := (wraps 32).
Abbreviation i64 := (wraps 64).

Definition in_int (w : Z) (x : Z) : bool :=
  (- 2 ^ (w - 1) <=? x) && (x <? 2 ^ (w - 1)).

(** Signed arithmetic: a result that is not representable is undefined. *)
Definition signed (w : Z) (x : Z) : outcome Z :=
  if in_int w x then Ret x else Fault Undefined.

Lemma wrapu_range w x : 0 <= w -> 0 <= wrapu w x < 2 ^ w.
Proof. intros. apply Z.mod_pos_bound. lia. Qed.

Lemma wrapu_small w x : 0 <= x < 2 ^ w -> wrapu w x = x.
Proof. apply Z.mod_small. Qed.

Lemma wrapu_idem w x : wrapu w (wrapu w x) = wrapu w x.
Proof. apply Zmod_mod. Qed.

Lemma wraps_range w x : 1 <= w -> - 2 ^ (w - 1) <= wraps w x < 2 ^ (w - 1).
Proof.
  intros Hw. unfold wraps.
  assert (2 ^ w = 2 * 2 ^ (w - 1)) as E.
  { rewrite <- Z.pow_succ_r by lia. f_equal. lia. }
  pose proof (Z.mod_pos_bound x (2 ^ w)).
  destruct (Z.ltb_spec (x mod 2 ^ w) (2 ^ (w - 1))); lia.
Qed.

Lemma wraps_small w x : 1 <= w -> in_int w x = true -> wraps w x = x.
Proof.
  unfold in_int, wraps. intros Hw ?. bool_hyps.
  assert (2 ^ w = 2 * 2 ^ (w - 1)) as E.
  { rewrite <- Z.pow_succ_r by lia. f_equal. lia. }
  destruct (Z.leb_spec 0 x).
  - rewrite Z.mod_small by lia. destruct (Z.ltb_spec x (2 ^ (w - 1))); lia.
  - replace (x mod 2 ^ w) with (x + 2 ^ w).
    + destruct (Z.ltb_spec (x + 2 ^ w) (2 ^ (w - 1))); lia.
    + apply Z.mod_unique_pos with (q := -1); lia.
Qed.

(** Sums wrap once. *)
Lemma wraps_mod w x : (wraps w x) mod 2 ^ w = x mod 2 ^ w.
Proof.
  unfold wraps. destruct (_ <? _); [apply Zmod_mod|].
  rewrite Zminus_mod, Z_mod_same_full, Z.sub_0_r. by rewrite !Zmod_mod.
Qed.

Lemma wraps_add_l w a b : wraps w (wraps w a + b) = wraps w (a + b).
Proof. unfold wraps at 1 3. by rewrite <- Zplus_mod_idemp_l, wraps_mod, Zplus_mod_idemp_l. Qed.

(** ** Characters *)

Definition uchar (a : ascii) : Z := Z.of_nat (nat_of_ascii a).

(** [char] is signed on the x86-64 targets the program is built for. *)
Definition schar (a : ascii) : Z :=
  let n := uchar a in if n <? 128 then n else n - 256.

(** The bytes of a [std::string] as the values [*p] takes. *)
Definition chars (s : string) : list Z := map schar (list_ascii_of_string s).

Definition char_range (c : Z) : Prop := -128 <= c < 128.

Lemma uchar_range a : 0 <= uchar a < 256.
Proof. unfold uchar. pose proof (nat_ascii_bounded a). lia. Qed.

Lemma schar_range a : char_range (schar a).
Proof.
  unfold schar, char_range. pose proof (uchar_range a).
  destruct (Z.ltb_spec (uchar a) 128); lia.
Qed.

Lemma uchar_inj a b : uchar a = uchar b -> a = b.
Proof.
  unfold uchar. intros H. apply Nat2Z.inj in H.
  rewrite <- (ascii_nat_embedding a), <- (ascii_nat_embedding b). by rewrite H.
Qed.

Lemma schar_inj a b : schar a = schar b -> a = b.
Proof.
  unfold schar. intros H. apply uchar_inj.
  pose proof (uchar_range a). pose proof (uchar_range b).
  destruct (Z.ltb_spec (uchar a) 128), (Z.ltb_spec (uchar b) 128); lia.
Qed.

Lemma chars_range s : Forall char_range (chars s).
Proof.
  unfold chars. apply Forall_forall. intros x Hx.
  apply list_elem_of_fmap in Hx as (a & -> & _). apply schar_range.
Qed.

Lemma length_chars s : List.length (chars s) = String.length s.
Proof. unfold chars. rewrite length_map. induction s; simpl; auto. Qed.

Lemma chars_app s t : chars (s ++ t) = (chars s ++ chars t)%list.
Proof. unfold chars. induction s; simpl; [done|]. by rewrite IHs. Qed.

Definition isdigit (c : Z) : bool := (48 <=? c) && (c <=? 57).
Definition isupper (c : Z) : bool := (65 <=? c) && (c <=? 90).
Definition islower (c : Z) : bool := (97 <=? c) && (c <=? 122).
Definition isalpha (c : Z) : bool := isupper c || islower c.
Definition isspace (c : Z) : bool := (c =? 32) || ((9 <=? c) && (c <=? 13)).

(** [tolower] of the C locale. *)
Definition tolower (a : ascii) : ascii :=
  if isupper (uchar a) then ascii_of_nat (Z.to_nat (uchar a + 32)) else a.

(** ** Strings *)

(** [s.c_str()] seen by a function that stops at the first NUL. *)
Fixpoint c_str (s : string) : string :=
  match s with
  | EmptyString => EmptyString
  | String a s' => if uchar a =? 0 then EmptyString else String a (c_str s')
  end.

Fixpoint string_lower (s : string) : string :=
  match s with
  | EmptyString => EmptyString
  | String a s' => String (tolower a) (string_lower s')
  end.

(** The sign of [memcmp] / [strcmp] on already cut strings (unsigned bytes). *)
Fixpoint strcmp_sign (s t : string) : Z :=
  match s, t with
  | EmptyString, EmptyString => 0
  | EmptyString, String _ _ => -1
  | String _ _, EmptyString => 1
  | String a s', String b t' =>
      if uchar a <? uchar b then -1
      else if uchar b <? uchar a then 1 else strcmp_sign s' t'
  end.

Definition strcmp (s t : string) : Z := strcmp_sign (c_str s) (c_str t).
Definition strcasecmp (s t : string) : Z :=
  strcmp_sign (string_lower (c_str s)) (string_lower (c_str t)).

(** [strncmp(s, t, n)]: at most [n] characters are compared. *)
Definition strncmp (s t : string) (n : nat) : Z :=
  strcmp_sign (substring 0 n (c_str s)) (substring 0 n (c_str t)).

Lemma strcmp_sign_refl s : strcmp_sign s s = 0.
Proof. induction s; simpl; [done|]. by rewrite !Z.ltb_irrefl. Qed.

Lemma strcmp_sign_eq s t : strcmp_sign s t = 0 <-> s = t.
Proof.
  split; [|intros ->; apply strcmp_sign_refl].
  revert t. induction s as [|a s IH]; intros [|b t]; simpl; try done.
  destruct (Z.ltb_spec (uchar a) (uchar b)); [done|].
  destruct (Z.ltb_spec (uchar b) (uchar a)); [done|].
  intros ?%IH. subst. f_equal. apply uchar_inj. lia.
Qed.

Lemma strcmp_sign_antisym s t : strcmp_sign s t = - strcmp_sign t s.
Proof.
  revert t. induction s as [|a s IH]; intros [|b t]; simpl; try done.
  destruct (Z.ltb_spec (uchar a) (uchar b)), (Z.ltb_spec (uchar b) (uchar a));
    try lia. apply IH.
Qed.

Lemma strcmp_sign_trans s t u :
  strcmp_sign s t < 0 -> strcmp_sign t u < 0 -> strcmp_sign s u < 0.
Proof.
  revert t u. induction s as [|a s IH]; intros [|b t] [|c u]; simpl; try lia.
  destruct (Z.ltb_spec (uchar a) (uchar b)), (Z.ltb_spec (uchar b) (uchar a)),
    (Z.ltb_spec (uchar b) (uchar c)), (Z.ltb_spec (uchar c) (uchar b)),
    (Z.ltb_spec (uchar a) (uchar c)), (Z.ltb_spec (uchar c) (uchar a));
    try lia. apply IH.
Qed.

(** ** Numbers *)

Fixpoint digits_value (acc : Z) (l : list Z) : Z :=
  match l with
  | c :: l' => if isdigit c then digits_value (10 * acc + (c - 48)) l' else acc
  | [] => acc
  end.

Fixpoint skip_space (l : list Z) : list Z :=
  match l with
  | c :: l' => if isspace c then skip_space l' else l
  | [] => []
  end.

(** [strtol(s, NULL, 10)] with a 64-bit [long]: saturates. *)
Definition strtol10 (s : string) : Z :=
  let clamp x := Z.max (- 2 ^ 63) (Z.min (2 ^ 63 - 1) x) in
  match skip_space (chars s) with
  | c :: l =>
      if c =? 45 then clamp (- digits_value 0 l)
      else if c =? 43 then clamp (digits_value 0 l)
      else clamp (digits_value 0 (c :: l))
  | [] => 0
  end.

(** [strtol(s, NULL, 16)]: an optional [0x] in front of a digit is skipped. *)
Definition xdigit_value (c : Z) : option Z :=
  if isdigit c then Some (c - 48)
  else if (65 <=? c) && (c <=? 70) then Some (c - 55)
  else if (97 <=? c) && (c <=? 102) then Some (c - 87)
  else None.

Fixpoint xdigits_value (acc : Z) (l : list Z) : Z :=
  match l with
  | c :: l' => match xdigit_value c with Some d => xdigits_value (16 * acc + d) l' | None => acc end
  | [] => acc
  end.

Definition skip_0x (l : list Z) : list Z :=
  match l with
  | z :: x :: c :: l' =>
      if (z =? 48) && ((x =? 120) || (x =? 88)) && bool_decide (is_Some (xdigit_value c))
      then c :: l' else l
  | _ => l
  end.

Definition strtol16 (s : string) : Z :=
  let clamp x := Z.max (- 2 ^ 63) (Z.min (2 ^ 63 - 1) x) in
  match skip_space (chars s) with
  | c :: l =>
      if c =? 45 then clamp (- xdigits_value 0 (skip_0x l))
      else if c =? 43 then clamp (xdigits_value 0 (skip_0x l))
      else clamp (xdigits_value 0 (skip_0x (c :: l)))
  | [] => 0
  end.

(** glibc's [atoi]: [(int)strtol(s, NULL, 10)]. *)
Definition atoi (s : string) : Z := i32 (strtol10 s).

(** [operator<<(std::ostream&, unsigned)] and [std::to_string] in base ten. *)
Definition digit_char (d : Z) : ascii := ascii_of_nat (Z.to_nat (48 + d)).

Fixpoint decimal_aux (fuel : nat) (n : Z) (acc : string) : string :=
  match fuel with
  | O => acc
  | S f =>
      let acc' := String (digit_char (n mod 10)) acc in
      if n <? 10 then acc' else decimal_aux f (n / 10) acc'
  end.

(** Twenty digits are enough for every 64-bit value. *)
Definition decimal (n : Z) : string :=
  if n <? 0 then String "-" (decimal_aux 20 (- n) EmptyString)
  else decimal_aux 20 n EmptyString.

(** [std::hex] output: lower case, no prefix. *)
Definition hex_digit (d : Z) : ascii :=
  ascii_of_nat (Z.to_nat (if d <? 10 then 48 + d else 87 + d)).

Fixpoint hexadecimal_aux (fuel : nat) (n : Z) (acc : string) : string :=
  match fuel with
  | O => acc
  | S f =>
      let acc' := String (hex_digit (n mod 16)) acc in
      if n <? 16 then acc' else hexadecimal_aux f (n / 16) acc'
  end.

(** Sixteen digits are enough for every unsigned 64-bit value. *)
Definition hexadecimal (n : Z) : string := hexadecimal_aux 16 n EmptyString.

(** [memcmp] on byte lists of the same length: the sign. *)
Fixpoint memcmp (l k : list Z) : Z :=
  match l, k with
  | a :: l', b :: k' => if a <? b then -1 else if b <? a then 1 else memcmp l' k'
  | _, _ => 0
  end.

(** ** Object representation

    The bytes of an integer object, little endian as on the targets. *)
Definition byte_ascii (n : Z) : ascii := ascii_of_nat (Z.to_nat (n mod 256)).

Fixpoint int_bytes (bytes : nat) (x : Z) : list ascii :=
  match bytes with
  | O => []
  | S k => byte_ascii x :: int_bytes k (x / 256)
  end.

Fixpoint int_value (l : list ascii) : Z :=
  match l with
  | [] => 0
  | a :: l' => uchar a + 256 * int_value l'
  end.

Lemma uchar_byte_ascii n : uchar (byte_ascii n) = n mod 256.
Proof.
  unfold uchar, byte_ascii. pose proof (Z.mod_pos_bound n 256).
  rewrite nat_ascii_embedding by lia. lia.
Qed.

Lemma length_int_bytes k x : List.length (int_bytes k x) = k.
Proof. revert x. induction k; intros x; simpl; auto. Qed.

Lemma int_value_bytes k x : int_value (int_bytes k x) = x mod 2 ^ (8 * Z.of_nat k).
Proof.
  revert x. induction k as [|k IH]; intros x; cbn [int_bytes int_value].
  - by rewrite Z.mod_1_r.
  - rewrite uchar_byte_ascii, IH.
    replace (8 * Z.of_nat (S k)) with (8 + 8 * Z.of_nat k) by lia.
    rewrite Z.pow_add_r by lia. change (2 ^ 8) with 256.
    rewrite Z.rem_mul_r; lia.
Qed.

Lemma int_value_range l : 0 <= int_value l < 2 ^ (8 * Z.of_nat (List.length l)).
Proof.
  induction l as [|a l IH]; cbn [int_value List.length]; [done|].
  replace (8 * Z.of_nat (S (List.length l))) with (8 + 8 * Z.of_nat (List.length l)) by lia.
  rewrite Z.pow_add_r by lia. change (2 ^ 8) with 256. pose proof (uchar_range a). lia.
Qed.

Lemma int_bytes_value l : int_bytes (List.length l) (int_value l) = l.
Proof.
  induction l as [|a l IH]; cbn [int_value int_bytes List.length]; [done|].
  pose proof (uchar_range a).
  f_equal.
  - apply uchar_inj. rewrite uchar_byte_ascii.
    rewrite (Z.mul_comm 256), Z_mod_plus_full, Z.mod_small by lia. done.
  - replace ((uchar a + 256 * int_value l) / 256) with (int_value l); [done|].
    rewrite (Z.mul_comm 256), Z.div_add, Z.div_small by lia. done.
Qed.

Lemma substring_all s : substring 0 (String.length s) s = s.
Proof. induction s; simpl; congruence. Qed.

Lemma substring_app_l s t n : substring (String.length s) n (s ++ t) = substring 0 n t.
Proof. induction s as [|a s IH]; [done|]. exact IH. Qed.

Lemma substring_take s t : substring 0 (String.length s) (s ++ t) = s.
Proof.
  induction s as [|a s IH].
  - change (substring 0 0 t = ""%string). by destruct t.
  - change (String a (substring 0 (String.length s) (s ++ t)) = String a s). by rewrite IH.
Qed.

Lemma length_app_string s t : String.length (s ++ t) = (String.length s + String.length t)%nat.
Proof. induction s as [|a s IH]; [done|]. cbn. by rewrite <- IH. Qed.

Lemma app_assoc_string (s t u : string) : (s ++ t ++ u = (s ++ t) ++ u)%string.
Proof. induction s as [|a s IH]; [done|]. change (String a (s ++ t ++ u) = String a ((s ++ t) ++ u)). by rewrite IH. Qed.

(** snprintf's [%<w>d] padded with [c]: zeros go behind the sign. *)
Fixpoint pad (c : ascii) (n : nat) : string := match n with O => EmptyString | S k => String c (pad c k) end.
Definition padded (zero : bool) (w : nat) (n : Z) : string :=
  if zero then
    if n <? 0 then let s := decimal (- n) in String "-" (pad "0" (w - 1 - String.length s) ++ s)
    else let s := decimal n in (pad "0" (w - String.length s) ++ s)%string
  else let s := decimal n in (pad " " (w - String.length s) ++ s)%string.

Example atoi_80 : atoi "80/path" = 80. Proof. reflexivity. Qed.
Example atoi_wraps : atoi "4294967376" = 80. Proof. reflexivity. Qed.
Example decimal_8080 : decimal 8080 = "8080"%string. Proof. reflexivity. Qed.
Example strcasecmp_eq : strcasecmp "Content-Length" "content-length" = 0.
Proof. reflexivity. Qed.
Example strtol16_size : strtol16 "1aF;x" = 0x1af. Proof. reflexivity. Qed.
