(* ===== verification/RegExp.v ===== *)
(** * Regular expressions and a checker for automata

    The grammars behind the generated parsers are regular. This file has
    regular expressions over characters with their language, partial
    derivatives, and a checker that compares a deterministic automaton (given
    by a step function) with an expression: the checker validates a
    certificate (the finitely many derivatives and the pairs of automaton state
    and derivative set that occur together) and its soundness theorem
    [dfa_check_sound] concludes that both accept the same words. *)
From stdpp Require Import base list gmap.
From Stdlib Require Import ZArith NArith Lia.
From S2P Require Import Prelude CLib.
Open Scope Z_scope.

(** ** Expressions and their language *)
Inductive re : Set :=
| Emp
| Eps
| Cls (rs : list (Z * Z))
| Seq (a b : re)
| Alt (a b : re)
| Star (a : re).

(** Equality, as a boolean that does not carry proofs. *)
Fixpoint cls_eqb (a b : list (Z * Z)) : bool :=
  match a, b with
  | [], [] => true
  | (x, y) :: a, (x', y') :: b =>
      if (x =? x') && (y =? y') then cls_eqb a b else false
  | _, _ => false
  end.
Fixpoint re_eqb (a b : re) : bool :=
  match a, b with
  | Emp, Emp | Eps, Eps => true
  | Cls x, Cls y => cls_eqb x y
  | Seq a1 a2, Seq b1 b2 | Alt a1 a2, Alt b1 b2 =>
      if re_eqb a1 b1 then re_eqb a2 b2 else false
  | Star a, Star b => re_eqb a b
  | _, _ => false
  end.

Lemma cls_eqb_eq a b : cls_eqb a b = true <-> a = b.
Proof.
  split; [|intros <-; induction a as [|[x y] a IH]; simpl; by rewrite ?Z.eqb_refl, ?IH].
  revert b. induction a as [|[x y] a IH]; intros [|[x' y'] b]; simpl; try done.
  intros [H ?]%andb_true_iff. bool_hyps. subst. f_equal. auto.
Qed.

Lemma re_eqb_eq a b : re_eqb a b = true <-> a = b.
Proof.
  split.
  - revert b. induction a; intros []; simpl; try done;
      try (intros [? ?]%andb_true_iff; f_equal; auto; fail).
    + by intros ->%cls_eqb_eq.
    + intros ?. f_equal. auto.
  - intros <-. induction a; simpl; try done; try (by apply andb_true_iff).
    by apply cls_eqb_eq.
Qed.

#[export] Instance re_eq_dec : EqDecision re := fun a b =>
  match Sumbool.sumbool_of_bool (re_eqb a b) with
  | left H => left (proj1 (re_eqb_eq a b) H)
  | right H => right (fun E => eq_true_false_abs _ (proj2 (re_eqb_eq a b) E) H)
  end.

Definition in_cls (rs : list (Z * Z)) (c : Z) : bool :=
  existsb (fun '(lo, hi) => (lo <=? c) && (c <=? hi)) rs.

Inductive matches : re -> list Z -> Prop :=
| m_eps : matches Eps []
| m_cls rs c : in_cls rs c = true -> matches (Cls rs) [c]
| m_seq a b u v : matches a u -> matches b v -> matches (Seq a b) (u ++ v)
| m_alt_l a b u : matches a u -> matches (Alt a b) u
| m_alt_r a b u : matches b u -> matches (Alt a b) u
| m_star_nil a : matches (Star a) []
| m_star_cons a u v :
    matches a u -> matches (Star a) v -> matches (Star a) (u ++ v).

#[export] Hint Constructors matches : qslary.

Fixpoint nullable (r : re) : bool :=
  match r with
  | Emp | Cls _ => false
  | Eps | Star _ => true
  | Seq a b => nullable a && nullable b
  | Alt a b => nullable a || nullable b
  end.

Lemma nullable_spec r : nullable r = true <-> matches r [].
Proof.
  split.
  - induction r; simpl; intros H; try discriminate; auto with qslary.
    + apply andb_true_iff in H as [? ?]. apply (m_seq _ _ [] []); auto.
    + apply orb_true_iff in H as [?|?]; auto with qslary.
  - intros H. remember [] as w eqn:E. revert E.
    induction H; intros E; simpl; try done.
    + apply app_nil in E as [-> ->]. by rewrite IHmatches1, IHmatches2.
    + by rewrite IHmatches.
    + rewrite IHmatches by done. apply orb_true_r.
Qed.

(** ** Partial derivatives *)
Definition mk_seq (a b : re) : re := match a with Eps => b | _ => Seq a b end.

Fixpoint pd (c : Z) (r : re) : list re :=
  match r with
  | Emp | Eps => []
  | Cls rs => if in_cls rs c then [Eps] else []
  | Seq a b =>
      map (fun a' => mk_seq a' b) (pd c a) ++ (if nullable a then pd c b else [])
  | Alt a b => pd c a ++ pd c b
  | Star a => map (fun a' => mk_seq a' (Star a)) (pd c a)
  end.

Lemma seq_inv a b w :
  matches (Seq a b) w -> exists u v, w = u ++ v /\ matches a u /\ matches b v.
Proof. intros H. inversion H; subst; eauto. Qed.

Lemma cls_inv rs c w : matches (Cls rs) (c :: w) -> in_cls rs c = true /\ w = [].
Proof. intros H. by inversion H; subst. Qed.

Lemma mk_seq_spec a b w : matches (mk_seq a b) w <-> matches (Seq a b) w.
Proof.
  destruct a; try done. simpl. split.
  - intros H. apply (m_seq Eps b [] w); auto with qslary.
  - intros (u & v & -> & Hu & Hv)%seq_inv. by inversion Hu.
Qed.

Definition any_matches (S : list re) (w : list Z) : Prop :=
  exists r, r ∈ S /\ matches r w.

Lemma any_matches_app S T w :
  any_matches (S ++ T) w <-> any_matches S w \/ any_matches T w.
Proof.
  unfold any_matches. split.
  - intros (r & [?|?]%elem_of_app & ?); eauto.
  - intros [(r & ? & ?)|(r & ? & ?)]; exists r; rewrite elem_of_app; auto.
Qed.

Lemma any_matches_mk_seq S b w :
  any_matches (map (fun a => mk_seq a b) S) w <->
  exists u v, w = u ++ v /\ any_matches S u /\ matches b v.
Proof.
  split.
  - intros (r & Hr & Hm). apply list_elem_of_fmap in Hr as (a & -> & Ha).
    apply mk_seq_spec, seq_inv in Hm as (u & v & -> & Hu & Hv).
    exists u, v. split_and!; [done| |done]. by exists a.
  - intros (u & v & -> & (a & Ha & Hu) & Hv). exists (mk_seq a b). split.
    + apply list_elem_of_fmap. eauto.
    + apply mk_seq_spec. auto with qslary.
Qed.

Lemma star_cons_inv a c w :
  matches (Star a) (c :: w) ->
  exists u v, w = u ++ v /\ matches a (c :: u) /\ matches (Star a) v.
Proof.
  intros H. remember (Star a) as r eqn:Er. remember (c :: w) as x eqn:Ex.
  revert Er Ex. induction H; intros Er Ex; try discriminate.
  injection Er as ->. destruct u as [|d u]; simpl in *.
  - by apply IHmatches2.
  - injection Ex as -> <-. eauto.
Qed.

(** A word that starts with [c] is in the language exactly when its rest is in
    the language of a partial derivative. *)
Lemma pd_spec r c w : matches r (c :: w) <-> any_matches (pd c r) w.
Proof.
  revert w. induction r; intros w; simpl.
  - split; [intros H; inversion H|]. by intros (? & ?%not_elem_of_nil & _).
  - split; [intros H; inversion H|]. by intros (? & ?%not_elem_of_nil & _).
  - split.
    + intros [-> ->]%cls_inv. exists Eps. split; [by left|constructor].
    + destruct (in_cls rs c) eqn:E; intros (r & Hr & Hm).
      * apply list_elem_of_singleton in Hr as ->. inversion Hm; subst.
        by constructor.
      * by apply not_elem_of_nil in Hr.
  - rewrite any_matches_app, any_matches_mk_seq. split.
    + intros (u & v & E & Hu & Hv)%seq_inv. destruct u as [|d u]; simpl in E.
      * right. subst v. apply nullable_spec in Hu. rewrite Hu. by apply IHr2.
      * left. injection E as -> ->. exists u, v. by rewrite <- IHr1.
    + intros [(u & v & -> & Hu & Hv)|H].
      * apply IHr1 in Hu. by apply (m_seq r1 r2 (c :: u) v).
      * destruct (nullable r1) eqn:E.
        -- apply (m_seq r1 r2 [] (c :: w)); [by apply nullable_spec|by apply IHr2].
        -- by destruct H as (? & ?%not_elem_of_nil & _).
  - rewrite any_matches_app, <- IHr1, <- IHr2. split.
    + intros H; inversion H; subst; auto.
    + intros [?|?]; auto with qslary.
  - rewrite any_matches_mk_seq. split.
    + intros (u & v & -> & Hu & Hv)%star_cons_inv. exists u, v. by rewrite <- IHr.
    + intros (u & v & -> & Hu & Hv). apply IHr in Hu.
      by apply (m_star_cons r (c :: u) v).
Qed.

(** ** Character classes

    [respects rep r]: the expression does not tell a character from its
    representative. *)
Fixpoint atoms (r : re) : list (list (Z * Z)) :=
  match r with
  | Emp | Eps => []
  | Cls rs => [rs]
  | Seq a b | Alt a b => atoms a ++ atoms b
  | Star a => atoms a
  end.

Definition respects (rep : Z -> Z) (r : re) : Prop :=
  forall rs c, rs ∈ atoms r -> char_range c -> in_cls rs c = in_cls rs (rep c).

Lemma pd_respects rep r c :
  respects rep r -> char_range c -> pd c r = pd (rep c) r.
Proof.
  intros H Hc. induction r as [| |rs|a IHa b IHb|a IHa b IHb|a IHa]; simpl; try done.
  - by rewrite (H rs c ltac:(simpl; set_solver) Hc).
  - unfold respects in *; simpl in *.
    rewrite IHa, IHb by set_solver. done.
  - unfold respects in *; simpl in *.
    rewrite IHa, IHb by set_solver. done.
  - by rewrite IHa.
Qed.

(** ** Certificates

    Expressions are named by numbers; a set of them is the increasing list of
    its numbers. *)
Fixpoint add_id (i : N) (l : list N) : list N :=
  match l with
  | [] => [i]
  | j :: l' => match (i ?= j)%N with Lt => i :: l | Eq => l | Gt => j :: add_id i l' end
  end.
Definition merge_ids (l k : list N) : list N := foldr add_id k l.

Lemma elem_of_add_id i j l : j ∈ add_id i l <-> j = i \/ j ∈ l.
Proof.
  induction l as [|k l IH]; simpl; [by rewrite list_elem_of_singleton, elem_of_nil; tauto|].
  destruct (N.compare_spec i k) as [->|_|_]; rewrite ?elem_of_cons, ?IH; tauto.
Qed.

Lemma elem_of_merge_ids l k j : j ∈ merge_ids l k <-> j ∈ l \/ j ∈ k.
Proof.
  induction l as [|i l IH]; simpl; [by rewrite elem_of_nil; tauto|].
  rewrite elem_of_add_id, elem_of_cons, IH. tauto.
Qed.

Record certificate : Set := Certificate {
  reps : list Z;                                 (** one character of each class *)
  regs : list (N * (re * list (list N)));        (** the partial derivatives: a number,
                                                     the expression, and per class the
                                                     numbers of its derivatives *)
  rel : list (Z * list N)                        (** automaton state, derivative set *)
}.

(** *** Building a certificate (not trusted: [dfa_check] validates it) *)
Fixpoint closure (fuel : nat) (xs : list Z) (todo seen : list re) : list re :=
  match fuel, todo with
  | S f, r :: todo' =>
      let new := filter (fun r' => r' ∉ seen)
                   (remove_dups (concat (map (fun x => pd x r) xs))) in
      closure f xs (todo' ++ new) (seen ++ new)
  | _, _ => seen
  end.

Definition index_of (rs : list re) (r : re) : N :=
  match list_find (r =.) rs with Some (i, _) => N.of_nat i | None => N.of_nat (length rs) end.

(** Union, class by class, of the rows of the given numbers. *)
Definition rowsum (n : nat) (M : gmap N (re * list (list N))) (ids : list N) : list (list N) :=
  foldr (fun i acc => zip_with merge_ids (from_option snd [] (M !! i)) acc) (replicate n []) ids.

Fixpoint explore (fuel : nat) (step : Z -> Z -> Z) (xs : list Z)
    (M : gmap N (re * list (list N))) (todo seen : list (Z * list N)) : list (Z * list N) :=
  match fuel, todo with
  | S f, (q, ids) :: todo' =>
      let succ := zip_with (fun x ids' => (step q x, ids')) xs (rowsum (length xs) M ids) in
      let new := filter (fun p => p ∉ seen) (remove_dups succ) in
      explore f step xs M (todo' ++ new) (seen ++ new)
  | _, _ => seen
  end.

Definition make_certificate (fuel : nat) (step : Z -> Z -> Z) (q0 : Z)
    (xs : list Z) (main : re) : certificate :=
  let rs := closure fuel xs [main] [main] in
  let entry i r := (N.of_nat i, (r, map (fun x => map (index_of rs) (pd x r)) xs)) in
  let es := imap entry rs in
  Certificate xs es (explore fuel step xs (list_to_map es) [(q0, [0%N])] [(q0, [0%N])]).

(** *** The checker *)
Definition all_chars : list Z := map (fun i => -128 + Z.of_nat i) (seq 0 256).

Definition rel_index (l : list (Z * list N)) : gmap Z (list (list N)) :=
  foldr (fun '(q, ids) M => <[q := ids :: default [] (M !! q)]> M) ∅ l.

Section checker.
Context (step : Z -> Z -> Z) (final : Z -> bool) (rep : Z -> Z).
Context (main : re) (q0 : Z) (C : certificate).

Definition reg_map : gmap N (re * list (list N)) := list_to_map (regs C).

(** The numbers name the expressions, in order. *)
Fixpoint derivatives (M : gmap N (re * list (list N))) (js : list N) (rs : list re) : bool :=
  match js, rs with
  | [], [] => true
  | j :: js, r :: rs =>
      if from_option (fun e => re_eqb e.1 r) false (M !! j) then derivatives M js rs else false
  | _, _ => false
  end.

Definition reg_ok (M : gmap N (re * list (list N))) (e : N * (re * list (list N))) : bool :=
  let '(_, (r, ts)) := e in
  Nat.eqb (length ts) (length (reps C)) &&
  forallb (fun '(x, js) => derivatives M js (pd x r)) (zip (reps C) ts).

Definition regs_ok : bool := let M := reg_map in forallb (reg_ok M) (regs C).

Definition nullable_set (M : gmap N (re * list (list N))) (ids : list N) : bool :=
  existsb (fun i => from_option (fun e => nullable e.1) false (M !! i)) ids.

Definition pair_ok (M : gmap N (re * list (list N))) (R : gmap Z (list (list N)))
    (p : Z * list N) : bool :=
  Bool.eqb (final p.1) (nullable_set M p.2) &&
  forallb (fun i => bool_decide (is_Some (M !! i))) p.2 &&
  forallb (fun '(x, ids) => existsb (fun ids' => bool_decide (ids = ids'))
                              (default [] (R !! step p.1 x)))
    (zip (reps C) (rowsum (length (reps C)) M p.2)).

Definition rel_ok : bool :=
  let M := reg_map in
  let R := rel_index (rel C) in
  forallb (pair_ok M R) (rel C).

Definition classes_ok : bool :=
  forallb (fun c => bool_decide (rep c ∈ reps C)) all_chars &&
  forallb (fun rs => forallb (fun c => Bool.eqb (in_cls rs c) (in_cls rs (rep c)))
                       all_chars)
    (remove_dups (atoms main)).

Definition dfa_check : bool :=
  bool_decide (fst <$> reg_map !! 0%N = Some main) &&
  bool_decide (head (rel C) = Some (q0, [0%N])) &&
  regs_ok && classes_ok && rel_ok.

(** *** Soundness *)
Definition set_of (ids : list N) : list re := omap (fun i => fst <$> reg_map !! i) ids.

Lemma elem_of_set_of r ids :
  r ∈ set_of ids <-> exists i ts, i ∈ ids /\ reg_map !! i = Some (r, ts).
Proof.
  unfold set_of. rewrite list_elem_of_omap. split.
  - intros (i & Hi & ([r' ts] & Hr & E)%fmap_Some_1). exists i, ts. simpl in E. by subst r'.
  - intros (i & ts & Hi & E). exists i. by rewrite E.
Qed.

Lemma nullable_set_spec ids : nullable_set reg_map ids = true <-> any_matches (set_of ids) [].
Proof.
  unfold nullable_set, any_matches. rewrite existsb_exists. split.
  - intros (i & Hi%list_elem_of_In & Hn).
    destruct (reg_map !! i) as [[r ts]|] eqn:E; [|discriminate].
    exists r. rewrite elem_of_set_of. split; [eauto|by apply nullable_spec].
  - intros (r & (i & ts & Hi & E)%elem_of_set_of & Hm). exists i.
    split; [by apply list_elem_of_In|]. rewrite E. by apply nullable_spec.
Qed.

Lemma rowsum_lookup k ids :
  (k < length (reps C))%nat ->
  (forall i, i ∈ ids -> exists r ts, reg_map !! i = Some (r, ts) /\ length ts = length (reps C)) ->
  exists l, rowsum (length (reps C)) reg_map ids !! k = Some l /\
    forall j, j ∈ l <-> exists i r ts,
      i ∈ ids /\ reg_map !! i = Some (r, ts) /\ j ∈ default [] (ts !! k).
Proof.
  intros Hk. induction ids as [|i ids IH]; intros Hall; simpl.
  - exists []. split; [by apply lookup_replicate_2|]. intros j.
    split; [by intros ?%not_elem_of_nil|]. by intros (? & ? & ? & ?%not_elem_of_nil & _).
  - destruct (Hall i) as (r & ts & Hts & Hlen); [left|].
    destruct IH as (l & Hl & IH). { intros. apply Hall. by right. }
    destruct (lookup_lt_is_Some_2 ts k) as [js Hjs]; [lia|].
    exists (merge_ids js l). rewrite lookup_zip_with, Hts, Hl. simpl. rewrite Hjs.
    split; [done|]. intros j. rewrite elem_of_merge_ids, IH. split.
    + intros [Hj|(i' & r' & ts' & ? & ? & ?)].
      * exists i, r, ts. rewrite Hjs. split_and!; [left|done|done].
      * exists i', r', ts'. split_and!; [by right|done|done].
    + intros (i' & r' & ts' & [->|Hi]%elem_of_cons & E & Hj).
      * left. rewrite Hts in E. injection E as -> ->. by rewrite Hjs in Hj.
      * right. exists i', r', ts'. done.
Qed.

Lemma rel_index_spec l q ids :
  ids ∈ default [] (rel_index l !! q) -> (q, ids) ∈ l.
Proof.
  induction l as [|[q' ids'] l IH]; simpl.
  - rewrite lookup_empty. simpl. by intros ?%not_elem_of_nil.
  - destruct (decide (q' = q)) as [->|Hne].
    + rewrite lookup_insert_eq. simpl. intros [->|H]%elem_of_cons; [left|right; auto].
    + rewrite lookup_insert_ne by done. right. auto.
Qed.

Lemma pd_atoms c r r' : r' ∈ pd c r -> forall rs, rs ∈ atoms r' -> rs ∈ atoms r.
Proof.
  assert (forall a b rs, rs ∈ atoms (mk_seq a b) -> rs ∈ atoms a ++ atoms b) as Hmk.
  { intros a b rs. destruct a; simpl; auto. }
  revert r'. induction r as [| |cs|a IHa b IHb|a IHa b IHb|a IHa];
    intros r' H rs Hrs; simpl in *.
  - by apply not_elem_of_nil in H.
  - by apply not_elem_of_nil in H.
  - destruct (in_cls cs c); [|by apply not_elem_of_nil in H].
    apply list_elem_of_singleton in H as ->. by apply not_elem_of_nil in Hrs.
  - rewrite elem_of_app. apply elem_of_app in H as [H|H].
    + apply list_elem_of_fmap in H as (a' & -> & Ha').
      apply Hmk, elem_of_app in Hrs as [?|?]; [left|by right]. by apply (IHa a').
    + destruct (nullable a); [|by apply not_elem_of_nil in H].
      right. by apply (IHb r').
  - rewrite elem_of_app. apply elem_of_app in H as [H|H]; [left|right]; eauto.
  - apply list_elem_of_fmap in H as (a' & -> & Ha').
    apply Hmk, elem_of_app in Hrs as [?|?]; [|done]. by apply (IHa a').
Qed.

Lemma derivatives_spec M js rs :
  derivatives M js rs = true ->
  Forall2 (fun j r => exists ts, M !! j = Some (r, ts)) js rs.
Proof.
  revert rs. induction js as [|j js IH]; intros [|r rs]; simpl; try done.
  intros [H1 H2]%andb_true_iff. constructor; [|auto].
  destruct (M !! j) as [[r' ts]|]; [|done]. apply re_eqb_eq in H1 as <-. eauto.
Qed.

Lemma regs_ok_spec i r ts :
  regs_ok = true -> reg_map !! i = Some (r, ts) ->
  length ts = length (reps C) /\
  forall k x, reps C !! k = Some x ->
  forall r', r' ∈ pd x r <->
             exists j ts', j ∈ default [] (ts !! k) /\ reg_map !! j = Some (r', ts').
Proof.
  unfold regs_ok. intros H Hr. rewrite forallb_forall in H.
  apply elem_of_list_to_map_2, list_elem_of_In, H in Hr as Hin.
  apply andb_true_iff in Hin as [Hlen%Nat.eqb_eq Hin]. split; [done|]. intros k x Hx r'.
  destruct (lookup_lt_is_Some_2 ts k) as [js Hjs].
  { rewrite Hlen. by eapply lookup_lt_Some. }
  rewrite forallb_forall in Hin. specialize (Hin (x, js)). rewrite Hjs. simpl.
  assert (In (x, js) (zip (reps C) ts)) as Hin'.
  { apply list_elem_of_In, list_elem_of_lookup. exists k. by apply lookup_zip_Some. }
  apply Hin, derivatives_spec in Hin'. split.
  - intros Hr'. apply list_elem_of_lookup in Hr' as [n Hn].
    destruct (Forall2_lookup_r _ _ _ _ _ Hin' Hn) as (j & Hj & ts' & E).
    exists j, ts'. split; [by apply list_elem_of_lookup; eauto|done].
  - intros (j & ts' & Hj & E). apply list_elem_of_lookup in Hj as [n Hn].
    destruct (Forall2_lookup_l _ _ _ _ _ Hin' Hn) as (r2 & Hr2 & ts2 & E2).
    rewrite E in E2. injection E2 as -> ->. apply list_elem_of_lookup. eauto.
Qed.

(** One step of the automaton is one partial derivation of the set. *)
Lemma rel_step q ids x :
  regs_ok = true -> rel_ok = true -> (q, ids) ∈ rel C -> x ∈ reps C ->
  exists ids', (step q x, ids') ∈ rel C /\
    forall r', r' ∈ set_of ids' <-> exists r, r ∈ set_of ids /\ r' ∈ pd x r.
Proof.
  intros Hregs Hrel Hin Hx.
  unfold rel_ok in Hrel. rewrite forallb_forall in Hrel.
  apply list_elem_of_In, Hrel in Hin. unfold pair_ok in Hin; simpl in Hin.
  apply andb_true_iff in Hin as [[Hf Hids]%andb_true_iff Hsucc].
  rewrite forallb_forall in Hids, Hsucc.
  apply list_elem_of_lookup in Hx as [k Hk].
  assert (forall i, i ∈ ids ->
    exists r ts, reg_map !! i = Some (r, ts) /\ length ts = length (reps C)) as Hsome.
  { intros i Hi%list_elem_of_In%Hids%bool_decide_eq_true. destruct Hi as [[r ts] E].
    exists r, ts. split; [done|]. by apply (regs_ok_spec i r ts Hregs). }
  destruct (rowsum_lookup k ids) as (l & Hl & Hrow); [by eapply lookup_lt_Some|done|].
  assert (In (x, l) (zip (reps C) (rowsum (length (reps C)) reg_map ids))) as Hz.
  { apply list_elem_of_In, list_elem_of_lookup. exists k. by apply lookup_zip_Some. }
  apply Hsucc, existsb_exists in Hz as (ids' & Hm & <-%bool_decide_eq_true).
  apply list_elem_of_In, rel_index_spec in Hm.
  exists l. split; [done|]. intros r'. rewrite elem_of_set_of.
  setoid_rewrite elem_of_set_of. split.
  - intros (j & ts' & (i & r & ts & Hi & E & Hj)%Hrow & E').
    destruct (regs_ok_spec i r ts Hregs E) as [_ Hpd].
    exists r. split; [eauto|]. apply (Hpd k x Hk). eauto.
  - intros (r & (i & ts & Hi & E) & Hr').
    destruct (regs_ok_spec i r ts Hregs E) as [_ Hpd].
    destruct (proj1 (Hpd k x Hk r') Hr') as (j & ts' & Hj & E'). exists j, ts'.
    split; [|done]. apply Hrow. by exists i, r, ts.
Qed.

Lemma all_chars_spec c : char_range c -> In c all_chars.
Proof.
  intros H. unfold char_range in H. apply in_map_iff. exists (Z.to_nat (c + 128)).
  split; [lia|]. apply in_seq. lia.
Qed.

Lemma classes_ok_spec :
  classes_ok = true ->
  (forall c, char_range c -> rep c ∈ reps C) /\ respects rep main.
Proof.
  intros [H1 H2]%andb_true_iff. rewrite !forallb_forall in *. split.
  - intros c Hc%all_chars_spec. specialize (H1 c Hc). by apply bool_decide_eq_true in H1.
  - intros rs c Hrs Hc%all_chars_spec.
    assert (In rs (remove_dups (atoms main))) as Hin.
    { by apply list_elem_of_In, elem_of_remove_dups. }
    apply H2 in Hin. rewrite forallb_forall in Hin. by apply Hin, eqb_prop in Hc.
Qed.

Lemma rel_run :
  regs_ok = true -> rel_ok = true ->
  (forall c, char_range c -> rep c ∈ reps C) ->
  (forall q ids c, (q, ids) ∈ rel C -> char_range c -> step q c = step q (rep c)) ->
  forall w, Forall char_range w ->
  forall q ids, (q, ids) ∈ rel C -> (forall r, r ∈ set_of ids -> respects rep r) ->
  final (fold_left step w q) = true <-> any_matches (set_of ids) w.
Proof.
  intros Hregs Hrel Hrep Hstep w Hw.
  induction Hw as [|c w Hc Hw IH]; intros q ids Hin Hresp; simpl.
  - rewrite <- nullable_set_spec. unfold rel_ok in Hrel. rewrite forallb_forall in Hrel.
    apply list_elem_of_In, Hrel in Hin. unfold pair_ok in Hin; simpl in Hin.
    apply andb_true_iff in Hin as [[->%eqb_prop _]%andb_true_iff _]. done.
  - destruct (rel_step q ids (rep c) Hregs Hrel Hin (Hrep c Hc)) as (ids' & Hin' & Hset).
    rewrite (Hstep q ids c Hin Hc), (IH _ ids' Hin').
    + unfold any_matches. split.
      * intros (r' & (r & Hr & Hr')%Hset & Hm). exists r. split; [done|].
        apply pd_spec. exists r'. by rewrite (pd_respects rep r c (Hresp r Hr) Hc).
      * intros (r & Hr & (r' & Hr' & Hm)%pd_spec). exists r'. split; [|done].
        apply Hset. exists r. by rewrite <- (pd_respects rep r c (Hresp r Hr) Hc).
    + intros r' (r & Hr & Hr')%Hset rs d Hrs. apply (Hresp r Hr).
      by apply (pd_atoms _ _ _ Hr').
Qed.

(** The automaton and the expression accept the same words. *)
Lemma dfa_check_sound :
  dfa_check = true ->
  (forall q ids c, (q, ids) ∈ rel C -> char_range c -> step q c = step q (rep c)) ->
  forall w, Forall char_range w ->
  final (fold_left step w q0) = true <-> matches main w.
Proof.
  unfold dfa_check. intros Hck Hstep w Hw. bool_hyps.
  destruct (classes_ok_spec) as [Hrep Hmain]; [done|].
  assert (set_of [0%N] = [main]) as Hset.
  { unfold set_of. simpl. by match goal with H : _ <$> reg_map !! _ = _ |- _ => rewrite H end. }
  rewrite (rel_run ltac:(done) ltac:(done) Hrep Hstep w Hw q0 [0%N]).
  - rewrite Hset. split.
    + by intros (r & ->%list_elem_of_singleton & ?).
    + intros ?. exists main. split; [by left|done].
  - destruct (rel C); simplify_eq/=. by left.
  - rewrite Hset. by intros r ->%list_elem_of_singleton.
Qed.
End checker.
