(* ===== verification/Ragel.v ===== *)
(** * Programs generated by Ragel

    What the tables of the generated state machines (uri.cc,
    http_request_parser.cc, http_response_parser.cc) have in common: the labels
    a case jumps to, its [switch], the program that runs a table, and the check that the characters of a class
    take the same jumps in every state. *)
From stdpp Require Import base list gmap.
From Stdlib Require Import ZArith Ascii Lia.
From S2P Require Import Prelude CLib RegExp.
Open Scope Z_scope.

(** The labels a case jumps to: [stn] (advance and enter state [n]) or [trn]
    (run the transition's actions first). *)
Inductive label : Set :=
| st (n : Z)
| tr (n : Z).

#[export] Instance label_eq_dec : EqDecision label.
Proof. solve_decision. Defined.

(** [switch (c)] whose cases all jump; [dflt] is the code after it. *)
Fixpoint switch (c : Z) (cases : list (Z * label)) (dflt : label) : label :=
  match cases with
  | (v, l) :: cases' => if c =? v then l else switch c cases' dflt
  | [] => dflt
  end.

(** ** The goto program

    [has_case q]: the switch on [cs] has a case for [q]; [goto]: the actions of
    the jump out of a state and the state it leads to; [run_actions]: what the
    actions do, [Some n] when they leave the program with [p] advanced and
    [cs = n]. *)
Section program.
Context {S A : Type} (has_case : Z -> bool) (goto : S -> Z -> Z -> outcome (list A * Z))
  (run_actions : list A -> Z -> S -> outcome (S * option Z)).

(** The program from [switch (cs)] on, with the text from [p] on: the result
    holds [cs], [p] and the data. A [cs] without a case, the error state, falls
    out of the switch into the code of [_test_eof2]. *)
Fixpoint program (rest : list ascii) (cs p : Z) (s : S) : outcome (Z * Z * S) :=
  match rest with
  | [] => Ret (cs, p, s)
  | a :: rest =>
      if has_case cs then
        let! g := goto s cs (schar a) in
        let '(acts, n) := g in
        let! r := run_actions acts p s in
        match r with
        | (s, Some n) => Ret (n, p + 1, s)
        | (s, None) => if n =? 0 then Ret (0, p, s) else program rest n (p + 1) s
        end
      else Ret (2, p, s)
  end.

Lemma program_step a rest q p s acts n :
  has_case q = true -> goto s q (schar a) = Ret (acts, n) ->
  program (a :: rest) q p s =
  let! r := run_actions acts p s in
  match r with
  | (s, Some n) => Ret (n, p + 1, s)
  | (s, None) => if n =? 0 then Ret (0, p, s) else program rest n (p + 1) s
  end.
Proof. intros Hq Hg. cbn [program]. by rewrite Hq, Hg. Qed.

(** What the actions keep, the program keeps. *)
Lemma program_keeps (Inv : S -> Prop) :
  (forall acts p s s' n, Inv s -> run_actions acts p s = Ret (s', n) -> Inv s') ->
  forall rest q p s q' p' s', Inv s -> program rest q p s = Ret (q', p', s') -> Inv s'.
Proof.
  intros Hact rest. induction rest as [|a rest IH]; intros q p s q' p' s' HI; cbn [program].
  { by intros [= _ _ <-]. }
  destruct (has_case q); [|by intros [= _ _ <-]].
  intros ([acts n] & _ & ([s1 n1] & Ha%Hact & H)%obind_Ret_inv)%obind_Ret_inv; [|exact HI].
  destruct n1 as [n1|]; [by injection H as _ _ <-|].
  destruct (n =? 0); [by injection H as _ _ <-|]. by apply (IH _ _ _ _ _ _ Ha H).
Qed.
End program.

(** ** Character classes *)

(** Intervals of characters with the representative of their class. *)
Fixpoint class_of (l : list (Z * Z * Z)) (c : Z) : Z :=
  match l with
  | (lo, hi, r) :: l' => if (lo <=? c) && (c <=? hi) then r else class_of l' c
  | [] => c
  end.

(** Characters of one class take the same jump in every case. *)
Definition classes_respected {A} `{EqDecision A} (class : Z -> Z)
    (cases : list (Z * (Z -> A))) : bool :=
  let cs := map (fun c => (c, class c)) all_chars in
  forallb (fun '(_, f) => forallb (fun '(c, r) => bool_decide (f c = f r)) cs) cases.

Lemma classes_respected_lookup {A} `{EqDecision A} (class : Z -> Z)
    (cases : list (Z * (Z -> A))) q f c :
  classes_respected class cases = true -> (q, f) ∈ cases -> char_range c ->
  f c = f (class c).
Proof.
  unfold classes_respected. intros H Hin Hc. rewrite forallb_forall in H.
  apply list_elem_of_In, H in Hin. rewrite forallb_forall in Hin.
  assert (In (c, class c) (map (fun c => (c, class c)) all_chars)) as E.
  { apply in_map_iff. exists c. split; [done|]. by apply all_chars_spec. }
  apply Hin in E. by apply bool_decide_eq_true in E.
Qed.

Lemma lookup_map_fst {A} (l : list (Z * A)) q :
  q ∈ map fst l -> is_Some ((list_to_map l : gmap Z A) !! q).
Proof.
  intros Hq. apply not_eq_None_Some. intros E. apply not_elem_of_list_to_map in E. by apply E.
Qed.

Lemma map_fst_lookup {A} (l : list (Z * A)) q :
  is_Some ((list_to_map l : gmap Z A) !! q) -> q ∈ map fst l.
Proof. intros [k Hk]. apply elem_of_list_to_map_2 in Hk. apply list_elem_of_fmap. by exists (q, k). Qed.

(** A check of every state with every character of a list. *)
Lemma forallb_grid {A B} (f : A -> B -> bool) xs ys x y :
  forallb (fun x => forallb (f x) ys) xs = true -> x ∈ xs -> y ∈ ys -> f x y = true.
Proof.
  intros H Hx%list_elem_of_In Hy%list_elem_of_In. rewrite forallb_forall in H.
  specialize (H x Hx). rewrite forallb_forall in H. by apply H.
Qed.

(** ** Every state leads to a final one

    [alive] lists states, each with a character that leads to a final state or
    to one listed before it. *)
Fixpoint alive_ok (next : Z -> Z -> Z) (final : Z -> bool) (done : gset Z) (l : list (Z * Z))
    : option (gset Z) :=
  match l with
  | [] => Some done
  | (q, c) :: l =>
      if (-128 <=? c) && (c <? 128) && (final (next q c) || bool_decide (next q c ∈ done))
      then alive_ok next final ({[q]} ∪ done) l else None
  end.

(** A text, not empty, that leads to a final state. *)
Definition completes (next : Z -> Z -> Z) (final : Z -> bool) (q : Z) : Prop :=
  exists w, w <> [] /\ Forall char_range w /\ final (fold_left next w q) = true.

Lemma alive_ok_spec next final done l s :
  alive_ok next final done l = Some s -> (forall q, q ∈ done -> completes next final q) ->
  forall q, q ∈ s -> completes next final q.
Proof.
  revert done. induction l as [|[q c] l IH]; intros done; simpl; [by intros [= <-]|].
  destruct (_ && _) eqn:E; [|done]. intros Hl Hd. apply (IH _ Hl).
  apply andb_true_iff in E as [[H1%Z.leb_le H2%Z.ltb_lt]%andb_true_iff E].
  intros q' [->%elem_of_singleton|Hq]%elem_of_union; [|by apply Hd].
  apply orb_true_iff in E as [E|E%bool_decide_eq_true].
  - exists [c]. split_and!; [done| |done]. constructor; [unfold char_range; lia|constructor].
  - destruct (Hd _ E) as (w & _ & Hw & Hf). exists (c :: w). split_and!; [done| |done].
    constructor; [unfold char_range; lia|done].
Qed.

(** The table: rounds over the states, each adding those one step further away. *)
Fixpoint alive_rounds (fuel : nat) (succ : list (Z * list (Z * Z))) (final : Z -> bool)
    (done : gset Z) : list (Z * Z) :=
  match fuel with
  | O => []
  | S fuel =>
      let reach '(q, cs) :=
        if bool_decide (q ∈ done) then None
        else match list_find (fun cn : Z * Z => final cn.2 = true \/ cn.2 ∈ done) cs with
             | Some (_, (c, _)) => Some (q, c)
             | None => None
             end in
      let new := omap reach succ in
      new ++ alive_rounds fuel succ final (list_to_set (map fst new) ∪ done)
  end.

Lemma alive_completes next final l done s states q :
  alive_ok next final done l = Some s -> done = ∅ ->
  forallb (fun q => bool_decide (q ∈ s)) states = true -> q ∈ states -> completes next final q.
Proof.
  intros Hs -> H Hq. rewrite forallb_forall in H.
  apply list_elem_of_In, H, bool_decide_eq_true in Hq. revert Hq.
  apply (alive_ok_spec _ _ _ _ _ Hs). by intros q' ?%not_elem_of_empty.
Qed.

(** ** Reading a text

    The program as it reads a text: it ends the text, or stops at a character
    that leads nowhere, or behind the one that leads to a final state. [states]
    are the active ones: with a case, and not final. *)
Section reading.
Context (next : Z -> Z -> Z) (final : Z -> bool) (states : list Z).

Inductive reading : list ascii -> Z -> Z -> Z -> Prop :=
| read_all q : q ∈ states -> reading [] q q 0
| read_reject a rest q :
    q ∈ states -> next q (schar a) = 0 -> reading (a :: rest) q 0 0
| read_done a rest q n :
    q ∈ states -> next q (schar a) = n -> final n = true -> reading (a :: rest) q n 1
| read_step a rest q n q' k :
    q ∈ states -> next q (schar a) = n -> n ∈ states ->
    reading rest n q' k -> reading (a :: rest) q q' (k + 1).

Abbreviation chars data := (map schar data).

(** Every state before the last is active. *)
Lemma reading_active l q q' k :
  reading l q q' k -> forall j : nat, Z.of_nat j < k ->
  fold_left next (chars (take j l)) q ∈ states.
Proof.
  induction 1 as [q Hq|a rest q Hq E|a rest q n Hq E Hf|a rest q n q' k Hq E Hn Hrd IH]; intros j Hj.
  - lia.
  - lia.
  - by replace j with 0%nat by lia.
  - destruct j as [|j]; [done|]. simpl. rewrite E. apply IH. lia.
Qed.

Lemma reading_end l q q' k :
  reading l q q' k ->
  0 <= k <= Z.of_nat (List.length l) /\
  ((k = Z.of_nat (List.length l) /\ q' ∈ states /\ fold_left next (chars l) q = q') \/
   (0 < k /\ final q' = true /\ fold_left next (chars (take (Z.to_nat k) l)) q = q') \/
   (k < Z.of_nat (List.length l) /\ q' = 0 /\
    fold_left next (chars (take (Z.to_nat k) l)) q ∈ states /\
    fold_left next (chars (take (Z.to_nat (k + 1)) l)) q = 0)).
Proof.
  induction 1 as [q Hq|a rest q Hq E|a rest q n Hq E Hf|a rest q n q' k Hq E Hn Hrd [Hk IH]];
    cbn [List.length].
  - split; [done|]. by left.
  - split; [lia|]. right; right. split; [lia|done].
  - split; [lia|]. right; left. split; [lia|done].
  - split; [lia|]. replace (Z.to_nat (k + 1)) with (S (Z.to_nat k)) by lia.
    replace (Z.to_nat (k + 1 + 1)) with (S (Z.to_nat (k + 1))) by lia. simpl. rewrite E.
    destruct IH as [(? & ? & ?)|[(? & ? & ?)|(? & ? & ? & ?)]]; [left|right; left|right; right].
    + split; [lia|done].
    + split; [lia|done].
    + split_and!; [lia|done..].
Qed.

(** A program whose steps are those of [next] and keep an invariant, over a
    buffer of [size] characters. *)
Context {S A : Type} (has_case : Z -> bool) (goto : S -> Z -> Z -> outcome (list A * Z))
  (run_actions : list A -> Z -> S -> outcome (S * option Z)).
Context (size : Z) (Inv : Z -> Z -> S -> Prop) (End : S -> Prop).
Abbreviation program := (program has_case goto run_actions).
Context (Inv_end : forall q p s, 0 <= p <= size -> 0 < size -> Inv q p s -> End s).
Context (step : forall q a rest p s, q ∈ states -> 0 <= p < size -> Inv q p s ->
  let n := next q (schar a) in
  exists s',
    program (a :: rest) q p s =
      (if n =? 0 then Ret (0, p, s') else if final n then Ret (n, p + 1, s')
       else program rest n (p + 1) s') /\
    End s' /\ (n = 0 \/ final n = true \/ n ∈ states /\ Inv n (p + 1) s')).

Lemma program_safe rest : forall q p s,
  q ∈ states -> 0 <= p -> p + Z.of_nat (List.length rest) = size -> 0 < size -> Inv q p s ->
  exists q' k s', program rest q p s = Ret (q', p + k, s') /\ reading rest q q' k /\
    0 <= k <= Z.of_nat (List.length rest) /\ End s'.
Proof using Inv_end step.
  induction rest as [|a rest IH]; intros q p s Hq Hp Hl Hne HI; cbn [List.length] in Hl.
  - exists q, 0, s. rewrite Z.add_0_r. split_and!; [done|by constructor|lia|simpl; lia|].
    apply (Inv_end q p); [lia|done|done].
  - destruct (step q a rest p s Hq) as (s1 & E & HE & Hn); [lia|done|].
    set (n := next q (schar a)) in *. rewrite E.
    destruct (Z.eqb_spec n 0) as [E0|E0].
    { exists 0, 0, s1. rewrite Z.add_0_r.
      split_and!; [done|by constructor|lia|cbn [List.length]; lia|done]. }
    destruct (final n) eqn:Hf.
    { exists n, 1, s1. split_and!; [done|by constructor|lia|cbn [List.length]; lia|done]. }
    destruct Hn as [?|[?|[Hact HI1]]]; [done|congruence|].
    destruct (IH n (p + 1) s1) as (q' & k & s2 & E2 & Hrd & Hk & HE2); [done|lia|lia|lia|done|].
    exists q', (k + 1), s2. rewrite E2.
    split_and!; [by replace (p + (k + 1)) with (p + 1 + k) by lia| |lia|cbn [List.length]; lia|done].
    by apply (read_step _ _ _ n).
Qed.
End reading.

(** ** What has been read, in terms of a language *)

Lemma text_range data : Forall char_range (map schar data).
Proof. apply Forall_forall. intros c (a & -> & _)%list_elem_of_fmap. apply schar_range. Qed.

(** A text with a continuation in the language, among the characters; one with
    a continuation that is not empty. *)
Definition viable (L : list Z -> Prop) (w : list Z) : Prop :=
  exists v, Forall char_range v /\ L (w ++ v).
Definition extendable (L : list Z -> Prop) (w : list Z) : Prop :=
  exists v, v <> [] /\ Forall char_range v /\ L (w ++ v).

Section language.
Context (next : Z -> Z -> Z) (final : Z -> bool) (start : Z) (L : list Z -> Prop).
Context (lang : forall w, Forall char_range w -> final (fold_left next w start) = true <-> L w).

Lemma state_extendable w :
  Forall char_range w -> completes next final (fold_left next w start) -> extendable L w.
Proof using lang.
  intros Hw (v & Hne & Hv & Hf). exists v. split; [exact Hne|]. split; [exact Hv|].
  apply lang; [by apply Forall_app|]. by rewrite fold_left_app.
Qed.

Lemma state_viable w :
  Forall char_range w -> completes next final (fold_left next w start) -> viable L w.
Proof using lang. intros Hw (v & _ & Hv & HL)%state_extendable; [by exists v|exact Hw]. Qed.

Lemma state_unread w : Forall char_range w -> final (fold_left next w start) = false -> ~ L w.
Proof using lang. intros Hw Hf H%(lang w Hw). congruence. Qed.

Lemma state_dead w q :
  Forall char_range w -> fold_left next w start = q ->
  (forall v, final (fold_left next v q) = false) -> ~ viable L w.
Proof using lang.
  intros Hw E Hq (v & Hv & H). apply (lang _ (Forall_app_2 _ _ _ Hw Hv)) in H.
  rewrite fold_left_app, E in H. specialize (Hq v). congruence.
Qed.
End language.
