(* ===== verification/UriTable.v ===== *)
(** * The URI parser's state machine

    [URI::Create] (src/qslary/net/uri.cc) runs the goto program Ragel made of
    src/qslary/net/uri.rl. This file holds that program, block by block in the
    order of the source: [uri_cases_k] gives, for each [case n:] of the block,
    the label the code jumps to on the character [c] (the [switch] and the
    nested tests as they are written), and [uri_trans_k] gives, for each label
    [trn:], the actions it executes and the state it continues in. *)
From stdpp Require Import base list.
From Stdlib Require Import ZArith.
From S2P Require Import Prelude Ragel.
Import ListNotations.
Open Scope Z_scope.

(** The action blocks of the grammar, named after their Ragel actions; the
    bodies are given in Uri.v. *)
Inductive action : Set :=
| Mark
| SaveScheme
| SavePort
| SaveUserinfo
| SaveHost
| SavePath
| SaveQuery
| SaveFragment.

(** uri.cc, lines 41-188 *)
Definition uri_cases_1 : list (Z * (Z -> label)) :=
  [(451, fun c =>
    switch c
      [(34, st 0); (35, st 453); (37, st 3); (47, st 458); (58, st 0);
       (60, st 0); (62, st 0); (63, st 456); (96, st 0); (127, st 0)]
      (if c <? 91 then
          if c >? 32 then
            if (65 <=? c) && (c <=? 90) then tr 461
            else st 452
          else if c >=? 0 then st 0
          else st 452
        else if c >? 94 then
          if c >? 122 then
            if (123 <=? c) && (c <=? 125) then st 0
            else st 452
          else if c >=? 97 then tr 461
          else st 452
        else st 0));
   (452, fun c =>
    switch c
      [(34, st 0); (35, st 453); (37, st 3); (47, st 455); (58, st 0);
       (60, st 0); (62, st 0); (63, st 456); (96, st 0); (127, st 0)]
      (if c <? 91 then
          if (0 <=? c) && (c <=? 32) then st 0
          else st 452
        else if c >? 94 then
          if (123 <=? c) && (c <=? 125) then st 0
          else st 452
        else st 0))].

Definition uri_trans_1 : list (Z * (list action * Z)) :=
  [(467, ([Mark; SaveQuery], 453));
   (469, ([SaveQuery], 453));
   (474, ([Mark; SaveHost], 453));
   (485, ([SaveHost], 453));
   (489, ([Mark; SavePort], 453));
   (493, ([SavePort], 453));
   (548, ([Mark; SaveHost; SavePath], 453));
   (559, ([SaveHost; Mark; SavePath], 453))].

(** uri.cc, lines 189-326 *)
Definition uri_cases_2 : list (Z * (Z -> label)) :=
  [(453, fun c =>
    switch c
      [(37, tr 463); (60, st 0); (62, st 0); (96, st 0); (127, st 0)]
      (if c <? 34 then
          if (0 <=? c) && (c <=? 32) then st 0
          else tr 462
        else if c >? 35 then
          if c >? 94 then
            if (123 <=? c) && (c <=? 125) then st 0
            else tr 462
          else if c >=? 91 then st 0
          else tr 462
        else st 0));
   (454, fun c =>
    switch c
      [(37, st 1); (60, st 0); (62, st 0); (96, st 0); (127, st 0)]
      (if c <? 34 then
          if (0 <=? c) && (c <=? 32) then st 0
          else st 454
        else if c >? 35 then
          if c >? 94 then
            if (123 <=? c) && (c <=? 125) then st 0
            else st 454
          else if c >=? 91 then st 0
          else st 454
        else st 0));
   (1, fun c =>
    if c <? 65 then
      if (48 <=? c) && (c <=? 57) then st 2
      else st 0
    else if c >? 70 then
      if (97 <=? c) && (c <=? 102) then st 2
      else st 0
    else st 2);
   (2, fun c =>
    if c <? 65 then
      if (48 <=? c) && (c <=? 57) then st 454
      else st 0
    else if c >? 70 then
      if (97 <=? c) && (c <=? 102) then st 454
      else st 0
    else st 454);
   (3, fun c =>
    if c <? 65 then
      if (48 <=? c) && (c <=? 57) then st 4
      else st 0
    else if c >? 70 then
      if (97 <=? c) && (c <=? 102) then st 4
      else st 0
    else st 4)].

Definition uri_trans_2 : list (Z * (list action * Z)) :=
  [(563, ([SavePath], 453));
   (566, ([Mark; SavePort; SavePath], 453));
   (570, ([SavePort; Mark; SavePath], 453));
   (462, ([Mark], 454));
   (463, ([Mark], 1))].

(** uri.cc, lines 327-469 *)
Definition uri_cases_3 : list (Z * (Z -> label)) :=
  [(4, fun c =>
    if c <? 65 then
      if (48 <=? c) && (c <=? 57) then st 452
      else st 0
    else if c >? 70 then
      if (97 <=? c) && (c <=? 102) then st 452
      else st 0
    else st 452);
   (455, fun c =>
    switch c
      [(34, st 0); (35, st 453); (37, st 5); (60, st 0); (62, st 0);
       (63, st 456); (96, st 0); (127, st 0)]
      (if c <? 91 then
          if (0 <=? c) && (c <=? 32) then st 0
          else st 455
        else if c >? 94 then
          if (123 <=? c) && (c <=? 125) then st 0
          else st 455
        else st 0));
   (5, fun c =>
    if c <? 65 then
      if (48 <=? c) && (c <=? 57) then st 6
      else st 0
    else if c >? 70 then
      if (97 <=? c) && (c <=? 102) then st 6
      else st 0
    else st 6);
   (6, fun c =>
    if c <? 65 then
      if (48 <=? c) && (c <=? 57) then st 455
      else st 0
    else if c >? 70 then
      if (97 <=? c) && (c <=? 102) then st 455
      else st 0
    else st 455)].

Definition uri_trans_3 : list (Z * (list action * Z)) :=
  [(476, ([Mark; SaveHost], 455));
   (486, ([SaveHost], 455));
   (490, ([Mark; SavePort], 455));
   (494, ([SavePort], 455));
   (482, ([Mark; SaveHost], 456));
   (488, ([SaveHost], 456));
   (492, ([Mark; SavePort], 456));
   (496, ([SavePort], 456))].

(** uri.cc, lines 470-613 *)
Definition uri_cases_4 : list (Z * (Z -> label)) :=
  [(456, fun c =>
    switch c
      [(34, st 0); (35, tr 467); (37, tr 468); (60, st 0); (62, st 0);
       (96, st 0); (127, st 0)]
      (if c <? 91 then
          if (0 <=? c) && (c <=? 32) then st 0
          else tr 466
        else if c >? 94 then
          if (123 <=? c) && (c <=? 125) then st 0
          else tr 466
        else st 0));
   (457, fun c =>
    switch c
      [(34, st 0); (35, tr 469); (37, st 7); (60, st 0); (62, st 0);
       (96, st 0); (127, st 0)]
      (if c <? 91 then
          if (0 <=? c) && (c <=? 32) then st 0
          else st 457
        else if c >? 94 then
          if (123 <=? c) && (c <=? 125) then st 0
          else st 457
        else st 0));
   (7, fun c =>
    if c <? 65 then
      if (48 <=? c) && (c <=? 57) then st 8
      else st 0
    else if c >? 70 then
      if (97 <=? c) && (c <=? 102) then st 8
      else st 0
    else st 8)].

Definition uri_trans_4 : list (Z * (list action * Z)) :=
  [(556, ([Mark; SaveHost; SavePath], 456));
   (562, ([SaveHost; Mark; SavePath], 456));
   (565, ([SavePath], 456));
   (569, ([Mark; SavePort; SavePath], 456));
   (573, ([SavePort; Mark; SavePath], 456));
   (466, ([Mark], 457));
   (468, ([Mark], 7))].

(** uri.cc, lines 614-757 *)
Definition uri_cases_5 : list (Z * (Z -> label)) :=
  [(8, fun c =>
    if c <? 65 then
      if (48 <=? c) && (c <=? 57) then st 457
      else st 0
    else if c >? 70 then
      if (97 <=? c) && (c <=? 102) then st 457
      else st 0
    else st 457);
   (458, fun c =>
    switch c
      [(34, st 0); (35, st 453); (37, st 5); (47, st 459); (60, st 0);
       (62, st 0); (63, st 456); (96, st 0); (127, st 0)]
      (if c <? 91 then
          if (0 <=? c) && (c <=? 32) then st 0
          else st 455
        else if c >? 94 then
          if (123 <=? c) && (c <=? 125) then st 0
          else st 455
        else st 0));
   (459, fun c =>
    switch c
      [(2, tr 472); (33, tr 473); (35, tr 474); (37, tr 475);
       (47, tr 476); (48, tr 477); (49, tr 478); (50, tr 479);
       (58, tr 481); (59, tr 473); (61, tr 473); (63, tr 482);
       (64, tr 483); (91, tr 484); (95, tr 473); (126, tr 473)]
      (if c <? 51 then
          if (36 <=? c) && (c <=? 46) then tr 473
          else st 0
        else if c >? 57 then
          if c >? 90 then
            if (97 <=? c) && (c <=? 122) then tr 473
            else st 0
          else if c >=? 65 then tr 473
          else st 0
        else tr 480));
   (9, fun c =>
    if (48 <=? c) && (c <=? 52) then st 10
    else st 0);
   (10, fun c =>
    if (48 <=? c) && (c <=? 57) then st 11
    else st 0);
   (11, fun c =>
    if c =? 46 then st 12
    else st 0);
   (12, fun c =>
    switch c
      [(2, st 13); (48, st 15); (49, st 27); (50, st 29)]
      (if (51 <=? c) && (c <=? 57) then st 28
        else st 0));
   (13, fun c =>
    if (48 <=? c) && (c <=? 52) then st 14
    else st 0);
   (14, fun c =>
    if (48 <=? c) && (c <=? 57) then st 15
    else st 0);
   (15, fun c =>
    if c =? 46 then st 16
    else st 0);
   (16, fun c =>
    switch c
      [(2, st 17); (48, st 19); (49, st 23); (50, st 25)]
      (if (51 <=? c) && (c <=? 57) then st 24
        else st 0))].

Definition uri_trans_5 : list (Z * (list action * Z)) :=
  [(472, ([Mark], 9))].

(** uri.cc, lines 758-906 *)
Definition uri_cases_6 : list (Z * (Z -> label)) :=
  [(17, fun c =>
    if (48 <=? c) && (c <=? 52) then st 18
    else st 0);
   (18, fun c =>
    if (48 <=? c) && (c <=? 57) then st 19
    else st 0);
   (19, fun c =>
    if c =? 46 then st 20
    else st 0);
   (20, fun c =>
    switch c
      [(2, st 21); (48, st 460); (49, st 463); (50, st 465)]
      (if (51 <=? c) && (c <=? 57) then st 464
        else st 0));
   (21, fun c =>
    if (48 <=? c) && (c <=? 52) then st 22
    else st 0);
   (22, fun c =>
    if (48 <=? c) && (c <=? 57) then st 460
    else st 0);
   (460, fun c =>
    switch c
      [(35, tr 485); (47, tr 486); (58, tr 487); (63, tr 488)]
      (st 0));
   (461, fun c =>
    switch c
      [(35, tr 489); (47, tr 490); (63, tr 492)]
      (if (48 <=? c) && (c <=? 57) then tr 491
        else st 0));
   (462, fun c =>
    switch c
      [(35, tr 493); (47, tr 494); (63, tr 496)]
      (if (48 <=? c) && (c <=? 57) then st 462
        else st 0));
   (463, fun c =>
    switch c
      [(35, tr 485); (47, tr 486); (58, tr 487); (63, tr 488)]
      (if (48 <=? c) && (c <=? 57) then st 464
        else st 0));
   (464, fun c =>
    switch c
      [(35, tr 485); (47, tr 486); (58, tr 487); (63, tr 488)]
      (if (48 <=? c) && (c <=? 57) then st 460
        else st 0));
   (465, fun c =>
    switch c
      [(35, tr 485); (47, tr 486); (53, st 466); (58, tr 487); (63, tr 488)]
      (if (48 <=? c) && (c <=? 57) then st 460
        else st 0))].

Definition uri_trans_6 : list (Z * (list action * Z)) :=
  [(507, ([Mark; SaveHost], 461));
   (487, ([SaveHost], 461));
   (491, ([Mark], 462))].

(** uri.cc, lines 907-1056 *)
Definition uri_cases_7 : list (Z * (Z -> label)) :=
  [(466, fun c =>
    switch c
      [(35, tr 485); (47, tr 486); (58, tr 487); (63, tr 488)]
      (if (48 <=? c) && (c <=? 53) then st 460
        else st 0));
   (23, fun c =>
    if c =? 46 then st 20
    else if (48 <=? c) && (c <=? 57) then st 24
    else st 0);
   (24, fun c =>
    if c =? 46 then st 20
    else if (48 <=? c) && (c <=? 57) then st 19
    else st 0);
   (25, fun c =>
    switch c
      [(46, st 20); (53, st 26)]
      (if (48 <=? c) && (c <=? 57) then st 19
        else st 0));
   (26, fun c =>
    if c =? 46 then st 20
    else if (48 <=? c) && (c <=? 53) then st 19
    else st 0);
   (27, fun c =>
    if c =? 46 then st 16
    else if (48 <=? c) && (c <=? 57) then st 28
    else st 0);
   (28, fun c =>
    if c =? 46 then st 16
    else if (48 <=? c) && (c <=? 57) then st 15
    else st 0);
   (29, fun c =>
    switch c
      [(46, st 16); (53, st 30)]
      (if (48 <=? c) && (c <=? 57) then st 15
        else st 0));
   (30, fun c =>
    if c =? 46 then st 16
    else if (48 <=? c) && (c <=? 53) then st 15
    else st 0);
   (467, fun c =>
    switch c
      [(33, st 467); (35, tr 485); (37, st 31); (47, tr 486);
       (58, tr 499); (61, st 467); (63, tr 488); (64, tr 38);
       (95, st 467); (126, st 467)]
      (if c <? 65 then
          if (36 <=? c) && (c <=? 59) then st 467
          else st 0
        else if c >? 90 then
          if (97 <=? c) && (c <=? 122) then st 467
          else st 0
        else st 467));
   (31, fun c =>
    if c <? 65 then
      if (48 <=? c) && (c <=? 57) then st 32
      else st 0
    else if c >? 70 then
      if (97 <=? c) && (c <=? 102) then st 32
      else st 0
    else st 32);
   (32, fun c =>
    if c <? 65 then
      if (48 <=? c) && (c <=? 57) then st 467
      else st 0
    else if c >? 70 then
      if (97 <=? c) && (c <=? 102) then st 467
      else st 0
    else st 467)].

Definition uri_trans_7 : list (Z * (list action * Z)) :=
  [(473, ([Mark], 467));
   (475, ([Mark], 31))].

(** uri.cc, lines 1057-1179 *)
Definition uri_cases_8 : list (Z * (Z -> label)) :=
  [(468, fun c =>
    switch c
      [(33, st 33); (35, tr 489); (37, st 34); (47, tr 490); (61, st 33);
       (63, tr 492); (64, tr 38); (95, st 33); (126, st 33)]
      (if c <? 58 then
          if c >? 46 then
            if (48 <=? c) && (c <=? 57) then tr 500
            else st 0
          else if c >=? 36 then st 33
          else st 0
        else if c >? 59 then
          if c >? 90 then
            if (97 <=? c) && (c <=? 122) then st 33
            else st 0
          else if c >=? 65 then st 33
          else st 0
        else st 33));
   (33, fun c =>
    switch c
      [(33, st 33); (37, st 34); (61, st 33); (64, tr 38); (95, st 33);
       (126, st 33)]
      (if c <? 48 then
          if (36 <=? c) && (c <=? 46) then st 33
          else st 0
        else if c >? 59 then
          if c >? 90 then
            if (97 <=? c) && (c <=? 122) then st 33
            else st 0
          else if c >=? 65 then st 33
          else st 0
        else st 33));
   (34, fun c =>
    if c <? 65 then
      if (48 <=? c) && (c <=? 57) then st 35
      else st 0
    else if c >? 70 then
      if (97 <=? c) && (c <=? 102) then st 35
      else st 0
    else st 35);
   (35, fun c =>
    if c <? 65 then
      if (48 <=? c) && (c <=? 57) then st 33
      else st 0
    else if c >? 70 then
      if (97 <=? c) && (c <=? 102) then st 33
      else st 0
    else st 33)].

Definition uri_trans_8 : list (Z * (list action * Z)) :=
  [(481, ([Mark; SaveHost], 468));
   (499, ([SaveHost], 468));
   (38, ([SaveUserinfo], 469));
   (483, ([Mark; SaveUserinfo], 469))].

(** uri.cc, lines 1180-1303 *)
Definition uri_cases_9 : list (Z * (Z -> label)) :=
  [(469, fun c =>
    switch c
      [(2, tr 472); (33, tr 501); (35, tr 474); (37, tr 502);
       (47, tr 476); (48, tr 503); (49, tr 504); (50, tr 505);
       (58, tr 507); (59, tr 501); (61, tr 501); (63, tr 482);
       (91, tr 484); (95, tr 501); (126, tr 501)]
      (if c <? 51 then
          if (36 <=? c) && (c <=? 46) then tr 501
          else st 0
        else if c >? 57 then
          if c >? 90 then
            if (97 <=? c) && (c <=? 122) then tr 501
            else st 0
          else if c >=? 65 then tr 501
          else st 0
        else tr 506));
   (470, fun c =>
    switch c
      [(33, st 470); (35, tr 485); (37, st 36); (47, tr 486);
       (58, tr 487); (61, st 470); (63, tr 488); (95, st 470);
       (126, st 470)]
      (if c <? 65 then
          if (36 <=? c) && (c <=? 59) then st 470
          else st 0
        else if c >? 90 then
          if (97 <=? c) && (c <=? 122) then st 470
          else st 0
        else st 470));
   (36, fun c =>
    if c <? 65 then
      if (48 <=? c) && (c <=? 57) then st 37
      else st 0
    else if c >? 70 then
      if (97 <=? c) && (c <=? 102) then st 37
      else st 0
    else st 37);
   (37, fun c =>
    if c <? 65 then
      if (48 <=? c) && (c <=? 57) then st 470
      else st 0
    else if c >? 70 then
      if (97 <=? c) && (c <=? 102) then st 470
      else st 0
    else st 470);
   (471, fun c =>
    switch c
      [(33, st 470); (35, tr 485); (37, st 36); (46, st 472);
       (47, tr 486); (58, tr 487); (61, st 470); (63, tr 488);
       (95, st 470); (126, st 470)]
      (if c <? 65 then
          if (36 <=? c) && (c <=? 59) then st 470
          else st 0
        else if c >? 90 then
          if (97 <=? c) && (c <=? 122) then st 470
          else st 0
        else st 470))].

Definition uri_trans_9 : list (Z * (list action * Z)) :=
  [(501, ([Mark], 470));
   (502, ([Mark], 36));
   (503, ([Mark], 471))].

(** uri.cc, lines 1304-1442 *)
Definition uri_cases_10 : list (Z * (Z -> label)) :=
  [(472, fun c =>
    switch c
      [(2, st 13); (33, st 470); (35, tr 485); (37, st 36); (47, tr 486);
       (48, st 473); (49, st 481); (50, st 483); (58, tr 487);
       (59, st 470); (61, st 470); (63, tr 488); (95, st 470);
       (126, st 470)]
      (if c <? 51 then
          if (36 <=? c) && (c <=? 46) then st 470
          else st 0
        else if c >? 57 then
          if c >? 90 then
            if (97 <=? c) && (c <=? 122) then st 470
            else st 0
          else if c >=? 65 then st 470
          else st 0
        else st 482));
   (473, fun c =>
    switch c
      [(33, st 470); (35, tr 485); (37, st 36); (46, st 474);
       (47, tr 486); (58, tr 487); (61, st 470); (63, tr 488);
       (95, st 470); (126, st 470)]
      (if c <? 65 then
          if (36 <=? c) && (c <=? 59) then st 470
          else st 0
        else if c >? 90 then
          if (97 <=? c) && (c <=? 122) then st 470
          else st 0
        else st 470));
   (474, fun c =>
    switch c
      [(2, st 17); (33, st 470); (35, tr 485); (37, st 36); (47, tr 486);
       (48, st 475); (49, st 477); (50, st 479); (58, tr 487);
       (59, st 470); (61, st 470); (63, tr 488); (95, st 470);
       (126, st 470)]
      (if c <? 51 then
          if (36 <=? c) && (c <=? 46) then st 470
          else st 0
        else if c >? 57 then
          if c >? 90 then
            if (97 <=? c) && (c <=? 122) then st 470
            else st 0
          else if c >=? 65 then st 470
          else st 0
        else st 478));
   (475, fun c =>
    switch c
      [(33, st 470); (35, tr 485); (37, st 36); (46, st 476);
       (47, tr 486); (58, tr 487); (61, st 470); (63, tr 488);
       (95, st 470); (126, st 470)]
      (if c <? 65 then
          if (36 <=? c) && (c <=? 59) then st 470
          else st 0
        else if c >? 90 then
          if (97 <=? c) && (c <=? 122) then st 470
          else st 0
        else st 470));
   (476, fun c =>
    switch c
      [(2, st 21); (33, st 470); (35, tr 485); (37, st 36); (47, tr 486);
       (58, tr 487); (61, st 470); (63, tr 488); (95, st 470);
       (126, st 470)]
      (if c <? 65 then
          if (36 <=? c) && (c <=? 59) then st 470
          else st 0
        else if c >? 90 then
          if (97 <=? c) && (c <=? 122) then st 470
          else st 0
        else st 470))].

(** uri.cc, lines 1443-1590 *)
Definition uri_cases_11 : list (Z * (Z -> label)) :=
  [(477, fun c =>
    switch c
      [(33, st 470); (35, tr 485); (37, st 36); (46, st 476);
       (47, tr 486); (58, tr 487); (59, st 470); (61, st 470);
       (63, tr 488); (95, st 470); (126, st 470)]
      (if c <? 48 then
          if (36 <=? c) && (c <=? 45) then st 470
          else st 0
        else if c >? 57 then
          if c >? 90 then
            if (97 <=? c) && (c <=? 122) then st 470
            else st 0
          else if c >=? 65 then st 470
          else st 0
        else st 478));
   (478, fun c =>
    switch c
      [(33, st 470); (35, tr 485); (37, st 36); (46, st 476);
       (47, tr 486); (58, tr 487); (59, st 470); (61, st 470);
       (63, tr 488); (95, st 470); (126, st 470)]
      (if c <? 48 then
          if (36 <=? c) && (c <=? 45) then st 470
          else st 0
        else if c >? 57 then
          if c >? 90 then
            if (97 <=? c) && (c <=? 122) then st 470
            else st 0
          else if c >=? 65 then st 470
          else st 0
        else st 475));
   (479, fun c =>
    switch c
      [(33, st 470); (35, tr 485); (37, st 36); (46, st 476);
       (47, tr 486); (53, st 480); (58, tr 487); (59, st 470);
       (61, st 470); (63, tr 488); (95, st 470); (126, st 470)]
      (if c <? 48 then
          if (36 <=? c) && (c <=? 45) then st 470
          else st 0
        else if c >? 57 then
          if c >? 90 then
            if (97 <=? c) && (c <=? 122) then st 470
            else st 0
          else if c >=? 65 then st 470
          else st 0
        else st 475));
   (480, fun c =>
    switch c
      [(33, st 470); (35, tr 485); (37, st 36); (46, st 476);
       (47, tr 486); (58, tr 487); (61, st 470); (63, tr 488);
       (95, st 470); (126, st 470)]
      (if c <? 54 then
          if c >? 45 then
            if (48 <=? c) && (c <=? 53) then st 475
            else st 0
          else if c >=? 36 then st 470
          else st 0
        else if c >? 59 then
          if c >? 90 then
            if (97 <=? c) && (c <=? 122) then st 470
            else st 0
          else if c >=? 65 then st 470
          else st 0
        else st 470));
   (481, fun c =>
    switch c
      [(33, st 470); (35, tr 485); (37, st 36); (46, st 474);
       (47, tr 486); (58, tr 487); (59, st 470); (61, st 470);
       (63, tr 488); (95, st 470); (126, st 470)]
      (if c <? 48 then
          if (36 <=? c) && (c <=? 45) then st 470
          else st 0
        else if c >? 57 then
          if c >? 90 then
            if (97 <=? c) && (c <=? 122) then st 470
            else st 0
          else if c >=? 65 then st 470
          else st 0
        else st 482))].

(** uri.cc, lines 1591-1718 *)
Definition uri_cases_12 : list (Z * (Z -> label)) :=
  [(482, fun c =>
    switch c
      [(33, st 470); (35, tr 485); (37, st 36); (46, st 474);
       (47, tr 486); (58, tr 487); (59, st 470); (61, st 470);
       (63, tr 488); (95, st 470); (126, st 470)]
      (if c <? 48 then
          if (36 <=? c) && (c <=? 45) then st 470
          else st 0
        else if c >? 57 then
          if c >? 90 then
            if (97 <=? c) && (c <=? 122) then st 470
            else st 0
          else if c >=? 65 then st 470
          else st 0
        else st 473));
   (483, fun c =>
    switch c
      [(33, st 470); (35, tr 485); (37, st 36); (46, st 474);
       (47, tr 486); (53, st 484); (58, tr 487); (59, st 470);
       (61, st 470); (63, tr 488); (95, st 470); (126, st 470)]
      (if c <? 48 then
          if (36 <=? c) && (c <=? 45) then st 470
          else st 0
        else if c >? 57 then
          if c >? 90 then
            if (97 <=? c) && (c <=? 122) then st 470
            else st 0
          else if c >=? 65 then st 470
          else st 0
        else st 473));
   (484, fun c =>
    switch c
      [(33, st 470); (35, tr 485); (37, st 36); (46, st 474);
       (47, tr 486); (58, tr 487); (61, st 470); (63, tr 488);
       (95, st 470); (126, st 470)]
      (if c <? 54 then
          if c >? 45 then
            if (48 <=? c) && (c <=? 53) then st 473
            else st 0
          else if c >=? 36 then st 470
          else st 0
        else if c >? 59 then
          if c >? 90 then
            if (97 <=? c) && (c <=? 122) then st 470
            else st 0
          else if c >=? 65 then st 470
          else st 0
        else st 470));
   (485, fun c =>
    switch c
      [(33, st 470); (35, tr 485); (37, st 36); (46, st 472);
       (47, tr 486); (58, tr 487); (59, st 470); (61, st 470);
       (63, tr 488); (95, st 470); (126, st 470)]
      (if c <? 48 then
          if (36 <=? c) && (c <=? 45) then st 470
          else st 0
        else if c >? 57 then
          if c >? 90 then
            if (97 <=? c) && (c <=? 122) then st 470
            else st 0
          else if c >=? 65 then st 470
          else st 0
        else st 486))].

Definition uri_trans_12 : list (Z * (list action * Z)) :=
  [(504, ([Mark], 485));
   (506, ([Mark], 486))].

(** uri.cc, lines 1719-1866 *)
Definition uri_cases_13 : list (Z * (Z -> label)) :=
  [(486, fun c =>
    switch c
      [(33, st 470); (35, tr 485); (37, st 36); (46, st 472);
       (47, tr 486); (58, tr 487); (59, st 470); (61, st 470);
       (63, tr 488); (95, st 470); (126, st 470)]
      (if c <? 48 then
          if (36 <=? c) && (c <=? 45) then st 470
          else st 0
        else if c >? 57 then
          if c >? 90 then
            if (97 <=? c) && (c <=? 122) then st 470
            else st 0
          else if c >=? 65 then st 470
          else st 0
        else st 471));
   (487, fun c =>
    switch c
      [(33, st 470); (35, tr 485); (37, st 36); (46, st 472);
       (47, tr 486); (53, st 488); (58, tr 487); (59, st 470);
       (61, st 470); (63, tr 488); (95, st 470); (126, st 470)]
      (if c <? 48 then
          if (36 <=? c) && (c <=? 45) then st 470
          else st 0
        else if c >? 57 then
          if c >? 90 then
            if (97 <=? c) && (c <=? 122) then st 470
            else st 0
          else if c >=? 65 then st 470
          else st 0
        else st 471));
   (488, fun c =>
    switch c
      [(33, st 470); (35, tr 485); (37, st 36); (46, st 472);
       (47, tr 486); (58, tr 487); (61, st 470); (63, tr 488);
       (95, st 470); (126, st 470)]
      (if c <? 54 then
          if c >? 45 then
            if (48 <=? c) && (c <=? 53) then st 471
            else st 0
          else if c >=? 36 then st 470
          else st 0
        else if c >? 59 then
          if c >? 90 then
            if (97 <=? c) && (c <=? 122) then st 470
            else st 0
          else if c >=? 65 then st 470
          else st 0
        else st 470));
   (38, fun c =>
    switch c
      [(58, st 146); (118, st 225)]
      (if c <? 65 then
          if (48 <=? c) && (c <=? 57) then st 39
          else st 0
        else if c >? 70 then
          if (97 <=? c) && (c <=? 102) then st 39
          else st 0
        else st 39));
   (39, fun c =>
    if c =? 58 then st 43
    else if c <? 65 then
      if (48 <=? c) && (c <=? 57) then st 40
      else st 0
    else if c >? 70 then
      if (97 <=? c) && (c <=? 102) then st 40
      else st 0
    else st 40);
   (40, fun c =>
    if c =? 58 then st 43
    else if c <? 65 then
      if (48 <=? c) && (c <=? 57) then st 41
      else st 0
    else if c >? 70 then
      if (97 <=? c) && (c <=? 102) then st 41
      else st 0
    else st 41)].

Definition uri_trans_13 : list (Z * (list action * Z)) :=
  [(505, ([Mark], 487));
   (484, ([Mark], 38))].

(** uri.cc, lines 1867-2015 *)
Definition uri_cases_14 : list (Z * (Z -> label)) :=
  [(41, fun c =>
    if c =? 58 then st 43
    else if c <? 65 then
      if (48 <=? c) && (c <=? 57) then st 42
      else st 0
    else if c >? 70 then
      if (97 <=? c) && (c <=? 102) then st 42
      else st 0
    else st 42);
   (42, fun c =>
    if c =? 58 then st 43
    else st 0);
   (43, fun c =>
    if c =? 58 then st 141
    else if c <? 65 then
      if (48 <=? c) && (c <=? 57) then st 44
      else st 0
    else if c >? 70 then
      if (97 <=? c) && (c <=? 102) then st 44
      else st 0
    else st 44);
   (44, fun c =>
    if c =? 58 then st 48
    else if c <? 65 then
      if (48 <=? c) && (c <=? 57) then st 45
      else st 0
    else if c >? 70 then
      if (97 <=? c) && (c <=? 102) then st 45
      else st 0
    else st 45);
   (45, fun c =>
    if c =? 58 then st 48
    else if c <? 65 then
      if (48 <=? c) && (c <=? 57) then st 46
      else st 0
    else if c >? 70 then
      if (97 <=? c) && (c <=? 102) then st 46
      else st 0
    else st 46);
   (46, fun c =>
    if c =? 58 then st 48
    else if c <? 65 then
      if (48 <=? c) && (c <=? 57) then st 47
      else st 0
    else if c >? 70 then
      if (97 <=? c) && (c <=? 102) then st 47
      else st 0
    else st 47);
   (47, fun c =>
    if c =? 58 then st 48
    else st 0);
   (48, fun c =>
    if c =? 58 then st 136
    else if c <? 65 then
      if (48 <=? c) && (c <=? 57) then st 49
      else st 0
    else if c >? 70 then
      if (97 <=? c) && (c <=? 102) then st 49
      else st 0
    else st 49);
   (49, fun c =>
    if c =? 58 then st 53
    else if c <? 65 then
      if (48 <=? c) && (c <=? 57) then st 50
      else st 0
    else if c >? 70 then
      if (97 <=? c) && (c <=? 102) then st 50
      else st 0
    else st 50);
   (50, fun c =>
    if c =? 58 then st 53
    else if c <? 65 then
      if (48 <=? c) && (c <=? 57) then st 51
      else st 0
    else if c >? 70 then
      if (97 <=? c) && (c <=? 102) then st 51
      else st 0
    else st 51);
   (51, fun c =>
    if c =? 58 then st 53
    else if c <? 65 then
      if (48 <=? c) && (c <=? 57) then st 52
      else st 0
    else if c >? 70 then
      if (97 <=? c) && (c <=? 102) then st 52
      else st 0
    else st 52)].

(** uri.cc, lines 2016-2156 *)
Definition uri_cases_15 : list (Z * (Z -> label)) :=
  [(52, fun c =>
    if c =? 58 then st 53
    else st 0);
   (53, fun c =>
    if c =? 58 then st 131
    else if c <? 65 then
      if (48 <=? c) && (c <=? 57) then st 54
      else st 0
    else if c >? 70 then
      if (97 <=? c) && (c <=? 102) then st 54
      else st 0
    else st 54);
   (54, fun c =>
    if c =? 58 then st 58
    else if c <? 65 then
      if (48 <=? c) && (c <=? 57) then st 55
      else st 0
    else if c >? 70 then
      if (97 <=? c) && (c <=? 102) then st 55
      else st 0
    else st 55);
   (55, fun c =>
    if c =? 58 then st 58
    else if c <? 65 then
      if (48 <=? c) && (c <=? 57) then st 56
      else st 0
    else if c >? 70 then
      if (97 <=? c) && (c <=? 102) then st 56
      else st 0
    else st 56);
   (56, fun c =>
    if c =? 58 then st 58
    else if c <? 65 then
      if (48 <=? c) && (c <=? 57) then st 57
      else st 0
    else if c >? 70 then
      if (97 <=? c) && (c <=? 102) then st 57
      else st 0
    else st 57);
   (57, fun c =>
    if c =? 58 then st 58
    else st 0);
   (58, fun c =>
    if c =? 58 then st 126
    else if c <? 65 then
      if (48 <=? c) && (c <=? 57) then st 59
      else st 0
    else if c >? 70 then
      if (97 <=? c) && (c <=? 102) then st 59
      else st 0
    else st 59);
   (59, fun c =>
    if c =? 58 then st 63
    else if c <? 65 then
      if (48 <=? c) && (c <=? 57) then st 60
      else st 0
    else if c >? 70 then
      if (97 <=? c) && (c <=? 102) then st 60
      else st 0
    else st 60);
   (60, fun c =>
    if c =? 58 then st 63
    else if c <? 65 then
      if (48 <=? c) && (c <=? 57) then st 61
      else st 0
    else if c >? 70 then
      if (97 <=? c) && (c <=? 102) then st 61
      else st 0
    else st 61);
   (61, fun c =>
    if c =? 58 then st 63
    else if c <? 65 then
      if (48 <=? c) && (c <=? 57) then st 62
      else st 0
    else if c >? 70 then
      if (97 <=? c) && (c <=? 102) then st 62
      else st 0
    else st 62);
   (62, fun c =>
    if c =? 58 then st 63
    else st 0)].

(** uri.cc, lines 2157-2298 *)
Definition uri_cases_16 : list (Z * (Z -> label)) :=
  [(63, fun c =>
    if c =? 58 then st 113
    else if c <? 65 then
      if (48 <=? c) && (c <=? 57) then st 64
      else st 0
    else if c >? 70 then
      if (97 <=? c) && (c <=? 102) then st 64
      else st 0
    else st 64);
   (64, fun c =>
    if c =? 58 then st 68
    else if c <? 65 then
      if (48 <=? c) && (c <=? 57) then st 65
      else st 0
    else if c >? 70 then
      if (97 <=? c) && (c <=? 102) then st 65
      else st 0
    else st 65);
   (65, fun c =>
    if c =? 58 then st 68
    else if c <? 65 then
      if (48 <=? c) && (c <=? 57) then st 66
      else st 0
    else if c >? 70 then
      if (97 <=? c) && (c <=? 102) then st 66
      else st 0
    else st 66);
   (66, fun c =>
    if c =? 58 then st 68
    else if c <? 65 then
      if (48 <=? c) && (c <=? 57) then st 67
      else st 0
    else if c >? 70 then
      if (97 <=? c) && (c <=? 102) then st 67
      else st 0
    else st 67);
   (67, fun c =>
    if c =? 58 then st 68
    else st 0);
   (68, fun c =>
    switch c
      [(2, st 69); (48, st 96); (49, st 104); (50, st 107); (58, st 111)]
      (if c <? 65 then
          if (51 <=? c) && (c <=? 57) then st 110
          else st 0
        else if c >? 70 then
          if (97 <=? c) && (c <=? 102) then st 112
          else st 0
        else st 112));
   (69, fun c =>
    if (48 <=? c) && (c <=? 52) then st 70
    else st 0);
   (70, fun c =>
    if (48 <=? c) && (c <=? 57) then st 71
    else st 0);
   (71, fun c =>
    if c =? 46 then st 72
    else st 0);
   (72, fun c =>
    switch c
      [(2, st 73); (48, st 75); (49, st 92); (50, st 94)]
      (if (51 <=? c) && (c <=? 57) then st 93
        else st 0));
   (73, fun c =>
    if (48 <=? c) && (c <=? 52) then st 74
    else st 0);
   (74, fun c =>
    if (48 <=? c) && (c <=? 57) then st 75
    else st 0);
   (75, fun c =>
    if c =? 46 then st 76
    else st 0)].

(** uri.cc, lines 2299-2442 *)
Definition uri_cases_17 : list (Z * (Z -> label)) :=
  [(76, fun c =>
    switch c
      [(2, st 77); (48, st 79); (49, st 88); (50, st 90)]
      (if (51 <=? c) && (c <=? 57) then st 89
        else st 0));
   (77, fun c =>
    if (48 <=? c) && (c <=? 52) then st 78
    else st 0);
   (78, fun c =>
    if (48 <=? c) && (c <=? 57) then st 79
    else st 0);
   (79, fun c =>
    if c =? 46 then st 80
    else st 0);
   (80, fun c =>
    switch c
      [(2, st 81); (48, st 83); (49, st 84); (50, st 86)]
      (if (51 <=? c) && (c <=? 57) then st 85
        else st 0));
   (81, fun c =>
    if (48 <=? c) && (c <=? 52) then st 82
    else st 0);
   (82, fun c =>
    if (48 <=? c) && (c <=? 57) then st 83
    else st 0);
   (83, fun c =>
    if c =? 93 then st 460
    else st 0);
   (84, fun c =>
    if c =? 93 then st 460
    else if (48 <=? c) && (c <=? 57) then st 85
    else st 0);
   (85, fun c =>
    if c =? 93 then st 460
    else if (48 <=? c) && (c <=? 57) then st 83
    else st 0);
   (86, fun c =>
    switch c
      [(53, st 87); (93, st 460)]
      (if (48 <=? c) && (c <=? 57) then st 83
        else st 0));
   (87, fun c =>
    if c =? 93 then st 460
    else if (48 <=? c) && (c <=? 53) then st 83
    else st 0);
   (88, fun c =>
    if c =? 46 then st 80
    else if (48 <=? c) && (c <=? 57) then st 89
    else st 0);
   (89, fun c =>
    if c =? 46 then st 80
    else if (48 <=? c) && (c <=? 57) then st 79
    else st 0);
   (90, fun c =>
    switch c
      [(46, st 80); (53, st 91)]
      (if (48 <=? c) && (c <=? 57) then st 79
        else st 0));
   (91, fun c =>
    if c =? 46 then st 80
    else if (48 <=? c) && (c <=? 53) then st 79
    else st 0)].

(** uri.cc, lines 2443-2579 *)
Definition uri_cases_18 : list (Z * (Z -> label)) :=
  [(92, fun c =>
    if c =? 46 then st 76
    else if (48 <=? c) && (c <=? 57) then st 93
    else st 0);
   (93, fun c =>
    if c =? 46 then st 76
    else if (48 <=? c) && (c <=? 57) then st 75
    else st 0);
   (94, fun c =>
    switch c
      [(46, st 76); (53, st 95)]
      (if (48 <=? c) && (c <=? 57) then st 75
        else st 0));
   (95, fun c =>
    if c =? 46 then st 76
    else if (48 <=? c) && (c <=? 53) then st 75
    else st 0);
   (96, fun c =>
    switch c
      [(46, st 72); (58, st 100)]
      (if c <? 65 then
          if (48 <=? c) && (c <=? 57) then st 97
          else st 0
        else if c >? 70 then
          if (97 <=? c) && (c <=? 102) then st 97
          else st 0
        else st 97));
   (97, fun c =>
    if c =? 58 then st 100
    else if c <? 65 then
      if (48 <=? c) && (c <=? 57) then st 98
      else st 0
    else if c >? 70 then
      if (97 <=? c) && (c <=? 102) then st 98
      else st 0
    else st 98);
   (98, fun c =>
    if c =? 58 then st 100
    else if c <? 65 then
      if (48 <=? c) && (c <=? 57) then st 99
      else st 0
    else if c >? 70 then
      if (97 <=? c) && (c <=? 102) then st 99
      else st 0
    else st 99);
   (99, fun c =>
    if c =? 58 then st 100
    else st 0);
   (100, fun c =>
    if c =? 58 then st 83
    else if c <? 65 then
      if (48 <=? c) && (c <=? 57) then st 101
      else st 0
    else if c >? 70 then
      if (97 <=? c) && (c <=? 102) then st 101
      else st 0
    else st 101);
   (101, fun c =>
    if c =? 93 then st 460
    else if c <? 65 then
      if (48 <=? c) && (c <=? 57) then st 102
      else st 0
    else if c >? 70 then
      if (97 <=? c) && (c <=? 102) then st 102
      else st 0
    else st 102);
   (102, fun c =>
    if c =? 93 then st 460
    else if c <? 65 then
      if (48 <=? c) && (c <=? 57) then st 103
      else st 0
    else if c >? 70 then
      if (97 <=? c) && (c <=? 102) then st 103
      else st 0
    else st 103)].

(** uri.cc, lines 2580-2717 *)
Definition uri_cases_19 : list (Z * (Z -> label)) :=
  [(103, fun c =>
    if c =? 93 then st 460
    else if c <? 65 then
      if (48 <=? c) && (c <=? 57) then st 83
      else st 0
    else if c >? 70 then
      if (97 <=? c) && (c <=? 102) then st 83
      else st 0
    else st 83);
   (104, fun c =>
    switch c
      [(46, st 72); (58, st 100)]
      (if c <? 65 then
          if (48 <=? c) && (c <=? 57) then st 105
          else st 0
        else if c >? 70 then
          if (97 <=? c) && (c <=? 102) then st 97
          else st 0
        else st 97));
   (105, fun c =>
    switch c
      [(46, st 72); (58, st 100)]
      (if c <? 65 then
          if (48 <=? c) && (c <=? 57) then st 106
          else st 0
        else if c >? 70 then
          if (97 <=? c) && (c <=? 102) then st 98
          else st 0
        else st 98));
   (106, fun c =>
    switch c
      [(46, st 72); (58, st 100)]
      (if c <? 65 then
          if (48 <=? c) && (c <=? 57) then st 99
          else st 0
        else if c >? 70 then
          if (97 <=? c) && (c <=? 102) then st 99
          else st 0
        else st 99));
   (107, fun c =>
    switch c
      [(46, st 72); (53, st 109); (58, st 100)]
      (if c <? 65 then
          if (48 <=? c) && (c <=? 57) then st 108
          else st 0
        else if c >? 70 then
          if (97 <=? c) && (c <=? 102) then st 97
          else st 0
        else st 97));
   (108, fun c =>
    switch c
      [(46, st 72); (58, st 100)]
      (if c <? 65 then
          if (48 <=? c) && (c <=? 57) then st 98
          else st 0
        else if c >? 70 then
          if (97 <=? c) && (c <=? 102) then st 98
          else st 0
        else st 98));
   (109, fun c =>
    switch c
      [(46, st 72); (58, st 100)]
      (if c <? 54 then
          if (48 <=? c) && (c <=? 53) then st 106
          else st 0
        else if c >? 57 then
          if c >? 70 then
            if (97 <=? c) && (c <=? 102) then st 98
            else st 0
          else if c >=? 65 then st 98
          else st 0
        else st 98));
   (110, fun c =>
    switch c
      [(46, st 72); (58, st 100)]
      (if c <? 65 then
          if (48 <=? c) && (c <=? 57) then st 108
          else st 0
        else if c >? 70 then
          if (97 <=? c) && (c <=? 102) then st 97
          else st 0
        else st 97))].

(** uri.cc, lines 2718-2852 *)
Definition uri_cases_20 : list (Z * (Z -> label)) :=
  [(111, fun c =>
    if c <? 65 then
      if (48 <=? c) && (c <=? 57) then st 101
      else st 0
    else if c >? 70 then
      if (97 <=? c) && (c <=? 102) then st 101
      else st 0
    else st 101);
   (112, fun c =>
    if c =? 58 then st 100
    else if c <? 65 then
      if (48 <=? c) && (c <=? 57) then st 97
      else st 0
    else if c >? 70 then
      if (97 <=? c) && (c <=? 102) then st 97
      else st 0
    else st 97);
   (113, fun c =>
    switch c
      [(2, st 69); (48, st 114); (49, st 118); (50, st 121)]
      (if c <? 65 then
          if (51 <=? c) && (c <=? 57) then st 124
          else st 0
        else if c >? 70 then
          if (97 <=? c) && (c <=? 102) then st 125
          else st 0
        else st 125));
   (114, fun c =>
    switch c
      [(46, st 72); (58, st 111)]
      (if c <? 65 then
          if (48 <=? c) && (c <=? 57) then st 115
          else st 0
        else if c >? 70 then
          if (97 <=? c) && (c <=? 102) then st 115
          else st 0
        else st 115));
   (115, fun c =>
    if c =? 58 then st 111
    else if c <? 65 then
      if (48 <=? c) && (c <=? 57) then st 116
      else st 0
    else if c >? 70 then
      if (97 <=? c) && (c <=? 102) then st 116
      else st 0
    else st 116);
   (116, fun c =>
    if c =? 58 then st 111
    else if c <? 65 then
      if (48 <=? c) && (c <=? 57) then st 117
      else st 0
    else if c >? 70 then
      if (97 <=? c) && (c <=? 102) then st 117
      else st 0
    else st 117);
   (117, fun c =>
    if c =? 58 then st 111
    else st 0);
   (118, fun c =>
    switch c
      [(46, st 72); (58, st 111)]
      (if c <? 65 then
          if (48 <=? c) && (c <=? 57) then st 119
          else st 0
        else if c >? 70 then
          if (97 <=? c) && (c <=? 102) then st 115
          else st 0
        else st 115));
   (119, fun c =>
    switch c
      [(46, st 72); (58, st 111)]
      (if c <? 65 then
          if (48 <=? c) && (c <=? 57) then st 120
          else st 0
        else if c >? 70 then
          if (97 <=? c) && (c <=? 102) then st 116
          else st 0
        else st 116))].

(** uri.cc, lines 2853-2999 *)
Definition uri_cases_21 : list (Z * (Z -> label)) :=
  [(120, fun c =>
    switch c
      [(46, st 72); (58, st 111)]
      (if c <? 65 then
          if (48 <=? c) && (c <=? 57) then st 117
          else st 0
        else if c >? 70 then
          if (97 <=? c) && (c <=? 102) then st 117
          else st 0
        else st 117));
   (121, fun c =>
    switch c
      [(46, st 72); (53, st 123); (58, st 111)]
      (if c <? 65 then
          if (48 <=? c) && (c <=? 57) then st 122
          else st 0
        else if c >? 70 then
          if (97 <=? c) && (c <=? 102) then st 115
          else st 0
        else st 115));
   (122, fun c =>
    switch c
      [(46, st 72); (58, st 111)]
      (if c <? 65 then
          if (48 <=? c) && (c <=? 57) then st 116
          else st 0
        else if c >? 70 then
          if (97 <=? c) && (c <=? 102) then st 116
          else st 0
        else st 116));
   (123, fun c =>
    switch c
      [(46, st 72); (58, st 111)]
      (if c <? 54 then
          if (48 <=? c) && (c <=? 53) then st 120
          else st 0
        else if c >? 57 then
          if c >? 70 then
            if (97 <=? c) && (c <=? 102) then st 116
            else st 0
          else if c >=? 65 then st 116
          else st 0
        else st 116));
   (124, fun c =>
    switch c
      [(46, st 72); (58, st 111)]
      (if c <? 65 then
          if (48 <=? c) && (c <=? 57) then st 122
          else st 0
        else if c >? 70 then
          if (97 <=? c) && (c <=? 102) then st 115
          else st 0
        else st 115));
   (125, fun c =>
    if c =? 58 then st 111
    else if c <? 65 then
      if (48 <=? c) && (c <=? 57) then st 115
      else st 0
    else if c >? 70 then
      if (97 <=? c) && (c <=? 102) then st 115
      else st 0
    else st 115);
   (126, fun c =>
    if c <? 65 then
      if (48 <=? c) && (c <=? 57) then st 127
      else st 0
    else if c >? 70 then
      if (97 <=? c) && (c <=? 102) then st 127
      else st 0
    else st 127);
   (127, fun c =>
    if c =? 58 then st 113
    else if c <? 65 then
      if (48 <=? c) && (c <=? 57) then st 128
      else st 0
    else if c >? 70 then
      if (97 <=? c) && (c <=? 102) then st 128
      else st 0
    else st 128);
   (128, fun c =>
    if c =? 58 then st 113
    else if c <? 65 then
      if (48 <=? c) && (c <=? 57) then st 129
      else st 0
    else if c >? 70 then
      if (97 <=? c) && (c <=? 102) then st 129
      else st 0
    else st 129)].

(** uri.cc, lines 3000-3144 *)
Definition uri_cases_22 : list (Z * (Z -> label)) :=
  [(129, fun c =>
    if c =? 58 then st 113
    else if c <? 65 then
      if (48 <=? c) && (c <=? 57) then st 130
      else st 0
    else if c >? 70 then
      if (97 <=? c) && (c <=? 102) then st 130
      else st 0
    else st 130);
   (130, fun c =>
    if c =? 58 then st 113
    else st 0);
   (131, fun c =>
    if c <? 65 then
      if (48 <=? c) && (c <=? 57) then st 132
      else st 0
    else if c >? 70 then
      if (97 <=? c) && (c <=? 102) then st 132
      else st 0
    else st 132);
   (132, fun c =>
    if c =? 58 then st 126
    else if c <? 65 then
      if (48 <=? c) && (c <=? 57) then st 133
      else st 0
    else if c >? 70 then
      if (97 <=? c) && (c <=? 102) then st 133
      else st 0
    else st 133);
   (133, fun c =>
    if c =? 58 then st 126
    else if c <? 65 then
      if (48 <=? c) && (c <=? 57) then st 134
      else st 0
    else if c >? 70 then
      if (97 <=? c) && (c <=? 102) then st 134
      else st 0
    else st 134);
   (134, fun c =>
    if c =? 58 then st 126
    else if c <? 65 then
      if (48 <=? c) && (c <=? 57) then st 135
      else st 0
    else if c >? 70 then
      if (97 <=? c) && (c <=? 102) then st 135
      else st 0
    else st 135);
   (135, fun c =>
    if c =? 58 then st 126
    else st 0);
   (136, fun c =>
    if c <? 65 then
      if (48 <=? c) && (c <=? 57) then st 137
      else st 0
    else if c >? 70 then
      if (97 <=? c) && (c <=? 102) then st 137
      else st 0
    else st 137);
   (137, fun c =>
    if c =? 58 then st 131
    else if c <? 65 then
      if (48 <=? c) && (c <=? 57) then st 138
      else st 0
    else if c >? 70 then
      if (97 <=? c) && (c <=? 102) then st 138
      else st 0
    else st 138);
   (138, fun c =>
    if c =? 58 then st 131
    else if c <? 65 then
      if (48 <=? c) && (c <=? 57) then st 139
      else st 0
    else if c >? 70 then
      if (97 <=? c) && (c <=? 102) then st 139
      else st 0
    else st 139);
   (139, fun c =>
    if c =? 58 then st 131
    else if c <? 65 then
      if (48 <=? c) && (c <=? 57) then st 140
      else st 0
    else if c >? 70 then
      if (97 <=? c) && (c <=? 102) then st 140
      else st 0
    else st 140)].

(** uri.cc, lines 3145-3278 *)
Definition uri_cases_23 : list (Z * (Z -> label)) :=
  [(140, fun c =>
    if c =? 58 then st 131
    else st 0);
   (141, fun c =>
    if c <? 65 then
      if (48 <=? c) && (c <=? 57) then st 142
      else st 0
    else if c >? 70 then
      if (97 <=? c) && (c <=? 102) then st 142
      else st 0
    else st 142);
   (142, fun c =>
    if c =? 58 then st 136
    else if c <? 65 then
      if (48 <=? c) && (c <=? 57) then st 143
      else st 0
    else if c >? 70 then
      if (97 <=? c) && (c <=? 102) then st 143
      else st 0
    else st 143);
   (143, fun c =>
    if c =? 58 then st 136
    else if c <? 65 then
      if (48 <=? c) && (c <=? 57) then st 144
      else st 0
    else if c >? 70 then
      if (97 <=? c) && (c <=? 102) then st 144
      else st 0
    else st 144);
   (144, fun c =>
    if c =? 58 then st 136
    else if c <? 65 then
      if (48 <=? c) && (c <=? 57) then st 145
      else st 0
    else if c >? 70 then
      if (97 <=? c) && (c <=? 102) then st 145
      else st 0
    else st 145);
   (145, fun c =>
    if c =? 58 then st 136
    else st 0);
   (146, fun c =>
    if c =? 58 then st 147
    else st 0);
   (147, fun c =>
    switch c
      [(2, st 69); (48, st 148); (49, st 217); (50, st 220); (93, st 460)]
      (if c <? 65 then
          if (51 <=? c) && (c <=? 57) then st 223
          else st 0
        else if c >? 70 then
          if (97 <=? c) && (c <=? 102) then st 224
          else st 0
        else st 224));
   (148, fun c =>
    switch c
      [(46, st 72); (58, st 152); (93, st 460)]
      (if c <? 65 then
          if (48 <=? c) && (c <=? 57) then st 149
          else st 0
        else if c >? 70 then
          if (97 <=? c) && (c <=? 102) then st 149
          else st 0
        else st 149));
   (149, fun c =>
    switch c
      [(58, st 152); (93, st 460)]
      (if c <? 65 then
          if (48 <=? c) && (c <=? 57) then st 150
          else st 0
        else if c >? 70 then
          if (97 <=? c) && (c <=? 102) then st 150
          else st 0
        else st 150))].

(** uri.cc, lines 3279-3421 *)
Definition uri_cases_24 : list (Z * (Z -> label)) :=
  [(150, fun c =>
    switch c
      [(58, st 152); (93, st 460)]
      (if c <? 65 then
          if (48 <=? c) && (c <=? 57) then st 151
          else st 0
        else if c >? 70 then
          if (97 <=? c) && (c <=? 102) then st 151
          else st 0
        else st 151));
   (151, fun c =>
    switch c
      [(58, st 152); (93, st 460)]
      (st 0));
   (152, fun c =>
    switch c
      [(2, st 69); (48, st 153); (49, st 209); (50, st 212)]
      (if c <? 65 then
          if (51 <=? c) && (c <=? 57) then st 215
          else st 0
        else if c >? 70 then
          if (97 <=? c) && (c <=? 102) then st 216
          else st 0
        else st 216));
   (153, fun c =>
    switch c
      [(46, st 72); (58, st 157); (93, st 460)]
      (if c <? 65 then
          if (48 <=? c) && (c <=? 57) then st 154
          else st 0
        else if c >? 70 then
          if (97 <=? c) && (c <=? 102) then st 154
          else st 0
        else st 154));
   (154, fun c =>
    switch c
      [(58, st 157); (93, st 460)]
      (if c <? 65 then
          if (48 <=? c) && (c <=? 57) then st 155
          else st 0
        else if c >? 70 then
          if (97 <=? c) && (c <=? 102) then st 155
          else st 0
        else st 155));
   (155, fun c =>
    switch c
      [(58, st 157); (93, st 460)]
      (if c <? 65 then
          if (48 <=? c) && (c <=? 57) then st 156
          else st 0
        else if c >? 70 then
          if (97 <=? c) && (c <=? 102) then st 156
          else st 0
        else st 156));
   (156, fun c =>
    switch c
      [(58, st 157); (93, st 460)]
      (st 0));
   (157, fun c =>
    switch c
      [(2, st 69); (48, st 158); (49, st 201); (50, st 204)]
      (if c <? 65 then
          if (51 <=? c) && (c <=? 57) then st 207
          else st 0
        else if c >? 70 then
          if (97 <=? c) && (c <=? 102) then st 208
          else st 0
        else st 208));
   (158, fun c =>
    switch c
      [(46, st 72); (58, st 162); (93, st 460)]
      (if c <? 65 then
          if (48 <=? c) && (c <=? 57) then st 159
          else st 0
        else if c >? 70 then
          if (97 <=? c) && (c <=? 102) then st 159
          else st 0
        else st 159))].

(** uri.cc, lines 3422-3563 *)
Definition uri_cases_25 : list (Z * (Z -> label)) :=
  [(159, fun c =>
    switch c
      [(58, st 162); (93, st 460)]
      (if c <? 65 then
          if (48 <=? c) && (c <=? 57) then st 160
          else st 0
        else if c >? 70 then
          if (97 <=? c) && (c <=? 102) then st 160
          else st 0
        else st 160));
   (160, fun c =>
    switch c
      [(58, st 162); (93, st 460)]
      (if c <? 65 then
          if (48 <=? c) && (c <=? 57) then st 161
          else st 0
        else if c >? 70 then
          if (97 <=? c) && (c <=? 102) then st 161
          else st 0
        else st 161));
   (161, fun c =>
    switch c
      [(58, st 162); (93, st 460)]
      (st 0));
   (162, fun c =>
    switch c
      [(2, st 69); (48, st 163); (49, st 193); (50, st 196)]
      (if c <? 65 then
          if (51 <=? c) && (c <=? 57) then st 199
          else st 0
        else if c >? 70 then
          if (97 <=? c) && (c <=? 102) then st 200
          else st 0
        else st 200));
   (163, fun c =>
    switch c
      [(46, st 72); (58, st 167); (93, st 460)]
      (if c <? 65 then
          if (48 <=? c) && (c <=? 57) then st 164
          else st 0
        else if c >? 70 then
          if (97 <=? c) && (c <=? 102) then st 164
          else st 0
        else st 164));
   (164, fun c =>
    switch c
      [(58, st 167); (93, st 460)]
      (if c <? 65 then
          if (48 <=? c) && (c <=? 57) then st 165
          else st 0
        else if c >? 70 then
          if (97 <=? c) && (c <=? 102) then st 165
          else st 0
        else st 165));
   (165, fun c =>
    switch c
      [(58, st 167); (93, st 460)]
      (if c <? 65 then
          if (48 <=? c) && (c <=? 57) then st 166
          else st 0
        else if c >? 70 then
          if (97 <=? c) && (c <=? 102) then st 166
          else st 0
        else st 166));
   (166, fun c =>
    switch c
      [(58, st 167); (93, st 460)]
      (st 0));
   (167, fun c =>
    switch c
      [(2, st 69); (48, st 168); (49, st 185); (50, st 188)]
      (if c <? 65 then
          if (51 <=? c) && (c <=? 57) then st 191
          else st 0
        else if c >? 70 then
          if (97 <=? c) && (c <=? 102) then st 192
          else st 0
        else st 192))].

(** uri.cc, lines 3564-3704 *)
Definition uri_cases_26 : list (Z * (Z -> label)) :=
  [(168, fun c =>
    switch c
      [(46, st 72); (58, st 172); (93, st 460)]
      (if c <? 65 then
          if (48 <=? c) && (c <=? 57) then st 169
          else st 0
        else if c >? 70 then
          if (97 <=? c) && (c <=? 102) then st 169
          else st 0
        else st 169));
   (169, fun c =>
    switch c
      [(58, st 172); (93, st 460)]
      (if c <? 65 then
          if (48 <=? c) && (c <=? 57) then st 170
          else st 0
        else if c >? 70 then
          if (97 <=? c) && (c <=? 102) then st 170
          else st 0
        else st 170));
   (170, fun c =>
    switch c
      [(58, st 172); (93, st 460)]
      (if c <? 65 then
          if (48 <=? c) && (c <=? 57) then st 171
          else st 0
        else if c >? 70 then
          if (97 <=? c) && (c <=? 102) then st 171
          else st 0
        else st 171));
   (171, fun c =>
    switch c
      [(58, st 172); (93, st 460)]
      (st 0));
   (172, fun c =>
    switch c
      [(2, st 69); (48, st 173); (49, st 177); (50, st 180)]
      (if c <? 65 then
          if (51 <=? c) && (c <=? 57) then st 183
          else st 0
        else if c >? 70 then
          if (97 <=? c) && (c <=? 102) then st 184
          else st 0
        else st 184));
   (173, fun c =>
    switch c
      [(46, st 72); (58, st 111); (93, st 460)]
      (if c <? 65 then
          if (48 <=? c) && (c <=? 57) then st 174
          else st 0
        else if c >? 70 then
          if (97 <=? c) && (c <=? 102) then st 174
          else st 0
        else st 174));
   (174, fun c =>
    switch c
      [(58, st 111); (93, st 460)]
      (if c <? 65 then
          if (48 <=? c) && (c <=? 57) then st 175
          else st 0
        else if c >? 70 then
          if (97 <=? c) && (c <=? 102) then st 175
          else st 0
        else st 175));
   (175, fun c =>
    switch c
      [(58, st 111); (93, st 460)]
      (if c <? 65 then
          if (48 <=? c) && (c <=? 57) then st 176
          else st 0
        else if c >? 70 then
          if (97 <=? c) && (c <=? 102) then st 176
          else st 0
        else st 176));
   (176, fun c =>
    switch c
      [(58, st 111); (93, st 460)]
      (st 0))].

(** uri.cc, lines 3705-3851 *)
Definition uri_cases_27 : list (Z * (Z -> label)) :=
  [(177, fun c =>
    switch c
      [(46, st 72); (58, st 111); (93, st 460)]
      (if c <? 65 then
          if (48 <=? c) && (c <=? 57) then st 178
          else st 0
        else if c >? 70 then
          if (97 <=? c) && (c <=? 102) then st 174
          else st 0
        else st 174));
   (178, fun c =>
    switch c
      [(46, st 72); (58, st 111); (93, st 460)]
      (if c <? 65 then
          if (48 <=? c) && (c <=? 57) then st 179
          else st 0
        else if c >? 70 then
          if (97 <=? c) && (c <=? 102) then st 175
          else st 0
        else st 175));
   (179, fun c =>
    switch c
      [(46, st 72); (58, st 111); (93, st 460)]
      (if c <? 65 then
          if (48 <=? c) && (c <=? 57) then st 176
          else st 0
        else if c >? 70 then
          if (97 <=? c) && (c <=? 102) then st 176
          else st 0
        else st 176));
   (180, fun c =>
    switch c
      [(46, st 72); (53, st 182); (58, st 111); (93, st 460)]
      (if c <? 65 then
          if (48 <=? c) && (c <=? 57) then st 181
          else st 0
        else if c >? 70 then
          if (97 <=? c) && (c <=? 102) then st 174
          else st 0
        else st 174));
   (181, fun c =>
    switch c
      [(46, st 72); (58, st 111); (93, st 460)]
      (if c <? 65 then
          if (48 <=? c) && (c <=? 57) then st 175
          else st 0
        else if c >? 70 then
          if (97 <=? c) && (c <=? 102) then st 175
          else st 0
        else st 175));
   (182, fun c =>
    switch c
      [(46, st 72); (58, st 111); (93, st 460)]
      (if c <? 54 then
          if (48 <=? c) && (c <=? 53) then st 179
          else st 0
        else if c >? 57 then
          if c >? 70 then
            if (97 <=? c) && (c <=? 102) then st 175
            else st 0
          else if c >=? 65 then st 175
          else st 0
        else st 175));
   (183, fun c =>
    switch c
      [(46, st 72); (58, st 111); (93, st 460)]
      (if c <? 65 then
          if (48 <=? c) && (c <=? 57) then st 181
          else st 0
        else if c >? 70 then
          if (97 <=? c) && (c <=? 102) then st 174
          else st 0
        else st 174));
   (184, fun c =>
    switch c
      [(58, st 111); (93, st 460)]
      (if c <? 65 then
          if (48 <=? c) && (c <=? 57) then st 174
          else st 0
        else if c >? 70 then
          if (97 <=? c) && (c <=? 102) then st 174
          else st 0
        else st 174))].

(** uri.cc, lines 3852-3998 *)
Definition uri_cases_28 : list (Z * (Z -> label)) :=
  [(185, fun c =>
    switch c
      [(46, st 72); (58, st 172); (93, st 460)]
      (if c <? 65 then
          if (48 <=? c) && (c <=? 57) then st 186
          else st 0
        else if c >? 70 then
          if (97 <=? c) && (c <=? 102) then st 169
          else st 0
        else st 169));
   (186, fun c =>
    switch c
      [(46, st 72); (58, st 172); (93, st 460)]
      (if c <? 65 then
          if (48 <=? c) && (c <=? 57) then st 187
          else st 0
        else if c >? 70 then
          if (97 <=? c) && (c <=? 102) then st 170
          else st 0
        else st 170));
   (187, fun c =>
    switch c
      [(46, st 72); (58, st 172); (93, st 460)]
      (if c <? 65 then
          if (48 <=? c) && (c <=? 57) then st 171
          else st 0
        else if c >? 70 then
          if (97 <=? c) && (c <=? 102) then st 171
          else st 0
        else st 171));
   (188, fun c =>
    switch c
      [(46, st 72); (53, st 190); (58, st 172); (93, st 460)]
      (if c <? 65 then
          if (48 <=? c) && (c <=? 57) then st 189
          else st 0
        else if c >? 70 then
          if (97 <=? c) && (c <=? 102) then st 169
          else st 0
        else st 169));
   (189, fun c =>
    switch c
      [(46, st 72); (58, st 172); (93, st 460)]
      (if c <? 65 then
          if (48 <=? c) && (c <=? 57) then st 170
          else st 0
        else if c >? 70 then
          if (97 <=? c) && (c <=? 102) then st 170
          else st 0
        else st 170));
   (190, fun c =>
    switch c
      [(46, st 72); (58, st 172); (93, st 460)]
      (if c <? 54 then
          if (48 <=? c) && (c <=? 53) then st 187
          else st 0
        else if c >? 57 then
          if c >? 70 then
            if (97 <=? c) && (c <=? 102) then st 170
            else st 0
          else if c >=? 65 then st 170
          else st 0
        else st 170));
   (191, fun c =>
    switch c
      [(46, st 72); (58, st 172); (93, st 460)]
      (if c <? 65 then
          if (48 <=? c) && (c <=? 57) then st 189
          else st 0
        else if c >? 70 then
          if (97 <=? c) && (c <=? 102) then st 169
          else st 0
        else st 169));
   (192, fun c =>
    switch c
      [(58, st 172); (93, st 460)]
      (if c <? 65 then
          if (48 <=? c) && (c <=? 57) then st 169
          else st 0
        else if c >? 70 then
          if (97 <=? c) && (c <=? 102) then st 169
          else st 0
        else st 169))].

(** uri.cc, lines 3999-4145 *)
Definition uri_cases_29 : list (Z * (Z -> label)) :=
  [(193, fun c =>
    switch c
      [(46, st 72); (58, st 167); (93, st 460)]
      (if c <? 65 then
          if (48 <=? c) && (c <=? 57) then st 194
          else st 0
        else if c >? 70 then
          if (97 <=? c) && (c <=? 102) then st 164
          else st 0
        else st 164));
   (194, fun c =>
    switch c
      [(46, st 72); (58, st 167); (93, st 460)]
      (if c <? 65 then
          if (48 <=? c) && (c <=? 57) then st 195
          else st 0
        else if c >? 70 then
          if (97 <=? c) && (c <=? 102) then st 165
          else st 0
        else st 165));
   (195, fun c =>
    switch c
      [(46, st 72); (58, st 167); (93, st 460)]
      (if c <? 65 then
          if (48 <=? c) && (c <=? 57) then st 166
          else st 0
        else if c >? 70 then
          if (97 <=? c) && (c <=? 102) then st 166
          else st 0
        else st 166));
   (196, fun c =>
    switch c
      [(46, st 72); (53, st 198); (58, st 167); (93, st 460)]
      (if c <? 65 then
          if (48 <=? c) && (c <=? 57) then st 197
          else st 0
        else if c >? 70 then
          if (97 <=? c) && (c <=? 102) then st 164
          else st 0
        else st 164));
   (197, fun c =>
    switch c
      [(46, st 72); (58, st 167); (93, st 460)]
      (if c <? 65 then
          if (48 <=? c) && (c <=? 57) then st 165
          else st 0
        else if c >? 70 then
          if (97 <=? c) && (c <=? 102) then st 165
          else st 0
        else st 165));
   (198, fun c =>
    switch c
      [(46, st 72); (58, st 167); (93, st 460)]
      (if c <? 54 then
          if (48 <=? c) && (c <=? 53) then st 195
          else st 0
        else if c >? 57 then
          if c >? 70 then
            if (97 <=? c) && (c <=? 102) then st 165
            else st 0
          else if c >=? 65 then st 165
          else st 0
        else st 165));
   (199, fun c =>
    switch c
      [(46, st 72); (58, st 167); (93, st 460)]
      (if c <? 65 then
          if (48 <=? c) && (c <=? 57) then st 197
          else st 0
        else if c >? 70 then
          if (97 <=? c) && (c <=? 102) then st 164
          else st 0
        else st 164));
   (200, fun c =>
    switch c
      [(58, st 167); (93, st 460)]
      (if c <? 65 then
          if (48 <=? c) && (c <=? 57) then st 164
          else st 0
        else if c >? 70 then
          if (97 <=? c) && (c <=? 102) then st 164
          else st 0
        else st 164))].

(** uri.cc, lines 4146-4292 *)
Definition uri_cases_30 : list (Z * (Z -> label)) :=
  [(201, fun c =>
    switch c
      [(46, st 72); (58, st 162); (93, st 460)]
      (if c <? 65 then
          if (48 <=? c) && (c <=? 57) then st 202
          else st 0
        else if c >? 70 then
          if (97 <=? c) && (c <=? 102) then st 159
          else st 0
        else st 159));
   (202, fun c =>
    switch c
      [(46, st 72); (58, st 162); (93, st 460)]
      (if c <? 65 then
          if (48 <=? c) && (c <=? 57) then st 203
          else st 0
        else if c >? 70 then
          if (97 <=? c) && (c <=? 102) then st 160
          else st 0
        else st 160));
   (203, fun c =>
    switch c
      [(46, st 72); (58, st 162); (93, st 460)]
      (if c <? 65 then
          if (48 <=? c) && (c <=? 57) then st 161
          else st 0
        else if c >? 70 then
          if (97 <=? c) && (c <=? 102) then st 161
          else st 0
        else st 161));
   (204, fun c =>
    switch c
      [(46, st 72); (53, st 206); (58, st 162); (93, st 460)]
      (if c <? 65 then
          if (48 <=? c) && (c <=? 57) then st 205
          else st 0
        else if c >? 70 then
          if (97 <=? c) && (c <=? 102) then st 159
          else st 0
        else st 159));
   (205, fun c =>
    switch c
      [(46, st 72); (58, st 162); (93, st 460)]
      (if c <? 65 then
          if (48 <=? c) && (c <=? 57) then st 160
          else st 0
        else if c >? 70 then
          if (97 <=? c) && (c <=? 102) then st 160
          else st 0
        else st 160));
   (206, fun c =>
    switch c
      [(46, st 72); (58, st 162); (93, st 460)]
      (if c <? 54 then
          if (48 <=? c) && (c <=? 53) then st 203
          else st 0
        else if c >? 57 then
          if c >? 70 then
            if (97 <=? c) && (c <=? 102) then st 160
            else st 0
          else if c >=? 65 then st 160
          else st 0
        else st 160));
   (207, fun c =>
    switch c
      [(46, st 72); (58, st 162); (93, st 460)]
      (if c <? 65 then
          if (48 <=? c) && (c <=? 57) then st 205
          else st 0
        else if c >? 70 then
          if (97 <=? c) && (c <=? 102) then st 159
          else st 0
        else st 159));
   (208, fun c =>
    switch c
      [(58, st 162); (93, st 460)]
      (if c <? 65 then
          if (48 <=? c) && (c <=? 57) then st 159
          else st 0
        else if c >? 70 then
          if (97 <=? c) && (c <=? 102) then st 159
          else st 0
        else st 159))].

(** uri.cc, lines 4293-4439 *)
Definition uri_cases_31 : list (Z * (Z -> label)) :=
  [(209, fun c =>
    switch c
      [(46, st 72); (58, st 157); (93, st 460)]
      (if c <? 65 then
          if (48 <=? c) && (c <=? 57) then st 210
          else st 0
        else if c >? 70 then
          if (97 <=? c) && (c <=? 102) then st 154
          else st 0
        else st 154));
   (210, fun c =>
    switch c
      [(46, st 72); (58, st 157); (93, st 460)]
      (if c <? 65 then
          if (48 <=? c) && (c <=? 57) then st 211
          else st 0
        else if c >? 70 then
          if (97 <=? c) && (c <=? 102) then st 155
          else st 0
        else st 155));
   (211, fun c =>
    switch c
      [(46, st 72); (58, st 157); (93, st 460)]
      (if c <? 65 then
          if (48 <=? c) && (c <=? 57) then st 156
          else st 0
        else if c >? 70 then
          if (97 <=? c) && (c <=? 102) then st 156
          else st 0
        else st 156));
   (212, fun c =>
    switch c
      [(46, st 72); (53, st 214); (58, st 157); (93, st 460)]
      (if c <? 65 then
          if (48 <=? c) && (c <=? 57) then st 213
          else st 0
        else if c >? 70 then
          if (97 <=? c) && (c <=? 102) then st 154
          else st 0
        else st 154));
   (213, fun c =>
    switch c
      [(46, st 72); (58, st 157); (93, st 460)]
      (if c <? 65 then
          if (48 <=? c) && (c <=? 57) then st 155
          else st 0
        else if c >? 70 then
          if (97 <=? c) && (c <=? 102) then st 155
          else st 0
        else st 155));
   (214, fun c =>
    switch c
      [(46, st 72); (58, st 157); (93, st 460)]
      (if c <? 54 then
          if (48 <=? c) && (c <=? 53) then st 211
          else st 0
        else if c >? 57 then
          if c >? 70 then
            if (97 <=? c) && (c <=? 102) then st 155
            else st 0
          else if c >=? 65 then st 155
          else st 0
        else st 155));
   (215, fun c =>
    switch c
      [(46, st 72); (58, st 157); (93, st 460)]
      (if c <? 65 then
          if (48 <=? c) && (c <=? 57) then st 213
          else st 0
        else if c >? 70 then
          if (97 <=? c) && (c <=? 102) then st 154
          else st 0
        else st 154));
   (216, fun c =>
    switch c
      [(58, st 157); (93, st 460)]
      (if c <? 65 then
          if (48 <=? c) && (c <=? 57) then st 154
          else st 0
        else if c >? 70 then
          if (97 <=? c) && (c <=? 102) then st 154
          else st 0
        else st 154))].

(** uri.cc, lines 4440-4586 *)
Definition uri_cases_32 : list (Z * (Z -> label)) :=
  [(217, fun c =>
    switch c
      [(46, st 72); (58, st 152); (93, st 460)]
      (if c <? 65 then
          if (48 <=? c) && (c <=? 57) then st 218
          else st 0
        else if c >? 70 then
          if (97 <=? c) && (c <=? 102) then st 149
          else st 0
        else st 149));
   (218, fun c =>
    switch c
      [(46, st 72); (58, st 152); (93, st 460)]
      (if c <? 65 then
          if (48 <=? c) && (c <=? 57) then st 219
          else st 0
        else if c >? 70 then
          if (97 <=? c) && (c <=? 102) then st 150
          else st 0
        else st 150));
   (219, fun c =>
    switch c
      [(46, st 72); (58, st 152); (93, st 460)]
      (if c <? 65 then
          if (48 <=? c) && (c <=? 57) then st 151
          else st 0
        else if c >? 70 then
          if (97 <=? c) && (c <=? 102) then st 151
          else st 0
        else st 151));
   (220, fun c =>
    switch c
      [(46, st 72); (53, st 222); (58, st 152); (93, st 460)]
      (if c <? 65 then
          if (48 <=? c) && (c <=? 57) then st 221
          else st 0
        else if c >? 70 then
          if (97 <=? c) && (c <=? 102) then st 149
          else st 0
        else st 149));
   (221, fun c =>
    switch c
      [(46, st 72); (58, st 152); (93, st 460)]
      (if c <? 65 then
          if (48 <=? c) && (c <=? 57) then st 150
          else st 0
        else if c >? 70 then
          if (97 <=? c) && (c <=? 102) then st 150
          else st 0
        else st 150));
   (222, fun c =>
    switch c
      [(46, st 72); (58, st 152); (93, st 460)]
      (if c <? 54 then
          if (48 <=? c) && (c <=? 53) then st 219
          else st 0
        else if c >? 57 then
          if c >? 70 then
            if (97 <=? c) && (c <=? 102) then st 150
            else st 0
          else if c >=? 65 then st 150
          else st 0
        else st 150));
   (223, fun c =>
    switch c
      [(46, st 72); (58, st 152); (93, st 460)]
      (if c <? 65 then
          if (48 <=? c) && (c <=? 57) then st 221
          else st 0
        else if c >? 70 then
          if (97 <=? c) && (c <=? 102) then st 149
          else st 0
        else st 149));
   (224, fun c =>
    switch c
      [(58, st 152); (93, st 460)]
      (if c <? 65 then
          if (48 <=? c) && (c <=? 57) then st 149
          else st 0
        else if c >? 70 then
          if (97 <=? c) && (c <=? 102) then st 149
          else st 0
        else st 149))].

(** uri.cc, lines 4587-4727 *)
Definition uri_cases_33 : list (Z * (Z -> label)) :=
  [(225, fun c =>
    if c <? 65 then
      if (48 <=? c) && (c <=? 57) then st 226
      else st 0
    else if c >? 70 then
      if (97 <=? c) && (c <=? 102) then st 226
      else st 0
    else st 226);
   (226, fun c =>
    if c =? 46 then st 227
    else if c <? 65 then
      if (48 <=? c) && (c <=? 57) then st 226
      else st 0
    else if c >? 70 then
      if (97 <=? c) && (c <=? 102) then st 226
      else st 0
    else st 226);
   (227, fun c =>
    switch c
      [(33, st 228); (36, st 228); (61, st 228); (95, st 228);
       (126, st 228)]
      (if c <? 48 then
          if (38 <=? c) && (c <=? 46) then st 228
          else st 0
        else if c >? 59 then
          if c >? 90 then
            if (97 <=? c) && (c <=? 122) then st 228
            else st 0
          else if c >=? 65 then st 228
          else st 0
        else st 228));
   (228, fun c =>
    switch c
      [(33, st 228); (36, st 228); (61, st 228); (93, st 460);
       (95, st 228); (126, st 228)]
      (if c <? 48 then
          if (38 <=? c) && (c <=? 46) then st 228
          else st 0
        else if c >? 59 then
          if c >? 90 then
            if (97 <=? c) && (c <=? 122) then st 228
            else st 0
          else if c >=? 65 then st 228
          else st 0
        else st 228));
   (489, fun c =>
    switch c
      [(33, st 33); (35, tr 493); (37, st 34); (47, tr 494); (61, st 33);
       (63, tr 496); (64, tr 38); (95, st 33); (126, st 33)]
      (if c <? 58 then
          if c >? 46 then
            if (48 <=? c) && (c <=? 57) then st 489
            else st 0
          else if c >=? 36 then st 33
          else st 0
        else if c >? 59 then
          if c >? 90 then
            if (97 <=? c) && (c <=? 122) then st 33
            else st 0
          else if c >=? 65 then st 33
          else st 0
        else st 33));
   (490, fun c =>
    switch c
      [(33, st 467); (35, tr 485); (37, st 31); (46, st 491);
       (47, tr 486); (58, tr 499); (61, st 467); (63, tr 488);
       (64, tr 38); (95, st 467); (126, st 467)]
      (if c <? 65 then
          if (36 <=? c) && (c <=? 59) then st 467
          else st 0
        else if c >? 90 then
          if (97 <=? c) && (c <=? 122) then st 467
          else st 0
        else st 467))].

Definition uri_trans_33 : list (Z * (list action * Z)) :=
  [(500, ([Mark], 489));
   (477, ([Mark], 490))].

(** uri.cc, lines 4728-4871 *)
Definition uri_cases_34 : list (Z * (Z -> label)) :=
  [(491, fun c =>
    switch c
      [(2, st 13); (33, st 467); (35, tr 485); (37, st 31); (47, tr 486);
       (48, st 492); (49, st 500); (50, st 502); (58, tr 499);
       (59, st 467); (61, st 467); (63, tr 488); (64, tr 38);
       (95, st 467); (126, st 467)]
      (if c <? 51 then
          if (36 <=? c) && (c <=? 46) then st 467
          else st 0
        else if c >? 57 then
          if c >? 90 then
            if (97 <=? c) && (c <=? 122) then st 467
            else st 0
          else if c >=? 65 then st 467
          else st 0
        else st 501));
   (492, fun c =>
    switch c
      [(33, st 467); (35, tr 485); (37, st 31); (46, st 493);
       (47, tr 486); (58, tr 499); (61, st 467); (63, tr 488);
       (64, tr 38); (95, st 467); (126, st 467)]
      (if c <? 65 then
          if (36 <=? c) && (c <=? 59) then st 467
          else st 0
        else if c >? 90 then
          if (97 <=? c) && (c <=? 122) then st 467
          else st 0
        else st 467));
   (493, fun c =>
    switch c
      [(2, st 17); (33, st 467); (35, tr 485); (37, st 31); (47, tr 486);
       (48, st 494); (49, st 496); (50, st 498); (58, tr 499);
       (59, st 467); (61, st 467); (63, tr 488); (64, tr 38);
       (95, st 467); (126, st 467)]
      (if c <? 51 then
          if (36 <=? c) && (c <=? 46) then st 467
          else st 0
        else if c >? 57 then
          if c >? 90 then
            if (97 <=? c) && (c <=? 122) then st 467
            else st 0
          else if c >=? 65 then st 467
          else st 0
        else st 497));
   (494, fun c =>
    switch c
      [(33, st 467); (35, tr 485); (37, st 31); (46, st 495);
       (47, tr 486); (58, tr 499); (61, st 467); (63, tr 488);
       (64, tr 38); (95, st 467); (126, st 467)]
      (if c <? 65 then
          if (36 <=? c) && (c <=? 59) then st 467
          else st 0
        else if c >? 90 then
          if (97 <=? c) && (c <=? 122) then st 467
          else st 0
        else st 467));
   (495, fun c =>
    switch c
      [(2, st 21); (33, st 467); (35, tr 485); (37, st 31); (47, tr 486);
       (58, tr 499); (61, st 467); (63, tr 488); (64, tr 38);
       (95, st 467); (126, st 467)]
      (if c <? 65 then
          if (36 <=? c) && (c <=? 59) then st 467
          else st 0
        else if c >? 90 then
          if (97 <=? c) && (c <=? 122) then st 467
          else st 0
        else st 467))].

(** uri.cc, lines 4872-4994 *)
Definition uri_cases_35 : list (Z * (Z -> label)) :=
  [(496, fun c =>
    switch c
      [(33, st 467); (35, tr 485); (37, st 31); (46, st 495);
       (47, tr 486); (58, tr 499); (59, st 467); (61, st 467);
       (63, tr 488); (64, tr 38); (95, st 467); (126, st 467)]
      (if c <? 48 then
          if (36 <=? c) && (c <=? 45) then st 467
          else st 0
        else if c >? 57 then
          if c >? 90 then
            if (97 <=? c) && (c <=? 122) then st 467
            else st 0
          else if c >=? 65 then st 467
          else st 0
        else st 497));
   (497, fun c =>
    switch c
      [(33, st 467); (35, tr 485); (37, st 31); (46, st 495);
       (47, tr 486); (58, tr 499); (59, st 467); (61, st 467);
       (63, tr 488); (64, tr 38); (95, st 467); (126, st 467)]
      (if c <? 48 then
          if (36 <=? c) && (c <=? 45) then st 467
          else st 0
        else if c >? 57 then
          if c >? 90 then
            if (97 <=? c) && (c <=? 122) then st 467
            else st 0
          else if c >=? 65 then st 467
          else st 0
        else st 494));
   (498, fun c =>
    switch c
      [(33, st 467); (35, tr 485); (37, st 31); (46, st 495);
       (47, tr 486); (53, st 499); (58, tr 499); (59, st 467);
       (61, st 467); (63, tr 488); (64, tr 38); (95, st 467); (126, st 467)]
      (if c <? 48 then
          if (36 <=? c) && (c <=? 45) then st 467
          else st 0
        else if c >? 57 then
          if c >? 90 then
            if (97 <=? c) && (c <=? 122) then st 467
            else st 0
          else if c >=? 65 then st 467
          else st 0
        else st 494));
   (499, fun c =>
    switch c
      [(33, st 467); (35, tr 485); (37, st 31); (46, st 495);
       (47, tr 486); (58, tr 499); (61, st 467); (63, tr 488);
       (64, tr 38); (95, st 467); (126, st 467)]
      (if c <? 54 then
          if c >? 45 then
            if (48 <=? c) && (c <=? 53) then st 494
            else st 0
          else if c >=? 36 then st 467
          else st 0
        else if c >? 59 then
          if c >? 90 then
            if (97 <=? c) && (c <=? 122) then st 467
            else st 0
          else if c >=? 65 then st 467
          else st 0
        else st 467))].

(** uri.cc, lines 4995-5121 *)
Definition uri_cases_36 : list (Z * (Z -> label)) :=
  [(500, fun c =>
    switch c
      [(33, st 467); (35, tr 485); (37, st 31); (46, st 493);
       (47, tr 486); (58, tr 499); (59, st 467); (61, st 467);
       (63, tr 488); (64, tr 38); (95, st 467); (126, st 467)]
      (if c <? 48 then
          if (36 <=? c) && (c <=? 45) then st 467
          else st 0
        else if c >? 57 then
          if c >? 90 then
            if (97 <=? c) && (c <=? 122) then st 467
            else st 0
          else if c >=? 65 then st 467
          else st 0
        else st 501));
   (501, fun c =>
    switch c
      [(33, st 467); (35, tr 485); (37, st 31); (46, st 493);
       (47, tr 486); (58, tr 499); (59, st 467); (61, st 467);
       (63, tr 488); (64, tr 38); (95, st 467); (126, st 467)]
      (if c <? 48 then
          if (36 <=? c) && (c <=? 45) then st 467
          else st 0
        else if c >? 57 then
          if c >? 90 then
            if (97 <=? c) && (c <=? 122) then st 467
            else st 0
          else if c >=? 65 then st 467
          else st 0
        else st 492));
   (502, fun c =>
    switch c
      [(33, st 467); (35, tr 485); (37, st 31); (46, st 493);
       (47, tr 486); (53, st 503); (58, tr 499); (59, st 467);
       (61, st 467); (63, tr 488); (64, tr 38); (95, st 467); (126, st 467)]
      (if c <? 48 then
          if (36 <=? c) && (c <=? 45) then st 467
          else st 0
        else if c >? 57 then
          if c >? 90 then
            if (97 <=? c) && (c <=? 122) then st 467
            else st 0
          else if c >=? 65 then st 467
          else st 0
        else st 492));
   (503, fun c =>
    switch c
      [(33, st 467); (35, tr 485); (37, st 31); (46, st 493);
       (47, tr 486); (58, tr 499); (61, st 467); (63, tr 488);
       (64, tr 38); (95, st 467); (126, st 467)]
      (if c <? 54 then
          if c >? 45 then
            if (48 <=? c) && (c <=? 53) then st 492
            else st 0
          else if c >=? 36 then st 467
          else st 0
        else if c >? 59 then
          if c >? 90 then
            if (97 <=? c) && (c <=? 122) then st 467
            else st 0
          else if c >=? 65 then st 467
          else st 0
        else st 467))].

Definition uri_trans_36 : list (Z * (list action * Z)) :=
  [(478, ([Mark], 504))].

(** uri.cc, lines 5122-5259 *)
Definition uri_cases_37 : list (Z * (Z -> label)) :=
  [(504, fun c =>
    switch c
      [(33, st 467); (35, tr 485); (37, st 31); (46, st 491);
       (47, tr 486); (58, tr 499); (59, st 467); (61, st 467);
       (63, tr 488); (64, tr 38); (95, st 467); (126, st 467)]
      (if c <? 48 then
          if (36 <=? c) && (c <=? 45) then st 467
          else st 0
        else if c >? 57 then
          if c >? 90 then
            if (97 <=? c) && (c <=? 122) then st 467
            else st 0
          else if c >=? 65 then st 467
          else st 0
        else st 505));
   (505, fun c =>
    switch c
      [(33, st 467); (35, tr 485); (37, st 31); (46, st 491);
       (47, tr 486); (58, tr 499); (59, st 467); (61, st 467);
       (63, tr 488); (64, tr 38); (95, st 467); (126, st 467)]
      (if c <? 48 then
          if (36 <=? c) && (c <=? 45) then st 467
          else st 0
        else if c >? 57 then
          if c >? 90 then
            if (97 <=? c) && (c <=? 122) then st 467
            else st 0
          else if c >=? 65 then st 467
          else st 0
        else st 490));
   (506, fun c =>
    switch c
      [(33, st 467); (35, tr 485); (37, st 31); (46, st 491);
       (47, tr 486); (53, st 507); (58, tr 499); (59, st 467);
       (61, st 467); (63, tr 488); (64, tr 38); (95, st 467); (126, st 467)]
      (if c <? 48 then
          if (36 <=? c) && (c <=? 45) then st 467
          else st 0
        else if c >? 57 then
          if c >? 90 then
            if (97 <=? c) && (c <=? 122) then st 467
            else st 0
          else if c >=? 65 then st 467
          else st 0
        else st 490));
   (507, fun c =>
    switch c
      [(33, st 467); (35, tr 485); (37, st 31); (46, st 491);
       (47, tr 486); (58, tr 499); (61, st 467); (63, tr 488);
       (64, tr 38); (95, st 467); (126, st 467)]
      (if c <? 54 then
          if c >? 45 then
            if (48 <=? c) && (c <=? 53) then st 490
            else st 0
          else if c >=? 36 then st 467
          else st 0
        else if c >? 59 then
          if c >? 90 then
            if (97 <=? c) && (c <=? 122) then st 467
            else st 0
          else if c >=? 65 then st 467
          else st 0
        else st 467))].

Definition uri_trans_37 : list (Z * (list action * Z)) :=
  [(480, ([Mark], 505));
   (479, ([Mark], 506));
   (461, ([Mark], 508))].

(** uri.cc, lines 5260-5404 *)
Definition uri_cases_38 : list (Z * (Z -> label)) :=
  [(508, fun c =>
    switch c
      [(34, st 0); (35, st 453); (37, st 3); (43, st 508); (47, st 455);
       (58, tr 543); (60, st 0); (62, st 0); (63, st 456); (96, st 0);
       (127, st 0)]
      (if c <? 65 then
          if c >? 32 then
            if (45 <=? c) && (c <=? 57) then st 508
            else st 452
          else if c >=? 0 then st 0
          else st 452
        else if c >? 90 then
          if c <? 97 then
            if (91 <=? c) && (c <=? 94) then st 0
            else st 452
          else if c >? 122 then
            if (123 <=? c) && (c <=? 125) then st 0
            else st 452
          else st 508
        else st 508));
   (509, fun c =>
    switch c
      [(34, st 0); (35, st 453); (37, st 5); (47, st 510); (60, st 0);
       (62, st 0); (63, st 456); (96, st 0); (127, st 0)]
      (if c <? 91 then
          if (0 <=? c) && (c <=? 32) then st 0
          else st 455
        else if c >? 94 then
          if (123 <=? c) && (c <=? 125) then st 0
          else st 455
        else st 0));
   (510, fun c =>
    switch c
      [(34, st 0); (35, st 453); (37, st 5); (47, st 511); (60, st 0);
       (62, st 0); (63, st 456); (96, st 0); (127, st 0)]
      (if c <? 91 then
          if (0 <=? c) && (c <=? 32) then st 0
          else st 455
        else if c >? 94 then
          if (123 <=? c) && (c <=? 125) then st 0
          else st 455
        else st 0));
   (511, fun c =>
    switch c
      [(2, tr 546); (33, tr 547); (35, tr 548); (37, tr 549);
       (47, tr 550); (48, tr 551); (49, tr 552); (50, tr 553);
       (58, tr 555); (59, tr 547); (61, tr 547); (63, tr 556);
       (64, tr 557); (91, tr 558); (95, tr 547); (126, tr 547)]
      (if c <? 51 then
          if (36 <=? c) && (c <=? 46) then tr 547
          else st 0
        else if c >? 57 then
          if c >? 90 then
            if (97 <=? c) && (c <=? 122) then tr 547
            else st 0
          else if c >=? 65 then tr 547
          else st 0
        else tr 554));
   (229, fun c =>
    if (48 <=? c) && (c <=? 52) then st 230
    else st 0);
   (230, fun c =>
    if (48 <=? c) && (c <=? 57) then st 231
    else st 0)].

Definition uri_trans_38 : list (Z * (list action * Z)) :=
  [(543, ([SaveScheme], 509));
   (546, ([Mark], 229))].

(** uri.cc, lines 5405-5550 *)
Definition uri_cases_39 : list (Z * (Z -> label)) :=
  [(231, fun c =>
    if c =? 46 then st 232
    else st 0);
   (232, fun c =>
    switch c
      [(2, st 233); (48, st 235); (49, st 249); (50, st 251)]
      (if (51 <=? c) && (c <=? 57) then st 250
        else st 0));
   (233, fun c =>
    if (48 <=? c) && (c <=? 52) then st 234
    else st 0);
   (234, fun c =>
    if (48 <=? c) && (c <=? 57) then st 235
    else st 0);
   (235, fun c =>
    if c =? 46 then st 236
    else st 0);
   (236, fun c =>
    switch c
      [(2, st 237); (48, st 239); (49, st 245); (50, st 247)]
      (if (51 <=? c) && (c <=? 57) then st 246
        else st 0));
   (237, fun c =>
    if (48 <=? c) && (c <=? 52) then st 238
    else st 0);
   (238, fun c =>
    if (48 <=? c) && (c <=? 57) then st 239
    else st 0);
   (239, fun c =>
    if c =? 46 then st 240
    else st 0);
   (240, fun c =>
    switch c
      [(2, st 241); (48, st 512); (49, st 516); (50, st 518)]
      (if (51 <=? c) && (c <=? 57) then st 517
        else st 0));
   (241, fun c =>
    if (48 <=? c) && (c <=? 52) then st 242
    else st 0);
   (242, fun c =>
    if (48 <=? c) && (c <=? 57) then st 512
    else st 0);
   (512, fun c =>
    switch c
      [(35, tr 559); (47, tr 560); (58, tr 561); (63, tr 562)]
      (st 0))].

Definition uri_trans_39 : list (Z * (list action * Z)) :=
  [(550, ([Mark; SaveHost], 513));
   (567, ([Mark; SavePort], 513));
   (560, ([SaveHost; Mark], 513))].

(** uri.cc, lines 5551-5687 *)
Definition uri_cases_40 : list (Z * (Z -> label)) :=
  [(513, fun c =>
    switch c
      [(34, st 0); (35, tr 563); (37, st 243); (60, st 0); (62, st 0);
       (63, tr 565); (96, st 0); (127, st 0)]
      (if c <? 91 then
          if (0 <=? c) && (c <=? 32) then st 0
          else st 513
        else if c >? 94 then
          if (123 <=? c) && (c <=? 125) then st 0
          else st 513
        else st 0));
   (243, fun c =>
    if c <? 65 then
      if (48 <=? c) && (c <=? 57) then st 244
      else st 0
    else if c >? 70 then
      if (97 <=? c) && (c <=? 102) then st 244
      else st 0
    else st 244);
   (244, fun c =>
    if c <? 65 then
      if (48 <=? c) && (c <=? 57) then st 513
      else st 0
    else if c >? 70 then
      if (97 <=? c) && (c <=? 102) then st 513
      else st 0
    else st 513);
   (514, fun c =>
    switch c
      [(35, tr 566); (47, tr 567); (63, tr 569)]
      (if (48 <=? c) && (c <=? 57) then tr 568
        else st 0));
   (515, fun c =>
    switch c
      [(35, tr 570); (47, tr 571); (63, tr 573)]
      (if (48 <=? c) && (c <=? 57) then st 515
        else st 0));
   (516, fun c =>
    switch c
      [(35, tr 559); (47, tr 560); (58, tr 561); (63, tr 562)]
      (if (48 <=? c) && (c <=? 57) then st 517
        else st 0));
   (517, fun c =>
    switch c
      [(35, tr 559); (47, tr 560); (58, tr 561); (63, tr 562)]
      (if (48 <=? c) && (c <=? 57) then st 512
        else st 0))].

Definition uri_trans_40 : list (Z * (list action * Z)) :=
  [(571, ([SavePort; Mark], 513));
   (584, ([Mark; SaveHost], 514));
   (561, ([SaveHost], 514));
   (568, ([Mark], 515))].

(** uri.cc, lines 5688-5824 *)
Definition uri_cases_41 : list (Z * (Z -> label)) :=
  [(518, fun c =>
    switch c
      [(35, tr 559); (47, tr 560); (53, st 519); (58, tr 561); (63, tr 562)]
      (if (48 <=? c) && (c <=? 57) then st 512
        else st 0));
   (519, fun c =>
    switch c
      [(35, tr 559); (47, tr 560); (58, tr 561); (63, tr 562)]
      (if (48 <=? c) && (c <=? 53) then st 512
        else st 0));
   (245, fun c =>
    if c =? 46 then st 240
    else if (48 <=? c) && (c <=? 57) then st 246
    else st 0);
   (246, fun c =>
    if c =? 46 then st 240
    else if (48 <=? c) && (c <=? 57) then st 239
    else st 0);
   (247, fun c =>
    switch c
      [(46, st 240); (53, st 248)]
      (if (48 <=? c) && (c <=? 57) then st 239
        else st 0));
   (248, fun c =>
    if c =? 46 then st 240
    else if (48 <=? c) && (c <=? 53) then st 239
    else st 0);
   (249, fun c =>
    if c =? 46 then st 236
    else if (48 <=? c) && (c <=? 57) then st 250
    else st 0);
   (250, fun c =>
    if c =? 46 then st 236
    else if (48 <=? c) && (c <=? 57) then st 235
    else st 0);
   (251, fun c =>
    switch c
      [(46, st 236); (53, st 252)]
      (if (48 <=? c) && (c <=? 57) then st 235
        else st 0));
   (252, fun c =>
    if c =? 46 then st 236
    else if (48 <=? c) && (c <=? 53) then st 235
    else st 0);
   (520, fun c =>
    switch c
      [(33, st 520); (35, tr 559); (37, st 253); (47, tr 560);
       (58, tr 576); (61, st 520); (63, tr 562); (64, tr 263);
       (95, st 520); (126, st 520)]
      (if c <? 65 then
          if (36 <=? c) && (c <=? 59) then st 520
          else st 0
        else if c >? 90 then
          if (97 <=? c) && (c <=? 122) then st 520
          else st 0
        else st 520))].

Definition uri_trans_41 : list (Z * (list action * Z)) :=
  [(547, ([Mark], 520));
   (549, ([Mark], 253))].

(** uri.cc, lines 5825-5974 *)
Definition uri_cases_42 : list (Z * (Z -> label)) :=
  [(253, fun c =>
    if c <? 65 then
      if (48 <=? c) && (c <=? 57) then st 254
      else st 0
    else if c >? 70 then
      if (97 <=? c) && (c <=? 102) then st 254
      else st 0
    else st 254);
   (254, fun c =>
    if c <? 65 then
      if (48 <=? c) && (c <=? 57) then st 520
      else st 0
    else if c >? 70 then
      if (97 <=? c) && (c <=? 102) then st 520
      else st 0
    else st 520);
   (521, fun c =>
    switch c
      [(33, st 255); (35, tr 566); (37, st 256); (47, tr 567);
       (61, st 255); (63, tr 569); (64, tr 263); (95, st 255);
       (126, st 255)]
      (if c <? 58 then
          if c >? 46 then
            if (48 <=? c) && (c <=? 57) then tr 577
            else st 0
          else if c >=? 36 then st 255
          else st 0
        else if c >? 59 then
          if c >? 90 then
            if (97 <=? c) && (c <=? 122) then st 255
            else st 0
          else if c >=? 65 then st 255
          else st 0
        else st 255));
   (255, fun c =>
    switch c
      [(33, st 255); (37, st 256); (61, st 255); (64, tr 263);
       (95, st 255); (126, st 255)]
      (if c <? 48 then
          if (36 <=? c) && (c <=? 46) then st 255
          else st 0
        else if c >? 59 then
          if c >? 90 then
            if (97 <=? c) && (c <=? 122) then st 255
            else st 0
          else if c >=? 65 then st 255
          else st 0
        else st 255));
   (256, fun c =>
    if c <? 65 then
      if (48 <=? c) && (c <=? 57) then st 257
      else st 0
    else if c >? 70 then
      if (97 <=? c) && (c <=? 102) then st 257
      else st 0
    else st 257);
   (257, fun c =>
    if c <? 65 then
      if (48 <=? c) && (c <=? 57) then st 255
      else st 0
    else if c >? 70 then
      if (97 <=? c) && (c <=? 102) then st 255
      else st 0
    else st 255)].

Definition uri_trans_42 : list (Z * (list action * Z)) :=
  [(555, ([Mark; SaveHost], 521));
   (576, ([SaveHost], 521));
   (263, ([SaveUserinfo], 522));
   (557, ([Mark; SaveUserinfo], 522))].

(** uri.cc, lines 5975-6098 *)
Definition uri_cases_43 : list (Z * (Z -> label)) :=
  [(522, fun c =>
    switch c
      [(2, tr 546); (33, tr 578); (35, tr 548); (37, tr 579);
       (47, tr 550); (48, tr 580); (49, tr 581); (50, tr 582);
       (58, tr 584); (59, tr 578); (61, tr 578); (63, tr 556);
       (91, tr 558); (95, tr 578); (126, tr 578)]
      (if c <? 51 then
          if (36 <=? c) && (c <=? 46) then tr 578
          else st 0
        else if c >? 57 then
          if c >? 90 then
            if (97 <=? c) && (c <=? 122) then tr 578
            else st 0
          else if c >=? 65 then tr 578
          else st 0
        else tr 583));
   (523, fun c =>
    switch c
      [(33, st 523); (35, tr 559); (37, st 258); (47, tr 560);
       (58, tr 561); (61, st 523); (63, tr 562); (95, st 523);
       (126, st 523)]
      (if c <? 65 then
          if (36 <=? c) && (c <=? 59) then st 523
          else st 0
        else if c >? 90 then
          if (97 <=? c) && (c <=? 122) then st 523
          else st 0
        else st 523));
   (258, fun c =>
    if c <? 65 then
      if (48 <=? c) && (c <=? 57) then st 259
      else st 0
    else if c >? 70 then
      if (97 <=? c) && (c <=? 102) then st 259
      else st 0
    else st 259);
   (259, fun c =>
    if c <? 65 then
      if (48 <=? c) && (c <=? 57) then st 523
      else st 0
    else if c >? 70 then
      if (97 <=? c) && (c <=? 102) then st 523
      else st 0
    else st 523);
   (524, fun c =>
    switch c
      [(33, st 523); (35, tr 559); (37, st 258); (46, st 525);
       (47, tr 560); (58, tr 561); (61, st 523); (63, tr 562);
       (95, st 523); (126, st 523)]
      (if c <? 65 then
          if (36 <=? c) && (c <=? 59) then st 523
          else st 0
        else if c >? 90 then
          if (97 <=? c) && (c <=? 122) then st 523
          else st 0
        else st 523))].

Definition uri_trans_43 : list (Z * (list action * Z)) :=
  [(578, ([Mark], 523));
   (579, ([Mark], 258));
   (580, ([Mark], 524))].

(** uri.cc, lines 6099-6237 *)
Definition uri_cases_44 : list (Z * (Z -> label)) :=
  [(525, fun c =>
    switch c
      [(2, st 233); (33, st 523); (35, tr 559); (37, st 258);
       (47, tr 560); (48, st 526); (49, st 534); (50, st 536);
       (58, tr 561); (59, st 523); (61, st 523); (63, tr 562);
       (95, st 523); (126, st 523)]
      (if c <? 51 then
          if (36 <=? c) && (c <=? 46) then st 523
          else st 0
        else if c >? 57 then
          if c >? 90 then
            if (97 <=? c) && (c <=? 122) then st 523
            else st 0
          else if c >=? 65 then st 523
          else st 0
        else st 535));
   (526, fun c =>
    switch c
      [(33, st 523); (35, tr 559); (37, st 258); (46, st 527);
       (47, tr 560); (58, tr 561); (61, st 523); (63, tr 562);
       (95, st 523); (126, st 523)]
      (if c <? 65 then
          if (36 <=? c) && (c <=? 59) then st 523
          else st 0
        else if c >? 90 then
          if (97 <=? c) && (c <=? 122) then st 523
          else st 0
        else st 523));
   (527, fun c =>
    switch c
      [(2, st 237); (33, st 523); (35, tr 559); (37, st 258);
       (47, tr 560); (48, st 528); (49, st 530); (50, st 532);
       (58, tr 561); (59, st 523); (61, st 523); (63, tr 562);
       (95, st 523); (126, st 523)]
      (if c <? 51 then
          if (36 <=? c) && (c <=? 46) then st 523
          else st 0
        else if c >? 57 then
          if c >? 90 then
            if (97 <=? c) && (c <=? 122) then st 523
            else st 0
          else if c >=? 65 then st 523
          else st 0
        else st 531));
   (528, fun c =>
    switch c
      [(33, st 523); (35, tr 559); (37, st 258); (46, st 529);
       (47, tr 560); (58, tr 561); (61, st 523); (63, tr 562);
       (95, st 523); (126, st 523)]
      (if c <? 65 then
          if (36 <=? c) && (c <=? 59) then st 523
          else st 0
        else if c >? 90 then
          if (97 <=? c) && (c <=? 122) then st 523
          else st 0
        else st 523));
   (529, fun c =>
    switch c
      [(2, st 241); (33, st 523); (35, tr 559); (37, st 258);
       (47, tr 560); (58, tr 561); (61, st 523); (63, tr 562);
       (95, st 523); (126, st 523)]
      (if c <? 65 then
          if (36 <=? c) && (c <=? 59) then st 523
          else st 0
        else if c >? 90 then
          if (97 <=? c) && (c <=? 122) then st 523
          else st 0
        else st 523))].

(** uri.cc, lines 6238-6385 *)
Definition uri_cases_45 : list (Z * (Z -> label)) :=
  [(530, fun c =>
    switch c
      [(33, st 523); (35, tr 559); (37, st 258); (46, st 529);
       (47, tr 560); (58, tr 561); (59, st 523); (61, st 523);
       (63, tr 562); (95, st 523); (126, st 523)]
      (if c <? 48 then
          if (36 <=? c) && (c <=? 45) then st 523
          else st 0
        else if c >? 57 then
          if c >? 90 then
            if (97 <=? c) && (c <=? 122) then st 523
            else st 0
          else if c >=? 65 then st 523
          else st 0
        else st 531));
   (531, fun c =>
    switch c
      [(33, st 523); (35, tr 559); (37, st 258); (46, st 529);
       (47, tr 560); (58, tr 561); (59, st 523); (61, st 523);
       (63, tr 562); (95, st 523); (126, st 523)]
      (if c <? 48 then
          if (36 <=? c) && (c <=? 45) then st 523
          else st 0
        else if c >? 57 then
          if c >? 90 then
            if (97 <=? c) && (c <=? 122) then st 523
            else st 0
          else if c >=? 65 then st 523
          else st 0
        else st 528));
   (532, fun c =>
    switch c
      [(33, st 523); (35, tr 559); (37, st 258); (46, st 529);
       (47, tr 560); (53, st 533); (58, tr 561); (59, st 523);
       (61, st 523); (63, tr 562); (95, st 523); (126, st 523)]
      (if c <? 48 then
          if (36 <=? c) && (c <=? 45) then st 523
          else st 0
        else if c >? 57 then
          if c >? 90 then
            if (97 <=? c) && (c <=? 122) then st 523
            else st 0
          else if c >=? 65 then st 523
          else st 0
        else st 528));
   (533, fun c =>
    switch c
      [(33, st 523); (35, tr 559); (37, st 258); (46, st 529);
       (47, tr 560); (58, tr 561); (61, st 523); (63, tr 562);
       (95, st 523); (126, st 523)]
      (if c <? 54 then
          if c >? 45 then
            if (48 <=? c) && (c <=? 53) then st 528
            else st 0
          else if c >=? 36 then st 523
          else st 0
        else if c >? 59 then
          if c >? 90 then
            if (97 <=? c) && (c <=? 122) then st 523
            else st 0
          else if c >=? 65 then st 523
          else st 0
        else st 523));
   (534, fun c =>
    switch c
      [(33, st 523); (35, tr 559); (37, st 258); (46, st 527);
       (47, tr 560); (58, tr 561); (59, st 523); (61, st 523);
       (63, tr 562); (95, st 523); (126, st 523)]
      (if c <? 48 then
          if (36 <=? c) && (c <=? 45) then st 523
          else st 0
        else if c >? 57 then
          if c >? 90 then
            if (97 <=? c) && (c <=? 122) then st 523
            else st 0
          else if c >=? 65 then st 523
          else st 0
        else st 535))].

(** uri.cc, lines 6386-6513 *)
Definition uri_cases_46 : list (Z * (Z -> label)) :=
  [(535, fun c =>
    switch c
      [(33, st 523); (35, tr 559); (37, st 258); (46, st 527);
       (47, tr 560); (58, tr 561); (59, st 523); (61, st 523);
       (63, tr 562); (95, st 523); (126, st 523)]
      (if c <? 48 then
          if (36 <=? c) && (c <=? 45) then st 523
          else st 0
        else if c >? 57 then
          if c >? 90 then
            if (97 <=? c) && (c <=? 122) then st 523
            else st 0
          else if c >=? 65 then st 523
          else st 0
        else st 526));
   (536, fun c =>
    switch c
      [(33, st 523); (35, tr 559); (37, st 258); (46, st 527);
       (47, tr 560); (53, st 537); (58, tr 561); (59, st 523);
       (61, st 523); (63, tr 562); (95, st 523); (126, st 523)]
      (if c <? 48 then
          if (36 <=? c) && (c <=? 45) then st 523
          else st 0
        else if c >? 57 then
          if c >? 90 then
            if (97 <=? c) && (c <=? 122) then st 523
            else st 0
          else if c >=? 65 then st 523
          else st 0
        else st 526));
   (537, fun c =>
    switch c
      [(33, st 523); (35, tr 559); (37, st 258); (46, st 527);
       (47, tr 560); (58, tr 561); (61, st 523); (63, tr 562);
       (95, st 523); (126, st 523)]
      (if c <? 54 then
          if c >? 45 then
            if (48 <=? c) && (c <=? 53) then st 526
            else st 0
          else if c >=? 36 then st 523
          else st 0
        else if c >? 59 then
          if c >? 90 then
            if (97 <=? c) && (c <=? 122) then st 523
            else st 0
          else if c >=? 65 then st 523
          else st 0
        else st 523));
   (538, fun c =>
    switch c
      [(33, st 523); (35, tr 559); (37, st 258); (46, st 525);
       (47, tr 560); (58, tr 561); (59, st 523); (61, st 523);
       (63, tr 562); (95, st 523); (126, st 523)]
      (if c <? 48 then
          if (36 <=? c) && (c <=? 45) then st 523
          else st 0
        else if c >? 57 then
          if c >? 90 then
            if (97 <=? c) && (c <=? 122) then st 523
            else st 0
          else if c >=? 65 then st 523
          else st 0
        else st 539))].

Definition uri_trans_46 : list (Z * (list action * Z)) :=
  [(581, ([Mark], 538));
   (583, ([Mark], 539))].

(** uri.cc, lines 6514-6661 *)
Definition uri_cases_47 : list (Z * (Z -> label)) :=
  [(539, fun c =>
    switch c
      [(33, st 523); (35, tr 559); (37, st 258); (46, st 525);
       (47, tr 560); (58, tr 561); (59, st 523); (61, st 523);
       (63, tr 562); (95, st 523); (126, st 523)]
      (if c <? 48 then
          if (36 <=? c) && (c <=? 45) then st 523
          else st 0
        else if c >? 57 then
          if c >? 90 then
            if (97 <=? c) && (c <=? 122) then st 523
            else st 0
          else if c >=? 65 then st 523
          else st 0
        else st 524));
   (540, fun c =>
    switch c
      [(33, st 523); (35, tr 559); (37, st 258); (46, st 525);
       (47, tr 560); (53, st 541); (58, tr 561); (59, st 523);
       (61, st 523); (63, tr 562); (95, st 523); (126, st 523)]
      (if c <? 48 then
          if (36 <=? c) && (c <=? 45) then st 523
          else st 0
        else if c >? 57 then
          if c >? 90 then
            if (97 <=? c) && (c <=? 122) then st 523
            else st 0
          else if c >=? 65 then st 523
          else st 0
        else st 524));
   (541, fun c =>
    switch c
      [(33, st 523); (35, tr 559); (37, st 258); (46, st 525);
       (47, tr 560); (58, tr 561); (61, st 523); (63, tr 562);
       (95, st 523); (126, st 523)]
      (if c <? 54 then
          if c >? 45 then
            if (48 <=? c) && (c <=? 53) then st 524
            else st 0
          else if c >=? 36 then st 523
          else st 0
        else if c >? 59 then
          if c >? 90 then
            if (97 <=? c) && (c <=? 122) then st 523
            else st 0
          else if c >=? 65 then st 523
          else st 0
        else st 523));
   (260, fun c =>
    switch c
      [(58, st 368); (118, st 447)]
      (if c <? 65 then
          if (48 <=? c) && (c <=? 57) then st 261
          else st 0
        else if c >? 70 then
          if (97 <=? c) && (c <=? 102) then st 261
          else st 0
        else st 261));
   (261, fun c =>
    if c =? 58 then st 265
    else if c <? 65 then
      if (48 <=? c) && (c <=? 57) then st 262
      else st 0
    else if c >? 70 then
      if (97 <=? c) && (c <=? 102) then st 262
      else st 0
    else st 262);
   (262, fun c =>
    if c =? 58 then st 265
    else if c <? 65 then
      if (48 <=? c) && (c <=? 57) then st 263
      else st 0
    else if c >? 70 then
      if (97 <=? c) && (c <=? 102) then st 263
      else st 0
    else st 263)].

Definition uri_trans_47 : list (Z * (list action * Z)) :=
  [(582, ([Mark], 540));
   (558, ([Mark], 260))].

(** uri.cc, lines 6662-6810 *)
Definition uri_cases_48 : list (Z * (Z -> label)) :=
  [(263, fun c =>
    if c =? 58 then st 265
    else if c <? 65 then
      if (48 <=? c) && (c <=? 57) then st 264
      else st 0
    else if c >? 70 then
      if (97 <=? c) && (c <=? 102) then st 264
      else st 0
    else st 264);
   (264, fun c =>
    if c =? 58 then st 265
    else st 0);
   (265, fun c =>
    if c =? 58 then st 363
    else if c <? 65 then
      if (48 <=? c) && (c <=? 57) then st 266
      else st 0
    else if c >? 70 then
      if (97 <=? c) && (c <=? 102) then st 266
      else st 0
    else st 266);
   (266, fun c =>
    if c =? 58 then st 270
    else if c <? 65 then
      if (48 <=? c) && (c <=? 57) then st 267
      else st 0
    else if c >? 70 then
      if (97 <=? c) && (c <=? 102) then st 267
      else st 0
    else st 267);
   (267, fun c =>
    if c =? 58 then st 270
    else if c <? 65 then
      if (48 <=? c) && (c <=? 57) then st 268
      else st 0
    else if c >? 70 then
      if (97 <=? c) && (c <=? 102) then st 268
      else st 0
    else st 268);
   (268, fun c =>
    if c =? 58 then st 270
    else if c <? 65 then
      if (48 <=? c) && (c <=? 57) then st 269
      else st 0
    else if c >? 70 then
      if (97 <=? c) && (c <=? 102) then st 269
      else st 0
    else st 269);
   (269, fun c =>
    if c =? 58 then st 270
    else st 0);
   (270, fun c =>
    if c =? 58 then st 358
    else if c <? 65 then
      if (48 <=? c) && (c <=? 57) then st 271
      else st 0
    else if c >? 70 then
      if (97 <=? c) && (c <=? 102) then st 271
      else st 0
    else st 271);
   (271, fun c =>
    if c =? 58 then st 275
    else if c <? 65 then
      if (48 <=? c) && (c <=? 57) then st 272
      else st 0
    else if c >? 70 then
      if (97 <=? c) && (c <=? 102) then st 272
      else st 0
    else st 272);
   (272, fun c =>
    if c =? 58 then st 275
    else if c <? 65 then
      if (48 <=? c) && (c <=? 57) then st 273
      else st 0
    else if c >? 70 then
      if (97 <=? c) && (c <=? 102) then st 273
      else st 0
    else st 273);
   (273, fun c =>
    if c =? 58 then st 275
    else if c <? 65 then
      if (48 <=? c) && (c <=? 57) then st 274
      else st 0
    else if c >? 70 then
      if (97 <=? c) && (c <=? 102) then st 274
      else st 0
    else st 274)].

(** uri.cc, lines 6811-6951 *)
Definition uri_cases_49 : list (Z * (Z -> label)) :=
  [(274, fun c =>
    if c =? 58 then st 275
    else st 0);
   (275, fun c =>
    if c =? 58 then st 353
    else if c <? 65 then
      if (48 <=? c) && (c <=? 57) then st 276
      else st 0
    else if c >? 70 then
      if (97 <=? c) && (c <=? 102) then st 276
      else st 0
    else st 276);
   (276, fun c =>
    if c =? 58 then st 280
    else if c <? 65 then
      if (48 <=? c) && (c <=? 57) then st 277
      else st 0
    else if c >? 70 then
      if (97 <=? c) && (c <=? 102) then st 277
      else st 0
    else st 277);
   (277, fun c =>
    if c =? 58 then st 280
    else if c <? 65 then
      if (48 <=? c) && (c <=? 57) then st 278
      else st 0
    else if c >? 70 then
      if (97 <=? c) && (c <=? 102) then st 278
      else st 0
    else st 278);
   (278, fun c =>
    if c =? 58 then st 280
    else if c <? 65 then
      if (48 <=? c) && (c <=? 57) then st 279
      else st 0
    else if c >? 70 then
      if (97 <=? c) && (c <=? 102) then st 279
      else st 0
    else st 279);
   (279, fun c =>
    if c =? 58 then st 280
    else st 0);
   (280, fun c =>
    if c =? 58 then st 348
    else if c <? 65 then
      if (48 <=? c) && (c <=? 57) then st 281
      else st 0
    else if c >? 70 then
      if (97 <=? c) && (c <=? 102) then st 281
      else st 0
    else st 281);
   (281, fun c =>
    if c =? 58 then st 285
    else if c <? 65 then
      if (48 <=? c) && (c <=? 57) then st 282
      else st 0
    else if c >? 70 then
      if (97 <=? c) && (c <=? 102) then st 282
      else st 0
    else st 282);
   (282, fun c =>
    if c =? 58 then st 285
    else if c <? 65 then
      if (48 <=? c) && (c <=? 57) then st 283
      else st 0
    else if c >? 70 then
      if (97 <=? c) && (c <=? 102) then st 283
      else st 0
    else st 283);
   (283, fun c =>
    if c =? 58 then st 285
    else if c <? 65 then
      if (48 <=? c) && (c <=? 57) then st 284
      else st 0
    else if c >? 70 then
      if (97 <=? c) && (c <=? 102) then st 284
      else st 0
    else st 284);
   (284, fun c =>
    if c =? 58 then st 285
    else st 0)].

(** uri.cc, lines 6952-7093 *)
Definition uri_cases_50 : list (Z * (Z -> label)) :=
  [(285, fun c =>
    if c =? 58 then st 335
    else if c <? 65 then
      if (48 <=? c) && (c <=? 57) then st 286
      else st 0
    else if c >? 70 then
      if (97 <=? c) && (c <=? 102) then st 286
      else st 0
    else st 286);
   (286, fun c =>
    if c =? 58 then st 290
    else if c <? 65 then
      if (48 <=? c) && (c <=? 57) then st 287
      else st 0
    else if c >? 70 then
      if (97 <=? c) && (c <=? 102) then st 287
      else st 0
    else st 287);
   (287, fun c =>
    if c =? 58 then st 290
    else if c <? 65 then
      if (48 <=? c) && (c <=? 57) then st 288
      else st 0
    else if c >? 70 then
      if (97 <=? c) && (c <=? 102) then st 288
      else st 0
    else st 288);
   (288, fun c =>
    if c =? 58 then st 290
    else if c <? 65 then
      if (48 <=? c) && (c <=? 57) then st 289
      else st 0
    else if c >? 70 then
      if (97 <=? c) && (c <=? 102) then st 289
      else st 0
    else st 289);
   (289, fun c =>
    if c =? 58 then st 290
    else st 0);
   (290, fun c =>
    switch c
      [(2, st 291); (48, st 318); (49, st 326); (50, st 329); (58, st 333)]
      (if c <? 65 then
          if (51 <=? c) && (c <=? 57) then st 332
          else st 0
        else if c >? 70 then
          if (97 <=? c) && (c <=? 102) then st 334
          else st 0
        else st 334));
   (291, fun c =>
    if (48 <=? c) && (c <=? 52) then st 292
    else st 0);
   (292, fun c =>
    if (48 <=? c) && (c <=? 57) then st 293
    else st 0);
   (293, fun c =>
    if c =? 46 then st 294
    else st 0);
   (294, fun c =>
    switch c
      [(2, st 295); (48, st 297); (49, st 314); (50, st 316)]
      (if (51 <=? c) && (c <=? 57) then st 315
        else st 0));
   (295, fun c =>
    if (48 <=? c) && (c <=? 52) then st 296
    else st 0);
   (296, fun c =>
    if (48 <=? c) && (c <=? 57) then st 297
    else st 0);
   (297, fun c =>
    if c =? 46 then st 298
    else st 0)].

(** uri.cc, lines 7094-7237 *)
Definition uri_cases_51 : list (Z * (Z -> label)) :=
  [(298, fun c =>
    switch c
      [(2, st 299); (48, st 301); (49, st 310); (50, st 312)]
      (if (51 <=? c) && (c <=? 57) then st 311
        else st 0));
   (299, fun c =>
    if (48 <=? c) && (c <=? 52) then st 300
    else st 0);
   (300, fun c =>
    if (48 <=? c) && (c <=? 57) then st 301
    else st 0);
   (301, fun c =>
    if c =? 46 then st 302
    else st 0);
   (302, fun c =>
    switch c
      [(2, st 303); (48, st 305); (49, st 306); (50, st 308)]
      (if (51 <=? c) && (c <=? 57) then st 307
        else st 0));
   (303, fun c =>
    if (48 <=? c) && (c <=? 52) then st 304
    else st 0);
   (304, fun c =>
    if (48 <=? c) && (c <=? 57) then st 305
    else st 0);
   (305, fun c =>
    if c =? 93 then st 512
    else st 0);
   (306, fun c =>
    if c =? 93 then st 512
    else if (48 <=? c) && (c <=? 57) then st 307
    else st 0);
   (307, fun c =>
    if c =? 93 then st 512
    else if (48 <=? c) && (c <=? 57) then st 305
    else st 0);
   (308, fun c =>
    switch c
      [(53, st 309); (93, st 512)]
      (if (48 <=? c) && (c <=? 57) then st 305
        else st 0));
   (309, fun c =>
    if c =? 93 then st 512
    else if (48 <=? c) && (c <=? 53) then st 305
    else st 0);
   (310, fun c =>
    if c =? 46 then st 302
    else if (48 <=? c) && (c <=? 57) then st 311
    else st 0);
   (311, fun c =>
    if c =? 46 then st 302
    else if (48 <=? c) && (c <=? 57) then st 301
    else st 0);
   (312, fun c =>
    switch c
      [(46, st 302); (53, st 313)]
      (if (48 <=? c) && (c <=? 57) then st 301
        else st 0));
   (313, fun c =>
    if c =? 46 then st 302
    else if (48 <=? c) && (c <=? 53) then st 301
    else st 0)].

(** uri.cc, lines 7238-7374 *)
Definition uri_cases_52 : list (Z * (Z -> label)) :=
  [(314, fun c =>
    if c =? 46 then st 298
    else if (48 <=? c) && (c <=? 57) then st 315
    else st 0);
   (315, fun c =>
    if c =? 46 then st 298
    else if (48 <=? c) && (c <=? 57) then st 297
    else st 0);
   (316, fun c =>
    switch c
      [(46, st 298); (53, st 317)]
      (if (48 <=? c) && (c <=? 57) then st 297
        else st 0));
   (317, fun c =>
    if c =? 46 then st 298
    else if (48 <=? c) && (c <=? 53) then st 297
    else st 0);
   (318, fun c =>
    switch c
      [(46, st 294); (58, st 322)]
      (if c <? 65 then
          if (48 <=? c) && (c <=? 57) then st 319
          else st 0
        else if c >? 70 then
          if (97 <=? c) && (c <=? 102) then st 319
          else st 0
        else st 319));
   (319, fun c =>
    if c =? 58 then st 322
    else if c <? 65 then
      if (48 <=? c) && (c <=? 57) then st 320
      else st 0
    else if c >? 70 then
      if (97 <=? c) && (c <=? 102) then st 320
      else st 0
    else st 320);
   (320, fun c =>
    if c =? 58 then st 322
    else if c <? 65 then
      if (48 <=? c) && (c <=? 57) then st 321
      else st 0
    else if c >? 70 then
      if (97 <=? c) && (c <=? 102) then st 321
      else st 0
    else st 321);
   (321, fun c =>
    if c =? 58 then st 322
    else st 0);
   (322, fun c =>
    if c =? 58 then st 305
    else if c <? 65 then
      if (48 <=? c) && (c <=? 57) then st 323
      else st 0
    else if c >? 70 then
      if (97 <=? c) && (c <=? 102) then st 323
      else st 0
    else st 323);
   (323, fun c =>
    if c =? 93 then st 512
    else if c <? 65 then
      if (48 <=? c) && (c <=? 57) then st 324
      else st 0
    else if c >? 70 then
      if (97 <=? c) && (c <=? 102) then st 324
      else st 0
    else st 324);
   (324, fun c =>
    if c =? 93 then st 512
    else if c <? 65 then
      if (48 <=? c) && (c <=? 57) then st 325
      else st 0
    else if c >? 70 then
      if (97 <=? c) && (c <=? 102) then st 325
      else st 0
    else st 325)].

(** uri.cc, lines 7375-7512 *)
Definition uri_cases_53 : list (Z * (Z -> label)) :=
  [(325, fun c =>
    if c =? 93 then st 512
    else if c <? 65 then
      if (48 <=? c) && (c <=? 57) then st 305
      else st 0
    else if c >? 70 then
      if (97 <=? c) && (c <=? 102) then st 305
      else st 0
    else st 305);
   (326, fun c =>
    switch c
      [(46, st 294); (58, st 322)]
      (if c <? 65 then
          if (48 <=? c) && (c <=? 57) then st 327
          else st 0
        else if c >? 70 then
          if (97 <=? c) && (c <=? 102) then st 319
          else st 0
        else st 319));
   (327, fun c =>
    switch c
      [(46, st 294); (58, st 322)]
      (if c <? 65 then
          if (48 <=? c) && (c <=? 57) then st 328
          else st 0
        else if c >? 70 then
          if (97 <=? c) && (c <=? 102) then st 320
          else st 0
        else st 320));
   (328, fun c =>
    switch c
      [(46, st 294); (58, st 322)]
      (if c <? 65 then
          if (48 <=? c) && (c <=? 57) then st 321
          else st 0
        else if c >? 70 then
          if (97 <=? c) && (c <=? 102) then st 321
          else st 0
        else st 321));
   (329, fun c =>
    switch c
      [(46, st 294); (53, st 331); (58, st 322)]
      (if c <? 65 then
          if (48 <=? c) && (c <=? 57) then st 330
          else st 0
        else if c >? 70 then
          if (97 <=? c) && (c <=? 102) then st 319
          else st 0
        else st 319));
   (330, fun c =>
    switch c
      [(46, st 294); (58, st 322)]
      (if c <? 65 then
          if (48 <=? c) && (c <=? 57) then st 320
          else st 0
        else if c >? 70 then
          if (97 <=? c) && (c <=? 102) then st 320
          else st 0
        else st 320));
   (331, fun c =>
    switch c
      [(46, st 294); (58, st 322)]
      (if c <? 54 then
          if (48 <=? c) && (c <=? 53) then st 328
          else st 0
        else if c >? 57 then
          if c >? 70 then
            if (97 <=? c) && (c <=? 102) then st 320
            else st 0
          else if c >=? 65 then st 320
          else st 0
        else st 320));
   (332, fun c =>
    switch c
      [(46, st 294); (58, st 322)]
      (if c <? 65 then
          if (48 <=? c) && (c <=? 57) then st 330
          else st 0
        else if c >? 70 then
          if (97 <=? c) && (c <=? 102) then st 319
          else st 0
        else st 319))].

(** uri.cc, lines 7513-7647 *)
Definition uri_cases_54 : list (Z * (Z -> label)) :=
  [(333, fun c =>
    if c <? 65 then
      if (48 <=? c) && (c <=? 57) then st 323
      else st 0
    else if c >? 70 then
      if (97 <=? c) && (c <=? 102) then st 323
      else st 0
    else st 323);
   (334, fun c =>
    if c =? 58 then st 322
    else if c <? 65 then
      if (48 <=? c) && (c <=? 57) then st 319
      else st 0
    else if c >? 70 then
      if (97 <=? c) && (c <=? 102) then st 319
      else st 0
    else st 319);
   (335, fun c =>
    switch c
      [(2, st 291); (48, st 336); (49, st 340); (50, st 343)]
      (if c <? 65 then
          if (51 <=? c) && (c <=? 57) then st 346
          else st 0
        else if c >? 70 then
          if (97 <=? c) && (c <=? 102) then st 347
          else st 0
        else st 347));
   (336, fun c =>
    switch c
      [(46, st 294); (58, st 333)]
      (if c <? 65 then
          if (48 <=? c) && (c <=? 57) then st 337
          else st 0
        else if c >? 70 then
          if (97 <=? c) && (c <=? 102) then st 337
          else st 0
        else st 337));
   (337, fun c =>
    if c =? 58 then st 333
    else if c <? 65 then
      if (48 <=? c) && (c <=? 57) then st 338
      else st 0
    else if c >? 70 then
      if (97 <=? c) && (c <=? 102) then st 338
      else st 0
    else st 338);
   (338, fun c =>
    if c =? 58 then st 333
    else if c <? 65 then
      if (48 <=? c) && (c <=? 57) then st 339
      else st 0
    else if c >? 70 then
      if (97 <=? c) && (c <=? 102) then st 339
      else st 0
    else st 339);
   (339, fun c =>
    if c =? 58 then st 333
    else st 0);
   (340, fun c =>
    switch c
      [(46, st 294); (58, st 333)]
      (if c <? 65 then
          if (48 <=? c) && (c <=? 57) then st 341
          else st 0
        else if c >? 70 then
          if (97 <=? c) && (c <=? 102) then st 337
          else st 0
        else st 337));
   (341, fun c =>
    switch c
      [(46, st 294); (58, st 333)]
      (if c <? 65 then
          if (48 <=? c) && (c <=? 57) then st 342
          else st 0
        else if c >? 70 then
          if (97 <=? c) && (c <=? 102) then st 338
          else st 0
        else st 338))].

(** uri.cc, lines 7648-7794 *)
Definition uri_cases_55 : list (Z * (Z -> label)) :=
  [(342, fun c =>
    switch c
      [(46, st 294); (58, st 333)]
      (if c <? 65 then
          if (48 <=? c) && (c <=? 57) then st 339
          else st 0
        else if c >? 70 then
          if (97 <=? c) && (c <=? 102) then st 339
          else st 0
        else st 339));
   (343, fun c =>
    switch c
      [(46, st 294); (53, st 345); (58, st 333)]
      (if c <? 65 then
          if (48 <=? c) && (c <=? 57) then st 344
          else st 0
        else if c >? 70 then
          if (97 <=? c) && (c <=? 102) then st 337
          else st 0
        else st 337));
   (344, fun c =>
    switch c
      [(46, st 294); (58, st 333)]
      (if c <? 65 then
          if (48 <=? c) && (c <=? 57) then st 338
          else st 0
        else if c >? 70 then
          if (97 <=? c) && (c <=? 102) then st 338
          else st 0
        else st 338));
   (345, fun c =>
    switch c
      [(46, st 294); (58, st 333)]
      (if c <? 54 then
          if (48 <=? c) && (c <=? 53) then st 342
          else st 0
        else if c >? 57 then
          if c >? 70 then
            if (97 <=? c) && (c <=? 102) then st 338
            else st 0
          else if c >=? 65 then st 338
          else st 0
        else st 338));
   (346, fun c =>
    switch c
      [(46, st 294); (58, st 333)]
      (if c <? 65 then
          if (48 <=? c) && (c <=? 57) then st 344
          else st 0
        else if c >? 70 then
          if (97 <=? c) && (c <=? 102) then st 337
          else st 0
        else st 337));
   (347, fun c =>
    if c =? 58 then st 333
    else if c <? 65 then
      if (48 <=? c) && (c <=? 57) then st 337
      else st 0
    else if c >? 70 then
      if (97 <=? c) && (c <=? 102) then st 337
      else st 0
    else st 337);
   (348, fun c =>
    if c <? 65 then
      if (48 <=? c) && (c <=? 57) then st 349
      else st 0
    else if c >? 70 then
      if (97 <=? c) && (c <=? 102) then st 349
      else st 0
    else st 349);
   (349, fun c =>
    if c =? 58 then st 335
    else if c <? 65 then
      if (48 <=? c) && (c <=? 57) then st 350
      else st 0
    else if c >? 70 then
      if (97 <=? c) && (c <=? 102) then st 350
      else st 0
    else st 350);
   (350, fun c =>
    if c =? 58 then st 335
    else if c <? 65 then
      if (48 <=? c) && (c <=? 57) then st 351
      else st 0
    else if c >? 70 then
      if (97 <=? c) && (c <=? 102) then st 351
      else st 0
    else st 351)].

(** uri.cc, lines 7795-7939 *)
Definition uri_cases_56 : list (Z * (Z -> label)) :=
  [(351, fun c =>
    if c =? 58 then st 335
    else if c <? 65 then
      if (48 <=? c) && (c <=? 57) then st 352
      else st 0
    else if c >? 70 then
      if (97 <=? c) && (c <=? 102) then st 352
      else st 0
    else st 352);
   (352, fun c =>
    if c =? 58 then st 335
    else st 0);
   (353, fun c =>
    if c <? 65 then
      if (48 <=? c) && (c <=? 57) then st 354
      else st 0
    else if c >? 70 then
      if (97 <=? c) && (c <=? 102) then st 354
      else st 0
    else st 354);
   (354, fun c =>
    if c =? 58 then st 348
    else if c <? 65 then
      if (48 <=? c) && (c <=? 57) then st 355
      else st 0
    else if c >? 70 then
      if (97 <=? c) && (c <=? 102) then st 355
      else st 0
    else st 355);
   (355, fun c =>
    if c =? 58 then st 348
    else if c <? 65 then
      if (48 <=? c) && (c <=? 57) then st 356
      else st 0
    else if c >? 70 then
      if (97 <=? c) && (c <=? 102) then st 356
      else st 0
    else st 356);
   (356, fun c =>
    if c =? 58 then st 348
    else if c <? 65 then
      if (48 <=? c) && (c <=? 57) then st 357
      else st 0
    else if c >? 70 then
      if (97 <=? c) && (c <=? 102) then st 357
      else st 0
    else st 357);
   (357, fun c =>
    if c =? 58 then st 348
    else st 0);
   (358, fun c =>
    if c <? 65 then
      if (48 <=? c) && (c <=? 57) then st 359
      else st 0
    else if c >? 70 then
      if (97 <=? c) && (c <=? 102) then st 359
      else st 0
    else st 359);
   (359, fun c =>
    if c =? 58 then st 353
    else if c <? 65 then
      if (48 <=? c) && (c <=? 57) then st 360
      else st 0
    else if c >? 70 then
      if (97 <=? c) && (c <=? 102) then st 360
      else st 0
    else st 360);
   (360, fun c =>
    if c =? 58 then st 353
    else if c <? 65 then
      if (48 <=? c) && (c <=? 57) then st 361
      else st 0
    else if c >? 70 then
      if (97 <=? c) && (c <=? 102) then st 361
      else st 0
    else st 361);
   (361, fun c =>
    if c =? 58 then st 353
    else if c <? 65 then
      if (48 <=? c) && (c <=? 57) then st 362
      else st 0
    else if c >? 70 then
      if (97 <=? c) && (c <=? 102) then st 362
      else st 0
    else st 362)].

(** uri.cc, lines 7940-8073 *)
Definition uri_cases_57 : list (Z * (Z -> label)) :=
  [(362, fun c =>
    if c =? 58 then st 353
    else st 0);
   (363, fun c =>
    if c <? 65 then
      if (48 <=? c) && (c <=? 57) then st 364
      else st 0
    else if c >? 70 then
      if (97 <=? c) && (c <=? 102) then st 364
      else st 0
    else st 364);
   (364, fun c =>
    if c =? 58 then st 358
    else if c <? 65 then
      if (48 <=? c) && (c <=? 57) then st 365
      else st 0
    else if c >? 70 then
      if (97 <=? c) && (c <=? 102) then st 365
      else st 0
    else st 365);
   (365, fun c =>
    if c =? 58 then st 358
    else if c <? 65 then
      if (48 <=? c) && (c <=? 57) then st 366
      else st 0
    else if c >? 70 then
      if (97 <=? c) && (c <=? 102) then st 366
      else st 0
    else st 366);
   (366, fun c =>
    if c =? 58 then st 358
    else if c <? 65 then
      if (48 <=? c) && (c <=? 57) then st 367
      else st 0
    else if c >? 70 then
      if (97 <=? c) && (c <=? 102) then st 367
      else st 0
    else st 367);
   (367, fun c =>
    if c =? 58 then st 358
    else st 0);
   (368, fun c =>
    if c =? 58 then st 369
    else st 0);
   (369, fun c =>
    switch c
      [(2, st 291); (48, st 370); (49, st 439); (50, st 442); (93, st 512)]
      (if c <? 65 then
          if (51 <=? c) && (c <=? 57) then st 445
          else st 0
        else if c >? 70 then
          if (97 <=? c) && (c <=? 102) then st 446
          else st 0
        else st 446));
   (370, fun c =>
    switch c
      [(46, st 294); (58, st 374); (93, st 512)]
      (if c <? 65 then
          if (48 <=? c) && (c <=? 57) then st 371
          else st 0
        else if c >? 70 then
          if (97 <=? c) && (c <=? 102) then st 371
          else st 0
        else st 371));
   (371, fun c =>
    switch c
      [(58, st 374); (93, st 512)]
      (if c <? 65 then
          if (48 <=? c) && (c <=? 57) then st 372
          else st 0
        else if c >? 70 then
          if (97 <=? c) && (c <=? 102) then st 372
          else st 0
        else st 372))].

(** uri.cc, lines 8074-8216 *)
Definition uri_cases_58 : list (Z * (Z -> label)) :=
  [(372, fun c =>
    switch c
      [(58, st 374); (93, st 512)]
      (if c <? 65 then
          if (48 <=? c) && (c <=? 57) then st 373
          else st 0
        else if c >? 70 then
          if (97 <=? c) && (c <=? 102) then st 373
          else st 0
        else st 373));
   (373, fun c =>
    switch c
      [(58, st 374); (93, st 512)]
      (st 0));
   (374, fun c =>
    switch c
      [(2, st 291); (48, st 375); (49, st 431); (50, st 434)]
      (if c <? 65 then
          if (51 <=? c) && (c <=? 57) then st 437
          else st 0
        else if c >? 70 then
          if (97 <=? c) && (c <=? 102) then st 438
          else st 0
        else st 438));
   (375, fun c =>
    switch c
      [(46, st 294); (58, st 379); (93, st 512)]
      (if c <? 65 then
          if (48 <=? c) && (c <=? 57) then st 376
          else st 0
        else if c >? 70 then
          if (97 <=? c) && (c <=? 102) then st 376
          else st 0
        else st 376));
   (376, fun c =>
    switch c
      [(58, st 379); (93, st 512)]
      (if c <? 65 then
          if (48 <=? c) && (c <=? 57) then st 377
          else st 0
        else if c >? 70 then
          if (97 <=? c) && (c <=? 102) then st 377
          else st 0
        else st 377));
   (377, fun c =>
    switch c
      [(58, st 379); (93, st 512)]
      (if c <? 65 then
          if (48 <=? c) && (c <=? 57) then st 378
          else st 0
        else if c >? 70 then
          if (97 <=? c) && (c <=? 102) then st 378
          else st 0
        else st 378));
   (378, fun c =>
    switch c
      [(58, st 379); (93, st 512)]
      (st 0));
   (379, fun c =>
    switch c
      [(2, st 291); (48, st 380); (49, st 423); (50, st 426)]
      (if c <? 65 then
          if (51 <=? c) && (c <=? 57) then st 429
          else st 0
        else if c >? 70 then
          if (97 <=? c) && (c <=? 102) then st 430
          else st 0
        else st 430));
   (380, fun c =>
    switch c
      [(46, st 294); (58, st 384); (93, st 512)]
      (if c <? 65 then
          if (48 <=? c) && (c <=? 57) then st 381
          else st 0
        else if c >? 70 then
          if (97 <=? c) && (c <=? 102) then st 381
          else st 0
        else st 381))].

(** uri.cc, lines 8217-8358 *)
Definition uri_cases_59 : list (Z * (Z -> label)) :=
  [(381, fun c =>
    switch c
      [(58, st 384); (93, st 512)]
      (if c <? 65 then
          if (48 <=? c) && (c <=? 57) then st 382
          else st 0
        else if c >? 70 then
          if (97 <=? c) && (c <=? 102) then st 382
          else st 0
        else st 382));
   (382, fun c =>
    switch c
      [(58, st 384); (93, st 512)]
      (if c <? 65 then
          if (48 <=? c) && (c <=? 57) then st 383
          else st 0
        else if c >? 70 then
          if (97 <=? c) && (c <=? 102) then st 383
          else st 0
        else st 383));
   (383, fun c =>
    switch c
      [(58, st 384); (93, st 512)]
      (st 0));
   (384, fun c =>
    switch c
      [(2, st 291); (48, st 385); (49, st 415); (50, st 418)]
      (if c <? 65 then
          if (51 <=? c) && (c <=? 57) then st 421
          else st 0
        else if c >? 70 then
          if (97 <=? c) && (c <=? 102) then st 422
          else st 0
        else st 422));
   (385, fun c =>
    switch c
      [(46, st 294); (58, st 389); (93, st 512)]
      (if c <? 65 then
          if (48 <=? c) && (c <=? 57) then st 386
          else st 0
        else if c >? 70 then
          if (97 <=? c) && (c <=? 102) then st 386
          else st 0
        else st 386));
   (386, fun c =>
    switch c
      [(58, st 389); (93, st 512)]
      (if c <? 65 then
          if (48 <=? c) && (c <=? 57) then st 387
          else st 0
        else if c >? 70 then
          if (97 <=? c) && (c <=? 102) then st 387
          else st 0
        else st 387));
   (387, fun c =>
    switch c
      [(58, st 389); (93, st 512)]
      (if c <? 65 then
          if (48 <=? c) && (c <=? 57) then st 388
          else st 0
        else if c >? 70 then
          if (97 <=? c) && (c <=? 102) then st 388
          else st 0
        else st 388));
   (388, fun c =>
    switch c
      [(58, st 389); (93, st 512)]
      (st 0));
   (389, fun c =>
    switch c
      [(2, st 291); (48, st 390); (49, st 407); (50, st 410)]
      (if c <? 65 then
          if (51 <=? c) && (c <=? 57) then st 413
          else st 0
        else if c >? 70 then
          if (97 <=? c) && (c <=? 102) then st 414
          else st 0
        else st 414))].

(** uri.cc, lines 8359-8499 *)
Definition uri_cases_60 : list (Z * (Z -> label)) :=
  [(390, fun c =>
    switch c
      [(46, st 294); (58, st 394); (93, st 512)]
      (if c <? 65 then
          if (48 <=? c) && (c <=? 57) then st 391
          else st 0
        else if c >? 70 then
          if (97 <=? c) && (c <=? 102) then st 391
          else st 0
        else st 391));
   (391, fun c =>
    switch c
      [(58, st 394); (93, st 512)]
      (if c <? 65 then
          if (48 <=? c) && (c <=? 57) then st 392
          else st 0
        else if c >? 70 then
          if (97 <=? c) && (c <=? 102) then st 392
          else st 0
        else st 392));
   (392, fun c =>
    switch c
      [(58, st 394); (93, st 512)]
      (if c <? 65 then
          if (48 <=? c) && (c <=? 57) then st 393
          else st 0
        else if c >? 70 then
          if (97 <=? c) && (c <=? 102) then st 393
          else st 0
        else st 393));
   (393, fun c =>
    switch c
      [(58, st 394); (93, st 512)]
      (st 0));
   (394, fun c =>
    switch c
      [(2, st 291); (48, st 395); (49, st 399); (50, st 402)]
      (if c <? 65 then
          if (51 <=? c) && (c <=? 57) then st 405
          else st 0
        else if c >? 70 then
          if (97 <=? c) && (c <=? 102) then st 406
          else st 0
        else st 406));
   (395, fun c =>
    switch c
      [(46, st 294); (58, st 333); (93, st 512)]
      (if c <? 65 then
          if (48 <=? c) && (c <=? 57) then st 396
          else st 0
        else if c >? 70 then
          if (97 <=? c) && (c <=? 102) then st 396
          else st 0
        else st 396));
   (396, fun c =>
    switch c
      [(58, st 333); (93, st 512)]
      (if c <? 65 then
          if (48 <=? c) && (c <=? 57) then st 397
          else st 0
        else if c >? 70 then
          if (97 <=? c) && (c <=? 102) then st 397
          else st 0
        else st 397));
   (397, fun c =>
    switch c
      [(58, st 333); (93, st 512)]
      (if c <? 65 then
          if (48 <=? c) && (c <=? 57) then st 398
          else st 0
        else if c >? 70 then
          if (97 <=? c) && (c <=? 102) then st 398
          else st 0
        else st 398));
   (398, fun c =>
    switch c
      [(58, st 333); (93, st 512)]
      (st 0))].

(** uri.cc, lines 8500-8646 *)
Definition uri_cases_61 : list (Z * (Z -> label)) :=
  [(399, fun c =>
    switch c
      [(46, st 294); (58, st 333); (93, st 512)]
      (if c <? 65 then
          if (48 <=? c) && (c <=? 57) then st 400
          else st 0
        else if c >? 70 then
          if (97 <=? c) && (c <=? 102) then st 396
          else st 0
        else st 396));
   (400, fun c =>
    switch c
      [(46, st 294); (58, st 333); (93, st 512)]
      (if c <? 65 then
          if (48 <=? c) && (c <=? 57) then st 401
          else st 0
        else if c >? 70 then
          if (97 <=? c) && (c <=? 102) then st 397
          else st 0
        else st 397));
   (401, fun c =>
    switch c
      [(46, st 294); (58, st 333); (93, st 512)]
      (if c <? 65 then
          if (48 <=? c) && (c <=? 57) then st 398
          else st 0
        else if c >? 70 then
          if (97 <=? c) && (c <=? 102) then st 398
          else st 0
        else st 398));
   (402, fun c =>
    switch c
      [(46, st 294); (53, st 404); (58, st 333); (93, st 512)]
      (if c <? 65 then
          if (48 <=? c) && (c <=? 57) then st 403
          else st 0
        else if c >? 70 then
          if (97 <=? c) && (c <=? 102) then st 396
          else st 0
        else st 396));
   (403, fun c =>
    switch c
      [(46, st 294); (58, st 333); (93, st 512)]
      (if c <? 65 then
          if (48 <=? c) && (c <=? 57) then st 397
          else st 0
        else if c >? 70 then
          if (97 <=? c) && (c <=? 102) then st 397
          else st 0
        else st 397));
   (404, fun c =>
    switch c
      [(46, st 294); (58, st 333); (93, st 512)]
      (if c <? 54 then
          if (48 <=? c) && (c <=? 53) then st 401
          else st 0
        else if c >? 57 then
          if c >? 70 then
            if (97 <=? c) && (c <=? 102) then st 397
            else st 0
          else if c >=? 65 then st 397
          else st 0
        else st 397));
   (405, fun c =>
    switch c
      [(46, st 294); (58, st 333); (93, st 512)]
      (if c <? 65 then
          if (48 <=? c) && (c <=? 57) then st 403
          else st 0
        else if c >? 70 then
          if (97 <=? c) && (c <=? 102) then st 396
          else st 0
        else st 396));
   (406, fun c =>
    switch c
      [(58, st 333); (93, st 512)]
      (if c <? 65 then
          if (48 <=? c) && (c <=? 57) then st 396
          else st 0
        else if c >? 70 then
          if (97 <=? c) && (c <=? 102) then st 396
          else st 0
        else st 396))].

(** uri.cc, lines 8647-8793 *)
Definition uri_cases_62 : list (Z * (Z -> label)) :=
  [(407, fun c =>
    switch c
      [(46, st 294); (58, st 394); (93, st 512)]
      (if c <? 65 then
          if (48 <=? c) && (c <=? 57) then st 408
          else st 0
        else if c >? 70 then
          if (97 <=? c) && (c <=? 102) then st 391
          else st 0
        else st 391));
   (408, fun c =>
    switch c
      [(46, st 294); (58, st 394); (93, st 512)]
      (if c <? 65 then
          if (48 <=? c) && (c <=? 57) then st 409
          else st 0
        else if c >? 70 then
          if (97 <=? c) && (c <=? 102) then st 392
          else st 0
        else st 392));
   (409, fun c =>
    switch c
      [(46, st 294); (58, st 394); (93, st 512)]
      (if c <? 65 then
          if (48 <=? c) && (c <=? 57) then st 393
          else st 0
        else if c >? 70 then
          if (97 <=? c) && (c <=? 102) then st 393
          else st 0
        else st 393));
   (410, fun c =>
    switch c
      [(46, st 294); (53, st 412); (58, st 394); (93, st 512)]
      (if c <? 65 then
          if (48 <=? c) && (c <=? 57) then st 411
          else st 0
        else if c >? 70 then
          if (97 <=? c) && (c <=? 102) then st 391
          else st 0
        else st 391));
   (411, fun c =>
    switch c
      [(46, st 294); (58, st 394); (93, st 512)]
      (if c <? 65 then
          if (48 <=? c) && (c <=? 57) then st 392
          else st 0
        else if c >? 70 then
          if (97 <=? c) && (c <=? 102) then st 392
          else st 0
        else st 392));
   (412, fun c =>
    switch c
      [(46, st 294); (58, st 394); (93, st 512)]
      (if c <? 54 then
          if (48 <=? c) && (c <=? 53) then st 409
          else st 0
        else if c >? 57 then
          if c >? 70 then
            if (97 <=? c) && (c <=? 102) then st 392
            else st 0
          else if c >=? 65 then st 392
          else st 0
        else st 392));
   (413, fun c =>
    switch c
      [(46, st 294); (58, st 394); (93, st 512)]
      (if c <? 65 then
          if (48 <=? c) && (c <=? 57) then st 411
          else st 0
        else if c >? 70 then
          if (97 <=? c) && (c <=? 102) then st 391
          else st 0
        else st 391));
   (414, fun c =>
    switch c
      [(58, st 394); (93, st 512)]
      (if c <? 65 then
          if (48 <=? c) && (c <=? 57) then st 391
          else st 0
        else if c >? 70 then
          if (97 <=? c) && (c <=? 102) then st 391
          else st 0
        else st 391))].

(** uri.cc, lines 8794-8940 *)
Definition uri_cases_63 : list (Z * (Z -> label)) :=
  [(415, fun c =>
    switch c
      [(46, st 294); (58, st 389); (93, st 512)]
      (if c <? 65 then
          if (48 <=? c) && (c <=? 57) then st 416
          else st 0
        else if c >? 70 then
          if (97 <=? c) && (c <=? 102) then st 386
          else st 0
        else st 386));
   (416, fun c =>
    switch c
      [(46, st 294); (58, st 389); (93, st 512)]
      (if c <? 65 then
          if (48 <=? c) && (c <=? 57) then st 417
          else st 0
        else if c >? 70 then
          if (97 <=? c) && (c <=? 102) then st 387
          else st 0
        else st 387));
   (417, fun c =>
    switch c
      [(46, st 294); (58, st 389); (93, st 512)]
      (if c <? 65 then
          if (48 <=? c) && (c <=? 57) then st 388
          else st 0
        else if c >? 70 then
          if (97 <=? c) && (c <=? 102) then st 388
          else st 0
        else st 388));
   (418, fun c =>
    switch c
      [(46, st 294); (53, st 420); (58, st 389); (93, st 512)]
      (if c <? 65 then
          if (48 <=? c) && (c <=? 57) then st 419
          else st 0
        else if c >? 70 then
          if (97 <=? c) && (c <=? 102) then st 386
          else st 0
        else st 386));
   (419, fun c =>
    switch c
      [(46, st 294); (58, st 389); (93, st 512)]
      (if c <? 65 then
          if (48 <=? c) && (c <=? 57) then st 387
          else st 0
        else if c >? 70 then
          if (97 <=? c) && (c <=? 102) then st 387
          else st 0
        else st 387));
   (420, fun c =>
    switch c
      [(46, st 294); (58, st 389); (93, st 512)]
      (if c <? 54 then
          if (48 <=? c) && (c <=? 53) then st 417
          else st 0
        else if c >? 57 then
          if c >? 70 then
            if (97 <=? c) && (c <=? 102) then st 387
            else st 0
          else if c >=? 65 then st 387
          else st 0
        else st 387));
   (421, fun c =>
    switch c
      [(46, st 294); (58, st 389); (93, st 512)]
      (if c <? 65 then
          if (48 <=? c) && (c <=? 57) then st 419
          else st 0
        else if c >? 70 then
          if (97 <=? c) && (c <=? 102) then st 386
          else st 0
        else st 386));
   (422, fun c =>
    switch c
      [(58, st 389); (93, st 512)]
      (if c <? 65 then
          if (48 <=? c) && (c <=? 57) then st 386
          else st 0
        else if c >? 70 then
          if (97 <=? c) && (c <=? 102) then st 386
          else st 0
        else st 386))].

(** uri.cc, lines 8941-9087 *)
Definition uri_cases_64 : list (Z * (Z -> label)) :=
  [(423, fun c =>
    switch c
      [(46, st 294); (58, st 384); (93, st 512)]
      (if c <? 65 then
          if (48 <=? c) && (c <=? 57) then st 424
          else st 0
        else if c >? 70 then
          if (97 <=? c) && (c <=? 102) then st 381
          else st 0
        else st 381));
   (424, fun c =>
    switch c
      [(46, st 294); (58, st 384); (93, st 512)]
      (if c <? 65 then
          if (48 <=? c) && (c <=? 57) then st 425
          else st 0
        else if c >? 70 then
          if (97 <=? c) && (c <=? 102) then st 382
          else st 0
        else st 382));
   (425, fun c =>
    switch c
      [(46, st 294); (58, st 384); (93, st 512)]
      (if c <? 65 then
          if (48 <=? c) && (c <=? 57) then st 383
          else st 0
        else if c >? 70 then
          if (97 <=? c) && (c <=? 102) then st 383
          else st 0
        else st 383));
   (426, fun c =>
    switch c
      [(46, st 294); (53, st 428); (58, st 384); (93, st 512)]
      (if c <? 65 then
          if (48 <=? c) && (c <=? 57) then st 427
          else st 0
        else if c >? 70 then
          if (97 <=? c) && (c <=? 102) then st 381
          else st 0
        else st 381));
   (427, fun c =>
    switch c
      [(46, st 294); (58, st 384); (93, st 512)]
      (if c <? 65 then
          if (48 <=? c) && (c <=? 57) then st 382
          else st 0
        else if c >? 70 then
          if (97 <=? c) && (c <=? 102) then st 382
          else st 0
        else st 382));
   (428, fun c =>
    switch c
      [(46, st 294); (58, st 384); (93, st 512)]
      (if c <? 54 then
          if (48 <=? c) && (c <=? 53) then st 425
          else st 0
        else if c >? 57 then
          if c >? 70 then
            if (97 <=? c) && (c <=? 102) then st 382
            else st 0
          else if c >=? 65 then st 382
          else st 0
        else st 382));
   (429, fun c =>
    switch c
      [(46, st 294); (58, st 384); (93, st 512)]
      (if c <? 65 then
          if (48 <=? c) && (c <=? 57) then st 427
          else st 0
        else if c >? 70 then
          if (97 <=? c) && (c <=? 102) then st 381
          else st 0
        else st 381));
   (430, fun c =>
    switch c
      [(58, st 384); (93, st 512)]
      (if c <? 65 then
          if (48 <=? c) && (c <=? 57) then st 381
          else st 0
        else if c >? 70 then
          if (97 <=? c) && (c <=? 102) then st 381
          else st 0
        else st 381))].

(** uri.cc, lines 9088-9234 *)
Definition uri_cases_65 : list (Z * (Z -> label)) :=
  [(431, fun c =>
    switch c
      [(46, st 294); (58, st 379); (93, st 512)]
      (if c <? 65 then
          if (48 <=? c) && (c <=? 57) then st 432
          else st 0
        else if c >? 70 then
          if (97 <=? c) && (c <=? 102) then st 376
          else st 0
        else st 376));
   (432, fun c =>
    switch c
      [(46, st 294); (58, st 379); (93, st 512)]
      (if c <? 65 then
          if (48 <=? c) && (c <=? 57) then st 433
          else st 0
        else if c >? 70 then
          if (97 <=? c) && (c <=? 102) then st 377
          else st 0
        else st 377));
   (433, fun c =>
    switch c
      [(46, st 294); (58, st 379); (93, st 512)]
      (if c <? 65 then
          if (48 <=? c) && (c <=? 57) then st 378
          else st 0
        else if c >? 70 then
          if (97 <=? c) && (c <=? 102) then st 378
          else st 0
        else st 378));
   (434, fun c =>
    switch c
      [(46, st 294); (53, st 436); (58, st 379); (93, st 512)]
      (if c <? 65 then
          if (48 <=? c) && (c <=? 57) then st 435
          else st 0
        else if c >? 70 then
          if (97 <=? c) && (c <=? 102) then st 376
          else st 0
        else st 376));
   (435, fun c =>
    switch c
      [(46, st 294); (58, st 379); (93, st 512)]
      (if c <? 65 then
          if (48 <=? c) && (c <=? 57) then st 377
          else st 0
        else if c >? 70 then
          if (97 <=? c) && (c <=? 102) then st 377
          else st 0
        else st 377));
   (436, fun c =>
    switch c
      [(46, st 294); (58, st 379); (93, st 512)]
      (if c <? 54 then
          if (48 <=? c) && (c <=? 53) then st 433
          else st 0
        else if c >? 57 then
          if c >? 70 then
            if (97 <=? c) && (c <=? 102) then st 377
            else st 0
          else if c >=? 65 then st 377
          else st 0
        else st 377));
   (437, fun c =>
    switch c
      [(46, st 294); (58, st 379); (93, st 512)]
      (if c <? 65 then
          if (48 <=? c) && (c <=? 57) then st 435
          else st 0
        else if c >? 70 then
          if (97 <=? c) && (c <=? 102) then st 376
          else st 0
        else st 376));
   (438, fun c =>
    switch c
      [(58, st 379); (93, st 512)]
      (if c <? 65 then
          if (48 <=? c) && (c <=? 57) then st 376
          else st 0
        else if c >? 70 then
          if (97 <=? c) && (c <=? 102) then st 376
          else st 0
        else st 376))].

(** uri.cc, lines 9235-9381 *)
Definition uri_cases_66 : list (Z * (Z -> label)) :=
  [(439, fun c =>
    switch c
      [(46, st 294); (58, st 374); (93, st 512)]
      (if c <? 65 then
          if (48 <=? c) && (c <=? 57) then st 440
          else st 0
        else if c >? 70 then
          if (97 <=? c) && (c <=? 102) then st 371
          else st 0
        else st 371));
   (440, fun c =>
    switch c
      [(46, st 294); (58, st 374); (93, st 512)]
      (if c <? 65 then
          if (48 <=? c) && (c <=? 57) then st 441
          else st 0
        else if c >? 70 then
          if (97 <=? c) && (c <=? 102) then st 372
          else st 0
        else st 372));
   (441, fun c =>
    switch c
      [(46, st 294); (58, st 374); (93, st 512)]
      (if c <? 65 then
          if (48 <=? c) && (c <=? 57) then st 373
          else st 0
        else if c >? 70 then
          if (97 <=? c) && (c <=? 102) then st 373
          else st 0
        else st 373));
   (442, fun c =>
    switch c
      [(46, st 294); (53, st 444); (58, st 374); (93, st 512)]
      (if c <? 65 then
          if (48 <=? c) && (c <=? 57) then st 443
          else st 0
        else if c >? 70 then
          if (97 <=? c) && (c <=? 102) then st 371
          else st 0
        else st 371));
   (443, fun c =>
    switch c
      [(46, st 294); (58, st 374); (93, st 512)]
      (if c <? 65 then
          if (48 <=? c) && (c <=? 57) then st 372
          else st 0
        else if c >? 70 then
          if (97 <=? c) && (c <=? 102) then st 372
          else st 0
        else st 372));
   (444, fun c =>
    switch c
      [(46, st 294); (58, st 374); (93, st 512)]
      (if c <? 54 then
          if (48 <=? c) && (c <=? 53) then st 441
          else st 0
        else if c >? 57 then
          if c >? 70 then
            if (97 <=? c) && (c <=? 102) then st 372
            else st 0
          else if c >=? 65 then st 372
          else st 0
        else st 372));
   (445, fun c =>
    switch c
      [(46, st 294); (58, st 374); (93, st 512)]
      (if c <? 65 then
          if (48 <=? c) && (c <=? 57) then st 443
          else st 0
        else if c >? 70 then
          if (97 <=? c) && (c <=? 102) then st 371
          else st 0
        else st 371));
   (446, fun c =>
    switch c
      [(58, st 374); (93, st 512)]
      (if c <? 65 then
          if (48 <=? c) && (c <=? 57) then st 371
          else st 0
        else if c >? 70 then
          if (97 <=? c) && (c <=? 102) then st 371
          else st 0
        else st 371))].

(** uri.cc, lines 9382-9522 *)
Definition uri_cases_67 : list (Z * (Z -> label)) :=
  [(447, fun c =>
    if c <? 65 then
      if (48 <=? c) && (c <=? 57) then st 448
      else st 0
    else if c >? 70 then
      if (97 <=? c) && (c <=? 102) then st 448
      else st 0
    else st 448);
   (448, fun c =>
    if c =? 46 then st 449
    else if c <? 65 then
      if (48 <=? c) && (c <=? 57) then st 448
      else st 0
    else if c >? 70 then
      if (97 <=? c) && (c <=? 102) then st 448
      else st 0
    else st 448);
   (449, fun c =>
    switch c
      [(33, st 450); (36, st 450); (61, st 450); (95, st 450);
       (126, st 450)]
      (if c <? 48 then
          if (38 <=? c) && (c <=? 46) then st 450
          else st 0
        else if c >? 59 then
          if c >? 90 then
            if (97 <=? c) && (c <=? 122) then st 450
            else st 0
          else if c >=? 65 then st 450
          else st 0
        else st 450));
   (450, fun c =>
    switch c
      [(33, st 450); (36, st 450); (61, st 450); (93, st 512);
       (95, st 450); (126, st 450)]
      (if c <? 48 then
          if (38 <=? c) && (c <=? 46) then st 450
          else st 0
        else if c >? 59 then
          if c >? 90 then
            if (97 <=? c) && (c <=? 122) then st 450
            else st 0
          else if c >=? 65 then st 450
          else st 0
        else st 450));
   (542, fun c =>
    switch c
      [(33, st 255); (35, tr 570); (37, st 256); (47, tr 571);
       (61, st 255); (63, tr 573); (64, tr 263); (95, st 255);
       (126, st 255)]
      (if c <? 58 then
          if c >? 46 then
            if (48 <=? c) && (c <=? 57) then st 542
            else st 0
          else if c >=? 36 then st 255
          else st 0
        else if c >? 59 then
          if c >? 90 then
            if (97 <=? c) && (c <=? 122) then st 255
            else st 0
          else if c >=? 65 then st 255
          else st 0
        else st 255));
   (543, fun c =>
    switch c
      [(33, st 520); (35, tr 559); (37, st 253); (46, st 544);
       (47, tr 560); (58, tr 576); (61, st 520); (63, tr 562);
       (64, tr 263); (95, st 520); (126, st 520)]
      (if c <? 65 then
          if (36 <=? c) && (c <=? 59) then st 520
          else st 0
        else if c >? 90 then
          if (97 <=? c) && (c <=? 122) then st 520
          else st 0
        else st 520))].

Definition uri_trans_67 : list (Z * (list action * Z)) :=
  [(577, ([Mark], 542));
   (551, ([Mark], 543))].

(** uri.cc, lines 9523-9666 *)
Definition uri_cases_68 : list (Z * (Z -> label)) :=
  [(544, fun c =>
    switch c
      [(2, st 233); (33, st 520); (35, tr 559); (37, st 253);
       (47, tr 560); (48, st 545); (49, st 553); (50, st 555);
       (58, tr 576); (59, st 520); (61, st 520); (63, tr 562);
       (64, tr 263); (95, st 520); (126, st 520)]
      (if c <? 51 then
          if (36 <=? c) && (c <=? 46) then st 520
          else st 0
        else if c >? 57 then
          if c >? 90 then
            if (97 <=? c) && (c <=? 122) then st 520
            else st 0
          else if c >=? 65 then st 520
          else st 0
        else st 554));
   (545, fun c =>
    switch c
      [(33, st 520); (35, tr 559); (37, st 253); (46, st 546);
       (47, tr 560); (58, tr 576); (61, st 520); (63, tr 562);
       (64, tr 263); (95, st 520); (126, st 520)]
      (if c <? 65 then
          if (36 <=? c) && (c <=? 59) then st 520
          else st 0
        else if c >? 90 then
          if (97 <=? c) && (c <=? 122) then st 520
          else st 0
        else st 520));
   (546, fun c =>
    switch c
      [(2, st 237); (33, st 520); (35, tr 559); (37, st 253);
       (47, tr 560); (48, st 547); (49, st 549); (50, st 551);
       (58, tr 576); (59, st 520); (61, st 520); (63, tr 562);
       (64, tr 263); (95, st 520); (126, st 520)]
      (if c <? 51 then
          if (36 <=? c) && (c <=? 46) then st 520
          else st 0
        else if c >? 57 then
          if c >? 90 then
            if (97 <=? c) && (c <=? 122) then st 520
            else st 0
          else if c >=? 65 then st 520
          else st 0
        else st 550));
   (547, fun c =>
    switch c
      [(33, st 520); (35, tr 559); (37, st 253); (46, st 548);
       (47, tr 560); (58, tr 576); (61, st 520); (63, tr 562);
       (64, tr 263); (95, st 520); (126, st 520)]
      (if c <? 65 then
          if (36 <=? c) && (c <=? 59) then st 520
          else st 0
        else if c >? 90 then
          if (97 <=? c) && (c <=? 122) then st 520
          else st 0
        else st 520));
   (548, fun c =>
    switch c
      [(2, st 241); (33, st 520); (35, tr 559); (37, st 253);
       (47, tr 560); (58, tr 576); (61, st 520); (63, tr 562);
       (64, tr 263); (95, st 520); (126, st 520)]
      (if c <? 65 then
          if (36 <=? c) && (c <=? 59) then st 520
          else st 0
        else if c >? 90 then
          if (97 <=? c) && (c <=? 122) then st 520
          else st 0
        else st 520))].

(** uri.cc, lines 9667-9789 *)
Definition uri_cases_69 : list (Z * (Z -> label)) :=
  [(549, fun c =>
    switch c
      [(33, st 520); (35, tr 559); (37, st 253); (46, st 548);
       (47, tr 560); (58, tr 576); (59, st 520); (61, st 520);
       (63, tr 562); (64, tr 263); (95, st 520); (126, st 520)]
      (if c <? 48 then
          if (36 <=? c) && (c <=? 45) then st 520
          else st 0
        else if c >? 57 then
          if c >? 90 then
            if (97 <=? c) && (c <=? 122) then st 520
            else st 0
          else if c >=? 65 then st 520
          else st 0
        else st 550));
   (550, fun c =>
    switch c
      [(33, st 520); (35, tr 559); (37, st 253); (46, st 548);
       (47, tr 560); (58, tr 576); (59, st 520); (61, st 520);
       (63, tr 562); (64, tr 263); (95, st 520); (126, st 520)]
      (if c <? 48 then
          if (36 <=? c) && (c <=? 45) then st 520
          else st 0
        else if c >? 57 then
          if c >? 90 then
            if (97 <=? c) && (c <=? 122) then st 520
            else st 0
          else if c >=? 65 then st 520
          else st 0
        else st 547));
   (551, fun c =>
    switch c
      [(33, st 520); (35, tr 559); (37, st 253); (46, st 548);
       (47, tr 560); (53, st 552); (58, tr 576); (59, st 520);
       (61, st 520); (63, tr 562); (64, tr 263); (95, st 520);
       (126, st 520)]
      (if c <? 48 then
          if (36 <=? c) && (c <=? 45) then st 520
          else st 0
        else if c >? 57 then
          if c >? 90 then
            if (97 <=? c) && (c <=? 122) then st 520
            else st 0
          else if c >=? 65 then st 520
          else st 0
        else st 547));
   (552, fun c =>
    switch c
      [(33, st 520); (35, tr 559); (37, st 253); (46, st 548);
       (47, tr 560); (58, tr 576); (61, st 520); (63, tr 562);
       (64, tr 263); (95, st 520); (126, st 520)]
      (if c <? 54 then
          if c >? 45 then
            if (48 <=? c) && (c <=? 53) then st 547
            else st 0
          else if c >=? 36 then st 520
          else st 0
        else if c >? 59 then
          if c >? 90 then
            if (97 <=? c) && (c <=? 122) then st 520
            else st 0
          else if c >=? 65 then st 520
          else st 0
        else st 520))].

(** uri.cc, lines 9790-9916 *)
Definition uri_cases_70 : list (Z * (Z -> label)) :=
  [(553, fun c =>
    switch c
      [(33, st 520); (35, tr 559); (37, st 253); (46, st 546);
       (47, tr 560); (58, tr 576); (59, st 520); (61, st 520);
       (63, tr 562); (64, tr 263); (95, st 520); (126, st 520)]
      (if c <? 48 then
          if (36 <=? c) && (c <=? 45) then st 520
          else st 0
        else if c >? 57 then
          if c >? 90 then
            if (97 <=? c) && (c <=? 122) then st 520
            else st 0
          else if c >=? 65 then st 520
          else st 0
        else st 554));
   (554, fun c =>
    switch c
      [(33, st 520); (35, tr 559); (37, st 253); (46, st 546);
       (47, tr 560); (58, tr 576); (59, st 520); (61, st 520);
       (63, tr 562); (64, tr 263); (95, st 520); (126, st 520)]
      (if c <? 48 then
          if (36 <=? c) && (c <=? 45) then st 520
          else st 0
        else if c >? 57 then
          if c >? 90 then
            if (97 <=? c) && (c <=? 122) then st 520
            else st 0
          else if c >=? 65 then st 520
          else st 0
        else st 545));
   (555, fun c =>
    switch c
      [(33, st 520); (35, tr 559); (37, st 253); (46, st 546);
       (47, tr 560); (53, st 556); (58, tr 576); (59, st 520);
       (61, st 520); (63, tr 562); (64, tr 263); (95, st 520);
       (126, st 520)]
      (if c <? 48 then
          if (36 <=? c) && (c <=? 45) then st 520
          else st 0
        else if c >? 57 then
          if c >? 90 then
            if (97 <=? c) && (c <=? 122) then st 520
            else st 0
          else if c >=? 65 then st 520
          else st 0
        else st 545));
   (556, fun c =>
    switch c
      [(33, st 520); (35, tr 559); (37, st 253); (46, st 546);
       (47, tr 560); (58, tr 576); (61, st 520); (63, tr 562);
       (64, tr 263); (95, st 520); (126, st 520)]
      (if c <? 54 then
          if c >? 45 then
            if (48 <=? c) && (c <=? 53) then st 545
            else st 0
          else if c >=? 36 then st 520
          else st 0
        else if c >? 59 then
          if c >? 90 then
            if (97 <=? c) && (c <=? 122) then st 520
            else st 0
          else if c >=? 65 then st 520
          else st 0
        else st 520))].

Definition uri_trans_70 : list (Z * (list action * Z)) :=
  [(552, ([Mark], 557))].

(** uri.cc, lines 9917-10050 *)
Definition uri_cases_71 : list (Z * (Z -> label)) :=
  [(557, fun c =>
    switch c
      [(33, st 520); (35, tr 559); (37, st 253); (46, st 544);
       (47, tr 560); (58, tr 576); (59, st 520); (61, st 520);
       (63, tr 562); (64, tr 263); (95, st 520); (126, st 520)]
      (if c <? 48 then
          if (36 <=? c) && (c <=? 45) then st 520
          else st 0
        else if c >? 57 then
          if c >? 90 then
            if (97 <=? c) && (c <=? 122) then st 520
            else st 0
          else if c >=? 65 then st 520
          else st 0
        else st 558));
   (558, fun c =>
    switch c
      [(33, st 520); (35, tr 559); (37, st 253); (46, st 544);
       (47, tr 560); (58, tr 576); (59, st 520); (61, st 520);
       (63, tr 562); (64, tr 263); (95, st 520); (126, st 520)]
      (if c <? 48 then
          if (36 <=? c) && (c <=? 45) then st 520
          else st 0
        else if c >? 57 then
          if c >? 90 then
            if (97 <=? c) && (c <=? 122) then st 520
            else st 0
          else if c >=? 65 then st 520
          else st 0
        else st 543));
   (559, fun c =>
    switch c
      [(33, st 520); (35, tr 559); (37, st 253); (46, st 544);
       (47, tr 560); (53, st 560); (58, tr 576); (59, st 520);
       (61, st 520); (63, tr 562); (64, tr 263); (95, st 520);
       (126, st 520)]
      (if c <? 48 then
          if (36 <=? c) && (c <=? 45) then st 520
          else st 0
        else if c >? 57 then
          if c >? 90 then
            if (97 <=? c) && (c <=? 122) then st 520
            else st 0
          else if c >=? 65 then st 520
          else st 0
        else st 543));
   (560, fun c =>
    switch c
      [(33, st 520); (35, tr 559); (37, st 253); (46, st 544);
       (47, tr 560); (58, tr 576); (61, st 520); (63, tr 562);
       (64, tr 263); (95, st 520); (126, st 520)]
      (if c <? 54 then
          if c >? 45 then
            if (48 <=? c) && (c <=? 53) then st 543
            else st 0
          else if c >=? 36 then st 520
          else st 0
        else if c >? 59 then
          if c >? 90 then
            if (97 <=? c) && (c <=? 122) then st 520
            else st 0
          else if c >=? 65 then st 520
          else st 0
        else st 520))].

Definition uri_trans_71 : list (Z * (list action * Z)) :=
  [(554, ([Mark], 558));
   (553, ([Mark], 559))].

(** The actions run when the input ends ([switch (cs)] at [_test_eof]). *)
Definition uri_eof : list (list Z * list action) :=
  [([462; 489],
    [SavePort]);
   ([460; 463; 464; 465; 466; 467; 470; 471; 472; 473; 474; 475; 476;
     477; 478; 479; 480; 481; 482; 483; 484; 485; 486; 487; 488; 490;
     491; 492; 493; 494; 495; 496; 497; 498; 499; 500; 501; 502; 503;
     504; 505; 506; 507],
    [SaveHost]);
   ([513],
    [SavePath]);
   ([457],
    [SaveQuery]);
   ([454],
    [SaveFragment]);
   ([456],
    [Mark; SaveQuery]);
   ([453],
    [Mark; SaveFragment]);
   ([461; 468],
    [Mark; SavePort]);
   ([459; 469],
    [Mark; SaveHost]);
   ([514; 521],
    [Mark; SavePort; SavePath]);
   ([511; 522],
    [Mark; SaveHost; SavePath]);
   ([515; 542],
    [SavePort; Mark; SavePath]);
   ([512; 516; 517; 518; 519; 520; 523; 524; 525; 526; 527; 528; 529;
     530; 531; 532; 533; 534; 535; 536; 537; 538; 539; 540; 541; 543;
     544; 545; 546; 547; 548; 549; 550; 551; 552; 553; 554; 555; 556;
     557; 558; 559; 560],
    [SaveHost; Mark; SavePath])].

Definition uri_cases : list (Z * (Z -> label)) :=
  concat
    [uri_cases_1; uri_cases_2; uri_cases_3; uri_cases_4;
     uri_cases_5; uri_cases_6; uri_cases_7; uri_cases_8;
     uri_cases_9; uri_cases_10; uri_cases_11; uri_cases_12;
     uri_cases_13; uri_cases_14; uri_cases_15; uri_cases_16;
     uri_cases_17; uri_cases_18; uri_cases_19; uri_cases_20;
     uri_cases_21; uri_cases_22; uri_cases_23; uri_cases_24;
     uri_cases_25; uri_cases_26; uri_cases_27; uri_cases_28;
     uri_cases_29; uri_cases_30; uri_cases_31; uri_cases_32;
     uri_cases_33; uri_cases_34; uri_cases_35; uri_cases_36;
     uri_cases_37; uri_cases_38; uri_cases_39; uri_cases_40;
     uri_cases_41; uri_cases_42; uri_cases_43; uri_cases_44;
     uri_cases_45; uri_cases_46; uri_cases_47; uri_cases_48;
     uri_cases_49; uri_cases_50; uri_cases_51; uri_cases_52;
     uri_cases_53; uri_cases_54; uri_cases_55; uri_cases_56;
     uri_cases_57; uri_cases_58; uri_cases_59; uri_cases_60;
     uri_cases_61; uri_cases_62; uri_cases_63; uri_cases_64;
     uri_cases_65; uri_cases_66; uri_cases_67; uri_cases_68;
     uri_cases_69; uri_cases_70; uri_cases_71].

Definition uri_trans : list (Z * (list action * Z)) :=
  concat
    [uri_trans_1; uri_trans_2; uri_trans_3; uri_trans_4;
     uri_trans_5; uri_trans_6; uri_trans_7; uri_trans_8;
     uri_trans_9; uri_trans_12; uri_trans_13; uri_trans_33;
     uri_trans_36; uri_trans_37; uri_trans_38; uri_trans_39;
     uri_trans_40; uri_trans_41; uri_trans_42; uri_trans_43;
     uri_trans_46; uri_trans_47; uri_trans_67; uri_trans_70;
     uri_trans_71].
