(* ===== verification/Uri.v ===== *)
(** * URIs (src/qslary/net/URI.h and uri.cc)

    The [URI] class: [Create] runs the state machine of UriTable.v over the
    text with the [mark] pointer the actions save tokens from, and the
    accessors and printers of the result. *)
From stdpp Require Import base list gmap strings.
From Stdlib Require Import ZArith Ascii String Lia.
From S2P Require Import Prelude CLib Ragel UriTable.
Open Scope Z_scope.

(** ** The object *)
Record URI : Set := mkURI {
  scheme_ : string;
  userinfo_ : string;
  host_ : string;
  path_ : string;
  query_ : string;
  fragment_ : string;
  port_ : Z                                             (** [int32_t] *)
}.

(** [URI::URI()] *)
Definition new_URI : URI := mkURI "" "" "" "" "" "" 0.

Definition setScheme (u : URI) (x : string) : URI :=
  mkURI x (userinfo_ u) (host_ u) (path_ u) (query_ u) (fragment_ u) (port_ u).
Definition setUserinfo (u : URI) (x : string) : URI :=
  mkURI (scheme_ u) x (host_ u) (path_ u) (query_ u) (fragment_ u) (port_ u).
Definition setHost (u : URI) (x : string) : URI :=
  mkURI (scheme_ u) (userinfo_ u) x (path_ u) (query_ u) (fragment_ u) (port_ u).
Definition setPath (u : URI) (x : string) : URI :=
  mkURI (scheme_ u) (userinfo_ u) (host_ u) x (query_ u) (fragment_ u) (port_ u).
Definition setQuery (u : URI) (x : string) : URI :=
  mkURI (scheme_ u) (userinfo_ u) (host_ u) (path_ u) x (fragment_ u) (port_ u).
Definition setFragment (u : URI) (x : string) : URI :=
  mkURI (scheme_ u) (userinfo_ u) (host_ u) (path_ u) (query_ u) x (port_ u).
Definition SetPort (u : URI) (x : Z) : URI :=
  mkURI (scheme_ u) (userinfo_ u) (host_ u) (path_ u) (query_ u) (fragment_ u) x.

(** ** The actions

    [mark] and [p] are positions in the text; [mark = None] is the null
    pointer. [std::string(mark, p - mark)] and [atoi(mark)] on a null [mark]
    are undefined. *)
Section actions.
Context (s : string).

(** [std::string(mark, p - mark)] *)
Definition token (mark : option nat) (p : nat) : outcome string :=
  let! m := deref mark in Ret (substring m (p - m) s).

(** [atoi(mark)]: reads on to the end of the text. *)
Definition atoi_at (mark : option nat) : outcome Z :=
  let! m := deref mark in Ret (atoi (substring m (String.length s - m) s)).

Definition run_action (a : action) (p : nat) (mu : option nat * URI)
    : outcome (option nat * URI) :=
  let '(mark, uri) := mu in
  match a with
  | Mark => Ret (Some p, uri)
  | SaveScheme => let! t := token mark p in Ret (None, setScheme uri t)
  | SavePort =>
      if bool_decide (mark = Some p) then Ret (None, uri)
      else let! n := atoi_at mark in Ret (None, SetPort uri n)
  | SaveUserinfo =>
      match mark with
      | Some _ => let! t := token mark p in Ret (None, setUserinfo uri t)
      | None => Ret (None, uri)
      end
  | SaveHost =>
      match mark with
      | Some _ => let! t := token mark p in Ret (mark, setHost uri t)
      | None => Ret (mark, uri)
      end
  | SavePath => let! t := token mark p in Ret (None, setPath uri t)
  | SaveQuery => let! t := token mark p in Ret (None, setQuery uri t)
  | SaveFragment => let! t := token mark p in Ret (None, setFragment uri t)
  end.

Fixpoint run_actions (acts : list action) (p : nat) (mu : option nat * URI)
    : outcome (option nat * URI) :=
  match acts with
  | [] => Ret mu
  | a :: acts' => let! mu' := run_action a p mu in run_actions acts' p mu'
  end.
End actions.

(** ** The machine *)
Definition uri_parser_start : Z := 451.
Definition uri_parser_first_final : Z := 451.
Definition uri_parser_error : Z := 0.

Definition case_map : gmap Z (Z -> label) := list_to_map uri_cases.
Definition trans_map : gmap Z (list action * Z) := list_to_map uri_trans.
Definition eof_map : gmap Z (list action) :=
  list_to_map (List.concat (map (fun '(qs, acts) => map (fun q => (q, acts)) qs) uri_eof)).

(** A jump: the actions run on the way and the state entered. *)
Definition follow (l : label) : list action * Z :=
  match l with
  | st n => ([], n)
  | tr n => default ([], uri_parser_error) (trans_map !! n)
  end.

Definition goto (cs c : Z) : list action * Z :=
  match case_map !! cs with
  | Some f => follow (f c)
  | None => ([], uri_parser_error)
  end.

(** The loop: [_out] is reached with [cs = 0] from [st0], or through
    [_test_eof] when [p == pe]. The result holds [cs], [p], [mark] and the
    object. *)
Fixpoint exec (s : string) (rest : list Z) (p : nat) (cs : Z)
    (mu : option nat * URI) : outcome (Z * nat * (option nat * URI)) :=
  match rest with
  | [] => Ret (cs, p, mu)
  | c :: rest' =>
      let '(acts, n) := goto cs c in
      let! mu' := run_actions s acts p mu in
      if n =? uri_parser_error then Ret (n, p, mu')
      else exec s rest' (S p) n mu'
  end.

(** [URI::Create] *)
Definition Create (s : string) : outcome (option URI) :=
  let! r := exec s (chars s) 0 uri_parser_start (None, new_URI) in
  let '(cs, p, mu) := r in
  let! mu' := (if (p =? String.length s)%nat
               then run_actions s (default [] (eof_map !! cs)) p mu
               else Ret mu) in
  if cs =? uri_parser_error then Ret None
  else if uri_parser_first_final <=? cs then Ret (Some (snd mu'))
  else Ret None.

(** ** Accessors and printers *)
Definition isDefaultPort (u : URI) : bool :=
  if port_ u =? 0 then true
  else if bool_decide (scheme_ u = "http" \/ scheme_ u = "ws") then port_ u =? 80
  else if bool_decide (scheme_ u = "https" \/ scheme_ u = "wss") then port_ u =? 443
  else false.

Definition getPath (u : URI) : string :=
  if bool_decide (path_ u = "") then "/" else path_ u.

Definition GetPort (u : URI) : Z :=
  if negb (port_ u =? 0) then port_ u
  else if bool_decide (scheme_ u = "http" \/ scheme_ u = "ws") then 80
  else if bool_decide (scheme_ u = "https" \/ scheme_ u = "wss") then 443
  else port_ u.

Definition nonempty (x : string) (sep : string) : string :=
  if bool_decide (x = "") then "" else sep.

(** [dump] onto a stream and [toString]. *)
Definition toString (u : URI) : string :=
  (scheme_ u ++ "://" ++ userinfo_ u ++ nonempty (userinfo_ u) "@" ++ host_ u
   ++ (if isDefaultPort u then "" else ":" ++ decimal (port_ u))
   ++ getPath u ++ nonempty (query_ u) "?" ++ query_ u
   ++ nonempty (fragment_ u) "#" ++ fragment_ u)%string.

(** ** Examples *)
Example create_full :
  Create "http://user@www.sylar.top:8080/test/uri?id=100&name=sylar#frg" =
  Ret (Some (mkURI "http" "user" "www.sylar.top" "/test/uri" "id=100&name=sylar"
               "frg" 8080)).
Proof. vm_compute. reflexivity. Qed.
Example create_null_mark : Create "http://h:/" = Fault Undefined.
Proof. vm_compute. reflexivity. Qed.
Example create_reject : Create "http://h h/" = Ret None.
Proof. vm_compute. reflexivity. Qed.
