(* ===== verification/UriGrammar.v ===== *)
(** * The URI grammar (src/qslary/net/uri.rl)

    The regular expressions of uri.rl (after RFC 3986), name by name. The
    grammar's characters are those of a signed [char]; [any -- ascii] is the
    negative ones. *)
From stdpp Require Import base list strings.
From Stdlib Require Import ZArith Ascii String.
From S2P Require Import Prelude CLib RegExp.
Open Scope Z_scope.

(** ** Ragel's operators *)
Definition char_of (s : string) : re := Cls (map (fun c => (c, c)) (chars s)).
Definition lit (s : string) : re :=
  foldr (fun c r => Seq (Cls [(c, c)]) r) Eps (chars s).
Definition opt (a : re) : re := Alt a Eps.
Definition plus (a : re) : re := Seq a (Star a).
(** [a{n}] *)
Fixpoint times (n : nat) (a : re) : re :=
  match n with O => Eps | S O => a | S n' => Seq a (times n' a) end.
(** [a{0,n}] *)
Fixpoint upto (n : nat) (a : re) : re :=
  match n with O => Eps | S n' => opt (Seq a (upto n' a)) end.
Fixpoint alts (l : list re) : re :=
  match l with [] => Emp | [a] => a | a :: l' => Alt a (alts l') end.
Fixpoint seqs (l : list re) : re :=
  match l with [] => Eps | [a] => a | a :: l' => Seq a (seqs l') end.

Definition alpha : re := Cls [(65, 90); (97, 122)].
Definition digit : re := Cls [(48, 57)].
Definition xdigit : re := Cls [(48, 57); (65, 70); (97, 102)].
Definition any : re := Cls [(-128, 127)].

(** ** Characters *)
Definition sub_delims : re := char_of "!$&'()*+,;=".
Definition unreserved : re := alts [alpha; digit; char_of "-._~"].
Definition pct_encoded : re := seqs [lit "%"; xdigit; xdigit].

(** ** Authority *)
Definition scheme : re := Seq alpha (Star (alts [alpha; digit; char_of "+-."])).
Definition userinfo : re :=
  Star (alts [unreserved; pct_encoded; sub_delims; lit ":"]).

(** The grammar writes [2 [0-4] digit] with an unquoted 2, which is the
    character of code 2. *)
Definition dec_octet : re :=
  alts [digit; Seq (Cls [(49, 57)]) digit; seqs [lit "1"; times 2 digit];
        seqs [Cls [(2, 2)]; Cls [(48, 52)]; digit]; Seq (lit "25") (Cls [(48, 53)])].
Definition IPv4address : re :=
  seqs [dec_octet; lit "."; dec_octet; lit "."; dec_octet; lit "."; dec_octet].
Definition h16 : re := Seq xdigit (upto 3 xdigit).
Definition h16_colon : re := Seq h16 (lit ":").
Definition ls32 : re := Alt (seqs [h16; lit ":"; h16]) IPv4address.
Definition IPv6address : re :=
  alts
    [seqs [times 6 h16_colon; ls32];
     seqs [lit "::"; times 5 h16_colon; ls32];
     seqs [opt h16; lit "::"; times 4 h16_colon; ls32];
     seqs [opt (Seq (times 1 h16_colon) h16); lit "::"; times 3 h16_colon; ls32];
     seqs [opt (Seq (times 2 h16_colon) h16); lit "::"; times 2 h16_colon; ls32];
     seqs [opt (Seq (times 3 h16_colon) h16); lit "::"; times 1 h16_colon; ls32];
     seqs [opt (Seq (times 4 h16_colon) h16); lit "::"; ls32];
     seqs [opt (Seq (times 5 h16_colon) h16); lit "::"; h16];
     seqs [opt (Seq (times 6 h16_colon) h16); lit "::"]].
Definition IPvFuture : re :=
  seqs [lit "v"; plus xdigit; lit "."; plus (alts [unreserved; sub_delims; lit ":"])].
Definition IP_literal : re := seqs [lit "["; Alt IPv6address IPvFuture; lit "]"].
Definition reg_name : re := Star (alts [unreserved; pct_encoded; sub_delims]).
Definition host : re := alts [IP_literal; IPv4address; reg_name].
Definition port : re := Star digit.
Definition authority : re :=
  seqs [opt (Seq userinfo (lit "@")); host; opt (Seq (lit ":") port)].

(** ** Path, query and fragment *)
Definition pchar : re :=
  alts [Cls [(-128, -1)]; unreserved; pct_encoded; sub_delims; lit ":"; lit "@"].
Definition pchar_nc : re :=
  alts [Cls [(-128, -1)]; unreserved; pct_encoded; sub_delims; lit "@"].
Definition segment : re := Star pchar.
Definition segment_nz : re := plus pchar.
Definition segment_nz_nc : re := plus pchar_nc.
Definition segments : re := Star (Seq (lit "/") segment).
Definition path_abempty : re := Seq (opt (Seq (lit "/") segment)) segments.
Definition path_absolute : re := Seq (lit "/") (opt (Seq segment_nz segments)).
Definition path_noscheme : re := Seq segment_nz_nc segments.
Definition path_rootless : re := Seq segment_nz segments.
Definition query : re := Star (alts [pchar; lit "/"; lit "?"]).
Definition fragment : re := Star (alts [pchar; lit "/"; lit "?"]).

(** ** References *)
Definition hier_part : re :=
  alts [seqs [lit "//"; authority; path_abempty]; path_absolute; path_rootless; Eps].
Definition relative_part : re :=
  alts [seqs [lit "//"; authority; path_abempty]; path_absolute; path_noscheme; Eps].
Definition query_fragment : re :=
  Seq (opt (Seq (lit "?") query)) (opt (Seq (lit "#") fragment)).
Definition relative_ref : re := Seq relative_part query_fragment.
Definition URI_expr : re := seqs [scheme; lit ":"; hier_part; query_fragment].
Definition main : re := Alt URI_expr relative_ref.

(** ** The texts on which an empty port loses the mark

    [scheme "://" (userinfo "@")? host ":" path-abempty], ended there or
    followed by a query or a fragment start. *)
Definition empty_port : re :=
  seqs [scheme; lit "://"; opt (Seq userinfo (lit "@")); host; lit ":";
        path_abempty; opt (Seq (char_of "?#") (Star any))].
