(* ===== verification/UriCheck.v ===== *)
(** * The URI machine against its grammar

    Two abstractions of the machine of UriTable.v (its state alone; its state
    and whether [mark] is null), the certificates that compare them with
    expressions of UriGrammar.v, and the languages they decide. *)
From stdpp Require Import base list gmap strings.
From Stdlib Require Import ZArith Ascii String Lia.
From S2P Require Import Prelude CLib RegExp Ragel UriTable Uri UriGrammar.
Open Scope Z_scope.

(** ** Character classes of the machine *)
Definition uri_classes : list (Z * Z * Z) :=
  [(-128, -1, -128); (0, 1, 0); (2, 2, 2); (3, 32, 0); (33, 33, 33); (34, 34,
   0); (35, 35, 35); (36, 36, 33); (37, 37, 37); (38, 42, 33); (43, 43, 43);
   (44, 44, 33); (45, 45, 45); (46, 46, 46); (47, 47, 47); (48, 48, 48); (49,
   49, 49); (50, 50, 50); (51, 52, 51); (53, 53, 53); (54, 57, 54); (58, 58,
   58); (59, 59, 33); (60, 60, 0); (61, 61, 33); (62, 62, 0); (63, 63, 63);
   (64, 64, 64); (65, 70, 65); (71, 90, 71); (91, 91, 91); (92, 92, 0); (93,
   93, 93); (94, 94, 0); (95, 95, 95); (96, 96, 0); (97, 102, 65); (103, 117,
   71); (118, 118, 118); (119, 122, 71); (123, 125, 0); (126, 126, 126); (127,
   127, 0)].

Definition uri_class : Z -> Z := class_of uri_classes.
Definition uri_reps : list Z := remove_dups (map snd uri_classes).

Lemma classes_respected_ok : classes_respected uri_class uri_cases = true.
Proof. vm_cast_no_check (eq_refl true). Qed.

Lemma goto_class q c : char_range c -> goto q c = goto q (uri_class c).
Proof.
  intros Hc. unfold goto, case_map.
  generalize classes_respected_ok. generalize uri_cases. intros cases H.
  destruct (list_to_map cases !! q) as [f|] eqn:E; [|done].
  apply elem_of_list_to_map_2 in E.
  by rewrite (classes_respected_lookup uri_class cases q f c).
Qed.

(** ** Two abstractions of the machine

    [next] keeps the state only; [anext] keeps the state and whether [mark] is
    null: [2 q] and [2 q + 1], with 0 for the error state and 1 once a null
    [mark] was used. *)
Definition next (q c : Z) : Z := snd (goto q c).
Definition final (q : Z) : bool := uri_parser_first_final <=? q.

Definition abs_action (a : action) (null : bool) : option bool :=
  match a with
  | Mark => Some false
  | SaveUserinfo => Some true
  | SaveHost => Some null
  | SaveScheme | SavePort | SavePath | SaveQuery | SaveFragment =>
      if null then None else Some true
  end.

Fixpoint abs_actions (acts : list action) (null : bool) : option bool :=
  match acts with
  | [] => Some null
  | a :: acts' => match abs_action a null with
                  | Some null' => abs_actions acts' null'
                  | None => None
                  end
  end.

Definition code (q : Z) (null : bool) : Z := if q =? 0 then 0 else 2 * q + Z.b2z null.

Definition anext (z c : Z) : Z :=
  if z =? 1 then 1
  else let '(acts, n) := goto (z / 2) c in
       match abs_actions acts (Z.odd z) with
       | Some null => code n null
       | None => 1
       end.

Definition afinal (z : Z) : bool :=
  if z =? 1 then true
  else bool_decide (abs_actions (default [] (eof_map !! (z / 2))) (Z.odd z) = None).

(** ** Certificates *)
Definition uri_certificate : certificate :=
  Eval vm_compute in make_certificate 2000 next 451 uri_reps main.

Definition mark_certificate : certificate :=
  Eval vm_compute in make_certificate 2000 anext (code 451 true) uri_reps empty_port.

Lemma uri_check : dfa_check next final uri_class main 451 uri_certificate = true.
Proof. vm_cast_no_check (eq_refl true). Qed.

Lemma mark_check :
  dfa_check anext afinal uri_class empty_port (code 451 true) mark_certificate = true.
Proof. vm_cast_no_check (eq_refl true). Qed.

Lemma next_language w :
  Forall char_range w -> final (fold_left next w 451) = true <-> matches main w.
Proof.
  apply (dfa_check_sound _ _ _ _ _ _ uri_check).
  intros q ids c _ Hc. unfold next. by rewrite (goto_class q c Hc).
Qed.

Lemma anext_language w :
  Forall char_range w ->
  afinal (fold_left anext w (code 451 true)) = true <-> matches empty_port w.
Proof.
  apply (dfa_check_sound _ _ _ _ _ _ mark_check).
  intros z ids c _ Hc. unfold anext. by rewrite (goto_class (z / 2) c Hc).
Qed.
