(* ===== verification/UriCorrect.v ===== *)
(** * Correctness of [URI::Create]

    The program of Uri.v against the grammar of UriGrammar.v: which texts are
    accepted, which are rejected and on which a null [mark] is used. *)
From stdpp Require Import base list gmap strings.
From Stdlib Require Import ZArith Ascii String Lia.
From S2P Require Import Prelude CLib RegExp UriTable Uri UriGrammar UriCheck.
Open Scope Z_scope.

(** ** The abstractions simulate the program *)
Definition is_null (mark : option nat) : bool :=
  match mark with None => true | Some _ => false end.

Lemma run_actions_abs s acts p mark u :
  match run_actions s acts p (mark, u) with
  | Ret (mark', _) => abs_actions acts (is_null mark) = Some (is_null mark')
  | Fault f => f = Undefined /\ abs_actions acts (is_null mark) = None
  end.
Proof.
  revert mark u. induction acts as [|a acts IH]; intros mark u; simpl; [done|].
  destruct a, mark as [m|]; simpl; try case_bool_decide; simpl;
    try discriminate; try done; apply IH.
Qed.

Lemma code_decode q null :
  q <> 0 -> code q null <> 1 /\ code q null / 2 = q /\ Z.odd (code q null) = null.
Proof.
  intros Hq. unfold code. destruct (Z.eqb_spec q 0) as [|_]; [done|]. split_and!.
  - destruct null; simpl; lia.
  - symmetry. apply Z.div_unique_pos with (Z.b2z null); destruct null; simpl; lia.
  - rewrite Z.odd_add, Z.odd_mul. by destruct null.
Qed.

Lemma fold_left_fixed {A B} (f : A -> B -> A) a l :
  (forall b, f a b = a) -> fold_left f l a = a.
Proof. intros H. induction l as [|b l IH]; simpl; [done|]. by rewrite H. Qed.

Lemma goto_0 c : goto 0 c = ([], 0).
Proof. reflexivity. Qed.

Lemma eof_0 : eof_map !! 0 = None.
Proof. reflexivity. Qed.

Lemma next_0 c : next 0 c = 0.
Proof. reflexivity. Qed.
Lemma anext_0 c : anext 0 c = 0.
Proof. reflexivity. Qed.

#[local] Opaque goto case_map trans_map eof_map.

Lemma exec_abs s rest p q mark u :
  q <> 0 ->
  match exec s rest p q (mark, u) with
  | Ret (q', p', (mark', _)) =>
      q' = fold_left next rest q /\
      fold_left anext rest (code q (is_null mark)) = code q' (is_null mark') /\
      (q' <> 0 -> p' = (p + List.length rest)%nat)
  | Fault f =>
      f = Undefined /\ fold_left anext rest (code q (is_null mark)) = 1
  end.
Proof.
  revert p q mark u. induction rest as [|c rest IH]; intros p q mark u Hq; simpl.
  { split_and!; [done|done|lia]. }
  destruct (code_decode q (is_null mark) Hq) as (H1 & H2 & H3).
  apply Z.eqb_neq in H1.
  unfold anext at 2 4. rewrite H1, H2, H3. unfold next at 2.
  destruct (goto q c) as [acts n]. simpl.
  pose proof (run_actions_abs s acts p mark u) as Ha.
  destruct (run_actions s acts p (mark, u)) as [[mark' u']|f]; simpl.
  - rewrite Ha. unfold uri_parser_error. destruct (Z.eqb_spec n 0) as [->|Hn].
    + rewrite (fold_left_fixed next 0 rest next_0).
      change (code 0 (is_null mark')) with 0.
      rewrite (fold_left_fixed anext 0 rest anext_0). split_and!; [done|done|by intros ?].
    + specialize (IH (S p) n mark' u' Hn).
      destruct (exec s rest (S p) n (mark', u')) as [[[q' p'] [m2 u2]]|f]; [|done].
      destruct IH as (? & ? & IH). split_and!; [done|done|]. intros ?. rewrite IH by done. lia.
  - destruct Ha as [-> ->]. split; [done|]. by apply fold_left_fixed.
Qed.

(** What [Create] does, in terms of the abstractions. *)
Lemma Create_spec s :
  match Create s with
  | Ret (Some _) => matches main (chars s) /\ ~ matches empty_port (chars s)
  | Ret None => ~ matches main (chars s) /\ ~ matches empty_port (chars s)
  | Fault f => f = Undefined /\ matches empty_port (chars s)
  end.
Proof.
  pose proof (next_language _ (chars_range s)) as Hm.
  pose proof (anext_language _ (chars_range s)) as He. unfold Create.
  pose proof (exec_abs s (chars s) 0 uri_parser_start None new_URI) as H.
  change (code 451 true) with (code uri_parser_start (is_null None)) in He.
  change 451 with uri_parser_start in Hm.
  destruct (exec _ _ _ _ _) as [[[q p] [mark u]]|f]; simpl.
  2: { destruct H as [-> H]; [done|]. split; [done|]. apply He. by rewrite H. }
  destruct H as (Hq & Hz & Hp); [done|]. rewrite Hz in He. rewrite <- Hq in Hm.
  clear Hq Hz. destruct (Z.eqb_spec q uri_parser_error) as [->|Hne].
  - change (final uri_parser_error) with false in Hm.
    unfold afinal in He. change (code uri_parser_error _) with 0 in He. simpl in He.
    unfold uri_parser_error. rewrite eof_0 in *. simpl in *.
    destruct (p =? _)%nat; simpl; rewrite <- Hm, <- He; done.
  - rewrite Hp, length_chars by done. simpl. rewrite Nat.eqb_refl.
    destruct (code_decode q (is_null mark) Hne) as (H1 & H2 & H3).
    apply Z.eqb_neq in H1. unfold afinal in He. rewrite H1, H2, H3 in He.
    pose proof (run_actions_abs s (default [] (eof_map !! q)) (String.length s) mark u) as Ha.
    destruct (run_actions _ _ _ _) as [[mark' u']|f]; simpl.
    + rewrite Ha in He. unfold final in Hm.
      destruct (uri_parser_first_final <=? q); rewrite <- Hm, <- He; done.
    + destruct Ha as [-> Ha]. rewrite Ha in He. split; [done|]. by apply He.
Qed.

(** C1: [URI::Create] returns an object exactly for the texts of the grammar
    of uri.rl on which no action uses a null [mark], and returns null exactly
    for the other texts outside the grammar: the generated machine of ten
    thousand lines decides the language of the grammar. *)
Theorem Create_decides_grammar s :
  ((exists u, Create s = Ret (Some u)) <->
     matches main (chars s) /\ ~ matches empty_port (chars s)) /\
  (Create s = Ret None <->
     ~ matches main (chars s) /\ ~ matches empty_port (chars s)).
Proof.
  pose proof (Create_spec s) as H.
  destruct (Create s) as [[u|]|f]; split; split; try (by intros [? [=]]); try (by intros [=]);
    try tauto; intros _; eauto.
Qed.

(** [URI::Create] has undefined behaviour, a [std::string] or an [atoi]
    made from a null [mark], exactly on a hierarchical reference with an empty
    port ([http://host:/path]), and it has no other fault. *)
Theorem Create_null_mark s f :
  Create s = Fault f <-> f = Undefined /\ matches empty_port (chars s).
Proof.
  pose proof (Create_spec s) as H.
  destruct (Create s) as [[u|]|g]; split; try (by intros [=]); try tauto.
  - intros [= <-]. done.
  - intros [-> _]. by destruct H as [-> _].
Qed.
