(* ===== verification/ByteArray.v ===== *)
(** * ByteArray (src/qslary/net/ByteArray.h and ByteArray.cc)

    The growable byte buffer with a read and a write index, its operations and
    the integer encodings of the file. Sizes are [size_t]: 64-bit and wrapping.
    The theorems are in ByteArrayCorrect.v. *)
From stdpp Require Import base list strings.
From Stdlib Require Import ZArith Ascii String Lia.
From S2P Require Import Prelude CLib.
Open Scope Z_scope.

Definition kInitSize : Z := 8192.
Definition kPreHeadSize : Z := 16.

(** The indices are [None] while indeterminate: the constructor does not
    initialise them. *)
Record ByteArray : Set := mkByteArray {
  mBuffer : list ascii;
  mReadIndex : option Z;
  mWriteIndex : option Z
}.

Definition size_of (l : list ascii) : Z := Z.of_nat (List.length l).

(** ** Memory *)

(** [n] bytes from offset [i], as [memcpy] reads them. *)
Definition load (l : list ascii) (i n : Z) : outcome (list ascii) :=
  if (0 <=? i) && (0 <=? n) && (i + n <=? size_of l)
  then Ret (take (Z.to_nat n) (drop (Z.to_nat i) l))
  else Fault Undefined.

(** The bytes [d] stored from offset [i]. *)
Definition store (l : list ascii) (i : Z) (d : list ascii) : outcome (list ascii) :=
  if (0 <=? i) && (i + size_of d <=? size_of l)
  then Ret (take (Z.to_nat i) l ++ d ++ drop (Z.to_nat i + List.length d) l)
  else Fault Undefined.

(** [std::vector<char>::resize]: new bytes are zero; beyond [max_size()]
    it throws. *)
Definition resize (l : list ascii) (n : Z) : outcome (list ascii) :=
  if n <? 2 ^ 63
  then Ret (take (Z.to_nat n) l ++ repeat zero (Z.to_nat n - List.length l))
  else Fault Thrown.

(** ** Construction and sizes *)
Definition new_ByteArray (base_size : Z) : outcome ByteArray :=
  let! buf := resize [] base_size in Ret (mkByteArray buf None None).

Definition clear (b : ByteArray) : ByteArray := mkByteArray [] (Some 0) (Some 0).

Definition ReadableSize (b : ByteArray) : outcome Z :=
  let! w := deref (mWriteIndex b) in
  let! r := deref (mReadIndex b) in Ret (u64 (w - r)).
Definition WriteableSize (b : ByteArray) : outcome Z :=
  let! w := deref (mWriteIndex b) in Ret (u64 (size_of (mBuffer b) - w)).
Definition PrependableSize (b : ByteArray) : outcome Z := deref (mReadIndex b).

(** ** Operations *)

(** The bytes are moved as the standard library moves them, by [memmove]. *)
Definition MakeSpace (b : ByteArray) (size : Z) : outcome ByteArray :=
  let! pre := PrependableSize b in
  let! wr := WriteableSize b in
  let! r := deref (mReadIndex b) in
  let! w := deref (mWriteIndex b) in
  if u64 (pre + wr) <? u64 (size + kPreHeadSize) then
    let! buf := resize (mBuffer b) (u64 (w + size)) in
    Ret (mkByteArray buf (Some r) (Some w))
  else
    let! readable := ReadableSize b in
    let! d := load (mBuffer b) r (w - r) in
    let! buf := store (mBuffer b) kPreHeadSize d in
    Ret (mkByteArray buf (Some kPreHeadSize) (Some (u64 (kPreHeadSize + readable)))).

(** The result of [Read(buf, size)]: the count and the bytes copied out. *)
Definition Read (b : ByteArray) (size : Z) : outcome (Z * list ascii * ByteArray) :=
  let! readable := ReadableSize b in
  let realRead := if size >? readable then readable else size in
  if realRead =? 0 then Ret (realRead, [], b)
  else
    let! r := deref (mReadIndex b) in
    let! d := load (mBuffer b) r realRead in
    Ret (realRead, d, mkByteArray (mBuffer b) (Some (u64 (r + realRead))) (mWriteIndex b)).

Definition Write (b : ByteArray) (d : list ascii) : outcome (Z * ByteArray) :=
  let size := size_of d in
  let! writeable := WriteableSize b in
  let! b' := (if writeable <? size then MakeSpace b size else Ret b) in
  let! w := deref (mWriteIndex b') in
  let! buf := store (mBuffer b') w d in
  Ret (size, mkByteArray buf (mReadIndex b') (Some (u64 (w + size)))).

(** An [iovec] into the buffer: the offset of [iov_base] and [iov_len]. *)
Record iovec : Set := mkIovec { iov_base : Z; iov_len : Z }.

Definition GetReadBuffer (b : ByteArray) (len : Z) : outcome (Z * iovec * ByteArray) :=
  let! readable := ReadableSize b in
  let realSize := if len >? readable then readable else len in
  let! r := deref (mReadIndex b) in
  Ret (realSize, mkIovec r realSize,
       mkByteArray (mBuffer b) (Some (u64 (r + realSize))) (mWriteIndex b)).

Definition GetWriteBuffer (b : ByteArray) (len : Z) : outcome (Z * iovec * ByteArray) :=
  let! b' := MakeSpace b len in
  let! w := deref (mWriteIndex b') in
  Ret (len, mkIovec w len, b').

Definition toString (b : ByteArray) : outcome (list ascii * ByteArray) :=
  let! n := ReadableSize b in
  if n =? 0 then Ret ([], b)
  else let! rd := Read b n in let '(_, d, b') := rd in Ret (d, b').

(** *** [toHexString]: two hexadecimal digits and a space per byte, a line
    break before every 32nd. *)
Definition newline : ascii := "010"%char.
Definition hex_byte (a : ascii) : list ascii :=
  [hex_digit (uchar a / 16); hex_digit (uchar a mod 16); " "%char].

Fixpoint hex_from (i : nat) (l : list ascii) : list ascii :=
  match l with
  | [] => []
  | a :: l' =>
      (if (0 <? i)%nat && (i mod 32 =? 0)%nat then [newline] else [])
        ++ hex_byte a ++ hex_from (S i) l'
  end.

Definition toHexString (b : ByteArray) : outcome (list ascii * ByteArray) :=
  let! sb := toString b in
  let '(str, b') := sb in Ret (hex_from 0 str, b').

(** ** Integers

    [WriteInt<T>] and [ReadInt<T>] copy the object representation, which is
    little endian on the targets; a short [Read] leaves the result
    indeterminate. [bytes] is [sizeof(T)]. *)
Definition WriteInt (bytes : nat) (b : ByteArray) (x : Z) : outcome ByteArray :=
  let! r := Write b (int_bytes bytes x) in Ret (snd r).

(** [T] is signed when [sgn] is true. *)
Definition ReadInt (bytes : nat) (sgn : bool) (b : ByteArray)
    : outcome (Z * ByteArray) :=
  let! rd := Read b (Z.of_nat bytes) in
  let '(n, d, b') := rd in
  if n =? Z.of_nat bytes
  then Ret (if sgn then wraps (8 * Z.of_nat bytes) (int_value d) else int_value d, b')
  else Fault Undefined.

(** *** Zigzag *)
Definition EncodeZigzag (w : Z) (v : Z) : outcome Z :=
  if v <? 0 then
    let! n := signed w (- v) in Ret (wrapu w (wrapu w n * 2 - 1))
  else
    let! n := signed w (v * 2) in Ret (wrapu w n).
Definition EncodeZigzag32 : Z -> outcome Z := EncodeZigzag 32.
Definition EncodeZigzag64 : Z -> outcome Z := EncodeZigzag 64.

Definition DecodeZigzag (w : Z) (v : Z) : Z :=
  wraps w (Z.lxor (Z.shiftr v 1) (wrapu w (- Z.land v 1))).
Definition DecodeZigzag32 : Z -> Z := DecodeZigzag 32.
Definition DecodeZigzag64 : Z -> Z := DecodeZigzag 64.

(** ** Examples *)
Definition text (b : outcome (list ascii * ByteArray)) : outcome string :=
  let! r := b in Ret (string_of_list_ascii (fst r)).

Example write_read :
  text (let! b := Write (clear (mkByteArray [] None None))
                    (list_ascii_of_string "hello") in toString (snd b)) =
  Ret "hello"%string.
Proof. vm_compute. reflexivity. Qed.
Example hex_string :
  text (let! b := Write (clear (mkByteArray [] None None))
                    (list_ascii_of_string "Az~") in toHexString (snd b)) =
  Ret "41 7a 7e "%string.
Proof. vm_compute. reflexivity. Qed.
Example zigzag_examples :
  map EncodeZigzag32 [0; -1; 1; -2; 2147483647; -2147483648] =
  [Ret 0; Ret 1; Ret 2; Ret 3; Fault Undefined; Fault Undefined].
Proof. reflexivity. Qed.
