(* ===== verification/ByteArrayCorrect.v ===== *)
(** * Correctness of [ByteArray]

    The buffer is a queue of bytes: an interface ([ByteQueue] and its laws)
    states the contract, [ByteArray] implements it, and any sequence of
    operations gives the bytes the abstract queue gives. *)
From stdpp Require Import base list strings.
From Stdlib Require Import ZArith Ascii String Lia.
From S2P Require Import Prelude CLib ByteArray.
Open Scope Z_scope.

(** ** The interface *)
Class ByteQueue (B : Type) : Type := {
  valid : B -> Prop;
  contents : B -> list ascii;
  capacity : B -> Z;
  put : B -> list ascii -> outcome (Z * B);
  get : B -> Z -> outcome (Z * list ascii * B)
}.

(** Sizes stay below [2 ^ 62], far from the wrap-around of [size_t]. *)
Definition limit : Z := 2 ^ 62.

Class ByteQueueLaws (B : Type) `{ByteQueue B} : Prop := {
  put_law b d :
    valid b -> capacity b + size_of d < limit ->
    exists b', put b d = Ret (size_of d, b') /\ valid b' /\
      contents b' = contents b ++ d /\ capacity b' <= capacity b + size_of d;
  get_law b n :
    valid b -> 0 <= n < 2 ^ 64 ->
    exists b', get b n = Ret (size_of (take (Z.to_nat n) (contents b)),
                              take (Z.to_nat n) (contents b), b') /\ valid b' /\
      contents b' = drop (Z.to_nat n) (contents b) /\ capacity b' = capacity b
}.

(** ** The representation *)
Record wf (b : ByteArray) (r w : nat) : Prop := mkWf {
  wf_r : mReadIndex b = Some (Z.of_nat r);
  wf_w : mWriteIndex b = Some (Z.of_nat w);
  wf_le : (r <= w <= List.length (mBuffer b))%nat;
  wf_size : size_of (mBuffer b) < limit
}.

Definition valid_bytes (b : ByteArray) : Prop := exists r w, wf b r w.

Definition bytes (b : ByteArray) : list ascii :=
  match mReadIndex b, mWriteIndex b with
  | Some r, Some w => take (Z.to_nat (w - r)) (drop (Z.to_nat r) (mBuffer b))
  | _, _ => []
  end.

Lemma wf_bytes b r w : wf b r w -> bytes b = take (w - r) (drop r (mBuffer b)).
Proof.
  intros [Hr Hw Hle _]. unfold bytes. rewrite Hr, Hw. f_equal; [lia|].
  f_equal. lia.
Qed.

Lemma wf_length b r w : wf b r w -> List.length (bytes b) = (w - r)%nat.
Proof.
  intros H. rewrite (wf_bytes b r w H). destruct H.
  rewrite length_take, length_drop. lia.
Qed.

Lemma u64_small x : 0 <= x < 2 ^ 64 -> u64 x = x.
Proof. apply wrapu_small. Qed.

Ltac small :=
  repeat match goal with
  | |- context [wrapu 64 ?x] => rewrite (u64_small x) by (unfold limit, size_of in *; lia)
  end.

Lemma ReadableSize_wf b r w : wf b r w -> ReadableSize b = Ret (Z.of_nat (w - r)).
Proof.
  intros [Hr Hw Hle Hs]. unfold ReadableSize. rewrite Hr, Hw. cbn [deref obind].
  small. f_equal. lia.
Qed.

Lemma load_ok l i n :
  (i + n <= List.length l)%nat ->
  load l (Z.of_nat i) (Z.of_nat n) = Ret (take n (drop i l)).
Proof.
  intros H. unfold load, size_of.
  rewrite !(proj2 (Z.leb_le _ _)) by lia. cbn [andb]. by rewrite !Nat2Z.id.
Qed.

Lemma store_ok l i d :
  (i + List.length d <= List.length l)%nat ->
  store l (Z.of_nat i) d = Ret (take i l ++ d ++ drop (i + List.length d) l).
Proof.
  intros H. unfold store, size_of.
  rewrite !(proj2 (Z.leb_le _ _)) by lia. cbn [andb]. by rewrite !Nat2Z.id.
Qed.

Lemma resize_grow l n :
  (List.length l <= n)%nat -> Z.of_nat n < 2 ^ 63 ->
  resize l (Z.of_nat n) = Ret (l ++ repeat zero (n - List.length l)).
Proof.
  intros H Hn. unfold resize. rewrite (proj2 (Z.ltb_lt _ _)) by lia.
  rewrite Nat2Z.id. by rewrite take_ge by lia.
Qed.

Lemma length_store (l : list ascii) i (d : list ascii) :
  (i + List.length d <= List.length l)%nat ->
  List.length (take i l ++ d ++ drop (i + List.length d) l) = List.length l.
Proof. intros H. rewrite !length_app, length_take, length_drop. lia. Qed.

(** The window [r, w) of a buffer after [d] is stored at its end. *)
Lemma window_store (l d : list ascii) r w :
  (r <= w)%nat -> (w + List.length d <= List.length l)%nat ->
  take (w + List.length d - r) (drop r (take w l ++ d ++ drop (w + List.length d) l)) =
  take (w - r) (drop r l) ++ d.
Proof.
  intros Hr Hw.
  rewrite drop_app_le by (rewrite length_take; lia).
  rewrite (take_drop_commute l (w - r)). replace (r + (w - r))%nat with w by lia.
  rewrite (app_assoc (drop r (take w l))).
  replace (w + List.length d - r)%nat with (List.length (drop r (take w l) ++ d)).
  - apply take_app_length.
  - rewrite length_app, length_drop, length_take. lia.
Qed.

Lemma window_resize (l k : list ascii) r w n :
  (w <= n)%nat -> (r <= w <= List.length l)%nat ->
  take (w - r) (drop r (take n l ++ k)) = take (w - r) (drop r l).
Proof.
  intros Hn Hw. rewrite !take_drop_commute. replace (r + (w - r))%nat with w by lia.
  rewrite take_app_le by (rewrite length_take; lia).
  rewrite take_take. do 2 f_equal. lia.
Qed.

(** The window after it moved to offset [k]. *)
Lemma window_move (l d : list ascii) k :
  (k + List.length d <= List.length l)%nat ->
  take (List.length d) (drop k (take k l ++ d ++ drop (k + List.length d) l)) = d.
Proof.
  intros H. rewrite drop_app_length' by (rewrite length_take; lia).
  apply take_app_length.
Qed.

(** ** Operations keep the representation and the contents *)
Lemma MakeSpace_ok b r w size :
  wf b r w -> 0 <= size -> size_of (mBuffer b) + size < limit ->
  exists b' r' w', MakeSpace b size = Ret b' /\ wf b' r' w' /\ bytes b' = bytes b /\
    Z.of_nat w' + size <= size_of (mBuffer b') /\
    size_of (mBuffer b') <= size_of (mBuffer b) + size.
Proof.
  intros H Hs Hlim. pose proof (ReadableSize_wf b r w H) as HR.
  pose proof (wf_bytes b r w H) as HB. pose proof (wf_length b r w H) as HL.
  destruct H as [Hr Hw Hle Hsz]. unfold MakeSpace, PrependableSize, WriteableSize.
  rewrite HR, Hr, Hw. cbn [deref obind].
  unfold kPreHeadSize. small. destruct (Z.ltb_spec
    (Z.of_nat r + (size_of (mBuffer b) - Z.of_nat w)) (size + 16)) as [Hlt|Hge].
  - pose (n := (w + Z.to_nat size)%nat).
    replace (Z.of_nat w + size) with (Z.of_nat n) by (unfold n; lia).
    assert (Z.of_nat n < limit) as Hn by (unfold n, size_of, limit in *; lia).
    exists (mkByteArray (take n (mBuffer b) ++ repeat zero (n - List.length (mBuffer b)))
              (Some (Z.of_nat r)) (Some (Z.of_nat w))), r, w.
    assert (List.length (take n (mBuffer b) ++ repeat zero (n - List.length (mBuffer b)))
            = n) as Hlen.
    { rewrite length_app, length_take, repeat_length. lia. }
    set (l := take n _ ++ _) in *.
    assert (wf (mkByteArray l (Some (Z.of_nat r)) (Some (Z.of_nat w))) r w) as Hwf
      by (constructor; unfold size_of; cbn [mBuffer mReadIndex mWriteIndex];
          [done|done|unfold n in *; lia|lia]).
    unfold resize. rewrite (proj2 (Z.ltb_lt _ _)) by (unfold limit in *; lia).
    rewrite Nat2Z.id. split; [reflexivity|]. split; [exact Hwf|].
    unfold size_of in *. cbn [mBuffer]. rewrite Hlen. unfold n. split_and!; [|lia|lia].
    rewrite HB, (wf_bytes _ _ _ Hwf). apply window_resize; unfold n; lia.
  - replace (Z.of_nat w - Z.of_nat r) with (Z.of_nat (w - r)) by lia.
    rewrite load_ok by lia. cbn [obind]. rewrite <- HB. rewrite <- HL.
    change 16 with (Z.of_nat 16). unfold size_of in *.
    rewrite store_ok by lia. cbn [obind].
    pose proof (length_store (mBuffer b) 16 (bytes b) ltac:(lia)) as Hlen.
    set (l := take 16 _ ++ _) in *.
    assert (wf (mkByteArray l (Some (Z.of_nat 16))
                  (Some (Z.of_nat 16 + Z.of_nat (List.length (bytes b))))) 16 (16 + (w - r)))
      as Hwf by (constructor; unfold size_of; cbn [mBuffer mReadIndex mWriteIndex];
                 [done|f_equal; lia|lia|lia]).
    eexists _, 16%nat, (16 + (w - r))%nat.
    split; [reflexivity|]. split; [exact Hwf|]. cbn [mBuffer]. split_and!; [|lia|lia].
    rewrite (wf_bytes _ _ _ Hwf). cbn [mBuffer].
    replace (16 + (w - r) - 16)%nat with (List.length (bytes b)) by lia.
    apply window_move. lia.
Qed.

Lemma Write_ok b r w d :
  wf b r w -> size_of (mBuffer b) + size_of d < limit ->
  exists b' r' w', Write b d = Ret (size_of d, b') /\ wf b' r' w' /\
    bytes b' = bytes b ++ d /\
    size_of (mBuffer b') <= size_of (mBuffer b) + size_of d.
Proof.
  intros H Hlim. unfold Write, WriteableSize. rewrite (wf_w b r w H). cbn [deref obind].
  assert (exists b1 r1 w1,
    (if u64 (size_of (mBuffer b) - Z.of_nat w) <? size_of d
     then MakeSpace b (size_of d) else Ret b) = Ret b1 /\ wf b1 r1 w1 /\
    bytes b1 = bytes b /\ Z.of_nat w1 + size_of d <= size_of (mBuffer b1) /\
    size_of (mBuffer b1) <= size_of (mBuffer b) + size_of d)
    as (b1 & r1 & w1 & -> & H1 & Hb & Hroom & Hcap).
  { destruct H as [Hr Hw Hle Hs]. small.
    destruct (Z.ltb_spec (size_of (mBuffer b) - Z.of_nat w) (size_of d)).
    - apply (MakeSpace_ok b r w); [done|unfold size_of; lia|done].
    - exists b, r, w. split_and!; [done|done|done|lia|unfold size_of; lia]. }
  cbn [obind]. pose proof (wf_bytes _ _ _ H1) as HB1. destruct H1 as [Hr1 Hw1 Hle1 Hs1].
  rewrite Hr1, Hw1. cbn [deref obind]. rewrite store_ok by (unfold size_of in *; lia).
  cbn [obind]. small.
  pose proof (length_store (mBuffer b1) w1 d ltac:(unfold size_of in *; lia)) as Hlen.
  set (l := take w1 _ ++ _) in *.
  assert (wf (mkByteArray l (Some (Z.of_nat r1)) (Some (Z.of_nat w1 + size_of d)))
            r1 (w1 + List.length d)) as Hwf.
  { unfold size_of in *.
    constructor; unfold size_of; cbn [mBuffer mReadIndex mWriteIndex];
      [done|f_equal; lia|lia|lia]. }
  eexists _, r1, (w1 + List.length d)%nat. split; [reflexivity|].
  split; [exact Hwf|]. split.
  - rewrite <- Hb, HB1, (wf_bytes _ _ _ Hwf).
    apply window_store; unfold size_of in *; lia.
  - unfold size_of in *. cbn [mBuffer]. lia.
Qed.

(** Moving the read index over [n] bytes drops them. *)
Lemma advance_wf b r w n :
  wf b r w -> (n <= w - r)%nat ->
  let b' := mkByteArray (mBuffer b) (Some (Z.of_nat (r + n))) (mWriteIndex b) in
  wf b' (r + n) w /\ bytes b' = drop n (bytes b).
Proof.
  intros H Hn b'. assert (wf b' (r + n) w) as H'.
  { destruct H. constructor; cbn [b' mBuffer mReadIndex mWriteIndex]; [done|done|lia|done]. }
  split; [done|]. rewrite (wf_bytes _ _ _ H), (wf_bytes _ _ _ H'). cbn [b' mBuffer].
  rewrite skipn_firstn_comm, drop_drop. f_equal. lia.
Qed.

(** The number of bytes a read of [n] gets. *)
Lemma clamp_readable b r w n :
  wf b r w -> 0 <= n ->
  (if n >? Z.of_nat (w - r) then Z.of_nat (w - r) else n) =
  Z.of_nat (List.length (take (Z.to_nat n) (bytes b))).
Proof.
  intros H Hn. rewrite length_take, (wf_length b r w H), Z.gtb_ltb.
  destruct (Z.ltb_spec (Z.of_nat (w - r)) n); lia.
Qed.

Lemma read_window b r w n :
  wf b r w -> let k := List.length (take n (bytes b)) in
  (k <= w - r)%nat /\ take k (drop r (mBuffer b)) = take n (bytes b) /\
  drop k (bytes b) = drop n (bytes b).
Proof.
  intros H k. pose proof (wf_length b r w H) as HL.
  assert (k = Nat.min n (w - r)) as Hk by (unfold k; rewrite length_take; lia).
  split_and!; [lia| |].
  - rewrite (wf_bytes _ _ _ H), take_take. f_equal. lia.
  - destruct (decide (n <= w - r)%nat); [f_equal; lia|]. rewrite !drop_ge by lia. done.
Qed.

Lemma Read_ok b r w n :
  wf b r w -> 0 <= n ->
  let d := take (Z.to_nat n) (bytes b) in
  exists b' r', Read b n = Ret (size_of d, d, b') /\ wf b' r' w /\
    bytes b' = drop (Z.to_nat n) (bytes b) /\ mBuffer b' = mBuffer b.
Proof.
  intros H Hn d. destruct (read_window b r w (Z.to_nat n) H) as (Hk & Ht & Hd).
  fold d in Hk, Ht, Hd. unfold Read. rewrite (ReadableSize_wf b r w H). cbn [obind].
  rewrite (clamp_readable b r w n H Hn). fold d.
  destruct (advance_wf b r w (List.length d) H Hk) as [Hwf Hb].
  destruct (Z.eqb_spec (Z.of_nat (List.length d)) 0) as [E|E].
  - clearbody d. destruct d; [|simpl in E; lia].
    exists b, r. rewrite <- Hd. done.
  - destruct H as [Hr Hw Hle Hs]. rewrite Hr. cbn [deref obind].
    rewrite load_ok by lia. cbn [obind]. rewrite Ht, u64_small by (unfold limit, size_of in *; lia).
    rewrite <- Nat2Z.inj_add. eexists _, (r + List.length d)%nat.
    split; [reflexivity|]. rewrite <- Hd. split_and!; [exact Hwf|exact Hb|done].
Qed.

Lemma GetReadBuffer_ok b r w n :
  wf b r w -> 0 <= n ->
  let d := take (Z.to_nat n) (bytes b) in
  exists b' r', GetReadBuffer b n = Ret (size_of d, mkIovec (Z.of_nat r) (size_of d), b') /\
    load (mBuffer b') (Z.of_nat r) (size_of d) = Ret d /\ wf b' r' w /\
    bytes b' = drop (Z.to_nat n) (bytes b) /\ mBuffer b' = mBuffer b.
Proof.
  intros H Hn d. destruct (read_window b r w (Z.to_nat n) H) as (Hk & Ht & Hd).
  fold d in Hk, Ht, Hd. unfold GetReadBuffer. rewrite (ReadableSize_wf b r w H). cbn [obind].
  rewrite (clamp_readable b r w n H Hn). fold d.
  destruct (advance_wf b r w (List.length d) H Hk) as [Hwf Hb].
  destruct H as [Hr Hw Hle Hs]. rewrite Hr. cbn [deref obind].
  rewrite u64_small by (unfold limit, size_of in *; lia). rewrite <- Nat2Z.inj_add.
  eexists _, (r + List.length d)%nat. split; [reflexivity|]. rewrite <- Hd.
  cbn [mBuffer]. split_and!; [|exact Hwf|exact Hb|done].
  unfold size_of. by rewrite load_ok, Ht by lia.
Qed.

Lemma toString_ok b r w :
  wf b r w ->
  exists b' r', toString b = Ret (bytes b, b') /\ wf b' r' w /\ bytes b' = [] /\
    mBuffer b' = mBuffer b.
Proof.
  intros H. unfold toString. rewrite (ReadableSize_wf b r w H). cbn [obind].
  pose proof (wf_length b r w H) as HL.
  destruct (Z.eqb_spec (Z.of_nat (w - r)) 0) as [E|E].
  - assert (bytes b = []) as Eb by (apply length_zero_iff_nil; lia).
    exists b, r. by rewrite Eb.
  - destruct (Read_ok b r w (Z.of_nat (w - r)) H ltac:(lia)) as (b' & r' & -> & Hwf & Hb & Hm).
    cbn [obind]. rewrite Nat2Z.id in *. exists b', r'.
    rewrite take_ge by lia. rewrite drop_ge in Hb by lia. done.
Qed.

(** ** [ByteArray] implements the interface *)
#[export] Instance ByteArray_queue : ByteQueue ByteArray := {|
  valid := valid_bytes;
  contents := bytes;
  capacity b := size_of (mBuffer b);
  put := Write;
  get := Read
|}.

#[export] Instance ByteArray_queue_laws : ByteQueueLaws ByteArray.
Proof.
  split; simpl.
  - intros b d (r & w & H) Hlim.
    destruct (Write_ok b r w d H Hlim) as (b' & r' & w' & ? & ? & ? & ?).
    exists b'. split_and!; [done|by exists r', w'|done|done].
  - intros b n (r & w & H) Hn.
    destruct (Read_ok b r w n H ltac:(lia)) as (b' & r' & -> & ? & ? & Hm).
    exists b'. split_and!; [done|by exists r', w|done|by rewrite Hm].
Qed.

(** ** Sequences of operations *)
Inductive op : Set :=
| OWrite (d : list ascii)
| ORead (n : Z)
| OMakeSpace (n : Z)
| OGetRead (n : Z)
| OGetWrite (n : Z)
| OToString
| OToHex
| OClear.

(** The operation on the buffer, with the bytes it gives the caller. *)
Definition step_op (b : ByteArray) (o : op) : outcome (list ascii * ByteArray) :=
  match o with
  | OWrite d => let! r := Write b d in Ret ([], snd r)
  | ORead n => let! r := Read b n in let '(_, d, b') := r in Ret (d, b')
  | OMakeSpace n => let! b' := MakeSpace b n in Ret ([], b')
  | OGetRead n =>
      let! r := GetReadBuffer b n in
      let '(_, iov, b') := r in
      let! d := load (mBuffer b') (iov_base iov) (iov_len iov) in Ret (d, b')
  | OGetWrite n => let! r := GetWriteBuffer b n in Ret ([], snd r)
  | OToString => toString b
  | OToHex => toHexString b
  | OClear => Ret ([], clear b)
  end.

Fixpoint run_ops (b : ByteArray) (os : list op) : outcome (list (list ascii) * ByteArray) :=
  match os with
  | [] => Ret ([], b)
  | o :: os' =>
      let! r := step_op b o in
      let! rs := run_ops (snd r) os' in
      Ret (fst r :: fst rs, snd rs)
  end.

(** The queue the buffer stands for. *)
Definition spec_op (q : list ascii) (o : op) : list ascii * list ascii :=
  match o with
  | OWrite d => ([], q ++ d)
  | ORead n | OGetRead n => (take (Z.to_nat n) q, drop (Z.to_nat n) q)
  | OMakeSpace _ | OGetWrite _ => ([], q)
  | OToString => (q, [])
  | OToHex => (hex_from 0 q, [])
  | OClear => ([], [])
  end.

Fixpoint spec_run (q : list ascii) (os : list op) : list (list ascii) * list ascii :=
  match os with
  | [] => ([], q)
  | o :: os' =>
      let r := spec_op q o in
      let rs := spec_run (snd r) os' in (fst r :: fst rs, snd rs)
  end.

(** What an operation may add to the buffer's size; counts are not negative. *)
Definition op_cost (o : op) : Z :=
  match o with
  | OWrite d => size_of d
  | OMakeSpace n | OGetWrite n => n
  | _ => 0
  end.
Definition op_arg_ok (o : op) : bool :=
  match o with
  | ORead n | OMakeSpace n | OGetRead n | OGetWrite n => 0 <=? n
  | _ => true
  end.
Definition ops_cost (os : list op) : Z := foldr (fun o c => op_cost o + c) 0 os.

Lemma op_cost_nonneg o : op_arg_ok o = true -> 0 <= op_cost o.
Proof. destruct o; simpl; unfold size_of; lia. Qed.

Lemma ops_cost_nonneg os : forallb op_arg_ok os = true -> 0 <= ops_cost os.
Proof.
  induction os as [|o os IH]; simpl; [lia|].
  intros [?%op_cost_nonneg ?%IH]%andb_true_iff. lia.
Qed.

Lemma step_op_refines b o :
  valid_bytes b -> op_arg_ok o = true -> size_of (mBuffer b) + op_cost o < limit ->
  exists b', step_op b o = Ret (fst (spec_op (bytes b) o), b') /\ valid_bytes b' /\
    bytes b' = snd (spec_op (bytes b) o) /\
    size_of (mBuffer b') <= size_of (mBuffer b) + op_cost o.
Proof.
  intros (r & w & H) Hok Hlim.
  destruct o as [d|n|n|n|n| | |]; cbn [step_op spec_op op_cost op_arg_ok fst snd] in *;
    bool_hyps.
  - destruct (Write_ok b r w d H Hlim) as (b' & r' & w' & -> & ? & ? & ?).
    exists b'. split_and!; [done|by exists r', w'|done|done].
  - destruct (Read_ok b r w n H ltac:(done)) as (b' & r' & -> & ? & ? & Hm).
    exists b'. rewrite Hm. split_and!; [done|by exists r', w|done|lia].
  - destruct (MakeSpace_ok b r w n H ltac:(done) Hlim) as (b' & r' & w' & -> & ? & ? & ? & ?).
    exists b'. split_and!; [done|by exists r', w'|done|done].
  - destruct (GetReadBuffer_ok b r w n H ltac:(done)) as (b' & r' & -> & Hl & ? & ? & Hm).
    cbn [obind iov_base iov_len]. rewrite Hl. cbn [obind].
    exists b'. rewrite Hm. split_and!; [done|by exists r', w|done|lia].
  - destruct (MakeSpace_ok b r w n H ltac:(done) Hlim) as (b' & r' & w' & E & H' & ? & ? & ?).
    unfold GetWriteBuffer. rewrite E. cbn [obind]. rewrite (wf_w _ _ _ H').
    exists b'. split_and!; [done|by exists r', w'|done|done].
  - destruct (toString_ok b r w H) as (b' & r' & -> & ? & ? & Hm).
    exists b'. rewrite Hm. split_and!; [done|by exists r', w|done|lia].
  - destruct (toString_ok b r w H) as (b' & r' & E & ? & ? & Hm).
    unfold toHexString. rewrite E. cbn [obind]. exists b'. rewrite Hm.
    split_and!; [done|by exists r', w|done|lia].
  - exists (clear b). split_and!; [done| |done|unfold size_of; simpl; lia].
    exists 0%nat, 0%nat. by constructor.
Qed.

(** C10: on a buffer whose indices are set, every sequence of operations
    (writes that grow or compact the buffer, reads, iovec views, [MakeSpace],
    printing, [clear]) runs without fault and gives the caller exactly the
    bytes a first-in first-out queue gives, in order and none lost, as long as
    the sizes stay below the limit. *)
Theorem run_ops_refines b os :
  valid_bytes b -> forallb op_arg_ok os = true ->
  size_of (mBuffer b) + ops_cost os < limit ->
  exists b', run_ops b os = Ret (fst (spec_run (bytes b) os), b') /\ valid_bytes b' /\
    bytes b' = snd (spec_run (bytes b) os).
Proof.
  revert b. induction os as [|o os IH]; intros b Hv Hok Hlim.
  { exists b. done. }
  simpl in Hok, Hlim. apply andb_true_iff in Hok as [Ho Hos].
  pose proof (ops_cost_nonneg os Hos).
  destruct (step_op_refines b o Hv Ho ltac:(lia)) as (b1 & E & Hv1 & Hb1 & Hs1).
  destruct (IH b1 Hv1 Hos ltac:(lia)) as (b2 & E2 & Hv2 & Hb2).
  exists b2. cbn [run_ops]. rewrite E. cbn [obind fst snd]. rewrite E2.
  cbn [obind fst snd spec_run]. by rewrite <- Hb1.
Qed.

Lemma run_ops_refines_witness :
  exists b', run_ops (clear (mkByteArray [] None None))
      [OWrite (list_ascii_of_string "hello world"); ORead 6; OMakeSpace 4096; OToString] =
    Ret ([[]; list_ascii_of_string "hello "; []; list_ascii_of_string "world"], b').
Proof.
  destruct (run_ops_refines (clear (mkByteArray [] None None))
    [OWrite (list_ascii_of_string "hello world"); ORead 6; OMakeSpace 4096; OToString])
    as (b' & E & _).
  - exists 0%nat, 0%nat. by constructor.
  - reflexivity.
  - reflexivity.
  - exists b'. exact E.
Defined.

(** A newly constructed buffer is unusable: its constructor leaves both
    indices indeterminate, so every operation except [clear] reads an
    indeterminate value. *)
Theorem fresh_ByteArray_undefined n b o :
  new_ByteArray n = Ret b -> o <> OClear -> step_op b o = Fault Undefined.
Proof.
  unfold new_ByteArray. intros H Ho. outcome_inv.
  destruct o; reflexivity || done.
Qed.

Lemma fresh_ByteArray_undefined_witness :
  exists b, new_ByteArray 16 = Ret b /\ step_op b OToString = Fault Undefined.
Proof.
  eexists. split; [reflexivity|].
  apply (fresh_ByteArray_undefined 16); [reflexivity|discriminate].
Defined.

(** ** Integers *)
(** The range of an integer type of [bytes] bytes. *)
Definition in_type (bytes : nat) (sgn : bool) (x : Z) : bool :=
  let w := 8 * Z.of_nat bytes in
  if sgn then in_int w x else (0 <=? x) && (x <? 2 ^ w).

Lemma int_value_type k sgn x :
  (0 < k)%nat -> in_type k sgn x = true ->
  (if sgn then wraps (8 * Z.of_nat k) (int_value (int_bytes k x))
   else int_value (int_bytes k x)) = x.
Proof.
  intros Hk H. rewrite int_value_bytes. unfold in_type in H. destruct sgn.
  - unfold wraps. rewrite Zmod_mod. apply wraps_small; [lia|done].
  - bool_hyps. by rewrite Z.mod_small.
Qed.

(** [WriteInt<T>] followed, on an empty buffer, by [ReadInt<T>] returns
    the integer, for every width and signedness, and empties the buffer. *)
Theorem WriteInt_ReadInt k sgn b x :
  (0 < k <= 8)%nat -> valid_bytes b -> bytes b = [] ->
  size_of (mBuffer b) + Z.of_nat k < limit -> in_type k sgn x = true ->
  exists b1 b2, WriteInt k b x = Ret b1 /\ ReadInt k sgn b1 = Ret (x, b2) /\
    bytes b2 = [].
Proof.
  intros Hk Hv He Hlim Hx.
  destruct (@put_law ByteArray ByteArray_queue _ b (int_bytes k x) Hv) as (b1 & E1 & Hv1 & Hb1 & _).
  { simpl. unfold size_of at 2. by rewrite length_int_bytes. }
  simpl in *. rewrite He in Hb1. simpl in Hb1.
  destruct (@get_law ByteArray ByteArray_queue _ b1 (Z.of_nat k) Hv1 ltac:(lia)) as (b2 & E2 & _ & Hb2 & _).
  simpl in *. rewrite Nat2Z.id, Hb1 in *.
  rewrite take_ge in E2 by (rewrite length_int_bytes; lia).
  rewrite drop_ge in Hb2 by (rewrite length_int_bytes; lia).
  exists b1, b2. unfold WriteInt, ReadInt. rewrite E1, E2. cbn [obind snd].
  unfold size_of. rewrite length_int_bytes, Z.eqb_refl.
  rewrite int_value_type by (done || lia). done.
Qed.

Lemma WriteInt_ReadInt_witness :
  exists b1 b2, WriteInt 4 (clear (mkByteArray [] None None)) (-2) = Ret b1 /\
    ReadInt 4 true b1 = Ret (-2, b2) /\ bytes b2 = [].
Proof.
  apply (WriteInt_ReadInt 4 true); [lia| |reflexivity|reflexivity|reflexivity].
  exists 0%nat, 0%nat. by constructor.
Defined.

(** ** Zigzag *)
Lemma lxor_ones w m : 0 <= w -> 0 <= m < 2 ^ w -> Z.lxor m (2 ^ w - 1) = 2 ^ w - 1 - m.
Proof.
  intros Hw Hm.
  assert (2 ^ w - 1 = Z.ones w) as -> by (rewrite Z.ones_equiv; lia).
  assert (Z.ldiff m (Z.ones w) = 0) as Hd.
  { rewrite Z.ldiff_ones_r by lia. rewrite Z.shiftr_div_pow2 by lia.
    rewrite Z.div_small by lia. apply Z.shiftl_0_l. }
  rewrite Z.sub_nocarry_ldiff by done.
  apply Z.bits_inj'. intros n Hn. rewrite Z.lxor_spec, Z.ldiff_spec.
  apply Z.bits_inj_iff in Hd. specialize (Hd n).
  rewrite Z.ldiff_spec, Z.bits_0 in Hd.
  by destruct (Z.testbit m n), (Z.testbit (Z.ones w) n).
Qed.

Lemma pow_half w : 1 < w -> 2 ^ w = 2 * 2 ^ (w - 1) /\ 2 ^ (w - 1) = 2 * 2 ^ (w - 2).
Proof.
  intros. rewrite <- !Z.pow_succ_r by lia. split; f_equal; lia.
Qed.

Lemma DecodeZigzag_even w m : 1 < w -> 0 <= m < 2 ^ (w - 1) -> DecodeZigzag w (m * 2) = m.
Proof.
  intros Hw Hm. destruct (pow_half w Hw) as [E1 E2]. unfold DecodeZigzag.
  change (Z.land (m * 2) 1) with (Z.land (m * 2) (Z.ones 1)).
  rewrite Z.land_ones, Z.shiftr_div_pow2 by lia. change (2 ^ 1) with 2.
  rewrite Z.div_mul, Z.mod_mul by lia.
  change (wrapu w (- 0)) with (wrapu w 0). rewrite (wrapu_small w 0), Z.lxor_0_r by lia.
  apply wraps_small; [lia|]. unfold in_int.
  by rewrite (proj2 (Z.leb_le _ _)), (proj2 (Z.ltb_lt _ _)) by lia.
Qed.

Lemma DecodeZigzag_odd w m :
  1 < w -> 0 <= m < 2 ^ (w - 1) -> DecodeZigzag w (1 + 2 * m) = - 1 - m.
Proof.
  intros Hw Hm. destruct (pow_half w Hw) as [E1 E2]. unfold DecodeZigzag.
  change (Z.land (1 + 2 * m) 1) with (Z.land (1 + 2 * m) (Z.ones 1)).
  rewrite Z.land_ones, Z.shiftr_div_pow2 by lia. change (2 ^ 1) with 2.
  replace ((1 + 2 * m) / 2) with m by (Z.to_euclidean_division_equations; lia).
  replace ((1 + 2 * m) mod 2) with 1 by (Z.to_euclidean_division_equations; lia).
  replace (wrapu w (- (1))) with (2 ^ w - 1).
  2: { unfold wrapu. apply Z.mod_unique_pos with (-1); lia. }
  rewrite lxor_ones by lia. replace (2 ^ w - 1 - m) with (- 1 - m + 1 * 2 ^ w) by lia.
  rewrite <- (wraps_small w (- 1 - m)) at 2; [|lia|].
  - unfold wraps. by rewrite Z_mod_plus_full.
  - unfold in_int. by rewrite (proj2 (Z.leb_le _ _)), (proj2 (Z.ltb_lt _ _)) by lia.
Qed.

(** The two branches of the encoder. *)
Lemma EncodeZigzag_spec w v :
  1 < w -> in_int w v = true ->
  EncodeZigzag w v =
    if bool_decide (2 ^ (w - 2) <= v \/ v = - 2 ^ (w - 1)) then Fault Undefined
    else Ret (if v <? 0 then 1 + 2 * (- v - 1) else v * 2).
Proof.
  intros Hw Hv. destruct (pow_half w Hw) as [E1 E2]. unfold in_int in Hv. bool_hyps.
  unfold EncodeZigzag, signed, in_int. destruct (Z.ltb_spec v 0) as [Hn|Hp].
  - rewrite (proj2 (Z.leb_le _ (- v))) by lia. cbn [andb]. case_bool_decide as Hc.
    + rewrite (proj2 (Z.ltb_ge _ _)) by lia. done.
    + rewrite (proj2 (Z.ltb_lt _ _)) by lia. cbn [obind].
      rewrite (wrapu_small w (- v)) by lia. rewrite wrapu_small by lia. f_equal. lia.
  - rewrite (proj2 (Z.leb_le _ (v * 2))) by lia. cbn [andb]. case_bool_decide as Hc.
    + rewrite (proj2 (Z.ltb_ge _ _)) by lia. done.
    + rewrite (proj2 (Z.ltb_lt _ _)) by lia. cbn [obind]. by rewrite wrapu_small by lia.
Qed.

(** Zigzag decoding inverts encoding, and encoding is undefined (signed
    overflow) exactly for the values whose double or negation does not fit:
    the upper half of the non-negative range and the least integer. *)
Theorem zigzag_round_trip w v :
  1 < w -> in_int w v = true ->
  (EncodeZigzag w v = Fault Undefined <-> 2 ^ (w - 2) <= v \/ v = - 2 ^ (w - 1)) /\
  (forall e, EncodeZigzag w v = Ret e -> DecodeZigzag w e = v).
Proof.
  intros Hw Hv. rewrite (EncodeZigzag_spec w v Hw Hv).
  destruct (pow_half w Hw) as [E1 E2]. unfold in_int in Hv. bool_hyps.
  case_bool_decide as Hc; [done|]. split; [done|]. intros e [= <-].
  destruct (Z.ltb_spec v 0).
  - rewrite DecodeZigzag_odd by lia. lia.
  - apply DecodeZigzag_even; lia.
Qed.

Lemma zigzag_round_trip_witness :
  EncodeZigzag 32 (-5) = Ret 9 /\ DecodeZigzag 32 9 = -5.
Proof.
  split; [reflexivity|].
  apply (zigzag_round_trip 32 (-5)); [lia|reflexivity|reflexivity].
Defined.
