(* ===== verification/Address.v ===== *)
(** * Byte order and addresses (src/qslary/net/Endian.h, Address.h, Address.cc)

    The byte swapping templates, the three address classes with their raw
    [sockaddr] forms, masks, printing and comparison, and the splitting of host
    names. The resolver and the interface list of the system are parameters. *)
From stdpp Require Import base list strings.
From Stdlib Require Import ZArith Ascii String Lia.
From S2P Require Import Prelude CLib.
Open Scope Z_scope.

(** ** Byte order

    [bswap_16], [bswap_32], [bswap_64] of [<byteswap.h>], and the dispatch on
    [sizeof(T)] (in bits) the templates make on a little endian target. *)
Definition bswap_16 (x : Z) : Z :=
  Z.lor (Z.land (Z.shiftr x 8) 0xff) (Z.shiftl (Z.land x 0xff) 8).
Definition bswap_32 (x : Z) : Z :=
  Z.lor (Z.lor (Z.shiftr (Z.land x 0xff000000) 24) (Z.shiftr (Z.land x 0x00ff0000) 8))
    (Z.lor (Z.shiftl (Z.land x 0x0000ff00) 8) (Z.shiftl (Z.land x 0x000000ff) 24)).
Definition bswap_64 (x : Z) : Z :=
  Z.lor (Z.shiftl (bswap_32 (Z.land x 0xffffffff)) 32)
    (bswap_32 (Z.land (Z.shiftr x 32) 0xffffffff)).

Definition byteswap (bits : Z) (x : Z) : Z :=
  if bits =? 64 then bswap_64 x
  else if bits =? 32 then bswap_32 x
  else if bits =? 16 then bswap_16 x
  else x.

Definition byteswapOnLittleEndian (bits : Z) (x : Z) : Z := byteswap bits x.
Definition byteswapOnBigEndian (bits : Z) (x : Z) : Z := x.

(** ** Masks *)

(** [CreateMask<T>(prezeroNum)]: the shift is made on an [int]. *)
Definition CreateMask (bits : Z) (prezeroNum : Z) : outcome Z :=
  let n := u64 (bits - prezeroNum) in
  if n <? 32 then
    let! m := signed 32 (i32 (Z.shiftl 1 n) - 1) in Ret (wrapu bits m)
  else Fault Undefined.

(** The loop of [CountOneNumbers<T>]; at most one iteration per bit. *)
Fixpoint count_ones_loop (fuel : nat) (value ret : Z) : option Z :=
  match fuel with
  | O => None
  | S f => if value =? 0 then Some ret
           else count_ones_loop f (Z.land value (value - 1)) (u32 (ret + 1))
  end.
Definition CountOneNumbers (bits : Z) (value : Z) : option Z :=
  count_ones_loop (S (Z.to_nat bits)) value 0.

(** ** Socket addresses *)
Definition AF_UNSPEC : Z := 0.
Definition AF_UNIX : Z := 1.
Definition AF_INET : Z := 2.
Definition AF_INET6 : Z := 10.

(** The port and the address are kept in network order, as stored. *)
Record sockaddr_in : Set := mkIn {
  sin_family : Z;
  sin_port : Z;
  s_addr : Z;
  sin_zero : Z
}.

Record sockaddr_in6 : Set := mkIn6 {
  sin6_family : Z;
  sin6_port : Z;
  sin6_flowinfo : Z;
  s6_addr : list Z;                                  (** sixteen bytes *)
  sin6_scope_id : Z
}.

(** [sun_path] has 108 bytes. *)
Record sockaddr_un : Set := mkUn {
  sun_family : Z;
  sun_path : list ascii
}.

(** A [sockaddr] a system call gives: by its family. *)
Inductive sockaddr : Set :=
| Sock_in (a : sockaddr_in)
| Sock_in6 (a : sockaddr_in6)
| Sock_other (family : Z).

Definition sa_family (a : sockaddr) : Z :=
  match a with
  | Sock_in _ => AF_INET
  | Sock_in6 _ => AF_INET6
  | Sock_other f => f
  end.

(** ** The classes *)
Inductive Address : Set :=
| IPv4Address (addr_ : sockaddr_in)
| IPv6Address (addr_ : sockaddr_in6)
| UnixAddress (addr_ : sockaddr_un) (length : Z).

Definition new_IPv4Address : Address := IPv4Address (mkIn AF_INET 0 0 0).
Definition new_IPv4Address_of (addr port : Z) : Address :=
  IPv4Address (mkIn AF_INET (byteswapOnLittleEndian 16 port)
                 (byteswapOnLittleEndian 32 addr) 0).
Definition new_IPv6Address : Address :=
  IPv6Address (mkIn6 AF_INET6 0 0 (replicate 16 0) 0).
Definition new_IPv6Address_of (addr : list Z) (port : Z) : Address :=
  IPv6Address (mkIn6 AF_INET6 (byteswapOnLittleEndian 16 port) 0 addr 0).

(** [offsetof(sockaddr_un, sun_path)], the size of [sun_path]. *)
Definition sun_path_offset : Z := 2.
Definition sun_path_size : Z := 108.
Definition MAX_PATH_LEN : Z := sun_path_size - 1.

Definition new_UnixAddress : Address :=
  UnixAddress (mkUn AF_UNIX (replicate 108 zero)) (sun_path_offset + MAX_PATH_LEN).

(** [UnixAddress(path)]: [path.c_str()] with its terminating NUL is copied,
    less that NUL for an abstract name. *)
Definition new_UnixAddress_of (path : string) : outcome Address :=
  let l := list_ascii_of_string path in
  let len := Z.of_nat (String.length path) + 1 in
  let length := match l with
                | a :: _ => if uchar a =? 0 then len - 1 else len
                | [] => len
                end in
  let! _ := cassert (length <=? sun_path_size) in
  let bytes := take (Z.to_nat length) (l ++ [zero]) in
  Ret (UnixAddress (mkUn AF_UNIX (bytes ++ replicate (108 - List.length bytes) zero))
         (length + sun_path_offset)).

Definition GetAddrLen (a : Address) : Z :=
  match a with
  | IPv4Address _ => 16
  | IPv6Address _ => 28
  | UnixAddress _ length => length
  end.

Definition GetFamily (a : Address) : Z :=
  match a with
  | IPv4Address s => sin_family s
  | IPv6Address s => sin6_family s
  | UnixAddress s _ => sun_family s
  end.

Definition GetPort (a : Address) : Z :=
  match a with
  | IPv4Address s => byteswapOnLittleEndian 16 (sin_port s)
  | IPv6Address s => byteswapOnLittleEndian 16 (sin6_port s)
  | UnixAddress _ _ => 0
  end.

Definition SetPort (a : Address) (port : Z) : Address :=
  match a with
  | IPv4Address s =>
      IPv4Address (mkIn (sin_family s) (byteswapOnLittleEndian 16 port) (s_addr s) (sin_zero s))
  | IPv6Address s =>
      IPv6Address (mkIn6 (sin6_family s) (byteswapOnLittleEndian 16 port)
                     (sin6_flowinfo s) (s6_addr s) (sin6_scope_id s))
  | UnixAddress _ _ => a
  end.

Definition setAddrlen (a : Address) (len : Z) : Address :=
  match a with
  | UnixAddress s _ => UnixAddress s len
  | _ => a
  end.

(** ** Networks *)
Definition with_addr (s : sockaddr_in) (x : Z) : Address :=
  IPv4Address (mkIn (sin_family s) (sin_port s) x (sin_zero s)).

Definition IPv4_BroadcastAddress (s : sockaddr_in) (prefix_len : Z) : outcome (option Address) :=
  if prefix_len >? 32 then Ret None
  else
    let! m := CreateMask 32 prefix_len in
    Ret (Some (with_addr s (Z.lor (s_addr s) (byteswapOnLittleEndian 32 m)))).

Definition IPv4_NetworkAddress (s : sockaddr_in) (prefix_len : Z) : outcome (option Address) :=
  if prefix_len >? 32 then Ret None
  else
    let! m := CreateMask 32 prefix_len in
    Ret (Some (with_addr s (Z.land (s_addr s) (byteswapOnLittleEndian 32 m)))).

(** The local [sockaddr_in] is not cleared: its port and padding keep the
    indeterminate values [junk_port] and [junk_zero]. *)
Definition IPv4_SubnetMask (junk_port junk_zero : Z) (prefix_len : Z) : outcome (option Address) :=
  let! m := CreateMask 32 prefix_len in
  Ret (Some (IPv4Address (mkIn AF_INET junk_port
    (u32 (Z.lnot (byteswapOnLittleEndian 32 m))) junk_zero))).

(** Reading and writing a byte of [s6_addr]; out of range is undefined. *)
Definition byte_at (l : list Z) (i : Z) : outcome Z :=
  if 0 <=? i then deref (l !! Z.to_nat i) else Fault Undefined.
Definition set_byte (l : list Z) (i : Z) (x : Z) : outcome (list Z) :=
  let! _ := byte_at l i in Ret (<[Z.to_nat i := x]> l).

(** [for (i = from; i < 16; ++i) s6_addr[i] = 0xff] and the like. *)
Definition fill_ff (from upto : nat) (l : list Z) : list Z :=
  imap (fun i x => if (from <=? i)%nat && (i <? upto)%nat then 0xff else x) l.

Definition with_addr6 (s : sockaddr_in6) (l : list Z) : Address :=
  IPv6Address (mkIn6 (sin6_family s) (sin6_port s) (sin6_flowinfo s) l (sin6_scope_id s)).

Definition IPv6_BroadcastAddress (s : sockaddr_in6) (prefix_len : Z) : outcome Address :=
  let i := prefix_len / 8 in
  let! m := CreateMask 8 (prefix_len mod 8) in
  let! x := byte_at (s6_addr s) i in
  let! l := set_byte (s6_addr s) i (Z.lor x m) in
  Ret (with_addr6 s (fill_ff (Z.to_nat i + 1) 16 l)).

Definition IPv6_NetworkAddress (s : sockaddr_in6) (prefix_len : Z) : outcome Address :=
  let i := prefix_len / 8 in
  let! m := CreateMask 8 (prefix_len mod 8) in
  let! x := byte_at (s6_addr s) i in
  let! l := set_byte (s6_addr s) i (Z.land x m) in
  Ret (with_addr6 s l).

Definition IPv6_SubnetMask (prefix_len : Z) : outcome Address :=
  let i := prefix_len / 8 in
  let! m := CreateMask 8 (prefix_len mod 8) in
  let! l := set_byte (replicate 16 0) i (u8 (Z.lnot m)) in
  Ret (IPv6Address (mkIn6 AF_INET6 0 0 (fill_ff 0 (Z.to_nat i) l) 0)).

(** ** Printing *)
Definition IPv4_Insert (s : sockaddr_in) : string :=
  let addr := byteswapOnLittleEndian 32 (s_addr s) in
  (decimal (Z.land (Z.shiftr addr 24) 0xff) ++ "." ++
   decimal (Z.land (Z.shiftr addr 16) 0xff) ++ "." ++
   decimal (Z.land (Z.shiftr addr 8) 0xff) ++ "." ++
   decimal (Z.land addr 0xff) ++ ":" ++
   decimal (byteswapOnLittleEndian 16 (sin_port s)))%string.

(** The eight 16-bit words of the address as the host reads them. *)
Fixpoint words (l : list Z) : list Z :=
  match l with
  | a :: b :: l' => a + 256 * b :: words l'
  | _ => []
  end.

(** The loop over the words; [hex] says that the stream was switched. *)
Fixpoint insert_words (prev : option Z) (used_zeros hex : bool) (l : list Z) (out : string)
    : bool * bool * string :=
  match l with
  | [] => (used_zeros, hex, out)
  | x :: l' =>
      if (x =? 0) && negb used_zeros then insert_words (Some x) used_zeros hex l' out
      else
        let skip := bool_decide (prev = Some 0) && negb used_zeros in
        insert_words (Some x) (used_zeros || skip) true l'
          (out ++ (if skip then ":" else "") ++
           hexadecimal (byteswapOnLittleEndian 16 x))%string
  end.

Definition IPv6_Insert (s : sockaddr_in6) : string :=
  let addr := words (s6_addr s) in
  let '(used_zeros, hex, out) := insert_words None false false addr "{" in
  let port := byteswapOnLittleEndian 16 (sin6_port s) in
  (out ++ (if negb used_zeros && bool_decide (addr !! 7%nat = Some 0) then "::" else "")
   ++ "]:" ++ (if hex then hexadecimal port else decimal port))%string.

Definition Unix_Insert (s : sockaddr_un) (length : Z) : string :=
  if (length >? sun_path_offset) && bool_decide (head (sun_path s) = Some zero) then
    ("\0" ++ string_of_list_ascii
       (take (Z.to_nat (length - sun_path_offset - 1)) (drop 1 (sun_path s))))%string
  else c_str (string_of_list_ascii (sun_path s)).

(** [Address::ToString] *)
Definition ToString (a : Address) : string :=
  match a with
  | IPv4Address s => IPv4_Insert s
  | IPv6Address s => IPv6_Insert s
  | UnixAddress s length => Unix_Insert s length
  end.

(** ** Comparison

    The bytes of the [sockaddr] as [memcmp] sees them. *)
Definition ubytes (k : nat) (x : Z) : list Z := map uchar (int_bytes k x).

Definition raw (a : Address) : list Z :=
  match a with
  | IPv4Address s =>
      ubytes 2 (sin_family s) ++ ubytes 2 (sin_port s) ++ ubytes 4 (s_addr s)
        ++ ubytes 8 (sin_zero s)
  | IPv6Address s =>
      ubytes 2 (sin6_family s) ++ ubytes 2 (sin6_port s) ++ ubytes 4 (sin6_flowinfo s)
        ++ s6_addr s ++ ubytes 4 (sin6_scope_id s)
  | UnixAddress s _ => ubytes 2 (sun_family s) ++ map uchar (sun_path s)
  end.

(** [memcmp(a.GetAddr(), b.GetAddr(), n)] *)
Definition memcmp_addr (a b : Address) (n : Z) : outcome Z :=
  if (n <=? Z.of_nat (List.length (raw a))) && (n <=? Z.of_nat (List.length (raw b)))
  then Ret (memcmp (take (Z.to_nat n) (raw a)) (take (Z.to_nat n) (raw b)))
  else Fault Undefined.

(** [operator<], [operator==], [operator!=] *)
Definition addr_lt (a b : Address) : outcome bool :=
  let minlen := Z.min (GetAddrLen a) (GetAddrLen b) in
  let! result := memcmp_addr a b minlen in
  if negb (result =? 0) then Ret (result <? 0)
  else Ret (GetAddrLen a <? GetAddrLen b).

Definition addr_eq (a b : Address) : outcome bool :=
  if GetAddrLen a =? GetAddrLen b then
    let! result := memcmp_addr a b (GetAddrLen a) in Ret (result =? 0)
  else Ret false.

Definition addr_ne (a b : Address) : outcome bool :=
  let! e := addr_eq a b in Ret (negb e).

(** ** Creation from system data *)

(** [IPAddress::Create(const sockaddr*, socklen_t)] *)
Definition IPAddress_Create (a : sockaddr) : option Address :=
  match a with
  | Sock_in a => Some (IPv4Address a)
  | Sock_in6 a => Some (IPv6Address a)
  | Sock_other _ => None
  end.

(** An entry of [getifaddrs]: name, address and netmask. *)
Record ifaddr : Set := mkIfaddr {
  ifa_name : string;
  ifa_addr : option sockaddr;
  ifa_netmask : option sockaddr
}.

(** [std::multimap::insert]: after the entries whose key is not greater. *)
Fixpoint multimap_insert {V} (k : string) (v : V) (m : list (string * V)) : list (string * V) :=
  match m with
  | [] => [(k, v)]
  | (k', v') :: m' =>
      if strcmp_sign k k' <? 0 then (k, v) :: (k', v') :: m'
      else (k', v') :: multimap_insert k v m'
  end.

Definition total_ones (l : list Z) : outcome Z :=
  foldr (fun x acc => let! n := acc in let! c := deref (CountOneNumbers 8 x) in
                      Ret (u32 (n + c))) (Ret 0) l.

(** One turn of the loop of the first [GetInterfaceAddresses]. *)
Definition interface_entry (family : Z) (e : ifaddr)
    (result : list (string * (Address * Z))) : outcome (list (string * (Address * Z))) :=
  let! a := deref (ifa_addr e) in
  if negb (family =? AF_UNSPEC) && negb (sa_family a =? family) then Ret result
  else
    match a with
    | Sock_in s =>
        let! mask := deref (ifa_netmask e) in
        match mask with
        | Sock_in m =>
            let! n := deref (CountOneNumbers 32 (s_addr m)) in
            Ret (multimap_insert (ifa_name e) (IPv4Address s, n) result)
        | _ => Fault Undefined
        end
    | Sock_in6 s =>
        let! mask := deref (ifa_netmask e) in
        match mask with
        | Sock_in6 m =>
            let! n := total_ones (s6_addr m) in
            Ret (multimap_insert (ifa_name e) (IPv6Address s, n) result)
        | _ => Fault Undefined
        end
    | Sock_other _ => Ret result
    end.

(** [Address::GetInterfaceAddresses] over all interfaces: [None] is a failing
    [getifaddrs]. *)
Definition GetInterfaceAddresses_all (ifs : option (list ifaddr)) (family : Z)
    : outcome (list (string * (Address * Z)) * bool) :=
  match ifs with
  | None => Fault AssertFailed
  | Some l =>
      let! result := foldl (fun acc e => let! r := acc in interface_entry family e r) (Ret []) l in
      Ret (result, negb (bool_decide (result = [])))
  end.

(** The overload for one interface name. *)
Definition GetInterfaceAddresses (ifs : option (list ifaddr)) (iface : string) (family : Z)
    : outcome (list (Address * Z) * bool) :=
  if bool_decide (iface = "" \/ iface = "*") then
    Ret ((if (family =? AF_INET) || (family =? AF_UNSPEC) then [(new_IPv4Address, 0)] else [])
         ++ (if (family =? AF_INET6) || (family =? AF_UNSPEC) then [(new_IPv6Address, 0)] else []),
         true)
  else
    let! rs := GetInterfaceAddresses_all ifs family in
    let '(results, ok) := rs in
    if negb ok then Ret ([], false)
    else
      let result := map snd (filter (fun e => e.1 = iface) results) in
      Ret (result, negb (bool_decide (result = []))).

(** ** Host names *)

(** [memchr(s + from, c, n)]: the index of the first [c] at or after [from]. *)
Fixpoint find_from (c : ascii) (i : nat) (l : list ascii) : option nat :=
  match l with
  | [] => None
  | a :: l' => if bool_decide (a = c) then Some i else find_from c (S i) l'
  end.
Definition memchr (s : list ascii) (from : nat) (c : ascii) : option nat :=
  find_from c from (drop from s).

(** The text from a position, as a C string. *)
Definition c_from (s : list ascii) (i : nat) : string :=
  c_str (string_of_list_ascii (drop i s)).

(** [hostname[0] == '['] and a closing bracket: node and service. *)
Definition split_bracket (h : list ascii) : list ascii * option string :=
  if bool_decide (head h = Some "["%char) then
    match memchr h 1 "]"%char with
    | Some e =>
        (take (e - 1) (drop 1 h),
         if bool_decide (h !! (e + 1)%nat = Some ":"%char) then Some (c_from h (e + 2)) else None)
    | None => ([], None)
    end
  else ([], None).

(** The node and the service passed to [getaddrinfo]. *)
Definition split_host (h : list ascii) : list ascii * option string :=
  let '(node, service) := split_bracket h in
  let '(node, service) :=
    (if bool_decide (node = []) then
       match memchr h 0 ":"%char with
       | Some i =>
           match memchr h (i + 1) ":"%char with
           | None => (take i h, Some (c_from h (i + 1)))
           | Some _ => (node, Some (c_from h i))
           end
       | None => (node, None)
       end
     else (node, service)) in
  (if bool_decide (node = []) then h else node, service).

Section resolver.
(** [getaddrinfo] with the given family and protocol hints: the addresses, or
    an error. *)
Context (getaddrinfo : string -> option string -> Z -> Z -> option (list sockaddr)).
(** The query for a numeric address ([AI_NUMERICHOST], no service). *)
Context (getaddrinfo_numeric : string -> option (list sockaddr)).

Fixpoint to_addresses (l : list sockaddr) : outcome (list Address) :=
  match l with
  | [] => Ret []
  | a :: l' =>
      match IPAddress_Create a with
      | Some x => let! r := to_addresses l' in Ret (x :: r)
      | None => Fault AssertFailed
      end
  end.

(** [IPAddress::HostNameToAddress]; the error path frees an uninitialised
    pointer. *)
Definition HostNameToAddress (hostname : string) (family protocol : Z)
    : outcome (list Address) :=
  let! _ := cassert (negb (bool_decide (hostname = ""%string))) in
  let '(node, service) := split_host (list_ascii_of_string hostname) in
  match getaddrinfo (c_str (string_of_list_ascii node)) service family protocol with
  | None => Fault Undefined
  | Some results => to_addresses results
  end.

(** [IPAddress::LookupAnyAddr] *)
Definition LookupAnyAddr (hostname : string) (family protocol : Z) : outcome (option Address) :=
  let! address := HostNameToAddress hostname family protocol in Ret (head address).

(** [IPAddress::Create(const char*, uint16_t)] *)
Definition IPAddress_Create_text (addr : string) (port : Z) : outcome (option Address) :=
  match getaddrinfo_numeric addr with
  | None => Ret None
  | Some results =>
      let! a := deref (head results) in
      Ret (match IPAddress_Create a with Some x => Some (SetPort x port) | None => None end)
  end.
End resolver.

(** [IPv4Address::Create(const char*, uint16_t)] and that of [IPv6Address]; what
    [inet_pton] stores for a text, in network order, or nothing when it fails. *)
Definition IPv4_Create_text (inet_pton4 : string -> option Z) (text : string) (port : Z) : outcome Address :=
  match inet_pton4 text with
  | Some a => Ret (IPv4Address (mkIn AF_INET (byteswapOnLittleEndian 16 port) a 0))
  | None => Fault AssertFailed
  end.
Definition IPv6_Create_text (inet_pton6 : string -> option (list Z)) (text : string) (port : Z) : outcome Address :=
  match inet_pton6 text with
  | Some a => Ret (IPv6Address (mkIn6 AF_INET6 (byteswapOnLittleEndian 16 port) 0 a 0))
  | None => Fault AssertFailed
  end.

(** ** Examples *)
Example print_v4 : ToString (new_IPv4Address_of 0x7f000001 8080) = "127.0.0.1:8080"%string.
Proof. vm_compute. reflexivity. Qed.
Example print_v6 :
  ToString (new_IPv6Address_of (replicate 15 0 ++ [1]) 80) = "{:1]:50"%string.
Proof. vm_compute. reflexivity. Qed.
Example split_v6 : split_host (list_ascii_of_string "[::1]:80") =
  (list_ascii_of_string "::1", Some "80"%string).
Proof. vm_compute. reflexivity. Qed.
Example split_colons : split_host (list_ascii_of_string "::1") =
  (list_ascii_of_string "::1", Some "::1"%string).
Proof. vm_compute. reflexivity. Qed.
