(* ===== verification/AddressCorrect.v ===== *)
(** * Correctness of byte order, masks and addresses *)
From stdpp Require Import base list strings.
From Stdlib Require Import ZArith Ascii String Lia Btauto.
From S2P Require Import Prelude CLib Address.
Open Scope Z_scope.

(** ** Byte swapping, bit by bit *)

(** The bit of the argument that bit [n] of the swapped [w]-bit word shows. *)
Definition swap_bit (w n : Z) : Z := w - 8 - 8 * (n / 8) + n mod 8.

Ltac bit_cases :=
  repeat match goal with
  | |- context [?a <=? ?b] => destruct (Z.leb_spec a b); try lia
  | |- context [?a <? ?b] => destruct (Z.ltb_spec a b); try lia
  end.

Lemma mask_bit k m : 0 <= k -> Z.testbit (Z.shiftl (Z.ones 8) k) m = (k <=? m) && (m <? k + 8).
Proof.
  intros Hk. destruct (Z.leb_spec 0 m).
  - rewrite Z.shiftl_spec, Z.testbit_ones by lia. bit_cases; reflexivity.
  - rewrite Z.testbit_neg_r by lia. bit_cases; reflexivity.
Qed.

Lemma bswap_32_bit x n :
  0 <= n -> Z.testbit (bswap_32 x) n = (n <? 32) && Z.testbit x (swap_bit 32 n).
Proof.
  intros Hn. unfold bswap_32, swap_bit.
  change 0xff000000 with (Z.shiftl (Z.ones 8) 24). change 0x00ff0000 with (Z.shiftl (Z.ones 8) 16).
  change 0x0000ff00 with (Z.shiftl (Z.ones 8) 8). change 0x000000ff with (Z.shiftl (Z.ones 8) 0).
  rewrite !Z.lor_spec, !Z.shiftr_spec, !(Z.shiftl_spec (Z.land _ _)), !Z.land_spec, !mask_bit by lia.
  assert (n = 8 * (n / 8) + n mod 8) as E by (apply Z.div_mod; lia).
  pose proof (Z.mod_pos_bound n 8 ltac:(lia)).
  set (q := n / 8) in *. set (r := n mod 8) in *. clearbody q r. subst n.
  bit_cases; rewrite ?andb_false_r, ?andb_true_r, ?orb_false_r; cbn [andb orb];
    try reflexivity; f_equal; lia.
Qed.

Lemma bswap_16_bit x n :
  0 <= n -> Z.testbit (bswap_16 x) n = (n <? 16) && Z.testbit x (swap_bit 16 n).
Proof.
  intros Hn. unfold bswap_16, swap_bit. change 0xff with (Z.shiftl (Z.ones 8) 0).
  rewrite !Z.lor_spec, !(Z.shiftl_spec (Z.land _ _)), !Z.land_spec, !mask_bit,
    !Z.shiftr_spec by lia.
  assert (n = 8 * (n / 8) + n mod 8) as E by (apply Z.div_mod; lia).
  pose proof (Z.mod_pos_bound n 8 ltac:(lia)).
  set (q := n / 8) in *. set (r := n mod 8) in *. clearbody q r. subst n.
  bit_cases; rewrite ?andb_false_r, ?andb_true_r, ?orb_false_r; cbn [andb orb];
    try reflexivity; f_equal; lia.
Qed.

Lemma land_ones_bit x k n :
  0 <= k -> 0 <= n -> Z.testbit (Z.land x (Z.ones k)) n = (n <? k) && Z.testbit x n.
Proof.
  intros. rewrite Z.land_spec, Z.testbit_ones, andb_comm by lia.
  by rewrite (proj2 (Z.leb_le 0 n)) by lia.
Qed.

Lemma bswap_64_bit x n :
  0 <= n -> Z.testbit (bswap_64 x) n = (n <? 64) && Z.testbit x (swap_bit 64 n).
Proof.
  intros Hn. unfold bswap_64, swap_bit. change 0xffffffff with (Z.ones 32).
  assert (n = 8 * (n / 8) + n mod 8) as E by (apply Z.div_mod; lia).
  pose proof (Z.mod_pos_bound n 8 ltac:(lia)).
  rewrite Z.lor_spec, Z.shiftl_spec by lia.
  rewrite (bswap_32_bit (Z.land (Z.shiftr x 32) _) n) by lia. unfold swap_bit.
  destruct (Z.leb_spec 32 n) as [H32|H32].
  - rewrite bswap_32_bit by lia. unfold swap_bit.
    replace ((n - 32) / 8) with (n / 8 - 4) by (Z.to_euclidean_division_equations; lia).
    replace ((n - 32) mod 8) with (n mod 8) by (Z.to_euclidean_division_equations; lia).
    set (q := n / 8) in *. set (r := n mod 8) in *. clearbody q r. subst n.
    destruct (Z.ltb_spec (8 * q + r) 64).
    + rewrite land_ones_bit by lia. bit_cases; cbn [andb orb]; rewrite ?orb_false_r; f_equal; lia.
    + bit_cases; reflexivity.
  - rewrite (Z.testbit_neg_r _ (n - 32)) by lia.
    set (q := n / 8) in *. set (r := n mod 8) in *. clearbody q r. subst n.
    rewrite land_ones_bit, Z.shiftr_spec by lia.
    bit_cases; cbn [andb orb]; f_equal; lia.
Qed.

(** The widths [byteswap] is instantiated at. *)
Definition int_width (w : Z) : bool := (w =? 16) || (w =? 32) || (w =? 64).

Lemma byteswap_bit w x n :
  int_width w = true -> 0 <= n ->
  Z.testbit (byteswap w x) n = (n <? w) && Z.testbit x (swap_bit w n).
Proof.
  unfold int_width, byteswap. intros Hw Hn.
  destruct (Z.eqb_spec w 64) as [->|]; [by apply bswap_64_bit|].
  destruct (Z.eqb_spec w 32) as [->|]; [by apply bswap_32_bit|].
  destruct (Z.eqb_spec w 16) as [->|]; [by apply bswap_16_bit|]. discriminate.
Qed.

Lemma int_width_8 w : int_width w = true -> 0 < w /\ w mod 8 = 0.
Proof.
  unfold int_width. destruct (Z.eqb_spec w 16) as [->|]; [done|].
  destruct (Z.eqb_spec w 32) as [->|]; [done|].
  destruct (Z.eqb_spec w 64) as [->|]; [done|]. discriminate.
Qed.

Lemma swap_bit_range w n :
  int_width w = true -> 0 <= n < w -> 0 <= swap_bit w n < w /\ swap_bit w (swap_bit w n) = n.
Proof.
  intros [Hw Hm]%int_width_8 Hn. unfold swap_bit.
  split; Z.to_euclidean_division_equations; lia.
Qed.

Lemma testbit_small w x n : 0 <= x < 2 ^ w -> w <= n -> Z.testbit x n = false.
Proof.
  intros Hx Hn. destruct (Z.eqb_spec x 0) as [->|]; [apply Z.bits_0|].
  apply Z.bits_above_log2; [lia|]. apply Z.log2_lt_pow2; [lia|].
  apply Z.lt_le_trans with (2 ^ w); [lia|]. apply Z.pow_le_mono_r; lia.
Qed.

(** [byteswap] is its own inverse at 16, 32 and 64 bits. *)
Lemma byteswap_involutive w x :
  int_width w = true -> 0 <= x < 2 ^ w -> byteswap w (byteswap w x) = x.
Proof.
  intros Hw Hx. apply Z.bits_inj'. intros n Hn. rewrite byteswap_bit by done.
  destruct (Z.ltb_spec n w) as [Hlt|Hge]; cbn [andb].
  - destruct (swap_bit_range w n Hw ltac:(lia)) as [Hr E].
    rewrite byteswap_bit, E by (done || lia). by rewrite (proj2 (Z.ltb_lt _ _)) by lia.
  - by rewrite (testbit_small w x n).
Qed.

Lemma byteswap_range w x : int_width w = true -> 0 <= byteswap w x < 2 ^ w.
Proof.
  intros Hw. destruct (int_width_8 w Hw) as [Hw0 _].
  assert (byteswap w x = byteswap w x mod 2 ^ w) as ->.
  { apply Z.bits_inj'. intros n Hn. rewrite Z.testbit_mod_pow2, byteswap_bit by (done || lia).
    by destruct (n <? w). }
  apply Z.mod_pos_bound. lia.
Qed.

Lemma byteswap_lor w x y :
  int_width w = true -> byteswap w (Z.lor x y) = Z.lor (byteswap w x) (byteswap w y).
Proof.
  intros Hw. apply Z.bits_inj'. intros n Hn.
  rewrite Z.lor_spec, !byteswap_bit, Z.lor_spec by done. btauto.
Qed.

Lemma byteswap_land w x y :
  int_width w = true -> byteswap w (Z.land x y) = Z.land (byteswap w x) (byteswap w y).
Proof.
  intros Hw. apply Z.bits_inj'. intros n Hn.
  rewrite Z.land_spec, !byteswap_bit, Z.land_spec by done. btauto.
Qed.

Lemma byteswap_lnot w x :
  int_width w = true -> byteswap w (wrapu w (Z.lnot x)) = wrapu w (Z.lnot (byteswap w x)).
Proof.
  intros Hw. destruct (int_width_8 w Hw) as [Hw0 _].
  apply Z.bits_inj'. intros n Hn. unfold wrapu.
  rewrite Z.testbit_mod_pow2, byteswap_bit by (done || lia).
  destruct (Z.ltb_spec n w) as [Hlt|]; cbn [andb]; [|done].
  destruct (swap_bit_range w n Hw ltac:(lia)) as [Hr _].
  rewrite Z.testbit_mod_pow2, !Z.lnot_spec, byteswap_bit by (done || lia).
  by rewrite !(proj2 (Z.ltb_lt _ _)) by lia.
Qed.

(** ** Ports *)

(** A port set on an IP address is the port read back, and setting it
    changes no other part; the constructors store the port they are given. *)
Lemma SetPort_GetPort a port addr addr6 :
  0 <= port < 2 ^ 16 -> (forall s n, a <> UnixAddress s n) ->
  GetPort (SetPort a port) = port /\
  SetPort (SetPort a port) (GetPort a) = SetPort a (GetPort a) /\
  GetFamily (SetPort a port) = GetFamily a /\
  GetPort (new_IPv4Address_of addr port) = port /\
  GetPort (new_IPv6Address_of addr6 port) = port.
Proof.
  intros Hp Ha. unfold new_IPv4Address_of, new_IPv6Address_of, byteswapOnLittleEndian.
  destruct a as [s|s|s n]; simpl; unfold byteswapOnLittleEndian;
    rewrite ?(byteswap_involutive 16 port) by done; try done.
  by destruct (Ha s n).
Qed.

(** ** IPv4 networks *)
Definition host_order (s : sockaddr_in) : Z := byteswapOnLittleEndian 32 (s_addr s).

Lemma CreateMask_32 n : 2 <= n <= 32 -> CreateMask 32 n = Ret (Z.ones (32 - n)).
Proof.
  intros Hn. unfold CreateMask. rewrite (wrapu_small 64) by lia.
  rewrite (proj2 (Z.ltb_lt _ _)) by lia. rewrite Z.shiftl_1_l.
  assert (0 < 2 ^ (32 - n) <= 2 ^ 30) as Hp.
  { split; [lia|]. apply Z.pow_le_mono_r; lia. }
  assert (in_int 32 (2 ^ (32 - n)) = true) as Hi.
  { unfold in_int. rewrite (proj2 (Z.leb_le _ _)), (proj2 (Z.ltb_lt _ _)) by lia. done. }
  rewrite wraps_small by (done || lia). unfold signed.
  assert (in_int 32 (2 ^ (32 - n) - 1) = true) as ->.
  { unfold in_int. rewrite (proj2 (Z.leb_le _ _)), (proj2 (Z.ltb_lt _ _)) by lia. done. }
  cbn [obind]. rewrite wrapu_small by lia. by rewrite Z.ones_equiv.
Qed.

Lemma ones_lt_bit k n : 0 <= k -> 0 <= n -> Z.testbit (Z.ones k) n = (n <? k).
Proof. intros. rewrite Z.testbit_ones by lia. by rewrite (proj2 (Z.leb_le 0 n)) by lia. Qed.

(** The mask read in host order after it was stored in network order. *)
Lemma stored_mask n : 2 <= n <= 32 ->
  byteswap 32 (byteswap 32 (Z.ones (32 - n))) = Z.ones (32 - n).
Proof.
  intros Hn. apply byteswap_involutive; [done|]. rewrite Z.ones_equiv.
  assert (0 < 2 ^ (32 - n) <= 2 ^ 30); [|lia].
  split; [lia|]. apply Z.pow_le_mono_r; lia.
Qed.

(** For a prefix length from 2 to 32 the broadcast address keeps the
    network bits and sets every host bit, and the subnet mask has exactly the
    network bits; both keep the other fields or set the family. *)
Theorem IPv4_broadcast_and_mask s n jp jz :
  2 <= n <= 32 ->
  exists b m, IPv4_BroadcastAddress s n = Ret (Some (IPv4Address b)) /\
    IPv4_SubnetMask jp jz n = Ret (Some (IPv4Address m)) /\
    sin_port b = sin_port s /\ sin_family b = sin_family s /\ sin_family m = AF_INET /\
    forall i, 0 <= i < 32 ->
      Z.testbit (host_order b) i = (i <? 32 - n) || Z.testbit (host_order s) i /\
      Z.testbit (host_order m) i = negb (i <? 32 - n).
Proof.
  intros Hn. unfold IPv4_BroadcastAddress, IPv4_SubnetMask.
  rewrite CreateMask_32 by done. rewrite Z.gtb_ltb, (proj2 (Z.ltb_ge _ _)) by lia.
  cbn [obind]. unfold with_addr, byteswapOnLittleEndian.
  do 2 eexists. split_and!; [reflexivity|reflexivity|done|done|done|].
  intros i Hi. unfold host_order, byteswapOnLittleEndian. cbn [s_addr].
  rewrite byteswap_lor, byteswap_lnot, stored_mask by done. unfold wrapu.
  rewrite Z.lor_spec, Z.testbit_mod_pow2, Z.lnot_spec, ones_lt_bit by lia.
  rewrite (proj2 (Z.ltb_lt i 32)) by lia. split; [apply orb_comm|done].
Qed.

Lemma IPv4_broadcast_and_mask_witness :
  exists b, IPv4_BroadcastAddress (mkIn AF_INET 0 (byteswap 32 0xc0a80117) 0) 24 =
    Ret (Some (IPv4Address b)) /\ host_order b = 0xc0a801ff.
Proof.
  destruct (IPv4_broadcast_and_mask (mkIn AF_INET 0 (byteswap 32 0xc0a80117) 0) 24 0 0)
    as (b & m & E & _); [lia|].
  exists b. split; [exact E|]. vm_compute in E. injection E as <-. reflexivity.
Defined.

(** [NetworkAddress] keeps the host part and clears the network part: its
    result is the address modulo [2 ^ (32 - prefix_len)], because the mask it
    applies is the host mask and not its complement. *)
Theorem IPv4_NetworkAddress_keeps_host s n :
  2 <= n <= 32 -> 0 <= host_order s ->
  exists b, IPv4_NetworkAddress s n = Ret (Some (IPv4Address b)) /\
    host_order b = host_order s mod 2 ^ (32 - n).
Proof.
  intros Hn Hs. unfold IPv4_NetworkAddress.
  rewrite CreateMask_32 by done. rewrite Z.gtb_ltb, (proj2 (Z.ltb_ge _ _)) by lia.
  cbn [obind]. unfold with_addr, byteswapOnLittleEndian. eexists. split; [reflexivity|].
  unfold host_order, byteswapOnLittleEndian. cbn [s_addr].
  rewrite byteswap_land, stored_mask by done. apply Z.land_ones. lia.
Qed.

Lemma IPv4_NetworkAddress_keeps_host_witness :
  exists b, IPv4_NetworkAddress (mkIn AF_INET 0 (byteswap 32 0xc0a80117) 0) 24 =
    Ret (Some (IPv4Address b)) /\ host_order b = 0x17.
Proof.
  apply (IPv4_NetworkAddress_keeps_host (mkIn AF_INET 0 (byteswap 32 0xc0a80117) 0) 24);
    [lia|]. vm_compute. discriminate.
Defined.

(** ** Counting bits *)

(** The number of ones in the binary notation. *)
Fixpoint pos_ones (p : positive) : Z :=
  match p with
  | xH => 1
  | xO p' => pos_ones p'
  | xI p' => 1 + pos_ones p'
  end.
Definition ones_of (x : Z) : Z := match x with Zpos p => pos_ones p | _ => 0 end.

Lemma pos_ones_bounds p : 1 <= pos_ones p <= Z.of_nat (Pos.size_nat p).
Proof. induction p; simpl; lia. Qed.

Lemma ones_of_double x : ones_of (2 * x) = ones_of x.
Proof. by destruct x. Qed.

(** Clearing the lowest one. *)
Lemma clear_lowest p : 0 <= Z.land (Zpos p) (Zpos p - 1) /\
  ones_of (Z.land (Zpos p) (Zpos p - 1)) = pos_ones p - 1.
Proof.
  induction p as [p IH|p IH|]; [| |done].
  - replace (Zpos p~1 - 1) with (2 * Zpos p) by lia.
    replace (Z.land (Zpos p~1) (2 * Zpos p)) with (2 * Zpos p).
    + rewrite ones_of_double. simpl. lia.
    + rewrite (Pos2Z.inj_xI p). symmetry. apply Z.bits_inj'. intros n Hn.
      rewrite Z.land_spec. destruct (Z.eqb_spec n 0) as [->|].
      * rewrite Z.testbit_odd_0, Z.testbit_even_0. done.
      * replace n with (Z.succ (n - 1)) by lia.
        rewrite Z.testbit_odd_succ, Z.testbit_even_succ by lia. apply andb_diag.
  - replace (Z.land (Zpos p~0) (Zpos p~0 - 1)) with (2 * Z.land (Zpos p) (Zpos p - 1)).
    + rewrite ones_of_double. simpl pos_ones. lia.
    + rewrite (Pos2Z.inj_xO p). replace (2 * Zpos p - 1) with (2 * (Zpos p - 1) + 1) by lia.
      apply Z.bits_inj'. intros n Hn.
      rewrite Z.land_spec. destruct (Z.eqb_spec n 0) as [->|].
      * by rewrite Z.testbit_odd_0, !Z.testbit_even_0.
      * replace n with (Z.succ (n - 1)) by lia.
        by rewrite Z.testbit_odd_succ, !Z.testbit_even_succ, Z.land_spec by lia.
Qed.

Lemma count_ones_loop_spec fuel x ret :
  0 <= x -> ones_of x < Z.of_nat fuel -> 0 <= ret -> ret + ones_of x < 2 ^ 32 ->
  count_ones_loop fuel x ret = Some (ret + ones_of x).
Proof.
  revert x ret. induction fuel as [|f IH]; intros x ret Hx Hf Hr Hs.
  { destruct x; simpl in Hf; [lia| |lia]. pose proof (pos_ones_bounds p). lia. }
  cbn [count_ones_loop]. destruct x as [|p|]; [|simpl Z.eqb; cbn iota|lia].
  { simpl. f_equal. lia. }
  destruct (clear_lowest p) as [H0 H1]. pose proof (pos_ones_bounds p). cbn [ones_of] in *.
  rewrite (wrapu_small 32) by lia. rewrite IH by lia. f_equal. lia.
Qed.

Lemma ones_of_bound w x : 0 <= w -> 0 <= x < 2 ^ w -> 0 <= ones_of x <= w.
Proof.
  intros Hw Hx. destruct x as [|p|]; simpl; [lia| |lia].
  pose proof (pos_ones_bounds p). split; [lia|].
  assert (Z.of_nat (Pos.size_nat p) = Z.succ (Z.log2 (Zpos p))) as E.
  { assert (forall q, Z.of_nat (Pos.size_nat q) = Zpos (Pos.size q)) as Hq.
    { intros q. induction q; simpl Pos.size_nat; simpl Pos.size; lia. }
    rewrite Hq. destruct p; simpl; lia. }
  rewrite E in *. assert (Z.log2 (Zpos p) < w); [|lia]. apply Z.log2_lt_pow2; lia.
Qed.

Lemma SubnetMask_ones n :
  2 <= n <= 32 ->
  CountOneNumbers 32 (u32 (Z.lnot (byteswap 32 (Z.ones (32 - n))))) = Some n.
Proof.
  intros Hn.
  apply (Forall_range (fun n => CountOneNumbers 32
    (u32 (Z.lnot (byteswap 32 (Z.ones (32 - n))))) = Some n) 2 31); [|lia].
  repeat constructor.
Qed.

(** [CountOneNumbers] terminates and returns the number of ones of its
    argument: the loop that clears the lowest one per turn counts bits, and
    the prefix length of a mask [SubnetMask] made is the one it was made for. *)
Theorem CountOneNumbers_correct w x :
  0 <= w < 2 ^ 32 -> 0 <= x < 2 ^ w ->
  CountOneNumbers w x = Some (ones_of x) /\
  (forall jp jz n m, 2 <= n <= 32 ->
     IPv4_SubnetMask jp jz n = Ret (Some (IPv4Address m)) ->
     CountOneNumbers 32 (s_addr m) = Some n).
Proof.
  intros Hw Hx. destruct (ones_of_bound w x ltac:(lia) Hx). split.
  - unfold CountOneNumbers. rewrite count_ones_loop_spec; [done|lia|lia|lia|lia].
  - intros jp jz n m Hn. unfold IPv4_SubnetMask. rewrite CreateMask_32 by done.
    cbn [obind]. intros [= <-]. by apply SubnetMask_ones.
Qed.

Lemma CountOneNumbers_correct_witness : CountOneNumbers 32 0xffffff = Some 24.
Proof.
  destruct (CountOneNumbers_correct 32 0xffffff) as [H _]; [lia|lia|exact H].
Defined.

(** ** IPv6 networks *)

(** Bit [j] of an address counted from its first byte's high bit. *)
Definition bit6 (l : list Z) (j : Z) : bool :=
  Z.testbit (default 0 (l !! Z.to_nat (j / 8))) (7 - j mod 8).

Lemma CreateMask_8 r : 0 <= r < 8 -> CreateMask 8 r = Ret (Z.ones (8 - r)).
Proof.
  intros Hr. apply (Forall_range (fun r => CreateMask 8 r = Ret (Z.ones (8 - r))) 0 8); [|lia].
  repeat constructor.
Qed.

Lemma byte_at_lookup l i x : 0 <= i -> l !! Z.to_nat i = Some x -> byte_at l i = Ret x.
Proof. intros Hi Hx. unfold byte_at. rewrite (proj2 (Z.leb_le _ _)), Hx by lia. done. Qed.

Lemma fill_ff_lookup a b l i :
  fill_ff a b l !! i =
  (fun x => if (a <=? i)%nat && (i <? b)%nat then 0xff else x) <$> l !! i.
Proof. apply list_lookup_imap. Qed.

(** The byte and the bit of a position, and how a prefix length compares. *)
Lemma position_cases n j :
  0 <= n -> 0 <= j ->
  (j / 8 < n / 8 /\ j < n) \/ (n / 8 < j / 8 /\ n <= j) \/
  (j / 8 = n / 8 /\ (n <= j <-> n mod 8 <= j mod 8)).
Proof. intros. Z.to_euclidean_division_equations; lia. Qed.

Lemma high_ones_bit r k :
  0 <= r < 8 -> 0 <= k < 8 -> Z.testbit (Z.ones (8 - r)) (7 - k) = (r <=? k).
Proof. intros. rewrite ones_lt_bit by lia. bit_cases; reflexivity. Qed.

Lemma ff_bit k : 0 <= k < 8 -> Z.testbit 0xff (7 - k) = true.
Proof. intros. change 0xff with (Z.ones 8). rewrite ones_lt_bit by lia. apply Z.ltb_lt. lia. Qed.

Lemma broadcast_bits l n x j :
  0 <= n < 128 -> List.length l = 16%nat -> l !! Z.to_nat (n / 8) = Some x -> 0 <= j < 128 ->
  bit6 (fill_ff (Z.to_nat (n / 8) + 1) 16
          (<[Z.to_nat (n / 8) := Z.lor x (Z.ones (8 - n mod 8))]> l)) j =
  (n <=? j) || bit6 l j.
Proof.
  intros Hn Hl Hx Hj. unfold bit6. rewrite fill_ff_lookup.
  pose proof (Z.mod_pos_bound n 8 ltac:(lia)). pose proof (Z.mod_pos_bound j 8 ltac:(lia)).
  pose proof (Z.div_pos n 8 ltac:(lia) ltac:(lia)). pose proof (Z.div_pos j 8 ltac:(lia) ltac:(lia)).
  assert (j / 8 < 16) by (apply Z.div_lt_upper_bound; lia).
  destruct (position_cases n j) as [[Hd Hlt]|[[Hd Hlt]|[Hd Hlt]]]; [lia|lia| | |].
  - rewrite list_lookup_insert_ne by lia. rewrite (proj2 (Nat.leb_gt _ _)) by lia.
    rewrite (proj2 (Z.leb_gt n j)) by lia. cbn [andb orb]. by destruct (l !! Z.to_nat (j / 8)).
  - rewrite list_lookup_insert_ne by lia.
    destruct (lookup_lt_is_Some_2 l (Z.to_nat (j / 8))) as [y Hy]; [lia|]. rewrite Hy. simpl.
    rewrite (proj2 (Nat.leb_le _ _)), (proj2 (Nat.ltb_lt _ _)) by lia. cbn [andb].
    rewrite ff_bit, (proj2 (Z.leb_le n j)) by lia. done.
  - rewrite Hd, list_lookup_insert_eq, Hx by lia. simpl.
    rewrite (proj2 (Nat.leb_gt _ _)) by lia. cbn [andb].
    rewrite Z.lor_spec, high_ones_bit, orb_comm by lia. f_equal.
    destruct (Z.leb_spec n j), (Z.leb_spec (n mod 8) (j mod 8)); lia || done.
Qed.

Lemma mask6_bits n j :
  0 <= n < 128 -> 0 <= j < 128 ->
  bit6 (fill_ff 0 (Z.to_nat (n / 8))
          (<[Z.to_nat (n / 8) := u8 (Z.lnot (Z.ones (8 - n mod 8)))]> (replicate 16 0))) j = (j <? n).
Proof.
  intros Hn Hj. unfold bit6. rewrite fill_ff_lookup.
  pose proof (Z.mod_pos_bound n 8 ltac:(lia)). pose proof (Z.mod_pos_bound j 8 ltac:(lia)).
  pose proof (Z.div_pos n 8 ltac:(lia) ltac:(lia)). pose proof (Z.div_pos j 8 ltac:(lia) ltac:(lia)).
  assert (n / 8 < 16) by (apply Z.div_lt_upper_bound; lia).
  assert (j / 8 < 16) by (apply Z.div_lt_upper_bound; lia).
  assert (forall i, (i < 16)%nat -> replicate 16 0 !! i = Some 0) as Hrep
    by (intros i Hi; by apply lookup_replicate_2).
  destruct (position_cases n j) as [[Hd Hlt]|[[Hd Hlt]|[Hd Hlt]]]; [lia|lia| | |].
  - rewrite list_lookup_insert_ne, Hrep by lia. simpl.
    rewrite (proj2 (Nat.ltb_lt _ _)) by lia. rewrite ff_bit, (proj2 (Z.ltb_lt j n)) by lia. done.
  - rewrite list_lookup_insert_ne, Hrep by lia. simpl.
    rewrite (proj2 (Nat.ltb_ge _ _)), Z.bits_0, (proj2 (Z.ltb_ge j n)) by lia. done.
  - rewrite Hd, list_lookup_insert_eq by (simpl; lia).
    unfold fmap, option_fmap, option_map. cbv beta iota.
    rewrite (proj2 (Nat.ltb_ge _ _)), andb_false_r by lia.
    unfold default, from_option, id, wrapu. cbv beta iota.
    rewrite Z.testbit_mod_pow2, Z.lnot_spec, high_ones_bit by lia.
    rewrite (proj2 (Z.ltb_lt _ 8)) by lia.
    destruct (Z.ltb_spec j n), (Z.leb_spec (n mod 8) (j mod 8)); lia || done.
Qed.

(** For a prefix length below 128 the IPv6 broadcast address keeps the
    first [prefix_len] bits and sets all others, and the subnet mask has
    exactly the first [prefix_len] bits; from 128 on both write past the end
    of the address. *)
Theorem IPv6_broadcast_and_mask s n :
  List.length (s6_addr s) = 16%nat -> 0 <= n ->
  (n < 128 ->
   exists b m, IPv6_BroadcastAddress s n = Ret (IPv6Address b) /\
     IPv6_SubnetMask n = Ret (IPv6Address m) /\
     forall j, 0 <= j < 128 ->
       bit6 (s6_addr b) j = (n <=? j) || bit6 (s6_addr s) j /\
       bit6 (s6_addr m) j = (j <? n)) /\
  (128 <= n -> IPv6_BroadcastAddress s n = Fault Undefined /\
               IPv6_SubnetMask n = Fault Undefined).
Proof.
  intros Hl Hn. pose proof (Z.mod_pos_bound n 8 ltac:(lia)).
  pose proof (Z.div_pos n 8 ltac:(lia) ltac:(lia)).
  unfold IPv6_BroadcastAddress, IPv6_SubnetMask, set_byte. rewrite !CreateMask_8 by lia.
  cbn [obind]. split; intros Hlt.
  - assert (n / 8 < 16) by (apply Z.div_lt_upper_bound; lia).
    destruct (lookup_lt_is_Some_2 (s6_addr s) (Z.to_nat (n / 8))) as [x Hx]; [lia|].
    rewrite (byte_at_lookup _ _ x) by (done || lia). cbn [obind].
    rewrite (byte_at_lookup (replicate 16 0) _ 0) by (lia || (apply lookup_replicate_2; lia)).
    cbn [obind]. unfold with_addr6. do 2 eexists. split_and!; [reflexivity|reflexivity|].
    intros j Hj. cbn [s6_addr]. split; [by apply broadcast_bits|by apply mask6_bits].
  - assert (16 <= n / 8) by (apply Z.div_le_lower_bound; lia).
    unfold byte_at. rewrite (proj2 (Z.leb_le _ _)) by lia.
    by rewrite !lookup_ge_None_2 by (simpl; lia).
Qed.

Lemma IPv6_broadcast_and_mask_witness :
  IPv6_SubnetMask 128 = Fault Undefined /\
  exists m, IPv6_SubnetMask 9 = Ret (IPv6Address m) /\ bit6 (s6_addr m) 8 = true.
Proof.
  assert (List.length (s6_addr (mkIn6 AF_INET6 0 0 (replicate 16 0) 0)) = 16%nat) as Hl by reflexivity.
  split.
  - apply (IPv6_broadcast_and_mask _ 128 Hl); lia.
  - destruct (IPv6_broadcast_and_mask _ 9 Hl) as [H _]; [lia|].
    destruct H as (b & m & _ & E & H); [lia|]. exists m. split; [exact E|].
    destruct (H 8) as [_ H8]; [lia|exact H8].
Defined.

(** ** Order *)

(** The bytes that [operator<] and [operator==] look at. *)
Definition key (a : Address) : list Z := take (Z.to_nat (GetAddrLen a)) (raw a).

(** The length is within the object. *)
Definition addr_ok (a : Address) : bool :=
  (0 <=? GetAddrLen a) && (GetAddrLen a <=? Z.of_nat (List.length (raw a))).

(** Lexicographic order. *)
Fixpoint lex_lt (l k : list Z) : bool :=
  match l, k with
  | [], [] => false
  | [], _ :: _ => true
  | _ :: _, [] => false
  | a :: l', b :: k' => (a <? b) || ((a =? b) && lex_lt l' k')
  end.

Lemma lex_irrefl l : lex_lt l l = false.
Proof. induction l as [|a l IH]; simpl; [done|]. by rewrite Z.ltb_irrefl, Z.eqb_refl, IH. Qed.

Lemma lex_trans l k m : lex_lt l k = true -> lex_lt k m = true -> lex_lt l m = true.
Proof.
  revert k m. induction l as [|a l IH]; intros [|b k] [|c m]; simpl; try done.
  rewrite !orb_true_iff, !andb_true_iff, !Z.ltb_lt, !Z.eqb_eq.
  intros [?|[-> ?]] [?|[-> ?]]; [left; lia|by left|by left|].
  right. split; [done|]. by apply (IH k).
Qed.

Lemma lex_total l k : lex_lt l k = false -> lex_lt k l = false -> l = k.
Proof.
  revert k. induction l as [|a l IH]; intros [|b k]; simpl; try done.
  rewrite !orb_false_iff, !andb_false_iff, !Z.ltb_ge, !Z.eqb_neq.
  intros [? H1] [? H2]. assert (a = b) as -> by lia.
  f_equal. destruct H1, H2; done || auto.
Qed.

Lemma lex_asym l k : lex_lt l k = true -> lex_lt k l = false.
Proof.
  intros H. destruct (lex_lt k l) eqn:E; [|done].
  by rewrite <- (lex_irrefl l), (lex_trans l k l).
Qed.

(** [memcmp] on the common prefix and then the length is that order. *)
Lemma memcmp_lex l k :
  let n := Nat.min (List.length l) (List.length k) in
  let c := memcmp (take n l) (take n k) in
  (if negb (c =? 0) then c <? 0 else (List.length l <? List.length k)%nat) = lex_lt l k.
Proof.
  revert k. induction l as [|a l IH]; intros [|b k]; try done. simpl.
  destruct (Z.ltb_spec a b); [done|]. destruct (Z.ltb_spec b a).
  - simpl. by rewrite (proj2 (Z.eqb_neq a b)) by lia.
  - rewrite (proj2 (Z.eqb_eq a b)) by lia. simpl. apply IH.
Qed.

Lemma memcmp_eq l k : List.length l = List.length k -> memcmp l k = 0 <-> l = k.
Proof.
  revert k. induction l as [|a l IH]; intros [|b k]; simpl; try done.
  intros [= Hlen]. specialize (IH k Hlen).
  destruct (Z.ltb_spec a b); [split; [done|intros [=]; lia]|].
  destruct (Z.ltb_spec b a); [split; [done|intros [=]; lia]|].
  rewrite IH. split; [intros ->; f_equal; lia|by intros [=]].
Qed.

Lemma key_length a : addr_ok a = true -> Z.of_nat (List.length (key a)) = GetAddrLen a.
Proof. unfold addr_ok, key. intros. bool_hyps. rewrite length_take. lia. Qed.

Lemma addr_lt_lex a b :
  addr_ok a = true -> addr_ok b = true -> addr_lt a b = Ret (lex_lt (key a) (key b)).
Proof.
  intros Ha Hb. pose proof (key_length a Ha) as La. pose proof (key_length b Hb) as Lb.
  rewrite <- memcmp_lex. unfold addr_lt, memcmp_addr, addr_ok, key in *. bool_hyps.
  rewrite !(proj2 (Z.leb_le _ _)) by lia. cbn [andb obind].
  rewrite !take_take. rewrite length_take in *. rewrite length_take in *.
  replace (Nat.min (Nat.min (Nat.min (Z.to_nat (GetAddrLen a)) (List.length (raw a)))
             (Nat.min (Z.to_nat (GetAddrLen b)) (List.length (raw b)))) (Z.to_nat (GetAddrLen a)))
    with (Z.to_nat (Z.min (GetAddrLen a) (GetAddrLen b))) by lia.
  replace (Nat.min (Nat.min (Nat.min (Z.to_nat (GetAddrLen a)) (List.length (raw a)))
             (Nat.min (Z.to_nat (GetAddrLen b)) (List.length (raw b)))) (Z.to_nat (GetAddrLen b)))
    with (Z.to_nat (Z.min (GetAddrLen a) (GetAddrLen b))) by lia.
  destruct (negb _); [done|]. f_equal.
  destruct (Nat.ltb_spec (Nat.min (Z.to_nat (GetAddrLen a)) (List.length (raw a)))
              (Nat.min (Z.to_nat (GetAddrLen b)) (List.length (raw b))));
    [apply Z.ltb_lt|apply Z.ltb_ge]; lia.
Qed.

Lemma addr_eq_key a b :
  addr_ok a = true -> addr_ok b = true -> addr_eq a b = Ret (bool_decide (key a = key b)).
Proof.
  intros Ha Hb. pose proof (key_length a Ha) as La. pose proof (key_length b Hb) as Lb.
  unfold addr_eq. destruct (Z.eqb_spec (GetAddrLen a) (GetAddrLen b)) as [E|E].
  - unfold memcmp_addr, addr_ok, key in *. bool_hyps.
    rewrite !(proj2 (Z.leb_le _ _)) by lia. cbn [andb obind]. f_equal.
    rewrite <- E in *. apply Bool.eq_true_iff_eq.
    rewrite Z.eqb_eq, bool_decide_eq_true. apply memcmp_eq. lia.
  - f_equal. symmetry. apply bool_decide_eq_false. intros Hk. rewrite Hk in La. lia.
Qed.

(** On addresses whose length lies within their object, [operator<] is a
    strict total order with [operator==] as its equality: irreflexive,
    transitive, and exactly one of [a < b], [a == b], [b < a] holds, so the
    addresses can be keys of ordered containers. *)
Theorem addr_order a b c :
  addr_ok a = true -> addr_ok b = true -> addr_ok c = true ->
  addr_lt a a = Ret false /\
  (addr_lt a b = Ret true -> addr_lt b c = Ret true -> addr_lt a c = Ret true) /\
  exists x y z, addr_lt a b = Ret x /\ addr_eq a b = Ret y /\ addr_lt b a = Ret z /\
    (if x then negb y && negb z else if y then negb z else z) = true /\
    addr_ne a b = Ret (negb y).
Proof.
  intros Ha Hb Hc. rewrite !addr_lt_lex by done. unfold addr_ne. rewrite addr_eq_key by done.
  split_and!.
  - by rewrite lex_irrefl.
  - intros [= H1] [= H2]. f_equal. by apply (lex_trans _ (key b)).
  - do 3 eexists. split_and!; [reflexivity|reflexivity|reflexivity| |reflexivity].
    destruct (lex_lt (key a) (key b)) eqn:E1.
    + rewrite (lex_asym _ _ E1), bool_decide_eq_false_2; [done|].
      intros E. rewrite E, lex_irrefl in E1. done.
    + case_bool_decide as E; [by rewrite E, lex_irrefl|].
      destruct (lex_lt (key b) (key a)) eqn:E2; [done|]. by destruct (E (lex_total _ _ E1 E2)).
Qed.

Lemma addr_order_witness : addr_lt new_IPv4Address new_IPv4Address = Ret false.
Proof. apply (addr_order new_IPv4Address new_IPv6Address new_UnixAddress); reflexivity. Defined.

(** ** Host names *)
Lemma find_from_app c i a b : c ∉ a -> find_from c i (a ++ c :: b) = Some (i + List.length a)%nat.
Proof.
  revert i. induction a as [|x a IH]; intros i Hc; simpl.
  - rewrite bool_decide_eq_true_2 by done. f_equal. lia.
  - apply not_elem_of_cons in Hc as [Hx Hc]. rewrite bool_decide_eq_false_2 by done.
    rewrite IH by done. f_equal. lia.
Qed.

Lemma find_from_none c i a : c ∉ a -> find_from c i a = None.
Proof.
  revert i. induction a as [|x a IH]; intros i Hc; simpl; [done|].
  apply not_elem_of_cons in Hc as [Hx Hc]. rewrite bool_decide_eq_false_2 by done. auto.
Qed.

Lemma find_from_some c i a : c ∈ a -> exists j, find_from c i a = Some j.
Proof.
  revert i. induction a as [|x a IH]; intros i Hc; simpl; [by apply not_elem_of_nil in Hc|].
  case_bool_decide as E; [eauto|]. apply elem_of_cons in Hc as [->|Hc]; [done|auto].
Qed.

Lemma c_from_app l k : c_from (l ++ k) (List.length l) = c_str (string_of_list_ascii k).
Proof. unfold c_from. by rewrite drop_app_length. Qed.

Lemma split_bracket_other h : head h <> Some "["%char -> split_bracket h = ([], None).
Proof. intros H. unfold split_bracket. by rewrite bool_decide_eq_false_2. Qed.

Lemma split_bracket_form node rest :
  "]"%char ∉ node ->
  split_bracket ("["%char :: node ++ "]"%char :: rest) =
  (node, if bool_decide (head rest = Some ":"%char)
         then Some (c_str (string_of_list_ascii (drop 1 rest))) else None).
Proof.
  intros Hn. unfold split_bracket. rewrite bool_decide_eq_true_2 by done.
  unfold memchr. simpl drop. rewrite drop_0, find_from_app by done.
  replace (1 + List.length node - 1)%nat with (List.length node) by lia.
  rewrite take_app_length. f_equal.
  replace (1 + List.length node + 1)%nat with (S (S (List.length node))) by lia.
  change (("["%char :: node ++ "]"%char :: rest) !! S (S (List.length node)))
    with ((node ++ "]"%char :: rest) !! S (List.length node)).
  rewrite lookup_app_r by lia.
  replace (S (List.length node) - List.length node)%nat with 1%nat by lia.
  assert (("]"%char :: rest) !! 1%nat = head rest) as -> by (by destruct rest).
  case_bool_decide as Hr; [|done]. destruct rest as [|x rest]; [done|]. do 2 f_equal.
  unfold c_from. simpl.
  do 2 f_equal. rewrite drop_app_ge by lia.
  by replace (List.length node + 2 - List.length node)%nat with 2%nat by lia.
Qed.

(** The forms a host name has are split as documented: [host] and
    [host:service], and a bracketed IPv6 literal with or without [:service]. *)
Theorem split_host_forms node svc :
  node <> [] ->
  (head node <> Some "["%char -> ":"%char ∉ node ->
     split_host node = (node, None) /\
     (":"%char ∉ svc ->
      split_host (node ++ ":"%char :: svc) = (node, Some (c_str (string_of_list_ascii svc))))) /\
  ("]"%char ∉ node ->
     split_host ("["%char :: node ++ ["]"%char]) = (node, None) /\
     split_host ("["%char :: node ++ "]"%char :: ":"%char :: svc) =
       (node, Some (c_str (string_of_list_ascii svc)))).
Proof.
  intros Hne. split.
  - intros Hh Hc. split; [|intros Hs]; unfold split_host, memchr.
    + rewrite split_bracket_other by done. simpl. rewrite drop_0, find_from_none by done. done.
    + rewrite split_bracket_other by (by destruct node). simpl.
      rewrite drop_0, find_from_app by done. simpl.
      rewrite drop_app_ge by lia. replace (List.length node + 1 - List.length node)%nat with 1%nat by lia.
      simpl. rewrite drop_0, find_from_none by done.
      rewrite take_app_length, bool_decide_eq_false_2 by done. do 2 f_equal.
      unfold c_from. rewrite drop_app_ge by lia.
      by replace (List.length node + 1 - List.length node)%nat with 1%nat by lia.
  - intros Hc. unfold split_host. rewrite !split_bracket_form by done. simpl.
    by rewrite !bool_decide_eq_false_2 by done.
Qed.

Lemma split_host_forms_witness :
  split_host (list_ascii_of_string "www.sylar.top:80") =
  (list_ascii_of_string "www.sylar.top", Some "80"%string).
Proof.
  destruct (split_host_forms (list_ascii_of_string "www.sylar.top") (list_ascii_of_string "80"))
    as [H _]; [discriminate|].
  destruct H as [_ H]; [discriminate|by apply (bool_decide_unpack _)|].
  apply H. by apply (bool_decide_unpack _).
Defined.

(** A host name with two or more colons outside brackets, such as an
    IPv6 literal, is passed to the resolver whole but with a service that
    starts at the first colon, not with a null service. *)
Theorem split_host_stray_service a b :
  head (a ++ [":"%char]) <> Some "["%char -> ":"%char ∉ a -> ":"%char ∈ b ->
  split_host (a ++ ":"%char :: b) =
  (a ++ ":"%char :: b, Some (c_str (string_of_list_ascii (":"%char :: b)))).
Proof.
  intros Hh Ha Hb. unfold split_host, memchr.
  rewrite split_bracket_other by (by destruct a). simpl.
  rewrite drop_0, find_from_app by done. simpl.
  rewrite drop_app_ge by lia. replace (List.length a + 1 - List.length a)%nat with 1%nat by lia.
  simpl. rewrite drop_0. destruct (find_from_some ":"%char (List.length a + 1) b Hb) as [j ->].
  simpl. by rewrite c_from_app.
Qed.

Lemma split_host_stray_service_witness :
  split_host (list_ascii_of_string "fe80::1") =
  (list_ascii_of_string "fe80::1", Some "::1"%string).
Proof.
  apply (split_host_stray_service (list_ascii_of_string "fe80") (list_ascii_of_string ":1")).
  - discriminate.
  - by apply (bool_decide_unpack _).
  - by apply (bool_decide_unpack _).
Defined.
