(* ===== verification/UriAddress.v ===== *)
(** * From a URI to an address (src/qslary/net/uri.cc, URI::createAddress)

    The one place where the URI and the address components meet: the host is
    resolved, and the URI's port, or its scheme's default, is set on the first
    address. [getaddrinfo] is a parameter. *)
From stdpp Require Import base list strings.
From Stdlib Require Import ZArith Ascii String Lia.
From S2P Require Import Prelude CLib Address AddressCorrect Uri.
Open Scope Z_scope.

Section create.
Context (getaddrinfo : string -> option string -> Z -> Z -> option (list sockaddr)).

(** [URI::createAddress]; [SetPort] takes a [uint16_t]. *)
Definition createAddress (u : URI) : outcome (option Address) :=
  let! addr := HostNameToAddress getaddrinfo (host_ u) AF_UNSPEC 0 in
  match addr with
  | a :: _ => Ret (Some (Address.SetPort a (u16 (Uri.GetPort u))))
  | [] => Ret None
  end.

(** What the resolver is asked for a host. *)
Definition resolve (host : string) : option (list sockaddr) :=
  let '(node, service) := split_host (list_ascii_of_string host) in
  getaddrinfo (c_str (string_of_list_ascii node)) service AF_UNSPEC 0.

Definition is_ip (a : sockaddr) : Prop :=
  match a with Sock_other _ => False | _ => True end.

Lemma to_addresses_ip l : Forall is_ip l ->
  exists r, to_addresses l = Ret r /\ Forall2 (fun s a => IPAddress_Create s = Some a) l r.
Proof.
  induction 1 as [|a l Ha _ (r & IH & Hr)]; [by exists []|]. cbn [to_addresses].
  destruct a as [a|a|a]; cbn in *; rewrite ?IH; cbn; try done;
    (eexists; split; [done|]; by constructor).
Qed.

Lemma HostNameToAddress_resolve host : host <> ""%string ->
  HostNameToAddress getaddrinfo host AF_UNSPEC 0 =
    match resolve host with None => Fault Undefined | Some l => to_addresses l end.
Proof.
  intros Hh. unfold HostNameToAddress, resolve. rewrite bool_decide_eq_false_2 by done. cbn [negb cassert obind].
  by destruct (split_host (list_ascii_of_string host)).
Qed.

(** The address made of a URI is the first one its host resolves to, with
    the URI's port, or 80 or 443 by its scheme when it has none; an empty host
    fails the resolver's assertion, a host that resolves to nothing gives no
    address, and one that cannot be resolved runs into undefined behaviour. *)
Theorem createAddress_correct u :
  (host_ u = ""%string -> createAddress u = Fault AssertFailed) /\
  (host_ u <> ""%string ->
     match resolve (host_ u) with
     | None => createAddress u = Fault Undefined
     | Some [] => createAddress u = Ret None
     | Some (s :: l) =>
         Forall is_ip (s :: l) ->
         exists a a', IPAddress_Create s = Some a /\ createAddress u = Ret (Some a') /\
           Address.GetPort a' = u16 (Uri.GetPort u) /\ Address.GetFamily a' = Address.GetFamily a /\
           Address.SetPort a' (Address.GetPort a) = Address.SetPort a (Address.GetPort a)
     end).
Proof.
  split.
  - intros Hh. unfold createAddress, HostNameToAddress. by rewrite Hh.
  - intros Hh. unfold createAddress. rewrite HostNameToAddress_resolve by done.
    destruct (resolve (host_ u)) as [[|s l]|]; [done| |done].
    intros Hip. destruct (to_addresses_ip _ Hip) as (r & -> & Hr). inversion Hr as [|? a ? r' Ha Hr']; subst.
    cbn [obind]. exists a. eexists. split; [done|]. split; [done|].
    assert (forall t n, a <> UnixAddress t n) as Hu by (intros t n ->; by destruct s).
    assert (0 <= u16 (Uri.GetPort u) < 2 ^ 16) as Hp by (apply Z.mod_pos_bound; lia).
    destruct (SetPort_GetPort a (u16 (Uri.GetPort u)) 0 [] Hp Hu) as (A & B & C & _). done.
Qed.
End create.

Lemma createAddress_correct_witness :
  exists a, createAddress (fun _ _ _ _ => Some [Sock_in (mkIn AF_INET 0 0 0)])
      (mkURI "http" "" "localhost" "" "" "" 0) = Ret (Some a) /\ Address.GetPort a = 80.
Proof.
  destruct (createAddress_correct (fun _ _ _ _ => Some [Sock_in (mkIn AF_INET 0 0 0)])
    (mkURI "http" "" "localhost" "" "" "" 0)) as [_ H].
  destruct (H ltac:(discriminate)) as (_ & a & _ & E & P & _); [by repeat constructor|].
  exists a. exact (conj E P).
Defined.
