(* ===== verification/CurrentThread.v ===== *)
(** * The current thread, exceptions and small utilities
      (src/qslary/base/CurrentThread.h, CurrentThread.cc, Thread.cc, Exception.h,
      Exception.cc, Atomic.h, util.cc)

    What a thread keeps about itself, the name it goes by while its function runs,
    how stack traces are put together, atomic integers and the clock. *)
From stdpp Require Import base list strings.
From Stdlib Require Import ZArith Lia Ascii String.
From S2P Require Import Prelude CLib.
Open Scope Z_scope.

(** ** The identifier of a thread *)

(** The variables that are [__thread] *)
Record thread_locals : Type := mkLocals {
  t_cachedTid : Z;
  t_tidString : string;
  t_tidStringLength : Z;
  t_threadName : string
}.
Definition new_locals : thread_locals := mkLocals 0 "" 6 "unknown".

(** [snprintf(buf, 32, "%5d ", n)]: what it writes and what it returns *)
Definition tid_text (n : Z) : string := (padded false 5 n ++ " ")%string.
Definition cacheTid (gettid : Z) (t : thread_locals) : thread_locals :=
  if t_cachedTid t =? 0 then
    mkLocals gettid (substring 0 31 (tid_text gettid)) (Z.of_nat (String.length (tid_text gettid))) (t_threadName t)
  else t.
Definition tid (gettid : Z) (t : thread_locals) : Z * thread_locals :=
  let t := if t_cachedTid t =? 0 then cacheTid gettid t else t in (t_cachedTid t, t).
Definition isMainThread (gettid getpid : Z) (t : thread_locals) : bool * thread_locals :=
  let '(n, t) := tid gettid t in (n =? getpid, t).

(** [ThreadNameInitializer] in the first thread, and [afterFork] in a child *)
Definition ThreadNameInitializer (gettid : Z) (t : thread_locals) : thread_locals :=
  (tid gettid (mkLocals (t_cachedTid t) (t_tidString t) (t_tidStringLength t) "main")).2.
Definition afterFork (gettid : Z) (t : thread_locals) : thread_locals :=
  (tid gettid (mkLocals 0 (t_tidString t) (t_tidStringLength t) "main")).2.

(** What happens in a thread: it asks who it is, or it forks and the child, which
    the system calls [child], goes on. The answers are collected. *)
Inductive tid_event : Set := AskTid | AskMain | ForkTo (child : Z).
Fixpoint tid_run (gettid : Z) (t : thread_locals) (l : list tid_event) : list (Z * Z) * (Z * thread_locals) :=
  match l with
  | [] => ([], (gettid, t))
  | AskTid :: l =>
      let '(n, t) := tid gettid t in let '(a, r) := tid_run gettid t l in ((gettid, n) :: a, r)
  | AskMain :: l => let '(_, t) := isMainThread gettid gettid t in tid_run gettid t l
  | ForkTo child :: l => tid_run child (afterFork child t) l
  end.

(** What is cached is the thread's. *)
Definition locals_ok (gettid : Z) (t : thread_locals) : Prop :=
  t_cachedTid t = 0 \/
  t_cachedTid t = gettid /\ t_tidString t = substring 0 31 (tid_text gettid) /\
  t_tidStringLength t = Z.of_nat (String.length (tid_text gettid)).

Lemma tid_ok gettid t :
  gettid <> 0 -> locals_ok gettid t ->
  (tid gettid t).1 = gettid /\ locals_ok gettid (tid gettid t).2 /\ t_cachedTid (tid gettid t).2 = gettid.
Proof.
  intros Hg Ht. unfold tid, cacheTid. destruct (Z.eqb_spec (t_cachedTid t) 0) as [E|E]; cbn.
  - split_and!; try done. by right.
  - destruct Ht as [?|(Hc & Ht)]; [done|]. split_and!; try done. by right.
Qed.

(** A thread is always told the identifier the system has for it, however
    often it asks and forks, and when it has asked, its identifier as text is there
    too: the cache is filled once, and emptied in a child. *)
Theorem tid_is_gettid gettid l :
  gettid <> 0 -> Forall (fun e => match e with ForkTo child => child <> 0 | _ => True end) l ->
  let '(answers, (now, t)) := tid_run gettid new_locals (l ++ [AskTid]) in
  Forall (fun a => a.1 = a.2) answers /\ t_cachedTid t = now /\ t_tidString t = substring 0 31 (tid_text now).
Proof.
  intros Hg Hl. assert (locals_ok gettid new_locals) as Ht by (by left). revert gettid Hg Ht. generalize new_locals.
  induction Hl as [|e l He Hl IH]; intros t gettid Hg Ht; cbn [app tid_run].
  - destruct (tid_ok gettid t Hg Ht) as (H1 & H2 & H3). destruct (tid gettid t) as [n t'] eqn:E. cbn in *.
    destruct H2 as [H2|(_ & H2 & _)]; [congruence|]. split_and!; [by repeat constructor|done|done].
  - destruct e as [| |child].
    + destruct (tid_ok gettid t Hg Ht) as (H1 & H2 & _). destruct (tid gettid t) as [n t'] eqn:E. cbn in *.
      specialize (IH t' gettid Hg H2). destruct (tid_run _ _ _) as [a [now t2]]. destruct IH as [IH1 IH2].
      split; [|done]. by constructor.
    + unfold isMainThread. destruct (tid_ok gettid t Hg Ht) as (_ & H2 & _). destruct (tid gettid t) as [n t'] eqn:E.
      by apply IH.
    + apply IH; [done|]. by apply tid_ok; [|left].
Qed.

Lemma tid_is_gettid_witness :
  let '(answers, (now, t)) := tid_run 41 new_locals ([AskMain; AskTid; ForkTo 12345678; AskTid] ++ [AskTid]) in
  Forall (fun a => a.1 = a.2) answers /\ t_cachedTid t = now /\ t_tidString t = substring 0 31 (tid_text now).
Proof. apply tid_is_gettid; [lia|]. repeat (apply Forall_cons_2; [lia || done|]). apply Forall_nil_2. Defined.

Example tid_text_example : tid_text 41 = "   41 "%string.
Proof. reflexivity. Qed.

(** ** The function of a thread

    How the function may end, and what [runInThread] makes of it: the name the
    thread is left with, and whether the process goes on. [Exception] derives from
    [std::exception] privately, so the second handler is not for it. *)
Inductive func_end : Set := Returns | ThrowsException | ThrowsStd | ThrowsOther.
Inductive process_end : Set := GoesOn | Aborts | Terminates.
Definition thread_names (name_ : string) (t : thread_locals) : thread_locals :=
  mkLocals (t_cachedTid t) (t_tidString t) (t_tidStringLength t)
    (match name_ with EmptyString => "qslary thread" | _ => c_str name_ end).
Definition run_func (func_ : thread_locals -> func_end * thread_locals) (name_ : string) (t : thread_locals) :
    process_end * thread_locals :=
  let '(r, t) := func_ (thread_names name_ t) in
  let named n := mkLocals (t_cachedTid t) (t_tidString t) (t_tidStringLength t) n in
  match r with
  | Returns => (GoesOn, named "finished"%string)
  | ThrowsException | ThrowsStd => (Aborts, named "crashed"%string)
  | ThrowsOther => (Terminates, named "crashed"%string)
  end.

(** ** Stack traces

    What backtrace_symbols gives and what the demangler makes of a name are
    parameters. *)
Section trace.
Context (demangler : string -> option string).

(** Where a character is for the last time *)
Fixpoint last_index (c : ascii) (s : string) : option nat :=
  match s with
  | EmptyString => None
  | String a s =>
      match last_index c s with
      | Some n => Some (S n)
      | None => if Ascii.eqb a c then Some O else None
      end
  end.
Definition from (n : nat) (s : string) : string := substring n (String.length s - n) s.

(** The name that the demangler reads: it ends at the [+] if that is behind it. *)
Definition frame_line (demangle : bool) (s : string) : string :=
  (match (if demangle then last_index "(" s else None), last_index "+" s with
   | Some left_par, Some plus =>
       let name := if (left_par <? plus)%nat then substring (S left_par) (plus - S left_par) s else from (S left_par) s in
       match demangler name with
       | Some d => substring 0 (S left_par) s ++ d ++ from plus s
       | None => s
       end
   | _, _ => s
   end ++ String "010" "")%string.
Definition stackTrace (demangle : bool) (symbols : option (list string)) : string :=
  match symbols with
  | Some l => foldl (fun stack s => (stack ++ frame_line demangle s)%string) ""%string (tail l)
  | None => ""%string
  end.

(** [Exception] *)
Record Exception : Type := mkException { m_message : string; m_stack : string }.
Definition new_Exception (msg : string) (symbols : option (list string)) : Exception :=
  mkException msg (stackTrace true symbols).
Definition what (e : Exception) : string := c_str (m_message e).

Fixpoint lacks (c : ascii) (s : string) : bool :=
  match s with EmptyString => true | String a s => negb (Ascii.eqb a c) && lacks c s end.

Lemma last_index_lacks c s : lacks c s = true -> last_index c s = None.
Proof. induction s as [|a s IH]; cbn; [done|]. intros [Ha%negb_true_iff Hs]%andb_true_iff. by rewrite IH, Ha. Qed.

Lemma last_index_app c s t : lacks c t = true -> last_index c (s ++ String c t) = Some (String.length s).
Proof.
  intros Ht. induction s as [|a s IH].
  - change (last_index c (String c t) = Some 0%nat). cbn. by rewrite last_index_lacks, Ascii.eqb_refl.
  - change (match last_index c (s ++ String c t) with Some n => Some (S n) | None => if Ascii.eqb a c then Some O else None end
      = Some (S (String.length s))). by rewrite IH.
Qed.

Lemma lacks_app c s t : lacks c (s ++ t) = lacks c s && lacks c t.
Proof.
  induction s as [|a s IH]; [done|].
  change (negb (Ascii.eqb a c) && lacks c (s ++ t) = negb (Ascii.eqb a c) && lacks c s && lacks c t).
  by rewrite IH, andb_assoc.
Qed.

Lemma from_app s t : from (String.length s) (s ++ t) = t.
Proof.
  unfold from. rewrite substring_app_l, length_app_string.
  replace (String.length s + String.length t - String.length s)%nat with (String.length t) by lia. apply substring_all.
Qed.

(** A line of a stack trace, object file, mangled name in parentheses with an
    offset, is shown with its name demangled and all else as it was, or as it is
    when the name has no other form. *)
Theorem frame_line_demangles file name rest :
  lacks "(" name = true -> lacks "(" rest = true -> lacks "+" rest = true ->
  frame_line true (file ++ "(" ++ name ++ "+" ++ rest) =
    (file ++ "(" ++ default name (demangler name) ++ "+" ++ rest ++ String "010" "")%string.
Proof.
  intros Hn Hr Hp. set (l := (file ++ "(")%string).
  assert (file ++ "(" ++ name ++ "+" ++ rest = l ++ name ++ String "+" rest)%string as ->.
  { unfold l. by rewrite <- app_assoc_string. }
  assert (String.length l = S (String.length file)) as Hl by (unfold l; rewrite length_app_string; cbn; lia).
  assert (last_index "(" (l ++ name ++ String "+" rest) = Some (String.length file)) as Eleft.
  { unfold l. rewrite <- app_assoc_string. apply last_index_app. by rewrite lacks_app, Hn. }
  assert (last_index "+" (l ++ name ++ String "+" rest) = Some (String.length (l ++ name))) as Eplus.
  { rewrite app_assoc_string. by apply last_index_app. }
  unfold frame_line. rewrite Eleft, Eplus. rewrite length_app_string.
  destruct (Nat.ltb_spec (String.length file) (String.length l + String.length name)) as [_|H]; [|lia].
  rewrite <- Hl, substring_app_l, substring_take.
  replace (String.length l + String.length name - String.length l)%nat with (String.length name) by lia.
  rewrite substring_take. destruct (demangler name) as [d|]; cbn [default].
  - assert (from (String.length l + String.length name) (l ++ name ++ String "+" rest) = String "+" rest) as ->.
    { rewrite <- length_app_string, app_assoc_string. apply from_app. }
    unfold l. by rewrite <- !app_assoc_string.
  - unfold l. by rewrite <- !app_assoc_string.
Qed.
End trace.

Lemma frame_line_demangles_witness :
  frame_line (fun s => if (s =? "_ZN3Bar4testEv")%string then Some "Bar::test()"%string else None) true
    ("bin/exception_test" ++ "(" ++ "_ZN3Bar4testEv" ++ "+" ++ "0x79) [0x401909]") =
    ("bin/exception_test" ++ "(" ++ "Bar::test()" ++ "+" ++ "0x79) [0x401909]" ++ String "010" "")%string.
Proof.
  exact (frame_line_demangles (fun s => if (s =? "_ZN3Bar4testEv")%string then Some "Bar::test()"%string else None)
    "bin/exception_test" "_ZN3Bar4testEv" "0x79) [0x401909]" eq_refl eq_refl eq_refl).
Defined.

(** ** Atomic integers

    What [AtomicIntegerT] returns and leaves, for an integer of [w] bits. *)
Section atomic.
Context (w : Z).
Definition atomic_get (value_ : Z) : Z * Z := (value_, if value_ =? 0 then 0 else value_).
Definition getAndAdd (x value_ : Z) : Z * Z := (value_, wraps w (value_ + x)).
Definition addAndGet (x value_ : Z) : outcome (Z * Z) :=
  let '(old, value_) := getAndAdd x value_ in let! n := signed w (old + x) in Ret (n, value_).
Definition decrementAndGet (value_ : Z) : outcome (Z * Z) := addAndGet (-1) value_.
Definition getAndSet (newValue value_ : Z) : Z * Z := (value_, newValue).

(** What [addAndGet] returns is what it leaves, or its sum overflows. *)
Lemma addAndGet_returns x value_ :
  1 <= w -> addAndGet x value_ = (if in_int w (value_ + x) then Ret (value_ + x, value_ + x) else Fault Undefined).
Proof.
  intros Hw. unfold addAndGet, getAndAdd, signed. destruct (in_int w (value_ + x)) eqn:E; [|done].
  cbn [obind]. by rewrite wraps_small.
Qed.
End atomic.

(** ** The clock

    [GetCurrentMs] and [GetCurrentUs] of the seconds and microseconds that
    gettimeofday gave; before the year 292000000 their sums fit in 64 bits. *)
Definition GetCurrentMs (tv : Z * Z) : Z := u64 (tv.1 * 1000 + tv.2).
Definition GetCurrentUs (tv : Z * Z) : Z := u64 (tv.2 * 1000 * 1000 + tv.2 * 1000).

(** The clock that times out pooled connections runs backwards: it adds
    microseconds to milliseconds, so up to 998 seconds after the end of a second it
    shows less than at the end; the clock in microseconds forgets the seconds. *)
Theorem GetCurrentMs_runs_back sec d usec :
  0 <= sec < 2 ^ 50 -> 1 <= d <= 998 ->
  GetCurrentMs (sec + d, 0) < GetCurrentMs (sec, 999999) /\ GetCurrentUs (sec, usec) = GetCurrentUs (sec + d, usec).
Proof. intros Hs Hd. split; [|done]. unfold GetCurrentMs, wrapu. cbn. rewrite !Z.mod_small by lia. lia. Qed.

Lemma GetCurrentMs_runs_back_witness :
  GetCurrentMs (1000 + 3, 0) < GetCurrentMs (1000, 999999) /\ GetCurrentUs (1000, 7) = GetCurrentUs (1000 + 3, 7).
Proof. apply GetCurrentMs_runs_back; lia. Defined.
