(* ===== verification/Monitor.v ===== *)
(** * Mutexes and conditions (src/qslary/base/Mutex.h, Condition.h)

    [MutexLock] with the holder it notes beside the pthread mutex,
    [MutexLockGuard], and [Condition], as the turns of threads that use one of
    each. A thread makes calls, which mean: do something without the mutex, or
    under a [MutexLockGuard] wait in a loop for a predicate, or change the data the
    mutex protects and notify. A turn is what a thread does between two points
    where another may go on. *)
From stdpp Require Import base list relations.
From Stdlib Require Import ZArith Lia.
From S2P Require Import Prelude CLib.
Open Scope Z_scope.

(** [notify] and [notifyAll], or neither *)
Inductive notice : Set := Silent | Notify | NotifyAll.

Section monitor.
Context {X Y C : Type}.

(** What a call means: [X] is the data under the mutex, [Y] what is used without
    it. *)
Inductive action : Type :=
| Act (f : Y -> Y)                                    (** something without the mutex *)
| WaitUntil (p : X -> bool)                           (** [while (!p) cond.wait()] *)
| Update (f : X -> outcome X) (n : X -> notice).      (** and a notice that the new data decide *)

(** Where in its first call a thread is. *)
Inductive place : Set :=
| Outside                                             (** in front of [pthread_mutex_lock] *)
| Locked                                              (** behind it, in front of [assignHolder] *)
| Inside                                              (** in the block of the guard *)
| Noticing (n : notice)                               (** in front of the notice *)
| Unguarded                                           (** behind [unassignHolder] in [wait] *)
| Sleeping                                            (** in [pthread_cond_wait] *)
| Woken                                               (** in it, about to take the mutex *)
| Returned                                            (** behind it, in front of [assignHolder] *)
| Leaving                                             (** in the destructor of the guard *)
| Unassigned.                                         (** behind [unassignHolder] in [unlock] *)

Record thread : Type := mkThread { calls : list C; place_ : place }.

Record monitor : Type := mkMonitor {
  owner : option nat;                                 (** who has the pthread mutex *)
  m_holder : Z;                                       (** [pid_t], 0 for nobody *)
  guarded : X;
  free : Y;
  threads : list thread
}.

Context (meaning : C -> action).
Implicit Types (s : monitor) (th : thread) (t c : nat).

(** The thread identifier of the operating system *)
Definition tid (t : nat) : Z := Z.of_nat t + 1.
(** [isLockedByThisThread] *)
Definition isLockedByThisThread s t : bool := m_holder s =? tid t.

Definition go s t (p : place) : list thread :=
  alter (fun th => mkThread (calls th) p) t (threads s).

(** Waking: all threads in [pthread_cond_wait], or the one [c]; [None] when the
    choice is not one the operating system can make. *)
Definition wake th : thread := mkThread (calls th) (match place_ th with Sleeping => Woken | p => p end).
Definition asleep th : bool := match place_ th with Sleeping => true | _ => false end.
Definition notify (n : notice) c (l : list thread) : option (list thread) :=
  match n with
  | Silent => Some l
  | NotifyAll => Some (map wake l)
  | Notify =>
      if existsb asleep l then
        match l !! c with
        | Some th => if asleep th then Some (alter wake c l) else None
        | None => None
        end
      else Some l
  end.

(** What the thread's first call means. *)
Definition current th : option action := meaning <$> head (calls th).

(** The turn of the thread [t]; [c] is whom a [notify] wakes. [None]: it is
    blocked or has ended. *)
Definition turn t c s : outcome (option monitor) :=
  match threads s !! t with
  | None => Ret None
  | Some th =>
      let move p := Ret (Some (mkMonitor (owner s) (m_holder s) (guarded s) (free s) (go s t p))) in
      let next l := alter (fun th => mkThread (tail (calls th)) Outside) t l in
      match place_ th, current th with
      | Outside, None => Ret None
      | Outside, Some (Act f) =>
          Ret (Some (mkMonitor (owner s) (m_holder s) (guarded s) (f (free s)) (next (threads s))))
      | Outside, Some _ | Woken, _ =>
          match owner s with
          | None => Ret (Some (mkMonitor (Some t) (m_holder s) (guarded s) (free s)
                      (go s t (match place_ th with Woken => Returned | _ => Locked end))))
          | Some _ => Ret None
          end
      | Locked, _ | Returned, _ =>
          Ret (Some (mkMonitor (owner s) (tid t) (guarded s) (free s) (go s t Inside)))
      | Inside, Some (WaitUntil p) =>
          if p (guarded s) then move Leaving
          else Ret (Some (mkMonitor (owner s) 0 (guarded s) (free s) (go s t Unguarded)))
      | Inside, Some (Update f n) =>
          let! x := f (guarded s) in
          Ret (Some (mkMonitor (owner s) (m_holder s) x (free s) (go s t (Noticing (n x)))))
      | Inside, _ => Ret None
      | Noticing n, _ =>
          match notify n c (threads s) with
          | Some l => Ret (Some (mkMonitor (owner s) (m_holder s) (guarded s) (free s)
                        (alter (fun th => mkThread (calls th) Leaving) t l)))
          | None => Ret None
          end
      | Unguarded, _ => Ret (Some (mkMonitor None (m_holder s) (guarded s) (free s) (go s t Sleeping)))
      | Sleeping, _ => Ret None
      | Leaving, _ => Ret (Some (mkMonitor (owner s) 0 (guarded s) (free s) (go s t Unassigned)))
      | Unassigned, _ =>
          Ret (Some (mkMonitor None (m_holder s) (guarded s) (free s) (next (threads s))))
      end
  end.

(** The threads in any order, without and with the wake-ups without a reason
    that pthread_cond_wait permits. *)
Definition sched s s' : Prop := exists t c, turn t c s = Ret (Some s').
Inductive step s : monitor -> Prop :=
| step_turn s' : sched s s' -> step s s'
| step_spurious t th :
    threads s !! t = Some th -> place_ th = Sleeping ->
    step s (mkMonitor (owner s) (m_holder s) (guarded s) (free s) (go s t Woken)).

Definition new_monitor (x : X) (y : Y) (programs : list (list C)) : monitor :=
  mkMonitor None 0 x y (map (fun cs => mkThread cs Outside) programs).
Definition reachable x y programs : monitor -> Prop := rtc step (new_monitor x y programs).

(** Turns by a schedule: who takes one, and whom it wakes. *)
Fixpoint run (schedule : list (nat * nat)) s : option monitor :=
  match schedule with
  | [] => Some s
  | (t, c) :: schedule =>
      match turn t c s with
      | Ret (Some s') => run schedule s'
      | _ => None
      end
  end.

Lemma run_reaches schedule s s' : run schedule s = Some s' -> rtc step s s'.
Proof.
  revert s. induction schedule as [|[t c] schedule IH]; cbn; intros s H; [by injection H as ->|].
  destruct (turn t c s) as [[s1|]|] eqn:E; try done.
  apply rtc_l with s1; [|by apply IH]. apply step_turn. by exists t, c.
Qed.

(** ** What holds of every program *)

(** The places where the mutex is the thread's, and where it is noted. *)
Definition holding (p : place) : bool :=
  match p with Outside | Sleeping | Woken => false | _ => true end.
Definition named (p : place) : bool :=
  match p with Inside | Noticing _ | Leaving => true | _ => false end.

(** The call a place is in. *)
Definition in_call (cs : list C) (p : place) : Prop :=
  match p, meaning <$> head cs with
  | Outside, _ => True
  | (Locked | Inside | Leaving | Unassigned), Some (WaitUntil _ | Update _ _) => True
  | Noticing _, Some (Update _ _) => True
  | (Unguarded | Sleeping | Woken | Returned), Some (WaitUntil _) => True
  | _, _ => False
  end.

Record sound s : Prop := {
  sound_owner t th : threads s !! t = Some th -> holding (place_ th) = true -> owner s = Some t;
  sound_holding t : owner s = Some t -> exists th, threads s !! t = Some th /\ holding (place_ th) = true /\
    m_holder s = (if named (place_ th) then tid t else 0);
  sound_free : owner s = None -> m_holder s = 0;
  sound_calls t th : threads s !! t = Some th -> in_call (calls th) (place_ th)
}.

Lemma new_monitor_sound x y programs : sound (new_monitor x y programs).
Proof.
  split; cbn; [|done|done|]; intros t th H; apply list_lookup_fmap_Some_1 in H as (cs & -> & _); done.
Qed.

Lemma wake_places th : holding (place_ (wake th)) = holding (place_ th).
Proof. by destruct th as [cs []]. Qed.
Lemma wake_calls th : in_call (calls th) (place_ th) -> in_call (calls (wake th)) (place_ (wake th)).
Proof. by destruct th as [cs []]. Qed.

(** What the turn of one thread may do to another: wake it. *)
Definition left_alone th th' : Prop := th' = th \/ th' = wake th.
Definition others t (l l' : list thread) : Prop :=
  forall u, u <> t ->
    match l !! u, l' !! u with
    | Some th, Some th' => left_alone th th'
    | None, None => True
    | _, _ => False
    end.

Lemma others_alter t f l : others t l (alter f t l).
Proof. intros u Hu. rewrite list_lookup_alter_ne by done. destruct (l !! u); [by left|done]. Qed.

Lemma others_insert t th l : others t l (<[t := th]> l).
Proof. intros u Hu. rewrite list_lookup_insert_ne by done. destruct (l !! u); [by left|done]. Qed.

Lemma notify_others n c l l' t : notify n c l = Some l' -> others t l l'.
Proof.
  intros H u Hu. destruct n; cbn [notify] in H.
  - injection H as <-. destruct (l !! u); [by left|done].
  - destruct (existsb asleep l); [|injection H as <-; destruct (l !! u); [by left|done]].
    destruct (l !! c) as [th|] eqn:Ec; [|done]. destruct (asleep th); [|done]. injection H as <-.
    destruct (decide (u = c)) as [->|Hc].
    + rewrite list_lookup_alter_eq, Ec. by right.
    + rewrite list_lookup_alter_ne by done. destruct (l !! u); [by left|done].
  - injection H as <-. change (map wake l) with (wake <$> l). rewrite list_lookup_fmap.
    destruct (l !! u); [by right|done].
Qed.

(** The thread that notifies is not asleep, so it does not wake itself. *)
Lemma notify_self n c l l' t th :
  notify n c l = Some l' -> l !! t = Some th -> asleep th = false -> l' !! t = Some th.
Proof.
  intros H Ht Ha. assert (wake th = th) as Hw by (destruct th as [cs []]; done).
  destruct n; cbn [notify] in H.
  - by injection H as <-.
  - destruct (existsb asleep l); [|by injection H as <-].
    destruct (l !! c) as [thc|] eqn:Ec; [|done]. destruct (asleep thc) eqn:Eac; [|done]. injection H as <-.
    destruct (decide (t = c)) as [->|Hc]; [congruence|by rewrite list_lookup_alter_ne].
  - injection H as <-. change (map wake l) with (wake <$> l). rewrite list_lookup_fmap, Ht. cbn. by rewrite Hw.
Qed.

(** One thread goes from [th] to [th']; it may take or give up the mutex. *)
Lemma sound_turn s s' t th th' :
  sound s -> threads s !! t = Some th -> threads s' !! t = Some th' -> others t (threads s) (threads s') ->
  in_call (calls th') (place_ th') ->
  (holding (place_ th') = true -> holding (place_ th) = true \/ owner s = None) ->
  owner s' = (if holding (place_ th') then Some t else if holding (place_ th) then None else owner s) ->
  m_holder s' = (if holding (place_ th') then if named (place_ th') then tid t else 0
                 else if holding (place_ th) then 0 else m_holder s) ->
  sound s'.
Proof.
  intros [Ho Hh Hf Hc] Ht Ht' Hoth Hcall Hacq Eo Em.
  assert (forall u thu', u <> t -> threads s' !! u = Some thu' -> exists thu, threads s !! u = Some thu /\
    left_alone thu thu') as Hback.
  { intros u thu' Hu E. specialize (Hoth u Hu). rewrite E in Hoth.
    destruct (threads s !! u) as [thu|]; [by exists thu|done]. }
  assert (forall u thu thu', u <> t -> threads s !! u = Some thu -> left_alone thu thu' ->
    holding (place_ thu') = true -> owner s = Some u) as Hother.
  { intros u thu thu' Hu E [->| ->] Hh'; [by apply (Ho u thu)|]. rewrite wake_places in Hh'. by apply (Ho u thu). }
  split.
  - intros u thu' E Hu. destruct (decide (u = t)) as [->|Hne].
    + rewrite Ht' in E. injection E as <-. by rewrite Eo, Hu.
    + destruct (Hback u thu' Hne E) as (thu & E1 & Hl). pose proof (Hother u thu thu' Hne E1 Hl Hu) as Hou.
      rewrite Eo. destruct (holding (place_ th')) eqn:E2.
      * destruct (Hacq eq_refl) as [H1|H1]; [pose proof (Ho t th Ht H1)|]; congruence.
      * destruct (holding (place_ th)) eqn:E3; [|done]. pose proof (Ho t th Ht E3). congruence.
  - intros u Hu. rewrite Eo in Hu. destruct (holding (place_ th')) eqn:E2.
    + injection Hu as <-. exists th'. by rewrite Em.
    + destruct (holding (place_ th)) eqn:E3; [done|]. destruct (Hh u Hu) as (thu & E & Hhu & Hm).
      assert (u <> t) as Hne by (intros ->; congruence).
      specialize (Hoth u Hne). rewrite E in Hoth. destruct (threads s' !! u) as [thu'|] eqn:E'; [|done].
      exists thu'. destruct Hoth as [->| ->]; [by rewrite Em|].
      rewrite wake_places. split; [done|]. split; [done|]. rewrite Em, Hm. by destruct thu as [cs []].
  - intros E. rewrite E in Eo. rewrite Em. destruct (holding (place_ th')); [done|].
    destruct (holding (place_ th)); [done|]. by apply Hf.
  - intros u thu' E. destruct (decide (u = t)) as [->|Hne]; [congruence|].
    destruct (Hback u thu' Hne E) as (thu & E1 & [->| ->]); [by apply (Hc u)|]. by apply wake_calls, (Hc u).
Qed.

Lemma sound_move s t cs p p' o h x y :
  sound s -> threads s !! t = Some (mkThread cs p) -> in_call cs p' ->
  (holding p' = true -> holding p = true \/ owner s = None) ->
  o = (if holding p' then Some t else if holding p then None else owner s) ->
  h = (if holding p' then if named p' then tid t else 0 else if holding p then 0 else m_holder s) ->
  sound (mkMonitor o h x y (go s t p')).
Proof.
  intros Hs Ht Hc Hacq Ho Hh. apply (sound_turn s _ t _ (mkThread cs p') Hs Ht); try done; try (by destruct cs as [|[] ?]); [|apply others_alter].
  cbn. unfold go. by rewrite list_lookup_alter_eq, Ht.
Qed.

Lemma sound_next s t cs p h x y :
  sound s -> threads s !! t = Some (mkThread cs p) -> holding p = false \/ p = Unassigned ->
  h = m_holder s ->
  sound (mkMonitor (if holding p then None else owner s) h x y
    (alter (fun th => mkThread (tail (calls th)) Outside) t (threads s))).
Proof.
  intros Hs Ht Hp ->. apply (sound_turn s _ t _ (mkThread (tail cs) Outside) Hs Ht); try done; [|apply others_alter|].
  - cbn. by rewrite list_lookup_alter_eq, Ht.
  - cbn [place_]. cbn [holding m_holder]. destruct Hp as [->| ->]; [done|]. cbn [holding].
    destruct (sound_holding s Hs t) as (th & E & _ & Hm); [by apply (sound_owner s Hs t _ Ht)|].
    rewrite Ht in E. by injection E as <-.
Qed.

Lemma turn_sound t c s s' : sound s -> turn t c s = Ret (Some s') -> sound s'.
Proof.
  intros Hs. unfold turn. destruct (threads s !! t) as [[cs p]|] eqn:Ht; [|done]. unfold current. cbn [place_ calls].
  pose proof (sound_calls s Hs t _ Ht) as Hc. unfold in_call in Hc. cbn [calls place_] in Hc.
  pose proof (sound_owner s Hs t _ Ht) as Ho. cbn [place_] in Ho.
  assert (holding p = true -> m_holder s = if named p then tid t else 0) as Hm.
  { intros Hp. destruct (sound_holding s Hs t (Ho Hp)) as (th & E & _ & Hm). rewrite Ht in E. by injection E as <-. }
  destruct p; try done.
  - destruct (meaning <$> head cs) as [[f|q|f n]|] eqn:Ecs; [| | |done].
    + intros [= <-]. by apply (sound_next s t cs Outside _ _ _ Hs Ht); [left|].
    + destruct (owner s) eqn:Eo; [done|]. intros [= <-].
      apply (sound_move s t _ _ _ _ _ _ _ Hs Ht); try done; [unfold in_call; by rewrite Ecs|by right|by apply sound_free].
    + destruct (owner s) eqn:Eo; [done|]. intros [= <-].
      apply (sound_move s t _ _ _ _ _ _ _ Hs Ht); try done; [unfold in_call; by rewrite Ecs|by right|by apply sound_free].
  - intros [= <-]. apply (sound_move s t _ _ _ _ _ _ _ Hs Ht); try done; [by left|by apply Ho].
  - destruct (meaning <$> head cs) as [[f|q|f n]|] eqn:Ecs; try done.
    + destruct (q (guarded s)); intros [= <-]; apply (sound_move s t _ _ _ _ _ _ _ Hs Ht); try done;
        first [unfold in_call; by rewrite Ecs|by left|by apply Ho|by apply Hm].
    + intros (x & _ & [= <-])%obind_Ret_inv. apply (sound_move s t _ _ _ _ _ _ _ Hs Ht); try done;
        first [unfold in_call; by rewrite Ecs|by left|by apply Ho|by apply Hm].
  - destruct (notify n c (threads s)) as [l|] eqn:En; [|done]. intros [= <-].
    pose proof (notify_self _ _ _ _ _ _ En Ht eq_refl) as Hl.
    eapply (sound_turn s _ t _ (mkThread cs Leaving) Hs Ht); try done.
    + cbn. by rewrite list_lookup_alter_eq, Hl.
    + intros u Hu. pose proof (notify_others _ _ _ _ t En u Hu) as H. cbn. by rewrite list_lookup_alter_ne.
    + unfold in_call. cbn. by destruct (meaning <$> head cs) as [[]|].
    + by left.
    + by apply Ho.
    + by apply Hm.
  - intros [= <-]. apply (sound_move s t _ _ _ _ _ _ _ Hs Ht); try done; by apply Hm.
  - destruct (owner s) eqn:Eo; [done|]. intros [= <-].
    apply (sound_move s t _ _ _ _ _ _ _ Hs Ht); try done; [by right|by apply sound_free].
  - intros [= <-]. apply (sound_move s t _ _ _ _ _ _ _ Hs Ht); try done; [|by left|by apply Ho].
    unfold in_call. by destruct (meaning <$> head cs) as [[]|].
  - intros [= <-]. apply (sound_move s t _ _ _ _ _ _ _ Hs Ht); try done; [by left|by apply Ho].
  - intros [= <-]. by apply (sound_next s t cs Unassigned _ _ _ Hs Ht); [right|].
Qed.

Lemma step_sound s s' : sound s -> step s s' -> sound s'.
Proof.
  intros Hs [s1 (t & c & H)|t [cs p] Ht Hp]; [by eapply turn_sound|]. cbn in Hp. subst p.
  pose proof (sound_calls s Hs t _ Ht) as Hc. cbn [calls place_] in Hc.
  by apply (sound_move s t cs Sleeping).
Qed.

Lemma reachable_sound x y programs s : reachable x y programs s -> sound s.
Proof.
  intros H. apply (rtc_ind_r sound) in H; [done|apply new_monitor_sound|].
  intros s1 s2 _ Hs Hs1. by eapply step_sound.
Qed.

(** What a turn does: it makes a call that needs no mutex, it ends a call, or it
    goes on with one. *)
Definition turned t s s' : Prop :=
  exists th th', threads s !! t = Some th /\ threads s' !! t = Some th' /\ others t (threads s) (threads s') /\
    ((exists f, current th = Some (Act f) /\ place_ th = Outside /\ th' = mkThread (tail (calls th)) Outside /\
        free s' = f (free s) /\ guarded s' = guarded s) \/
     (place_ th = Unassigned /\ th' = mkThread (tail (calls th)) Outside /\ free s' = free s /\
        guarded s' = guarded s) \/
     (calls th' = calls th /\ free s' = free s /\
        (guarded s' = guarded s \/ exists f n, current th = Some (Update f n) /\ place_ th = Inside /\
           f (guarded s) = Ret (guarded s')))).

(** The thread goes on with its call. *)
Lemma turned_go t s th o h g p :
  threads s !! t = Some th ->
  g = guarded s \/ (exists f n, current th = Some (Update f n) /\ place_ th = Inside /\ f (guarded s) = Ret g) ->
  turned t s (mkMonitor o h g (free s) (go s t p)).
Proof.
  intros Ht Hg. exists th, (mkThread (calls th) p). cbn [threads]. unfold go.
  rewrite list_lookup_alter_eq, Ht. split_and!; [done|by destruct th|apply others_alter|by right; right].
Qed.

Lemma turn_shape t c s s' : turn t c s = Ret (Some s') -> turned t s s'.
Proof.
  unfold turn. destruct (threads s !! t) as [[cs p]|] eqn:Ht; [|done].
  assert (forall o h p', Ret (Some (mkMonitor o h (guarded s) (free s) (go s t p'))) = Ret (Some s') -> turned t s s') as Hgo
    by (intros o h p' [= <-]; apply (turned_go t s (mkThread cs p)); [done|by left]).
  assert (forall s', threads s' = alter (fun th => mkThread (tail (calls th)) Outside) t (threads s) ->
    threads s' !! t = Some (mkThread (tail cs) Outside) /\ others t (threads s) (threads s')) as Hnext.
  { intros s1 ->. split; [by rewrite list_lookup_alter_eq, Ht|apply others_alter]. }
  destruct p; cbn [place_]; try done; try (apply Hgo).
  - destruct (current (mkThread cs Outside)) as [[f|q|f n]|] eqn:Ecur; [|destruct (owner s); [done|apply Hgo]..|done].
    intros [= <-]. exists (mkThread cs Outside), (mkThread (tail cs) Outside).
    destruct (Hnext (mkMonitor (owner s) (m_holder s) (guarded s) (f (free s))
      (alter (fun th => mkThread (tail (calls th)) Outside) t (threads s))) eq_refl). split_and!; try done. left. by exists f.
  - destruct (current (mkThread cs Inside)) as [[f|q|f n]|] eqn:Ecur; [done| | |done].
    + destruct (q (guarded s)); apply Hgo.
    + intros (x & Hx & [= <-])%obind_Ret_inv. apply (turned_go t s (mkThread cs Inside)); [done|]. right. by exists f, n.
  - destruct (notify n c (threads s)) as [l|] eqn:En; [|done]. intros [= <-].
    exists (mkThread cs (Noticing n)), (mkThread cs Leaving). split; [done|]. split; [|split].
    + cbn. by rewrite list_lookup_alter_eq, (notify_self _ _ _ _ _ _ En Ht).
    + intros u Hu. cbn. rewrite list_lookup_alter_ne by done. by apply (notify_others _ _ _ _ t En).
    + right; right. split_and!; try done. by left.
  - destruct (owner s); [done|apply Hgo].
  - intros [= <-]. exists (mkThread cs Unassigned), (mkThread (tail cs) Outside).
    destruct (Hnext (mkMonitor None (m_holder s) (guarded s) (free s)
      (alter (fun th => mkThread (tail (calls th)) Outside) t (threads s))) eq_refl). split_and!; try done. right. by left.
Qed.

(** Calls are made in order. *)
Lemma turn_calls (Q : list C -> Prop) t c s s' :
  (forall cs, Q cs -> Q (tail cs)) -> turn t c s = Ret (Some s') ->
  (forall u th, threads s !! u = Some th -> Q (calls th)) ->
  forall u th, threads s' !! u = Some th -> Q (calls th).
Proof.
  intros HQ H Hs u thu' Hu. destruct (turn_shape t c s s' H) as (th & th' & Ht & Ht' & Hoth & Hsh).
  destruct (decide (u = t)) as [->|Hne].
  - rewrite Ht' in Hu. injection Hu as <-. pose proof (Hs t th Ht).
    destruct Hsh as [(f & _ & _ & -> & _)|[(_ & -> & _)|(-> & _)]]; cbn [calls]; auto.
  - specialize (Hoth u Hne). rewrite Hu in Hoth. destruct (threads s !! u) as [thu|] eqn:E; [|done].
    destruct Hoth as [->| ->]; by apply (Hs u thu).
Qed.

Lemma reachable_calls (Q : list C -> Prop) x y programs s :
  (forall cs, Q cs -> Q (tail cs)) -> Forall Q programs -> reachable x y programs s ->
  forall t th, threads s !! t = Some th -> Q (calls th).
Proof.
  intros HQ HP H.
  refine (rtc_ind_r (fun s => forall t th, threads s !! t = Some th -> Q (calls th)) _ _ _ s H); clear s H.
  - intros t th E. cbn in E. apply list_lookup_fmap_Some_1 in E as (cs & -> & E).
    by apply (Forall_lookup_1 _ _ _ _ HP E).
  - intros s1 s2 _ [s' (t & c & H')|t th0 Ht Hp] IH; [by apply (turn_calls Q t c s1)|].
    intros u th. cbn. unfold go. destruct (decide (u = t)) as [->|Hne].
    + rewrite list_lookup_alter_eq, Ht. intros [= <-]. by apply (IH t th0).
    + rewrite list_lookup_alter_ne by done. apply IH.
Qed.

(** C23: however threads use a monitor, at most one of them is between the moments
    when it takes the pthread mutex and gives it up, also when it waits in the
    condition; and [isLockedByThisThread] is right for every thread that is not
    in between [lock] and [assignHolder] or [unassignHolder] and [unlock]. *)
Theorem monitor_exclusive x y programs s :
  reachable x y programs s ->
  (forall t u th thu, threads s !! t = Some th -> threads s !! u = Some thu ->
     holding (place_ th) = true -> holding (place_ thu) = true -> t = u) /\
  (forall t th, threads s !! t = Some th -> isLockedByThisThread s t = named (place_ th)).
Proof.
  intros [Ho Hh Hf _]%reachable_sound. split.
  - intros t u th thu Ht Hu Hht Hhu. pose proof (Ho t th Ht Hht). pose proof (Ho u thu Hu Hhu). congruence.
  - intros t th Ht. unfold isLockedByThisThread, tid in *.
    destruct (owner s) as [u|] eqn:Eo.
    + destruct (Hh u eq_refl) as (thu & Hu & Hhu & ->). destruct (decide (u = t)) as [->|Hne].
      * assert (thu = th) as -> by congruence.
        destruct (named (place_ th)); [apply Z.eqb_eq|apply Z.eqb_neq]; lia.
      * assert (named (place_ th) = false) as ->.
        { destruct (place_ th) eqn:Ep; try done;
            (assert (Some u = Some t) as [=] by (apply (Ho t th Ht); by rewrite Ep); congruence). }
        destruct (named (place_ thu)); apply Z.eqb_neq; lia.
    + rewrite Hf by done. destruct (place_ th) eqn:Ep; cbn [named];
        first [assert (None = Some t) as [=] by (apply (Ho t th Ht); by rewrite Ep)|apply Z.eqb_neq; lia].
Qed.
End monitor.
Arguments action : clear implicits.
Arguments thread : clear implicits.
Arguments monitor : clear implicits.

(** One thread notifies in the block of its guard while the other waits. *)
Definition waiting_example : monitor bool unit bool :=
  mkMonitor (Some 0%nat) 1 true tt
    [mkThread [true] (Noticing Notify); mkThread [false] Sleeping].
Definition example_meaning (c : bool) : action bool unit :=
  if c then Update (fun _ => Ret true) (fun _ => Notify) else WaitUntil id.

Lemma monitor_exclusive_witness :
  (forall t u th thu, threads waiting_example !! t = Some th -> threads waiting_example !! u = Some thu ->
     holding (place_ th) = true -> holding (place_ thu) = true -> t = u) /\
  (forall t th, threads waiting_example !! t = Some th ->
     isLockedByThisThread waiting_example t = named (place_ th)).
Proof.
  apply (monitor_exclusive example_meaning false tt [[true]; [false]]).
  apply (run_reaches _ [(1, 0); (1, 0); (1, 0); (1, 0); (0, 0); (0, 0); (0, 0)]%nat). vm_compute. reflexivity.
Defined.

(** ** Guards with a flag

    [ScopedLockImpl], [ReadScopedLockImpl] and [WriteScopedLockImpl], over the
    [lock] or [rlock] or [wlock] and the [unlock] of what they guard. *)
Section scoped.
Context {M : Type} (lock unlock : M -> M).

Record ScopedLockImpl : Type := mkScoped { mutex_ : M; locked_ : bool }.

Definition new_scoped (m : M) : ScopedLockImpl := mkScoped (lock m) true.
Definition scoped_lock (g : ScopedLockImpl) : ScopedLockImpl :=
  if locked_ g then g else mkScoped (lock (mutex_ g)) true.
Definition scoped_unlock (g : ScopedLockImpl) : ScopedLockImpl :=
  if locked_ g then mkScoped (unlock (mutex_ g)) false else g.
Definition delete_scoped (g : ScopedLockImpl) : M := mutex_ (scoped_unlock g).

(** Whatever calls are made, the guard locks and unlocks by turns. *)
Lemma scoped_balanced m (calls : list bool) :
  (forall m, unlock (lock m) = m) ->
  let g := foldl (fun g (b : bool) => if b then scoped_lock g else scoped_unlock g) (new_scoped m) calls in
  mutex_ g = (if locked_ g then lock m else m) /\ delete_scoped g = m.
Proof.
  intros Hu g.
  assert (forall g, mutex_ g = (if locked_ g then lock m else m) ->
    let g' := foldl (fun g (b : bool) => if b then scoped_lock g else scoped_unlock g) g calls in
    mutex_ g' = (if locked_ g' then lock m else m)) as H.
  { induction calls as [|b calls IH]; [done|]. intros [x l] H. cbn in H |- *. apply IH. subst x.
    destruct b, l; cbn; auto. }
  assert (mutex_ g = if locked_ g then lock m else m) as Hg by exact (H (new_scoped m) eq_refl).
  split; [exact Hg|]. clearbody g. unfold delete_scoped, scoped_unlock. destruct g as [x []]; cbn in *; [by rewrite Hg|exact Hg].
Qed.
End scoped.

(** [Condition::waitForSeconds]: when the wait is to end, from the time on the
    clock; [nanoseconds] is the product cast to [int64_t]. *)
Definition kNanoSecondsPerSecond : Z := 1000000000.
Definition waitForSeconds_deadline (tv_sec tv_nsec nanoseconds : Z) : Z * Z :=
  (tv_sec + (tv_nsec + nanoseconds) ÷ kNanoSecondsPerSecond,
   Z.rem (tv_nsec + nanoseconds) kNanoSecondsPerSecond).

(** The call: its turns are those of [wait], with a wake-up when the time is over;
    [timedwait] is what pthread_cond_timedwait returns. *)
Definition ETIMEDOUT : Z := 110.
Definition waitForSeconds (tv_sec tv_nsec nanoseconds : Z) (timedwait : Z * Z -> Z) : bool :=
  ETIMEDOUT =? timedwait (waitForSeconds_deadline tv_sec tv_nsec nanoseconds).

(** The time is the sum; it is one that pthread_cond_timedwait takes unless it
    is to end before the second that has begun. *)
Lemma waitForSeconds_deadline_sum tv_sec tv_nsec nanoseconds :
  let '(sec, nsec) := waitForSeconds_deadline tv_sec tv_nsec nanoseconds in
  sec * kNanoSecondsPerSecond + nsec = tv_sec * kNanoSecondsPerSecond + tv_nsec + nanoseconds /\
  (0 <= nsec < kNanoSecondsPerSecond <-> 0 <= tv_nsec + nanoseconds \/ nsec = 0).
Proof.
  unfold waitForSeconds_deadline. pose proof (Z.quot_rem' (tv_nsec + nanoseconds) kNanoSecondsPerSecond) as H.
  split; [unfold kNanoSecondsPerSecond in *; lia|].
  destruct (Z.le_gt_cases 0 (tv_nsec + nanoseconds)) as [Hle|Hgt].
  - pose proof (Z.rem_bound_pos (tv_nsec + nanoseconds) kNanoSecondsPerSecond Hle eq_refl). lia.
  - pose proof (Z.rem_nonpos (tv_nsec + nanoseconds) kNanoSecondsPerSecond). unfold kNanoSecondsPerSecond in *. lia.
Qed.
