(* ===== verification/RWMutex.v ===== *)
(** * Readers and writers (src/qslary/base/Mutex.h)

    [RWMutex], and threads whose calls lock it with a [ReadLockGuard] or a
    [WriteLockGuard], as their turns in any order. What a call does is a program: a
    sequence of blocks that each hold a guard. Under the read lock it looks at the
    data and may tell others things, one at a time; under the write lock it changes
    the data. *)
From stdpp Require Import base list relations.
From Stdlib Require Import Lia.
From S2P Require Import Prelude.

(** ** RWMutex

    [None]: the thread is blocked. [unlock] gives up what is held, by whomever. *)
Record RWMutex : Type := mkRW { readers : nat; writer : option nat }.
Definition new_RWMutex : RWMutex := mkRW 0 None.
Definition rlock (m : RWMutex) : option RWMutex :=
  match writer m with None => Some (mkRW (S (readers m)) None) | Some _ => None end.
Definition wlock (t : nat) (m : RWMutex) : option RWMutex :=
  match writer m, readers m with None, O => Some (mkRW 0 (Some t)) | _, _ => None end.
Definition unlock (m : RWMutex) : RWMutex :=
  match writer m with Some _ => mkRW (readers m) None | None => mkRW (pred (readers m)) None end.

(** A guard gives the lock back as it took it. *)
Lemma rlock_unlock m m' : rlock m = Some m' -> unlock m' = m.
Proof. destruct m as [n [w|]]; cbn; [done|]. by intros [= <-]. Qed.
Lemma wlock_unlock t m m' : wlock t m = Some m' -> unlock m' = m.
Proof. destruct m as [[|n] [w|]]; cbn; try done. by intros [= <-]. Qed.

(** ** SpinLock

    Who holds it; [lock] blocks ([None]) while another does. *)
Record SpinLock : Type := mkSpin { spin_owner : option nat }.
Definition new_SpinLock : SpinLock := mkSpin None.
Definition spin_lock (t : nat) (l : SpinLock) : option SpinLock :=
  match spin_owner l with None => Some (mkSpin (Some t)) | Some _ => None end.
Definition spin_unlock (l : SpinLock) : SpinLock := mkSpin None.

Lemma spin_exclusive t u l l' : spin_lock t l = Some l' -> spin_lock u l' = None /\ spin_unlock l' = l.
Proof. destruct l as [[w|]]; cbn; [done|]. by intros [= <-]. Qed.

Section rw.
(** The data under the lock, what others are told, what calls return, the calls. *)
Context {X N R C : Type}.

Inductive prog : Type :=
| Return (r : R)
| Fail (e : fault)
| Read (tell : X -> list N) (k : X -> prog)           (** a block of a [ReadLockGuard] *)
| Write (f : X -> X) (k : X -> prog).                 (** of a [WriteLockGuard]; [k] is given the old data *)

(** Where in a call a thread is. *)
Inductive place : Type :=
| Outside (p : prog)                                  (** in front of the rest of the call *)
| Reading (tell : X -> list N) (k : X -> prog)        (** behind [rlock] *)
| Telling (l : list N) (p : prog)                     (** still to tell, then [unlock] *)
| Writing (f : X -> X) (k : X -> prog)                (** behind [wlock] *)
| Left (p : prog).                                    (** in front of its [unlock] *)

Record thread : Type := mkThread { calls : list C; place_ : option place; results : list R }.

Record state : Type := mkState {
  rw : RWMutex;
  data : X;
  told : list N;
  threads : list thread
}.

Context (meaning : C -> prog).
Implicit Types (s : state) (th : thread) (t u : nat) (p : prog).

(** A block that fails takes the program with it. *)
Definition behind {A} p (a : A) : outcome A := match p with Fail e => Fault e | _ => Ret a end.

Definition move s t (m : RWMutex) (x : X) (ns : list N) th (pl : place) : state :=
  mkState m x ns (<[t := mkThread (calls th) (Some pl) (results th)]> (threads s)).

(** The turn of the thread [t]; [None]: it is blocked or has ended. *)
Definition turn t s : outcome (option state) :=
  match threads s !! t with
  | None => Ret None
  | Some th =>
      let stay := move s t (rw s) (data s) (told s) th in
      match place_ th with
      | None =>
          match calls th with
          | [] => Ret None
          | c :: cs => Ret (Some (mkState (rw s) (data s) (told s)
                         (<[t := mkThread cs (Some (Outside (meaning c))) (results th)]> (threads s))))
          end
      | Some (Outside (Return r)) =>
          Ret (Some (mkState (rw s) (data s) (told s)
                 (<[t := mkThread (calls th) None (results th ++ [r])]> (threads s))))
      | Some (Outside (Fail e)) => Fault e
      | Some (Outside (Read tell k)) =>
          match rlock (rw s) with
          | Some m => Ret (Some (move s t m (data s) (told s) th (Reading tell k)))
          | None => Ret None
          end
      | Some (Outside (Write f k)) =>
          match wlock t (rw s) with
          | Some m => Ret (Some (move s t m (data s) (told s) th (Writing f k)))
          | None => Ret None
          end
      | Some (Reading tell k) =>
          behind (k (data s)) (Some (stay (Telling (tell (data s)) (k (data s)))))
      | Some (Telling (n :: l) p) => Ret (Some (move s t (rw s) (data s) (told s ++ [n]) th (Telling l p)))
      | Some (Telling [] p) => Ret (Some (move s t (unlock (rw s)) (data s) (told s) th (Outside p)))
      | Some (Writing f k) =>
          behind (k (data s)) (Some (move s t (rw s) (f (data s)) (told s) th (Left (k (data s)))))
      | Some (Left p) => Ret (Some (move s t (unlock (rw s)) (data s) (told s) th (Outside p)))
      end
  end.

Definition sched s s' : Prop := exists t, turn t s = Ret (Some s').
Definition new_state (x : X) (programs : list (list C)) : state :=
  mkState new_RWMutex x [] (map (fun cs => mkThread cs None []) programs).
Definition reachable x programs : state -> Prop := rtc sched (new_state x programs).

(** Turns by a schedule *)
Fixpoint run (schedule : list nat) s : option state :=
  match schedule with
  | [] => Some s
  | t :: schedule => match turn t s with Ret (Some s') => run schedule s' | _ => None end
  end.
Lemma rw_run_reaches schedule : forall s s', run schedule s = Some s' -> rtc sched s s'.
Proof.
  induction schedule as [|t l IH]; cbn; intros s s' H; [by injection H as ->|].
  destruct (turn t s) as [[s1|]|] eqn:E; try done. apply rtc_l with s1; [by exists t|by apply IH].
Qed.

(** ** One call at a time

    What a program does when no other thread is there, and a sequence of calls. *)
Fixpoint alone p (x : X) (ns : list N) : outcome (R * X * list N) :=
  match p with
  | Return r => Ret (r, x, ns)
  | Fail e => Fault e
  | Read tell k => alone (k x) x (ns ++ tell x)
  | Write f k => alone (k x) (f x) ns
  end.
Fixpoint all_alone (cs : list C) (x : X) (ns : list N) (rs : list R) : outcome (list R * X * list N) :=
  match cs with
  | [] => Ret (rs, x, ns)
  | c :: cs => let! r := alone (meaning c) x ns in all_alone cs r.1.2 r.2 (rs ++ [r.1.1])
  end.

(** ** What holds of every program *)
Definition reading th : bool := match place_ th with Some (Reading _ _ | Telling _ _) => true | _ => false end.
Definition writing th : bool := match place_ th with Some (Writing _ _ | Left _) => true | _ => false end.
Definition finished th : bool := match place_ th, calls th with None, [] => true | _, _ => false end.
Fixpoint count (l : list thread) : nat :=
  match l with [] => 0 | th :: l => (if reading th then 1 else 0) + count l end.

Record sound s : Prop := {
  sound_readers : readers (rw s) = count (threads s);
  sound_writing t th : threads s !! t = Some th -> writing th = true -> writer (rw s) = Some t;
  sound_writer t : writer (rw s) = Some t -> readers (rw s) = 0 /\ exists th, threads s !! t = Some th /\ writing th = true
}.

Lemma count_insert l : forall t th th', l !! t = Some th ->
  count (<[t := th']> l) + (if reading th then 1 else 0) = count l + (if reading th' then 1 else 0).
Proof.
  induction l as [|a l IH]; intros [|t] th th' H; simpl in *; try done.
  - injection H as ->. lia.
  - specialize (IH t th th' H). lia.
Qed.

Lemma count_zero l : count l = 0 -> forall t th, l !! t = Some th -> reading th = false.
Proof.
  induction l as [|a l IH]; intros H [|t] th Ht; cbn in *; try done.
  - injection Ht as ->. destruct (reading th); [lia|done].
  - apply (IH ltac:(lia) t th Ht).
Qed.

Lemma count_some l t th : l !! t = Some th -> reading th = true -> count l <> 0.
Proof. intros H1 H2 H. pose proof (count_zero l H t th H1). congruence. Qed.

(** One thread goes from [th] to [th'], and the lock from [rw s] to [m]. *)
Lemma sound_change s t th th' m x ns :
  sound s -> threads s !! t = Some th ->
  (readers m + (if reading th then 1 else 0) = readers (rw s) + (if reading th' then 1 else 0)) ->
  (writing th' = writing th /\ writer m = writer (rw s) /\ (reading th = false -> reading th' = true -> writer m = None) \/
   writing th = true /\ writing th' = false /\ writer m = None \/
   writing th = false /\ writing th' = true /\ writer (rw s) = None /\ writer m = Some t /\ readers m = 0) ->
  sound (mkState m x ns (<[t := th']> (threads s))).
Proof.
  intros [Hr Hw Ho] Ht Hm Hc. pose proof (lookup_lt_Some _ _ _ Ht) as Hlt. split; cbn.
  - pose proof (count_insert (threads s) t th th' Ht). lia.
  - intros u thu Hu Hwu. destruct (decide (u = t)) as [->|Hne].
    + rewrite list_lookup_insert_eq in Hu by done. injection Hu as <-.
      destruct Hc as [(E & -> & _)|[(_ & E & _)|(_ & _ & _ & E & _)]]; [|congruence|done].
      apply (Hw t th Ht). congruence.
    + rewrite list_lookup_insert_ne in Hu by done. pose proof (Hw u thu Hu Hwu) as Hu'.
      destruct Hc as [(_ & -> & _)|[(E & _)|(_ & _ & E & _)]]; [done| |congruence].
      pose proof (Hw t th Ht E). congruence.
  - intros u Hu. destruct Hc as [(E & E' & Er)|[(_ & _ & E)|(_ & E & _ & E' & E0)]]; [|congruence|].
    + rewrite E' in Hu. destruct (Ho u Hu) as [H0 (thu & Hthu & Hwu)]. split.
      * assert (reading th = false) as Hrt by (apply (count_zero (threads s)) with t; [congruence|done]).
        rewrite Hrt in Hm. destruct (reading th') eqn:Hrt'; [|lia]. rewrite Er, <- E' in *; congruence.
      * destruct (decide (u = t)) as [->|Hne].
        -- exists th'. rewrite list_lookup_insert_eq by done. split; [done|]. congruence.
        -- exists thu. by rewrite list_lookup_insert_ne.
    + assert (u = t) as -> by congruence. split; [done|]. exists th'. by rewrite list_lookup_insert_eq.
Qed.

Lemma rw_turn_sound s s' : sched s s' -> sound s -> sound s'.
Proof.
  intros [t H] Hs. unfold turn in H. destruct (threads s !! t) as [th|] eqn:Ht; [|done].
  assert (forall pl, place_ th = Some pl -> reading th = match pl with Reading _ _ | Telling _ _ => true | _ => false end /\
    writing th = match pl with Writing _ _ | Left _ => true | _ => false end) as Hpl
    by (intros pl E; unfold reading, writing; by rewrite E).
  destruct (place_ th) as [pl|] eqn:Ep.
  2: { destruct (calls th) as [|c cs]; [done|]. injection H as <-.
       apply (sound_change s t th); [done|done|unfold reading; by rewrite Ep|]. left. unfold writing, reading. by rewrite Ep. }
  destruct (Hpl pl eq_refl) as [Hr Hw].
  assert (reading th = true -> readers (rw s) <> 0) as Hcr
    by (intros E; rewrite (sound_readers _ Hs); by apply (count_some _ t th)).
  assert (reading th = true -> writer (rw s) = None) as Hnw.
  { intros E. destruct (writer (rw s)) as [u|] eqn:Eu; [|done]. destruct (sound_writer _ Hs u Eu). by destruct (Hcr E). }
  destruct pl as [[r|e|tell k|f k]|tell k|[|n l] p|f k|p]; unfold behind in H.
  - injection H as <-. apply (sound_change s t th); [done|done|rewrite Hr; cbn; lia|]. left. by rewrite Hw.
  - done.
  - unfold rlock in H. destruct (writer (rw s)) eqn:Eu; [done|]. injection H as <-.
    apply (sound_change s t th); [done|done|rewrite Hr; cbn; lia|]. left. by rewrite Hw.
  - unfold wlock in H. destruct (writer (rw s)) eqn:Eu; [done|]. destruct (readers (rw s)) eqn:E0; [|done]. injection H as <-.
    apply (sound_change s t th); [done|done|rewrite Hr; cbn; lia|]. right. right. by rewrite Hw.
  - assert (s' = move s t (rw s) (data s) (told s) th (Telling (tell (data s)) (k (data s)))) as ->
      by (destruct (k (data s)); congruence).
    apply (sound_change s t th); [done|done|rewrite Hr; cbn; lia|]. left. by rewrite Hw, Hr.
  - injection H as <-. specialize (Hcr Hr). specialize (Hnw Hr). unfold unlock. rewrite Hnw.
    apply (sound_change s t th); [done|done|rewrite Hr; cbn; lia|]. left. by rewrite Hw, Hnw.
  - injection H as <-. apply (sound_change s t th); [done|done|rewrite Hr; cbn; lia|]. left. by rewrite Hw, Hr.
  - assert (s' = move s t (rw s) (f (data s)) (told s) th (Left (k (data s)))) as ->
      by (destruct (k (data s)); congruence).
    apply (sound_change s t th); [done|done|rewrite Hr; cbn; lia|]. left. by rewrite Hw, Hr.
  - injection H as <-. pose proof (sound_writing _ Hs t th Ht Hw) as E. unfold unlock. rewrite E.
    apply (sound_change s t th); [done|done|rewrite Hr; cbn; lia|]. right. left. by rewrite Hw.
Qed.

Lemma new_state_sound x programs : sound (new_state x programs).
Proof.
  assert (forall t th, map (fun cs => mkThread cs None []) programs !! t = Some th -> place_ th = None) as H
    by (intros t th Ht; apply list_lookup_fmap_Some_1 in Ht as (cs & -> & _); done).
  split; cbn.
  - induction programs as [|cs l IH]; [done|]. cbn. apply IH. intros t. exact (H (S t)).
  - intros t th Ht. unfold writing. by rewrite (H t th Ht).
  - done.
Qed.

Lemma rw_reachable_sound x programs s : reachable x programs s -> sound s.
Proof.
  unfold reachable. intros H. refine (rtc_ind_r (fun s => sound s) _ _ _ s H); [apply new_state_sound|].
  intros s1 s2 _ Hst. by apply rw_turn_sound.
Qed.

(** A run is looked at only through what is asked of its end. *)
Lemma rw_run_end {A} (f : state -> A) a l s0 :
  match run l s0 with Some s => Some (f s) | None => None end = Some a -> exists s, rtc sched s0 s /\ f s = a.
Proof.
  destruct (run l s0) as [s|] eqn:E; [|done]. intros [= H]. exists s. split; [by apply rw_run_reaches in E|done].
Qed.

Lemma all_finished s : forallb finished (threads s) = true -> forall t th, threads s !! t = Some th -> finished th = true.
Proof. rewrite forallb_forall. intros H t th Ht. apply H, list_elem_of_In. by eapply list_elem_of_lookup_2. Qed.

(** ** Exclusion *)

(** A turn that changes the data is one of a thread that holds the write lock. *)
Lemma turn_data t s s' : turn t s = Ret (Some s') ->
  data s' = data s \/ exists th, threads s !! t = Some th /\ writing th = true.
Proof.
  unfold turn. destruct (threads s !! t) as [th|] eqn:Ht; [|done].
  destruct (place_ th) as [[[r|e|tell k|f k]|tell k|[|n l] p|f k|p]|] eqn:Ep; unfold behind; intros H;
    try (injection H as <-; by left).
  - done.
  - destruct (rlock (rw s)); [|done]. injection H as <-. by left.
  - destruct (wlock t (rw s)); [|done]. injection H as <-. by left.
  - left. by destruct (k (data s)); try done; injection H as <-.
  - right. exists th. unfold writing. by rewrite Ep.
  - destruct (calls th); [done|]. injection H as <-. by left.
Qed.

(** The write lock excludes all others: in every state that can be reached, while a
    thread is in a block of a write guard no other thread is in one, nor in a block
    of a read guard; and no turn changes the data while a thread is in a block of a
    read guard. *)
Theorem rw_exclusive x programs s :
  reachable x programs s ->
  (forall t u th thu, threads s !! t = Some th -> threads s !! u = Some thu -> writing th = true ->
     (reading thu = false /\ (writing thu = true -> u = t))) /\
  (forall t th s', threads s !! t = Some th -> reading th = true -> sched s s' -> data s' = data s).
Proof.
  intros Hs%rw_reachable_sound. assert (forall t u th thu, threads s !! t = Some th -> threads s !! u = Some thu ->
    writing th = true -> reading thu = true -> False) as Hex.
  { intros t u th thu Ht Hu Hwt Hru. pose proof (sound_writing _ Hs t th Ht Hwt) as Ew.
    destruct (sound_writer _ Hs t Ew) as [H0 _]. rewrite (sound_readers _ Hs) in H0. by apply (count_some _ _ _ Hu Hru). }
  split.
  - intros t u th thu Ht Hu Hwt. split; [destruct (reading thu) eqn:E; [destruct (Hex t u th thu)|]; done|].
    intros Hwu. pose proof (sound_writing _ Hs t th Ht Hwt). pose proof (sound_writing _ Hs u thu Hu Hwu). congruence.
  - intros t th s' Ht Hr [u H]. destruct (turn_data u s s' H) as [|(thu & Hu & Hw)]; [done|].
    destruct (Hex u t thu th Hu Ht Hw Hr).
Qed.

(** ** Every schedule ends, and only when all is done *)

(** As long as a thread has not finished there is one whose turn it can be. *)
Lemma sound_progress s t th :
  sound s -> threads s !! t = Some th -> finished th = false -> exists u, turn u s <> Ret None.
Proof.
  intros Hs Ht Hf.
  assert (forall u thu, threads s !! u = Some thu -> reading thu = true \/ writing thu = true -> turn u s <> Ret None) as Hgo.
  { intros u thu Hu H. unfold turn. rewrite Hu. unfold reading, writing in H.
    destruct (place_ thu) as [[|tell k|[|] p|f k|p]|]; try by destruct H.
    - unfold behind. by destruct (k (data s)).
    - unfold behind. by destruct (k (data s)). }
  destruct (writer (rw s)) as [u|] eqn:Ew.
  { destruct (sound_writer _ Hs u Ew) as [_ (thu & Hu & Hwu)]. exists u. by apply (Hgo u thu Hu); right. }
  destruct (decide (readers (rw s) = 0)) as [E0|E0].
  - exists t. unfold turn. rewrite Ht. unfold finished in Hf.
    destruct (place_ th) as [[[r|e|tell k|f k]|tell k|[|n l] p|f k|p]|] eqn:Ep; try done.
    + unfold rlock. by rewrite Ew.
    + unfold wlock. by rewrite Ew, E0.
    + unfold behind. by destruct (k (data s)).
    + unfold behind. by destruct (k (data s)).
    + by destruct (calls th).
  - rewrite (sound_readers _ Hs) in E0.
    assert (exists u thu, threads s !! u = Some thu /\ reading thu = true) as (u & thu & Hu & Hr).
    { clear -E0. induction (threads s) as [|a l IH]; [done|]. cbn in E0. destruct (reading a) eqn:Er; [by exists 0, a|].
      destruct (IH E0) as (u & thu & Hu & Hr). by exists (S u), thu. }
    exists u. by apply (Hgo u thu Hu); left.
Qed.

(** The ways of a thread through its calls, whatever the data. *)
Inductive goes : list C * option place -> list C * option place -> Prop :=
| goes_call c cs : goes (c :: cs, None) (cs, Some (Outside (meaning c)))
| goes_return cs r : goes (cs, Some (Outside (Return r))) (cs, None)
| goes_rlock cs tell k : goes (cs, Some (Outside (Read tell k))) (cs, Some (Reading tell k))
| goes_wlock cs f k : goes (cs, Some (Outside (Write f k))) (cs, Some (Writing f k))
| goes_read cs tell k x : goes (cs, Some (Reading tell k)) (cs, Some (Telling (tell x) (k x)))
| goes_tell cs n l p : goes (cs, Some (Telling (n :: l) p)) (cs, Some (Telling l p))
| goes_told cs p : goes (cs, Some (Telling [] p)) (cs, Some (Outside p))
| goes_write cs f k x : goes (cs, Some (Writing f k)) (cs, Some (Left (k x)))
| goes_left cs p : goes (cs, Some (Left p)) (cs, Some (Outside p)).

Lemma goes_ends cs : forall pl, sn goes (cs, pl).
Proof.
  induction cs as [cs IH] using (well_founded_induction (well_founded_ltof _ (@List.length C))). intros pl.
  assert (sn goes (cs, None)) as Hnone.
  { constructor. unfold flip. intros y H. inversion H; subst. apply IH. unfold ltof. cbn. lia. }
  assert (forall p, sn goes (cs, Some (Outside p)) /\ sn goes (cs, Some (Left p)) /\ forall l, sn goes (cs, Some (Telling l p))) as Hp.
  { induction p as [r|e|tell k IHp|f k IHp];
      (assert (forall q, sn goes (cs, Some (Outside q)) -> sn goes (cs, Some (Left q)) /\ forall l, sn goes (cs, Some (Telling l q))) as Hrest
        by (intros q Hq; split; [constructor; unfold flip; intros y H; by inversion H; subst|
              intros l; induction l as [|n l IHl]; constructor; unfold flip; intros y H; by inversion H; subst])).
    - assert (sn goes (cs, Some (Outside (Return r)))) by (constructor; unfold flip; intros y H; by inversion H; subst). by split; [|apply Hrest].
    - assert (sn goes (cs, Some (Outside (Fail e)))) by (constructor; unfold flip; intros y H; by inversion H; subst). by split; [|apply Hrest].
    - assert (sn goes (cs, Some (Outside (Read tell k)))); [|by split; [|apply Hrest]].
      constructor. unfold flip. intros y H. inversion H; subst. constructor. unfold flip. intros y H1. inversion H1; subst. apply IHp.
    - assert (sn goes (cs, Some (Outside (Write f k)))); [|by split; [|apply Hrest]].
      constructor. unfold flip. intros y H. inversion H; subst. constructor. unfold flip. intros y H1. inversion H1; subst. apply IHp. }
  destruct pl as [[p|tell k|l p|f k|p]|]; [apply Hp| |apply Hp| |apply Hp|done];
    constructor; unfold flip; intros y H; inversion H; subst; apply Hp.
Qed.

Definition way th : list C * option place := (calls th, place_ th).

Lemma sched_one s s' : sched s s' -> one_of goes (map way (threads s)) (map way (threads s')).
Proof.
  intros [t H]. unfold turn in H. destruct (threads s !! t) as [th|] eqn:Ht; [|done].
  assert (forall th', threads s' = <[t := th']> (threads s) -> goes (way th) (way th') ->
    one_of goes (map way (threads s)) (map way (threads s'))) as Hone.
  { intros th' E Hg. exists t, (way th), (way th'). split_and!; [by apply list_lookup_fmap_Some_2|done|].
    change (map way (threads s')) with (way <$> threads s'). change (map way (threads s)) with (way <$> threads s).
    by rewrite E, list_fmap_insert. }
  unfold way in Hone at 1. destruct (place_ th) as [pl|] eqn:Ep.
  2: { destruct (calls th) as [|c cs] eqn:Ec; [done|]. injection H as <-. eapply Hone; [reflexivity|]. constructor. }
  destruct pl as [[r|e|tell k|f k]|tell k|[|n l] p|f k|p]; unfold behind in H; try done.
  - injection H as <-. eapply Hone; [reflexivity|]. constructor.
  - destruct (rlock (rw s)); [|done]. injection H as <-. eapply Hone; [reflexivity|]. constructor.
  - destruct (wlock t (rw s)); [|done]. injection H as <-. eapply Hone; [reflexivity|]. constructor.
  - assert (s' = move s t (rw s) (data s) (told s) th (Telling (tell (data s)) (k (data s)))) as ->
      by (destruct (k (data s)); congruence). eapply Hone; [reflexivity|]. constructor.
  - injection H as <-. eapply Hone; [reflexivity|]. constructor.
  - injection H as <-. eapply Hone; [reflexivity|]. constructor.
  - assert (s' = move s t (rw s) (f (data s)) (told s) th (Left (k (data s)))) as ->
      by (destruct (k (data s)); congruence). eapply Hone; [reflexivity|]. constructor.
  - injection H as <-. eapply Hone; [reflexivity|]. constructor.
Qed.

Lemma sched_ends s : sn sched s.
Proof.
  assert (sn (one_of goes) (map way (threads s))) as H.
  { apply one_of_ends, Forall_forall. intros [cs pl] _. apply goes_ends. }
  remember (map way (threads s)) as w eqn:E. revert s E. induction H as [w _ IH]. intros s ->.
  constructor. unfold flip. intros s' Hs'. eapply IH; [exact (sched_one s s' Hs')|done].
Qed.

(** Nothing deadlocks and nothing goes on forever: from every state that can be
    reached, every sequence of turns ends, and where it ends, unless a call has
    failed, every thread has made all its calls. *)
Theorem rw_calls_end x programs s :
  reachable x programs s ->
  sn sched s /\
  ((forall t, turn t s = Ret None) -> forall t th, threads s !! t = Some th -> finished th = true).
Proof.
  intros Hs%rw_reachable_sound. split; [apply sched_ends|]. intros Hst t th Ht.
  destruct (finished th) eqn:E; [done|]. destruct (sound_progress s t th Hs Ht E) as [u Hu]. by destruct Hu.
Qed.

(** ** One thread that changes, others that look

    A program that only looks: it never takes the write lock, and tells nothing. *)
Fixpoint quiet p : Prop :=
  match p with
  | Return _ | Fail _ => True
  | Read tell k => (forall x, tell x = []) /\ forall x, quiet (k x)
  | Write _ _ => False
  end.
Definition quiet_place (pl : place) : Prop :=
  match pl with
  | Outside p => quiet p
  | Reading tell k => quiet (Read tell k)
  | Telling l p => l = [] /\ quiet p
  | Writing _ _ | Left _ => False
  end.
Definition quiet_thread th : Prop :=
  Forall (fun c => quiet (meaning c)) (calls th) /\ match place_ th with Some pl => quiet_place pl | None => True end.

(** What a thread still has to do, done without the others. *)
Definition finish th (x : X) (ns : list N) : outcome (list R * X * list N) :=
  match place_ th with
  | None => all_alone (calls th) x ns (results th)
  | Some pl =>
      let! r := (match pl with
                 | Outside p | Left p => alone p x ns
                 | Reading tell k => alone (Read tell k) x ns
                 | Telling l p => alone p x (ns ++ l)
                 | Writing f k => alone (Write f k) x ns
                 end) in
      all_alone (calls th) r.1.2 r.2 (results th ++ [r.1.1])
  end.

(** The turn of a thread that only looks changes nothing. *)
Lemma quiet_turn u s s' th : turn u s = Ret (Some s') -> threads s !! u = Some th -> quiet_thread th ->
  data s' = data s /\ told s' = told s /\ exists th', threads s' = <[u := th']> (threads s) /\ quiet_thread th'.
Proof.
  intros H Ht [Hc Hp]. unfold turn in H. rewrite Ht in H.
  assert (forall m pl, quiet_place pl -> s' = move s u m (data s) (told s) th pl ->
    data s' = data s /\ told s' = told s /\ exists th', threads s' = <[u := th']> (threads s) /\ quiet_thread th') as Hmove.
  { intros m pl Hpl ->. split_and!; [done|done|]. eexists. split; [reflexivity|]. by split. }
  destruct (place_ th) as [[[r|e|tell k|f k]|tell k|[|n l] p|f k|p]|] eqn:Ep; cbn [quiet_place quiet] in Hp; unfold behind in H; try done.
  - injection H as <-. split_and!; [done|done|]. eexists. split; [reflexivity|]. by split.
  - destruct (rlock (rw s)) as [m|]; [|done]. injection H as <-. by apply (Hmove m (Reading tell k)).
  - assert (s' = move s u (rw s) (data s) (told s) th (Telling (tell (data s)) (k (data s)))) as ->
      by (destruct (k (data s)); congruence).
    apply (Hmove (rw s) (Telling (tell (data s)) (k (data s)))); [|done]. destruct Hp as [H1 H2]. by split.
  - injection H as <-. apply (Hmove (unlock (rw s)) (Outside p)); [by destruct Hp|done].
  - by destruct Hp.
  - destruct (calls th) as [|c cs] eqn:Ec; [done|]. injection H as <-. split_and!; [done|done|].
    eexists. split; [reflexivity|]. inversion_clear Hc as [|? ? H1 H2]. by split.
Qed.

(** That of any thread is a part of what it does alone. *)
Lemma turn_finish t s s' th : turn t s = Ret (Some s') -> threads s !! t = Some th ->
  exists th', threads s' = <[t := th']> (threads s) /\ finish th' (data s') (told s') = finish th (data s) (told s).
Proof.
  intros H Ht. unfold turn in H. rewrite Ht in H. unfold finish.
  destruct (place_ th) as [[[r|e|tell k|f k]|tell k|[|n l] p|f k|p]|] eqn:Ep; unfold behind in H; try done.
  - injection H as <-. eexists. split; [reflexivity|]. done.
  - destruct (rlock (rw s)); [|done]. injection H as <-. by eexists.
  - destruct (wlock t (rw s)); [|done]. injection H as <-. by eexists.
  - assert (s' = move s t (rw s) (data s) (told s) th (Telling (tell (data s)) (k (data s)))) as ->
      by (destruct (k (data s)); congruence). by eexists.
  - injection H as <-. eexists. split; [reflexivity|]. cbn. by rewrite app_nil_r.
  - injection H as <-. eexists. split; [reflexivity|]. cbn. by rewrite <- app_assoc.
  - assert (s' = move s t (rw s) (f (data s)) (told s) th (Left (k (data s)))) as ->
      by (destruct (k (data s)); congruence). by eexists.
  - injection H as <-. by eexists.
  - destruct (calls th) as [|c cs]; [done|]. injection H as <-. by eexists.
Qed.

Record one_writes t0 (total : outcome (list R * X * list N)) s : Prop := {
  one_finish : exists th, threads s !! t0 = Some th /\ finish th (data s) (told s) = total;
  one_quiet u th : u <> t0 -> threads s !! u = Some th -> quiet_thread th
}.

Lemma sched_one_writes t0 total s s' : sched s s' -> one_writes t0 total s -> one_writes t0 total s'.
Proof.
  intros [u H] [(th0 & H0 & Hf) Hq].
  assert (exists thu, threads s !! u = Some thu) as [thu Hu] by (unfold turn in H; destruct (threads s !! u); [eauto|done]).
  pose proof (lookup_lt_Some _ _ _ Hu) as Hlt. destruct (decide (u = t0)) as [->|Hne].
  - assert (thu = th0) as -> by congruence. destruct (turn_finish t0 s s' th0 H Hu) as (th' & E & Hf'). split.
    + exists th'. rewrite E, list_lookup_insert_eq by done. split; [done|congruence].
    + intros v th Hv Hl. rewrite E, list_lookup_insert_ne in Hl by done. by apply (Hq v).
  - destruct (quiet_turn u s s' thu H Hu (Hq u thu Hne Hu)) as (Ed & En & th' & E & Hq'). split.
    + exists th0. by rewrite E, list_lookup_insert_ne, Ed, En.
    + intros v th Hv Hl. rewrite E in Hl. destruct (decide (v = u)) as [->|Hvu].
      * rewrite list_lookup_insert_eq in Hl by done. by injection Hl as <-.
      * rewrite list_lookup_insert_ne in Hl by done. by apply (Hq v).
Qed.

Lemma reachable_one_writes x programs t0 cs s :
  programs !! t0 = Some cs -> (forall u cs', u <> t0 -> programs !! u = Some cs' -> Forall (fun c => quiet (meaning c)) cs') ->
  reachable x programs s -> one_writes t0 (all_alone cs x [] []) s.
Proof.
  intros Ht Hq. unfold reachable. intros H. refine (rtc_ind_r (fun s => one_writes t0 (all_alone cs x [] []) s) _ _ _ s H).
  - split; cbn.
    + exists (mkThread cs None []). split; [by apply (list_lookup_fmap_Some_2 (fun cs => mkThread cs None []))|done].
    + intros u th Hu Hl. apply list_lookup_fmap_Some_1 in Hl as (cs' & -> & Hl). split; [by apply (Hq u)|done].
  - intros s1 s2 _ Hst. by apply sched_one_writes.
Qed.

(** When only one thread changes the data or tells others, and all others only look,
    the threads together are as good as that one alone, whatever the order of the
    turns: once it has made its calls the data, what was told, and what its calls
    returned are those of the calls made one after the other. *)
Theorem one_writer_sequential x programs t0 cs s th :
  programs !! t0 = Some cs -> (forall u cs', u <> t0 -> programs !! u = Some cs' -> Forall (fun c => quiet (meaning c)) cs') ->
  reachable x programs s -> threads s !! t0 = Some th -> finished th = true ->
  all_alone cs x [] [] = Ret (results th, data s, told s).
Proof.
  intros Ht Hq Hs H0 Hf. destruct (one_finish _ _ _ (reachable_one_writes _ _ _ _ _ Ht Hq Hs)) as (th' & H0' & <-).
  assert (th' = th) as -> by congruence. unfold finish. unfold finished in Hf. destruct (place_ th); [done|].
  by destruct (calls th).
Qed.
End rw.
Arguments prog : clear implicits.
Arguments place : clear implicits.
Arguments thread : clear implicits.
Arguments state : clear implicits.
