(* ===== verification/LockOrder.v ===== *)
(** * Locks taken in order (src/qslary/base/Mutex.h)

    Threads that hold several [MutexLock]s at a time, by [MutexLockGuard]s in nested
    blocks. When every thread takes its locks in the order of their ranks there is no
    deadlock, whatever the data decide and whatever the order of the turns. *)
From stdpp Require Import base list relations.
From Stdlib Require Import Lia.
From S2P Require Import Prelude.

Section order.
(** The data, the locks with their ranks, the calls. *)
Context {X L C : Type} `{EqDecision L} (rank : L -> nat) (bound : nat).

(** What a call does: look at the data, take and give up locks, change the data. *)
Inductive prog : Type :=
| Done
| Look (k : X -> prog)
| Acquire (l : L) (k : prog)
| Release (l : L) (k : prog)
| Change (f : X -> X) (k : prog).

Record thread : Type := mkThread { calls : list C; todo : prog; held : list L }.
Record state : Type := mkState { owner : L -> option nat; data : X; threads : list thread }.

Context (meaning : C -> prog) (P : X -> Prop) (ok : C -> Prop).
Implicit Types (s : state) (th : thread) (t : nat) (p : prog).

Definition set_owner s (l : L) (o : option nat) : L -> option nat :=
  fun l' => if decide (l' = l) then o else owner s l'.

(** The turn of the thread [t]; [None]: it is blocked or has ended. *)
Definition turn t s : option state :=
  match threads s !! t with
  | None => None
  | Some th =>
      let put own x th := Some (mkState own x (<[t := th]> (threads s))) in
      match todo th with
      | Done =>
          match calls th with
          | [] => None
          | c :: cs => put (owner s) (data s) (mkThread cs (meaning c) (held th))
          end
      | Look k => put (owner s) (data s) (mkThread (calls th) (k (data s)) (held th))
      | Acquire l k =>
          match owner s l with
          | None => put (set_owner s l (Some t)) (data s) (mkThread (calls th) k (l :: held th))
          | Some _ => None
          end
      | Release l k => put (set_owner s l None) (data s) (mkThread (calls th) k (tail (held th)))
      | Change f k => put (owner s) (f (data s)) (mkThread (calls th) k (held th))
      end
  end.

Definition sched s s' : Prop := exists t, turn t s = Some s'.
Definition new_state (x : X) (programs : list (list C)) : state :=
  mkState (fun _ => None) x (map (fun cs => mkThread cs Done []) programs).
Definition finished th : Prop := calls th = [] /\ todo th = Done.

(** A program that takes its locks in order, while it holds [hs], gives them up in the
    reverse order, and keeps what holds of the data. *)
Fixpoint ordered (hs : list L) p : Prop :=
  match p with
  | Done => hs = []
  | Look k => forall x, P x -> ordered hs (k x)
  | Acquire l k => rank l <= bound /\ Forall (fun h => rank h < rank l) hs /\ ordered (l :: hs) k
  | Release l k => match hs with h :: hs => h = l /\ ordered hs k | [] => False end
  | Change f k => (forall x, P x -> P (f x)) /\ ordered hs k
  end.

(** A call made alone. *)
Fixpoint alone p (x : X) : X :=
  match p with
  | Done => x
  | Look k => alone (k x) x
  | Acquire _ k | Release _ k => alone k x
  | Change f k => alone k (f x)
  end.

Record in_order s : Prop := {
  io_data : P (data s);
  io_todo t th : threads s !! t = Some th -> ordered (held th) (todo th) /\ NoDup (held th) /\ Forall ok (calls th);
  io_owner l t : owner s l = Some t <-> exists th, threads s !! t = Some th /\ l ∈ held th
}.

(** The calls that are made take their locks in order. *)
Context (meaning_ordered : forall c, ok c -> ordered [] (meaning c)).

(** A thread goes on with the locks it has. *)
Lemma in_order_go s t th th' x :
  in_order s -> threads s !! t = Some th -> held th' = held th -> ordered (held th) (todo th') ->
  Forall ok (calls th') -> P x ->
  in_order (mkState (owner s) x (<[t := th']> (threads s))).
Proof.
  intros [Hd Ht Ho] Hth Eh Hp Hc Hx. pose proof (lookup_lt_Some _ _ _ Hth) as Hlt. split; cbn; [done|..].
  - intros u thu Hu. destruct (decide (u = t)) as [->|Hne].
    + rewrite list_lookup_insert_eq in Hu by done. injection Hu as <-. rewrite Eh. split_and!; [done|by apply (Ht t th)|done].
    + rewrite list_lookup_insert_ne in Hu by done. by apply (Ht u thu).
  - intros l u. rewrite Ho. destruct (decide (u = t)) as [->|Hne].
    + rewrite list_lookup_insert_eq by done. split; intros (thu & Hu & Hl); eexists; (split; [done|]).
      * assert (thu = th) as -> by congruence. by rewrite Eh.
      * injection Hu as <-. by rewrite Eh in Hl.
    + by rewrite list_lookup_insert_ne.
Qed.

Lemma sched_in_order s s' : sched s s' -> in_order s -> in_order s'.
Proof.
  intros [t H] Hs. unfold turn in H. destruct (threads s !! t) as [th|] eqn:Ht; [|done].
  pose proof (lookup_lt_Some _ _ _ Ht) as Hlt. destruct (io_todo _ Hs t th Ht) as (Hp & Hnd & Hok). pose proof (io_data _ Hs) as Hd.
  destruct (todo th) as [|k|l k|l k|f k] eqn:Ep; cbn [ordered] in Hp.
  - destruct (calls th) as [|c cs]; [done|]. injection H as <-. apply Forall_cons in Hok as [Hc Hok].
    apply (in_order_go s t th); [done|done|done| |done|done]. cbn. rewrite Hp. by apply meaning_ordered.
  - injection H as <-. apply (in_order_go s t th); [done..| |done|done]. by apply Hp.
  - destruct (owner s l) eqn:Eo; [done|]. injection H as <-. destruct Hp as (Hb & Hr & Hp). destruct Hs as [_ Hto Ho].
    split; cbn; [done|..].
    + intros u thu Hu. destruct (decide (u = t)) as [->|Hne]; [|rewrite list_lookup_insert_ne in Hu by done; by apply (Hto u)].
      rewrite list_lookup_insert_eq in Hu by done. injection Hu as <-. cbn. split_and!; [done| |done]. constructor; [|done].
      intros Hl. rewrite Forall_forall in Hr. specialize (Hr l Hl). lia.
    + intros l' u. unfold set_owner. destruct (decide (l' = l)) as [->|Hl], (decide (u = t)) as [->|Hu];
        rewrite ?list_lookup_insert_eq, ?list_lookup_insert_ne by done.
      * split; [intros _; eexists; split; [done|left]|done].
      * split; [congruence|]. intros (thu & H1 & H2). pose proof (proj2 (Ho l u) (ex_intro _ thu (conj H1 H2))). congruence.
      * rewrite Ho. split; intros (thu & H1 & H2); eexists; (split; [done|]).
        -- assert (thu = th) as -> by congruence. by right.
        -- injection H1 as <-. cbn in H2. by apply elem_of_cons in H2 as [->|H2].
      * apply Ho.
  - destruct (held th) as [|h hs] eqn:Eh; [done|]. injection H as <-. destruct Hp as [-> Hp]. apply NoDup_cons in Hnd as [Hh Hnd].
    destruct Hs as [_ Hto Ho]. cbn [tail]. split; cbn; [done|..].
    + intros u thu Hu. destruct (decide (u = t)) as [->|Hne]; [|rewrite list_lookup_insert_ne in Hu by done; by apply (Hto u)].
      rewrite list_lookup_insert_eq in Hu by done. by injection Hu as <-.
    + intros l' u. unfold set_owner. destruct (decide (l' = l)) as [->|Hl], (decide (u = t)) as [->|Hu];
        rewrite ?list_lookup_insert_eq, ?list_lookup_insert_ne by done.
      * split; [done|]. intros (thu & [= <-] & H2). done.
      * split; [done|]. intros (thu & H1 & H2). pose proof (proj2 (Ho l u) (ex_intro _ thu (conj H1 H2))) as Eu.
        assert (l ∈ held th) as Hlh by (rewrite Eh; left). pose proof (proj2 (Ho l t) (ex_intro _ th (conj Ht Hlh))). congruence.
      * rewrite Ho. split; intros (thu & H1 & H2); eexists; (split; [done|]).
        -- assert (thu = th) as -> by congruence. rewrite Eh in H2. by apply elem_of_cons in H2 as [->|H2].
        -- injection H1 as <-. rewrite Eh. by right.
      * apply Ho.
  - injection H as <-. destruct Hp as [Hf Hp]. apply (in_order_go s t th); auto.
Qed.

Lemma new_state_in_order x programs : P x -> Forall (Forall ok) programs -> in_order (new_state x programs).
Proof.
  intros Hx Hok.
  assert (forall t th, map (fun cs => mkThread cs Done []) programs !! t = Some th ->
    todo th = Done /\ held th = [] /\ Forall ok (calls th)) as H.
  { intros t th Ht. apply list_lookup_fmap_Some_1 in Ht as (cs & -> & Hcs). split_and!; [done|done|].
    by apply (Forall_lookup_1 _ _ _ _ Hok Hcs). }
  split; cbn; [done|..].
  - intros t th Ht. destruct (H t th Ht) as (-> & -> & Hc). split_and!; [done|constructor|done].
  - intros l t. split; [done|]. intros (th & Ht & Hl). destruct (H t th Ht) as (_ & E & _). rewrite E in Hl. by apply elem_of_nil in Hl.
Qed.

(** Some thread can go on: one that waits does so for a lock of a higher rank than all
    it holds, so that among the waiting there is one that waits for nobody who
    waits. *)
Lemma waiting_progress s n : forall t th l k, in_order s -> threads s !! t = Some th -> todo th = Acquire l k ->
  bound - rank l < n -> exists u s', turn u s = Some s'.
Proof.
  induction n as [|n IH]; intros t th l k Hs Ht Ep Hn; [lia|].
  destruct (owner s l) as [u|] eqn:Eo; [|exists t; unfold turn; rewrite Ht, Ep, Eo; by eexists].
  apply (io_owner _ Hs) in Eo as (thu & Hu & Hl). destruct (io_todo _ Hs u thu Hu) as [Hp _].
  destruct (todo thu) as [|k'|l' k'|l' k'|f k'] eqn:Epu; cbn [ordered] in Hp;
    try (exists u; unfold turn; rewrite Hu, Epu; by eexists).
  - rewrite Hp in Hl. by apply elem_of_nil in Hl.
  - destruct Hp as (Hb & Hr & _). rewrite Forall_forall in Hr. specialize (Hr l Hl).
    apply (IH u thu l' k' Hs Hu Epu). lia.
Qed.

Lemma in_order_progress s t th : in_order s -> threads s !! t = Some th -> finished th \/ exists u s', turn u s = Some s'.
Proof.
  intros Hs Ht. destruct (todo th) as [|k|l k|l k|f k] eqn:Ep;
    try (right; exists t; unfold turn; rewrite Ht, Ep; by eexists).
  - destruct (calls th) as [|c cs] eqn:Ec; [by left|]. right. exists t. unfold turn. rewrite Ht, Ep, Ec. by eexists.
  - right. by apply (waiting_progress s (S (bound - rank l)) t th l k); [| | |lia].
Qed.

(** The ways of a thread through its calls, whatever the data. *)
Inductive goes : list C * prog -> list C * prog -> Prop :=
| goes_call c cs : goes (c :: cs, Done) (cs, meaning c)
| goes_look cs k x : goes (cs, Look k) (cs, k x)
| goes_acquire cs l k : goes (cs, Acquire l k) (cs, k)
| goes_release cs l k : goes (cs, Release l k) (cs, k)
| goes_change cs f k : goes (cs, Change f k) (cs, k).

Lemma locks_goes_ends cs : forall p, sn goes (cs, p).
Proof.
  induction cs as [|c cs IHcs]; intros p; induction p as [|k IH|l k IH|l k IH|f k IH];
    constructor; unfold flip; intros y H; inversion H; subst; done.
Qed.

Definition way th : list C * prog := (calls th, todo th).
Lemma locks_sched_one s s' : sched s s' -> one_of goes (map way (threads s)) (map way (threads s')).
Proof.
  intros [t H]. unfold turn in H. destruct (threads s !! t) as [th|] eqn:Ht; [|done].
  assert (forall o x th', Some (mkState o x (<[t := th']> (threads s))) = Some s' -> goes (way th) (way th') ->
    one_of goes (map way (threads s)) (map way (threads s'))) as Hone.
  { intros o x th' [= <-] Hg. exists t, (way th), (way th'). split_and!; [by apply list_lookup_fmap_Some_2|done|].
    cbn. by rewrite <- (list_fmap_insert way). }
  unfold way in Hone at 1. destruct (todo th) as [|k|l k|l k|f k] eqn:Ep.
  - destruct (calls th) as [|c cs]; [done|]. eapply Hone; [exact H|]. constructor.
  - eapply Hone; [exact H|]. constructor.
  - destruct (owner s l); [done|]. eapply Hone; [exact H|]. constructor.
  - eapply Hone; [exact H|]. constructor.
  - eapply Hone; [exact H|]. constructor.
Qed.

Lemma locks_sched_ends s : sn sched s.
Proof.
  assert (sn (one_of goes) (map way (threads s))) as H.
  { apply one_of_ends, Forall_forall. intros [cs p] _. apply locks_goes_ends. }
  remember (map way (threads s)) as w eqn:E. revert s E. induction H as [w _ IH]. intros s ->.
  constructor. unfold flip. intros s' Hs'. eapply IH; [exact (locks_sched_one s s' Hs')|done].
Qed.

(** Locks taken in order never deadlock: from every state that can be reached every
    sequence of turns ends, and where it ends every thread has made all its calls;
    what holds of the data holds all along, and a lock has at most one owner, who
    knows that he holds it. *)
Theorem ordered_locks_end x programs s :
  P x -> Forall (Forall ok) programs -> rtc sched (new_state x programs) s ->
  sn sched s /\ P (data s) /\
  ((forall t, turn t s = None) -> forall t th, threads s !! t = Some th -> finished th) /\
  (forall l t u th thu, threads s !! t = Some th -> threads s !! u = Some thu -> l ∈ held th -> l ∈ held thu -> t = u).
Proof.
  intros Hx Hok Hr. assert (in_order s) as Hs.
  { refine (rtc_ind_r (fun s => in_order s) _ _ _ s Hr); [by apply new_state_in_order|].
    intros s1 s2 _ Hst. by apply sched_in_order. }
  split_and!; [apply locks_sched_ends|apply (io_data _ Hs)|..].
  - intros Hst t th Ht. destruct (in_order_progress s t th Hs Ht) as [Hf|(u & s' & Hu)]; [done|by rewrite Hst in Hu].
  - intros l t u th thu Ht Hu Hl Hl'. assert (owner s l = Some t) as E1 by (apply (io_owner _ Hs); by exists th).
    assert (owner s l = Some u) as E2 by (apply (io_owner _ Hs); by exists thu). congruence.
Qed.

(** Turns that are offered; a thread that is blocked does not take its own. *)
Fixpoint offer (ts : list nat) s : state :=
  match ts with
  | [] => s
  | t :: ts => offer ts (match turn t s with Some s' => s' | None => s end)
  end.
Lemma offer_reaches ts : forall s, rtc sched s (offer ts s).
Proof.
  induction ts as [|t ts IH]; intros s; cbn [offer]; [done|]. destruct (turn t s) as [s'|] eqn:E; [|apply IH].
  eapply rtc_l; [by exists t|apply IH].
Qed.
Definition ended th : bool := match calls th, todo th with [], Done => true | _, _ => false end.
Definition all_ended s : bool := forallb ended (threads s).
Lemma all_ended_stops s : all_ended s = true -> forall t, turn t s = None.
Proof.
  unfold all_ended. rewrite forallb_forall. intros H t. unfold turn. destruct (threads s !! t) as [th|] eqn:E; [|done].
  apply list_elem_of_lookup_2, list_elem_of_In, H in E. unfold ended in E.
  destruct (calls th); [|done]. by destruct (todo th).
Qed.
(** An end is looked at only through what is asked of it. *)
Lemma offer_end {A} (f : state -> A) a ts s0 :
  all_ended (offer ts s0) = true -> f (offer ts s0) = a ->
  exists s, rtc sched s0 s /\ (forall t, turn t s = None) /\ f s = a.
Proof. intros H1 H2. exists (offer ts s0). split_and!; [apply offer_reaches|by apply all_ended_stops|done]. Qed.
End order.
