(* ===== verification/Latch.v ===== *)
(** * CountDownLatch and Thread (src/qslary/base/CountDownLatch.h,
      CountDownLatch.cc, Thread.h, Thread.cc)

    A latch is a monitor (Monitor.v) whose data is the count. [Thread::start]
    waits on one for the new thread. *)
From stdpp Require Import base list relations strings.
From Stdlib Require Import ZArith Lia String.
From S2P Require Import Prelude CLib Monitor.
Open Scope Z_scope.

(** What a thread does with a latch, and without it on data of type [Y]. *)
Inductive latch_call (Y : Type) : Type :=
| LatchAct (f : Y -> Y)
| LatchWait                                           (** [wait] *)
| LatchCountDown                                      (** [countDown] *)
| LatchGetCount.                                      (** [getCount] *)
Arguments LatchAct {Y}.
Arguments LatchWait {Y}.
Arguments LatchCountDown {Y}.
Arguments LatchGetCount {Y}.

Section latch.
Context {Y : Type}.

(** [CountDownLatch::wait], [countDown] and [getCount] *)
Definition latch_meaning (c : latch_call Y) : action Z Y :=
  match c with
  | LatchAct f => Act f
  | LatchWait => WaitUntil (fun m_count => negb (0 <? m_count))
  | LatchCountDown =>
      Update (fun m_count => signed 32 (m_count - 1)) (fun m_count => if m_count =? 0 then NotifyAll else Silent)
  | LatchGetCount => Update (fun m_count => Ret m_count) (fun _ => Silent)
  end.

(** [CountDownLatch::CountDownLatch] and the threads that use it. *)
Abbreviation latch := (monitor Z Y (latch_call Y)).
Definition new_CountDownLatch (count : Z) (y : Y) (programs : list (list (latch_call Y))) : latch :=
  new_monitor count y programs.

Implicit Types (s : latch) (th : thread (latch_call Y)) (cs : list (latch_call Y)).
Abbreviation turn := (turn latch_meaning).
Abbreviation sched := (sched latch_meaning).
Abbreviation step := (step latch_meaning).
Abbreviation reachable := (reachable latch_meaning).

Definition is_countDown (c : latch_call Y) : bool := match c with LatchCountDown => true | _ => false end.
Definition is_wait (c : latch_call Y) : bool := match c with LatchWait => true | _ => false end.
Definition counts cs : Z := Z.of_nat (List.length (List.filter is_countDown cs)).

(** The calls of [countDown] that a thread has still to make. *)
Definition counts_left th : Z :=
  match place_ th with
  | Noticing _ | Leaving | Unassigned => counts (tail (calls th))
  | _ => counts (calls th)
  end.
Definition all_counts_left s : Z := foldr Z.add 0 (map counts_left (threads s)).

(** ** The invariant *)
Record latch_inv (spent : Z) s : Prop := {
  linv_sound : sound latch_meaning s;
  linv_left t th : threads s !! t = Some th ->
    head (calls th) = Some LatchWait -> (place_ th = Leaving \/ place_ th = Unassigned) -> guarded s <= 0;
  linv_unguarded t th : threads s !! t = Some th -> place_ th = Unguarded -> 0 < guarded s;
  linv_notice t th n : threads s !! t = Some th -> place_ th = Noticing n ->
    n = Silent \/ (n = NotifyAll /\ guarded s = 0);
  linv_asleep t th : threads s !! t = Some th -> place_ th = Sleeping ->
    0 < guarded s \/ exists u thu, threads s !! u = Some thu /\ place_ thu = Noticing NotifyAll;
  linv_count : guarded s = spent + all_counts_left s;
  linv_range : guarded s < 2 ^ 31
}.

Lemma counts_left_wake th : counts_left (wake th) = counts_left th.
Proof. by destruct th as [cs []]. Qed.

Lemma sum_others t (l l' : list (thread (latch_call Y))) th th' :
  l !! t = Some th -> l' !! t = Some th' -> others t l l' ->
  foldr Z.add 0 (map counts_left l') = foldr Z.add 0 (map counts_left l) + counts_left th' - counts_left th.
Proof.
  assert (forall a b, left_alone a b -> counts_left b = counts_left a) as Hw.
  { intros a b [->| ->]; [done|apply counts_left_wake]. }
  assert (forall l l' : list (thread (latch_call Y)), (forall u, match l !! u, l' !! u with
    | Some a, Some b => left_alone a b | None, None => True | _, _ => False end) ->
    foldr Z.add 0 (map counts_left l') = foldr Z.add 0 (map counts_left l)) as Hsame.
  { clear l l'. intros l. induction l as [|a l IH]; intros [|b l'] H; [done|specialize (H O); done..|].
    cbn. rewrite (Hw a b (H O)). f_equal. apply IH. intros u. exact (H (S u)). }
  revert t l'. induction l as [|a l IH]; intros t [|b l'] Ht Ht' H; [done..|].
  destruct t as [|t]; cbn in Ht, Ht' |- *.
  - injection Ht as ->. injection Ht' as ->. rewrite (Hsame l l'); [lia|]. intros u. exact (H (S u) ltac:(lia)).
  - rewrite (Hw a b (H O ltac:(lia))), (IH t l' Ht Ht'); [lia|]. intros u Hu. exact (H (S u) ltac:(lia)).
Qed.

(** One thread goes from [th] to [th']. *)
Lemma inv_turn spent s s' t th th' :
  latch_inv spent s -> sound latch_meaning s' ->
  threads s !! t = Some th -> threads s' !! t = Some th' -> others t (threads s) (threads s') ->
  guarded s' - guarded s = counts_left th' - counts_left th -> guarded s' <= guarded s ->
  (guarded s' <> guarded s -> holding (place_ th) = true) ->
  (head (calls th') = Some LatchWait -> place_ th' = Leaving \/ place_ th' = Unassigned -> guarded s' <= 0) ->
  (place_ th' = Unguarded -> 0 < guarded s') ->
  (forall n, place_ th' = Noticing n -> n = Silent \/ (n = NotifyAll /\ guarded s' = 0)) ->
  (place_ th' = Sleeping -> 0 < guarded s') ->
  (0 < guarded s -> 0 < guarded s' \/ place_ th' = Noticing NotifyAll) ->
  (place_ th = Noticing NotifyAll -> forall u thu, threads s' !! u = Some thu -> place_ thu <> Sleeping) ->
  latch_inv spent s'.
Proof.
  intros [Hso H1 H2 H3 H4 H5 H6] Hso' Ht Ht' Hoth Hsum Hle Hhold P1 P2 P3 P4 A1 A2.
  assert (forall u thu', u <> t -> threads s' !! u = Some thu' -> exists thu, threads s !! u = Some thu /\
    left_alone thu thu') as Hback.
  { intros u thu' Hu E. specialize (Hoth u Hu). rewrite E in Hoth.
    destruct (threads s !! u) as [thu|]; [by exists thu|done]. }
  assert (forall u thu, u <> t -> threads s !! u = Some thu -> holding (place_ thu) = true -> guarded s' = guarded s) as Hkeep.
  { intros u thu Hu E Hh. destruct (decide (guarded s' = guarded s)) as [|Hne]; [done|].
    pose proof (sound_owner _ s Hso t th Ht (Hhold Hne)). pose proof (sound_owner _ s Hso u thu E Hh). congruence. }
  split; [exact Hso'|..].
  - intros u thu' E Hhd Hpl. destruct (decide (u = t)) as [->|Hne].
    { rewrite Ht' in E. injection E as <-. by apply P1. }
    destruct (Hback u thu' Hne E) as (thu & E1 & Hl). etransitivity; [exact Hle|].
    destruct Hl as [->| ->]; [by apply (H1 u thu E1)|].
    apply (H1 u thu E1); destruct thu as [cs []]; cbn in *; done || by destruct Hpl.
  - intros u thu' E Hpl. destruct (decide (u = t)) as [->|Hne].
    { rewrite Ht' in E. injection E as <-. by apply P2. }
    destruct (Hback u thu' Hne E) as (thu & E1 & Hl).
    assert (place_ thu = Unguarded) as Hp by (destruct Hl as [->| ->]; [done|by destruct thu as [cs []]]).
    rewrite (Hkeep u thu Hne E1) by (by rewrite Hp). by apply (H2 u thu).
  - intros u thu' n E Hpl. destruct (decide (u = t)) as [->|Hne].
    { rewrite Ht' in E. injection E as <-. by apply P3. }
    destruct (Hback u thu' Hne E) as (thu & E1 & Hl).
    assert (place_ thu = Noticing n) as Hp by (destruct Hl as [->| ->]; [done|by destruct thu as [cs []]]).
    rewrite (Hkeep u thu Hne E1) by (by rewrite Hp). by apply (H3 u thu).
  - intros u thu' E Hpl. destruct (decide (u = t)) as [->|Hne].
    { rewrite Ht' in E. injection E as <-. left. by apply P4. }
    destruct (Hback u thu' Hne E) as (thu & E1 & Hl).
    assert (place_ thu = Sleeping) as Hp by (destruct Hl as [->| ->]; [done|by destruct thu as [cs []]]).
    destruct (H4 u thu E1 Hp) as [Hg|(v & thv & Ev & Hv)].
    + destruct (A1 Hg) as [|Hn]; [by left|right; by exists t, th'].
    + destruct (decide (v = t)) as [->|Hvt].
      * assert (thv = th) as -> by congruence. by destruct (A2 Hv u thu' E).
      * right. pose proof (Hoth v Hvt) as Ho. rewrite Ev in Ho. destruct (threads s' !! v) as [thv'|] eqn:Ev'; [|done].
        exists v, thv'. split; [done|]. destruct Ho as [->| ->]; [done|]. destruct thv as [cs p]. cbn in Hv. by subst p.
  - unfold all_counts_left in *. rewrite (sum_others t _ _ th th' Ht Ht' Hoth). lia.
  - lia.
Qed.

(** The same when only the places of threads change. *)
Lemma inv_move spent s t cs p p' o h y :
  latch_inv spent s -> sound latch_meaning (mkMonitor o h (guarded s) y (go s t p')) ->
  threads s !! t = Some (mkThread cs p) ->
  counts_left (mkThread cs p') = counts_left (mkThread cs p) ->
  (head cs = Some LatchWait -> p' = Leaving \/ p' = Unassigned -> guarded s <= 0) ->
  (p' = Unguarded \/ p' = Sleeping -> 0 < guarded s) ->
  (forall n, p <> Noticing n) -> (forall n, p' = Noticing n -> n = Silent) ->
  latch_inv spent (mkMonitor o h (guarded s) y (go s t p')).
Proof.
  intros HI Hso Ht Hc P1 P2 P3 P4.
  apply (inv_turn spent s _ t _ (mkThread cs p') HI Hso Ht); cbn [place_ calls guarded]; try done.
  - cbn. unfold go. by rewrite list_lookup_alter_eq, Ht.
  - apply others_alter.
  - rewrite Hc. lia.
  - intros ->. by apply P2; left.
  - intros n ->. left. by apply P4.
  - intros ->. by apply P2; right.
  - by left.
  - intros E. by destruct (P3 NotifyAll).
Qed.

Lemma counts_tail cs : head cs <> Some LatchCountDown -> counts (tail cs) = counts cs.
Proof. by destruct cs as [|[] cs]. Qed.

Lemma inv_next spent s t cs p o h y :
  latch_inv spent s ->
  sound latch_meaning (mkMonitor o h (guarded s) y
    (alter (fun th => mkThread (tail (calls th)) Outside) t (threads s))) ->
  threads s !! t = Some (mkThread cs p) ->
  p = Unassigned \/ p = Outside /\ head cs <> Some LatchCountDown ->
  latch_inv spent (mkMonitor o h (guarded s) y
    (alter (fun th => mkThread (tail (calls th)) Outside) t (threads s))).
Proof.
  intros HI Hso Ht Hp.
  apply (inv_turn spent s _ t _ (mkThread (tail cs) Outside) HI Hso Ht); cbn [place_ calls guarded]; try done.
  - cbn. by rewrite list_lookup_alter_eq, Ht.
  - apply others_alter.
  - unfold counts_left. cbn. destruct Hp as [->|[-> Hh]]; [lia|]. rewrite counts_tail by done. lia.
  - by intros _ [?|?].
  - by left.
  - by destruct Hp as [->|[-> _]].
Qed.

Lemma inv_countDown spent s t cs x o h y :
  latch_inv spent s -> threads s !! t = Some (mkThread (LatchCountDown :: cs) Inside) -> x = guarded s - 1 ->
  let l := go s t (Noticing (if x =? 0 then NotifyAll else Silent)) in
  sound latch_meaning (mkMonitor o h x y l) -> latch_inv spent (mkMonitor o h x y l).
Proof.
  intros HI Ht -> l Hso.
  set (n := if guarded s - 1 =? 0 then NotifyAll else Silent) in *.
  apply (inv_turn spent s _ t _ (mkThread (LatchCountDown :: cs) (Noticing n)) HI Hso Ht);
    cbn [place_ calls guarded head]; try done.
  - cbn. unfold l, go. by rewrite list_lookup_alter_eq, Ht.
  - apply others_alter.
  - unfold counts_left, counts. cbn [place_ calls tail List.filter is_countDown List.length]. lia.
  - lia.
  - intros n' [= <-]. unfold n. destruct (Z.eqb_spec (guarded s - 1) 0); [by right|by left].
  - intros Hg. unfold n. destruct (Z.eqb_spec (guarded s - 1) 0) as [E|E]; [by right|left; lia].
Qed.

Lemma inv_notice spent s t c cs n l o h y :
  latch_inv spent s -> threads s !! t = Some (mkThread cs (Noticing n)) ->
  notify n c (threads s) = Some l ->
  let l' := alter (fun th => mkThread (calls th) Leaving) t l in
  sound latch_meaning (mkMonitor o h (guarded s) y l') -> latch_inv spent (mkMonitor o h (guarded s) y l').
Proof.
  intros HI Ht Hn l' Hso. pose proof (notify_self _ _ _ _ _ _ Hn Ht eq_refl) as Hl.
  pose proof (sound_calls _ s (linv_sound _ _ HI) t _ Ht) as Hcall. unfold in_call in Hcall. cbn in Hcall.
  apply (inv_turn spent s _ t _ (mkThread cs Leaving) HI Hso Ht); cbn [place_ calls guarded]; try done.
  - cbn. unfold l'. by rewrite list_lookup_alter_eq, Hl.
  - intros u Hu. pose proof (notify_others _ _ _ _ t Hn u Hu) as H. cbn. unfold l'. by rewrite list_lookup_alter_ne.
  - unfold counts_left. cbn. lia.
  - intros Hh. rewrite Hh in Hcall. done.
  - by left.
  - intros [= ->] u thu. cbn. unfold l'. injection Hn as <-. destruct (decide (u = t)) as [->|Hne].
    + rewrite list_lookup_alter_eq. change (map wake (threads s)) with (wake <$> threads s).
      rewrite list_lookup_fmap, Ht. by intros [= <-].
    + rewrite list_lookup_alter_ne by done. change (map wake (threads s)) with (wake <$> threads s).
      rewrite list_lookup_fmap. destruct (threads s !! u) as [[cs' p']|]; [|done]. intros [= <-]. by destruct p'.
Qed.

(** What a place is not. *)
Ltac not_there :=
  solve [intros; repeat match goal with H : _ \/ _ |- _ => destruct H end; first [done|lia|congruence]].

Lemma turn_inv spent t c s s' : latch_inv spent s -> turn t c s = Ret (Some s') -> latch_inv spent s'.
Proof.
  intros HI H. pose proof (turn_sound latch_meaning _ _ _ _ (linv_sound _ _ HI) H) as Hso. revert H Hso.
  unfold Monitor.turn. destruct (threads s !! t) as [[cs p]|] eqn:Ht; [|done]. unfold current. cbn [place_ calls].
  pose proof (sound_calls _ s (linv_sound _ _ HI) t _ Ht) as Hcall. unfold in_call in Hcall. cbn in Hcall.
  destruct p; try done.
  - destruct cs as [|[f| | |] cs]; cbn; try done.
    + intros [= <-] Hso. apply (inv_next _ _ _ _ _ _ _ _ HI Hso Ht). by right.
    + destruct (owner s); [done|]. intros [= <-] Hso. apply (inv_move _ _ _ _ _ _ _ _ _ HI Hso Ht); not_there.
    + destruct (owner s); [done|]. intros [= <-] Hso. apply (inv_move _ _ _ _ _ _ _ _ _ HI Hso Ht); not_there.
    + destruct (owner s); [done|]. intros [= <-] Hso. apply (inv_move _ _ _ _ _ _ _ _ _ HI Hso Ht); not_there.
  - intros [= <-] Hso. apply (inv_move _ _ _ _ _ _ _ _ _ HI Hso Ht); not_there.
  - destruct cs as [|[f| | |] cs]; cbn; try done.
    + destruct (Z.ltb_spec 0 (guarded s)) as [Hg|Hg]; cbn [negb]; intros [= <-] Hso;
        apply (inv_move _ _ _ _ _ _ _ _ _ HI Hso Ht); not_there.
    + intros (x & Hx & [= <-])%obind_Ret_inv Hso. unfold signed in Hx.
      destruct (in_int 32 _) in Hx; [|done]. injection Hx as Hx. by apply (inv_countDown _ _ _ _ _ _ _ _ HI Ht).
    + intros [= <-] Hso. apply (inv_move _ _ _ _ _ _ _ _ _ HI Hso Ht); not_there.
  - destruct (notify n c (threads s)) as [l|] eqn:En; [|done]. intros [= <-] Hso.
    by apply (inv_notice _ _ _ _ _ _ _ _ _ _ HI Ht En).
  - intros [= <-] Hso. apply (inv_move _ _ _ _ _ _ _ _ _ HI Hso Ht); try not_there.
    intros _. by apply (linv_unguarded _ _ HI t _ Ht).
  - destruct (owner s); [done|]. intros [= <-] Hso. apply (inv_move _ _ _ _ _ _ _ _ _ HI Hso Ht); not_there.
  - intros [= <-] Hso. apply (inv_move _ _ _ _ _ _ _ _ _ HI Hso Ht); not_there.
  - intros [= <-] Hso. apply (inv_move _ _ _ _ _ _ _ _ _ HI Hso Ht); try not_there.
    intros Hh _. apply (linv_left _ _ HI t _ Ht Hh). by left.
  - intros [= <-] Hso. apply (inv_next _ _ _ _ _ _ _ _ HI Hso Ht). by left.
Qed.

Lemma step_inv spent s s' : latch_inv spent s -> step s s' -> latch_inv spent s'.
Proof.
  intros HI Hst. pose proof (step_sound latch_meaning _ _ (linv_sound _ _ HI) Hst) as Hso.
  destruct Hst as [s' (t & c & H)|t [cs p] Ht Hp]; [by eapply turn_inv|]. cbn in Hp. subst p.
  apply (inv_move _ _ _ _ _ _ _ _ _ HI Hso Ht); not_there.
Qed.

Definition total (programs : list (list (latch_call Y))) : Z := foldr Z.add 0 (map counts programs).

Lemma new_latch_inv count y programs :
  count < 2 ^ 31 -> latch_inv (count - total programs) (new_CountDownLatch count y programs).
Proof.
  intros Hc. assert (forall t th, threads (new_CountDownLatch count y programs) !! t = Some th -> place_ th = Outside) as Hp.
  { intros t th H. cbn in H. by apply list_lookup_fmap_Some_1 in H as (cs & -> & _). }
  split; [apply new_monitor_sound| | | | | |done];
    try (intros t th E; intros; rewrite (Hp t th E) in *; by destruct_or?).
  { intros t th n E. by rewrite (Hp t th E). }
  cbn [guarded new_CountDownLatch new_monitor]. unfold all_counts_left, total. cbn. rewrite map_map.
  change (fun x => counts_left (mkThread x Outside)) with counts. lia.
Qed.

Lemma latch_reachable_inv count y programs s :
  count < 2 ^ 31 -> reachable count y programs s -> latch_inv (count - total programs) s.
Proof.
  intros Hc H. refine (rtc_ind_r (latch_inv (count - total programs)) _ _ _ s H); [by apply new_latch_inv|].
  intros s1 s2 _ Hs Hi. by eapply step_inv.
Qed.

(** ** Turns end *)

(** How many turns a thread has at most left, by whether the count is positive. *)
Definition weight (positive : bool) th : nat :=
  12 * List.length (tail (calls th)) +
  match place_ th, calls th with
  | Outside, [] => 0
  | Outside, _ => 12
  | Locked, _ => 11
  | Inside, LatchWait :: _ => if positive then 8 else 3
  | Inside, _ => 8
  | Noticing _, _ => 7
  | Unguarded, _ => 7
  | Sleeping, _ => 6
  | Woken, _ => if positive then 10 else 5
  | Returned, _ => if positive then 9 else 4
  | Leaving, _ => 2
  | Unassigned, _ => 1
  end.
Definition measure s : nat := foldr Nat.add O (map (weight (0 <? guarded s)) (threads s)).

Lemma weight_le b th : (weight false th <= weight b th)%nat.
Proof. destruct b; [|done]. by destruct th as [[|[] cs] []]; unfold weight; cbn; lia. Qed.

Lemma weight_wake th : (weight false (wake th) <= weight false th)%nat.
Proof. destruct th as [cs []]; unfold weight; cbn; lia. Qed.

(** A sum of which no part grows and one part shrinks. *)
Lemma sum_lt {A} (f g : A -> nat) t (l l' : list A) a a' :
  l !! t = Some a -> l' !! t = Some a' -> (g a' < f a)%nat ->
  (forall u, u <> t -> match l !! u, l' !! u with
     | Some b, Some b' => (g b' <= f b)%nat | None, None => True | _, _ => False end) ->
  (foldr Nat.add O (map g l') < foldr Nat.add O (map f l))%nat.
Proof.
  assert (forall l l' : list A, (forall u, match l !! u, l' !! u with
    | Some b, Some b' => (g b' <= f b)%nat | None, None => True | _, _ => False end) ->
    (foldr Nat.add O (map g l') <= foldr Nat.add O (map f l))%nat) as Hle.
  { clear. intros l. induction l as [|b l IH]; intros [|b' l'] H; [done|by specialize (H O)..|].
    cbn. pose proof (H O). cbn in *. specialize (IH l' (fun u => H (S u))). lia. }
  intros Ht Ht' Hlt. revert t l' Ht Ht'. induction l as [|b l IH]; intros t [|b' l'] Ht Ht' H; [done..|].
  destruct t as [|t]; cbn in Ht, Ht' |- *.
  - injection Ht as ->. injection Ht' as ->. specialize (Hle l l' (fun u => H (S u) ltac:(lia))). lia.
  - pose proof (H O ltac:(lia)). cbn in *. specialize (IH t l' Ht Ht' (fun u Hu => H (S u) ltac:(lia))). lia.
Qed.

Lemma measure_lt t s s' th th' :
  threads s !! t = Some th -> threads s' !! t = Some th' -> others t (threads s) (threads s') ->
  (0 < guarded s' -> 0 < guarded s) ->
  (weight (0 <? guarded s')%Z th' < weight (0 <? guarded s)%Z th)%nat ->
  (0 < guarded s' -> forall u, u <> t -> threads s' !! u = threads s !! u) ->
  (measure s' < measure s)%nat.
Proof.
  intros Ht Ht' Hoth Hpos Hlt Hsame. apply (sum_lt _ _ t _ _ th th' Ht Ht' Hlt).
  intros u Hu. specialize (Hoth u Hu).
  destruct (threads s !! u) as [a|] eqn:E, (threads s' !! u) as [a'|] eqn:E'; try done.
  destruct (Z.ltb_spec 0 (guarded s')) as [Hg|Hg].
  - pose proof (Hsame Hg u Hu) as H. rewrite E, E' in H. injection H as ->.
    by rewrite (proj2 (Z.ltb_lt _ _) (Hpos Hg)).
  - etransitivity; [|apply weight_le]. destruct Hoth as [->| ->]; [done|apply weight_wake].
Qed.

Lemma measure_go t s cs p p' o h y :
  threads s !! t = Some (mkThread cs p) ->
  (weight (0 <? guarded s)%Z (mkThread cs p') < weight (0 <? guarded s)%Z (mkThread cs p))%nat ->
  (measure (mkMonitor o h (guarded s) y (go s t p')) < measure s)%nat.
Proof.
  intros Ht Hlt. apply (measure_lt t s _ (mkThread cs p) (mkThread cs p') Ht); try done.
  - cbn. unfold go. by rewrite list_lookup_alter_eq, Ht.
  - apply others_alter.
  - intros _ u Hu. cbn. unfold go. by apply list_lookup_alter_ne.
Qed.

Lemma measure_next t s cs p o h y :
  threads s !! t = Some (mkThread cs p) -> p = Unassigned \/ p = Outside /\ cs <> [] ->
  (measure (mkMonitor o h (guarded s) y
     (alter (fun th => mkThread (tail (calls th)) Outside) t (threads s))) < measure s)%nat.
Proof.
  intros Ht Hp. apply (measure_lt t s _ (mkThread cs p) (mkThread (tail cs) Outside) Ht); try done.
  - cbn. by rewrite list_lookup_alter_eq, Ht.
  - apply others_alter.
  - cbn [guarded]. unfold weight. cbn [place_ calls].
    destruct Hp as [->|[-> Hne]]; destruct cs as [|c [|c' cs]]; cbn; try done; lia.
  - intros _ u Hu. cbn. by apply list_lookup_alter_ne.
Qed.

(** Every turn leaves fewer. *)
Lemma turn_measure spent t c s s' :
  latch_inv spent s -> turn t c s = Ret (Some s') -> (measure s' < measure s)%nat.
Proof.
  intros HI. unfold Monitor.turn. destruct (threads s !! t) as [[cs p]|] eqn:Ht; [|done]. unfold current. cbn [place_ calls].
  pose proof (sound_calls _ s (linv_sound _ _ HI) t _ Ht) as Hcall. unfold in_call in Hcall. cbn in Hcall.
  destruct p; try done.
  - destruct cs as [|[f| | |] cs]; cbn; try done.
    + intros [= <-]. apply (measure_next _ _ _ _ _ _ _ Ht). by right.
    + destruct (owner s); [done|]. intros [= <-]. apply (measure_go _ _ _ _ _ _ _ _ Ht). unfold weight. cbn. lia.
    + destruct (owner s); [done|]. intros [= <-]. apply (measure_go _ _ _ _ _ _ _ _ Ht). unfold weight. cbn. lia.
    + destruct (owner s); [done|]. intros [= <-]. apply (measure_go _ _ _ _ _ _ _ _ Ht). unfold weight. cbn. lia.
  - intros [= <-]. apply (measure_go _ _ _ _ _ _ _ _ Ht). unfold weight.
    destruct cs as [|[f| | |] cs]; cbn; try destruct (0 <? guarded s); lia.
  - destruct cs as [|[f| | |] cs]; cbn; try done.
    + destruct (Z.ltb_spec 0 (guarded s)) as [Hg|Hg]; cbn [negb]; intros [= <-];
        apply (measure_go _ _ _ _ _ _ _ _ Ht); unfold weight; cbn; [rewrite (proj2 (Z.ltb_lt _ _) Hg)|destruct (0 <? guarded s)]; lia.
    + intros (x & Hx & [= <-])%obind_Ret_inv. unfold signed in Hx. destruct (in_int 32 _) in Hx; [|done]. injection Hx as <-.
      eapply (measure_lt t s _ _ (mkThread (LatchCountDown :: cs) _) Ht).
      * cbn. unfold go. by rewrite list_lookup_alter_eq, Ht.
      * apply others_alter.
      * cbn. lia.
      * unfold weight. cbn. lia.
      * intros _ u Hu. cbn. unfold go. by apply list_lookup_alter_ne.
    + intros [= <-]. apply (measure_go _ _ _ _ _ _ _ _ Ht). unfold weight. cbn. lia.
  - destruct (notify n c (threads s)) as [l|] eqn:En; [|done]. intros [= <-].
    pose proof (notify_self _ _ _ _ _ _ En Ht eq_refl) as Hl.
    apply (measure_lt t s _ _ (mkThread cs Leaving) Ht).
    + cbn. by rewrite list_lookup_alter_eq, Hl.
    + intros u Hu. pose proof (notify_others _ _ _ _ t En u Hu) as H. cbn. by rewrite list_lookup_alter_ne.
    + done.
    + unfold weight. cbn. lia.
    + cbn [guarded]. intros Hg u Hu. cbn. rewrite list_lookup_alter_ne by done.
      destruct (linv_notice _ _ HI t _ n Ht eq_refl) as [->|[-> Hz]]; [by injection En as ->|lia].
  - intros [= <-]. apply (measure_go _ _ _ _ _ _ _ _ Ht). unfold weight. cbn. lia.
  - destruct (owner s); [done|]. intros [= <-]. apply (measure_go _ _ _ _ _ _ _ _ Ht).
    unfold weight. cbn. destruct (0 <? guarded s); lia.
  - intros [= <-]. apply (measure_go _ _ _ _ _ _ _ _ Ht). unfold weight.
    destruct cs as [|[f| | |] cs]; cbn in *; try done; destruct (0 <? guarded s); lia.
  - intros [= <-]. apply (measure_go _ _ _ _ _ _ _ _ Ht). unfold weight. cbn. lia.
  - intros [= <-]. apply (measure_next _ _ _ _ _ _ _ Ht). by left.
Qed.

(** ** Turns are possible *)

(** Programs whose threads do not wait before they count down. *)
Fixpoint counts_first cs : bool :=
  match cs with
  | [] => true
  | LatchWait :: cs => counts cs =? 0
  | _ :: cs => counts_first cs
  end.

Lemma counts_first_tail cs : counts_first cs = true -> counts_first (tail cs) = true.
Proof.
  destruct cs as [|[] cs]; try done. cbn. intros H%Z.eqb_eq. induction cs as [|[f| | |] cs IH]; cbn; try done.
  - by apply IH.
  - by apply Z.eqb_eq.
  - by apply IH.
Qed.

Lemma counts_left_le s t th : threads s !! t = Some th -> counts_left th <= all_counts_left s.
Proof.
  assert (forall th : thread (latch_call Y), 0 <= counts_left th) as H0
    by (intros [cs' []]; unfold counts_left, counts; cbn [place_]; lia).
  unfold all_counts_left. generalize (threads s). intros l. revert t.
  induction l as [|a l IH]; intros u E; [done|]. cbn.
  assert (0 <= foldr Z.add 0 (map counts_left l)) by (clear -H0; induction l as [|b l IH]; cbn; [lia|]; pose proof (H0 b); lia).
  destruct u as [|u]; cbn in E; [injection E as ->; lia|]. pose proof (IH u E). pose proof (H0 a). lia.
Qed.

(** No turn overflows while the count cannot go below the range of [int]. *)
Lemma turn_fault spent t c s f : latch_inv spent s -> - 2 ^ 31 <= spent -> turn t c s <> Fault f.
Proof.
  intros HI Hs. unfold Monitor.turn. destruct (threads s !! t) as [[cs p]|] eqn:Ht; [|done]. unfold current. cbn [place_ calls].
  destruct p; try done; try (destruct (notify _ _ _); done); try (destruct (owner s); done).
  - destruct cs as [|[] cs]; cbn; try done; by destruct (owner s).
  - destruct cs as [|[f0| | |] cs]; cbn; try done; [by destruct (negb _)|].
    assert (1 <= counts_left (mkThread (LatchCountDown :: cs) Inside)) as Hc
      by (unfold counts_left, counts; cbn [place_ calls List.filter is_countDown List.length]; lia).
    pose proof (counts_left_le _ _ _ Ht) as Hl. pose proof (linv_count _ _ HI). pose proof (linv_range _ _ HI).
    unfold signed, in_int. change (32 - 1) with 31.
    by rewrite (proj2 (Z.leb_le _ _)), (proj2 (Z.ltb_lt _ _)) by lia.
Qed.

(** When no thread can go on, those that have not ended are asleep, and the count
    is positive. *)
Lemma blocked_asleep spent s t th :
  latch_inv spent s -> - 2 ^ 31 <= spent -> (forall s', ~ sched s s') -> threads s !! t = Some th ->
  place_ th = Outside /\ calls th = [] \/ place_ th = Sleeping /\ 0 < guarded s.
Proof.
  intros HI Hs Hb.
  assert (forall t c, turn t c s = Ret None) as Hnone.
  { intros u c. destruct (turn u c s) as [[s'|]|f] eqn:E; [|done|by apply (turn_fault spent u c s f HI Hs) in E].
    destruct (Hb s'). by exists u, c. }
  assert (owner s = None) as Ho.
  { destruct (owner s) as [u|] eqn:Eo; [|done]. exfalso.
    destruct (sound_holding _ s (linv_sound _ _ HI) u Eo) as ([cs p] & E & Hh & _). cbn in Hh.
    pose proof (sound_calls _ s (linv_sound _ _ HI) u _ E) as Hcall. unfold in_call in Hcall. cbn in Hcall.
    pose proof (Hnone u O) as H. unfold Monitor.turn in H. rewrite E in H. unfold current in H. cbn [place_ calls] in H.
    destruct p; try done.
    - destruct cs as [|[f0| | |] cs]; cbn in H; try done; [by destruct (negb _)|].
      by destruct (signed 32 (guarded s - 1)).
    - destruct (linv_notice _ _ HI u _ _ E eq_refl) as [->|[-> _]]; done. }
  assert (forall t th, threads s !! t = Some th -> place_ th = Outside /\ calls th = [] \/ place_ th = Sleeping) as Hp.
  { clear t th. intros t [cs p] E. cbn. pose proof (Hnone t O) as H. unfold Monitor.turn in H. rewrite E, Ho in H.
    pose proof (sound_owner _ s (linv_sound _ _ HI) t _ E) as Hown. cbn in Hown.
    unfold current in H. cbn [place_ calls] in H.
    destruct p; try (by specialize (Hown eq_refl); congruence); [|by right|done].
    left. split; [done|]. by destruct cs as [|[] cs]. }
  intros E. destruct (Hp t th E) as [|Hsl]; [by left|right]. split; [done|].
  destruct (linv_asleep _ _ HI t th E Hsl) as [|(u & thu & Eu & Hu)]; [done|].
  destruct (Hp u thu Eu) as [[? _]|?]; congruence.
Qed.

(** A latch whose threads count down at least as often as its count, and wait only
    behind that, opens: in whatever order the threads take their turns, and however
    often a wait returns without a reason, no turn fails; those that are left get
    fewer with each; and when none is possible, every thread has made all its
    calls. *)
Lemma latch_progress count y programs s :
  count < 2 ^ 31 -> count <= total programs -> - 2 ^ 31 <= count - total programs ->
  forallb counts_first programs = true -> reachable count y programs s ->
  (forall t c f, turn t c s <> Fault f) /\
  (forall s', sched s s' -> (measure s' < measure s)%nat) /\
  ((forall s', ~ sched s s') -> Forall (fun th => calls th = []) (threads s)).
Proof.
  intros Hc Hle Hlow Hf Hr. pose proof (latch_reachable_inv count y programs s Hc Hr) as HI.
  split; [intros t c f; by eapply turn_fault|]. split; [intros s' (t & c & H); by eapply turn_measure|].
  intros Hb. pose proof (fun t th => blocked_asleep _ s t th HI Hlow Hb) as Hp.
  assert (Forall (fun cs => counts_first cs = true) programs) as Hf'.
  { apply Forall_forall. intros cs Hcs. rewrite forallb_forall in Hf. by apply Hf, list_elem_of_In. }
  pose proof (reachable_calls latch_meaning (fun cs => counts_first cs = true) count y programs s
    counts_first_tail Hf' Hr) as Hfirst.
  assert (all_counts_left s = 0) as H0.
  { assert (Forall (fun th => counts_left th = 0) (threads s)) as Hall.
    { apply Forall_lookup. intros t [cs p] E. pose proof (Hfirst t _ E) as H1. cbn in H1.
      pose proof (sound_calls _ s (linv_sound _ _ HI) t _ E) as Hcall. unfold in_call in Hcall. cbn in Hcall.
      destruct (Hp t _ E) as [[Hp1 Hp2]|[Hp1 _]]; cbn in *; subst p; [by subst cs|].
      destruct cs as [|[] cs]; cbn in *; try done. unfold counts_left, counts in *. cbn. by apply Z.eqb_eq in H1. }
    unfold all_counts_left. clear -Hall. induction Hall as [|th l H _ IH]; cbn; [done|]. lia. }
  pose proof (linv_count _ _ HI). apply Forall_lookup. intros t th E.
  destruct (Hp t th E) as [[_ ?]|[_ ?]]; [done|lia].
Qed.

(** A latch whose threads count down at least as often as its count, and wait only
    behind that, opens: in whatever order the threads take their turns, and however
    often a wait returns without a reason, no turn fails; those that are left get
    fewer with each; and when none is possible, every thread has made all its
    calls. *)
Theorem latch_opens count y programs s :
  count < 2 ^ 31 -> count <= total programs -> - 2 ^ 31 <= count - total programs ->
  forallb counts_first programs = true -> reachable count y programs s ->
  (forall t c f, turn t c s <> Fault f) /\
  (forall s', sched s s' -> (measure s' < measure s)%nat) /\
  ((forall s', ~ sched s s') -> Forall (fun th => calls th = []) (threads s)).
Proof. exact (latch_progress count y programs s). Qed.

(** ** What a wait says *)

Definition waits cs : nat := List.length (List.filter is_wait cs).

Lemma waits_tail cs : head cs <> Some LatchWait -> waits (tail cs) = waits cs.
Proof. by destruct cs as [|[] cs]. Qed.

Lemma turn_guarded t c s s' : turn t c s = Ret (Some s') -> guarded s' <= guarded s.
Proof.
  intros H. destruct (turn_shape _ _ _ _ _ H) as (th & th' & _ & _ & _ & Hsh).
  destruct Hsh as [(f & _ & _ & _ & _ & ->)|[(_ & _ & _ & ->)|(_ & _ & [->|(f & n & Hc & _ & Hf)])]]; try lia.
  unfold current in Hc. destruct (head (calls th)) as [[g| | |]|]; cbn in Hc; try done.
  - injection Hc as <- _. unfold signed in Hf. destruct (in_int 32 _) in Hf; [|done]. injection Hf as <-. lia.
  - injection Hc as <- _. injection Hf as <-. lia.
Qed.

(** A call of [wait] returns only when the count is not positive, and it never is
    again: a thread that has fewer of them left than its program has seen the latch
    open. *)
Lemma waited_open count y programs s :
  count < 2 ^ 31 -> reachable count y programs s ->
  forall t cs th, programs !! t = Some cs -> threads s !! t = Some th ->
    (waits (calls th) < waits cs)%nat -> guarded s <= 0.
Proof.
  intros Hc Hr.
  refine (proj2 (rtc_ind_r (fun s => latch_inv (count - total programs) s /\
    forall t cs th, programs !! t = Some cs -> threads s !! t = Some th ->
    (waits (calls th) < waits cs)%nat -> guarded s <= 0) _ _ _ s Hr)); clear s Hr.
  - split; [by apply new_latch_inv|]. intros t cs th E E'. cbn in E'.
    apply list_lookup_fmap_Some_1 in E' as (cs' & -> & E'). cbn [calls]. assert (cs' = cs) as -> by congruence. intros H. lia.
  - intros s1 s2 _ Hst [HI IH]. split; [by eapply step_inv|]. destruct Hst as [s2 (t & c & H)|t th Ht Hp].
    + pose proof (turn_guarded _ _ _ _ H) as Hg.
      destruct (turn_shape _ _ _ _ _ H) as (th & th' & Ht & Ht' & Hoth & Hsh). intros u cs thu' Hu Eu Hw.
      destruct (decide (u = t)) as [->|Hne].
      * rewrite Ht' in Eu. injection Eu as <-.
        destruct Hsh as [(f & Hcur & _ & -> & _ & ->)|[(Hpl & -> & _ & ->)|(Ecs & _)]]; cbn [calls] in Hw.
        -- apply (IH t cs th Hu Ht). rewrite waits_tail in Hw; [done|]. intros E. unfold current in Hcur. by rewrite E in Hcur.
        -- destruct (is_wait <$> head (calls th)) as [[]|] eqn:E; [|apply (IH t cs th Hu Ht)..].
           ++ apply (linv_left _ _ HI t th Ht); [|by right]. by destruct (calls th) as [|[] ?].
           ++ rewrite waits_tail in Hw; [done|]. by destruct (calls th) as [|[] ?].
           ++ rewrite waits_tail in Hw; [done|]. by destruct (calls th) as [|[] ?].
        -- rewrite Ecs in Hw. pose proof (IH t cs th Hu Ht Hw). lia.
      * specialize (Hoth u Hne). rewrite Eu in Hoth. destruct (threads s1 !! u) as [thu|] eqn:E; [|done].
        assert (calls thu' = calls thu) as Ecs by (by destruct Hoth as [->| ->]). rewrite Ecs in Hw.
        pose proof (IH u cs thu Hu E Hw). lia.
    + intros u cs thu Hu. cbn. unfold go. destruct (decide (u = t)) as [->|Hne].
      * rewrite list_lookup_alter_eq, Ht. intros [= <-]. cbn. by apply (IH t cs th).
      * rewrite list_lookup_alter_ne by done. by apply IH.
Qed.

Lemma step_guarded s s' : step s s' -> guarded s' <= guarded s.
Proof. by intros [s'' (t & c & H)|]; [eapply turn_guarded|]. Qed.

Lemma rtc_guarded s s' : rtc step s s' -> guarded s' <= guarded s.
Proof. induction 1 as [|s1 s2 s3 H _ IH]; [done|]. apply step_guarded in H. lia. Qed.

(** A call of [wait] returns only when the latch is open, that is when the count is
    not positive, and then it stays so. *)
Theorem wait_returns_open count y programs s t cs th :
  count < 2 ^ 31 -> reachable count y programs s ->
  programs !! t = Some cs -> threads s !! t = Some th -> (waits (calls th) < waits cs)%nat ->
  guarded s <= 0 /\ forall s', rtc step s s' -> guarded s' <= 0.
Proof.
  intros Hc Hr Hcs Ht Hw. pose proof (waited_open count y programs s Hc Hr t cs th Hcs Ht Hw) as H0.
  split; [exact H0|]. intros s' Hs. apply rtc_guarded in Hs. lia.
Qed.
End latch.

(** Two threads wait for a third. *)
Definition example_programs : list (list (latch_call Z)) :=
  [[LatchWait]; [LatchWait; LatchGetCount]; [LatchAct (Z.add 1); LatchCountDown]].
Definition example_state : monitor Z Z (latch_call Z) :=
  mkMonitor None 0 0 1 [mkThread [LatchWait] Woken; mkThread [LatchGetCount] Outside; mkThread [] Outside].
Definition example_schedule : list (nat * nat) :=
  [(0, 0); (0, 0); (0, 0); (0, 0); (2, 0); (2, 0); (2, 0); (2, 0); (2, 0); (2, 0); (2, 0);
   (1, 0); (1, 0); (1, 0); (1, 0); (1, 0)]%nat.
Lemma example_reachable : reachable latch_meaning 1 0 example_programs example_state.
Proof. apply (run_reaches latch_meaning example_schedule). vm_compute. reflexivity. Qed.

Lemma latch_opens_witness :
  (forall t c f, turn latch_meaning t c example_state <> Fault f) /\
  (forall s', sched latch_meaning example_state s' -> (measure s' < measure example_state)%nat) /\
  ((forall s', ~ sched latch_meaning example_state s') ->
   Forall (fun th => calls th = []) (threads example_state)).
Proof.
  apply (latch_opens 1 0 example_programs example_state); [done|done|done|reflexivity|exact example_reachable].
Defined.

Lemma wait_returns_open_witness :
  guarded example_state <= 0 /\ forall s', rtc (step latch_meaning) example_state s' -> guarded s' <= 0.
Proof.
  apply (wait_returns_open 1 0 example_programs example_state 1%nat [LatchWait; LatchGetCount]
    (mkThread [LatchGetCount] Outside)); [done|exact example_reachable|done..|cbn; lia].
Defined.
