(* ===== verification/Thread.v ===== *)
(** * Thread (src/qslary/base/Thread.h, Thread.cc)

    [Thread::start] hands the new thread a latch (Latch.v) that it counts down when
    it has stored its identifier. *)
From stdpp Require Import base list relations strings.
From Stdlib Require Import ZArith Lia String.
From S2P Require Import Prelude CLib Monitor Latch.
Open Scope Z_scope.

Record Thread : Type := mkThr {
  pthreadId_ : nat;                                   (** counted from 1, 0 for none *)
  tid_ : Z;
  name_ : string;
  started_ : bool;
  joined_ : bool
}.

(** [AtomicInt64::incrementAndGet]: what it returns and leaves. *)
Definition incrementAndGet (value_ : Z) : outcome (Z * Z) :=
  let! n := signed 64 (value_ + 1) in Ret (n, wraps 64 (value_ + 1)).

(** [Thread::Thread] and [setDefaultName] *)
Definition setDefaultName (num : Z) (t : Thread) : Thread :=
  match name_ t with
  | EmptyString =>
      mkThr (pthreadId_ t) (tid_ t) ("Thread" ++ decimal num)%string (started_ t) (joined_ t)
  | _ => t
  end.
Definition new_Thread (threadNum : Z) (n : string) : outcome (Thread * Z) :=
  let! r := incrementAndGet threadNum in
  Ret (setDefaultName (fst r) (mkThr 0 0 n false false), snd r).

(** What pthreads keeps of a thread until it is joined or detached. *)
Inductive pthread : Set := Attached | Detached | Joined.

(** [start] up to the wait; whether [pthread_create] succeeds is the system's. *)
Definition start_create (created : bool) (t : Thread) (l : list pthread) : outcome (Thread * list pthread) :=
  let! _ := cassert (negb (started_ t)) in
  if created then Ret (mkThr (S (List.length l)) (tid_ t) (name_ t) true (joined_ t), l ++ [Attached])
  else Ret (mkThr (pthreadId_ t) (tid_ t) (name_ t) false (joined_ t), l).

Section start.
Context {W : Type}.

(** [ThreadData::runInThread] in the thread that the system calls [k], whose
    function does [body], beside [latch_.wait()]; [tid_] is shared. *)
Definition runInThread (k : Z) (body : list (W -> W)) : list (latch_call (Z * W)) :=
  LatchAct (fun y => (k, snd y)) :: LatchCountDown :: map (fun f => LatchAct (fun y => (fst y, f (snd y)))) body.
Definition start_programs (k : Z) (body : list (W -> W)) : list (list (latch_call (Z * W))) :=
  [[LatchWait]; runInThread k body].
Definition start_latch (k : Z) (w : W) (body : list (W -> W)) (t : Thread) : monitor Z (Z * W) (latch_call (Z * W)) :=
  new_CountDownLatch 1 (tid_ t, w) (start_programs k body).

(** Whether the wait is behind, and what [start] does then. *)
Definition waited (s : monitor Z (Z * W) (latch_call (Z * W))) : Prop :=
  exists th, threads s !! 0%nat = Some th /\ calls th = [].
Definition start_end (t : Thread) (s : monitor Z (Z * W) (latch_call (Z * W))) : outcome Thread :=
  let tid := fst (free s) in
  let! _ := cassert (0 <? tid) in Ret (mkThr (pthreadId_ t) tid (name_ t) (started_ t) (joined_ t)).

Implicit Types (s : monitor Z (Z * W) (latch_call (Z * W))).

(** Calls that leave the identifier alone and do not count down. *)
Definition quiet (c : latch_call (Z * W)) : Prop :=
  match c with
  | LatchAct f => forall y, fst (f y) = fst y
  | LatchCountDown => True
  | _ => True
  end.

Lemma quiet_tail cs : Forall quiet cs -> Forall quiet (tail cs).
Proof. destruct 1; [done|]. by cbn. Qed.

Lemma body_quiet body : Forall quiet (map (fun (f : W -> W) => LatchAct (fun y : Z * W => (fst y, f (snd y)))) body).
Proof. induction body as [|f body IH]; cbn; [done|]. by constructor. Qed.

Lemma body_counts body :
  counts (map (fun (f : W -> W) => LatchAct (fun y : Z * W => (fst y, f (snd y)))) body) = 0 /\
  counts_first (map (fun (f : W -> W) => LatchAct (fun y : Z * W => (fst y, f (snd y)))) body) = true.
Proof. induction body as [|f body IH]; [done|]. exact IH. Qed.

Lemma start_total k body : total (start_programs k body) = 1 /\ forallb counts_first (start_programs k body) = true.
Proof.
  unfold start_programs, total, runInThread, counts. cbn. destruct (body_counts body) as [H1 H2]. unfold counts in H1.
  rewrite H2. split; [|done]. lia.
Qed.

(** The identifier is stored once the new thread has made its first call. *)
Record stored (k : Z) (body : list (W -> W)) s : Prop := {
  st_parent : exists th, threads s !! 0%nat = Some th /\ (calls th = [LatchWait] \/ calls th = []);
  st_child : exists th, threads s !! 1%nat = Some th /\
    (calls th = runInThread k body \/ fst (free s) = k /\ Forall quiet (calls th));
  st_only : forall t th, threads s !! S (S t) = Some th -> False
}.

Lemma runInThread_quiet_tail k body : Forall quiet (tail (runInThread k body)).
Proof. cbn. constructor; [done|apply body_quiet]. Qed.

Lemma new_stored k w body t : stored k body (start_latch k w body t).
Proof. split; [eexists; split; [reflexivity|by left]..|done]. Qed.

(** A turn of another thread leaves a thread's calls. *)
Lemma others_calls t u (l l' : list (Monitor.thread (latch_call (Z * W)))) th :
  others t l l' -> u <> t -> l !! u = Some th -> exists th', l' !! u = Some th' /\ calls th' = calls th.
Proof.
  intros H Hu E. specialize (H u Hu). rewrite E in H. destruct (l' !! u) as [th'|]; [|done].
  exists th'. by destruct H as [->| ->].
Qed.

Lemma turn_stored k body t c s s' :
  sound latch_meaning s -> stored k body s -> turn latch_meaning t c s = Ret (Some s') -> stored k body s'.
Proof.
  intros Hso [(p & Hp & Hpc) (ch & Hc & Hcc) Honly] H.
  destruct (turn_shape _ _ _ _ _ H) as (th & th' & Ht & Ht' & Hoth & Hsh).
  destruct t as [|[|t]]; [| |by destruct (Honly t th Ht)].
  - assert (th = p) as -> by congruence.
    destruct (others_calls _ 1 _ _ ch Hoth ltac:(lia) Hc) as (ch' & Hc' & Ec). split.
    + exists th'. split; [done|]. destruct Hsh as [(f & _ & _ & -> & _)|[(_ & -> & _)|(-> & _)]]; cbn [calls]; [..|done];
        right; destruct Hpc as [->| ->]; done.
    + exists ch'. split; [done|]. rewrite Ec. destruct Hcc as [?|[Hk Hq]]; [by left|right]. split; [|done].
      destruct Hsh as [(f & Hcur & _)|[(_ & _ & -> & _)|(_ & -> & _)]]; [|done..].
      unfold current in Hcur. destruct Hpc as [E|E]; rewrite E in Hcur; done.
    + intros u thu Hu. specialize (Hoth (S (S u)) ltac:(lia)). rewrite Hu in Hoth.
      destruct (threads s !! S (S u)) as [x|] eqn:E; [|done]. by apply (Honly u x).
  - assert (th = ch) as -> by congruence.
    destruct (others_calls _ 0 _ _ p Hoth ltac:(lia) Hp) as (p' & Hp' & Ep). split.
    + exists p'. split; [done|]. by rewrite Ep.
    + exists th'. split; [done|]. destruct Hcc as [Hcc|[Hk Hq]].
      * destruct Hsh as [(f & Hcur & _ & -> & -> & _)|[(Hpl & -> & _)|(-> & _)]]; [right|right|by left].
        -- cbn [calls]. unfold current in Hcur. rewrite Hcc in Hcur |- *. cbn in Hcur. injection Hcur as <-.
           split; [done|apply runInThread_quiet_tail].
        -- pose proof (sound_calls _ s Hso _ _ Ht) as Hcall. unfold in_call in Hcall. by rewrite Hpl, Hcc in Hcall.
      * right. destruct Hsh as [(f & Hcur & _ & -> & -> & _)|[(_ & -> & -> & _)|(-> & -> & _)]]; cbn [calls]; [| |done];
          (split; [|by apply quiet_tail]); [|done].
        unfold current in Hcur. destruct (calls ch) as [|[g| | |] ?]; cbn in Hcur; try done. injection Hcur as <-.
        by rewrite (Forall_inv Hq).
    + intros u thu Hu. specialize (Hoth (S (S u)) ltac:(lia)). rewrite Hu in Hoth.
      destruct (threads s !! S (S u)) as [x|] eqn:E; [|done]. by apply (Honly u x).
Qed.

Lemma reachable_stored k w body t s :
  rtc (step latch_meaning) (start_latch k w body t) s -> sound latch_meaning s /\ stored k body s.
Proof.
  intros H. refine (rtc_ind_r (fun s => sound latch_meaning s /\ stored k body s) _ _ _ s H); clear s H.
  - split; [apply new_monitor_sound|apply new_stored].
  - intros s1 s2 _ Hst [Hso HI]. split; [by eapply step_sound|].
    destruct Hst as [s2 (u & c & H)|u th Hu Hp]; [by eapply turn_stored|].
    destruct HI as [(p & Hpa & Hpc) (ch & Hc & Hcc) Honly].
    assert (forall v x, threads s1 !! v = Some x -> exists x',
      go s1 u Woken !! v = Some x' /\ calls x' = calls x) as Hgo.
    { intros v x E. unfold go. destruct (decide (v = u)) as [->|Hne].
      - rewrite list_lookup_alter_eq, E. by eexists.
      - rewrite list_lookup_alter_ne by done. by exists x. }
    destruct (Hgo _ _ Hpa) as (p' & Hp' & Ep), (Hgo _ _ Hc) as (c' & Hc' & Ec). split.
    + exists p'. cbn. by rewrite Ep.
    + exists c'. cbn. by rewrite Ec.
    + intros v x. cbn. unfold go. destruct (decide (S (S v) = u)) as [<-|Hne].
      * by destruct (Honly v th Hu).
      * rewrite list_lookup_alter_ne by done. apply Honly.
Qed.

(** C21: [Thread::start] with a thread created ends in whatever order the two threads
    take their turns, with spurious wake-ups too: none of its turns fails, each
    leaves fewer, and when none is possible the wait is behind; and whenever it is,
    the new thread's identifier is stored, so that the assertion behind the wait
    holds. *)
Theorem start_returns k w body t s :
  0 < k -> rtc (step latch_meaning) (start_latch k w body t) s ->
  (forall u c f, turn latch_meaning u c s <> Fault f) /\
  (forall s', sched latch_meaning s s' -> (measure s' < measure s)%nat) /\
  ((forall s', ~ sched latch_meaning s s') -> waited s) /\
  (waited s -> start_end t s = Ret (mkThr (pthreadId_ t) k (name_ t) (started_ t) (joined_ t))).
Proof.
  intros Hk Hr. destruct (start_total k body) as [Htot Hfirst]. pose proof (reachable_stored _ _ _ _ _ Hr) as [Hso HI].
  destruct (latch_progress 1 (tid_ t, w) (start_programs k body) s) as (H1 & H2 & H3); rewrite ?Htot; try done.
  destruct HI as [(p & Hp & Hpc) (ch & Hc & Hcc) _].
  split_and!; [exact H1|exact H2|..].
  - intros Hb. specialize (H3 Hb). exists p. split; [exact Hp|]. by apply (Forall_lookup_1 _ _ 0%nat _ H3).
  - intros (p' & Hp' & Ep). assert (p' = p) as -> by congruence.
    assert (guarded s <= 0) as Hg by (apply (waited_open 1 (tid_ t, w) (start_programs k body) s ltac:(done) Hr 0 [LatchWait] p); [done..|rewrite Ep; cbn; lia]).
    assert (fst (free s) = k) as Hf.
    { destruct Hcc as [Hcc|[? _]]; [exfalso|done].
      pose proof (latch_reachable_inv 1 (tid_ t, w) (start_programs k body) s ltac:(done) Hr) as Hinv. rewrite Htot in Hinv.
      pose proof (sound_calls _ s Hso _ _ Hc) as Hcall. unfold in_call in Hcall. rewrite Hcc in Hcall.
      pose proof (counts_left_le s 1 ch Hc) as Hle. pose proof (linv_count _ _ Hinv).
      destruct ch as [cs []]; cbn in Hcall, Hcc; try done. subst cs.
      unfold counts_left in Hle. cbn in Hle. unfold counts in Hle. cbn in Hle. lia. }
    unfold start_end. rewrite Hf. unfold cassert. by rewrite (proj2 (Z.ltb_lt _ _) Hk).
Qed.
End start.

(** [start] as the one who calls it sees it: a thread created has stored its
    identifier [k] when [start] returns ([start_returns] below the latch); [None]
    when none was created. *)
Definition start (k : option Z) (t : Thread) (l : list pthread) : outcome (Thread * list pthread) :=
  let! r := start_create (match k with Some _ => true | None => false end) t l in
  match k with
  | None => Ret r
  | Some k =>
      let! _ := cassert (0 <? k) in
      Ret (mkThr (pthreadId_ (fst r)) k (name_ (fst r)) (started_ (fst r)) (joined_ (fst r)), snd r)
  end.

(** [join]; [pthread_join] waits for the end of the thread and lets go of it. *)
Definition join (t : Thread) (l : list pthread) : outcome (Thread * list pthread) :=
  let! _ := cassert (started_ t) in
  let! _ := cassert (negb (joined_ t)) in
  Ret (mkThr (pthreadId_ t) (tid_ t) (name_ t) (started_ t) true, alter (fun _ => Joined) (pred (pthreadId_ t)) l).

(** [Thread::~Thread] *)
Definition delete_Thread (t : Thread) (l : list pthread) : list pthread :=
  if started_ t && negb (joined_ t) then alter (fun _ => Detached) (pred (pthreadId_ t)) l else l.

(** What a program does with a thread, and that it deletes it at the end. *)
Inductive thread_call : Type := Start (k : option Z) | Join.
Definition thread_do (c : thread_call) (t : Thread) (l : list pthread) : outcome (Thread * list pthread) :=
  match c with Start k => start k t l | Join => join t l end.
Fixpoint thread_run (cs : list thread_call) (t : Thread) (l : list pthread) : outcome (list pthread) :=
  match cs with
  | [] => Ret (delete_Thread t l)
  | c :: cs => let! r := thread_do c t l in thread_run cs (fst r) (snd r)
  end.

(** The life of a thread: failed starts, at most one that succeeds and then at most
    one [join]. What every other order violates is an assertion. *)
Fixpoint thread_life (created joined : bool) (cs : list thread_call) : outcome (list pthread) :=
  match cs with
  | [] => Ret (if created then [if joined then Joined else Detached] else [])
  | Start k :: cs =>
      if created then Fault AssertFailed
      else match k with
           | None => thread_life false joined cs
           | Some k => if 0 <? k then thread_life true joined cs else Fault AssertFailed
           end
  | Join :: cs => if created && negb joined then thread_life true true cs else Fault AssertFailed
  end.

(** However a program uses a [Thread], what becomes of the pthreads is what the
    thread's life says: at most one is created, a second [start], a [join] before
    the start and a second [join] violate assertions, and when the object is
    deleted its pthread has been joined, or else is detached, once. *)
Theorem thread_run_life cs t l :
  started_ t = false -> joined_ t = false ->
  thread_run cs t l = (let! r := thread_life false false cs in Ret (l ++ r)).
Proof.
  assert (forall cs t l p j, started_ t = true -> joined_ t = j -> pthreadId_ t = S (List.length l) ->
    p = (if j then Joined else Attached) ->
    thread_run cs t (l ++ [p]) = (let! r := thread_life true j cs in Ret (l ++ r))) as Hafter.
  { clear. induction cs as [|[k|] cs IH]; intros [pid tid name st jo] l p j; cbn; intros -> -> -> ->.
    - unfold delete_Thread. cbn. destruct j; cbn; [done|]. by rewrite alter_app_r_alt, Nat.sub_diag by done.
    - done.
    - unfold join. cbn. destruct j; cbn; [done|]. rewrite alter_app_r_alt, Nat.sub_diag by done. cbn.
      by apply IH. }
  revert t l. induction cs as [|[k|] cs IH]; intros [pid tid name st jo] l; cbn; intros -> ->.
  - unfold delete_Thread. cbn. by rewrite app_nil_r.
  - destruct k as [k|]; cbn; [|by apply IH]. destruct (0 <? k); cbn; [|done]. by apply Hafter.
  - done.
Qed.

Lemma thread_run_life_witness :
  thread_run [Start None; Start (Some 7); Join] (mkThr 0 0 "Thread1" false false) [Attached]
    = (let! r := thread_life false false [Start None; Start (Some 7); Join] in Ret ([Attached] ++ r)).
Proof. apply (thread_run_life [Start None; Start (Some 7); Join]); reflexivity. Defined.

(** A thread that is started while it prints: the state when the wait is behind
    and the new thread has not yet begun with its function. *)
Definition started_example : monitor Z (Z * Z) (latch_call (Z * Z)) :=
  mkMonitor None 0 0 (7, 0) [mkThread [] Outside; mkThread [LatchAct (fun y => (fst y, 1 + snd y))] Outside].
Definition start_schedule : list (nat * nat) :=
  [(0, 0); (0, 0); (0, 0); (0, 0); (1, 0); (1, 0); (1, 0); (1, 0); (1, 0); (1, 0); (1, 0);
   (0, 0); (0, 0); (0, 0); (0, 0); (0, 0)]%nat.

Lemma start_returns_witness :
  let t := mkThr 1 0 "Thread1" true false in
  (forall u c f, turn latch_meaning u c started_example <> Fault f) /\
  (forall s', sched latch_meaning started_example s' -> (measure s' < measure started_example)%nat) /\
  ((forall s', ~ sched latch_meaning started_example s') -> waited started_example) /\
  (waited started_example -> start_end t started_example = Ret (mkThr 1 7 "Thread1" true false)).
Proof.
  cbv zeta. apply (start_returns 7 0 [Z.add 1] (mkThr 1 0 "Thread1" true false)); [done|].
  apply (run_reaches latch_meaning start_schedule). vm_compute. reflexivity.
Defined.

(** A thread without a name is called by the number of threads so far. *)
Lemma new_Thread_name threadNum n :
  in_int 64 (threadNum + 1) = true ->
  exists t, new_Thread threadNum n = Ret (t, threadNum + 1) /\
    name_ t = (if String.eqb n "" then ("Thread" ++ decimal (threadNum + 1))%string else n) /\
    started_ t = false /\ joined_ t = false /\ tid_ t = 0.
Proof.
  intros H. unfold new_Thread, incrementAndGet, signed. rewrite H. cbn. rewrite wraps_small by done.
  eexists; split; [reflexivity|]. unfold setDefaultName. by destruct n.
Qed.
