(* ===== verification/LogFormat.v ===== *)
(** * Log levels, events and formats (src/qslary/base/Logger.h, Logger.cc)

    [LogLevel], [LogEvent], the items of a format and [LoggerFormatter], whose
    [init] reads a pattern. *)
From stdpp Require Import base list strings.
From Stdlib Require Import ZArith Ascii String Lia.
From S2P Require Import Prelude CLib.
Open Scope Z_scope.

(** ** Levels

    An enumeration over [int]; one place casts another number to it. *)
Definition UNKONW : Z := 0.
Definition DEBUG : Z := 1.
Definition INFO : Z := 2.
Definition WARRING : Z := 3.
Definition ERROR : Z := 4.
Definition FATAL : Z := 5.

Definition LevelToString (level : Z) : string :=
  if level =? DEBUG then "DEBUG"
  else if level =? INFO then "INFO"
  else if level =? WARRING then "WARRING"
  else if level =? ERROR then "ERROR"
  else if level =? FATAL then "FATAL"
  else "UNKNOW".

Definition level_names : list (string * Z) :=
  [("debug", DEBUG); ("info", INFO); ("warring", WARRING); ("error", ERROR); ("fatal", FATAL);
   ("DEBUG", DEBUG); ("INFO", INFO); ("WARRING", WARRING); ("ERROR", ERROR); ("FATAL", FATAL)]%string.
Definition LevelFromString (str : string) : Z :=
  match List.find (fun x => String.eqb str x.1) level_names with
  | Some x => x.2
  | None => UNKONW
  end.

Lemma level_round_trip level : UNKONW <= level <= FATAL -> LevelFromString (LevelToString level) = level.
Proof.
  unfold UNKONW, FATAL. intros H.
  assert (level = 0 \/ level = 1 \/ level = 2 \/ level = 3 \/ level = 4 \/ level = 5) as Hl by lia.
  by destruct Hl as [->|[->|[->|[->|[->| ->]]]]].
Qed.

(** ** Events

    The logger of an event is named by its place among the loggers. *)
Record LogEvent : Type := mkEvent {
  m_file : string;
  m_line : Z;
  m_elpase : Z;
  m_thread_id : Z;
  m_fiber_id : Z;
  m_time : Z;
  thread_name_ : string;
  m_ss : string;
  m_logger : nat;
  m_level : Z
}.

(** ** Items *)
Inductive FormatItem : Type :=
| MessageFormatItem
| LevelFormatItem
| ElapseFormatItem
| LoggerNameFormatItem
| ThreadNameFormatItem
| ThreadIdFormatItem
| FiberIdFormatItem
| DateTimeFormatItem (m_format : string)
| LineFormatItem
| NewLineFormatItem
| FileNameFormatItem
| StringFormatItem (m_string : string)
| TabFormatItem.

Definition new_DateTimeFormatItem (date_format : string) : FormatItem :=
  DateTimeFormatItem (match date_format with EmptyString => "%Y-%m-%d %H:%M:%S" | _ => date_format end)%string.

Definition tab : string := String (ascii_of_nat 9) "".
Definition endl : string := String (ascii_of_nat 10) "".

Section format.
(** The local time as [strftime] prints it, if it fits a buffer of 64 characters;
    and the name of a logger. *)
Context (strftime : string -> Z -> option string) (getName : nat -> string).

(** [FormatItem::format]; what [strftime] leaves in a buffer that is too small is
    undefined. *)
Definition format_item (it : FormatItem) (level : Z) (event : LogEvent) : outcome string :=
  match it with
  | MessageFormatItem => Ret (m_ss event)
  | LevelFormatItem => Ret (LevelToString level)
  | ElapseFormatItem => Ret (decimal (m_elpase event))
  | LoggerNameFormatItem => Ret (getName (m_logger event))
  | ThreadNameFormatItem => Ret (thread_name_ event)
  | ThreadIdFormatItem => Ret (decimal (m_thread_id event))
  | FiberIdFormatItem => Ret (decimal (m_fiber_id event))
  | DateTimeFormatItem m_format =>
      match strftime (c_str m_format) (m_time event) with
      | Some buf => Ret buf
      | None => Fault Undefined
      end
  | LineFormatItem => Ret (decimal (m_line event))
  | NewLineFormatItem => Ret endl
  | FileNameFormatItem => Ret (m_file event)
  | StringFormatItem m_string => Ret m_string
  | TabFormatItem => Ret tab
  end.

Fixpoint format_items (l : list FormatItem) (level : Z) (event : LogEvent) : outcome string :=
  match l with
  | [] => Ret ""%string
  | it :: l =>
      let! s := format_item it level event in
      let! t := format_items l level event in
      Ret (s ++ t)%string
  end.
End format.

(** ** Patterns *)

(** [substr] from a position; the number of characters *)
Definition substr (p : list ascii) (from n : nat) : list ascii := take n (drop from p).

Definition alpha (c : ascii) : bool := isalpha (schar c).
Definition percent : ascii := "%".
Definition lbrace : ascii := "{".
Definition rbrace : ascii := "}".

(** The inner loop of [init], from [j] on with the characters left; it gives [j],
    [status], [format_str] and [type_str] behind it. *)
Fixpoint scan (p : list ascii) (format_begin : nat) (rest : list ascii) (j type_begin : nat) (status : bool)
    (format_str : list ascii) : nat * bool * list ascii * list ascii :=
  match rest with
  | [] => (j, status, format_str, [])
  | c :: rest =>
      if negb status && negb (alpha c) && negb (Ascii.eqb c lbrace) && negb (Ascii.eqb c rbrace) then
        (pred j, status, substr p format_begin (j - format_begin), [])
      else if negb status && Ascii.eqb c lbrace then
        scan p format_begin rest (S j) (S j) true (substr p format_begin (j - format_begin))
      else if status && Ascii.eqb c rbrace then
        (j, false, format_str, substr p type_begin (j - type_begin))
      else scan p format_begin rest (S j) type_begin status format_str
  end.

(** What [init] collects: a text (0), an item with its type (1), an error (2). *)
Definition entry : Type := list ascii * list ascii * Z.
Definition flush (nstr : list ascii) : list entry := match nstr with [] => [] | _ => [(nstr, [], 0)] end.
Definition pattern_error : list ascii := list_ascii_of_string "<<pattern error>>".

(** The outer loop from [i] on, with the text and the error so far; [None] when
    the fuel is not enough. *)
Fixpoint read_pattern (fuel : nat) (p : list ascii) (i : nat) (nstr : list ascii) (m_error : bool)
    : option (list entry * bool) :=
  match fuel with
  | O => None
  | S fuel =>
      match p !! i with
      | None => Some (flush nstr, m_error)
      | Some c =>
          if negb (Ascii.eqb c percent) then read_pattern fuel p (S i) (nstr ++ [c]) m_error
          else if match p !! S i with Some c' => Ascii.eqb c' percent | None => false end then
            read_pattern fuel p (S i) (nstr ++ [percent]) m_error
          else
            let format_begin := S i in
            let '(j, status, format_str, type_str) :=
              scan p format_begin (drop format_begin p) format_begin 0 false [] in
            if status then
              match read_pattern fuel p (S j) nstr true with
              | Some (vec, e) => Some ((pattern_error, format_str, 2) :: vec, e)
              | None => None
              end
            else
              let format_str :=
                if (j =? List.length p)%nat then substr p format_begin (j - format_begin) else format_str in
              match read_pattern fuel p (S j) [] m_error with
              | Some (vec, e) => Some (flush nstr ++ (format_str, type_str, 1) :: vec, e)
              | None => None
              end
      end
  end.

(** [s_format_items] *)
Definition s_format_items : list (string * (string -> FormatItem)) :=
  [("m", fun _ => MessageFormatItem); ("p", fun _ => LevelFormatItem); ("r", fun _ => ElapseFormatItem);
   ("c", fun _ => LoggerNameFormatItem); ("t", fun _ => ThreadIdFormatItem); ("n", fun _ => NewLineFormatItem);
   ("d", new_DateTimeFormatItem); ("f", fun _ => FileNameFormatItem); ("l", fun _ => LineFormatItem);
   ("T", fun _ => TabFormatItem); ("F", fun _ => FiberIdFormatItem); ("N", fun _ => ThreadNameFormatItem)]%string.

Definition find_item (name : string) : option (string -> FormatItem) :=
  match List.find (fun x => String.eqb name x.1) s_format_items with Some x => Some x.2 | None => None end.

Definition error_format (name : string) : FormatItem :=
  StringFormatItem ("<<error format %" ++ name ++ ">>")%string.

(** The last loop of [init]: an item and whether it is an error. *)
Definition make_item (i : entry) : FormatItem * bool :=
  let '(name, type, mode) := i in
  let name := string_of_list_ascii name in
  if mode =? 0 then (StringFormatItem name, false)
  else match find_item name with
       | None => (error_format name, true)
       | Some make => (make (string_of_list_ascii type), false)
       end.

Record LoggerFormatter : Type := mkFormatter {
  m_partten : string;
  m_items : list FormatItem;
  m_error : bool
}.

(** [LoggerFormatter::LoggerFormatter] and [init] *)
Definition init (m_partten : string) : option LoggerFormatter :=
  let p := list_ascii_of_string m_partten in
  match read_pattern (S (List.length p)) p 0 [] false with
  | None => None
  | Some (vec, e) =>
      Some (mkFormatter m_partten (map (fun i => (make_item i).1) vec)
              (e || existsb (fun i => (make_item i).2) vec))
  end.

(** The patterns of two loggers, and three that are not right. *)
Definition default_pattern : string := "%d{%Y-%m-%d %H:%M:%S}%T%t%T%N%T%F%T[%p]%T[%c]%T%f:%l%T%m%n".
Example init_default : init default_pattern = Some (mkFormatter default_pattern
  [DateTimeFormatItem "%Y-%m-%d %H:%M:%S"; TabFormatItem; ThreadIdFormatItem; TabFormatItem; ThreadNameFormatItem;
   TabFormatItem; FiberIdFormatItem; TabFormatItem; StringFormatItem "["; LevelFormatItem; StringFormatItem "]";
   TabFormatItem; StringFormatItem "["; LoggerNameFormatItem; StringFormatItem "]"; TabFormatItem; FileNameFormatItem;
   StringFormatItem ":"; LineFormatItem; TabFormatItem; MessageFormatItem; NewLineFormatItem] false).
Proof. reflexivity. Qed.
Example init_unclosed : init "a%d{%Y" = Some (mkFormatter "a%d{%Y"
  [StringFormatItem "<<error format %<<pattern error>>>>"; StringFormatItem "a"] true).
Proof. reflexivity. Qed.
Example init_percent : init "100%%" = Some (mkFormatter "100%%"
  [StringFormatItem "100%"; StringFormatItem "<<error format %>>"] true).
Proof. reflexivity. Qed.
Example init_word : init "%message" = Some (mkFormatter "%message" [StringFormatItem "<<error format %message>>"] true).
Proof. reflexivity. Qed.

(** ** Every pattern is read to its end *)

Lemma scan_forward p fb rest : forall j tb status fs,
  (fb <= j)%nat -> (pred fb <= (scan p fb rest j tb status fs).1.1.1)%nat.
Proof.
  induction rest as [|c rest IH]; intros j tb status fs Hj; cbn [scan]; [cbn; lia|].
  repeat case_match; cbn [fst]; try lia; apply IH; lia.
Qed.

Lemma read_pattern_total fuel : forall p i nstr e, (List.length p - i < fuel)%nat ->
  is_Some (read_pattern fuel p i nstr e).
Proof.
  induction fuel as [|fuel IH]; intros p i nstr e Hf; [lia|]. cbn [read_pattern].
  destruct (p !! i) as [c|] eqn:Ec; [|by eexists]. apply lookup_lt_Some in Ec.
  destruct (negb _); [apply IH; lia|]. destruct (match p !! S i with Some _ => _ | None => _ end); [apply IH; lia|].
  pose proof (scan_forward p (S i) (drop (S i) p) (S i) 0 false [] ltac:(lia)) as Hj.
  destruct (scan p (S i) (drop (S i) p) (S i) 0 false []) as [[[j status] fs] ts]. cbn in Hj.
  destruct status.
  - destruct (IH p (S j) nstr true ltac:(lia)) as [[vec e'] ->]. by eexists.
  - destruct (IH p (S j) [] e ltac:(lia)) as [[vec e'] ->]. by eexists.
Qed.

Lemma init_total m_partten : exists f, init m_partten = Some f /\ LogFormat.m_partten f = m_partten.
Proof.
  unfold init. destruct (read_pattern_total (S (List.length (list_ascii_of_string m_partten)))
    (list_ascii_of_string m_partten) 0 [] false ltac:(lia)) as [[vec e] ->]. by eexists.
Qed.

(** ** What a pattern means

    The pieces of a pattern that is right: texts without a percent sign, and items
    with the letters of their name and, in braces, what is handed to them. *)
Inductive piece : Type :=
| Text (s : list ascii)
| Item (name : list ascii) (arg : option (list ascii)).

Definition print_piece (x : piece) : list ascii :=
  match x with
  | Text s => s
  | Item name None => percent :: name
  | Item name (Some arg) => percent :: name ++ lbrace :: arg ++ [rbrace]
  end.
Definition print_pieces (ps : list piece) : list ascii := List.concat (map print_piece ps).

(** A text ends in front of the next item; an item without an argument ends in front
    of a character that cannot go on with it. *)
Definition not_percent (c : ascii) : bool := negb (Ascii.eqb c percent).
Definition ends_name (c : ascii) : bool := negb (alpha c) && negb (Ascii.eqb c lbrace) && negb (Ascii.eqb c rbrace).
Fixpoint pieces_ok (ps : list piece) : bool :=
  match ps with
  | [] => true
  | Text s :: ps =>
      match s with [] => false | _ => true end && forallb not_percent s &&
      match ps with Text _ :: _ => false | _ => true end && pieces_ok ps
  | Item name None :: ps =>
      match name with [] => false | _ => true end && forallb alpha name &&
      match ps with Text (c :: _) :: _ => ends_name c | _ => true end && pieces_ok ps
  | Item name (Some arg) :: ps =>
      forallb alpha name && forallb (fun c => negb (Ascii.eqb c rbrace)) arg && pieces_ok ps
  end.

Definition piece_entry (x : piece) : entry :=
  match x with
  | Text s => (s, [], 0)
  | Item name arg => (name, match arg with Some a => a | None => [] end, 1)
  end.

Lemma lookup_app_at {A} (pre rest : list A) i : i = List.length pre -> (pre ++ rest) !! i = head rest.
Proof. intros ->. rewrite lookup_app_r, Nat.sub_diag by done. by destruct rest. Qed.

Lemma substr_app (pre s rest : list ascii) from n :
  from = List.length pre -> n = List.length s -> substr (pre ++ s ++ rest) from n = s.
Proof. intros -> ->. unfold substr. by rewrite drop_app_length, take_app_length. Qed.

(** Letters are gone over. *)
Lemma scan_letters p fb name rest j tb fs :
  forallb alpha name = true ->
  scan p fb (name ++ rest) j tb false fs = scan p fb rest (j + List.length name) tb false fs.
Proof.
  revert j. induction name as [|c name IH]; intros j H; cbn [app List.length].
  - by rewrite Nat.add_0_r.
  - cbn in H. apply andb_prop in H as [Hc H]. cbn [scan]. rewrite Hc. cbn [negb andb].
    assert (Ascii.eqb c lbrace = false) as ->.
    { destruct (Ascii.eqb_spec c lbrace) as [->|]; [|done]. by vm_compute in Hc. }
    cbn [andb]. rewrite IH by done. f_equal. lia.
Qed.

(** So is what stands in braces. *)
Lemma scan_braces p fb arg rest j tb fs :
  forallb (fun c => negb (Ascii.eqb c rbrace)) arg = true ->
  scan p fb (arg ++ rbrace :: rest) j tb true fs =
    ((j + List.length arg)%nat, false, fs, substr p tb (j + List.length arg - tb)).
Proof.
  revert j. induction arg as [|c arg IH]; intros j H; cbn [app List.length].
  - cbn [scan]. cbn. by rewrite Nat.add_0_r.
  - cbn in H. apply andb_prop in H as [Hc H]. apply negb_true_iff in Hc. cbn [scan]. rewrite Hc. cbn [negb andb].
    rewrite IH by done. by replace (S j + List.length arg)%nat with (j + S (List.length arg))%nat by lia.
Qed.

(** A text goes to the text so far. *)
Lemma read_text s : forall fuel pre rest nstr e,
  forallb not_percent s = true ->
  read_pattern (List.length s + fuel) (pre ++ s ++ rest) (List.length pre) nstr e =
  read_pattern fuel (pre ++ s ++ rest) (List.length (pre ++ s)) (nstr ++ s) e.
Proof.
  induction s as [|c s IH]; intros fuel pre rest nstr e H.
  - cbn. by rewrite !app_nil_r.
  - cbn in H. apply andb_prop in H as [Hc H]. cbn [List.length Nat.add read_pattern].
    rewrite lookup_app_at by done. cbn [head app]. unfold not_percent in Hc. rewrite Hc.
    specialize (IH fuel (pre ++ [c]) rest (nstr ++ [c]) e H). rewrite <- !app_assoc in IH. cbn [app] in IH.
    rewrite length_app in IH. cbn [List.length] in IH. rewrite Nat.add_1_r in IH. rewrite IH.
    done.
Qed.

(** What the scan of an item gives: where it ends, its name and its argument. *)
Lemma scan_item pre name arg ps :
  pieces_ok (Item name arg :: ps) = true ->
  let p := pre ++ print_piece (Item name arg) ++ print_pieces ps in
  let fb := S (List.length pre) in
  exists j fs ts, scan p fb (drop fb p) fb 0 false [] = (j, false, fs, ts) /\
    j = (List.length pre + List.length (print_piece (Item name arg)) - 1
         + match arg, print_pieces ps with None, [] => 1 | _, _ => 0 end)%nat /\
    ts = (match arg with Some a => a | None => [] end) /\
    (match arg, print_pieces ps with None, [] => true | _, _ => bool_decide (fs = name) end = true).
Proof.
  intros H p fb. cbn [pieces_ok] in H.
  assert (drop fb p = tail (print_piece (Item name arg)) ++ print_pieces ps) as Hd.
  { unfold fb, p. rewrite drop_app_ge by lia. replace (S (List.length pre) - List.length pre)%nat with 1%nat by lia. by destruct arg. }
  rewrite Hd. destruct arg as [arg|].
  - apply andb_prop in H as [H Hps]. apply andb_prop in H as [Hn Ha]. cbn [print_piece tail].
    rewrite <- app_assoc. cbn [app]. rewrite scan_letters by done. cbn [scan].
    assert (alpha lbrace = false) as -> by done. cbn [negb andb Ascii.eqb]. rewrite Ascii.eqb_refl. cbn [negb andb].
    rewrite <- app_assoc. cbn [app]. rewrite scan_braces by done. eexists _, _, _. split; [reflexivity|]. split_and!.
    + unfold fb. rewrite length_cons, length_app, length_cons, length_app. cbn. lia.
    + unfold fb, p. cbn [print_piece].
      replace (pre ++ (percent :: name ++ lbrace :: arg ++ [rbrace]) ++ print_pieces ps)
        with ((pre ++ percent :: name ++ [lbrace]) ++ arg ++ (rbrace :: print_pieces ps))
        by (repeat (rewrite <- app_assoc || rewrite <- app_comm_cons); done).
      apply substr_app; [rewrite !length_app; cbn; rewrite length_app; cbn; lia|lia].
    + apply bool_decide_eq_true. unfold fb, p. cbn [print_piece].
      replace (pre ++ (percent :: name ++ lbrace :: arg ++ [rbrace]) ++ print_pieces ps)
        with ((pre ++ [percent]) ++ name ++ (lbrace :: arg ++ [rbrace]) ++ print_pieces ps)
        by (repeat (rewrite <- app_assoc || rewrite <- app_comm_cons); done).
      apply substr_app; [rewrite length_app; cbn; lia|lia].
  - apply andb_prop in H as [H Hps]. apply andb_prop in H as [H Hnext]. apply andb_prop in H as [Hne Hn].
    cbn [print_piece tail]. rewrite scan_letters by done.
    destruct (print_pieces ps) as [|c rest] eqn:Er.
    + cbn [scan]. eexists _, _, _. split; [reflexivity|]. split_and!; try done. unfold fb. cbn [List.length]. lia.
    + assert (ends_name c = true) as Hc.
      { destruct ps as [|[s|nm [ar|]] ps]; [done|..]; cbn in Er.
        - destruct s as [|c' s]; [done|]. by injection Er as -> _.
        - by injection Er as <- _.
        - by injection Er as <- _. }
      unfold ends_name in Hc. cbn [scan]. apply andb_prop in Hc as [Hc H3]. apply andb_prop in Hc as [H1 H2].
      rewrite H1, H2, H3. cbn [negb andb]. eexists _, _, _. split; [reflexivity|]. split_and!; [|done|].
      * unfold fb. cbn [List.length]. lia.
      * apply bool_decide_eq_true. unfold fb, p. cbn [print_piece].
        replace (pre ++ (percent :: name) ++ c :: rest) with ((pre ++ [percent]) ++ name ++ (c :: rest))
          by (by rewrite <- !app_assoc).
        apply substr_app; [rewrite length_app; cbn; lia|lia].
Qed.

(** The entries of pieces behind a text that has not ended. *)
Definition starts_with_text (ps : list piece) : bool := match ps with Text _ :: _ => true | _ => false end.

Lemma print_piece_next pre name arg ps :
  pieces_ok (Item name arg :: ps) = true ->
  let p := pre ++ print_piece (Item name arg) ++ print_pieces ps in
  p !! List.length pre = Some percent /\
  match p !! S (List.length pre) with Some c => Ascii.eqb c percent | None => false end = false.
Proof.
  intros H p. split; [unfold p; rewrite lookup_app_at by done; by destruct arg|].
  assert (p !! S (List.length pre) = head (tail (print_piece (Item name arg)) ++ print_pieces ps)) as ->.
  { unfold p. rewrite lookup_app_r by lia. replace (S (List.length pre) - List.length pre)%nat with 1%nat by lia.
    destruct arg; cbn; [by destruct name|]. destruct name; [|done]. cbn. by destruct (print_pieces ps). }
  assert (forall c, alpha c = true -> Ascii.eqb c percent = false) as Hal.
  { intros c Hc. destruct (Ascii.eqb_spec c percent) as [->|]; [by vm_compute in Hc|done]. }
  cbn [pieces_ok] in H. destruct arg as [arg|]; cbn [print_piece tail].
  - destruct name as [|c name]; [done|]. cbn [app head]. apply andb_prop in H as [H _]. apply andb_prop in H as [H _].
    cbn in H. apply andb_prop in H as [H _]. by apply Hal.
  - destruct name as [|c name]; [done|]. cbn [app head]. apply andb_prop in H as [H _]. apply andb_prop in H as [H _].
    cbn in H. apply andb_prop in H as [H _]. by apply Hal.
Qed.

(** The pattern, read from any of its pieces on. *)
Lemma read_pieces ps : forall fuel pre nstr e,
  pieces_ok ps = true -> (nstr = [] \/ starts_with_text ps = false) ->
  (List.length (print_pieces ps) < fuel)%nat ->
  read_pattern fuel (pre ++ print_pieces ps) (List.length pre) nstr e =
  Some (flush nstr ++ map piece_entry ps, e).
Proof.
  induction ps as [|x ps IH]; intros fuel pre nstr e Hok Hn Hf.
  - cbn. destruct fuel as [|fuel]; [cbn in Hf; lia|]. cbn [read_pattern]. rewrite lookup_app_at by done. cbn.
    by rewrite app_nil_r.
  - change (print_pieces (x :: ps)) with (print_piece x ++ print_pieces ps) in *. destruct x as [s|name arg].
    + destruct Hn as [->|Hn]; [|done]. cbn [pieces_ok] in Hok. apply andb_prop in Hok as [Hok Hps].
      apply andb_prop in Hok as [Hok Hnext]. apply andb_prop in Hok as [Hne Hs]. cbn [print_piece] in Hf |- *.
      rewrite length_app in Hf. replace fuel with (List.length s + (fuel - List.length s))%nat by lia.
      rewrite read_text by done. rewrite app_assoc. rewrite IH; [..|lia].
      * destruct s; [done|]. done.
      * done.
      * right. by destruct ps as [|[] ?].
    + destruct fuel as [|fuel]; [lia|]. cbn [read_pattern].
      destruct (print_piece_next pre name arg ps Hok) as [-> ->]. cbn [Ascii.eqb]. rewrite Ascii.eqb_refl. cbn [negb].
      destruct (scan_item pre name arg ps Hok) as (j & fs & ts & -> & Hj & -> & Hfs).
      assert (pieces_ok ps = true) as Hps.
      { cbn [pieces_ok] in Hok. destruct arg; apply andb_prop in Hok as [_ Hps]; exact Hps. }
      assert (exists pre', pre ++ print_piece (Item name arg) ++ print_pieces ps = pre' ++ print_pieces ps /\
        List.length pre' = (List.length pre + List.length (print_piece (Item name arg)))%nat) as (pre' & Hp & Hl).
      { exists (pre ++ print_piece (Item name arg)). by rewrite <- app_assoc, length_app. }
      assert (read_pattern fuel (pre ++ print_piece (Item name arg) ++ print_pieces ps) (S j) [] e =
        Some (map piece_entry ps, e)) as ->.
      { rewrite length_app in Hf. destruct arg as [arg|].
        - rewrite Hp. replace (S j) with (List.length pre') by (rewrite Hl, Hj; cbn; lia).
          apply (IH fuel pre' [] e Hps); [by left|cbn in Hf; lia].
        - destruct (print_pieces ps) as [|c rest] eqn:Er.
          + assert (ps = []) as ->. { destruct ps as [|[[|]|nm [|]] ps]; done. }
            destruct fuel as [|fuel]; [cbn in Hf; lia|]. cbn [read_pattern].
            rewrite lookup_ge_None_2; [done|]. rewrite Hj, !length_app. cbn. lia.
          + rewrite Hp. replace (S j) with (List.length pre') by (rewrite Hl, Hj; cbn; lia).
            apply (IH fuel pre' [] e Hps); [by left|cbn in Hf |- *; lia]. }
      cbn [map piece_entry]. do 6 f_equal.
      destruct (Nat.eqb_spec j (List.length (pre ++ print_piece (Item name arg) ++ print_pieces ps))) as [Hjl|Hjl].
      * rewrite !length_app in Hjl. destruct arg as [arg|]; [cbn in Hj, Hjl; lia|].
        destruct (print_pieces ps) as [|c rest]; [|cbn in Hj, Hjl; lia]. cbn [print_piece].
        replace (pre ++ (percent :: name) ++ []) with ((pre ++ [percent]) ++ name ++ []) by (by rewrite <- app_assoc).
        apply substr_app; [rewrite length_app; cbn; lia|]. rewrite Hj. cbn. lia.
      * destruct arg as [arg|]; [by apply bool_decide_eq_true in Hfs|].
        destruct (print_pieces ps) as [|c rest]; [|by apply bool_decide_eq_true in Hfs].
        rewrite !length_app in Hjl. cbn in Hj, Hjl. lia.
Qed.

(** The item a piece stands for, if its name is known. *)
Definition piece_item (x : piece) : FormatItem := (make_item (piece_entry x)).1.
Definition piece_known (x : piece) : bool :=
  match x with Text _ => true | Item name _ => match find_item (string_of_list_ascii name) with Some _ => true | None => false end end.

Lemma init_reads ps :
  pieces_ok ps = true ->
  let p := string_of_list_ascii (print_pieces ps) in
  init p = Some (mkFormatter p (map piece_item ps) (negb (forallb piece_known ps))).
Proof.
  intros Hok p. unfold init, p. rewrite list_ascii_of_string_of_list_ascii.
  pose proof (read_pieces ps (S (List.length (print_pieces ps))) [] [] false Hok (or_introl eq_refl) ltac:(lia)) as H.
  cbn [app List.length] in H. rewrite H. cbn [flush app]. rewrite map_map. f_equal. f_equal.
  clear. induction ps as [|[s|name arg] ps IH]; [done|..]; cbn in *; [done|].
  destruct (find_item _); cbn; [done|]. done.
Qed.


Definition example_pieces : list piece :=
  [Item ["d"%char] (Some (list_ascii_of_string "%H:%M")); Text (list_ascii_of_string " [100 ");
   Item ["m"%char] None; Text [" "%char]; Item (list_ascii_of_string "zz") None; Item ["n"%char] None].
