(* ===== verification/Logger.v ===== *)
(** * Loggers and appenders (src/qslary/base/Logger.h, Logger.cc)

    Appenders, which write what a formatter (LogFormat.v) makes of an event,
    loggers, which hand events to their appenders or to the root, and the
    [LogManger] that names them. Loggers and appenders are shared, hence named by
    their places among all that were made. *)
From stdpp Require Import base list gmap strings.
From Stdlib Require Import ZArith Ascii String Lia.
From S2P Require Import Prelude CLib LogFormat.
Open Scope Z_scope.

(** [LoggerFormatter::LoggerFormatter]; reading a pattern never runs out of it
    ([init_total]). *)
Definition new_LoggerFormatter (partten : string) : LoggerFormatter :=
  match init partten with Some f => f | None => mkFormatter partten [] true end.

(** What an appender writes to: [std::cout], or a file, of which [m_filestream]
    holds whether it is open and what was written since it was opened. *)
Inductive sink : Type :=
| StdoutLogAppender
| FileLogAppender (m_filename : string) (opened : bool) (m_filestream : list string) (lastTime_ : Z).

Record LoggerAppender : Type := mkAppender {
  m_formater : option LoggerFormatter;
  m_hasFormatter : bool;
  ap_level : Z;
  sink_ : sink
}.

Record Logger : Type := mkLogger {
  m_name : string;
  lg_level : Z;
  m_appenders : list nat;
  m_formatter : option LoggerFormatter;
  lg_root : option nat
}.

Record LogManger : Type := mkManger {
  loggers : list Logger;
  appenders : list LoggerAppender;
  m_loggers : gmap string nat;
  m_root : nat;
  cout : list string
}.

Section logging.
(** The local time as text; whether a file can be opened for writing. *)
Context (strftime : string -> Z -> option string) (can_open : string -> bool).
Implicit Types (m : LogManger).

Definition set_logger m (i : nat) (l : Logger) : LogManger :=
  mkManger (<[i := l]> (loggers m)) (appenders m) (m_loggers m) (m_root m) (cout m).
Definition set_appender m (i : nat) (a : LoggerAppender) : LogManger :=
  mkManger (loggers m) (<[i := a]> (appenders m)) (m_loggers m) (m_root m) (cout m).

(** ** Appenders *)

(** [StdoutLogAppender], and [FileLogAppender::FileLogAppender], which opens *)
Definition new_sink (file : option string) : sink :=
  match file with
  | None => StdoutLogAppender
  | Some filename => FileLogAppender filename (can_open filename) [] 0
  end.
Definition new_appender (file : option string) : LoggerAppender := mkAppender None false DEBUG (new_sink file).

(** [FileLogAppender::reopen]: opening truncates. *)
Definition reopen (s : sink) : sink :=
  match s with
  | StdoutLogAppender => s
  | FileLogAppender filename _ _ last => FileLogAppender filename (can_open filename) [] last
  end.

Definition getForamter (a : LoggerAppender) : option LoggerFormatter := m_formater a.
Definition appender_setFormatter (a : LoggerAppender) (val : option LoggerFormatter) : LoggerAppender :=
  mkAppender val (match val with Some _ => true | None => false end) (ap_level a) (sink_ a).
Definition appender_setLevel (a : LoggerAppender) (level : Z) : LoggerAppender :=
  mkAppender (m_formater a) (m_hasFormatter a) level (sink_ a).

Definition getName m (i : nat) : string := match loggers m !! i with Some l => m_name l | None => "" end.

(** [LoggerFormatter::format] *)
Definition format m (f : LoggerFormatter) (level : Z) (event : LogEvent) : outcome string :=
  format_items strftime (getName m) (m_items f) level event.

(** [StdoutLogAppender::log] and [FileLogAppender::log]; the appender, and what
    goes to [std::cout]. A formatter that is null is undefined. *)
Definition appender_log m (now : Z) (a : LoggerAppender) (level : Z) (event : LogEvent)
    : outcome (LoggerAppender * list string) :=
  if ap_level a <=? level then
    match sink_ a with
    | StdoutLogAppender =>
        let! f := deref (m_formater a) in
        let! s := format m f level event in Ret (a, [s])
    | FileLogAppender filename opened stream last =>
        let sk := if negb (now =? last)
                  then match reopen (sink_ a) with
                       | FileLogAppender fn op st _ => FileLogAppender fn op st now
                       | sk => sk
                       end
                  else sink_ a in
        let! f := deref (m_formater a) in
        let! s := format m f level event in
        Ret (mkAppender (m_formater a) (m_hasFormatter a) (ap_level a)
               (match sk with
                | FileLogAppender fn true st last => FileLogAppender fn true (st ++ [s]) last
                | sk => sk
                end), [])
    end
  else Ret (a, []).

(** ** Loggers *)

(** The loop over the appenders *)
Fixpoint log_to m (now : Z) (l : list nat) (level : Z) (event : LogEvent) : outcome LogManger :=
  match l with
  | [] => Ret m
  | i :: l =>
      let! a := deref (appenders m !! i) in
      let! r := appender_log m now a level event in
      log_to (mkManger (loggers m) (<[i := r.1]> (appenders m)) (m_loggers m) (m_root m) (cout m ++ r.2))
        now l level event
  end.

(** [Logger::log]. The mutex is held while the root logs: a chain of roots longer
    than there are loggers takes a mutex twice, which is undefined. *)
Fixpoint log_fuel (fuel : nat) m (now : Z) (i : nat) (level : Z) (event : LogEvent) : outcome LogManger :=
  match fuel with
  | O => Fault Undefined
  | S fuel =>
      let! l := deref (loggers m !! i) in
      if lg_level l <=? level then
        match m_appenders l with
        | [] => match lg_root l with
                | Some r => log_fuel fuel m now r level event
                | None => Ret m
                end
        | aps => log_to m now aps level event
        end
      else Ret m
  end.
Definition log m (now : Z) (i : nat) (level : Z) (event : LogEvent) : outcome LogManger :=
  log_fuel (List.length (loggers m)) m now i level event.

(** [debug], [info], [error] and [fatal] *)
Definition log_debug m (now : Z) (i : nat) (event : LogEvent) : outcome LogManger := log m now i DEBUG event.
Definition log_info m (now : Z) (i : nat) (event : LogEvent) : outcome LogManger := log m now i INFO event.
Definition log_error m (now : Z) (i : nat) (event : LogEvent) : outcome LogManger := log m now i ERROR event.
Definition log_fatal m (now : Z) (i : nat) (event : LogEvent) : outcome LogManger := log m now i FATAL event.

(** [QSLARY_LOG_LEVEL] with the event and its content *)
Definition QSLARY_LOG_LEVEL m (now : Z) (i : nat) (level : Z) (event : LogEvent) : outcome LogManger :=
  let! l := deref (loggers m !! i) in
  if lg_level l <=? level then log m now (m_logger event) (m_level event) event else Ret m.

(** [Logger::setRootLogger] *)
Definition setRootLogger m (i : nat) (root : option nat) : outcome LogManger :=
  let! l := deref (loggers m !! i) in
  let! _ := (match root with Some r => let! _ := deref (loggers m !! r) in Ret () | None => Ret () end) in
  Ret (set_logger m i (mkLogger (m_name l) (lg_level l) (m_appenders l) (m_formatter l) root)).

Definition default_formatter : LoggerFormatter := new_LoggerFormatter default_pattern.
Definition new_Logger (name : string) : Logger := mkLogger name DEBUG [] (Some default_formatter) None.

Definition setLevel m (i : nat) (val : Z) : outcome LogManger :=
  let! l := deref (loggers m !! i) in
  Ret (set_logger m i (mkLogger (m_name l) val (m_appenders l) (m_formatter l) (lg_root l))).

(** [Logger::setFormatter] *)
Fixpoint hand_formatter (l : list nat) (val : option LoggerFormatter) (aps : list LoggerAppender) : list LoggerAppender :=
  match l with
  | [] => aps
  | i :: l =>
      hand_formatter l val
        (alter (fun a => if m_hasFormatter a then a else mkAppender val (m_hasFormatter a) (ap_level a) (sink_ a)) i aps)
  end.
Definition setFormatter m (i : nat) (val : option LoggerFormatter) : outcome LogManger :=
  let! l := deref (loggers m !! i) in
  Ret (mkManger (<[i := mkLogger (m_name l) (lg_level l) (m_appenders l) val (lg_root l)]> (loggers m))
         (hand_formatter (m_appenders l) val (appenders m)) (m_loggers m) (m_root m) (cout m)).
Definition setFormatter_text m (i : nat) (val : string) : outcome LogManger :=
  let new_val := new_LoggerFormatter val in
  if m_error new_val then Ret m else setFormatter m i (Some new_val).

Definition addAppender m (i a : nat) : outcome LogManger :=
  let! l := deref (loggers m !! i) in
  let! ap := deref (appenders m !! a) in
  let ap := match getForamter ap with
            | None => mkAppender (m_formatter l) (m_hasFormatter ap) (ap_level ap) (sink_ ap)
            | Some _ => ap
            end in
  Ret (set_appender (set_logger m i
    (mkLogger (m_name l) (lg_level l) (m_appenders l ++ [a]) (m_formatter l) (lg_root l))) a ap).

Fixpoint erase_appender (a : nat) (l : list nat) : list nat :=
  match l with
  | [] => []
  | x :: l => if (x =? a)%nat then l else x :: erase_appender a l
  end.
Definition set_appenders m (i : nat) (f : list nat -> list nat) : outcome LogManger :=
  let! l := deref (loggers m !! i) in
  Ret (set_logger m i (mkLogger (m_name l) (lg_level l) (f (m_appenders l)) (m_formatter l) (lg_root l))).
Definition delAppender m (i a : nat) : outcome LogManger := set_appenders m i (erase_appender a).
Definition clearAppender m (i : nat) : outcome LogManger := set_appenders m i (fun _ => []).

(** ** The manager *)

(** [getLogger], which makes the logger when there is none of the name. *)
Definition getLogger m (name : string) : nat * LogManger :=
  match m_loggers m !! name with
  | Some i => (i, m)
  | None =>
      let i := List.length (loggers m) in
      let l := mkLogger name DEBUG [] (Some default_formatter) (Some (m_root m)) in
      (i, mkManger (loggers m ++ [l]) (appenders m) (<[name := i]> (m_loggers m)) (m_root m) (cout m))
  end.

(** An appender that the program makes. *)
Definition make_appender m (file : option string) : nat * LogManger :=
  (List.length (appenders m),
   mkManger (loggers m) (appenders m ++ [new_appender file]) (m_loggers m) (m_root m) (cout m)).

(** A logger that the program makes beside the manager. *)
Definition make_logger m (name : string) : nat * LogManger :=
  (List.length (loggers m),
   mkManger (loggers m ++ [new_Logger name]) (appenders m) (m_loggers m) (m_root m) (cout m)).

(** [LogManger::LogManger] *)
Definition new_LogManger : LogManger :=
  mkManger [mkLogger "root" DEBUG [0%nat] (Some default_formatter) None]
    [mkAppender (Some default_formatter) false DEBUG StdoutLogAppender] {[ "root" := 0%nat ]} 0 [].

(** ** What holds of loggers

    What a program does with loggers and appenders: all their public methods that
    change something, [debug] and the like being [LogTo], and the macros, which are
    [LogAt]. The formatters it hands over are not null. *)
Inductive log_op : Type :=
| GetLogger (name : string)
| MakeLogger (name : string)
| SetRootLogger (i : nat) (root : option nat)
| MakeAppender (file : option string)
| AppenderFormatter (a : nat) (f : LoggerFormatter)
| AppenderLevel (a : nat) (level : Z)
| AddAppender (i a : nat)
| DelAppender (i a : nat)
| ClearAppender (i : nat)
| SetLevel (i : nat) (level : Z)
| SetFormatter (i : nat) (f : LoggerFormatter)
| SetFormatterText (i : nat) (s : string)
| LogAt (now : Z) (i : nat) (level : Z) (event : LogEvent)
| LogTo (now : Z) (i : nat) (level : Z) (event : LogEvent).

Definition do_op m (o : log_op) : outcome LogManger :=
  match o with
  | GetLogger name => Ret (getLogger m name).2
  | MakeLogger name => Ret (make_logger m name).2
  | SetRootLogger i root => setRootLogger m i root
  | MakeAppender file => Ret (make_appender m file).2
  | AppenderFormatter a f => let! ap := deref (appenders m !! a) in Ret (set_appender m a (appender_setFormatter ap (Some f)))
  | AppenderLevel a level => let! ap := deref (appenders m !! a) in Ret (set_appender m a (appender_setLevel ap level))
  | AddAppender i a => addAppender m i a
  | DelAppender i a => delAppender m i a
  | ClearAppender i => clearAppender m i
  | SetLevel i level => setLevel m i level
  | SetFormatter i f => setFormatter m i (Some f)
  | SetFormatterText i s => setFormatter_text m i s
  | LogAt now i level event => QSLARY_LOG_LEVEL m now i level event
  | LogTo now i level event => log m now i level event
  end.
Fixpoint do_ops m (os : list log_op) : outcome LogManger :=
  match os with
  | [] => Ret m
  | o :: os => let! m := do_op m o in do_ops m os
  end.

(** An appender that is added has a formatter, roots are loggers that were made, and
    loggers are found under their names. *)
Definition formatted (aps : list LoggerAppender) (a : nat) : Prop :=
  exists ap, aps !! a = Some ap /\ is_Some (m_formater ap).
Record logger_ok m (l : Logger) : Prop := {
  lo_appenders : Forall (formatted (appenders m)) (m_appenders l);
  lo_formatter : is_Some (m_formatter l);
  lo_root r : lg_root l = Some r -> (r < List.length (loggers m))%nat
}.
Record log_inv m : Prop := {
  li_loggers : Forall (logger_ok m) (loggers m);
  li_root : is_Some (loggers m !! m_root m);
  li_names name i : m_loggers m !! name = Some i -> exists l, loggers m !! i = Some l /\ m_name l = name
}.

(** Appenders may get formatters but not lose them. *)
Definition keeps_formatted (aps aps' : list LoggerAppender) : Prop :=
  forall a, formatted aps a -> formatted aps' a.

Lemma keep_insert aps a ap : is_Some (m_formater ap) -> keeps_formatted aps (<[a := ap]> aps).
Proof.
  intros H b (bp & Hb & Hf). destruct (decide (b = a)) as [->|Hne].
  - exists ap. rewrite list_lookup_insert_eq; [done|by eapply lookup_lt_Some].
  - exists bp. by rewrite list_lookup_insert_ne.
Qed.

Lemma keep_insert_self aps a ap ap' : aps !! a = Some ap ->
  (is_Some (m_formater ap) -> is_Some (m_formater ap')) -> keeps_formatted aps (<[a := ap']> aps).
Proof.
  intros Ha H b (bp & Hb & Hf). destruct (decide (b = a)) as [->|Hne].
  - exists ap'. rewrite list_lookup_insert_eq by (by eapply lookup_lt_Some). split; [done|]. apply H. by assert (ap = bp) as -> by congruence.
  - exists bp. by rewrite list_lookup_insert_ne.
Qed.

Lemma hand_formatter_keeps l f : forall aps, keeps_formatted aps (hand_formatter l (Some f) aps).
Proof.
  induction l as [|i l IH]; intros aps b Hb; cbn [hand_formatter]; [done|]. apply IH.
  destruct Hb as (bp & Hb & Hf). destruct (decide (b = i)) as [->|Hne].
  - unfold formatted. rewrite list_lookup_alter_eq, Hb. eexists. split; [reflexivity|]. by destruct (m_hasFormatter bp).
  - exists bp. by rewrite list_lookup_alter_ne.
Qed.

Lemma deref_inv {A B} (o : option A) (k : A -> outcome B) b :
  obind (deref o) k = Ret b -> exists a, o = Some a /\ k a = Ret b.
Proof. destruct o as [a|]; [|done]. intros H. by exists a. Qed.

(** A change of the appenders and of one logger. *)
Lemma inv_change m aps' i l l' c :
  log_inv m -> loggers m !! i = Some l -> keeps_formatted (appenders m) aps' ->
  m_name l' = m_name l -> (forall r, lg_root l' = Some r -> (r < List.length (loggers m))%nat) -> is_Some (m_formatter l') ->
  Forall (formatted aps') (m_appenders l') ->
  log_inv (mkManger (<[i := l']> (loggers m)) aps' (m_loggers m) (m_root m) c).
Proof.
  intros [Hl Hr Hn] Hi Hk E1 E2 E3 E4. split; cbn.
  - apply Forall_insert; [|].
    + eapply Forall_impl; [exact Hl|]. intros x [A B C]. split; cbn; rewrite ?length_insert; [|done|done].
      eapply Forall_impl; [exact A|]. exact Hk.
    + split; cbn; rewrite ?length_insert; done.
  - apply lookup_lt_is_Some. rewrite length_insert. by apply lookup_lt_is_Some.
  - intros name j Hj. destruct (Hn name j Hj) as (x & Hx & <-). destruct (decide (i = j)) as [->|Hne].
    + exists l'. rewrite list_lookup_insert_eq by (by eapply lookup_lt_Some). split; [done|]. congruence.
    + exists x. by rewrite list_lookup_insert_ne.
Qed.

Lemma inv_appenders m aps' c : log_inv m -> keeps_formatted (appenders m) aps' ->
  log_inv (mkManger (loggers m) aps' (m_loggers m) (m_root m) c).
Proof.
  intros HI Hk. destruct (li_root _ HI) as (r & Hr).
  pose proof (Forall_lookup_1 _ _ _ _ (li_loggers _ HI) Hr) as [A B C].
  pose proof (inv_change m aps' (m_root m) r r c HI Hr Hk eq_refl C B) as H.
  rewrite list_insert_id in H by done. apply H. eapply Forall_impl; [exact A|]. exact Hk.
Qed.

(** A new logger. *)
Lemma inv_add m l names : log_inv m -> m_appenders l = [] -> is_Some (m_formatter l) ->
  (forall r, lg_root l = Some r -> (r < List.length (loggers m))%nat) ->
  (forall n j, names !! n = Some j -> m_loggers m !! n = Some j \/ (n = m_name l /\ j = List.length (loggers m))) ->
  log_inv (mkManger (loggers m ++ [l]) (appenders m) names (m_root m) (cout m)).
Proof.
  intros [Hl Hr Hn] Ha Hf Hroot Hnames. split; cbn.
  - apply Forall_app. split.
    + eapply Forall_impl; [exact Hl|]. intros x [A B C]. split; cbn; rewrite ?length_app; [done|done|]. intros r0 Hr0. apply C in Hr0. cbn. lia.
    + constructor; [|done]. split; cbn; rewrite ?length_app; [by rewrite Ha|done|]. intros r0 Hr0. apply Hroot in Hr0. lia.
  - apply lookup_lt_is_Some. rewrite length_app. apply lookup_lt_is_Some in Hr. lia.
  - intros n j Hj. destruct (Hnames n j Hj) as [Hold|[-> ->]].
    + destruct (Hn n j Hold) as (x & Hx & Hxn). exists x. split; [|done]. rewrite lookup_app_l; [done|by eapply lookup_lt_Some].
    + exists l. split; [by apply list_lookup_middle|done].
Qed.

Lemma appender_log_keeps m now a level ev r : appender_log m now a level ev = Ret r ->
  m_formater r.1 = m_formater a.
Proof.
  unfold appender_log. destruct (ap_level a <=? level); [|intros H; by outcome_inv].
  destruct (sink_ a); intros H; apply obind_Ret_inv in H as (f & _ & H); apply obind_Ret_inv in H as (s & _ & H); by outcome_inv.
Qed.

Lemma log_to_inv l : forall m now level ev m', log_inv m -> log_to m now l level ev = Ret m' ->
  log_inv m' /\ loggers m' = loggers m /\ m_root m' = m_root m /\ m_loggers m' = m_loggers m.
Proof.
  induction l as [|i l IH]; intros m now level ev m' HI H; cbn [log_to] in H; [by outcome_inv|].
  apply obind_Ret_inv in H as (a & Ha & H). apply obind_Ret_inv in H as (r & Hr & H).
  destruct (appenders m !! i) as [ap|] eqn:Ei; [|done]. injection Ha as ->.
  apply IH in H as (H1 & H2 & H3 & H4); [done|]. apply inv_appenders; [done|].
  apply (keep_insert_self _ _ a); [done|]. by rewrite (appender_log_keeps _ _ _ _ _ _ Hr).
Qed.

Lemma log_fuel_inv fuel : forall m now i level ev m', log_inv m -> log_fuel fuel m now i level ev = Ret m' -> log_inv m'.
Proof.
  induction fuel as [|fuel IH]; intros m now i level ev m' HI H; [done|]. cbn [log_fuel] in H.
  apply obind_Ret_inv in H as (l & _ & H). destruct (lg_level l <=? level); [|by outcome_inv].
  destruct (m_appenders l) eqn:Ea; [destruct (lg_root l)|]; [by eapply IH|by outcome_inv|].
  by eapply log_to_inv.
Qed.

Lemma erase_appender_sub a l : erase_appender a l ⊆ l.
Proof. induction l as [|x l IH]; cbn; [done|]. intros y. destruct (x =? a)%nat; rewrite ?elem_of_cons; [by right|]. intros [?|?]; [by left|right; by apply IH]. Qed.

Lemma do_op_inv m o m' : log_inv m -> do_op m o = Ret m' -> log_inv m'.
Proof.
  intros HI.
  assert (forall i l, loggers m !! i = Some l -> logger_ok m l) as Hok
    by (intros i l; apply (Forall_lookup_1 _ _ _ _ (li_loggers _ HI))).
  assert (forall i val m', setFormatter m i (Some val) = Ret m' -> log_inv m') as Hset.
  { intros i val m1 (l & Ei & [= <-])%deref_inv. destruct (Hok i l Ei) as [A B C].
    apply (inv_change m _ i l); try done; [apply hand_formatter_keeps|]. cbn.
    eapply Forall_impl; [exact A|]. apply hand_formatter_keeps. }
  assert (forall i f m', (forall l, f l ⊆ l) -> set_appenders m i f = Ret m' -> log_inv m') as Happ.
  { intros i f m1 Hf (l & Ei & [= <-])%deref_inv. destruct (Hok i l Ei) as [A B C].
    apply (inv_change m _ i l); try done; [by intros ?|]. cbn. rewrite Forall_forall in A |- *. intros x Hx. apply A. by eapply Hf. }
  destruct o; cbn [do_op]; intros H.
  - injection H as <-. unfold getLogger. destruct (m_loggers m !! name) as [j|] eqn:En; [done|]. cbn [snd].
    apply inv_add; [done|done|by eexists|intros r [= <-]; apply lookup_lt_is_Some, (li_root _ HI)|].
    intros n j. destruct (decide (n = name)) as [->|Hne]; [rewrite lookup_insert_eq; intros [= <-]; by right|].
    rewrite lookup_insert_ne by done. by left.
  - injection H as <-. apply inv_add; [done|done|by eexists|done|by left].
  - apply deref_inv in H as (l & Ei & H). apply obind_Ret_inv in H as (u & Hu & [= <-]). destruct (Hok i l Ei) as [A B C].
    apply (inv_change m _ i l); try done; [by intros ?|]. cbn. intros r ->. apply deref_inv in Hu as (x & Hx & _). by eapply lookup_lt_Some.
  - injection H as <-. apply inv_appenders; [done|]. intros b (bp & Hb & Hf). exists bp. split; [|done].
    rewrite lookup_app_l; [done|by eapply lookup_lt_Some].
  - apply deref_inv in H as (ap & Ha & [= <-]). apply inv_appenders; [done|]. by apply keep_insert.
  - apply deref_inv in H as (ap & Ha & [= <-]). apply inv_appenders; [done|]. by apply (keep_insert_self _ _ ap).
  - apply deref_inv in H as (l & Ei & H). apply deref_inv in H as (ap & Ea & [= <-]). destruct (Hok i l Ei) as [A B C].
    assert (is_Some (m_formater (match getForamter ap with
      None => mkAppender (m_formatter l) (m_hasFormatter ap) (ap_level ap) (sink_ ap) | Some _ => ap end))) as Hf.
    { destruct (getForamter ap) eqn:E; [|done]. unfold getForamter in E. by rewrite E. }
    apply (inv_change m _ i l); try done; [by apply keep_insert|]. cbn. apply Forall_app. split.
    + eapply Forall_impl; [exact A|]. by apply keep_insert.
    + constructor; [|done]. eexists. split; [|exact Hf]. apply list_lookup_insert_eq. by eapply lookup_lt_Some.
  - apply (Happ i _ m' (erase_appender_sub a) H).
  - apply (Happ i (fun _ => []) m'); [|done]. intros l x Hx. by apply elem_of_nil in Hx.
  - apply deref_inv in H as (l & Ei & [= <-]). destruct (Hok i l Ei) as [A B C]. apply (inv_change m _ i l); try done; by intros ?.
  - by eapply Hset.
  - unfold setFormatter_text in H. destruct (m_error _); [by injection H as <-|]. by eapply Hset.
  - apply deref_inv in H as (l & _ & H). destruct (lg_level l <=? level); [|by injection H as <-]. by eapply log_fuel_inv.
  - by eapply log_fuel_inv.
Qed.

Lemma new_LogManger_inv : log_inv new_LogManger.
Proof.
  split; cbn.
  - constructor; [|done]. split; cbn; [|by eexists|done].
    constructor; [|done]. eexists. split; [reflexivity|]. by eexists.
  - by eexists.
  - intros name i H. apply lookup_singleton_Some in H as [<- <-]. by eexists.
Qed.

Lemma do_ops_inv os : forall m m', log_inv m -> do_ops m os = Ret m' -> log_inv m'.
Proof.
  induction os as [|o os IH]; cbn; intros m m' HI H; [by outcome_inv|].
  apply obind_Ret_inv in H as (m1 & H1 & H). eapply IH; [|exact H]. by eapply do_op_inv.
Qed.

(** ** Roots

    The roots form no cycle when the loggers have an order in which a root is behind
    each logger whose root it is. *)
Definition rises (h : nat -> nat) m : Prop :=
  forall i l r, loggers m !! i = Some l -> lg_root l = Some r -> (h i < h r)%nat.
Definition acyclic m : Prop := exists h, rises h m.

(** What a change does to roots other than [setRootLogger]: it keeps those there are,
    and gives new loggers none or that of the manager. *)
Definition same_roots m m' : Prop :=
  m_root m' = m_root m /\ (List.length (loggers m) <= List.length (loggers m'))%nat /\
  forall i l' r, loggers m' !! i = Some l' -> lg_root l' = Some r ->
    (exists l, loggers m !! i = Some l /\ lg_root l = Some r) \/ ((List.length (loggers m) <= i)%nat /\ r = m_root m).

Lemma same_roots_refl m : same_roots m m.
Proof. split_and!; [done|done|]. intros i l r H1 H2. left. by exists l. Qed.

Lemma same_roots_change m aps i l l' c : loggers m !! i = Some l -> lg_root l' = lg_root l ->
  same_roots m (mkManger (<[i := l']> (loggers m)) aps (m_loggers m) (m_root m) c).
Proof.
  intros Hl Hr. split_and!; cbn; [done|by rewrite length_insert|]. intros j x r Hj Hx. left. destruct (decide (j = i)) as [->|Hne].
  - rewrite list_lookup_insert_eq in Hj by (by eapply lookup_lt_Some). injection Hj as <-. exists l. split; [done|congruence].
  - rewrite list_lookup_insert_ne in Hj by done. by exists x.
Qed.

Lemma same_roots_add m l names : (forall r, lg_root l = Some r -> r = m_root m) ->
  same_roots m (mkManger (loggers m ++ [l]) (appenders m) names (m_root m) (cout m)).
Proof.
  intros H. split_and!; cbn; [done|rewrite length_app; lia|]. intros i x r Hi Hx.
  apply lookup_app_Some in Hi as [Hi|[Hle Hi]]; [left; by exists x|right]. split; [done|].
  apply list_lookup_singleton_Some in Hi as [_ <-]. by apply H.
Qed.

Lemma log_to_same l : forall m now level ev m', log_to m now l level ev = Ret m' -> loggers m' = loggers m /\ m_root m' = m_root m.
Proof.
  induction l as [|i l IH]; intros m now level ev m' H; cbn [log_to] in H; [by outcome_inv|].
  apply obind_Ret_inv in H as (a & _ & H). apply obind_Ret_inv in H as (r & _ & H). by apply IH in H.
Qed.
Lemma log_fuel_same fuel : forall m now i level ev m', log_fuel fuel m now i level ev = Ret m' ->
  loggers m' = loggers m /\ m_root m' = m_root m.
Proof.
  induction fuel as [|fuel IH]; intros m now i level ev m' H; [done|]. cbn [log_fuel] in H.
  apply obind_Ret_inv in H as (l & _ & H). destruct (lg_level l <=? level); [|by outcome_inv].
  destruct (m_appenders l); [destruct (lg_root l)|]; [by eapply IH|by outcome_inv|by eapply log_to_same].
Qed.
Lemma same_roots_kept m m' : loggers m' = loggers m -> m_root m' = m_root m -> same_roots m m'.
Proof. intros E1 E2. unfold same_roots. rewrite E1, E2. apply same_roots_refl. Qed.

Definition sets_root (o : log_op) : bool := match o with SetRootLogger _ _ => true | _ => false end.
Lemma do_op_same_roots m o m' : sets_root o = false -> do_op m o = Ret m' -> same_roots m m'.
Proof.
  assert (forall i f m', set_appenders m i f = Ret m' -> same_roots m m') as Ha
    by (intros i f m1 (l & Hl & [= <-])%deref_inv; by eapply same_roots_change).
  assert (forall i f m', setFormatter m i f = Ret m' -> same_roots m m') as Hs
    by (intros i f m1 (l & Hl & [= <-])%deref_inv; by eapply same_roots_change).
  destruct o; cbn [do_op sets_root]; intros Ho H; try done.
  - injection H as <-. unfold getLogger. destruct (m_loggers m !! name); [apply same_roots_refl|]. apply same_roots_add. by intros r [= <-].
  - injection H as <-. by apply same_roots_add.
  - injection H as <-. by apply same_roots_kept.
  - apply deref_inv in H as (ap & _ & [= <-]). by apply same_roots_kept.
  - apply deref_inv in H as (ap & _ & [= <-]). by apply same_roots_kept.
  - apply deref_inv in H as (l & Hl & H). apply deref_inv in H as (ap & _ & [= <-]). by apply (same_roots_change m _ i l).
  - by apply Ha in H.
  - by apply Ha in H.
  - apply deref_inv in H as (l & Hl & [= <-]). by apply (same_roots_change m _ i l).
  - by apply Hs in H.
  - unfold setFormatter_text in H. destruct (m_error _); [injection H as <-; apply same_roots_refl|by apply Hs in H].
  - apply deref_inv in H as (l & _ & H). destruct (lg_level l <=? level); [|injection H as <-; apply same_roots_refl].
    apply log_fuel_same in H as [E1 E2]. by apply same_roots_kept.
  - apply log_fuel_same in H as [E1 E2]. by apply same_roots_kept.
Qed.

(** A program that leaves the roots to the manager makes no cycle. *)
Definition managed_order m (i : nat) : nat := if decide (i = m_root m) then 1 else 0.
Lemma managed_order_bound m i : (managed_order m i <= 1)%nat.
Proof. unfold managed_order. destruct (decide _); lia. Qed.
Lemma managed_order_root m i : i <> m_root m -> (managed_order m i < managed_order m (m_root m))%nat.
Proof. intros H. unfold managed_order. rewrite decide_False, (decide_True _ _ eq_refl) by done. lia. Qed.

Lemma managed_rises os m : forallb (fun o => negb (sets_root o)) os = true -> do_ops new_LogManger os = Ret m -> rises (managed_order m) m.
Proof.
  intros Hos H.
  assert (forall os m m', (0 < List.length (loggers m))%nat -> m_root m = 0%nat ->
    (forall i l r, loggers m !! i = Some l -> lg_root l = Some r -> r = 0%nat /\ i <> 0%nat) ->
    forallb (fun o => negb (sets_root o)) os = true -> do_ops m os = Ret m' ->
    m_root m' = 0%nat /\ forall i l r, loggers m' !! i = Some l -> lg_root l = Some r -> r = 0%nat /\ i <> 0%nat) as HP.
  { clear. induction os as [|o os IH]; intros m m' Hl Hr Hi Ho H; cbn in H; [by outcome_inv|].
    apply obind_Ret_inv in H as (m1 & H1 & H). cbn in Ho. apply andb_true_iff in Ho as [Ho%negb_true_iff Hos].
    destruct (do_op_same_roots m o m1 Ho H1) as (E & Hle & Hs). apply (IH m1 m'); try done; [lia|congruence|].
    intros i l r Hil Hlr. destruct (Hs i l r Hil Hlr) as [(l0 & A & B)|[A ->]]; [by apply (Hi i l0)|]. split; [done|lia]. }
  destruct (HP os new_LogManger m) as [E HR]; [cbn; lia|done| |done|done|].
  - intros i l r Hi Hr. cbn in Hi. apply list_lookup_singleton_Some in Hi as [-> <-]. done.
  - intros i l r Hi Hr. destruct (HR i l r Hi Hr) as [-> Hne]. rewrite <- E. apply managed_order_root. by rewrite E.
Qed.
Lemma managed_acyclic os m : forallb (fun o => negb (sets_root o)) os = true -> do_ops new_LogManger os = Ret m -> acyclic m.
Proof. intros Hos H. exists (managed_order m). by apply (managed_rises os). Qed.

(** The loggers that are not before [i] in the order. *)
Definition ahead (h : nat -> nat) (n i : nat) : nat := List.length (List.filter (fun j => h i <=? h j)%nat (seq 0 n)).
Lemma ahead_bound h n i : (ahead h n i <= n)%nat.
Proof. unfold ahead. rewrite List.filter_length_le, length_seq. done. Qed.
Lemma ahead_root h n i r : (i < n)%nat -> (h i < h r)%nat -> (ahead h n r < ahead h n i)%nat.
Proof.
  intros Hi Hh. unfold ahead. assert (i ∈ seq 0 n) as Hin by (apply elem_of_seq; lia). revert Hin.
  assert (forall l, (List.length (List.filter (fun j => h r <=? h j)%nat l) <= List.length (List.filter (fun j => h i <=? h j)%nat l))%nat) as Hle.
  { induction l as [|j l IH]; cbn; [done|]. destruct (Nat.leb_spec (h r) (h j)), (Nat.leb_spec (h i) (h j)); cbn; lia. }
  induction (seq 0 n) as [|j l IH]; intros Hin; [by apply elem_of_nil in Hin|]. cbn. specialize (Hle l).
  apply elem_of_cons in Hin as [->|Hin].
  - rewrite Nat.leb_refl, (proj2 (Nat.leb_gt _ _)) by done. cbn. lia.
  - specialize (IH Hin). destruct (Nat.leb_spec (h r) (h j)), (Nat.leb_spec (h i) (h j)); cbn; lia.
Qed.

(** ** Where a message goes *)

(** The appenders that a logger hands a message to: its own, or else those that its
    root hands it to. *)
Fixpoint targets_fuel (fuel : nat) m (i : nat) (level : Z) : list nat :=
  match fuel, loggers m !! i with
  | S fuel, Some l =>
      if lg_level l <=? level then
        match m_appenders l, lg_root l with
        | [], Some r => targets_fuel fuel m r level
        | aps, _ => aps
        end
      else []
  | _, _ => []
  end.
Definition targets m (i : nat) (level : Z) : list nat := targets_fuel (List.length (loggers m)) m i level.

(** The dates that an appender prints with a message fit the buffer of [strftime]. *)
Definition dates_of (items : list FormatItem) (event : LogEvent) : Prop :=
  forall d, DateTimeFormatItem d ∈ items -> strftime (c_str d) (m_time event) <> None.
Definition dates_fit m (event : LogEvent) (a : nat) : Prop :=
  forall ap f, appenders m !! a = Some ap -> m_formater ap = Some f -> dates_of (m_items f) event.

(** What one of them puts on [std::cout]. *)
Definition printed m (level : Z) (event : LogEvent) (a : nat) : list string :=
  match appenders m !! a with
  | Some ap =>
      match sink_ ap, m_formater ap with
      | StdoutLogAppender, Some f =>
          if ap_level ap <=? level then
            match format m f level event with Ret s => [s] | Fault _ => [] end
          else []
      | _, _ => []
      end
  | None => []
  end.

Lemma format_ret names items level ev : dates_of items ev -> exists s, format_items strftime names items level ev = Ret s.
Proof.
  induction items as [|it items IH]; intros Ht; cbn; [by eexists|].
  assert (exists u, format_item strftime names it level ev = Ret u) as [u ->].
  { destruct it; cbn; try by eexists. specialize (Ht m_format ltac:(left)). destruct (strftime _ _) as [b|]; [by exists b|done]. }
  cbn. destruct IH as [s ->]; [intros d Hd; apply Ht; by right|]. by eexists.
Qed.

Lemma appender_log_ret m now ap level ev :
  (forall f, m_formater ap = Some f -> dates_of (m_items f) ev) -> is_Some (m_formater ap) ->
  exists r, appender_log m now ap level ev = Ret r /\ m_formater r.1 = m_formater ap /\
    ap_level r.1 = ap_level ap /\
    (match sink_ r.1, sink_ ap with StdoutLogAppender, StdoutLogAppender => True | FileLogAppender _ _ _ _, FileLogAppender _ _ _ _ => True | _, _ => False end) /\
    r.2 = match sink_ ap, m_formater ap with
          | StdoutLogAppender, Some f =>
              if ap_level ap <=? level then match format m f level ev with Ret s => [s] | Fault _ => [] end else []
          | _, _ => [] end.
Proof.
  intros Ht [f Hf]. unfold appender_log. rewrite Hf. destruct (format_ret (getName m) (m_items f) level ev (Ht f Hf)) as [s Hs].
  unfold format. rewrite Hs. destruct (ap_level ap <=? level).
  - destruct (sink_ ap) as [|fn op st last] eqn:Esk; cbn; rewrite ?Hs; cbn.
    + eexists. split; [reflexivity|]. cbn. by rewrite Esk.
    + eexists. split; [reflexivity|]. cbn. split_and!; try done.
      destruct (negb (now =? last)); cbn; [by destruct (can_open fn)|by destruct op].
  - eexists. split; [reflexivity|]. cbn. split_and!; try done; by destruct (sink_ ap).
Qed.

(** What [printed] looks at of an appender. *)
Definition alike (aps aps' : list LoggerAppender) : Prop :=
  forall a, match aps !! a, aps' !! a with
    | Some x, Some y => m_formater y = m_formater x /\ ap_level y = ap_level x /\
        match sink_ y, sink_ x with StdoutLogAppender, StdoutLogAppender => True
          | FileLogAppender _ _ _ _, FileLogAppender _ _ _ _ => True | _, _ => False end
    | None, None => True
    | _, _ => False
    end.

Lemma printed_alike m m' level ev a :
  alike (appenders m) (appenders m') -> loggers m' = loggers m -> printed m' level ev a = printed m level ev a.
Proof.
  intros H Hl. specialize (H a). unfold printed, format, getName. rewrite Hl.
  destruct (appenders m !! a) as [x|], (appenders m' !! a) as [y|]; try done.
  destruct H as (-> & -> & H). destruct (sink_ y), (sink_ x); done.
Qed.

Lemma log_to_prints l : forall m now level ev,
  Forall (dates_fit m ev) l -> Forall (formatted (appenders m)) l ->
  exists m', log_to m now l level ev = Ret m' /\ cout m' = cout m ++ List.concat (map (printed m level ev) l).
Proof.
  induction l as [|i l IH]; intros m now level ev Ht Hl; cbn [log_to].
  - exists m. cbn. by rewrite app_nil_r.
  - inversion_clear Hl as [|? ? (ap & Hap & Hf) Hl']. inversion_clear Ht as [|? ? Ht1 Ht2]. rewrite Hap. cbn [deref obind].
    destruct (appender_log_ret m now ap level ev (fun f => Ht1 ap f Hap) Hf) as (r & -> & E1 & E2 & E3 & E4). cbn [obind].
    set (m1 := mkManger _ _ _ _ _).
    assert (alike (appenders m) (appenders m1)) as Hal.
    { intros a. cbn. destruct (decide (a = i)) as [->|Hne].
      - rewrite list_lookup_insert_eq by (by eapply lookup_lt_Some). rewrite Hap. done.
      - rewrite list_lookup_insert_ne by done. destruct (appenders m !! a) as [z0|]; [|done]. by destruct (sink_ z0). }
    destruct (IH m1 now level ev) as (m' & -> & Hc).
    { eapply Forall_impl; [exact Ht2|]. intros a Ha z f Hz Hzf. specialize (Hal a). rewrite Hz in Hal.
      destruct (appenders m !! a) as [y|] eqn:Ey; [|done]. destruct Hal as (E & _). apply (Ha y f Ey). congruence. }
    { eapply Forall_impl; [exact Hl'|]. cbn. apply (keep_insert_self _ _ ap); [done|]. by rewrite E1. }
    exists m'. split; [done|]. rewrite Hc. cbn [cout m1]. cbn [map List.concat]. rewrite <- app_assoc. f_equal. f_equal.
    + rewrite E4. unfold printed. by rewrite Hap.
    + f_equal. apply map_ext. intros a. by apply printed_alike.
Qed.

Lemma log_fuel_prints h m now level ev : rises h m -> log_inv m -> forall fuel i l,
  loggers m !! i = Some l -> (ahead h (List.length (loggers m)) i <= fuel)%nat ->
  Forall (dates_fit m ev) (targets_fuel fuel m i level) ->
  exists m', log_fuel fuel m now i level ev = Ret m' /\
    cout m' = cout m ++ List.concat (map (printed m level ev) (targets_fuel fuel m i level)).
Proof.
  intros Hh HI. induction fuel as [|fuel IH]; intros i l Hl Hf Hd.
  { pose proof (ahead_root (fun j => if decide (j = i) then 0%nat else 1%nat) (S i) i (S i)) as _.
    assert (i ∈ List.filter (fun j => h i <=? h j)%nat (seq 0 (List.length (loggers m)))) as Hin.
    { apply list_elem_of_In, List.filter_In. split; [|by apply Nat.leb_refl]. apply in_seq. pose proof (lookup_lt_Some _ _ _ Hl). lia. }
    unfold ahead in Hf. destruct (List.filter _ _); [by apply elem_of_nil in Hin|cbn in Hf; lia]. }
  cbn [log_fuel targets_fuel] in Hd |- *. rewrite Hl in Hd |- *. cbn [deref obind].
  assert (exists m', Ret m = Ret m' /\ cout m' = cout m ++ List.concat (map (printed m level ev) [])) as Hnone
    by (exists m; cbn; by rewrite app_nil_r).
  pose proof (Forall_lookup_1 _ _ _ _ (li_loggers _ HI) Hl) as [A B C].
  destruct (lg_level l <=? level); [|done]. destruct (m_appenders l) as [|a aps] eqn:Ea; [|by apply log_to_prints].
  destruct (lg_root l) as [r|] eqn:Er; [|done]. destruct (lookup_lt_is_Some_2 (loggers m) r (C r eq_refl)) as (lr & Hlr).
  apply (IH r lr Hlr); [|done]. pose proof (ahead_root h (List.length (loggers m)) i r (lookup_lt_Some _ _ _ Hl) (Hh i l r Hl Er)). lia.
Qed.

Lemma log_prints m now i level ev l :
  acyclic m -> log_inv m -> loggers m !! i = Some l -> Forall (dates_fit m ev) (targets m i level) ->
  exists m', log m now i level ev = Ret m' /\ cout m' = cout m ++ List.concat (map (printed m level ev) (targets m i level)).
Proof. intros [h Hh] HI Hi Hd. apply (log_fuel_prints h m now level ev Hh HI _ i l Hi); [apply ahead_bound|done]. Qed.


(** Roots that form a cycle: a message that comes to a logger on it, none of which
    has appenders, takes a mutex twice. *)
Theorem root_cycle_deadlocks m now i j a b level ev :
  loggers m !! i = Some a -> loggers m !! j = Some b -> lg_root a = Some j -> lg_root b = Some i ->
  m_appenders a = [] -> m_appenders b = [] -> lg_level a <= level -> lg_level b <= level ->
  log m now i level ev = Fault Undefined.
Proof.
  intros Ha Hb Ra Rb Aa Ab La Lb. unfold log.
  assert (forall n, log_fuel n m now i level ev = Fault Undefined /\ log_fuel n m now j level ev = Fault Undefined) as H.
  { induction n as [|n [IH1 IH2]]; [done|]. cbn [log_fuel]. rewrite Ha, Hb. cbn [deref obind].
    by rewrite Aa, Ab, Ra, Rb, !(proj2 (Z.leb_le _ _)), IH1, IH2. }
  apply H.
Qed.

(** ** Files *)

(** Messages for one appender, one after the other. *)
Fixpoint log_sequence m (l : list (Z * Z * LogEvent)) (a : LoggerAppender) : outcome LoggerAppender :=
  match l with
  | [] => Ret a
  | (now, level, event) :: l => let! r := appender_log m now a level event in log_sequence m l r.1
  end.

Definition message m (f : LoggerFormatter) (x : Z * Z * LogEvent) : string :=
  match format m f x.1.2 x.2 with Ret s => s | Fault _ => "" end.
(** The messages of the last second, in a list in the order of time. *)
Definition last_second (l : list (Z * Z * LogEvent)) : list (Z * Z * LogEvent) :=
  match last l with
  | Some x => List.filter (fun y => y.1.1 =? x.1.1) l
  | None => []
  end.
Fixpoint in_order (from : Z) (l : list (Z * Z * LogEvent)) : Prop :=
  match l with [] => True | x :: l => from <= x.1.1 /\ in_order x.1.1 l end.

Lemma in_order_last l : forall from x, in_order from l -> last l = Some x -> from <= x.1.1.
Proof.
  induction l as [|y l IH]; [done|]. intros from x [Hy Hl] H. destruct l as [|z l]; [by injection H as ->|].
  etransitivity; [exact Hy|]. by apply (IH y.1.1 x).
Qed.

Lemma log_sequence_file m fn f lv has l : forall st t0,
  Forall (fun x => dates_of (m_items f) x.2) l -> can_open fn = true -> in_order t0 l ->
  Forall (fun x => lv <= x.1.2) l ->
  log_sequence m l (mkAppender (Some f) has lv (FileLogAppender fn true st t0)) =
  Ret (mkAppender (Some f) has lv (match last l with
     | None => FileLogAppender fn true st t0
     | Some x => FileLogAppender fn true
         ((if x.1.1 =? t0 then st else []) ++ map (message m f) (last_second l)) x.1.1
     end)).
Proof.
  intros st t0 Ht Ho. revert st t0. induction Ht as [|[[now level] ev] l Hev Ht IH]; intros st t0 Hord Hlv; [done|].
  cbn [log_sequence]. inversion_clear Hlv as [|? ? H1 H2]. cbn in H1. destruct Hord as [Hnow Hord]. cbn in Hnow, Hord.
  unfold appender_log. cbn [ap_level sink_ m_formater m_hasFormatter]. rewrite (proj2 (Z.leb_le _ _) H1).
  destruct (format_ret (getName m) (m_items f) level ev Hev) as [s Hs]. unfold format. cbn [deref obind]. rewrite Hs. cbn [obind fst].
  assert (message m f (now, level, ev) = s) as Hm by (unfold message, format; cbn; by rewrite Hs).
  set (st1 := if now =? t0 then st else []).
  replace (match (if negb (now =? t0) then _ else _) with StdoutLogAppender => _ | FileLogAppender _ _ _ _ => _ end)
    with (FileLogAppender fn true (st1 ++ [s]) now).
  2:{ unfold st1. cbn [reopen]. rewrite Ho. destruct (Z.eqb_spec now t0) as [->|]; done. }
  rewrite IH by done. f_equal. f_equal. unfold last_second.
  destruct l as [|y l]; [cbn [last List.filter fst]; rewrite Z.eqb_refl; cbn [map]; by rewrite Hm|].
  change (last ((now, level, ev) :: y :: l)) with (last (y :: l)).
  destruct (last (y :: l)) as [x|] eqn:El; [|by apply last_None in El].
  f_equal. pose proof (in_order_last _ _ _ Hord El) as Hx.
  change (List.filter (fun y => y.1.1 =? x.1.1) ((now, level, ev) :: y :: l))
    with (if now =? x.1.1 then (now, level, ev) :: List.filter (fun y => y.1.1 =? x.1.1) (y :: l)
          else List.filter (fun y => y.1.1 =? x.1.1) (y :: l)).
  destruct (Z.eqb_spec x.1.1 now) as [E|E].
  - rewrite E, Z.eqb_refl. cbn [map]. rewrite Hm. unfold st1. rewrite <- app_assoc. done.
  - rewrite (proj2 (Z.eqb_neq now x.1.1)) by done. rewrite (proj2 (Z.eqb_neq x.1.1 t0)) by lia. done.
Qed.

(** A file holds the messages of one second: whatever is logged to a file, in the
    order of time, of a level that is not left out and with dates that fit, once it has been logged the
    file holds just the messages of the second of the last, since the file is opened
    again, and so emptied, with the first message of every second. *)
Theorem file_keeps_last_second m fn f l x :
  Forall (fun x => dates_of (m_items f) x.2) l -> can_open fn = true -> in_order 1 l ->
  Forall (fun x => DEBUG <= x.1.2) l -> last l = Some x ->
  exists a, log_sequence m l (appender_setFormatter (new_appender (Some fn)) (Some f)) = Ret a /\
    sink_ a = FileLogAppender fn true (map (message m f) (last_second l)) x.1.1.
Proof.
  intros Ht Ho Hord Hlv Hx. unfold appender_setFormatter, new_appender, new_sink. cbn [ap_level sink_]. rewrite Ho.
  pose proof (in_order_last _ _ _ Hord Hx) as Hpos.
  rewrite (log_sequence_file m fn f DEBUG true l [] 0 Ht Ho); [|destruct l; [done|]; destruct Hord; split; [lia|done]|done].
  rewrite Hx. eexists. split; [reflexivity|]. cbn. by destruct (x.1.1 =? 0).
Qed.
End logging.

(** ** Witnesses *)
Definition toy_time (f : string) (t : Z) : option string := Some (decimal t).
Definition short : LoggerFormatter := new_LoggerFormatter "%p %m%n".
Definition an_event (i : nat) (level : Z) (text : string) : LogEvent := mkEvent "a.cc" 7 0 1 0 100 "main" text i level.
Definition log_example : list log_op :=
  [GetLogger "system"; MakeAppender None; AppenderFormatter 1 short; AppenderLevel 1 ERROR; AddAppender 1 1;
   SetFormatterText 0 "[%c] %m"; AddAppender 1 0].
Definition log_state : LogManger :=
  match do_ops toy_time (fun _ => true) new_LogManger log_example with Ret m => m | Fault _ => new_LogManger end.

(** Local times that do not fit when their format is long. *)
Definition narrow_time (f : string) (t : Z) : option string :=
  if (String.length f <? 32)%nat then Some (decimal t) else None.
Definition date_fits (strftime : string -> Z -> option string) (event : LogEvent) (it : FormatItem) : bool :=
  match it with DateTimeFormatItem d => bool_decide (is_Some (strftime (c_str d) (m_time event))) | _ => true end.
Definition all_fit (strftime : string -> Z -> option string) m (event : LogEvent) (l : list nat) : bool :=
  forallb (fun a => match appenders m !! a with
    | Some (mkAppender (Some f) _ _ _) => forallb (date_fits strftime event) (m_items f)
    | _ => true
    end) l.
Lemma dates_of_fit strftime items event : forallb (date_fits strftime event) items = true -> dates_of strftime items event.
Proof.
  rewrite forallb_forall. intros H d Hd%list_elem_of_In%H. cbn in Hd. by apply bool_decide_eq_true in Hd as [? ->].
Qed.
Lemma all_fit_dates strftime m event l : all_fit strftime m event l = true -> Forall (dates_fit strftime m event) l.
Proof.
  unfold all_fit. rewrite forallb_forall. intros H. apply Forall_forall. intros a Ha%list_elem_of_In%H ap f Hap Hf.
  rewrite Hap in Ha. destruct ap as [o ? ? ?]. cbn in Hf. subst o. by apply dates_of_fit.
Qed.

Definition rises_b (h : nat -> nat) m : bool :=
  forallb (fun i => match loggers m !! i with
    | Some l => match lg_root l with Some r => (h i <? h r)%nat | None => true end
    | None => true
    end) (seq 0 (List.length (loggers m))).
Lemma rises_b_rises h m : rises_b h m = true -> rises h m.
Proof.
  unfold rises_b. rewrite forallb_forall. intros H i l r Hl Hr. pose proof (lookup_lt_Some _ _ _ Hl) as Hi.
  specialize (H i ltac:(apply in_seq; lia)). rewrite Hl, Hr in H. by apply Nat.ltb_lt.
Qed.

(** A logger beside the manager, with the root of another one. *)
Definition deep_example : list log_op :=
  log_example ++ [MakeLogger "own"; SetRootLogger 2 (Some 1%nat); GetLogger "deep"; SetRootLogger 3 (Some 2%nat)].
Definition deep_state : LogManger :=
  match do_ops narrow_time (fun _ => true) new_LogManger deep_example with Ret m => m | Fault _ => new_LogManger end.

Definition file_messages : list (Z * Z * LogEvent) :=
  [(100, INFO, an_event 0 INFO "one"); (100, INFO, an_event 0 INFO "two"); (101, INFO, an_event 0 INFO "three");
   (101, ERROR, an_event 0 ERROR "four")].
Lemma file_keeps_last_second_witness : exists a,
  log_sequence toy_time (fun _ => true) new_LogManger file_messages
    (appender_setFormatter (new_appender (fun _ => true) (Some "a.log"%string)) (Some (new_LoggerFormatter "%m"))) = Ret a /\
  sink_ a = FileLogAppender "a.log" true ["three"; "four"]%string 101.
Proof.
  destruct (file_keeps_last_second toy_time (fun _ => true) new_LogManger "a.log" (new_LoggerFormatter "%m")
    file_messages (101, ERROR, an_event 0 ERROR "four")) as (a & H1 & H2).
  - repeat (apply Forall_cons_2; [apply dates_of_fit; vm_compute; reflexivity|]). apply Forall_nil_2.
  - reflexivity.
  - cbn. lia.
  - repeat (apply Forall_cons_2; [done|]). apply Forall_nil_2.
  - reflexivity.
  - exists a. split; [exact H1|exact H2].
Defined.
