(* ===== verification/LogThreads.v ===== *)
(** * Loggers used by threads (src/qslary/base/Logger.cc)

    The methods of loggers, appenders and the manager with the mutexes they hold
    (LockOrder.v): the manager's, a logger's, and under it those of its appenders or of
    its root, under which are those of that logger's root, and so on. Alone they are the
    methods of Logger.v. *)
From stdpp Require Import base list gmap strings relations.
From Stdlib Require Import ZArith String Lia.
From S2P Require Import Prelude CLib LockOrder LogFormat Logger.
Open Scope Z_scope.

Inductive lock : Set := LManager | LLogger (i : nat) | LAppender (a : nat).
#[export] Instance lock_eq_dec : EqDecision lock.
Proof. solve_decision. Defined.

Section threads.
Context (strftime : string -> Z -> option string) (can_open : string -> bool).
(** The longest way from a logger to its root, on to that one's root, and so on. *)
Context (top : nat).

Abbreviation log_prog := (prog (X := LogManger) (L := lock)).
Implicit Types (m : LogManger) (k : log_prog).

(** A change that ends with a value; one that does not, a date that does not fit
    being printed, is none. *)
Definition chg (f : LogManger -> outcome LogManger) m : LogManger :=
  match f m with Ret m' => m' | Fault _ => m end.

(** ** Appenders *)
Definition with_sink m (a : nat) (f : sink -> sink) : LogManger :=
  match appenders m !! a with
  | Some x => set_appender m a (mkAppender (m_formater x) (m_hasFormatter x) (ap_level x) (f (sink_ x)))
  | None => m
  end.
Definition reopen_appender (a : nat) m : LogManger := with_sink m a (reopen can_open).
Definition set_last (a : nat) (now : Z) m : LogManger :=
  with_sink m a (fun s => match s with FileLogAppender fn op st _ => FileLogAppender fn op st now | s => s end).
(** [m_filestream << m_formater->format(...)], and that to [std::cout] *)
Definition write_appender (a : nat) (level : Z) (event : LogEvent) m : outcome LogManger :=
  let! x := deref (appenders m !! a) in
  let! f := deref (m_formater x) in
  let! s := format strftime m f level event in
  Ret (match sink_ x with
       | StdoutLogAppender => mkManger (loggers m) (appenders m) (m_loggers m) (m_root m) (cout m ++ [s])
       | _ => with_sink m a (fun sk => match sk with
                | FileLogAppender fn true st last => FileLogAppender fn true (st ++ [s]) last
                | sk => sk
                end)
       end).

(** [StdoutLogAppender::log] and [FileLogAppender::log]: the latter reopens, under the
    mutex, and then takes it again. *)
Definition appender_prog (now : Z) (level : Z) (event : LogEvent) (a : nat) k : log_prog :=
  Look (fun m =>
    match appenders m !! a with
    | None => k
    | Some x =>
        if ap_level x <=? level then
          let write := Acquire (LAppender a) (Change (chg (write_appender a level event)) (Release (LAppender a) k)) in
          match sink_ x with
          | StdoutLogAppender => write
          | FileLogAppender _ _ _ last =>
              if negb (now =? last)
              then Acquire (LAppender a) (Change (reopen_appender a) (Release (LAppender a) (Change (set_last a now) write)))
              else write
          end
        else k
    end).

(** ** Loggers

    [Logger::log]. A way through the roots that is longer than [depth] is taken to have
    come round to a logger whose mutex is held. *)
Fixpoint logger_prog (depth : nat) (now : Z) (i : nat) (level : Z) (event : LogEvent) k : log_prog :=
  Look (fun m =>
    match loggers m !! i with
    | None => k
    | Some l =>
        if lg_level l <=? level then
          Acquire (LLogger i) (Look (fun m =>
            let behind := Release (LLogger i) k in
            match loggers m !! i with
            | None => behind
            | Some l =>
                match m_appenders l, lg_root l, depth with
                | [], Some r, S depth => logger_prog depth now r level event behind
                | [], Some r, O => Acquire (LLogger i) behind
                | [], None, _ => behind
                | aps, _, _ => foldr (appender_prog now level event) behind aps
                end
            end))
        else k
    end).

(** [Logger::addAppender] *)
Definition give_formatter (i a : nat) m : LogManger :=
  match loggers m !! i, appenders m !! a with
  | Some l, Some x => set_appender m a (mkAppender (m_formatter l) (m_hasFormatter x) (ap_level x) (sink_ x))
  | _, _ => m
  end.
Definition add_prog (i a : nat) : log_prog :=
  (** the formatter is there by now, so that this only pushes *)
  let push := Change (chg (fun m => addAppender m i a)) (Release (LLogger i) Done) in
  Acquire (LLogger i) (Acquire (LAppender a) (Look (fun m =>
    Release (LAppender a)
      match appenders m !! a with
      | Some x =>
          match getForamter x with
          | None => Acquire (LAppender a) (Change (give_formatter i a) (Release (LAppender a) push))
          | Some _ => push
          end
      | None => Release (LLogger i) Done
      end))).

(** [Logger::setFormatter] *)
Definition put_formatter (i : nat) (val : LoggerFormatter) m : LogManger :=
  match loggers m !! i with
  | Some l => set_logger m i (mkLogger (m_name l) (lg_level l) (m_appenders l) (Some val) (lg_root l))
  | None => m
  end.
Definition hand_one (val : LoggerFormatter) (a : nat) m : LogManger :=
  mkManger (loggers m) (hand_formatter [a] (Some val) (appenders m)) (m_loggers m) (m_root m) (cout m).
Definition hand_prog (val : LoggerFormatter) (a : nat) k : log_prog :=
  Acquire (LAppender a) (Change (hand_one val a) (Release (LAppender a) k)).
Definition set_formatter_prog (i : nat) (val : LoggerFormatter) : log_prog :=
  Acquire (LLogger i) (Change (put_formatter i val) (Look (fun m =>
    match loggers m !! i with
    | Some l => foldr (hand_prog val) (Release (LLogger i) Done) (m_appenders l)
    | None => Release (LLogger i) Done
    end))).

(** Printing: every appender under its logger's mutex, and every logger under the
    manager's. *)
Definition read_under (l : lock) k : log_prog := Acquire l (Release l k).
Definition print_logger (i : nat) k : log_prog :=
  Acquire (LLogger i) (Look (fun m =>
    match loggers m !! i with
    | Some l => foldr (fun a => read_under (LAppender a)) (Release (LLogger i) k) (m_appenders l)
    | None => Release (LLogger i) k
    end)).
Definition print_manager : log_prog :=
  Acquire LManager (Look (fun m =>
    foldr print_logger (Release LManager Done) (map snd (map_to_list (m_loggers m))))).

(** ** The calls

    Those that take no mutex, like [setLevel] and [setRootLogger], are one step. *)
Inductive call : Type :=
| Op (o : log_op)
| GetFormatter (i : nat)
| GetForamter (a : nat)
| ToYamlString
| LoggerToYamlString (i : nat).

Definition under (l : lock) (o : log_op) : log_prog :=
  Acquire l (Change (chg (fun m => do_op strftime can_open m o)) (Release l Done)).
Definition unlocked (o : log_op) : log_prog := Change (chg (fun m => do_op strftime can_open m o)) Done.

Definition meaning (c : call) : log_prog :=
  match c with
  | Op (GetLogger name) => under LManager (GetLogger name)
  | Op (MakeLogger name) => unlocked (MakeLogger name)
  | Op (SetRootLogger i root) => unlocked (SetRootLogger i root)
  | Op (MakeAppender file) => unlocked (MakeAppender file)
  | Op (AppenderFormatter a f) => under (LAppender a) (AppenderFormatter a f)
  | Op (AppenderLevel a level) => unlocked (AppenderLevel a level)
  | Op (AddAppender i a) => add_prog i a
  | Op (DelAppender i a) => under (LLogger i) (DelAppender i a)
  | Op (ClearAppender i) => under (LLogger i) (ClearAppender i)
  | Op (SetLevel i level) => unlocked (SetLevel i level)
  | Op (SetFormatter i f) => set_formatter_prog i f
  | Op (SetFormatterText i s) =>
      let new_val := new_LoggerFormatter s in
      if m_error new_val then Done else set_formatter_prog i new_val
  | Op (LogAt now i level event) =>
      Look (fun m =>
        match loggers m !! i with
        | Some l => if lg_level l <=? level then logger_prog top now (m_logger event) (m_level event) event Done else Done
        | None => Done
        end)
  | Op (LogTo now i level event) => logger_prog top now i level event Done
  | GetFormatter i => read_under (LLogger i) Done
  | GetForamter a => read_under (LAppender a) Done
  | ToYamlString => print_manager
  | LoggerToYamlString i => print_logger i Done
  end.

(** ** The changes keep what holds of loggers

    The order [h] of loggers, the one that is the manager's root, and that roots are
    behind: those there are, those that new loggers will get, and those that are set. *)
Definition rank (h : nat -> nat) (l : lock) : nat :=
  match l with
  | LManager => 0
  | LLogger i => S (h i)
  | LAppender _ => S (S top)
  end.
Record roots_behind (h : nat -> nat) m : Prop := {
  rb_top i : (h i <= top)%nat;
  rb_rises : rises h m;
  rb_new i : (List.length (loggers m) <= i)%nat -> (h i < h (m_root m))%nat
}.
Definition call_ok (h : nat -> nat) (c : call) : Prop :=
  match c with Op (SetRootLogger i (Some r)) => (h i < h r)%nat | _ => True end.

Context (h : nat -> nat).
Definition usable m : Prop := log_inv m /\ roots_behind h m.

Lemma usable_same m m' : usable m -> log_inv m' -> same_roots m m' -> usable m'.
Proof.
  intros [_ [Ht Hr Hn]] HI (E & Hle & Hs). split; [done|]. split; [done| |].
  - intros i l r Hi Hlr. destruct (Hs i l r Hi Hlr) as [(l0 & A & B)|[A ->]]; [by apply (Hr i l0)|by apply Hn].
  - intros i Hi. rewrite E. apply Hn. clear -Hle Hi. lia.
Qed.
Lemma set_root_usable m i r m' : (forall x, r = Some x -> (h i < h x)%nat) -> usable m ->
  do_op strftime can_open m (SetRootLogger i r) = Ret m' -> usable m'.
Proof.
  intros Hi [HI [Ht Hr Hn]] H. split; [by eapply do_op_inv|]. cbn [do_op] in H.
  apply deref_inv in H as (l & Hl & H). apply obind_Ret_inv in H as (u & _ & [= <-]). split; [done| |].
  - intros j l' x Hj Hx. cbn in Hj. destruct (decide (j = i)) as [->|Hne].
    + rewrite list_lookup_insert_eq in Hj by (by eapply lookup_lt_Some). injection Hj as <-. by apply Hi.
    + rewrite list_lookup_insert_ne in Hj by done. by apply (Hr j l').
  - intros j Hj. cbn in Hj |- *. rewrite length_insert in Hj. by apply Hn.
Qed.

Lemma chg_usable f m : (forall m', f m = Ret m' -> usable m') -> usable m -> usable (chg f m).
Proof. intros H Hm. unfold chg. destruct (f m); [by apply H|done]. Qed.
Lemma op_usable o m : call_ok h (Op o) -> usable m -> usable (chg (fun m => do_op strftime can_open m o) m).
Proof.
  intros Ho Hm. apply chg_usable; [|done]. intros m' H. destruct (sets_root o) eqn:E.
  - destruct o as [|?|i r| | | | | | | | | | |]; try done. apply (set_root_usable m i r); [|done|done]. intros x ->. exact Ho.
  - apply (usable_same m); [done|by eapply do_op_inv; [apply Hm|]|by eapply do_op_same_roots].
Qed.

Lemma appenders_usable m aps c : keeps_formatted (appenders m) aps -> usable m ->
  usable (mkManger (loggers m) aps (m_loggers m) (m_root m) c).
Proof. intros Hk Hm. apply (usable_same m); [done|by apply inv_appenders; [apply Hm|]|by apply same_roots_kept]. Qed.

Lemma with_sink_usable a f m : usable m -> usable (with_sink m a f).
Proof.
  intros H. unfold with_sink. destruct (appenders m !! a) as [x|] eqn:E; [|done].
  apply appenders_usable; [|done]. by apply (keep_insert_self _ _ x).
Qed.

Lemma write_usable a level ev m : usable m -> usable (chg (write_appender a level ev) m).
Proof.
  intros H. apply chg_usable; [|done]. intros m' Hw. unfold write_appender in Hw.
  apply obind_Ret_inv in Hw as (x & _ & Hw). apply obind_Ret_inv in Hw as (f & _ & Hw).
  apply obind_Ret_inv in Hw as (s & _ & [= <-]). destruct (sink_ x); [by apply appenders_usable; [intros ?|]|by apply with_sink_usable].
Qed.

Lemma give_usable i a m : usable m -> usable (give_formatter i a m).
Proof.
  intros H. unfold give_formatter. destruct (loggers m !! i) as [l|] eqn:El; [|done]. destruct (appenders m !! a) as [x|]; [|done].
  apply appenders_usable; [|done]. apply keep_insert. cbn.
  exact (lo_formatter _ _ (Forall_lookup_1 _ _ _ _ (li_loggers _ (proj1 H)) El)).
Qed.

Lemma put_usable i f m : usable m -> usable (put_formatter i f m).
Proof.
  intros Hm. unfold put_formatter. destruct (loggers m !! i) as [l|] eqn:El; [|done].
  destruct (Forall_lookup_1 _ _ _ _ (li_loggers _ (proj1 Hm)) El) as [A B C].
  apply (usable_same m); [done|by apply (inv_change m _ i l); try done; [apply Hm|intros ?]|by apply (same_roots_change m _ i l)].
Qed.

Lemma hand_usable f a m : usable m -> usable (hand_one f a m).
Proof. intros H. apply appenders_usable; [|done]. apply hand_formatter_keeps. Qed.

(** ** Locks are taken in order *)
Abbreviation rank_of := (rank h).
Abbreviation last_rank := (S (S top)).
Abbreviation in_turn := (ordered rank_of last_rank usable).
Abbreviation below n hs := (Forall (fun l => (rank_of l < n)%nat) hs).
Context (h_top : forall i, (h i <= top)%nat).

Lemma below_le n n' hs : (n <= n')%nat -> below n hs -> below n' hs.
Proof. intros H Hs. eapply Forall_impl; [exact Hs|]. cbn. lia. Qed.
Lemma rank_logger i : (1 <= rank_of (LLogger i) < last_rank)%nat.
Proof using h_top. pose proof (h_top i). cbn. lia. Qed.

(** A lock that is taken, and given up behind what is done under it. *)
Lemma block_ordered hs l p : (rank_of l <= last_rank)%nat -> below (rank_of l) hs -> in_turn (l :: hs) p -> in_turn hs (Acquire l p).
Proof. intros H1 H2 H3. by split_and!. Qed.

Lemma change_block_ordered hs a f k : below last_rank hs -> (forall m, usable m -> usable (f m)) -> in_turn hs k ->
  in_turn hs (Acquire (LAppender a) (Change f (Release (LAppender a) k))).
Proof. intros H1 H2 H3. apply block_ordered; [done|done|]. by split. Qed.

Lemma appender_ordered hs now level ev a k : below last_rank hs -> in_turn hs k -> in_turn hs (appender_prog now level ev a k).
Proof.
  intros Hs Hk m Hm. cbn. destruct (appenders m !! a) as [x|]; [|done]. destruct (ap_level x <=? level); [|done].
  assert (in_turn hs (Acquire (LAppender a) (Change (chg (write_appender a level ev)) (Release (LAppender a) k)))) as Hw
    by (apply change_block_ordered; [done|intros; by apply write_usable|done]).
  destruct (sink_ x) as [|fn op st last]; [done|]. destruct (negb (now =? last)); [|done].
  apply change_block_ordered; [done|intros; by apply with_sink_usable|]. split; [intros; by apply with_sink_usable|done].
Qed.

Lemma foldr_ordered hs (f : nat -> log_prog -> log_prog) k l :
  (forall a k, in_turn hs k -> in_turn hs (f a k)) -> in_turn hs k -> in_turn hs (foldr f k l).
Proof. intros Hf Hk. induction l as [|a l IH]; cbn; auto. Qed.

Lemma logger_held hs i k : below (rank_of (LLogger i)) hs -> in_turn hs k ->
  below last_rank (LLogger i :: hs) /\ in_turn (LLogger i :: hs) (Release (LLogger i) k).
Proof.
  intros Hs Hk. pose proof (rank_logger i). split; [|by split]. constructor; [lia|]. apply (below_le (rank_of (LLogger i))); [lia|done].
Qed.

Lemma logger_ordered depth : forall hs now i level ev k, (top - h i <= depth)%nat -> below (rank_of (LLogger i)) hs -> in_turn hs k ->
  in_turn hs (logger_prog depth now i level ev k).
Proof.
  induction depth as [|depth IH]; intros hs now i level ev k Hd Hs Hk m Hm; cbn -[rank];
    (destruct (loggers m !! i) as [l0|]; [|done]); (destruct (lg_level l0 <=? level); [|done]);
    (apply block_ordered; [pose proof (rank_logger i); lia|done|]); intros m' Hm';
    destruct (logger_held hs i k Hs Hk) as [H3 Hb]; cbn -[rank];
    (destruct (loggers m' !! i) as [l|] eqn:El; [|done]);
    (destruct (m_appenders l) as [|a aps];
      [|apply (foldr_ordered _ (appender_prog now level ev) _ (a :: aps)); [intros; by apply appender_ordered|done]]);
    (destruct (lg_root l) as [r|] eqn:Er; [|done]);
    pose proof (rb_rises _ _ (proj2 Hm') i l r El Er) as Hir; pose proof (h_top r) as Hr.
  - lia.
  - apply IH; [lia| |done]. constructor; [cbn; lia|]. apply (below_le (rank_of (LLogger i))); [cbn; lia|done].
Qed.

Lemma set_formatter_ordered i f : in_turn [] (set_formatter_prog i f).
Proof.
  apply block_ordered; [pose proof (rank_logger i); lia|constructor|]. split; [intros; by apply put_usable|].
  intros m Hm. destruct (logger_held [] i Done ltac:(constructor) eq_refl) as [H3 Hb].
  destruct (loggers m !! i) as [l|]; [|done]. apply foldr_ordered; [|done].
  intros a k Hk. apply change_block_ordered; [done|intros; by apply hand_usable|done].
Qed.

Lemma add_ordered i a : in_turn [] (add_prog i a).
Proof.
  destruct (logger_held [] i Done ltac:(constructor) eq_refl) as [H3 Hb].
  assert (in_turn [LLogger i] (Change (chg (fun m => addAppender m i a)) (Release (LLogger i) Done))) as Hp
    by (split; [intros m Hm; exact (op_usable (AddAppender i a) m I Hm)|done]).
  apply block_ordered; [pose proof (rank_logger i); lia|constructor|].
  apply block_ordered; [done|done|]. intros m Hm. split; [done|].
  destruct (appenders m !! a) as [x|]; [|done]. destruct (getForamter x); [done|].
  apply change_block_ordered; [done|intros; by apply give_usable|done].
Qed.

Lemma print_ordered hs i k : below (rank_of (LLogger i)) hs -> in_turn hs k -> in_turn hs (print_logger i k).
Proof.
  intros Hs Hk. apply block_ordered; [pose proof (rank_logger i); lia|done|]. intros m Hm.
  destruct (logger_held hs i k Hs Hk) as [H3 Hb]. destruct (loggers m !! i) as [l|]; [|done].
  apply foldr_ordered; [|done]. intros a k' Hk'. apply block_ordered; [done|done|]. by split.
Qed.

Lemma under_ordered l o : (rank_of l <= last_rank)%nat -> call_ok h (Op o) -> in_turn [] (under l o).
Proof. intros H Ho. apply block_ordered; [done|constructor|]. split; [intros; by apply op_usable|done]. Qed.

Lemma log_meaning_ordered c : call_ok h c -> in_turn [] (meaning c).
Proof.
  assert (forall i, (rank_of (LLogger i) <= last_rank)%nat) as Hr by (intros i; pose proof (rank_logger i); lia).
  assert (forall o, call_ok h (Op o) -> in_turn [] (unlocked o)) as Hu by (intros o Ho; split; [intros; by apply op_usable|done]).
  assert (forall now i level ev, in_turn [] (logger_prog top now i level ev Done)) as Hlog
    by (intros; apply logger_ordered; [pose proof (h_top i); lia|constructor|done]).
  intros Hc. destruct c as [[name|name|i r|file|a f|a level|i a|i a|i|i level|i f|i text|now i level ev|now i level ev]|i|a| |i]; cbn [meaning];
    try (by apply Hu).
  - apply under_ordered; [cbn; lia|done].
  - apply under_ordered; [cbn; lia|done].
  - apply add_ordered.
  - by apply under_ordered.
  - by apply under_ordered.
  - apply set_formatter_ordered.
  - destruct (m_error _); [done|apply set_formatter_ordered].
  - intros m Hm. destruct (loggers m !! i) as [l|]; [|done]. destruct (lg_level l <=? level); [apply Hlog|done].
  - apply Hlog.
  - apply block_ordered; [apply Hr|constructor|by split].
  - apply block_ordered; [cbn; lia|constructor|by split].
  - apply block_ordered; [cbn; lia|constructor|]. intros m Hm. apply foldr_ordered; [|by split].
    intros i k Hk. apply print_ordered; [|done]. constructor; [|constructor]. cbn. lia.
  - apply print_ordered; [constructor|done].
Qed.

(** ** Alone, a call is the method *)
Lemma with_sink_at m (a : nat) x f : appenders m !! a = Some x ->
  with_sink m a f = set_appender m a (mkAppender (m_formater x) (m_hasFormatter x) (ap_level x) (f (sink_ x))).
Proof. intros H. unfold with_sink. by rewrite H. Qed.
Lemma set_appender_at m (a : nat) x y : appenders m !! a = Some x -> appenders (set_appender m a y) !! a = Some y.
Proof. intros H. apply list_lookup_insert_eq. by eapply lookup_lt_Some. Qed.
Lemma set_appender_twice m a y z : set_appender (set_appender m a y) a z = set_appender m a z.
Proof. unfold set_appender. cbn [loggers appenders m_loggers m_root cout]. by rewrite list_insert_insert_eq. Qed.

(** What is written to an appender that is open or not *)
Lemma alone_write a level ev m x f s k : appenders m !! a = Some x -> m_formater x = Some f -> format strftime m f level ev = Ret s ->
  alone (Acquire (LAppender a) (Change (chg (write_appender a level ev)) (Release (LAppender a) k))) m =
  alone k (match sink_ x with
           | StdoutLogAppender => mkManger (loggers m) (appenders m) (m_loggers m) (m_root m) (cout m ++ [s])
           | FileLogAppender fn op st last => set_appender m a (mkAppender (Some f) (m_hasFormatter x) (ap_level x)
               (if op then FileLogAppender fn true (st ++ [s]) last else FileLogAppender fn op st last))
           end).
Proof.
  intros Ha Hf Hs. cbn [alone]. unfold chg, write_appender. rewrite Ha. cbn [deref obind]. rewrite Hf. cbn [deref obind].
  rewrite Hs. cbn [obind]. destruct (sink_ x) as [|fn op st last] eqn:E; [done|].
  rewrite (with_sink_at _ _ x) by done. rewrite Hf, E. by destruct op.
Qed.

Lemma alone_block l f k m : alone (Acquire l (Change f (Release l k))) m = alone k (f m).
Proof. reflexivity. Qed.
Lemma alone_change f k m : alone (Change f k) m = alone k (f m).
Proof. reflexivity. Qed.

Lemma alone_appender now level ev a k m x r :
  appenders m !! a = Some x -> appender_log strftime can_open m now x level ev = Ret r ->
  alone (appender_prog now level ev a k) m =
  alone k (mkManger (loggers m) (<[a := r.1]> (appenders m)) (m_loggers m) (m_root m) (cout m ++ r.2)).
Proof.
  intros Ha H. unfold appender_prog. cbn [alone]. rewrite Ha. unfold appender_log in H.
  destruct (ap_level x <=? level).
  2:{ injection H as <-. cbn [fst snd]. rewrite list_insert_id, app_nil_r by done. by destruct m. }
  destruct (sink_ x) as [|fn op st last] eqn:Es;
    apply obind_Ret_inv in H as (f & Hf & H); apply obind_Ret_inv in H as (s & Hs & [= <-]);
    (destruct (m_formater x) as [f'|] eqn:Ef; [|done]); injection Hf as ->; cbn [fst snd].
  - rewrite (alone_write a level ev m x f s) by done. rewrite Es. by rewrite list_insert_id.
  - rewrite app_nil_r. destruct (negb (now =? last)).
    + rewrite alone_block, alone_change. unfold reopen_appender, set_last. rewrite (with_sink_at m a x), Es by done.
      rewrite (with_sink_at _ a _ _ (set_appender_at _ _ _ _ Ha)), set_appender_twice. cbn [reopen sink_ m_formater m_hasFormatter ap_level].
      rewrite Ef.
      rewrite (alone_write a level ev _ _ f s k (set_appender_at _ _ _ _ Ha)) by done.
      cbn [sink_ m_formater m_hasFormatter ap_level]. rewrite set_appender_twice. by destruct (can_open fn).
    + rewrite (alone_write a level ev m x f s) by done. rewrite Es. by destruct op.
Qed.

Lemma alone_appenders now level ev k aps : forall m m', log_to strftime can_open m now aps level ev = Ret m' ->
  alone (foldr (appender_prog now level ev) k aps) m = alone k m'.
Proof.
  induction aps as [|a aps IH]; intros m m' H; cbn [log_to] in H; [by injection H as <-|].
  apply deref_inv in H as (x & Hx & H). apply obind_Ret_inv in H as (r & Hr & H).
  cbn [foldr]. rewrite (alone_appender now level ev a _ m x r Hx Hr). by apply IH.
Qed.

Lemma alone_logger depth : forall fuel now i level ev k m m' l, log_inv m -> rises h m -> loggers m !! i = Some l ->
  (top - h i <= depth)%nat ->
  log_fuel strftime can_open fuel m now i level ev = Ret m' -> alone (logger_prog depth now i level ev k) m = alone k m'.
Proof.
  induction depth as [|depth IH]; intros [|fuel] now i level ev k m m' l HI Hh Hl Hd H; try done;
    cbn [log_fuel] in H; rewrite Hl in H; cbn [deref obind] in H; cbn [logger_prog alone]; rewrite Hl;
    (destruct (lg_level l <=? level); [|by injection H as <-]); cbn [alone]; rewrite Hl;
    (destruct (m_appenders l) as [|a aps];
      [|rewrite (alone_appenders now level ev (Release (LLogger i) k) (a :: aps) m m' H); by destruct (lg_root l)]);
    (destruct (lg_root l) as [r|] eqn:Er; [|by injection H as <-]);
    pose proof (Hh i l r Hl Er) as Hir; pose proof (h_top r) as Hr; [lia|].
  destruct (lookup_lt_is_Some_2 (loggers m) r) as (lr & Hlr).
  { by apply (lo_root _ _ (Forall_lookup_1 _ _ _ _ (li_loggers _ HI) Hl)). }
  rewrite (IH fuel now r level ev (Release (LLogger i) k) m m' lr); [done|done|done|done|lia|done].
Qed.

Lemma alone_hand val k l : forall m, alone (foldr (hand_prog val) k l) m =
  alone k (mkManger (loggers m) (hand_formatter l (Some val) (appenders m)) (m_loggers m) (m_root m) (cout m)).
Proof.
  induction l as [|a l IH]; intros m; cbn [foldr]; [by destruct m|]. unfold hand_prog at 1. rewrite alone_block. by rewrite IH.
Qed.

Lemma alone_set_formatter i f m m' : setFormatter m i (Some f) = Ret m' -> alone (set_formatter_prog i f) m = m'.
Proof.
  intros (l & Hl & [= <-])%deref_inv. unfold set_formatter_prog. cbn [alone]. unfold put_formatter. rewrite Hl. cbn [set_logger loggers].
  rewrite list_lookup_insert_eq by (by eapply lookup_lt_Some). by rewrite alone_hand.
Qed.

Lemma alone_add i a m m' : addAppender m i a = Ret m' -> alone (add_prog i a) m = m'.
Proof.
  intros H. pose proof H as H'. apply deref_inv in H as (l & Hl & H). apply deref_inv in H as (x & Hx & H).
  unfold add_prog. cbn [alone]. rewrite Hx. destruct (getForamter x) as [f|] eqn:Ef; cbn [alone].
  - unfold chg. by rewrite H'.
  - injection H as <-. unfold chg, give_formatter. rewrite Hl, Hx. unfold addAppender. cbn [set_appender loggers]. rewrite Hl. cbn [deref obind].
    pose proof (set_appender_at m a x (mkAppender (m_formatter l) (m_hasFormatter x) (ap_level x) (sink_ x)) Hx) as E.
    cbn [set_appender] in E. rewrite E. cbn [deref obind getForamter m_formater m_hasFormatter ap_level sink_].
    destruct (m_formatter l); unfold set_appender, set_logger; cbn [loggers appenders m_loggers m_root cout]; by rewrite list_insert_insert_eq.
Qed.

Lemma alone_log now i level ev m m' : log_inv m -> rises h m -> log strftime can_open m now i level ev = Ret m' ->
  alone (logger_prog top now i level ev Done) m = m'.
Proof.
  intros HI Hh H. unfold log in H. destruct (loggers m !! i) as [l|] eqn:Hl.
  - rewrite (alone_logger top _ now i level ev Done m m' l HI Hh Hl ltac:(pose proof (h_top i); lia) H). done.
  - destruct (List.length (loggers m)); [done|]. cbn [log_fuel] in H. by rewrite Hl in H.
Qed.

(** A call of a logger, an appender or the manager that the threads take apart into
    locks and steps is, made alone, the method of Logger.v. *)
Theorem log_calls_alone m o m' : log_inv m -> rises h m -> do_op strftime can_open m o = Ret m' -> alone (meaning (Op o)) m = m'.
Proof.
  intros HI Hh H. assert (forall m' f, f m = Ret m' -> chg f m = m') as Hc by (intros m1 f E; unfold chg; by rewrite E).
  destruct o as [name|name|i r|file|a f|a level|i a|i a|i|i level|i f|i text|now i level ev|now i level ev]; cbn [meaning];
    try (apply Hc; exact H).
  - by apply alone_add.
  - by apply alone_set_formatter.
  - cbn [do_op] in H. unfold setFormatter_text in H. destruct (m_error _); [by injection H as <-|by apply alone_set_formatter].
  - apply deref_inv in H as (l & Hl & H). cbn [alone]. rewrite Hl. destruct (lg_level l <=? level); [|by injection H as <-].
    by apply alone_log.
  - by apply alone_log.
Qed.

End threads.

Lemma threads_log_end strftime can_open os m h top programs s :
  do_ops strftime can_open new_LogManger os = Ret m -> roots_behind top h m -> Forall (Forall (call_ok h)) programs ->
  rtc (sched (meaning strftime can_open top)) (new_state m programs) s ->
  sn (sched (meaning strftime can_open top)) s /\
  ((forall t, turn (meaning strftime can_open top) t s = None) -> forall t th, threads s !! t = Some th -> finished th) /\
  log_inv (data s) /\ roots_behind top h (data s).
Proof.
  intros Hos Hr Hok Hs.
  assert (usable top h m) as Hm by (split; [by eapply do_ops_inv; [apply new_LogManger_inv|]|done]).
  pose proof (ordered_locks_end (rank top h) (S (S top)) _ _ _ (log_meaning_ordered strftime can_open top h (rb_top _ _ _ Hr))
    m programs s Hm Hok Hs) as (H1 & [H2 H3] & H4 & _). done.
Qed.

(** C22: logging from threads never deadlocks, when roots form no cycle and the
    formatters that are handed over are not null. Let the loggers that a program has set
    up, and those that it will make, have an order [h], bounded by [top], in which the
    root of each is behind it, the manager's root being behind all that are made later
    ([roots_behind]); and let the calls of [setRootLogger] that threads make respect it
    ([call_ok]). Then, whatever else the threads log, add, remove and set up, in
    whatever order they take turns, they come to an end, and not by waiting for one
    another, although a logger holds its mutex while its appenders or its root take
    theirs, and the manager holds its own while every logger prints itself. All along
    appenders have formatters, loggers are found under their names, and the roots stay
    in the order. *)
Theorem logging_never_deadlocks strftime can_open os m h top programs s :
  do_ops strftime can_open new_LogManger os = Ret m -> roots_behind top h m -> Forall (Forall (call_ok h)) programs ->
  rtc (sched (meaning strftime can_open top)) (new_state m programs) s ->
  sn (sched (meaning strftime can_open top)) s /\
  ((forall t, turn (meaning strftime can_open top) t s = None) -> forall t th, threads s !! t = Some th -> finished th) /\
  log_inv (data s) /\ roots_behind top h (data s).
Proof. exact (threads_log_end strftime can_open os m h top programs s). Qed.

(** In particular when the roots are left to the manager. *)
Definition leaves_roots (c : call) : bool := match c with Op o => negb (sets_root o) | _ => true end.
Theorem managed_logging_never_deadlocks strftime can_open os m programs s :
  forallb (fun o => negb (sets_root o)) os = true -> Forall (Forall (fun c => leaves_roots c = true)) programs ->
  do_ops strftime can_open new_LogManger os = Ret m ->
  rtc (sched (meaning strftime can_open 1)) (new_state m programs) s ->
  sn (sched (meaning strftime can_open 1)) s /\
  ((forall t, turn (meaning strftime can_open 1) t s = None) -> forall t th, threads s !! t = Some th -> finished th).
Proof.
  intros Hos Hp Hm Hs. pose proof (do_ops_inv strftime can_open os _ _ new_LogManger_inv Hm) as HI.
  destruct (threads_log_end strftime can_open os m (managed_order m) 1 programs s) as (H1 & H2 & _); [done| | |done|done].
  - split; [apply managed_order_bound|by eapply managed_rises|]. intros i Hi. apply managed_order_root.
    intros ->. destruct (li_root _ HI) as (l & Hl%lookup_lt_Some). lia.
  - eapply Forall_impl; [exact Hp|]. intros cs Hcs. eapply Forall_impl; [exact Hcs|]. by intros [[]| | | |].
Qed.

(** ** A file of two loggers *)
Definition shared_file : list log_op :=
  [GetLogger "a"; GetLogger "b"; MakeAppender (Some "x.log"%string); SetFormatterText 1 "%m"; AddAppender 1 1; AddAppender 2 1].
Definition shared_state : LogManger :=
  match do_ops toy_time (fun _ => true) new_LogManger shared_file with Ret m => m | Fault _ => new_LogManger end.
Definition file_of (a : nat) m : list string :=
  match appenders m !! a with
  | Some (mkAppender _ _ _ (FileLogAppender _ _ st _)) => st
  | _ => []
  end.
Definition one_each : list (list call) :=
  [[Op (LogAt 100 1 INFO (an_event 1 INFO "one"))]; [Op (LogAt 100 2 INFO (an_event 2 INFO "two"))]].

(** A message may be lost within its second: two loggers share a file, and two threads
    log through them. Both see that the second is a new one before either has
    stored it, so that both open the file again, the one behind what the other wrote.
    One after the other they keep both messages. *)
Theorem shared_file_loses_message :
  let call2 m := alone (meaning toy_time (fun _ => true) 1 (Op (LogAt 100 2 INFO (an_event 2 INFO "two")))) m in
  let call1 m := alone (meaning toy_time (fun _ => true) 1 (Op (LogAt 100 1 INFO (an_event 1 INFO "one")))) m in
  file_of 1 (call2 (call1 shared_state)) = ["one"; "two"]%string /\
  exists s, rtc (sched (meaning toy_time (fun _ => true) 1)) (new_state shared_state one_each) s /\
    (forall t, turn (meaning toy_time (fun _ => true) 1) t s = None) /\ file_of 1 (data s) = ["two"]%string.
Proof.
  cbv zeta. split; [vm_compute; reflexivity|].
  apply (offer_end (meaning toy_time (fun _ => true) 1) (fun s => file_of 1 (data s)) ["two"%string]
    (List.concat [repeat 1%nat 6; repeat 0%nat 40; repeat 1%nat 40]) (new_state shared_state one_each)).
  - vm_compute. reflexivity.
  - vm_compute. reflexivity.
Qed.

(** ** Witnesses *)
Definition two_threads : list (list call) :=
  [[Op (LogAt 100 3 INFO (an_event 3 INFO "one")); Op (ClearAppender 1); Op (LogTo 100 3 ERROR (an_event 3 ERROR "two"))];
   [ToYamlString; Op (SetFormatterText 1 "%m"); GetForamter 1; Op (GetLogger "other"); Op (MakeLogger "more");
    Op (SetRootLogger 5 (Some 3%nat)); Op (LogTo 100 5 ERROR (an_event 5 ERROR "three"))]].
Definition downwards (i : nat) : nat := 10 - i.

(** Two threads that take turns, on loggers of which the fourth has as its root the
    third, that one the second, and that one the manager's root: one thread logs to the
    second's appenders, and, when it has removed them, to the first's; the other prints
    the loggers and puts two new ones behind the fourth. *)
Lemma logging_never_deadlocks_witness : exists s,
  rtc (sched (meaning narrow_time (fun _ => true) 10)) (new_state deep_state two_threads) s /\ all_ended s = true /\
  cout (data s) = ["[deep] one"; "[deep] two"; "[more] three"]%string /\ log_inv (data s).
Proof.
  destruct (offer_end (meaning narrow_time (fun _ => true) 10) (fun s => (all_ended s, cout (data s)))
    (true, ["[deep] one"; "[deep] two"; "[more] three"]%string)
    (List.concat (repeat [0%nat; 1%nat] 90)) (new_state deep_state two_threads)) as (s & H1 & H2 & H3).
  - vm_compute. reflexivity.
  - vm_compute. reflexivity.
  - exists s. injection H3 as H3 H4. split; [exact H1|]. split; [exact H3|]. split; [exact H4|].
    apply (logging_never_deadlocks narrow_time (fun _ => true) deep_example deep_state downwards 10 two_threads s);
      [vm_compute; reflexivity| | |exact H1].
    + split; [intros i; unfold downwards; lia|apply rises_b_rises; vm_compute; reflexivity|].
      assert (List.length (loggers deep_state) = 4%nat /\ m_root deep_state = 0%nat) as [-> ->] by (vm_compute; done).
      unfold downwards. lia.
    + repeat (apply Forall_cons_2; [repeat (apply Forall_cons_2; [cbn; unfold downwards; try exact I; lia|]); apply Forall_nil_2|]).
      apply Forall_nil_2.
Defined.

Lemma log_calls_alone_witness :
  cout (alone (meaning toy_time (fun _ => true) 1 (Op (LogAt 100 1 ERROR (an_event 1 ERROR "lost")))) log_state) =
  [String.append "ERROR lost" endl; "[system] lost"]%string.
Proof.
  destruct (QSLARY_LOG_LEVEL toy_time (fun _ => true) log_state 100 1 ERROR (an_event 1 ERROR "lost")) as [m'|e] eqn:E.
  - rewrite (log_calls_alone toy_time (fun _ => true) 1 (managed_order log_state) (managed_order_bound log_state) log_state
      (LogAt 100 1 ERROR (an_event 1 ERROR "lost")) m'); [| | |exact E].
    + revert E. vm_compute. intros [= <-]. reflexivity.
    + apply (do_ops_inv toy_time (fun _ => true) log_example new_LogManger log_state); [apply new_LogManger_inv|vm_compute; reflexivity].
    + apply rises_b_rises. vm_compute. reflexivity.
  - revert E. vm_compute. discriminate.
Defined.
