(* ===== verification/Config.v ===== *)
(** * Configuration (src/qslary/base/Config.h, Config.cc)

    The lexical casts between values and texts of YAML, the variables with their
    listeners, the registry of variables, and the reading of a YAML tree into it. *)
From stdpp Require Import base list gmap strings sorting.
From Stdlib Require Import ZArith Ascii String Lia.
From S2P Require Import Prelude CLib.
Open Scope Z_scope.

(** ** YAML

    The nodes of the library as it documents them, with its functions on texts;
    [None] where it throws. [elements] is indexing up to the size, [entries] the
    iteration over a map with the scalars of its keys. *)
#[warnings="-register-all"]
Inductive Node : Type :=
| Null
| Scalar (s : string)
| Sequence (l : list Node)
| Map (l : list (string * Node)).

Class Yaml : Type := {
  Load : string -> option Node;
  emit : Node -> string;
  elements : Node -> option (list Node);
  entries : Node -> option (list (string * Node))
}.

(** What is documented of them. *)
Class YamlLaws (Y : Yaml) : Prop := {
  Load_emit n : Load (emit n) = Some n;
  elements_sequence l : elements (Sequence l) = Some l;
  elements_null : elements Null = Some [];
  entries_map l : entries (Map l) = Some l;
  entries_null : entries Null = Some []
}.

(** A node that values are put into, one after the other. *)
Definition of_elements (l : list Node) : Node := match l with [] => Null | _ => Sequence l end.
Definition of_entries (l : list (string * Node)) : Node := match l with [] => Null | _ => Map l end.

(** ** Casts

    [LexicalCast<T, std::string>] and [LexicalCast<std::string, T>] *)
Class LexicalCast (T : Type) : Type := {
  to_text : T -> option string;
  of_text : string -> option T
}.

(** All of a list, or nothing when a part throws. *)
Fixpoint all_some {A} (l : list (option A)) : option (list A) :=
  match l with
  | [] => Some []
  | o :: l => match o, all_some l with Some a, Some l => Some (a :: l) | _, _ => None end
  end.

(** [std::set::insert] and [std::map::insert], by the order of what is compared. *)
Fixpoint insert_by {A} (lt : A -> A -> bool) (x : A) (l : list A) : list A :=
  match l with
  | [] => [x]
  | y :: l => if lt x y then x :: y :: l else if lt y x then y :: insert_by lt x l else y :: l
  end.
Definition insert_all {A} (lt : A -> A -> bool) (l : list A) : list A :=
  foldl (fun s x => insert_by lt x s) [] l.

(** [operator<] of [std::string] *)
Definition string_lt (s t : string) : bool := strcmp_sign s t <? 0.
Definition key_lt {A} (x y : string * A) : bool := string_lt x.1 y.1.

Section casts.
Context {Y : Yaml} {T : Type} {C : LexicalCast T}.

(** A child from a text, and a text from a child. *)
Definition child (x : T) : option Node := match to_text x with Some s => Load s | None => None end.
Definition of_child (n : Node) : option T := of_text (emit n).

(** [std::vector] and [std::list] *)
#[export] Instance cast_vector : LexicalCast (list T) := {|
  to_text v := match all_some (map child v) with Some l => Some (emit (of_elements l)) | None => None end;
  of_text v :=
    match Load v with
    | Some node => match elements node with Some l => all_some (map of_child l) | None => None end
    | None => None
    end
|}.

(** [std::set], a list in the order of its elements *)
Definition set_of_text (lt : T -> T -> bool) (v : string) : option (list T) :=
  match of_text v with Some l => Some (insert_all lt l) | None => None end.
Definition set_to_text (s : list T) : option string := to_text s.

(** [std::map], a list in the order of its keys *)
Definition entry_child (x : string * T) : option (string * Node) :=
  match child x.2 with Some n => Some (x.1, n) | None => None end.
Definition of_entry (x : string * Node) : option (string * T) :=
  match of_child x.2 with Some t => Some (x.1, t) | None => None end.
Definition map_to_text (m : list (string * T)) : option string :=
  match all_some (map entry_child m) with Some l => Some (emit (of_entries l)) | None => None end.
Definition map_of_text (v : string) : option (list (string * T)) :=
  match Load v with
  | Some node =>
      match entries node with
      | Some l => match all_some (map of_entry l) with Some l => Some (insert_all key_lt l) | None => None end
      | None => None
      end
  | None => None
  end.
End casts.

(** A value that is cast to a text of YAML and back. *)
Definition castable {Y : Yaml} {T} {C : LexicalCast T} (x : T) : Prop :=
  exists n, child x = Some n /\ of_child n = Some x.

Section laws.
Context {Y : Yaml} {L : YamlLaws Y} {T : Type} {C : LexicalCast T}.

Lemma all_some_map {A B} (f : A -> option B) l l' : Forall2 (fun a b => f a = Some b) l l' -> all_some (map f l) = Some l'.
Proof. induction 1 as [|a b l l' H _ IH]; cbn; [done|]. by rewrite H, IH. Qed.

Lemma elements_of l : elements (of_elements l) = Some l.
Proof. destruct l; [apply elements_null|apply elements_sequence]. Qed.
Lemma entries_of l : entries (of_entries l) = Some l.
Proof. destruct l; [apply entries_null|apply entries_map]. Qed.

Lemma castable_children v : Forall castable v ->
  exists l, Forall2 (fun x n => child x = Some n) v l /\ Forall2 (fun n x => of_child n = Some x) l v.
Proof.
  induction 1 as [|x v (n & H1 & H2) _ (l & IH1 & IH2)]; [by exists []|]. exists (n :: l). split; by constructor.
Qed.

Lemma vector_castable v : Forall castable v ->
  exists s, to_text v = Some s /\ of_text s = Some v.
Proof.
  intros (l & H1 & H2)%castable_children. exists (emit (of_elements l)). cbn.
  rewrite (all_some_map _ _ _ H1), Load_emit, elements_of. split; [done|]. by apply all_some_map.
Qed.

(** Sorted elements are inserted at the end. *)
Definition sorted_by {A} (lt : A -> A -> bool) : list A -> Prop := StronglySorted (fun x y => lt x y = true /\ lt y x = false).

Lemma insert_by_last {A} (lt : A -> A -> bool) x l :
  Forall (fun y => lt y x = true /\ lt x y = false) l -> insert_by lt x l = l ++ [x].
Proof. induction 1 as [|y l [H1 H2] _ IH]; cbn; [done|]. by rewrite H2, H1, IH. Qed.

Lemma insert_all_sorted {A} (lt : A -> A -> bool) l : sorted_by lt l -> insert_all lt l = l.
Proof.
  unfold insert_all. assert (forall s, Forall (fun y => Forall (fun x => lt y x = true /\ lt x y = false) l) s ->
    sorted_by lt l -> foldl (fun s x => insert_by lt x s) s l = s ++ l) as H.
  { induction l as [|x l IH]; intros s Hs Hl; cbn; [by rewrite app_nil_r|].
    inversion_clear Hl as [|? ? Hl1 Hl2]. rewrite insert_by_last.
    - rewrite IH; [by rewrite <- app_assoc| |done]. apply Forall_app. split.
      + eapply Forall_impl; [exact Hs|]. cbn. intros y Hy. by inversion_clear Hy.
      + constructor; [|done]. exact Hl2.
    - eapply Forall_impl; [exact Hs|]. cbn. intros y Hy. by inversion_clear Hy. }
  intros Hl. apply (H [] (Forall_nil_2 _) Hl).
Qed.

Lemma set_castable lt s : sorted_by lt s -> Forall castable s ->
  exists v, set_to_text s = Some v /\ set_of_text lt v = Some s.
Proof.
  intros Hs (v & H1 & H2)%vector_castable. exists v. split; [done|]. unfold set_of_text. rewrite H2.
  by rewrite insert_all_sorted.
Qed.

Lemma map_castable m : sorted_by key_lt m -> Forall (fun x => castable x.2) m ->
  exists v, map_to_text m = Some v /\ map_of_text v = Some m.
Proof.
  intros Hs Hm. unfold map_to_text, map_of_text.
  assert (exists l, Forall2 (fun x n => entry_child x = Some n) m l /\ Forall2 (fun n x => of_entry n = Some x) l m)
    as (l & H1 & H2).
  { clear Hs. induction Hm as [|[k x] m (n & H1 & H2) _ (l & IH1 & IH2)]; [by exists []|]. cbn in H1, H2.
    exists ((k, n) :: l). split; constructor; try done; [unfold entry_child|unfold of_entry]; cbn; [by rewrite H1|by rewrite H2]. }
  exists (emit (of_entries l)). rewrite (all_some_map _ _ _ H1), Load_emit, entries_of. split; [done|].
  rewrite (all_some_map _ _ _ H2). by rewrite insert_all_sorted.
Qed.

(** C30: configuration values are cast to text and back without loss: when every
    element is, so is a vector or list of them, a set in its order, and a map from
    strings in the order of its keys. *)
Theorem casts_round_trip (v s : list T) (m : list (string * T)) lt :
  Forall castable v -> Forall castable s -> sorted_by lt s -> Forall (fun x => castable x.2) m -> sorted_by key_lt m ->
  (exists t, to_text v = Some t /\ of_text t = Some v) /\
  (exists t, set_to_text s = Some t /\ set_of_text lt t = Some s) /\
  (exists t, map_to_text m = Some t /\ map_of_text t = Some m).
Proof. intros H1 H2 H3 H4 H5. split_and!; [by apply vector_castable|by apply set_castable|by apply map_castable]. Qed.

(** Containers can be nested. *)
Lemma castable_vector v : Forall castable v -> castable (T := list T) v.
Proof.
  intros (l & H1 & H2)%castable_children. exists (of_elements l). unfold castable, child, of_child. cbn.
  rewrite (all_some_map _ _ _ H1), !Load_emit, elements_of. split; [done|]. by apply all_some_map.
Qed.
End laws.

(** ** Names *)
Definition lower_name_char (a : ascii) : bool :=
  let c := schar a in islower c || isdigit c || (c =? 95) || (c =? 46).
Definition name_char (a : ascii) : bool := lower_name_char a || isupper (schar a).
(** [find_first_not_of] of the characters gives [npos]. *)
Definition only_chars (f : ascii -> bool) (s : string) : bool := forallb f (list_ascii_of_string s).

(** ** The nodes of a tree with their names *)
Definition join (prefix key : string) : string :=
  match prefix with EmptyString => key | _ => (prefix ++ "." ++ key)%string end.

Fixpoint listAllMember (prefix : string) (root : Node) : list (string * Node) :=
  if only_chars lower_name_char prefix then
    (prefix, root) ::
    match root with
    | Map l =>
        (fix members (l : list (string * Node)) : list (string * Node) :=
           match l with
           | [] => []
           | x :: l => listAllMember (join prefix x.1) x.2 ++ members l
           end) l
    | _ => []
    end
  else [].


Inductive at_path : Node -> list string -> Node -> Prop :=
| at_here n : at_path n [] n
| at_child l k c ks n : (k, c) ∈ l -> at_path c ks n -> at_path (Map l) (k :: ks) n.
Definition path_name (prefix : string) (ks : list string) : string := foldl join prefix ks.

Lemma only_chars_app f s t : only_chars f (s ++ t) = only_chars f s && only_chars f t.
Proof.
  unfold only_chars. induction s as [|a s IH]; [done|]. change (String a s ++ t)%string with (String a (s ++ t)).
  cbn [list_ascii_of_string forallb]. by rewrite IH, andb_assoc.
Qed.

Lemma only_chars_join f prefix k : only_chars f (join prefix k) = true -> only_chars f prefix = true.
Proof. destruct prefix as [|a p]; [done|]. unfold join. rewrite only_chars_app. by intros [H _]%andb_prop. Qed.

Lemma only_chars_path f ks : forall prefix, only_chars f (path_name prefix ks) = true -> only_chars f prefix = true.
Proof. induction ks as [|k ks IH]; intros prefix H; [done|]. by apply IH, only_chars_join in H. Qed.

(** Induction on trees *)
Fixpoint depth (n : Node) : nat :=
  match n with
  | Map l => S (list_max (map (fun x => depth x.2) l))
  | _ => O
  end.

Lemma depth_child l k c : (k, c) ∈ l -> (depth c < depth (Map l))%nat.
Proof.
  intros H. cbn. assert (depth c <= list_max (map (fun x => depth x.2) l))%nat; [|lia].
  pose proof (proj1 (list_max_le (map (fun x => depth x.2) l) _) (Nat.le_refl _)) as Hf.
  rewrite List.Forall_forall in Hf. apply Hf. apply in_map_iff. exists (k, c). split; [done|]. by apply list_elem_of_In.
Qed.

Lemma listAllMember_members prefix l :
  listAllMember prefix (Map l) =
    if only_chars lower_name_char prefix then
      (prefix, Map l) :: List.concat (map (fun x => listAllMember (join prefix x.1) x.2) l)
    else [].
Proof.
  cbn [listAllMember]. destruct (only_chars lower_name_char prefix); [|done]. f_equal.
  induction l as [|x l IH]; [done|]. cbn [map List.concat]. by rewrite <- IH.
Qed.

Lemma elem_of_concat_map {A B} (f : A -> list B) l b : b ∈ List.concat (map f l) <-> exists a, a ∈ l /\ b ∈ f a.
Proof.
  induction l as [|a l IH]; cbn; [split; [by intros ?%elem_of_nil|by intros (x & ?%elem_of_nil & _)]|].
  rewrite elem_of_app, IH. split.
  - intros [H|(x & H1 & H2)]; [exists a|exists x]; split; [by left|done|by right|done].
  - intros (x & H1%elem_of_cons & H2). destruct H1 as [->|H1]; [by left|right; by exists x].
Qed.

Lemma listAllMember_elem m : forall root prefix p n, (depth root < m)%nat ->
  (p, n) ∈ listAllMember prefix root <->
  exists ks, at_path root ks n /\ p = path_name prefix ks /\ only_chars lower_name_char p = true.
Proof.
  induction m as [|m IH]; intros root prefix p n Hd; [lia|].
  destruct (only_chars lower_name_char prefix) eqn:Ep.
  2: { destruct root; cbn [listAllMember]; rewrite Ep; (split; [by intros ?%elem_of_nil|]);
         intros (ks & _ & -> & H%only_chars_path); congruence. }
  assert (forall r, (forall l, r <> Map l) -> listAllMember prefix r = [(prefix, r)] ->
    (p, n) ∈ listAllMember prefix r <-> exists ks, at_path r ks n /\ p = path_name prefix ks /\ only_chars lower_name_char p = true) as Hleaf.
  { intros r Hr ->. rewrite list_elem_of_singleton. split.
    - intros [= -> ->]. exists []. split_and!; [constructor|done|done].
    - intros (ks & Ha & -> & _). inversion Ha; subst; [done|]. by destruct (Hr l). }
  destruct root as [|s|l|l]; [apply Hleaf; [done|cbn; by rewrite Ep]..|].
  rewrite listAllMember_members, Ep, elem_of_cons, elem_of_concat_map. split.
  - intros [[= -> ->]|([k c] & Hc & H)].
    + exists []. split_and!; [constructor|done|done].
    + pose proof (depth_child l k c Hc). apply IH in H as (ks & H1 & H2 & H3); [|cbn [snd]; lia].
      exists (k :: ks). split_and!; [by eapply at_child|done|done].
  - intros (ks & Ha & -> & H). inversion Ha as [|l' k c ks' n' Hc Ha']; subst; [by left|]. right.
    exists (k, c). split; [done|]. cbn [fst snd]. pose proof (depth_child l k c Hc). apply IH; [lia|]. by exists ks'.
Qed.

Lemma listAllMember_paths' root name n :
  (name, n) ∈ listAllMember "" root <->
  exists ks, at_path root ks n /\ name = path_name "" ks /\ only_chars lower_name_char name = true.
Proof. apply (listAllMember_elem (S (depth root))). lia. Qed.

(** C29: the nodes that a configuration is read from are just those of the tree whose
    names, the keys on the way to them with dots between, consist of lower-case
    letters, digits, underscores and dots: a key with another character hides all
    that is below it, and an upper-case letter is one. *)
Theorem listAllMember_paths root name n :
  (name, n) ∈ listAllMember "" root <->
  exists ks, at_path root ks n /\ name = path_name "" ks /\ only_chars lower_name_char name = true.
Proof. exact (listAllMember_paths' root name n). Qed.

Lemma tolower_lower a : lower_name_char a = true -> tolower a = a.
Proof. destruct a as [[] [] [] [] [] [] [] []]; vm_compute; done. Qed.

Lemma string_lower_lower s : only_chars lower_name_char s = true -> string_lower s = s.
Proof.
  induction s as [|a s IH]; [done|]. unfold only_chars in *. cbn. intros [Ha Hs]%andb_prop.
  by rewrite IH, tolower_lower.
Qed.

(** ** Variables

    The types of variables are named by [ty], as [typeid] does; [W] is what
    listeners act on. *)
Section config.
Context {ty : Type} `{EqDecision ty} (den : ty -> Type) (casts : forall t, LexicalCast (den t)).
Context (eqb : forall t, den t -> den t -> bool).
Context {Y : Yaml} {W : Type}.

(** A listener gives false when it throws an exception. *)
Definition on_change_cb (t : ty) : Type := den t -> den t -> W -> outcome (bool * W).

Record ConfigVar (t : ty) : Type := mkVar {
  var_name : string;
  m_description : string;
  m_val : den t;
  m_cbs : list (Z * on_change_cb t)                   (** by their keys, which grow *)
}.
Arguments mkVar {t}.
Arguments var_name {t}.
Arguments m_description {t}.
Arguments m_val {t}.
Arguments m_cbs {t}.

Definition getValue {t} (x : ConfigVar t) : den t := m_val x.

(** The loop over the listeners *)
Fixpoint notify_all {t} (l : list (Z * on_change_cb t)) (old v : den t) (w : W) : outcome (bool * W) :=
  match l with
  | [] => Ret (true, w)
  | cb :: l =>
      let! r := cb.2 old v w in
      if r.1 then notify_all l old v r.2 else Ret (false, r.2)
  end.

(** [setValue]; false when a listener throws. *)
Definition setValue {t} (x : ConfigVar t) (v : den t) (w : W) : outcome (bool * ConfigVar t * W) :=
  if eqb t v (m_val x) then Ret (true, x, w)
  else
    let! r := notify_all (m_cbs x) (m_val x) v w in
    Ret (r.1, (if r.1 then mkVar (var_name x) (m_description x) v (m_cbs x) else x), r.2).

(** [toString] and [formString], which catch what the casts throw. *)
Definition toString {t} (x : ConfigVar t) : string :=
  match to_text (LexicalCast := casts t) (m_val x) with Some s => s | None => "" end.
Definition formString {t} (x : ConfigVar t) (val : string) (w : W) : outcome (bool * ConfigVar t * W) :=
  match of_text (LexicalCast := casts t) val with
  | Some v => setValue x v w
  | None => Ret (false, x, w)
  end.

(** Listeners; the counter is shared by the variables of a type. *)
Definition addListener {t} (x : ConfigVar t) (fun_id : Z) (cb : on_change_cb t) : Z * ConfigVar t * Z :=
  let fun_id := u64 (fun_id + 1) in
  (fun_id, mkVar (var_name x) (m_description x) (m_val x)
     (List.filter (fun c => negb (c.1 =? fun_id)) (m_cbs x) ++ [(fun_id, cb)]), fun_id).
Definition delListener {t} (x : ConfigVar t) (key : Z) : ConfigVar t :=
  mkVar (var_name x) (m_description x) (m_val x) (List.filter (fun c => negb (c.1 =? key)) (m_cbs x)).
Definition clearLister {t} (x : ConfigVar t) : ConfigVar t := mkVar (var_name x) (m_description x) (m_val x) [].
Definition getListener {t} (x : ConfigVar t) (key : Z) : option (on_change_cb t) :=
  match List.find (fun c => c.1 =? key) (m_cbs x) with Some c => Some c.2 | None => None end.

(** ** The registry

    [GetDatas()]; a pointer to a variable is its name, since none is removed. *)
Abbreviation ConfigBase := ({t : ty & ConfigVar t}).
Abbreviation Datas := (gmap string ConfigBase).

(** [Config::lookup] with a default: the pointer, null when the type is another;
    a name with other characters throws. *)
Definition lookup_or_add (d : Datas) (t : ty) (name : string) (default_value : den t) (description : string)
    : outcome (option string * Datas) :=
  match d !! name with
  | Some x => if decide (projT1 x = t) then Ret (Some name, d) else Ret (None, d)
  | None =>
      if only_chars name_char name then
        Ret (Some name, <[name := existT t (mkVar name description default_value [])]> d)
      else Fault Thrown
  end.
(** [Config::lookup] without *)
Definition lookup_only (d : Datas) (t : ty) (name : string) : option string :=
  match d !! name with
  | Some x => if decide (projT1 x = t) then Some name else None
  | None => None
  end.
Definition LookUpBase (d : Datas) (name : string) : option ConfigBase := d !! name.

(** [setValue] and [formString] of a variable of the registry *)
Definition set_in (d : Datas) (t : ty) (name : string) (v : den t) (w : W) : outcome (bool * Datas * W) :=
  let! x := deref (d !! name) in
  match x with
  | existT t' x =>
      match decide (t = t') with
      | left E =>
          let! r := setValue x (eq_rect t den v t' E) w in
          Ret (r.1.1, <[name := existT t' r.1.2]> d, r.2)
      | right _ => Fault Undefined
      end
  end.
Definition form_in (d : Datas) (name : string) (val : string) (w : W) : outcome (bool * Datas * W) :=
  let! x := deref (d !! name) in
  match x with
  | existT t x => let! r := formString x val w in Ret (r.1.1, <[name := existT t r.1.2]> d, r.2)
  end.

(** [Config::loadFromYaml]: the loop over the nodes *)
Definition text_of (n : Node) : string := match n with Scalar s => s | _ => emit n end.
Fixpoint load_nodes (d : Datas) (l : list (string * Node)) (w : W) : outcome (Datas * W) :=
  match l with
  | [] => Ret (d, w)
  | (key, node) :: l =>
      if String.eqb key "" then load_nodes d l w
      else
        let key := string_lower key in
        match LookUpBase d key with
        | Some _ => let! r := form_in d key (text_of node) w in load_nodes r.1.2 l r.2
        | None => load_nodes d l w
        end
  end.
Definition loadFromYaml (d : Datas) (root : Node) (w : W) : outcome (Datas * W) :=
  load_nodes d (listAllMember "" root) w.

(** [Config::Visit] *)
Fixpoint visit_all (cb : ConfigBase -> W -> outcome W) (l : list (string * ConfigBase)) (w : W) : outcome W :=
  match l with
  | [] => Ret w
  | x :: l => let! w := cb x.2 w in visit_all cb l w
  end.
Definition Visit (d : Datas) (cb : ConfigBase -> W -> outcome W) (w : W) : outcome W :=
  visit_all cb (insert_all key_lt (map_to_list d)) w.
(** ** What holds of the registry *)

(** The calls of a program that change it. *)
Inductive config_op : Type :=
| OpLookup (t : ty) (name : string) (default_value : den t) (description : string)
| OpSetValue (t : ty) (name : string) (v : den t)
| OpFormString (name val : string)
| OpLoad (root : Node).

Definition do_config (s : Datas * W) (o : config_op) : outcome (Datas * W) :=
  match o with
  | OpLookup t name v description => let! r := lookup_or_add s.1 t name v description in Ret (r.2, s.2)
  | OpSetValue t name v => let! r := set_in s.1 t name v s.2 in Ret (r.1.2, r.2)
  | OpFormString name val => let! r := form_in s.1 name val s.2 in Ret (r.1.2, r.2)
  | OpLoad root => loadFromYaml s.1 root s.2
  end.
Fixpoint do_configs (s : Datas * W) (os : list config_op) : outcome (Datas * W) :=
  match os with
  | [] => Ret s
  | o :: os => let! s := do_config s o in do_configs s os
  end.

(** Variables are kept, with their types, names and listeners. *)
Definition same_var (x x' : ConfigBase) : Prop :=
  projT1 x' = projT1 x /\ var_name (projT2 x') = var_name (projT2 x) /\
  m_description (projT2 x') = m_description (projT2 x).
Definition kept (d d' : Datas) : Prop :=
  forall name x, d !! name = Some x -> exists x', d' !! name = Some x' /\ same_var x x'.
Definition registry_ok (d : Datas) : Prop :=
  forall name x, d !! name = Some x -> only_chars name_char name = true /\ var_name (projT2 x) = name.

Lemma vars_kept_refl d : kept d d.
Proof. intros name x H. by exists x. Qed.
Lemma vars_kept_trans d1 d2 d3 : kept d1 d2 -> kept d2 d3 -> kept d1 d3.
Proof.
  intros H1 H2 name x Hx. destruct (H1 name x Hx) as (y & Hy & A & B & C). destruct (H2 name y Hy) as (z & Hz & A' & B' & C').
  exists z. split; [done|]. split; [congruence|]. split; congruence.
Qed.

(** A variable is replaced by one that is alike. *)
Lemma kept_insert d name x x' : d !! name = Some x -> same_var x x' -> kept d (<[name := x']> d) /\
  (registry_ok d -> registry_ok (<[name := x']> d)).
Proof.
  intros H Hs. split.
  - intros n y Hy. destruct (decide (n = name)) as [->|Hne].
    + exists x'. rewrite lookup_insert_eq. split; [done|]. by assert (y = x) as -> by congruence.
    + exists y. by rewrite lookup_insert_ne.
  - intros Hok n y. destruct (decide (n = name)) as [->|Hne].
    + rewrite lookup_insert_eq. intros [= <-]. destruct (Hok _ _ H) as [A B]. split; [done|]. destruct Hs as (_ & E & _). exact (eq_trans E B).
    + rewrite lookup_insert_ne by done. apply Hok.
Qed.

Lemma setValue_same t (x : ConfigVar t) v w r : setValue x v w = Ret r ->
  same_var (existT t x) (existT t r.1.2).
Proof.
  unfold setValue, same_var. destruct (eqb t v (m_val x)); intros H; [by injection H as <-|].
  apply obind_Ret_inv in H as (r1 & _ & [= <-]). cbn. by destruct r1.1.
Qed.

Lemma formString_same t (x : ConfigVar t) v w r : formString x v w = Ret r -> same_var (existT t x) (existT t r.1.2).
Proof.
  unfold formString. destruct (of_text v); [apply setValue_same|]. by intros [= <-].
Qed.

Lemma form_in_kept d name val w r : form_in d name val w = Ret r ->
  kept d r.1.2 /\ (registry_ok d -> registry_ok r.1.2).
Proof.
  unfold form_in. destruct (d !! name) as [[t x]|] eqn:E; [|done]. cbn [deref obind]. intros H.
  apply obind_Ret_inv in H as (r1 & H1 & [= <-]). cbn. apply (kept_insert d name (existT t x)); [done|].
  by eapply formString_same.
Qed.

Lemma load_nodes_kept l : forall d w r, load_nodes d l w = Ret r -> kept d r.1 /\ (registry_ok d -> registry_ok r.1).
Proof.
  induction l as [|[key n] l IH]; intros d w r H; cbn [load_nodes] in H; [injection H as <-; split; [apply vars_kept_refl|done]|].
  destruct (String.eqb key ""); [by eapply IH|]. unfold LookUpBase in H. destruct (d !! _) eqn:E; [|by eapply IH].
  apply obind_Ret_inv in H as (r1 & H1 & H). apply form_in_kept in H1 as [K1 O1]. apply IH in H as [K2 O2].
  split; [by eapply vars_kept_trans|auto].
Qed.

Lemma do_config_kept s o s' : do_config s o = Ret s' -> kept s.1 s'.1 /\ (registry_ok s.1 -> registry_ok s'.1).
Proof.
  destruct s as [d w]. destruct o as [t name v desc|t name v|name val|root]; cbn [do_config fst snd]; intros H.
  - apply obind_Ret_inv in H as (r & Hr & [= <-]). cbn. revert Hr. unfold lookup_or_add.
    destruct (d !! name) as [x|] eqn:E; [destruct (decide _); intros [= <-]; cbn; split; [apply vars_kept_refl|done|apply vars_kept_refl|done]|].
    destruct (only_chars name_char name) eqn:En; [|done]. intros [= <-]. cbn. split.
    + intros n y Hy. exists y. rewrite lookup_insert_ne; [done|]. intros ?; subst. discriminate (eq_trans (eq_sym E) Hy).
    + intros Hok n y. destruct (decide (n = name)) as [->|Hne].
      * rewrite lookup_insert_eq. by intros [= <-].
      * rewrite lookup_insert_ne by done. apply Hok.
  - apply obind_Ret_inv in H as (r & Hr & [= <-]). cbn. revert Hr. unfold set_in.
    destruct (d !! name) as [[t' x]|] eqn:E; [|done]. cbn [deref obind]. destruct (decide (t = t')) as [->|]; [|done].
    intros Hr. apply obind_Ret_inv in Hr as (r1 & H1 & [= <-]). cbn. apply (kept_insert d name (existT t' x)); [done|].
    by eapply setValue_same.
  - apply obind_Ret_inv in H as (r & Hr & [= <-]). by eapply form_in_kept.
  - by eapply load_nodes_kept.
Qed.

Lemma do_configs_kept os : forall s s', do_configs s os = Ret s' -> kept s.1 s'.1 /\ (registry_ok s.1 -> registry_ok s'.1).
Proof.
  induction os as [|o os IH]; cbn; intros s s' H; [injection H as <-; split; [apply vars_kept_refl|done]|].
  apply obind_Ret_inv in H as (s1 & H1 & H). apply do_config_kept in H1 as [K1 O1]. apply IH in H as [K2 O2].
  split; [by eapply vars_kept_trans|auto].
Qed.

(** C31: the registry is typed: whatever is looked up, set and loaded, a variable stays
    under its name, which has only the characters allowed, and keeps its type: a
    lookup of the name with that type gives the variable, and with another gives
    null and changes nothing. *)
Theorem registry_typed os1 os2 d1 d2 w w1 w2 name x t v description :
  do_configs (∅, w) os1 = Ret (d1, w1) -> d1 !! name = Some x -> do_configs (d1, w1) os2 = Ret (d2, w2) ->
  only_chars name_char name = true /\
  (exists x', d2 !! name = Some x' /\ projT1 x' = projT1 x /\ var_name (projT2 x') = name) /\
  lookup_or_add d2 t name v description = Ret (if decide (projT1 x = t) then Some name else None, d2).
Proof.
  intros H1 Hx H2. apply do_configs_kept in H1 as [_ O1]. apply do_configs_kept in H2 as [K2 _]. cbn in O1, K2.
  destruct (O1 ltac:(intros n y H; by rewrite lookup_empty in H) name x Hx) as [Hn Hv].
  destruct (K2 name x Hx) as (x' & Hx' & Et & Ev & _). split; [done|]. split.
  - exists x'. split; [done|]. split; [done|]. exact (eq_trans Ev Hv).
  - unfold lookup_or_add. rewrite Hx', Et. by destruct (decide _).
Qed.

(** What loading leaves alone. *)
Lemma load_nodes_other l : forall d w r name, load_nodes d l w = Ret r ->
  Forall (fun x => string_lower x.1 <> name) l -> r.1 !! name = d !! name.
Proof.
  induction l as [|[key n] l IH]; intros d w r name H Hl; cbn [load_nodes] in H; [by injection H as <-|].
  inversion_clear Hl as [|? ? H1 H2]. cbn in H1. destruct (String.eqb key ""); [by eapply IH|].
  unfold LookUpBase in H. destruct (d !! string_lower key) as [[t x]|] eqn:E; [|by eapply IH].
  unfold form_in in H. rewrite E in H. cbn [deref obind] in H.
  apply obind_Ret_inv in H as (r1 & Hr1 & H). apply obind_Ret_inv in Hr1 as (r2 & _ & [= <-]). cbn in H.
  rewrite (IH _ _ _ name H H2). by rewrite lookup_insert_ne.
Qed.

Lemma load_nodes_app l1 : forall l2 d w,
  load_nodes d (l1 ++ l2) w = (let! r := load_nodes d l1 w in load_nodes r.1 l2 r.2).
Proof.
  induction l1 as [|[key n] l1 IH]; intros l2 d w; [done|]. cbn [app load_nodes].
  destruct (String.eqb key ""); [apply IH|]. destruct (LookUpBase d _); [|apply IH].
  rewrite obind_assoc. destruct (form_in _ _ _ _); [|done]. cbn [obind]. apply IH.
Qed.

(** A variable without listeners takes the value of a text. *)
Lemma formString_plain t (x : ConfigVar t) val w r : m_cbs x = [] -> formString x val w = Ret r ->
  r.1.2 = mkVar (var_name x) (m_description x)
    (match of_text (LexicalCast := casts t) val with
     | Some v => if eqb t v (m_val x) then m_val x else v
     | None => m_val x
     end) [].
Proof.
  intros Hc. unfold formString. assert (x = mkVar (var_name x) (m_description x) (m_val x) []) as Hx
    by (destruct x; cbn in *; by subst).
  destruct (of_text val) as [v|]; [|by intros [= <-]]. unfold setValue. destruct (eqb t v (m_val x)); [by intros [= <-]|].
  rewrite Hc. cbn. by intros [= <-].
Qed.

(** Loading a tree of YAML: a variable without listeners, for whose name there is one
    node in the tree, has then the value that the scalar of the node, or the text it
    is emitted as, is cast to, and its old value if the cast throws or they are
    equal; one whose name is not that of a node, as any with an upper-case letter, is
    left as it was. *)
Theorem loadFromYaml_sets d root w d' w' name t (x : ConfigVar t) :
  loadFromYaml d root w = Ret (d', w') -> d !! name = Some (existT t x) -> name <> ""%string ->
  ((forall n, (name, n) ∉ listAllMember "" root) -> d' !! name = Some (existT t x)) /\
  (forall l1 n l2, listAllMember "" root = l1 ++ (name, n) :: l2 -> (forall n', (name, n') ∉ l1 ++ l2) -> m_cbs x = [] ->
     d' !! name = Some (existT t (mkVar (var_name x) (m_description x)
       (match of_text (LexicalCast := casts t) (text_of n) with
        | Some v => if eqb t v (m_val x) then m_val x else v
        | None => m_val x
        end) []))).
Proof.
  intros H Hx Hne. unfold loadFromYaml in H.
  assert (forall y, y ∈ listAllMember "" root -> string_lower y.1 = y.1) as Hlow.
  { intros [k n] (ks & _ & _ & Hk)%listAllMember_paths'. by apply string_lower_lower. }
  assert (forall l, l ⊆ listAllMember "" root -> (forall n, (name, n) ∉ l) -> Forall (fun y => string_lower y.1 <> name) l) as Hno.
  { intros l Hl Hn. apply Forall_forall. intros [k n] Hy E. rewrite (Hlow _ (Hl _ Hy)) in E. cbn in E. subst k. by apply (Hn n). }
  split.
  - intros Hnone. rewrite <- Hx. apply (load_nodes_other _ _ _ _ name H). by apply Hno.
  - intros l1 n l2 El Hnone Hcbs. rewrite El in H, Hno, Hlow. rewrite load_nodes_app in H.
    apply obind_Ret_inv in H as ([d1 w1] & H1 & H). cbn [fst snd load_nodes] in H.
    assert (@lookup _ ConfigBase _ _ name d1 = Some (existT t x)) as Hx1.
    { refine (eq_trans (load_nodes_other _ _ _ _ name H1 _) Hx). apply Hno; [intros y; rewrite elem_of_app; auto|].
      intros n' Hn'. apply (Hnone n'). rewrite elem_of_app. by left. }
    rewrite (proj2 (String.eqb_neq name "")) in H by done.
    assert (string_lower name = name) as En by (apply (Hlow (name, n)); rewrite elem_of_app; right; by left).
    rewrite En in H. unfold LookUpBase, form_in in H. rewrite Hx1 in H. cbn [deref obind] in H.
    apply obind_Ret_inv in H as (r & Hr & H). apply obind_Ret_inv in Hr as (r1 & Hr1 & [= <-]). cbn [fst snd] in H.
    refine (eq_trans (load_nodes_other _ _ _ _ name H _) _).
    + apply Hno; [intros y; rewrite elem_of_app, elem_of_cons; auto|].
      intros n' Hn'. apply (Hnone n'). rewrite elem_of_app. by right.
    + cbn [fst snd]. rewrite lookup_insert_eq. by rewrite (formString_plain _ _ _ _ _ Hcbs Hr1).
Qed.

(** A value is set as listeners see it: an equal value reaches none; otherwise they
    are called in the order of their keys with the old value and the new, until one
    throws; the value is stored just when none did. *)
Theorem setValue_notifies t (x : ConfigVar t) v w r :
  setValue x v w = Ret r ->
  (eqb t v (m_val x) = true -> r = (true, x, w)) /\
  (eqb t v (m_val x) = false ->
     notify_all (m_cbs x) (m_val x) v w = Ret (r.1.1, r.2) /\
     getValue r.1.2 = (if r.1.1 then v else m_val x) /\ m_cbs r.1.2 = m_cbs x) /\
  forall l1 l2 w1, m_cbs x = l1 ++ l2 -> eqb t v (m_val x) = false ->
    notify_all l1 (m_val x) v w = Ret (false, w1) -> r = (false, x, w1).
Proof.
  unfold setValue. intros H. split; [intros E; rewrite E in H; by injection H as <-|]. split.
  - intros E. rewrite E in H. apply obind_Ret_inv in H as (r1 & H1 & [= <-]). cbn. rewrite H1.
    destruct r1 as [[] w1]; done.
  - intros l1 l2 w1 El E Hn. rewrite E, El in H. clear El E.
    assert (forall l w, notify_all l (m_val x) v w = Ret (false, w1) -> notify_all (l ++ l2) (m_val x) v w = Ret (false, w1)) as Happ.
    { clear. induction l as [|cb l IH]; intros w H; [done|]. cbn in *. destruct (cb.2 (m_val x) v w) as [r|]; [|done].
      cbn in *. destruct r.1; [by apply IH|done]. }
    rewrite (Happ _ _ Hn) in H. cbn in H. by injection H as <-.
Qed.
End config.

(** ** Witnesses

    Texts that are the bits of an encoding of nodes. *)
Module Toy.
Fixpoint tree (n : Node) : gen_tree string :=
  match n with
  | Null => GenNode 0 []
  | Scalar s => GenLeaf s
  | Sequence l => GenNode 1 (map tree l)
  | Map l => GenNode 2 (List.concat (map (fun x => [GenLeaf x.1; tree x.2]) l))
  end.
Fixpoint untree (t : gen_tree string) : Node :=
  match t with
  | GenLeaf s => Scalar s
  | GenNode 0 _ => Null
  | GenNode 1 l => Sequence (map untree l)
  | GenNode _ l =>
      Map ((fix pairs (l : list (gen_tree string)) : list (string * Node) :=
              match l with
              | GenLeaf k :: t :: l => (k, untree t) :: pairs l
              | _ => []
              end) l)
  end.
Lemma untree_tree : forall n, untree (tree n) = n.
Proof.
  fix IH 1. intros [|s|l|l]; cbn; [done|done|..]; f_equal.
  - induction l as [|x l IHl]; cbn; [done|]. by rewrite (IH x), IHl.
  - induction l as [|[k x] l IHl]; cbn; [done|]. by rewrite (IH x), IHl.
Qed.

Fixpoint bits (p : positive) : string :=
  match p with
  | xH => ""
  | xO p => String "0" (bits p)
  | xI p => String "1" (bits p)
  end%string.
Fixpoint unbits (s : string) : positive :=
  match s with
  | EmptyString => xH
  | String a s => if Ascii.eqb a "0" then xO (unbits s) else xI (unbits s)
  end.
Lemma unbits_bits p : unbits (bits p) = p.
Proof. induction p as [p IH|p IH|]; cbn; [by rewrite IH..|done]. Qed.

#[export] Instance yaml : Yaml := {|
  Load s := untree <$> decode (unbits s);
  emit n := bits (encode (tree n));
  elements n := match n with Sequence l => Some l | Null => Some [] | _ => None end;
  entries n := match n with Map l => Some l | Null => Some [] | _ => None end
|}.
#[export] Instance yaml_laws : YamlLaws yaml.
Proof. split; try done. intros n. cbn. rewrite unbits_bits, decode_encode. cbn. by rewrite untree_tree. Qed.

(** Strings, as scalars *)
#[export] Instance cast_string : LexicalCast string := {|
  to_text s := Some (emit (Scalar s));
  of_text v := match Load v with Some (Scalar s) => Some s | _ => None end
|}.
Lemma castable_string s : castable s.
Proof. exists (Scalar s). unfold child, of_child. cbn -[Load emit]. by rewrite !Load_emit. Qed.
Lemma castable_strings l : Forall castable l.
Proof. apply Forall_forall. intros s _. apply castable_string. Qed.
End Toy.
Import Toy.

Lemma casts_round_trip_witness :
  let m := [("a"%string, ["x"; "y"]%string); ("b"%string, [])] in
  exists t, map_to_text m = Some t /\ map_of_text t = Some m.
Proof.
  cbv zeta. eapply (casts_round_trip (T := list string) [] [] _ (fun _ _ => false)).
  - apply Forall_nil_2.
  - apply Forall_nil_2.
  - constructor.
  - repeat (apply Forall_cons_2; [apply castable_vector, Toy.castable_strings|]). apply Forall_nil_2.
  - repeat constructor.
Defined.

(** Variables of two types; a string is cast to itself. *)
Definition plain_cast : LexicalCast string := {| to_text s := Some s; of_text s := Some s |}.
Definition two_types (b : bool) : Type := if b then list string else string.
Definition two_casts (b : bool) : LexicalCast (two_types b) :=
  match b with true => cast_vector | false => plain_cast end.
Definition two_eqb (b : bool) : two_types b -> two_types b -> bool :=
  match b with
  | true => fun l k => bool_decide (l = k)
  | false => String.eqb
  end.
Definition config_ops : list (config_op two_types) :=
  [OpLookup two_types false "server.name" "a" "the name"; OpLookup two_types true "logs" [] ""]%string.
Definition a_tree : Node := Map [("server", Map [("name", Scalar "b")]); ("Server", Scalar "c")]%string.

Abbreviation two_vars := (gmap string {t : bool & ConfigVar two_types (W := unit) t}).
Definition ends_well {A} (m : outcome A) : bool := match m with Ret _ => true | Fault _ => false end.
Lemma registry_typed_witness : exists d2 : two_vars,
  lookup_or_add two_types d2 true "server.name" [] "" = Ret (None, d2) /\ is_Some (d2 !! "server.name"%string).
Proof.
  assert (ends_well (let! s := do_configs two_types two_casts two_eqb (∅, tt) config_ops in
    do_configs two_types two_casts two_eqb s [OpLoad two_types a_tree]) = true) as Hok by (vm_compute; reflexivity).
  destruct (do_configs two_types two_casts two_eqb (∅, tt) config_ops) as [[d1 w1]|] eqn:E1; [|discriminate E1].
  cbn [obind] in Hok.
  destruct (do_configs two_types two_casts two_eqb (d1, w1) [OpLoad two_types a_tree]) as [[d2 w2]|] eqn:E2; [|discriminate Hok].
  assert (exists x, d1 !! "server.name"%string = Some x /\ projT1 x = false) as (x & Ex & Et).
  { injection E1 as <- _. eexists. split; reflexivity. }
  destruct (registry_typed two_types two_casts two_eqb config_ops [OpLoad two_types a_tree] d1 d2 tt w1 w2 _ x
    true [] "" E1 Ex E2) as (_ & (x' & Hx' & _) & H).
  exists d2. split; [|by eexists]. rewrite H, Et. reflexivity.
Defined.

Definition name_var (v : string) : ConfigVar two_types (W := unit) false :=
  mkVar two_types false "server.name"%string "the name"%string v [].
Lemma loadFromYaml_sets_witness : exists d' : two_vars,
  loadFromYaml two_types two_casts two_eqb {[ "server.name"%string := existT false (name_var "a") ]} a_tree tt = Ret (d', tt) /\
  d' !! "server.name"%string =
    Some (existT false (name_var "b")).
Proof.
  destruct (loadFromYaml two_types two_casts two_eqb {[ "server.name"%string := existT false (name_var "a") ]} a_tree tt)
    as [[d' w']|] eqn:E; [|exfalso; apply (f_equal ends_well) in E; vm_compute in E; discriminate E].
  destruct (loadFromYaml_sets two_types two_casts two_eqb _ a_tree tt d' w' "server.name" false (name_var "a") E eq_refl
    ltac:(discriminate)) as [_ H].
  exists d'. split; [by destruct w'|].
  refine (H [(""%string, a_tree); ("server"%string, Map [("name"%string, Scalar "b")])] (Scalar "b") [] eq_refl _ eq_refl).
  intros n' Hn. cbn in Hn. apply elem_of_cons in Hn as [[=]|Hn]. apply elem_of_cons in Hn as [[=]|Hn]. by apply elem_of_nil in Hn.
Defined.

(** Two listeners on numbers, of which the second refuses those that are negative. *)
Definition number_var : ConfigVar (fun _ : unit => Z) (W := list Z) tt := mkVar (fun _ : unit => Z) tt "n"%string ""%string 5
  [(1, fun _ v w => Ret (true, w ++ [v])); (2, fun old v w => Ret (0 <=? v, w ++ [old]))].
Lemma setValue_notifies_witness :
  notify_all _ (m_cbs _ _ number_var) 5 7 [] = Ret (true, [7; 5]) /\
  setValue _ (fun _ => Z.eqb) number_var (-1) [] = Ret (false, number_var, [-1; 5]).
Proof.
  destruct (setValue_notifies (fun _ => Z) (fun _ => Z.eqb) tt number_var 7 [] _ eq_refl) as (_ & H & _).
  destruct (H eq_refl) as [H1 _]. split; [exact H1|].
  destruct (setValue (fun _ => Z) (fun _ => Z.eqb) number_var (-1) []) as [r|] eqn:E; [|discriminate E].
  destruct (setValue_notifies (fun _ => Z) (fun _ => Z.eqb) tt number_var (-1) [] r E) as (_ & _ & H2).
  f_equal. exact (H2 (m_cbs _ _ number_var) [] [-1; 5] eq_refl eq_refl eq_refl).
Defined.
