(* ===== verification/ConfigUnordered.v ===== *)
(** * Casts of lists and unordered containers (src/qslary/base/Config.h)

    [std::unordered_set] and [std::unordered_map] are finite sets and maps whose
    iteration visits each element once, in an order that is a parameter;
    [std::list] is cast as [std::vector] is. *)
From stdpp Require Import base list gmap strings.
From Stdlib Require Import String.
From S2P Require Import Prelude Config.

(** The order in which the elements of a container are visited. *)
Class Visits (S A : Type) (content : S -> list A) : Type := {
  visit : S -> list A;
  visits_once s : visit s ≡ₚ content s
}.

Section casts.
Context {Y : Yaml} {T : Type} `{CT : Countable T} {C : LexicalCast T}.
Context {VS : Visits (gset T) T base.elements} {VM : Visits (gmap string T) (string * T) map_to_list}.

(** [std::list] *)
Definition list_of_text (v : string) : option (list T) := of_text v.
Definition list_to_text (l : list T) : option string := to_text l.

(** [std::unordered_set]: [insert] keeps what is there. *)
Definition insert_set (s : gset T) (x : T) : gset T := s ∪ {[ x ]}.
Definition unordered_set_of_text (v : string) : option (gset T) :=
  match of_text v with Some l => Some (foldl insert_set ∅ l) | None => None end.
Definition unordered_set_to_text (s : gset T) : option string := to_text (visit s).

(** [std::unordered_map]: the first of equal keys stays. *)
Definition insert_new (m : gmap string T) (x : string * T) : gmap string T :=
  match m !! x.1 with Some _ => m | None => <[x.1 := x.2]> m end.
Definition unordered_map_of_text (v : string) : option (gmap string T) :=
  match Load v with
  | Some node =>
      match entries node with
      | Some l => match all_some (map of_entry l) with Some l => Some (foldl insert_new ∅ l) | None => None end
      | None => None
      end
  | None => None
  end.
Definition unordered_map_to_text (m : gmap string T) : option string := map_to_text (visit m).

Lemma insert_set_all l : forall s, foldl insert_set s l = s ∪ list_to_set l.
Proof.
  induction l as [|x l IH]; intros s; cbn; [by rewrite (right_id_L ∅ (∪))|].
  rewrite IH. unfold insert_set. by rewrite (assoc_L (∪)).
Qed.

Lemma insert_new_all l : forall m : gmap string T, NoDup l.*1 -> (forall k, k ∈ l.*1 -> m !! k = None) ->
  foldl insert_new m l = list_to_map l ∪ m.
Proof.
  induction l as [|[k x] l IH]; intros m Hnd Hm; cbn; [by rewrite (left_id_L ∅ (∪))|].
  cbn in Hnd. apply NoDup_cons in Hnd as [Hk Hnd]. unfold insert_new at 2. cbn.
  rewrite (Hm k) by (cbn; left). rewrite IH; [|done|].
  - rewrite <- insert_union_l. rewrite <- insert_union_r; [done|]. by apply not_elem_of_list_to_map.
  - intros k' Hk'. rewrite lookup_insert_ne by (intros ->; done). apply Hm. cbn. by right.
Qed.

Context {L : YamlLaws Y}.

Lemma map_read m : Forall (fun x => castable x.2) m ->
  exists l, map_to_text m = Some (emit (of_entries l)) /\ Forall2 (fun n x => of_entry n = Some x) l m.
Proof.
  intros Hm. unfold map_to_text.
  assert (exists l, Forall2 (fun x n => entry_child x = Some n) m l /\ Forall2 (fun n x => of_entry n = Some x) l m)
    as (l & H1 & H2).
  { induction Hm as [|[k x] m (n & H1 & H2) _ (l & IH1 & IH2)]; [by exists []|]. cbn in H1, H2.
    exists ((k, n) :: l). split; constructor; try done; [unfold entry_child|unfold of_entry]; cbn; [by rewrite H1|by rewrite H2]. }
  exists l. split; [|done]. by rewrite (all_some_map _ _ _ H1).
Qed.

(** Lists, unordered sets and unordered maps are cast to text and back without loss,
    in whatever order the containers are visited, when their elements are. *)
Theorem unordered_round_trip (l : list T) (s : gset T) (m : gmap string T) :
  Forall castable l -> (forall x, x ∈ s -> castable x) -> (forall k x, m !! k = Some x -> castable x) ->
  (exists t, list_to_text l = Some t /\ list_of_text t = Some l) /\
  (exists t, unordered_set_to_text s = Some t /\ unordered_set_of_text t = Some s) /\
  (exists t, unordered_map_to_text m = Some t /\ unordered_map_of_text t = Some m).
Proof.
  intros Hl Hs Hm. split_and!; [by apply vector_castable|..].
  - destruct (vector_castable (visit s)) as (t & H1 & H2).
    { apply Forall_forall. intros x Hx. apply Hs. apply elem_of_elements. by rewrite <- (visits_once s). }
    exists t. split; [exact H1|]. unfold unordered_set_of_text. rewrite H2, insert_set_all, (visits_once s). f_equal.
    rewrite list_to_set_elements_L. by rewrite (left_id_L ∅ (∪)).
  - assert (Forall (fun x => castable x.2) (visit m)) as Hv.
    { apply Forall_forall. intros [k x] Hx. apply (Hm k). apply elem_of_map_to_list. by rewrite <- (visits_once m). }
    destruct (map_read (visit m) Hv) as (l' & H1 & H2). exists (emit (of_entries l')). split; [exact H1|].
    unfold unordered_map_of_text. rewrite Load_emit, entries_of, (all_some_map _ _ _ H2). f_equal.
    assert (NoDup (visit m).*1) as Hnd by (rewrite (visits_once m); apply NoDup_fst_map_to_list).
    rewrite insert_new_all; [|done|done]. rewrite (right_id_L ∅ (∪)).
    rewrite (list_to_map_proper (visit m) (map_to_list m)); [by rewrite list_to_map_to_list|done|apply visits_once].
Qed.
End casts.

(** ** Witness

    Containers that are visited in the order of their keys, and backwards. *)
#[local] Instance set_backwards : Visits (gset string) string base.elements.
Proof. refine {| visit s := rev (base.elements s) |}. intros s. symmetry. apply Permutation_rev. Defined.
#[local] Instance map_forwards : Visits (gmap string string) (string * string) map_to_list.
Proof. by refine {| visit m := map_to_list m |}. Defined.

Lemma unordered_round_trip_witness :
  exists t, unordered_set_to_text (Y := Toy.yaml) (C := Toy.cast_string) ({[ "a"; "b" ]}%string : gset string) = Some t /\
    unordered_set_of_text (Y := Toy.yaml) (C := Toy.cast_string) t = Some ({[ "a"; "b" ]}%string : gset string).
Proof.
  refine (proj1 (proj2 (unordered_round_trip (L := Toy.yaml_laws) (C := Toy.cast_string) [] _ ∅ _ _ _))).
  - apply Forall_nil_2.
  - intros x _. apply Toy.castable_string.
  - intros k x H. by rewrite lookup_empty in H.
Defined.
