(* ===== verification/ConfigThreads.v ===== *)
(** * A configuration variable used by threads (src/qslary/base/Config.h)

    The methods of [ConfigVar] as the blocks they hold its [RWMutex] in (RWMutex.v).
    Alone they are the methods of Config.v; [setValue] tells the listeners under the
    read lock and stores under the write lock, with a gap between. *)
From stdpp Require Import base list relations.
From Stdlib Require Import ZArith String Lia.
From S2P Require Import Prelude CLib RWMutex Config.
Open Scope Z_scope.

Section variable.
Context {V : Type} (eqb : V -> V -> bool) {Y : Yaml} (cast : LexicalCast V).

(** What a listener is told: its key, the old value and the new one. Listeners note
    that, and neither throw nor use the variable. *)
Definition note : Type := Z * V * V.
Abbreviation den := (fun _ : unit => V).
Abbreviation Var := (ConfigVar (W := list note) den tt).
Abbreviation Listener := (on_change_cb (W := list note) den tt).
Definition noting (key : Z) : Listener := fun old new told => Ret (true, told ++ [(key, old, new)]).

(** The variable and the counter of its type. *)
Record shared : Type := mkShared { var : Var; fun_id : Z }.
Definition store (x : shared) (v : V) : shared :=
  mkShared (mkVar _ _ (var_name _ _ (var x)) (m_description _ _ (var x)) v (m_cbs _ _ (var x))) (fun_id x).

Inductive call : Type :=
| GetValue
| ToString
| GetListener (key : Z)
| SetValue (v : V)
| FormString (s : string)
| AddListener
| DelListener (key : Z)
| ClearLister.

Inductive result : Type :=
| Nothing
| Value (v : V)
| Text (s : string)
| Key (key : Z)
| Found (cb : option Listener)
| Success (b : bool).

(** [setValue], and what its caller returns. *)
Definition set_value (v : V) (r : result) : prog shared note result :=
  Read (fun x => if eqb v (m_val _ _ (var x)) then [] else map (fun cb => (cb.1, m_val _ _ (var x), v)) (m_cbs _ _ (var x)))
    (fun x => if eqb v (m_val _ _ (var x)) then Return r else Write (fun x => store x v) (fun _ => Return r)).

(** A new listener notes under the key it will have. *)
Definition add_listener (x : shared) : Z * shared :=
  let r := addListener _ (var x) (fun_id x) (noting (u64 (fun_id x + 1))) in
  (r.1.1, mkShared r.1.2 r.2).

Definition meaning (c : call) : prog shared note result :=
  match c with
  | GetValue => Read (fun _ => []) (fun x => Return (Value (getValue _ (var x))))
  | ToString => Read (fun _ => []) (fun x => Return (Text (toString _ (fun _ => cast) (var x))))
  | GetListener key => Read (fun _ => []) (fun x => Return (Found (getListener _ (var x) key)))
  | SetValue v => set_value v Nothing
  | FormString s => match of_text s with Some v => set_value v (Success true) | None => Return (Success false) end
  | AddListener => Write (fun x => (add_listener x).2) (fun x => Return (Key (add_listener x).1))
  | DelListener key => Write (fun x => mkShared (delListener _ (var x) key) (fun_id x)) (fun _ => Return Nothing)
  | ClearLister => Write (fun x => mkShared (clearLister _ (var x)) (fun_id x)) (fun _ => Return Nothing)
  end.

(** The same calls by the methods of Config.v, one after the other. *)
Definition do_call (c : call) (x : shared) (told : list note) : outcome (result * shared * list note) :=
  match c with
  | GetValue => Ret (Value (getValue _ (var x)), x, told)
  | ToString => Ret (Text (toString _ (fun _ => cast) (var x)), x, told)
  | GetListener key => Ret (Found (getListener _ (var x) key), x, told)
  | SetValue v =>
      let! r := setValue _ (fun _ => eqb) (var x) v told in Ret (Nothing, mkShared r.1.2 (fun_id x), r.2)
  | FormString s =>
      let! r := formString _ (fun _ => cast) (fun _ => eqb) (var x) s told in
      Ret (Success r.1.1, mkShared r.1.2 (fun_id x), r.2)
  | AddListener => Ret (Key (add_listener x).1, (add_listener x).2, told)
  | DelListener key => Ret (Nothing, mkShared (delListener _ (var x) key) (fun_id x), told)
  | ClearLister => Ret (Nothing, mkShared (clearLister _ (var x)) (fun_id x), told)
  end.
Fixpoint do_calls (cs : list call) (x : shared) (told : list note) (rs : list result)
    : outcome (list result * shared * list note) :=
  match cs with
  | [] => Ret (rs, x, told)
  | c :: cs => let! r := do_call c x told in do_calls cs r.1.2 r.2 (rs ++ [r.1.1])
  end.

(** ** Alone, the blocks are the methods *)
Definition all_note (x : shared) : Prop := Forall (fun cb => cb.2 = noting cb.1) (m_cbs _ _ (var x)).

Lemma notify_notes l old v : forall told, Forall (fun cb => cb.2 = noting cb.1) l ->
  notify_all den l old v told = Ret (true, told ++ map (fun cb => (cb.1, old, v)) l).
Proof.
  induction l as [|cb l IH]; intros told H; cbn; [by rewrite app_nil_r|]. inversion_clear H as [|? ? H1 H2].
  rewrite H1. cbn. rewrite IH by done. by rewrite <- app_assoc.
Qed.

Lemma set_alone v r x told : all_note x ->
  alone (set_value v r) x told =
    (let! q := setValue _ (fun _ => eqb) (var x) v told in Ret (r, mkShared q.1.2 (fun_id x), q.2)) /\
  exists x' told', setValue _ (fun _ => eqb) (var x) v told = Ret (true, x', told') /\ m_cbs _ _ x' = m_cbs _ _ (var x).
Proof.
  intros Hn. unfold setValue, set_value. cbn [alone]. destruct (eqb v (m_val _ _ (var x))).
  - cbn. rewrite app_nil_r. destruct x. split; [done|]. by do 2 eexists.
  - rewrite notify_notes by done. cbn. split; [done|]. by do 2 eexists.
Qed.

Lemma filter_notes {A} (f : Z -> bool) (g : Z -> A) (l : list (Z * A)) :
  Forall (fun cb => cb.2 = g cb.1) l -> Forall (fun cb => cb.2 = g cb.1) (List.filter (fun c => f c.1) l).
Proof. induction 1 as [|cb l H _ IH]; cbn; [done|]. destruct (f cb.1); [by constructor|done]. Qed.

Lemma var_call_alone c x told : all_note x ->
  alone (meaning c) x told = do_call c x told /\
  (forall r x' told', do_call c x told = Ret (r, x', told') -> all_note x').
Proof.
  intros Hn. destruct c as [| |key|v|s| |key|]; cbn [meaning do_call].
  - cbn. rewrite app_nil_r. split; [done|]. by intros ? ? ? [= _ <- _].
  - cbn. rewrite app_nil_r. split; [done|]. by intros ? ? ? [= _ <- _].
  - cbn. rewrite app_nil_r. split; [done|]. by intros ? ? ? [= _ <- _].
  - destruct (set_alone v Nothing x told Hn) as [-> (x1 & t1 & -> & E)]. split; [done|].
    cbn. intros ? ? ? [= _ <- _]. unfold all_note. cbn. by rewrite E.
  - unfold formString. destruct (of_text s) as [v|].
    + destruct (set_alone v (Success true) x told Hn) as [-> (x1 & t1 & -> & E)]. split; [done|].
      cbn. intros ? ? ? [= _ <- _]. unfold all_note. cbn. by rewrite E.
    + cbn. split; [by destruct x|]. intros ? ? ? [= _ <- _]. done.
  - split; [done|]. intros ? ? ? [= _ <- _]. unfold all_note, add_listener, addListener. cbn.
    apply Forall_app. split; [by apply (filter_notes (fun k => negb (k =? _)))|]. by constructor.
  - split; [done|]. intros ? ? ? [= _ <- _]. unfold all_note, delListener. cbn.
    by apply (filter_notes (fun k => negb (k =? key))).
  - split; [done|]. intros ? ? ? [= _ <- _]. constructor.
Qed.

Lemma var_calls_alone cs : forall x told rs, all_note x -> all_alone meaning cs x told rs = do_calls cs x told rs.
Proof.
  induction cs as [|c cs IH]; intros x told rs Hn; cbn [all_alone do_calls]; [done|].
  destruct (var_call_alone c x told Hn) as [-> Hk]. destruct (do_call c x told) as [[[r x'] told']|e]; [|done].
  cbn [obind fst snd]. by apply IH, (Hk r x' told').
Qed.

(** The calls that only look. *)
Definition looks (c : call) : bool := match c with GetValue | ToString | GetListener _ => true | _ => false end.
Lemma var_looks_quiet c : looks c = true -> quiet (meaning c).
Proof. by destruct c. Qed.

End variable.

(** ** Two setters

    A variable with one listener, and two threads that each set it once. *)
Definition plain_cast : LexicalCast Z := {| to_text _ := None; of_text _ := None |}.
Definition watched : shared (V := Z) :=
  mkShared (mkVar _ _ "tcp.connect.timeout" "" 0 [(1, noting 1)]) 1.
Definition setters : list (list (call (V := Z))) := [[SetValue 10]; [SetValue 20]].

(** Two threads that set a variable at a time can leave it with another value than
    its listeners were told last: both tell their listeners, and then they store in
    the other order. *)
Theorem two_setters_disagree : exists s,
  reachable (meaning Z.eqb plain_cast) watched setters s /\
  (forall t th, threads s !! t = Some th -> finished th = true) /\
  told s = [(1, 0, 10); (1, 0, 20)] /\ m_val _ _ (var (data s)) = 10.
Proof.
  destruct (rw_run_end (meaning Z.eqb plain_cast) (fun s => (forallb finished (threads s), told s, m_val _ _ (var (data s)))) (true, [(1, 0, 10); (1, 0, 20)], 10)
    [0; 0; 0; 0; 1; 1; 1; 1; 0; 1; 1; 1; 1; 1; 0; 0; 0; 0]%nat (new_state watched setters)) as (s & Hr & [= Hf Ht Hv]);
    [vm_compute; reflexivity|].
  exists s. split; [exact Hr|]. split; [by apply all_finished|done].
Qed.

(** One thread sets while another reads between its two blocks. *)
Definition setter_and_reader : list (list (call (V := Z))) := [[SetValue 10; AddListener]; [GetValue]].
