(* ===== verification/LogConfig.v ===== *)
(** * The configuration of loggers (src/qslary/base/Logger.cc)

    [LogDefine] and its casts, and the listener of [LogIniter], which makes the
    loggers (Logger.v) what a new value of the variable "logs" (Config.v) says. *)
From stdpp Require Import base list gmap strings.
From Stdlib Require Import ZArith Ascii String Lia.
From S2P Require Import Prelude CLib LogFormat Logger Config.
Open Scope Z_scope.

Record LogAppenderDefine : Type := mkAppenderDefine {
  ad_type : Z;                                        (** 1 Stdout, 2 File *)
  ad_level : Z;
  ad_formatter : string;
  ad_file : string
}.
Record LogDefine : Type := mkDefine {
  ld_name : string;
  ld_level : Z;
  ld_formatter : string;
  ld_appenders : list LogAppenderDefine
}.

#[export] Instance appender_define_eq_dec : EqDecision LogAppenderDefine.
Proof. solve_decision. Defined.
#[export] Instance define_eq_dec : EqDecision LogDefine.
Proof. solve_decision. Defined.

(** [operator<] *)
Definition define_lt (x y : LogDefine) : bool := string_lt (ld_name x) (ld_name y).

(** ** Casts

    The members of a node by their keys, and [as<std::string>]; [None] where the
    library throws. *)
Class YamlMembers : Type := {
  member : Node -> string -> option (option Node);
  as_string : Node -> option string
}.
Definition find_key (l : list (string * Node)) (key : string) : option Node :=
  match List.find (fun x => String.eqb key x.1) l with Some x => Some x.2 | None => None end.
Class YamlMembersLaws (M : YamlMembers) : Prop := {
  member_map l key : member (Map l) key = Some (find_key l key);
  as_string_scalar s : as_string (Scalar s) = Some s
}.

Section casts.
Context {Y : Yaml} {M : YamlMembers}.

(** [n[key].IsDefined() ? n[key].as<std::string>() : ""] *)
Definition string_member (n : Node) (key : string) : option string :=
  match member n key with
  | None => None
  | Some None => Some ""%string
  | Some (Some x) => as_string x
  end.

(** The turn of the loop over the appenders: what it adds. *)
Definition appender_of_node (a : Node) : option (list LogAppenderDefine) :=
  match member a "type" with
  | None => None
  | Some None => Some []
  | Some (Some t) =>
      match as_string t with
      | None => None
      | Some type =>
          if String.eqb type "FileLogAppender" then
            match member a "file" with
            | None => None
            | Some None => Some []
            | Some (Some f) =>
                match as_string f, string_member a "formatter" with
                | Some file, Some formatter => Some [mkAppenderDefine 2 UNKONW formatter file]
                | _, _ => None
                end
            end
          else if String.eqb type "StdoutLogAppender" then
            match string_member a "formatter" with
            | Some formatter => Some [mkAppenderDefine 1 UNKONW formatter ""]
            | None => None
            end
          else Some []
      end
  end.

Definition appenders_of_node (n : Node) : option (list LogAppenderDefine) :=
  match member n "appenders" with
  | None => None
  | Some None => Some []
  | Some (Some l) =>
      match elements l with
      | None => None
      | Some l => match all_some (map appender_of_node l) with Some x => Some (List.concat x) | None => None end
      end
  end.

(** [LexicalCast<std::string, LogDefine>]; a definition without a name throws. *)
Definition define_of_node (n : Node) : option LogDefine :=
  match member n "name" with
  | Some (Some x) =>
      match as_string x, string_member n "level", string_member n "formatter", appenders_of_node n with
      | Some name, Some level, Some formatter, Some aps =>
          Some (mkDefine name (LevelFromString level) formatter aps)
      | _, _, _, _ => None
      end
  | _ => None
  end.
Definition define_of_text (v : string) : option LogDefine :=
  match Load v with Some n => define_of_node n | None => None end.

(** [LexicalCast<LogDefine, std::string>] *)
Definition level_member (level : Z) : list (string * Node) :=
  if level =? UNKONW then [] else [("level"%string, Scalar (LevelToString level))].
Definition formatter_member (f : string) : list (string * Node) :=
  match f with EmptyString => [] | _ => [("formatter"%string, Scalar f)] end.
Definition text_member (key s : string) : string * Node := (key, Scalar s).
Definition kind_members (a : LogAppenderDefine) : list (string * Node) :=
  if ad_type a =? 2 then [text_member "type" "FileLogAppender"; text_member "file" (ad_file a)]
  else if ad_type a =? 1 then [text_member "type" "StdoutLogAppender"] else [].
Definition node_of_appender (a : LogAppenderDefine) : Node :=
  of_entries (kind_members a ++ level_member (ad_level a) ++ formatter_member (ad_formatter a)).
Definition node_of_define (i : LogDefine) : Node :=
  of_entries
    (("name"%string, Scalar (ld_name i)) :: level_member (ld_level i) ++ formatter_member (ld_formatter i)
     ++ match ld_appenders i with [] => [] | l => [("appenders"%string, of_elements (map node_of_appender l))] end).
Definition define_to_text (i : LogDefine) : string := emit (node_of_define i).
End casts.

(** What is right for a definition: levels that have names, and one of the two kinds
    of appender, of which only files have a name. *)
Definition appender_ok (a : LogAppenderDefine) : Prop :=
  (ad_type a = 1 /\ ad_file a = ""%string) \/ ad_type a = 2.
Definition define_ok (i : LogDefine) : Prop :=
  UNKONW <= ld_level i <= FATAL /\ Forall appender_ok (ld_appenders i).
Definition without_level (a : LogAppenderDefine) : LogAppenderDefine :=
  mkAppenderDefine (ad_type a) UNKONW (ad_formatter a) (ad_file a).

Section laws.
Context {Y : Yaml} {L : YamlLaws Y} {M : YamlMembers} {ML : YamlMembersLaws M}.

Lemma find_key_app l k key : find_key (l ++ k) key = match find_key l key with Some n => Some n | None => find_key k key end.
Proof. unfold find_key. induction l as [|x l IH]; cbn; [done|]. by destruct (String.eqb key x.1). Qed.

Lemma find_level level key : find_key (level_member level) key =
  if String.eqb key "level" && negb (level =? UNKONW) then Some (Scalar (LevelToString level)) else None.
Proof. unfold level_member, find_key. destruct (level =? UNKONW); cbn; [by rewrite andb_false_r|]. by destruct (String.eqb key "level"). Qed.

Lemma find_formatter f key : find_key (formatter_member f) key =
  if String.eqb key "formatter" && negb (String.eqb f "") then Some (Scalar f) else None.
Proof. unfold formatter_member, find_key. destruct f; cbn; [by rewrite andb_false_r|]. by destruct (String.eqb key "formatter"). Qed.

Lemma string_member_map l key n : find_key l key = Some n -> string_member (Map l) key = as_string n.
Proof. intros H. unfold string_member. by rewrite member_map, H. Qed.
Lemma string_member_none l key : find_key l key = None -> string_member (Map l) key = Some ""%string.
Proof. intros H. unfold string_member. by rewrite member_map, H. Qed.

Lemma appender_node a : appender_ok a -> appender_of_node (node_of_appender a) = Some [without_level a].
Proof.
  intros Ha. destruct a as [ty lv fm fl]. unfold node_of_appender, without_level, appender_ok in *. cbn in *.
  assert (forall l, find_key l "formatter" = None -> string_member (Map (l ++ level_member lv ++ formatter_member fm)) "formatter" = Some fm) as Hf.
  { intros l Hl. destruct (String.eqb_spec fm "") as [->|Hne].
    - apply string_member_none. rewrite !find_key_app, Hl, find_level, find_formatter. done.
    - rewrite (string_member_map _ _ (Scalar fm)); [by apply as_string_scalar|].
      rewrite !find_key_app, Hl, find_level, find_formatter. cbn. by rewrite (proj2 (String.eqb_neq fm "") Hne). }
  unfold appender_of_node, kind_members. destruct Ha as [[-> ->]| ->]; cbn [Z.eqb Pos.eqb ad_type ad_file of_entries app].
  - specialize (Hf [text_member "type" "StdoutLogAppender"] eq_refl). cbn [app] in Hf.
    rewrite member_map. cbn [find_key List.find text_member fst snd String.eqb Ascii.eqb Bool.eqb].
    rewrite as_string_scalar. cbn -[string_member level_member formatter_member]. by rewrite Hf.
  - specialize (Hf [text_member "type" "FileLogAppender"; text_member "file" fl] eq_refl). cbn [app] in Hf.
    rewrite !member_map. cbn [find_key List.find text_member fst snd String.eqb Ascii.eqb Bool.eqb].
    rewrite !as_string_scalar. cbn -[string_member level_member formatter_member]. by rewrite Hf.
Qed.

Lemma appenders_nodes l : Forall appender_ok l ->
  all_some (map appender_of_node (map node_of_appender l)) = Some (map (fun a => [without_level a]) l).
Proof. induction 1 as [|a l Ha _ IH]; cbn; [done|]. by rewrite appender_node, IH. Qed.

Lemma concat_singletons {A B} (f : A -> B) (l : list A) : List.concat (map (fun a => [f a]) l) = map f l.
Proof. induction l as [|a l IH]; cbn; [done|]. by rewrite IH. Qed.

(** The members behind the name. *)
Lemma find_behind nm l key : String.eqb key "name" = false -> find_key (("name"%string, Scalar nm) :: l) key = find_key l key.
Proof. intros H. unfold find_key. cbn [List.find fst]. by rewrite H. Qed.

Lemma level_read nm lv fm tl : find_key tl "level" = None ->
  string_member (Map (("name"%string, Scalar nm) :: level_member lv ++ formatter_member fm ++ tl)) "level"
  = Some (if lv =? UNKONW then ""%string else LevelToString lv).
Proof.
  intros T1. destruct (lv =? UNKONW) eqn:E.
  - apply string_member_none. rewrite find_behind, !find_key_app, find_level, find_formatter, E, T1 by done. done.
  - rewrite (string_member_map _ _ (Scalar (LevelToString lv))); [apply as_string_scalar|].
    rewrite find_behind, !find_key_app, find_level, E by done. done.
Qed.

Lemma formatter_read nm lv fm tl : find_key tl "formatter" = None ->
  string_member (Map (("name"%string, Scalar nm) :: level_member lv ++ formatter_member fm ++ tl)) "formatter" = Some fm.
Proof.
  intros T2. destruct (String.eqb_spec fm "") as [->|Hne].
  - apply string_member_none. rewrite find_behind, !find_key_app, find_level, find_formatter, T2 by done. done.
  - rewrite (string_member_map _ _ (Scalar fm)); [apply as_string_scalar|].
    rewrite find_behind, !find_key_app, find_level, find_formatter by done. cbn. by rewrite (proj2 (String.eqb_neq fm "") Hne).
Qed.

Lemma define_node i : define_ok i ->
  define_of_node (node_of_define i) =
  Some (mkDefine (ld_name i) (ld_level i) (ld_formatter i) (map without_level (ld_appenders i))).
Proof.
  intros [Hlv Haps]. destruct i as [nm lv fm aps]. cbn [ld_name ld_level ld_formatter ld_appenders] in *.
  unfold node_of_define. cbn [ld_name ld_level ld_formatter ld_appenders of_entries].
  set (tl := match aps with [] => [] | _ => _ end).
  assert (find_key tl "level" = None /\ find_key tl "formatter" = None) as [T1 T2] by (unfold tl; by destruct aps).
  assert (appenders_of_node (Map (("name"%string, Scalar nm) :: level_member lv ++ formatter_member fm ++ tl))
    = Some (map without_level aps)) as H3.
  { unfold appenders_of_node. rewrite member_map, find_behind, !find_key_app, find_level, find_formatter by done.
    unfold tl. cbn [String.eqb Ascii.eqb Bool.eqb andb]. destruct aps as [|a aps]; [done|].
    change (find_key [("appenders"%string, of_elements (map node_of_appender (a :: aps)))] "appenders")
      with (Some (of_elements (map node_of_appender (a :: aps)))). cbv iota.
    by rewrite elements_of, appenders_nodes, concat_singletons. }
  unfold define_of_node. rewrite member_map.
  change (find_key (("name"%string, Scalar nm) :: level_member lv ++ formatter_member fm ++ tl) "name") with (Some (Scalar nm)).
  cbv iota. rewrite as_string_scalar, level_read, formatter_read, H3 by done. f_equal. f_equal.
  destruct (Z.eqb_spec lv UNKONW) as [->|]; [done|]. by apply level_round_trip.
Qed.

(** The definition of a logger is cast to text and back without loss but for the
    levels of its appenders, which are written and never read. *)
Theorem define_round_trip i : define_ok i ->
  define_of_text (define_to_text i) =
  Some (mkDefine (ld_name i) (ld_level i) (ld_formatter i) (map without_level (ld_appenders i))).
Proof. intros H. unfold define_of_text, define_to_text. rewrite Load_emit. by apply define_node. Qed.
End laws.

(** ** The listener *)
Section listener.
Context (strftime : string -> Z -> option string) (can_open : string -> bool).
Implicit Types (m : LogManger).

(** The level of a logger that is no longer defined. *)
Definition off : Z := 100.

(** An appender of a definition: the loop over the appenders *)
Definition add_define m (lg : nat) (a : LogAppenderDefine) : outcome LogManger :=
  let! file := (if ad_type a =? 1 then Ret None
                else if ad_type a =? 2 then Ret (Some (ad_file a)) else Fault Undefined) in
  let '(ap, m) := make_appender can_open m file in
  let! x := deref (appenders m !! ap) in
  let m := set_appender m ap (appender_setLevel x (ad_level a)) in
  let! x := deref (appenders m !! ap) in
  let m :=
    match ad_formatter a with
    | EmptyString => m
    | _ =>
        let fmt := new_LoggerFormatter (ad_formatter a) in
        if m_error fmt then m else set_appender m ap (appender_setFormatter x (Some fmt))
    end in
  addAppender m lg ap.
Fixpoint add_defines m (lg : nat) (l : list LogAppenderDefine) : outcome LogManger :=
  match l with
  | [] => Ret m
  | a :: l => let! m := add_define m lg a in add_defines m lg l
  end.

(** [std::set::find] *)
Definition find_define (l : list LogDefine) (i : LogDefine) : option LogDefine :=
  List.find (fun d => String.eqb (ld_name d) (ld_name i)) l.

(** A turn of the first loop; the pointer to the logger stays null when the
    definition has not changed. *)
Definition apply_define (old : list LogDefine) m (i : LogDefine) : outcome LogManger :=
  let logger :=
    match find_define old i with
    | None => Some (getLogger m (ld_name i))
    | Some it => if decide (i = it) then None else Some (getLogger m (ld_name i))
    end in
  let! r := deref logger in
  let '(lg, m) := r in
  let! m := setLevel m lg (ld_level i) in
  let! m := (match ld_formatter i with EmptyString => Ret m | f => setFormatter_text m lg f end) in
  let! m := clearAppender m lg in
  add_defines m lg (ld_appenders i).
Fixpoint apply_defines (old : list LogDefine) m (l : list LogDefine) : outcome LogManger :=
  match l with
  | [] => Ret m
  | i :: l => let! m := apply_define old m i in apply_defines old m l
  end.

(** A turn of the second loop *)
Definition drop_define (new : list LogDefine) m (i : LogDefine) : outcome LogManger :=
  match find_define new i with
  | Some _ => Ret m
  | None =>
      let '(lg, m) := getLogger m (ld_name i) in
      let! m := setLevel m lg off in
      clearAppender m lg
  end.
Fixpoint drop_defines (new : list LogDefine) m (l : list LogDefine) : outcome LogManger :=
  match l with
  | [] => Ret m
  | i :: l => let! m := drop_define new m i in drop_defines new m l
  end.

(** The listener of [LogIniter]; [note] is the event of its message for the root. *)
Definition log_listener (now : Z) (note : LogEvent) (old_value new_value : list LogDefine) m : outcome (bool * LogManger) :=
  let! m := QSLARY_LOG_LEVEL strftime can_open m now (m_root m) INFO note in
  let! m := apply_defines old_value m new_value in
  let! m := drop_defines new_value m old_value in
  Ret (true, m).

(** ** What the listener makes of a new value *)

(** The formatter of an appender of its own, and the appender that is made. *)
Definition own_formatter (s : string) : option LoggerFormatter :=
  match s with
  | EmptyString => None
  | _ => if m_error (new_LoggerFormatter s) then None else Some (new_LoggerFormatter s)
  end.
Definition file_of (a : LogAppenderDefine) : option string := if ad_type a =? 1 then None else Some (ad_file a).
Definition defined_appender (fm : option LoggerFormatter) (a : LogAppenderDefine) : LoggerAppender :=
  mkAppender (match own_formatter (ad_formatter a) with Some f => Some f | None => fm end)
    (match own_formatter (ad_formatter a) with Some _ => true | None => false end)
    (ad_level a) (new_sink can_open (file_of a)).
Definition type_ok (a : LogAppenderDefine) : Prop := ad_type a = 1 \/ ad_type a = 2.

Lemma insert_last {A} (l : list A) (x y : A) : <[List.length l := y]> (l ++ [x]) = l ++ [y].
Proof. by rewrite insert_app_r_alt, Nat.sub_diag. Qed.
Lemma lookup_last {A} (l : list A) (x : A) : (l ++ [x]) !! List.length l = Some x.
Proof. by apply list_lookup_middle. Qed.

Definition with_appenders (l : Logger) (aps : list nat) : Logger :=
  mkLogger (m_name l) (lg_level l) aps (m_formatter l) (lg_root l).

Lemma add_define_makes m lg a l : loggers m !! lg = Some l -> type_ok a ->
  add_define m lg a = Ret (mkManger (<[lg := with_appenders l (m_appenders l ++ [List.length (appenders m)])]> (loggers m))
    (appenders m ++ [defined_appender (m_formatter l) a]) (m_loggers m) (m_root m) (cout m)).
Proof.
  intros Hl Ha. unfold add_define.
  assert ((if ad_type a =? 1 then Ret None else if ad_type a =? 2 then Ret (Some (ad_file a)) else Fault Undefined)
    = Ret (file_of a)) as -> by (unfold file_of; by destruct Ha as [-> | ->]).
  cbn [obind make_appender appenders]. rewrite lookup_last. cbn [deref obind].
  unfold set_appender at 1 2. cbn [appenders]. rewrite !insert_last, lookup_last. cbn [deref obind].
  unfold defined_appender, own_formatter. destruct (ad_formatter a) as [|c s] eqn:Ef.
  - unfold addAppender. cbn [loggers appenders set_appender]. rewrite Hl, ?insert_last, lookup_last. cbn [deref obind].
    unfold set_appender, set_logger. cbn. by rewrite insert_last.
  - destruct (m_error _) eqn:Ee; unfold addAppender; cbn [loggers appenders set_appender]; rewrite Hl, ?insert_last, lookup_last;
      cbn [deref obind]; unfold set_appender, set_logger; cbn [loggers appenders m_loggers m_root cout]; rewrite ?list_insert_insert_eq, ?insert_last; reflexivity.
Qed.

Lemma add_defines_make ads : forall m lg l, loggers m !! lg = Some l -> Forall type_ok ads ->
  add_defines m lg ads = Ret (mkManger
    (<[lg := with_appenders l (m_appenders l ++ seq (List.length (appenders m)) (List.length ads))]> (loggers m))
    (appenders m ++ map (defined_appender (m_formatter l)) ads) (m_loggers m) (m_root m) (cout m)).
Proof.
  induction ads as [|a ads IH]; intros m lg l Hl Ha; cbn [add_defines].
  - cbn. rewrite !app_nil_r. replace (with_appenders l (m_appenders l)) with l by (by destruct l).
    rewrite list_insert_id by done. by destruct m.
  - inversion_clear Ha as [|? ? H1 H2]. rewrite (add_define_makes m lg a l Hl H1). cbn [obind].
    erewrite IH; [|cbn [loggers]; apply list_lookup_insert_eq; by eapply lookup_lt_Some|done].
    cbn [loggers appenders m_loggers m_root cout m_appenders m_formatter with_appenders]. rewrite list_insert_insert_eq.
    rewrite length_app, <- !app_assoc. cbn [List.length map app]. rewrite Nat.add_1_r. done.
Qed.

(** What a define makes of its logger. *)
Definition define_formatter (i : LogDefine) (fm : option LoggerFormatter) : option LoggerFormatter :=
  match own_formatter (ld_formatter i) with Some f => Some f | None => fm end.
Definition defined_logger (i : LogDefine) (l : Logger) (n : nat) : Logger :=
  mkLogger (m_name l) (ld_level i) (seq n (List.length (ld_appenders i))) (define_formatter i (m_formatter l)) (lg_root l).

Lemma hand_formatter_length l f : forall aps, List.length (hand_formatter l f aps) = List.length aps.
Proof. induction l as [|i l IH]; intros aps; cbn; [done|]. by rewrite IH, length_alter. Qed.
Lemma hand_formatter_other l f a : forall aps, a ∉ l -> hand_formatter l f aps !! a = aps !! a.
Proof.
  induction l as [|i l IH]; intros aps H; cbn; [done|]. apply not_elem_of_cons in H as [H1 H2].
  rewrite IH by done. by rewrite list_lookup_alter_ne.
Qed.

Lemma apply_define_makes old m i g m1 l :
  find_define old i <> Some i -> getLogger m (ld_name i) = (g, m1) -> loggers m1 !! g = Some l ->
  Forall type_ok (ld_appenders i) ->
  exists aps, apply_define old m i = Ret (mkManger (<[g := defined_logger i l (List.length (appenders m1))]> (loggers m1))
      (aps ++ map (defined_appender (define_formatter i (m_formatter l))) (ld_appenders i)) (m_loggers m1) (m_root m1) (cout m1)) /\
    List.length aps = List.length (appenders m1) /\ (forall a, a ∉ m_appenders l -> aps !! a = appenders m1 !! a).
Proof.
  intros Hf Eg Hl Ha. unfold apply_define.
  replace (match find_define old i with None => Some (getLogger m (ld_name i)) | Some it => if decide (i = it) then None else Some (getLogger m (ld_name i)) end)
    with (Some (getLogger m (ld_name i))) by (destruct (find_define old i); [|done]; rewrite decide_False; congruence).
  rewrite Eg. cbn [deref obind]. unfold setLevel at 1. rewrite Hl. cbn [deref obind].
  set (m2 := set_logger m1 g _). pose proof (lookup_lt_Some _ _ _ Hl) as Hg.
  set (l2 := mkLogger (m_name l) (ld_level i) (m_appenders l) (m_formatter l) (lg_root l)).
  assert (loggers m2 !! g = Some l2) as Hl2 by (unfold m2; cbn; by rewrite list_lookup_insert_eq).
  assert (exists m3 aps, (match ld_formatter i with EmptyString => Ret m2 | f => setFormatter_text m2 g f end) = Ret m3 /\
    m3 = mkManger (<[g := mkLogger (m_name l) (ld_level i) (m_appenders l) (define_formatter i (m_formatter l)) (lg_root l)]> (loggers m1))
      aps (m_loggers m1) (m_root m1) (cout m1) /\
    List.length aps = List.length (appenders m1) /\ (forall a, a ∉ m_appenders l -> aps !! a = appenders m1 !! a))
    as (m3 & aps & -> & -> & Hlen & Hother).
  { unfold define_formatter, own_formatter. destruct (ld_formatter i) as [|c s]; [by exists m2, (appenders m1)|].
    unfold setFormatter_text. destruct (m_error _); [by exists m2, (appenders m1)|].
    unfold setFormatter. rewrite Hl2. cbn [deref obind]. eexists _, _. split; [reflexivity|]. split_and!.
    - unfold m2. cbn. rewrite list_insert_insert_eq. reflexivity.
    - by rewrite hand_formatter_length.
    - intros a H. by rewrite hand_formatter_other. }
  cbn [obind]. unfold clearAppender, set_appenders. cbn [loggers]. rewrite list_lookup_insert_eq by done. cbn [deref obind].
  unfold set_logger. cbn [loggers appenders m_loggers m_root cout]. rewrite list_insert_insert_eq.
  erewrite add_defines_make; [|cbn [loggers]; by apply list_lookup_insert_eq|done].
  cbn [loggers appenders m_loggers m_root cout m_appenders m_formatter with_appenders m_name lg_level lg_root]. rewrite list_insert_insert_eq.
  exists aps. rewrite Hlen. split; [done|done].
Qed.
(** A logger as it is defined: its level, and its appenders, each with its kind, level
    and formatter, which is the logger's where it has none of its own. *)
Definition appender_as (m : LogManger) (fm : option LoggerFormatter) (a : nat) (ad : LogAppenderDefine) : Prop :=
  appenders m !! a = Some (defined_appender fm ad).
Definition logger_as (m : LogManger) (i : LogDefine) (g : nat) (l : Logger) : Prop :=
  m_loggers m !! ld_name i = Some g /\ loggers m !! g = Some l /\ lg_level l = ld_level i /\
  (own_formatter (ld_formatter i) <> None -> m_formatter l = own_formatter (ld_formatter i)) /\
  Forall2 (appender_as m (m_formatter l)) (m_appenders l) (ld_appenders i).

(** While the first loop runs: those before [n] are the appenders there were. *)
Record applying (n : nat) (done_ : list LogDefine) m : Prop := {
  ap_inv : log_inv m;
  ap_len : (n <= List.length (appenders m))%nat;
  ap_old name g l : m_loggers m !! name = Some g -> loggers m !! g = Some l -> name ∉ map ld_name done_ ->
    Forall (fun a => a < n)%nat (m_appenders l);
  ap_done i : i ∈ done_ -> exists g l, logger_as m i g l /\ Forall (fun a => n <= a)%nat (m_appenders l)
}.

Lemma getLogger_known m name g m1 : log_inv m -> getLogger m name = (g, m1) ->
  log_inv m1 /\ appenders m1 = appenders m /\ m_root m1 = m_root m /\ m_loggers m1 !! name = Some g /\
  (exists l, loggers m1 !! g = Some l /\ m_name l = name /\ (m_loggers m !! name = None -> m_appenders l = [])) /\
  (forall n, n <> name -> m_loggers m1 !! n = m_loggers m !! n) /\
  (forall j l, loggers m !! j = Some l -> loggers m1 !! j = Some l) /\
  (m_loggers m !! name = Some g -> m1 = m).
Proof.
  intros HI Eg. assert (log_inv m1) as HI1.
  { apply (do_op_inv strftime can_open m (GetLogger name)); [done|]. cbn. by rewrite Eg. }
  split; [done|]. revert Eg. unfold getLogger. destruct (m_loggers m !! name) as [j|] eqn:En; intros [= <- <-].
  - split_and!; try done. destruct (li_names _ HI name j En) as (l & Hl & Hn). by exists l.
  - cbn. rewrite lookup_insert_eq. split_and!; try done.
    + eexists. split; [by apply list_lookup_middle|done].
    + intros n Hn. by rewrite lookup_insert_ne.
    + intros j l Hl. rewrite lookup_app_l; [done|by eapply lookup_lt_Some].
Qed.

Lemma seq_lookup_inv n k j a : seq n k !! j = Some a -> (n <= a < n + k)%nat.
Proof. intros H. apply lookup_seq in H as [-> ?]. lia. Qed.

(** Loggers of different names are different. *)
Lemma names_differ m a b i j : log_inv m -> m_loggers m !! a = Some i -> m_loggers m !! b = Some j -> a <> b -> i <> j.
Proof.
  intros HI Ha Hb Hne ->. destruct (li_names _ HI a j Ha) as (l & Hl & <-), (li_names _ HI b j Hb) as (l' & Hl' & <-).
  by assert (l = l') as -> by congruence.
Qed.

Lemma setFormatter_text_op m g f m' : setFormatter_text m g f = Ret m' -> log_inv m -> log_inv m'.
Proof. intros H HI. exact (do_op_inv strftime can_open m (SetFormatterText g f) m' HI H). Qed.

Lemma add_define_inv m g a m' : log_inv m -> add_define m g a = Ret m' -> log_inv m'.
Proof.
  intros HI H. unfold add_define in H. apply obind_Ret_inv in H as (file & _ & H).
  assert (log_inv (make_appender can_open m file).2) as H1 by exact (do_op_inv strftime can_open m (MakeAppender file) _ HI eq_refl).
  destruct (make_appender can_open m file) as [ap m1]. cbn in H1.
  apply deref_inv in H as (x & Hx & H).
  assert (log_inv (set_appender m1 ap (appender_setLevel x (ad_level a)))) as H2.
  { apply (do_op_inv strftime can_open m1 (AppenderLevel ap (ad_level a)) _ H1). cbn. by rewrite Hx. }
  apply deref_inv in H as (y & Hy & H).
  refine (do_op_inv strftime can_open _ (AddAppender g ap) m' _ H).
  destruct (ad_formatter a) as [|c s]; [done|]. destruct (m_error _); [done|].
  apply (do_op_inv strftime can_open _ (AppenderFormatter ap (new_LoggerFormatter (String c s))) _ H2). cbn [do_op]. by rewrite Hy.
Qed.

Lemma apply_define_inv old m i m' : log_inv m -> apply_define old m i = Ret m' -> log_inv m'.
Proof.
  intros HI H. unfold apply_define in H. apply deref_inv in H as ([g m1] & Hg & H).
  assert (getLogger m (ld_name i) = (g, m1)) as Eg.
  { destruct (find_define old i) as [it|]; [|congruence]. destruct (decide (i = it)); congruence. }
  pose proof (proj1 (getLogger_known _ _ _ _ HI Eg)) as H1.
  apply obind_Ret_inv in H as (m2 & Hm2 & H). pose proof (do_op_inv strftime can_open m1 (SetLevel g (ld_level i)) m2 H1 Hm2) as H2.
  apply obind_Ret_inv in H as (m3 & Hm3 & H).
  assert (log_inv m3) as H3 by (destruct (ld_formatter i); [by injection Hm3 as <-|by eapply setFormatter_text_op]).
  apply obind_Ret_inv in H as (m4 & Hm4 & H). pose proof (do_op_inv strftime can_open m3 (ClearAppender g) m4 H3 Hm4) as H4.
  clear -H H4 strftime can_open. revert m4 H H4. induction (ld_appenders i) as [|a l IH]; cbn; intros m H HI; [by injection H as <-|].
  apply obind_Ret_inv in H as (m1 & H1 & H). apply (IH m1 H). by eapply add_define_inv.
Qed.

(** A turn of the first loop. *)
Lemma apply_define_step n old dn m i :
  applying n dn m -> ld_name i ∉ map ld_name dn -> find_define old i <> Some i -> Forall type_ok (ld_appenders i) ->
  exists m', apply_define old m i = Ret m' /\ applying n (i :: dn) m' /\ m_root m' = m_root m.
Proof.
  intros [HI Hlen Hold Hdone] Hnew Hf Hty. destruct (getLogger m (ld_name i)) as [g m1] eqn:Eg.
  destruct (getLogger_known _ _ _ _ HI Eg) as (HI1 & Ea & Er & Hg & (l & Hl & Hln & Hnil) & Hother & Hkeep & Hsame).
  destruct (apply_define_makes old m i g m1 l Hf Eg Hl Hty) as (aps & Hm' & Hla & Haps).
  eexists. split; [exact Hm'|]. split; [|cbn; done]. rewrite Ea in Hla, Haps, Hm' |- *.
  pose proof (lookup_lt_Some _ _ _ Hl) as Hgl.
  assert (Forall (fun a => a < n)%nat (m_appenders l)) as Hlold.
  { destruct (m_loggers m !! ld_name i) as [j|] eqn:En.
    - assert (m1 = m /\ g = j) as [-> ->].
      { unfold getLogger in Eg. rewrite En in Eg. by injection Eg as <- <-. }
      by apply (Hold (ld_name i) j l).
    - rewrite (Hnil eq_refl). apply Forall_nil_2. }
  split; cbn [appenders m_loggers loggers].
  - exact (apply_define_inv old m i _ HI Hm').
  - rewrite length_app, Hla. lia.
  - intros name g' l' Hn Hl' Hnd. apply not_elem_of_cons in Hnd as [Hne Hnd].
    rewrite Hother in Hn by done.
    assert (g <> g') as Hgg by (eapply (names_differ m1 (ld_name i) name); [done|done|by rewrite Hother|congruence]).
    rewrite list_lookup_insert_ne in Hl' by done. destruct (li_names _ HI name g' Hn) as (l0 & Hl0 & _).
    assert (l' = l0) as -> by (apply Hkeep in Hl0; congruence). by apply (Hold name g' l0).
  - intros j Hj%elem_of_cons. destruct Hj as [->|Hj].
    + exists g, (defined_logger i l (List.length (appenders m))). split; [split_and!|].
      * done.
      * by apply list_lookup_insert_eq.
      * done.
      * intros Ho. cbn. unfold define_formatter. by destruct (own_formatter _).
      * cbn. apply Forall2_same_length_lookup_2; [by rewrite length_seq|]. intros k a ad Hk Had.
        apply lookup_seq in Hk as [-> Hk]. unfold appender_as. cbn.
        rewrite lookup_app_r by lia. replace (List.length (appenders m) + k - List.length aps)%nat with k by lia.
        by rewrite list_lookup_fmap, Had.
      * cbn. apply Forall_forall. intros a Ha%elem_of_seq. lia.
    + destruct (Hdone j Hj) as (g' & l' & (N & L & V & F & A) & B).
      assert (ld_name j <> ld_name i) as Hne. { intros E. apply Hnew. rewrite <- E. apply list_elem_of_In, in_map, list_elem_of_In, Hj. }
      assert (g <> g') as Hgg by (eapply (names_differ m1 (ld_name i) (ld_name j)); [done|done|by rewrite Hother|congruence]).
      exists g', l'. split; [|done]. split_and!; cbn.
      * by rewrite Hother.
      * rewrite list_lookup_insert_ne by done. by apply Hkeep.
      * done.
      * done.
      * rewrite Forall_forall in B. rewrite Forall_forall in Hlold.
        apply Forall2_same_length_lookup. apply Forall2_same_length_lookup in A as [A1 A2]. split; [done|].
        intros k a ad Hk Had. specialize (A2 k a ad Hk Had). unfold appender_as in *. cbn.
        assert (n <= a)%nat as Hna by (apply B; by eapply list_elem_of_lookup_2).
        rewrite lookup_app_l by (rewrite Hla; by eapply lookup_lt_Some). rewrite Haps; [done|].
        intros Hin. specialize (Hlold a Hin). cbn in Hlold. lia.
Qed.

Lemma apply_defines_all n old l : forall dn m,
  applying n dn m -> NoDup (map ld_name l) -> (forall i, i ∈ l -> ld_name i ∉ map ld_name dn) ->
  (forall i, i ∈ l -> find_define old i <> Some i) -> Forall (fun i => Forall type_ok (ld_appenders i)) l ->
  exists m', apply_defines old m l = Ret m' /\ applying n (rev l ++ dn) m' /\ m_root m' = m_root m.
Proof.
  induction l as [|i l IH]; intros dn m HA Hnd Hdn Hf Hty; cbn [apply_defines]; [by exists m|].
  cbn in Hnd. apply NoDup_cons in Hnd as [Hi Hnd]. inversion_clear Hty as [|? ? Ht1 Ht2].
  destruct (apply_define_step n old dn m i HA) as (m1 & -> & HA1 & R1); [apply Hdn; by left|apply Hf; by left|done|].
  cbn [obind]. destruct (IH (i :: dn) m1 HA1 Hnd) as (m' & Hm' & HA' & R').
  - intros j Hj. cbn. apply not_elem_of_cons. split; [|apply Hdn; by right].
    intros E. apply Hi. rewrite <- E. apply list_elem_of_In, in_map, list_elem_of_In, Hj.
  - intros j Hj. apply Hf. by right.
  - done.
  - exists m'. split; [done|]. cbn [rev]. rewrite <- app_assoc. split; [done|]. congruence.
Qed.
(** A logger that is no longer defined. *)
Definition dropped m (name : string) : Prop :=
  exists g l, m_loggers m !! name = Some g /\ loggers m !! g = Some l /\ lg_level l = off /\ m_appenders l = [].

Lemma drop_define_drops new m i : log_inv m -> find_define new i = None ->
  exists m', drop_define new m i = Ret m' /\ log_inv m' /\ dropped m' (ld_name i) /\ appenders m' = appenders m /\
    (forall name g l, name <> ld_name i -> m_loggers m !! name = Some g -> loggers m !! g = Some l ->
       m_loggers m' !! name = Some g /\ loggers m' !! g = Some l).
Proof.
  intros HI Hf. unfold drop_define. rewrite Hf. destruct (getLogger m (ld_name i)) as [g m1] eqn:Eg.
  destruct (getLogger_known _ _ _ _ HI Eg) as (HI1 & Ea & Er & Hg & (l & Hl & Hln & _) & Hother & Hkeep & _).
  pose proof (lookup_lt_Some _ _ _ Hl) as Hgl.
  unfold setLevel. rewrite Hl. cbn [deref obind]. unfold clearAppender, set_appenders. cbn [loggers set_logger].
  rewrite list_lookup_insert_eq by done. cbn [deref obind]. eexists. split; [reflexivity|].
  unfold set_logger. cbn [loggers appenders m_loggers m_root cout]. rewrite list_insert_insert_eq. split_and!.
  - destruct (Forall_lookup_1 _ _ _ _ (li_loggers _ HI1) Hl) as [_ Hfm Hroot].
    apply (inv_change m1 _ g l); try done. by intros ?.
  - exists g. eexists. cbn. split; [done|]. split; [by apply list_lookup_insert_eq|done].
  - done.
  - intros name g' l' Hne Hn Hl'. cbn. rewrite Hother by done. split; [done|].
    assert (g <> g') as Hgg by (eapply (names_differ m1 (ld_name i) name); [done|done|by rewrite Hother|congruence]).
    rewrite list_lookup_insert_ne by done. by apply Hkeep.
Qed.

Lemma find_define_none l i : find_define l i = None -> ld_name i ∉ map ld_name l.
Proof.
  intros H Hi. apply list_elem_of_In, in_map_iff in Hi as (d & E & Hd). pose proof (find_none _ _ H d Hd) as Hn. cbn in Hn.
  rewrite E in Hn. by rewrite String.eqb_refl in Hn.
Qed.

Lemma drop_defines_all new l : forall m, log_inv m ->
  exists m', drop_defines new m l = Ret m' /\ appenders m' = appenders m /\
    (forall i, i ∈ l -> find_define new i = None -> dropped m' (ld_name i)) /\
    (forall name, dropped m name -> dropped m' name) /\
    (forall name g x, name ∈ map ld_name new -> m_loggers m !! name = Some g -> loggers m !! g = Some x ->
       m_loggers m' !! name = Some g /\ loggers m' !! g = Some x).
Proof.
  induction l as [|i l IH]; intros m HI; cbn [drop_defines].
  - exists m. split_and!; try done. by intros i Hi%elem_of_nil.
  - destruct (find_define new i) as [d|] eqn:Ef.
    + unfold drop_define. rewrite Ef. cbn [obind]. destruct (IH m HI) as (m' & H1 & H2 & H3 & H4 & H5).
      exists m'. split_and!; try done. intros j Hj Hn. apply H3; [|done]. apply elem_of_cons in Hj as [->|]; [congruence|done].
    + destruct (drop_define_drops new m i HI Ef) as (m1 & -> & HI1 & Hd & Ea & Hk). cbn [obind].
      destruct (IH m1 HI1) as (m' & H1 & H2 & H3 & H4 & H5). exists m'. split_and!; [done|congruence|..].
      * intros j Hj Hn. apply elem_of_cons in Hj as [->|Hj]; [by apply H4|by apply H3].
      * intros name (g & x & A & B & C & D). apply H4. destruct (decide (name = ld_name i)) as [->|Hne]; [done|].
        exists g, x. destruct (Hk name g x Hne A B) as [A' B']. done.
      * intros name g x Hin A B. assert (name <> ld_name i) as Hne by (intros ->; by apply (find_define_none _ _ Ef)).
        destruct (Hk name g x Hne A B) as [A' B']. by apply H5.
Qed.

(** The listener's own message is printed: for the root, at the level INFO, with roots
    that form no cycle and dates that fit. *)
Definition note_ok m (note : LogEvent) : Prop :=
  acyclic m /\ m_logger note = m_root m /\ m_level note = INFO /\
  Forall (dates_fit strftime m note) (targets m (m_root m) INFO).

Lemma note_printed m now note : log_inv m -> note_ok m note ->
  exists m1, QSLARY_LOG_LEVEL strftime can_open m now (m_root m) INFO note = Ret m1 /\ log_inv m1.
Proof.
  intros HI (Hac & Hnl & Hnv & Hd). destruct (li_root _ HI) as (r & Hr).
  assert (exists m1, QSLARY_LOG_LEVEL strftime can_open m now (m_root m) INFO note = Ret m1) as [m1 Hm1].
  { unfold QSLARY_LOG_LEVEL. rewrite Hr. cbn [deref obind]. destruct (lg_level r <=? INFO); [|by eexists].
    rewrite Hnl, Hnv. destruct (log_prints strftime can_open m now (m_root m) INFO note r Hac HI Hr Hd) as (m1 & -> & _). by eexists. }
  exists m1. split; [done|]. exact (do_op_inv strftime can_open m (LogAt now (m_root m) INFO note) m1 HI Hm1).
Qed.

Lemma applying_none m : log_inv m -> applying (List.length (appenders m)) [] m.
Proof.
  intros HI. split; [done|done| |by intros i Hi%elem_of_nil]. intros name g l Hn Hl _.
  pose proof (lo_appenders _ _ (Forall_lookup_1 _ _ _ _ (li_loggers _ HI) Hl)) as Hfm. eapply Forall_impl; [exact Hfm|].
  intros a (ap & Ha & _). by eapply lookup_lt_Some.
Qed.

(** What the listener makes of a new value, for whoever sets it. *)
Lemma defines_take_effect os m now note old new :
  do_ops strftime can_open new_LogManger os = Ret m -> note_ok m note -> NoDup (map ld_name new) ->
  (forall i, i ∈ new -> find_define old i <> Some i) -> Forall (fun i => Forall type_ok (ld_appenders i)) new ->
  exists m', log_listener now note old new m = Ret (true, m') /\
    (forall i, i ∈ new -> exists g l, logger_as m' i g l) /\
    (forall i, i ∈ old -> find_define new i = None -> dropped m' (ld_name i)).
Proof.
  intros Hos Hnote Hnd Hf Hty. pose proof (do_ops_inv strftime can_open os _ _ new_LogManger_inv Hos) as HI.
  destruct (note_printed m now note HI Hnote) as (m1 & Hm1 & HI1).
  unfold log_listener. rewrite Hm1. cbn [obind].
  destruct (apply_defines_all _ old new [] m1 (applying_none m1 HI1) Hnd) as (m2 & -> & [HI2 _ _ Hd] & _);
    [by intros ? _ ?%elem_of_nil|done|done|].
  cbn [obind]. destruct (drop_defines_all new old m2 HI2) as (m' & -> & Ea & H1 & _ & H2). cbn [obind].
  exists m'. split; [done|]. split; [|done]. intros i Hi.
  destruct (Hd i) as (g & l & (N & Lo & V & F & A) & _); [rewrite app_nil_r; apply list_elem_of_In, in_rev; rewrite rev_involutive; by apply list_elem_of_In|].
  destruct (H2 (ld_name i) g l) as [N' L']; [by apply list_elem_of_In, in_map, list_elem_of_In|done|done|].
  exists g, l. split_and!; try done. eapply Forall2_impl; [exact A|]. intros a ad. unfold appender_as. by rewrite Ea.
Qed.

(** C34: a new value of the configuration takes effect, after any history of loggers and
    appenders, when no definition stays as it was, the appenders defined are of the
    two types there are, and the listener's message can be printed ([note_ok]: the
    roots that were set form no cycle, and the dates that the appenders of the root
    print fit the 63 characters there is room for). Each logger that is defined has
    its level, its formatter if that is right, and as appenders just those of the
    definition, with their files, levels and formatters; each that is no longer
    defined is off and has no appender. *)
Theorem new_defines_apply os m now note old new :
  do_ops strftime can_open new_LogManger os = Ret m -> note_ok m note -> NoDup (map ld_name new) ->
  (forall i, i ∈ new -> find_define old i <> Some i) -> Forall (fun i => Forall type_ok (ld_appenders i)) new ->
  exists m', log_listener now note old new m = Ret (true, m') /\
    (forall i, i ∈ new -> exists g l, logger_as m' i g l) /\
    (forall i, i ∈ old -> find_define new i = None -> dropped m' (ld_name i)).
Proof. exact (defines_take_effect os m now note old new). Qed.

(** C35: a definition that a new value of the configuration leaves as it was is
    undefined behaviour: the listener prints its message and applies the definitions
    before the first of these, and then takes that for a logger that is not there and
    uses the null pointer, whatever comes behind. (The appenders defined before it
    are of the two types there are, and the message can be printed.) *)
Theorem unchanged_define_fails os m now note old before i after :
  do_ops strftime can_open new_LogManger os = Ret m -> note_ok m note -> NoDup (map ld_name before) ->
  (forall j, j ∈ before -> find_define old j <> Some j) -> Forall (fun j => Forall type_ok (ld_appenders j)) before ->
  find_define old i = Some i ->
  (exists m1 m2, QSLARY_LOG_LEVEL strftime can_open m now (m_root m) INFO note = Ret m1 /\
     apply_defines old m1 before = Ret m2 /\ apply_define old m2 i = Fault Undefined) /\
  log_listener now note old (before ++ i :: after) m = Fault Undefined.
Proof.
  intros Hos Hnote Hnd Hf Hty Hi. pose proof (do_ops_inv strftime can_open os _ _ new_LogManger_inv Hos) as HI.
  destruct (note_printed m now note HI Hnote) as (m1 & Hm1 & HI1).
  destruct (apply_defines_all _ old before [] m1 (applying_none m1 HI1) Hnd) as (m2 & Hm2 & _ & _);
    [by intros ? _ ?%elem_of_nil|done|done|].
  assert (apply_define old m2 i = Fault Undefined) as Hnull by (unfold apply_define; by rewrite Hi, decide_True).
  split; [by exists m1, m2|]. unfold log_listener. rewrite Hm1. cbn [obind].
  assert (apply_defines old m1 (before ++ i :: after) = Fault Undefined) as ->; [|done].
  clear -Hm2 Hnull. revert m1 Hm2. induction before as [|j before IH]; intros m1 H; cbn [apply_defines app] in H |- *.
  - injection H as ->. by rewrite Hnull.
  - apply obind_Ret_inv in H as (m3 & -> & H). cbn [obind]. by apply IH.
Qed.
End listener.

(** ** Witnesses *)
Definition toy_members : YamlMembers := {|
  member n key := match n with Map l => Some (find_key l key) | Null => Some None | _ => None end;
  as_string n := match n with Scalar s => Some s | _ => None end
|}.
Lemma toy_members_laws : YamlMembersLaws toy_members.
Proof. by split. Qed.

Definition system_define (level : Z) : LogDefine :=
  mkDefine "system" level "[%p] %m" [mkAppenderDefine 1 ERROR "" ""; mkAppenderDefine 2 UNKONW "%m%n" "a.log"].
Lemma define_round_trip_witness :
  define_of_text (Y := Toy.yaml) (M := toy_members) (define_to_text (Y := Toy.yaml) (system_define INFO)) =
  Some (mkDefine "system" INFO "[%p] %m" [mkAppenderDefine 1 UNKONW "" ""; mkAppenderDefine 2 UNKONW "%m%n" "a.log"]).
Proof.
  apply (define_round_trip (L := Toy.yaml_laws) (ML := toy_members_laws) (system_define INFO)). split.
  - unfold UNKONW, FATAL, INFO, system_define, ld_level. lia.
  - repeat (apply Forall_cons_2; [first [by left|by right]|]). apply Forall_nil_2.
Defined.

Definition note : LogEvent := an_event 0 INFO " on_logger_config change".

(** Times of a [strftime] that may fail; the default formatter's dates fit. *)
Lemma note_new_ok : note_ok narrow_time new_LogManger note.
Proof.
  split; [by apply (managed_acyclic narrow_time (fun _ => true) [])|]. split; [reflexivity|]. split; [reflexivity|].
  apply all_fit_dates. vm_compute. reflexivity.
Qed.

Lemma unchanged_define_fails_witness :
  log_listener narrow_time (fun _ => true) 100 note [system_define INFO]
    [mkDefine "http" DEBUG "" []; system_define INFO; mkDefine "z" DEBUG "" []] new_LogManger = Fault Undefined.
Proof.
  destruct (unchanged_define_fails narrow_time (fun _ => true) [] new_LogManger 100 note [system_define INFO]
    [mkDefine "http" DEBUG "" []] (system_define INFO) [mkDefine "z" DEBUG "" []]) as [_ H].
  - reflexivity.
  - exact note_new_ok.
  - apply NoDup_singleton.
  - intros j ->%list_elem_of_singleton. vm_compute. discriminate.
  - apply Forall_cons_2; [|apply Forall_nil_2]. apply Forall_nil_2.
  - reflexivity.
  - exact H.
Defined.

Lemma new_defines_apply_witness : exists m',
  log_listener narrow_time (fun _ => true) 100 note [system_define INFO; mkDefine "http" DEBUG "" []]
    [system_define ERROR] new_LogManger = Ret (true, m') /\
  (exists g l, logger_as (fun _ => true) m' (system_define ERROR) g l) /\ dropped m' "http".
Proof.
  destruct (new_defines_apply narrow_time (fun _ => true) [] new_LogManger 100 note
    [system_define INFO; mkDefine "http" DEBUG "" []] [system_define ERROR]) as (m' & H1 & H2 & H3).
  - reflexivity.
  - exact note_new_ok.
  - apply NoDup_singleton.
  - intros i ->%list_elem_of_singleton. vm_compute. discriminate.
  - apply Forall_cons_2; [|apply Forall_nil_2]. repeat (apply Forall_cons_2; [first [by left|by right]|]). apply Forall_nil_2.
  - exists m'. split; [exact H1|]. split; [apply H2; left|].
    refine (H3 (mkDefine "http" DEBUG "" []) _ _); [right; left|reflexivity].
Defined.
