(* ===== verification/LogYaml.v ===== *)
(** * Loggers as YAML (src/qslary/base/Logger.cc)

    The three [toYamlString]: of an appender, of a logger and of the manager; and
    what the configuration (LogConfig.v) reads from the text the manager prints. *)
From stdpp Require Import base list gmap strings sorting.
From Stdlib Require Import ZArith Ascii String Lia.
From S2P Require Import Prelude CLib LogFormat Logger Config LogConfig.
Open Scope Z_scope.

(** The casts of [LogDefine], as the containers of Config.v use them. *)
#[export] Instance cast_define {Y : Yaml} {M : YamlMembers} : LexicalCast LogDefine := {|
  to_text i := Some (define_to_text i);
  of_text := define_of_text
|}.

Section printing.
Context {Y : Yaml}.

(** [node["formatter"] = f->getPartten()], when there is a formatter *)
Definition given_formatter (o : option LoggerFormatter) : list (string * Node) :=
  match o with Some f => [text_member "formatter" (m_partten f)] | None => [] end.

(** [StdoutLogAppender::toYamlString] and [FileLogAppender::toYamlString] *)
Definition sink_members (s : sink) : list (string * Node) :=
  match s with
  | StdoutLogAppender => [text_member "type" "StdoutLogAppender"]
  | FileLogAppender filename _ _ _ => [text_member "type" "FileLogAppender"; text_member "file" filename]
  end.
Definition appender_to_node (a : LoggerAppender) : Node :=
  of_entries (sink_members (sink_ a) ++ level_member (ap_level a)
    ++ (if m_hasFormatter a then given_formatter (m_formater a) else [])).
Definition appender_toYamlString (a : LoggerAppender) : string := emit (appender_to_node a).

(** [YAML::Load] of a text; the exceptions of the library leave the method. *)
Definition load_text (s : string) : outcome Node :=
  match Load s with Some n => Ret n | None => Fault Thrown end.

(** [Logger::toYamlString]: the loop over the appenders, and the method *)
Fixpoint appender_nodes m (l : list nat) : outcome (list Node) :=
  match l with
  | [] => Ret []
  | i :: l =>
      let! a := deref (appenders m !! i) in
      let! n := load_text (appender_toYamlString a) in
      let! ns := appender_nodes m l in
      Ret (n :: ns)
  end.
Definition logger_toYamlString m (i : nat) : outcome string :=
  let! l := deref (loggers m !! i) in
  let! ns := appender_nodes m (m_appenders l) in
  Ret (emit (of_entries
    (text_member "name" (m_name l) :: level_member (lg_level l) ++ given_formatter (m_formatter l)
     ++ match ns with [] => [] | _ => [("appenders"%string, of_elements ns)] end))).

(** [LogManger::toYamlString]: the loop over the loggers by their names *)
Definition loggers_by_name m : list (string * nat) := insert_all key_lt (map_to_list (m_loggers m)).
Fixpoint logger_nodes m (l : list (string * nat)) : outcome (list Node) :=
  match l with
  | [] => Ret []
  | x :: l =>
      let! s := logger_toYamlString m x.2 in
      let! n := load_text s in
      let! ns := logger_nodes m l in
      Ret (n :: ns)
  end.
Definition LogManger_toYamlString m : outcome string :=
  let! ns := logger_nodes m (loggers_by_name m) in
  Ret (emit (of_elements ns)).
End printing.

(** ** The definitions that the text stands for

    A level that has no name, as that of a logger that was dropped, is read as
    UNKONW. *)
Definition read_level (level : Z) : Z := LevelFromString (LevelToString level).
Definition pattern_of (o : option LoggerFormatter) : string :=
  match o with Some f => m_partten f | None => "" end.
Definition define_of_appender (a : LoggerAppender) : LogAppenderDefine :=
  let pattern := if m_hasFormatter a then pattern_of (m_formater a) else ""%string in
  match sink_ a with
  | StdoutLogAppender => mkAppenderDefine 1 UNKONW pattern ""
  | FileLogAppender filename _ _ _ => mkAppenderDefine 2 UNKONW pattern filename
  end.
Definition define_of_logger m (l : Logger) : LogDefine :=
  mkDefine (m_name l) (read_level (lg_level l)) (pattern_of (m_formatter l))
    (map define_of_appender (omap (fun i => appenders m !! i) (m_appenders l))).
Definition defines_of m : list LogDefine :=
  map (define_of_logger m) (omap (fun x => loggers m !! x.2) (loggers_by_name m)).

(** ** Maps in the order of their keys *)
Lemma string_lt_irrefl s : string_lt s s = false.
Proof. unfold string_lt. by rewrite strcmp_sign_refl. Qed.
Lemma string_lt_trans s t u : string_lt s t = true -> string_lt t u = true -> string_lt s u = true.
Proof. unfold string_lt. rewrite !Z.ltb_lt. apply strcmp_sign_trans. Qed.
Lemma string_lt_flip s t : string_lt s t = true -> string_lt t s = false.
Proof. unfold string_lt. rewrite Z.ltb_lt, Z.ltb_ge. pose proof (strcmp_sign_antisym s t). lia. Qed.
Lemma string_lt_total s t : string_lt s t = false -> string_lt t s = false -> s = t.
Proof.
  unfold string_lt. rewrite !Z.ltb_ge. intros H1 H2. apply strcmp_sign_eq.
  pose proof (strcmp_sign_antisym s t). lia.
Qed.

Section by_key.
Context {A : Type}.
Implicit Types (x y : string * A) (l : list (string * A)).

Lemma insert_by_elem x l y : y ∈ insert_by key_lt x l -> y = x \/ y ∈ l.
Proof.
  induction l as [|z l IH]; cbn; [intros ->%list_elem_of_singleton; by left|].
  destruct (key_lt x z); [by intros [->|?]%elem_of_cons; [left|right]|].
  destruct (key_lt z x); [|by right]. intros [->|H]%elem_of_cons; [right; by left|].
  destruct (IH H) as [->|H']; [by left|right; by right].
Qed.

Lemma insert_by_sorted x l : sorted_by key_lt l -> sorted_by key_lt (insert_by key_lt x l).
Proof.
  induction 1 as [|z l Hs IH Hz]; cbn; [repeat constructor|].
  destruct (key_lt x z) eqn:E1.
  - constructor; [by constructor|]. constructor; [split; [done|by apply string_lt_flip]|].
    eapply Forall_impl; [exact Hz|]. intros y [H1 H2]. pose proof (string_lt_trans _ _ _ E1 H1) as H.
    split; [exact H|by apply string_lt_flip].
  - destruct (key_lt z x) eqn:E2; [|by constructor]. constructor; [done|].
    apply Forall_forall. intros y [->|Hy]%insert_by_elem; [split; [done|by apply string_lt_flip]|].
    rewrite Forall_forall in Hz. by apply Hz.
Qed.

Lemma insert_all_by_key l : sorted_by key_lt (insert_all key_lt l).
Proof.
  unfold insert_all. assert (forall s, sorted_by key_lt s -> sorted_by key_lt (foldl (fun s x => insert_by key_lt x s) s l)) as H.
  { induction l as [|x l IH]; intros s Hs; [done|]. by apply IH, insert_by_sorted. }
  apply H. constructor.
Qed.

Lemma insert_all_in l y : y ∈ insert_all key_lt l -> y ∈ l.
Proof.
  unfold insert_all. assert (forall s, y ∈ foldl (fun s x => insert_by key_lt x s) s l -> y ∈ s \/ y ∈ l) as H.
  { induction l as [|x l IH]; intros s Hs; [by left|]. cbn in Hs.
    destruct (IH _ Hs) as [[->|H]%insert_by_elem|H]; [right; by left|by left|right; by right]. }
  intros [H'%elem_of_nil|]%H; done.
Qed.

(** None is lost when the keys differ. *)
Lemma insert_by_keeps x l y : y ∈ l -> y ∈ insert_by key_lt x l.
Proof.
  induction l as [|z l IH]; cbn; [by intros ?%elem_of_nil|].
  destruct (key_lt x z); [by right|]. destruct (key_lt z x); [|done].
  intros [->|H]%elem_of_cons; [by left|right; by apply IH].
Qed.
Lemma insert_by_new x l : x.1 ∉ l.*1 -> x ∈ insert_by key_lt x l.
Proof.
  induction l as [|z l IH]; cbn; [by left|]. intros [Hz Hl]%not_elem_of_cons.
  destruct (key_lt x z) eqn:E1; [by left|]. destruct (key_lt z x) eqn:E2; [right; by apply IH|].
  destruct Hz. by apply string_lt_total.
Qed.
Lemma insert_all_keeps l : NoDup l.*1 -> forall y, y ∈ l -> y ∈ insert_all key_lt l.
Proof.
  intros Hl. unfold insert_all.
  assert (forall s, (forall z, z ∈ s -> z.1 ∉ l.*1) -> forall y, y ∈ s \/ y ∈ l ->
    y ∈ foldl (fun s x => insert_by key_lt x s) s l) as H.
  { induction l as [|x l IH]; intros s Hs y [Hy|Hy]; cbn in *; [done|by apply elem_of_nil in Hy| |];
      apply NoDup_cons in Hl as [Hx Hl]; apply (IH Hl).
    - intros z [->|Hz]%insert_by_elem; [done|]. specialize (Hs z Hz). by apply not_elem_of_cons in Hs as [_ ?].
    - left. by apply insert_by_keeps.
    - intros z [->|Hz]%insert_by_elem; [done|]. specialize (Hs z Hz). by apply not_elem_of_cons in Hs as [_ ?].
    - apply elem_of_cons in Hy as [->|Hy]; [left|by right]. apply insert_by_new. intros H.
      apply list_elem_of_fmap in H as (z & E & Hz). apply (Hs z Hz). rewrite <- E. by left. }
  intros y Hy. apply H; [by intros ? ?%elem_of_nil|by right].
Qed.
End by_key.

Lemma elem_of_loggers_by_name m name i : (name, i) ∈ loggers_by_name m <-> m_loggers m !! name = Some i.
Proof.
  unfold loggers_by_name. split.
  - intros H%insert_all_in. by apply elem_of_map_to_list.
  - intros H. apply insert_all_keeps; [apply NoDup_fst_map_to_list|by apply elem_of_map_to_list].
Qed.

(** The type of the variable "logs" *)
Abbreviation Defines := (fun _ : unit => list LogDefine).

(** ** Reading the text *)
Section reading.
Context {Y : Yaml} {L : YamlLaws Y} {M : YamlMembers} {ML : YamlMembersLaws M}.

Lemma find_given o key : find_key (given_formatter o) key =
  if String.eqb key "formatter" then Scalar <$> (m_partten <$> o) else None.
Proof. destruct o; cbn; [|by destruct (String.eqb key "formatter")]. unfold find_key. cbn. by destruct (String.eqb key "formatter"). Qed.

Lemma given_read l lv o tl : find_key l "formatter" = None -> find_key tl "formatter" = None ->
  string_member (Map (l ++ level_member lv ++ given_formatter o ++ tl)) "formatter" = Some (pattern_of o).
Proof.
  intros Hl Ht. destruct o as [f|].
  - rewrite (string_member_map _ _ (Scalar (m_partten f))); [apply as_string_scalar|].
    rewrite !find_key_app, Hl, find_level, find_given. done.
  - apply string_member_none. by rewrite !find_key_app, Hl, find_level, find_given.
Qed.

Lemma appender_read a : appender_of_node (appender_to_node a) = Some [define_of_appender a].
Proof.
  destruct a as [f has lv sk]. unfold appender_to_node, define_of_appender. cbn [m_formater m_hasFormatter ap_level sink_].
  set (o := if has then f else None).
  assert ((if has then given_formatter f else []) = given_formatter o) as -> by (by destruct has).
  assert ((if has then pattern_of f else "")%string = pattern_of o) as -> by (by destruct has).
  rewrite <- (app_nil_r (given_formatter o)). unfold appender_of_node.
  destruct sk as [|file op st last]; cbn [sink_members of_entries app].
  - pose proof (given_read [text_member "type" "StdoutLogAppender"] lv o [] eq_refl eq_refl) as Hf. cbn [app] in Hf.
    rewrite member_map. cbn [find_key List.find text_member fst snd String.eqb Ascii.eqb Bool.eqb].
    rewrite as_string_scalar. cbn -[string_member level_member given_formatter]. by rewrite Hf.
  - pose proof (given_read [text_member "type" "FileLogAppender"; text_member "file" file] lv o [] eq_refl eq_refl) as Hf.
    cbn [app] in Hf. rewrite !member_map. cbn [find_key List.find text_member fst snd String.eqb Ascii.eqb Bool.eqb].
    rewrite !as_string_scalar. cbn -[string_member level_member given_formatter]. by rewrite Hf.
Qed.

(** The appenders of a logger, all of which are there. *)
Lemma appender_nodes_all m l : Forall (formatted (appenders m)) l ->
  appender_nodes m l = Ret (map appender_to_node (omap (fun i => appenders m !! i) l)).
Proof.
  induction 1 as [|i l (a & Ha & _) _ IH]; [done|]. cbn [appender_nodes omap list_omap].
  rewrite Ha. cbn [deref obind]. unfold load_text, appender_toYamlString. rewrite Load_emit. cbn [obind].
  by rewrite IH.
Qed.

Lemma appenders_read aps :
  all_some (map appender_of_node (map appender_to_node aps)) = Some (map (fun a => [define_of_appender a]) aps).
Proof. induction aps as [|a aps IH]; cbn [map all_some]; [done|]. by rewrite appender_read, IH. Qed.

Lemma level_given_read nm lv o tl : find_key tl "level" = None ->
  exists s, string_member (Map (text_member "name" nm :: level_member lv ++ given_formatter o ++ tl)) "level" = Some s /\
    LevelFromString s = read_level lv.
Proof.
  intros Ht. destruct (lv =? UNKONW) eqn:E.
  - exists ""%string. split; [|by apply Z.eqb_eq in E as ->].
    apply string_member_none. unfold text_member. rewrite find_behind, !find_key_app, find_level, find_given, E, Ht by done. done.
  - exists (LevelToString lv). split; [|done].
    rewrite (string_member_map _ _ (Scalar (LevelToString lv))); [apply as_string_scalar|].
    unfold text_member. by rewrite find_behind, !find_key_app, find_level, E.
Qed.

Lemma logger_read m i l : loggers m !! i = Some l -> Forall (formatted (appenders m)) (m_appenders l) ->
  exists n, logger_toYamlString m i = Ret (emit n) /\ define_of_node n = Some (define_of_logger m l).
Proof.
  intros Hi Ha. unfold logger_toYamlString. rewrite Hi. cbn [deref obind]. rewrite (appender_nodes_all _ _ Ha). cbn [obind].
  eexists. split; [reflexivity|]. unfold define_of_logger. set (aps := omap _ (m_appenders l)). cbn [of_entries].
  set (tl := match map appender_to_node aps with [] => [] | _ => _ end).
  assert (find_key tl "level" = None /\ find_key tl "formatter" = None) as [T1 T2] by (unfold tl; by destruct aps).
  assert (appenders_of_node (Map (text_member "name" (m_name l) :: level_member (lg_level l)
    ++ given_formatter (m_formatter l) ++ tl)) = Some (map define_of_appender aps)) as H3.
  { unfold appenders_of_node, text_member. rewrite member_map, find_behind, !find_key_app, find_level, find_given by done.
    unfold tl. cbn [String.eqb Ascii.eqb Bool.eqb andb]. destruct aps as [|a aps']; [done|]. cbn [map].
    change (find_key [("appenders"%string, ?n)] "appenders") with (Some n). cbv iota.
    rewrite elements_of. change (appender_to_node a :: map appender_to_node aps') with (map appender_to_node (a :: aps')).
    by rewrite appenders_read, concat_singletons. }
  destruct (level_given_read (m_name l) (lg_level l) (m_formatter l) tl T1) as (s & H1 & Hs).
  pose proof (given_read [text_member "name" (m_name l)] (lg_level l) (m_formatter l) tl eq_refl T2) as H2. cbn [app] in H2.
  unfold define_of_node. rewrite member_map.
  change (find_key (text_member "name" (m_name l) :: ?k) "name") with (Some (Scalar (m_name l))).
  cbv iota. by rewrite as_string_scalar, H1, H2, H3, Hs.
Qed.

(** All loggers of a manager. *)
Lemma logger_nodes_all m l : log_inv m ->
  Forall (fun x => exists lg, loggers m !! x.2 = Some lg) l ->
  exists ns, logger_nodes m l = Ret ns /\
    Forall2 (fun n d => define_of_node n = Some d) ns (map (define_of_logger m) (omap (fun x => loggers m !! x.2) l)).
Proof.
  intros HI. induction 1 as [|x l [lg Hx] _ (ns & H1 & H2)]; [by exists []|].
  cbn [logger_nodes omap list_omap]. rewrite Hx.
  destruct (logger_read m x.2 lg Hx (lo_appenders _ _ (Forall_lookup_1 _ _ _ _ (li_loggers _ HI) Hx))) as (n & -> & Hn).
  cbn [obind]. unfold load_text. rewrite Load_emit. cbn [obind]. change (list_omap _ _ _ l) with (omap (fun x => loggers m !! x.2) l).
  rewrite H1. cbn [obind]. exists (n :: ns). split; [done|]. by constructor.
Qed.

(** The definitions have the names of the loggers, which are in order. *)
Lemma defines_sorted m l : log_inv m -> sorted_by key_lt l -> (forall x, x ∈ l -> m_loggers m !! x.1 = Some x.2) ->
  sorted_by define_lt (map (define_of_logger m) (omap (fun x => loggers m !! x.2) l)).
Proof.
  intros HI Hs. induction Hs as [|x l Hs IH Hx]; intros Hin; [constructor|].
  destruct (li_names _ HI x.1 x.2 (Hin x ltac:(left))) as (lg & Hlg & Hn). cbn [omap list_omap]. rewrite Hlg. cbn [map].
  constructor; [apply IH; intros y Hy; apply Hin; by right|]. apply Forall_forall.
  intros d (lg' & -> & (y & Hy & Hlg')%list_elem_of_omap)%list_elem_of_fmap.
  destruct (li_names _ HI y.1 y.2 (Hin y ltac:(by right))) as (lg2 & E & Hn').
  assert (lg2 = lg') as -> by congruence. unfold define_lt. cbn [ld_name define_of_logger]. rewrite Hn, Hn'.
  rewrite Forall_forall in Hx. by apply (Hx y).
Qed.

Lemma reads_back strftime can_open os m :
  do_ops strftime can_open new_LogManger os = Ret m ->
  exists t, LogManger_toYamlString m = Ret t /\ set_of_text define_lt t = Some (defines_of m) /\
    (forall name g l, m_loggers m !! name = Some g -> loggers m !! g = Some l -> define_of_logger m l ∈ defines_of m).
Proof.
  intros Hos. pose proof (do_ops_inv strftime can_open os _ _ new_LogManger_inv Hos) as HI.
  assert (forall x, x ∈ loggers_by_name m -> m_loggers m !! x.1 = Some x.2) as Hin
    by (intros [name i]; apply elem_of_loggers_by_name).
  destruct (logger_nodes_all m (loggers_by_name m) HI) as (ns & H1 & H2).
  { apply Forall_forall. intros x Hx. destruct (li_names _ HI x.1 x.2 (Hin x Hx)) as (lg & Hlg & _). by exists lg. }
  unfold LogManger_toYamlString. rewrite H1. cbn [obind]. eexists. split; [reflexivity|]. split.
  - unfold set_of_text. cbn [of_text cast_vector]. rewrite Load_emit, elements_of.
    rewrite (all_some_map of_child ns (defines_of m)).
    + rewrite insert_all_sorted; [done|]. apply defines_sorted; [done|apply insert_all_by_key|done].
    + eapply Forall2_impl; [exact H2|]. intros n d Hd. unfold of_child. cbn [of_text cast_define]. unfold define_of_text.
      by rewrite Load_emit.
  - intros name g l Hn Hl. apply list_elem_of_fmap. exists l. split; [done|]. apply list_elem_of_omap.
    exists (name, g). split; [by apply elem_of_loggers_by_name|done].
Qed.

(** What the manager prints can be read back: after any history of loggers and
    appenders [toYamlString] gives a text, and the configuration casts it to the set
    with one definition for each logger, in the order of their names, with its name,
    its formatter's pattern, and its appenders with their kinds, files and own
    patterns; a level that has no name is read as UNKONW, as are those of appenders. *)
Theorem toYamlString_reads_back strftime can_open os m :
  do_ops strftime can_open new_LogManger os = Ret m ->
  exists t, LogManger_toYamlString m = Ret t /\ set_of_text define_lt t = Some (defines_of m) /\
    (forall name g l, m_loggers m !! name = Some g -> loggers m !! g = Some l -> define_of_logger m l ∈ defines_of m).
Proof. exact (reads_back strftime can_open os m). Qed.

(** ** Saving and loading

    The variable "logs" with the listener of [LogIniter], which acts on a manager. *)
Definition cast_defines : forall t : unit, LexicalCast (Defines t) := fun _ =>
  {| to_text := set_to_text; of_text := set_of_text define_lt |}.
Definition defines_eqb : forall t : unit, Defines t -> Defines t -> bool := fun _ old new => bool_decide (old = new).

Definition g_log_defines (strftime : string -> Z -> option string) (can_open : string -> bool) (now : Z) (note : LogEvent)
    (value : list LogDefine) : ConfigVar (W := LogManger) Defines tt :=
  mkVar Defines tt "logs" "logs config" value [(1, log_listener strftime can_open now note)].

Lemma defines_names l : sorted_by define_lt l -> NoDup (map ld_name l).
Proof.
  induction 1 as [|d l _ IH Hd]; cbn; [constructor|]. constructor; [|done].
  intros (e & E & He)%list_elem_of_fmap. rewrite Forall_forall in Hd. destruct (Hd e He) as [H _].
  unfold define_lt in H. rewrite E, string_lt_irrefl in H. done.
Qed.

Lemma restored_levels can_open m m' l g' l' : logger_as can_open m' (define_of_logger m l) g' l' ->
  Forall (fun a => exists ap, appenders m' !! a = Some ap /\ ap_level ap = UNKONW) (m_appenders l').
Proof.
  intros (_ & _ & _ & _ & H). apply Forall_forall. intros a (k & Hk)%list_elem_of_lookup.
  destruct (Forall2_lookup_l _ _ _ _ _ H Hk) as (ad & Had & Ha). exists (defined_appender can_open (m_formatter l') ad).
  split; [exact Ha|]. apply list_elem_of_lookup_2 in Had. cbn [ld_appenders define_of_logger] in Had.
  apply list_elem_of_fmap in Had as (ap & -> & _). unfold define_of_appender.
  by destruct (sink_ ap).
Qed.

(** C33: saving and loading: the text that a manager prints after any history, given to
    the variable "logs" while nothing is configured, is taken, and the listener makes
    in any other manager, whatever its history, the loggers of the first, when its own
    message can be printed there ([note_ok]: no cycle of roots, dates that fit). Each
    has the level that was printed (or UNKONW, when it had one without a name), the
    pattern if it is right, and as appenders those that were printed, in their order,
    with their kinds, files and own patterns, but at the level UNKONW, which lets all
    messages through, whatever level they had. *)
Theorem saved_loggers_restored strftime can_open os os0 m m0 now note :
  do_ops strftime can_open new_LogManger os = Ret m -> do_ops strftime can_open new_LogManger os0 = Ret m0 ->
  note_ok strftime m0 note ->
  exists t m', LogManger_toYamlString m = Ret t /\
    formString Defines cast_defines defines_eqb (g_log_defines strftime can_open now note []) t m0 =
      Ret (true, g_log_defines strftime can_open now note (defines_of m), m') /\
    forall name g l, m_loggers m !! name = Some g -> loggers m !! g = Some l ->
      exists g' l', logger_as can_open m' (define_of_logger m l) g' l' /\
        Forall (fun a => exists ap, appenders m' !! a = Some ap /\ ap_level ap = UNKONW) (m_appenders l').
Proof.
  intros Hos Hos0 Hnote. pose proof (do_ops_inv strftime can_open os _ _ new_LogManger_inv Hos) as HI.
  destruct (reads_back strftime can_open os m Hos) as (t & H1 & H2 & H3). exists t.
  unfold formString, cast_defines. cbn [of_text]. rewrite H2. unfold setValue, defines_eqb, g_log_defines.
  cbn [m_val m_cbs var_name m_description].
  destruct (decide (defines_of m = [])) as [E|Hne].
  - rewrite bool_decide_eq_true_2 by done. exists m0. split; [done|]. split; [by rewrite E|]. intros name g l Hn Hl. pose proof (H3 name g l Hn Hl) as Hin.
    rewrite E in Hin. by apply elem_of_nil in Hin.
  - rewrite bool_decide_eq_false_2 by done. assert (sorted_by define_lt (defines_of m)) as Hs.
    { apply defines_sorted; [done|apply insert_all_by_key|]. intros [name i]. apply elem_of_loggers_by_name. }
    destruct (defines_take_effect strftime can_open os0 m0 now note [] (defines_of m)) as (m' & Hm' & Hall & _); try done.
    + by apply defines_names.
    + apply Forall_forall. intros d (l & -> & _)%list_elem_of_fmap. cbn. apply Forall_forall.
      intros a (ap & -> & _)%list_elem_of_fmap. unfold define_of_appender, type_ok. destruct (sink_ ap); [by left|by right].
    + exists m'. split; [done|]. cbn [notify_all snd]. rewrite Hm'. split; [done|]. intros name g l Hn Hl.
      destruct (Hall (define_of_logger m l)) as (g' & l' & Hl'); [by apply (H3 name g l)|]. exists g', l'. split; [done|].
      by eapply restored_levels.
Qed.
End reading.

(** ** Witness *)
Definition off_ops : list log_op :=
  [GetLogger "http"; SetLevel 1 off; MakeAppender (Some "a.log"); AddAppender 1 1; SetFormatterText 0 "%m%n"]%string.
Lemma toYamlString_reads_back_witness : exists m t,
  do_ops narrow_time (fun _ => true) new_LogManger off_ops = Ret m /\
  LogManger_toYamlString (Y := Toy.yaml) m = Ret t /\
  set_of_text (Y := Toy.yaml) (C := cast_define (Y := Toy.yaml) (M := toy_members)) define_lt t =
    Some [mkDefine "http" UNKONW default_pattern [mkAppenderDefine 2 UNKONW "" "a.log"];
          mkDefine "root" DEBUG "%m%n" [mkAppenderDefine 1 UNKONW "" ""]].
Proof.
  destruct (do_ops narrow_time (fun _ => true) new_LogManger off_ops) as [m|f] eqn:E; [|exfalso; revert E; vm_compute; discriminate].
  exists m. destruct (toYamlString_reads_back (L := Toy.yaml_laws) (ML := toy_members_laws) narrow_time (fun _ => true) off_ops m E)
    as (t & H1 & H2 & _).
  exists t. split; [done|]. split; [exact H1|]. refine (eq_trans H2 _). f_equal.
  clear H1 H2 t. revert E. vm_compute. intros [= <-]. reflexivity.
Defined.

Lemma saved_loggers_restored_witness : exists m t m',
  do_ops narrow_time (fun _ => true) new_LogManger off_ops = Ret m /\ LogManger_toYamlString (Y := Toy.yaml) m = Ret t /\
  formString Defines (cast_defines (Y := Toy.yaml) (M := toy_members)) defines_eqb
    (g_log_defines narrow_time (fun _ => true) 100 note []) t new_LogManger =
    Ret (true, g_log_defines narrow_time (fun _ => true) 100 note (defines_of m), m').
Proof.
  destruct (do_ops narrow_time (fun _ => true) new_LogManger off_ops) as [m|f] eqn:E; [|exfalso; revert E; vm_compute; discriminate].
  destruct (saved_loggers_restored (L := Toy.yaml_laws) (ML := toy_members_laws) narrow_time (fun _ => true) off_ops [] m
    new_LogManger 100 note E eq_refl note_new_ok) as (t & m' & H1 & H2 & _).
  exists m, t, m'. split; [done|]. split; [exact H1|exact H2].
Defined.
