(* ===== verification/Timer.v ===== *)
(** * Timestamps and timers
    (src/qslary/net/Timestamp.h, Timestamp.cc, Timer.h, Timer.cc, TimerId.h)

    [Timestamp] is its count of microseconds. [TimerManger] keeps the set of
    timers ordered by expiration, the set of active ones, and the one-shot
    timerfd; the timers live on a heap from which [delete] removes them, so a
    dangling access is a fault. The clock is a sequence of readings, one per
    call of [Timestamp::now]; the callbacks are lists of calls back into the
    manager. *)
From stdpp Require Import base list gmap.
From Stdlib Require Import ZArith SpecFloat Ascii String Lia.
From S2P Require Import Prelude CLib.
Open Scope Z_scope.

(** ** Double precision *)
Definition double : Set := spec_float.
Definition double_of_Z (n : Z) : double := binary_normalize 53 1024 n 0 false.
Definition double_mul : double -> double -> double := SFmul 53 1024.
Definition double_pos (x : double) : bool := SFltb (S754_zero false) x.

(** [static_cast<int64_t>]: truncation, undefined when it does not fit. *)
Definition double_trunc (x : double) : outcome Z :=
  match x with
  | S754_zero _ => Ret 0
  | S754_finite s m e =>
      let a := if 0 <=? e then Zpos m * 2 ^ e else Zpos m / 2 ^ (- e) in
      signed 64 (if s then - a else a)
  | S754_infinity _ | S754_nan => Fault Undefined
  end.

(** ** Timestamp *)
Definition kMicroSecondsPerSecond : Z := 1000 * 1000.
Definition invalid : Z := 0.
Definition valid (t : Z) : bool := t >? 0.
Definition secondsSinceEpoch (t : Z) : Z := Z.quot t kMicroSecondsPerSecond.
Definition fromUnixTime (t microseconds : Z) : outcome Z :=
  let! a := signed 64 (t * kMicroSecondsPerSecond) in signed 64 (a + microseconds).

(** [seconds * kMicroSecondsPerSecond] converted to [int64_t]. *)
Definition time_delta (seconds : double) : outcome Z :=
  double_trunc (double_mul seconds (double_of_Z kMicroSecondsPerSecond)).

Definition addTime (timestamp : Z) (seconds : double) : outcome Z :=
  let! delta := time_delta seconds in signed 64 (timestamp + delta).

(** [Timestamp::toString] *)
Definition Timestamp_toString (t : Z) : string :=
  (decimal (Z.quot t kMicroSecondsPerSecond) ++ "." ++
   padded true 6 (Z.rem t kMicroSecondsPerSecond))%string.

(** ** The timerfd *)
Record timespec : Set := mkTimespec { tv_sec : Z; tv_nsec : Z }.

(** [detail::howMuchTimeFromNow] at the clock reading [now]. *)
Definition howMuchTimeFromNow (when now : Z) : outcome timespec :=
  let! d := signed 64 (when - now) in
  let microseconds := if d <? 100 then 100 else d in
  Ret (mkTimespec (Z.quot microseconds kMicroSecondsPerSecond)
         (Z.rem microseconds kMicroSecondsPerSecond * 1000)).

(** [timerfd_settime] rejects a time that is not normalised. *)
Definition timespec_ok (ts : timespec) : bool :=
  (0 <=? tv_sec ts) && (0 <=? tv_nsec ts) && (tv_nsec ts <? 1000000000).

(** ** Timers *)
Record Timer : Set := mkTimer {
  cb_ : Z;                                       (** the callback, by number *)
  expiration_ : Z;
  interval_ : double;
  recurring_ : bool;
  sequence_ : Z
}.

Abbreviation Entry := (Z * Z)%type.          (** expiration, timer *)
Abbreviation ActiveTimer := (Z * Z)%type.    (** timer, sequence *)
Abbreviation TimerId := (Z * Z)%type.        (** timer, sequence *)

(** [operator<] of [std::pair]. *)
Definition entry_lt (a b : Entry) : bool :=
  (a.1 <? b.1) || ((a.1 =? b.1) && (a.2 <? b.2)).

(** [std::set<Entry>] as its sorted list: [insert] reports a duplicate as
    [None]; [erase] of a key gives the count. *)
Fixpoint set_insert (e : Entry) (l : list Entry) : option (list Entry) :=
  match l with
  | [] => Some [e]
  | x :: l' =>
      if entry_lt e x then Some (e :: l)
      else if entry_lt x e then (x ::.) <$> set_insert e l' else None
  end.

Fixpoint set_erase (e : Entry) (l : list Entry) : Z * list Entry :=
  match l with
  | [] => (0, [])
  | x :: l' =>
      if bool_decide (x = e) then (1, l')
      else let '(n, r) := set_erase e l' in (n, x :: r)
  end.

(** The range [begin, lower_bound(s)) and the rest. *)
Fixpoint split_lower (s : Entry) (l : list Entry) : list Entry * list Entry :=
  match l with
  | [] => ([], [])
  | x :: l' => if entry_lt x s then let '(a, b) := split_lower s l' in (x :: a, b) else ([], l)
  end.

(** The manager. [heap] holds the live timers, [armed] the expiration the
    one-shot timerfd was last set for and has not signalled, [ticks] the number
    of clock readings so far, [ran] the callbacks run. *)
Record TimerManger : Set := mkManager {
  heap : gmap Z Timer;
  numCreated : Z;
  timers_ : list Entry;
  activeTimers_ : gset ActiveTimer;
  callingExpiredTimers_ : bool;
  cancelingTimers_ : gset ActiveTimer;
  armed : option Z;
  ticks : nat;
  ran : list Z
}.

Definition new_TimerManger : TimerManger := mkManager ∅ 0 [] ∅ false ∅ None 0 [].

Definition set_heap (m : TimerManger) (h : gmap Z Timer) : TimerManger :=
  mkManager h (numCreated m) (timers_ m) (activeTimers_ m) (callingExpiredTimers_ m)
    (cancelingTimers_ m) (armed m) (ticks m) (ran m).
Definition set_sets (m : TimerManger) (t : list Entry) (a : gset ActiveTimer) : TimerManger :=
  mkManager (heap m) (numCreated m) t a (callingExpiredTimers_ m)
    (cancelingTimers_ m) (armed m) (ticks m) (ran m).
Definition set_canceling (m : TimerManger) (c : gset ActiveTimer) : TimerManger :=
  mkManager (heap m) (numCreated m) (timers_ m) (activeTimers_ m) (callingExpiredTimers_ m)
    c (armed m) (ticks m) (ran m).
Definition set_calling (m : TimerManger) (b : bool) : TimerManger :=
  mkManager (heap m) (numCreated m) (timers_ m) (activeTimers_ m) b
    (cancelingTimers_ m) (armed m) (ticks m) (ran m).
Definition set_armed (m : TimerManger) (a : option Z) : TimerManger :=
  mkManager (heap m) (numCreated m) (timers_ m) (activeTimers_ m) (callingExpiredTimers_ m)
    (cancelingTimers_ m) a (ticks m) (ran m).
Definition tick (m : TimerManger) : TimerManger :=
  mkManager (heap m) (numCreated m) (timers_ m) (activeTimers_ m) (callingExpiredTimers_ m)
    (cancelingTimers_ m) (armed m) (S (ticks m)) (ran m).
Definition log_run (m : TimerManger) (c : Z) : TimerManger :=
  mkManager (heap m) (numCreated m) (timers_ m) (activeTimers_ m) (callingExpiredTimers_ m)
    (cancelingTimers_ m) (armed m) (ticks m) (ran m ++ [c]).

(** [assert(timers_.size() == activeTimers_.size())] *)
Definition sizes_agree (m : TimerManger) : outcome unit :=
  cassert (List.length (timers_ m) =? size (activeTimers_ m))%nat.

(** The calls a callback makes on the manager. *)
Inductive command : Set :=
| RunAt (time : Z) (cb : Z)
| RunAfter (delay : double) (cb : Z)
| RunEvery (interval : double) (cb : Z)
| Cancel (timerId : TimerId).

Section manager.
(** The clock, the allocator behind [new Timer] ([None] when it fails), and the
    callbacks. *)
Context (clock : nat -> Z) (alloc : gmap Z Timer -> option Z) (callback : Z -> list command).

(** [Timestamp::now()] *)
Definition now (m : TimerManger) : Z * TimerManger := (clock (ticks m), tick m).

(** [detail::resetTimerfd] *)
Definition resetTimerfd (m : TimerManger) (expiration : Z) : outcome TimerManger :=
  let '(t, m) := now m in
  let! ts := howMuchTimeFromNow expiration t in
  let! _ := cassert (timespec_ok ts) in
  Ret (set_armed m (Some expiration)).

(** [TimerManger::insert] *)
Definition insert (m : TimerManger) (timer : Z) : outcome (bool * TimerManger) :=
  let! _ := sizes_agree m in
  let! t := deref (heap m !! timer) in
  let when := expiration_ t in
  let earliestChanged :=
    match timers_ m with
    | [] => true
    | it :: _ => when <? it.1
    end in
  match set_insert (when, timer) (timers_ m) with
  | None => Fault AssertFailed
  | Some ts =>
      let! _ := cassert (negb (bool_decide ((timer, sequence_ t) ∈ activeTimers_ m))) in
      let m := set_sets m ts ({[ (timer, sequence_ t) ]} ∪ activeTimers_ m) in
      let! _ := sizes_agree m in
      Ret (earliestChanged, m)
  end.

(** [TimerManger::addTimer] of a timer *)
Definition addTimer_ptr (m : TimerManger) (timer : Z) : outcome TimerManger :=
  let! r := insert m timer in
  let '(earliestChanged, m) := r in
  if earliestChanged then
    let! t := deref (heap m !! timer) in resetTimerfd m (expiration_ t)
  else Ret m.

(** [new Timer(cb, when, interval)]; a failing allocation throws. *)
Definition new_Timer (m : TimerManger) (cb when : Z) (interval : double)
    : outcome (Z * TimerManger) :=
  match alloc (heap m) with
  | None => Fault Thrown
  | Some p =>
      let seq := i64 (numCreated m + 1) in
      Ret (p, mkManager (<[p := mkTimer cb when interval (double_pos interval) seq]> (heap m))
                seq (timers_ m) (activeTimers_ m) (callingExpiredTimers_ m)
                (cancelingTimers_ m) (armed m) (ticks m) (ran m))
  end.

(** [TimerManger::addTimer(cb, when, interval)] *)
Definition addTimer (m : TimerManger) (cb when : Z) (interval : double)
    : outcome (TimerId * TimerManger) :=
  let! r := new_Timer m cb when interval in
  let '(p, m) := r in
  let! m := addTimer_ptr m p in
  let! t := deref (heap m !! p) in
  Ret ((p, sequence_ t), m).

Definition runAt (m : TimerManger) (time cb : Z) : outcome (TimerId * TimerManger) :=
  addTimer m cb time (S754_zero false).
Definition runAfter (m : TimerManger) (delay : double) (cb : Z) : outcome (TimerId * TimerManger) :=
  let '(t, m) := now m in
  let! when := addTime t delay in addTimer m cb when (S754_zero false).
Definition runEvery (m : TimerManger) (interval : double) (cb : Z) : outcome (TimerId * TimerManger) :=
  let '(t, m) := now m in
  let! when := addTime t interval in addTimer m cb when interval.

(** [TimerManger::cancel] *)
Definition cancel (m : TimerManger) (timerId : TimerId) : outcome TimerManger :=
  let! _ := sizes_agree m in
  let! m :=
    (if bool_decide (timerId ∈ activeTimers_ m) then
       let! t := deref (heap m !! timerId.1) in
       let '(n, ts) := set_erase (expiration_ t, timerId.1) (timers_ m) in
       let! _ := cassert (n =? 1) in
       Ret (set_sets (set_heap m (delete timerId.1 (heap m))) ts (activeTimers_ m ∖ {[ timerId ]}))
     else if callingExpiredTimers_ m then
       Ret (set_canceling m ({[ timerId ]} ∪ cancelingTimers_ m))
     else Ret m) in
  let! _ := sizes_agree m in
  Ret m.

Definition run_command (m : TimerManger) (c : command) : outcome TimerManger :=
  match c with
  | RunAt time cb => let! r := runAt m time cb in Ret (snd r)
  | RunAfter delay cb => let! r := runAfter m delay cb in Ret (snd r)
  | RunEvery interval cb => let! r := runEvery m interval cb in Ret (snd r)
  | Cancel timerId => cancel m timerId
  end.

Fixpoint run_commands (m : TimerManger) (cs : list command) : outcome TimerManger :=
  match cs with
  | [] => Ret m
  | c :: cs' => let! m := run_command m c in run_commands m cs'
  end.

(** The loop that takes the expired timers out of [activeTimers_]. *)
Fixpoint erase_active (m : TimerManger) (expired : list Entry) : outcome TimerManger :=
  match expired with
  | [] => Ret m
  | it :: expired' =>
      let! t := deref (heap m !! it.2) in
      let! _ := cassert (bool_decide ((it.2, sequence_ t) ∈ activeTimers_ m)) in
      erase_active (set_sets m (timers_ m) (activeTimers_ m ∖ {[ (it.2, sequence_ t) ]})) expired'
  end.

Definition UINTPTR_MAX : Z := 2 ^ 64 - 1.

(** [TimerManger::getExpired] *)
Definition getExpired (m : TimerManger) (t : Z) : outcome (list Entry * TimerManger) :=
  let! _ := sizes_agree m in
  let '(expired, rest) := split_lower (t, UINTPTR_MAX) (timers_ m) in
  let! _ := cassert (match rest with [] => true | e :: _ => t <? e.1 end) in
  let! m := erase_active (set_sets m rest (activeTimers_ m)) expired in
  let! _ := sizes_agree m in
  Ret (expired, m).

(** [Timer::restart] *)
Definition restart (t : Timer) (time : Z) : outcome Timer :=
  let! e := (if recurring_ t then addTime time (interval_ t) else Ret invalid) in
  Ret (mkTimer (cb_ t) e (interval_ t) (recurring_ t) (sequence_ t)).

(** The loop of [TimerManger::reset]: repeating timers that were not cancelled
    go back, the others are deleted. *)
Fixpoint reset_loop (m : TimerManger) (expired : list Entry) (time : Z) : outcome TimerManger :=
  match expired with
  | [] => Ret m
  | it :: expired' =>
      let! t := deref (heap m !! it.2) in
      let! m :=
        (if recurring_ t && negb (bool_decide ((it.2, sequence_ t) ∈ cancelingTimers_ m)) then
           let! t' := restart t time in
           let! r := insert (set_heap m (<[it.2 := t']> (heap m))) it.2 in Ret (snd r)
         else Ret (set_heap m (delete it.2 (heap m)))) in
      reset_loop m expired' time
  end.

(** [TimerManger::reset] *)
Definition reset (m : TimerManger) (expired : list Entry) (time : Z) : outcome TimerManger :=
  let! m := reset_loop m expired time in
  let! nextExpire :=
    (match timers_ m with
     | [] => Ret invalid
     | e :: _ => let! t := deref (heap m !! e.2) in Ret (expiration_ t)
     end) in
  if valid nextExpire then resetTimerfd m nextExpire else Ret m.

(** The callbacks of the expired timers, in order. *)
Fixpoint run_expired (m : TimerManger) (expired : list Entry) : outcome TimerManger :=
  match expired with
  | [] => Ret m
  | it :: expired' =>
      let! t := deref (heap m !! it.2) in
      let! m := run_commands (log_run m (cb_ t)) (callback (cb_ t)) in
      run_expired m expired'
  end.

(** [TimerManger::handleRead], called when the timerfd has signalled:
    [readTimerfd] reads its counter, after which it is not armed. *)
Definition handleRead (m : TimerManger) : outcome TimerManger :=
  let '(t, m) := now m in
  let! r := getExpired (set_armed m None) t in
  let '(expired, m) := r in
  let m := set_canceling (set_calling m true) ∅ in
  let! m := run_expired m expired in
  reset (set_calling m false) expired t.
End manager.
