(* ===== verification/TimestampFormat.v ===== *)
(** * The text of a timestamp (src/qslary/net/Timestamp.cc)

    [Timestamp::toFormattedString] with what it uses of the C library, gmtime_r, as
    the calendar it computes; and [timeDifference]. *)
From stdpp Require Import base list strings.
From Stdlib Require Import ZArith SpecFloat Lia Ascii String.
From S2P Require Import Prelude CLib.
From S2P Require Import Timer.
Open Scope Z_scope.

(** ** The calendar *)

Definition is_leap (y : Z) : bool := (y mod 4 =? 0) && (negb (y mod 100 =? 0) || (y mod 400 =? 0)).
Definition days_in_month (y m : Z) : Z :=
  if m =? 2 then if is_leap y then 29 else 28
  else if (m =? 4) || (m =? 6) || (m =? 9) || (m =? 11) then 30 else 31.

(** The number of a day, counted from 1 January 1970 *)
Definition leaps (y : Z) : Z := y / 4 - y / 100 + y / 400.
Definition days_before_month (y m : Z) : Z :=
  foldl (fun n k => n + days_in_month y (Z.of_nat k)) 0 (seq 1 (Z.to_nat (m - 1))).
Definition days_before_year (y : Z) : Z := 365 * (y - 1970) + (leaps (y - 1) - leaps 1969).
Definition day_number (y m d : Z) : Z := days_before_year y + days_before_month y m + (d - 1).
Definition valid_date (y m d : Z) : bool := (1 <=? m) && (m <=? 12) && (1 <=? d) && (d <=? days_in_month y m).

(** The date of a day: a guess of the year that is at most one off, and a search
    for the month *)
Definition year_of_day (n : Z) : Z :=
  let y := 1970 + n * 400 / 146097 in
  if n <? days_before_year y then y - 1 else if days_before_year (y + 1) <=? n then y + 1 else y.
Fixpoint month_of_day (y : Z) (fuel : nat) (m doy : Z) : Z * Z :=
  match fuel with
  | O => (m, doy)
  | S fuel => if doy <? days_in_month y m then (m, doy) else month_of_day y fuel (m + 1) (doy - days_in_month y m)
  end.
Definition date_of_day (n : Z) : Z * Z * Z :=
  let y := year_of_day n in
  let '(m, d) := month_of_day y 11 1 (n - days_before_year y) in (y, m, d + 1).

Lemma div_pred y k : 1 < k -> y / k - (y - 1) / k = if y mod k =? 0 then 1 else 0.
Proof.
  intros Hk. pose proof (Z.div_mod y k ltac:(lia)) as Hd. pose proof (Z.mod_pos_bound y k ltac:(lia)) as Hm.
  destruct (Z.eqb_spec (y mod k) 0) as [E|E]; cbv iota.
  - rewrite <- (Z.div_unique_pos (y - 1) k (y / k - 1) (k - 1)); lia.
  - rewrite <- (Z.div_unique_pos (y - 1) k (y / k) (y mod k - 1)); lia.
Qed.

Lemma days_before_year_succ y : days_before_year (y + 1) = days_before_year y + (if is_leap y then 366 else 365).
Proof.
  unfold days_before_year, leaps. replace (y + 1 - 1) with y by lia.
  pose proof (div_pred y 4). pose proof (div_pred y 100). pose proof (div_pred y 400).
  assert (y mod 400 = 0 -> y mod 100 = 0) by (intros; pose proof (Z.div_mod y 400); pose proof (Z.div_mod y 100);
    pose proof (Z.mod_pos_bound y 100); lia).
  assert (y mod 100 = 0 -> y mod 4 = 0) by (intros; pose proof (Z.div_mod y 100); pose proof (Z.div_mod y 4);
    pose proof (Z.mod_pos_bound y 4); lia).
  unfold is_leap. destruct (Z.eqb_spec (y mod 4) 0), (Z.eqb_spec (y mod 100) 0), (Z.eqb_spec (y mod 400) 0);
    cbn [andb orb negb]; lia.
Qed.

Lemma leaps_bounds y : 97 * y - 700 <= 400 * leaps y <= 97 * y + 400.
Proof.
  unfold leaps. pose proof (Z.div_mod y 4). pose proof (Z.mod_pos_bound y 4). pose proof (Z.div_mod y 100).
  pose proof (Z.mod_pos_bound y 100). pose proof (Z.div_mod y 400). pose proof (Z.mod_pos_bound y 400). lia.
Qed.

Lemma year_of_day_bounds n :
  let y := year_of_day n in days_before_year y <= n < days_before_year y + (if is_leap y then 366 else 365).
Proof.
  intros y. rewrite <- days_before_year_succ. unfold y, year_of_day. clear y. set (y := 1970 + n * 400 / 146097).
  assert (days_before_year (y - 1) <= n < days_before_year (y + 1 + 1)) as H.
  { unfold days_before_year. change (leaps 1969) with 477. pose proof (leaps_bounds (y - 1 - 1)).
    pose proof (leaps_bounds (y + 1 + 1 - 1)).
    assert (146097 * (y - 1970) <= n * 400 < 146097 * (y - 1970) + 146097) by (unfold y;
      pose proof (Z.div_mod (n * 400) 146097); pose proof (Z.mod_pos_bound (n * 400) 146097); lia). clearbody y. lia. }
  destruct (Z.ltb_spec n (days_before_year y)); [replace (y - 1 + 1) with y by lia; lia|].
  destruct (Z.leb_spec (days_before_year (y + 1)) n); lia.
Qed.

Lemma days_before_month_succ y m : 1 <= m -> days_before_month y (m + 1) = days_before_month y m + days_in_month y m.
Proof.
  intros Hm. unfold days_before_month. replace (Z.to_nat (m + 1 - 1)) with (S (Z.to_nat (m - 1))) by lia.
  rewrite seq_S, foldl_app. cbn. do 2 f_equal. lia.
Qed.

Lemma month_of_day_spec y fuel m doy :
  1 <= m -> 0 <= doy < days_before_month y (m + 1 + Z.of_nat fuel) - days_before_month y m ->
  let '(m', d) := month_of_day y fuel m doy in
  m <= m' <= m + Z.of_nat fuel /\ 0 <= d < days_in_month y m' /\ days_before_month y m' + d = days_before_month y m + doy.
Proof.
  revert m doy. induction fuel as [|fuel IH]; cbn [month_of_day]; intros m doy Hm Hd.
  - replace (m + 1 + Z.of_nat 0) with (m + 1) in Hd by lia. rewrite days_before_month_succ in Hd by lia. lia.
  - destruct (Z.ltb_spec doy (days_in_month y m)); [lia|].
    specialize (IH (m + 1) (doy - days_in_month y m)). rewrite days_before_month_succ in IH by lia.
    replace (m + 1 + 1 + Z.of_nat fuel) with (m + 1 + Z.of_nat (S fuel)) in IH by lia.
    destruct (month_of_day y fuel (m + 1) (doy - days_in_month y m)) as [m' d]. lia.
Qed.

Lemma date_of_day_ok n :
  let '(y, m, d) := date_of_day n in valid_date y m d = true /\ day_number y m d = n.
Proof.
  unfold date_of_day. pose proof (year_of_day_bounds n) as Hy. cbn in Hy. set (y := year_of_day n) in *.
  assert (days_before_month y 13 = if is_leap y then 366 else 365) as H12.
  { unfold days_before_month, days_in_month. cbn. destruct (is_leap y); reflexivity. }
  pose proof (month_of_day_spec y 11 1 (n - days_before_year y)) as Hm.
  change (1 + 1 + Z.of_nat 11) with 13 in Hm. change (days_before_month y 1) with 0 in Hm.
  destruct (month_of_day y 11 1 _) as [m d]. rewrite H12 in Hm.
  destruct Hm as (H1 & H2 & H3); [lia|destruct (is_leap y); lia|]. unfold valid_date, day_number. split; [|lia].
  repeat (apply andb_true_iff; split); apply Z.leb_le; lia.
Qed.

(** What gmtime_r stores *)
Record tm : Set := mkTm { tm_year : Z; tm_mon : Z; tm_mday : Z; tm_hour : Z; tm_min : Z; tm_sec : Z }.
Definition gmtime_r (seconds : Z) : tm :=
  let '(y, m, d) := date_of_day (seconds / 86400) in
  let s := seconds mod 86400 in
  mkTm (y - 1900) (m - 1) d (s / 3600) (s / 60 mod 60) (s mod 60).

(** ** The text *)

Definition toFormattedString (showMicroseconds : bool) (microSecondsSinceEpoch_ : Z) : string :=
  let seconds := Z.quot microSecondsSinceEpoch_ kMicroSecondsPerSecond in
  let tm_time := gmtime_r seconds in
  (padded false 4 (tm_year tm_time + 1900) ++ padded true 2 (tm_mon tm_time + 1) ++ padded true 2 (tm_mday tm_time) ++ " " ++
   padded true 2 (tm_hour tm_time) ++ ":" ++ padded true 2 (tm_min tm_time) ++ ":" ++ padded true 2 (tm_sec tm_time) ++
   (if showMicroseconds then "." ++ padded true 6 (i32 (Z.rem microSecondsSinceEpoch_ kMicroSecondsPerSecond)) else ""))%string.

Example toFormattedString_example : toFormattedString true 1656633599000042 = "20220630 23:59:59.000042"%string.
Proof. vm_compute. reflexivity. Qed.
(** Before the epoch the seconds are rounded towards it, and the microseconds have
    a sign of their own. *)
Example toFormattedString_negative : toFormattedString true (-1) = "19700101 00:00:00.-00001"%string.
Proof. vm_compute. reflexivity. Qed.

(** [timeDifference]: the seconds between two timestamps *)
Definition timeDifference (high low : Z) : outcome double :=
  let! diff := signed 64 (high - low) in
  Ret (SFdiv 53 1024 (double_of_Z diff) (double_of_Z kMicroSecondsPerSecond)).

(** A difference does not always lead back: the quotient is rounded, and [addTime]
    cuts off what follows the microseconds. *)
Lemma timeDifference_loses :
  (let! seconds := timeDifference 249 0 in addTime 0 seconds) = Ret 248 /\
  (let! seconds := timeDifference 250 0 in addTime 0 seconds) = Ret 250.
Proof. vm_compute. done. Qed.

(** ** Reading it back *)

(** A number in exactly [w] digits *)
Fixpoint fixed (w : nat) (n : Z) (acc : string) : string :=
  match w with O => acc | S w => fixed w (n / 10) (String (digit_char (n mod 10)) acc) end.

Lemma length_fixed w n acc : String.length (fixed w n acc) = (w + String.length acc)%nat.
Proof. revert n acc. induction w as [|w IH]; cbn; intros n acc; [done|]. rewrite IH. cbn. lia. Qed.

Lemma fixed_zero w acc : fixed w 0 acc = (pad "0" w ++ acc)%string.
Proof.
  revert acc. induction w as [|w IH]; intros acc; [done|]. cbn [fixed]. change (0 / 10) with 0. rewrite IH.
  change (digit_char (0 mod 10)) with "0"%char. clear IH. induction w as [|w IH]; [done|].
  change (String "0" (pad "0" w ++ String "0" acc) = String "0" (pad "0" (S w) ++ acc))%string. by rewrite IH.
Qed.

Lemma length_decimal_aux fuel n acc : (String.length acc <= String.length (decimal_aux fuel n acc))%nat.
Proof.
  revert n acc. induction fuel as [|fuel IH]; cbn [decimal_aux]; intros n acc; [done|].
  destruct (n <? 10); cbn; [lia|]. specialize (IH (n / 10) (String (digit_char (n mod 10)) acc)). cbn in IH. lia.
Qed.

Lemma decimal_aux_fixed w fuel n acc :
  (1 <= w <= fuel)%nat -> 0 <= n < 10 ^ Z.of_nat w ->
  (pad "0" (w + String.length acc - String.length (decimal_aux fuel n acc)) ++ decimal_aux fuel n acc)%string = fixed w n acc.
Proof.
  revert fuel n acc. induction w as [|w IH]; intros fuel n acc Hw Hn; [lia|].
  destruct fuel as [|fuel]; [lia|]. cbn [decimal_aux fixed]. set (acc' := String (digit_char (n mod 10)) acc).
  destruct (Z.ltb_spec n 10) as [Hlt|Hge].
  - rewrite (Z.div_small n 10), fixed_zero by lia. f_equal. cbn. f_equal. lia.
  - destruct w as [|w]; [change (10 ^ Z.of_nat 1) with 10 in Hn; lia|].
    rewrite <- (IH fuel (n / 10) acc'); [|lia|].
    + f_equal. f_equal. cbn. lia.
    + rewrite (Nat2Z.inj_succ (S w)), Z.pow_succ_r in Hn by lia.
      pose proof (Z.div_mod n 10). pose proof (Z.mod_pos_bound n 10). lia.
Qed.

Lemma padded_fixed w n : (1 <= w <= 20)%nat -> 0 <= n < 10 ^ Z.of_nat w -> padded true w n = fixed w n "".
Proof.
  intros Hw Hn. unfold padded, decimal. destruct (Z.ltb_spec n 0); [lia|].
  rewrite <- (decimal_aux_fixed w 20 n ""); [|lia|done]. cbn [String.length]. by rewrite Nat.add_0_r.
Qed.

Lemma padded_year n : 1000 <= n < 10000 -> padded false 4 n = fixed 4 n "".
Proof.
  intros Hn. rewrite <- (padded_fixed 4 n) by (change (10 ^ Z.of_nat 4) with 10000; lia).
  unfold padded. destruct (Z.ltb_spec n 0); [lia|].
  assert (String.length (decimal n) = 4%nat) as ->; [|done].
  unfold decimal. destruct (Z.ltb_spec n 0); [lia|]. cbn [decimal_aux].
  assert (10 <= n / 10 /\ 10 <= n / 10 / 10 /\ n / 10 / 10 / 10 < 10) as (H1 & H2 & H3) by (Z.to_euclidean_division_equations; lia).
  destruct (Z.ltb_spec n 10); [lia|]. destruct (Z.ltb_spec (n / 10) 10); [lia|].
  destruct (Z.ltb_spec (n / 10 / 10) 10); [lia|]. destruct (Z.ltb_spec (n / 10 / 10 / 10) 10); [reflexivity|lia].
Qed.

Lemma digits_value_fixed w n acc k :
  0 <= n < 10 ^ Z.of_nat w -> digits_value k (chars (fixed w n acc)) = digits_value (k * 10 ^ Z.of_nat w + n) (chars acc).
Proof.
  revert n acc. induction w as [|w IH]; intros n acc Hn; cbn [fixed].
  - change (10 ^ Z.of_nat 0) with 1 in *. f_equal. lia.
  - rewrite Nat2Z.inj_succ, Z.pow_succ_r in * by lia.
    pose proof (Z.div_mod n 10). pose proof (Z.mod_pos_bound n 10). rewrite IH by lia.
    assert (schar (digit_char (n mod 10)) = 48 + n mod 10 /\ isdigit (48 + n mod 10) = true) as [E1 E2].
    { assert (forall d, 0 <= d < 0 + Z.of_nat 10 -> schar (digit_char d) = 48 + d /\ isdigit (48 + d) = true) as H'
        by (apply Forall_range; repeat constructor). apply H'. lia. }
    change (chars (String (digit_char (n mod 10)) acc)) with (schar (digit_char (n mod 10)) :: chars acc).
    rewrite E1. cbn [digits_value]. rewrite E2. f_equal. lia.
Qed.

(** The number in [w] characters behind the first [k] *)
Definition field (s : string) (k w : nat) : Z := digits_value 0 (chars (substring k w s)).

Lemma field_here w n post : 0 <= n < 10 ^ Z.of_nat w -> field (fixed w n "" ++ post) 0 w = n.
Proof.
  intros Hn. unfold field. replace w with (String.length (fixed w n "")) at 1 by (rewrite length_fixed; cbn; lia).
  rewrite substring_take, (digits_value_fixed w n "" 0) by done. cbn. lia.
Qed.

Lemma field_last w n : 0 <= n < 10 ^ Z.of_nat w -> field (fixed w n "") 0 w = n.
Proof.
  intros Hn. rewrite <- (field_here w n "" Hn) at 2. f_equal. clear Hn. induction (fixed w n "") as [|c s IH]; [done|].
  change (String c s = String c (s ++ "")). by rewrite <- IH.
Qed.

Lemma field_skip a s k w : (String.length a <= k)%nat -> field (a ++ s) k w = field s (k - String.length a) w.
Proof.
  intros H. unfold field. f_equal. f_equal. revert k H. induction a as [|c a IH]; cbn [String.length]; intros k H.
  - by rewrite Nat.sub_0_r.
  - destruct k as [|k]; [lia|]. apply IH. lia.
Qed.

Definition read_formatted (s : string) : Z :=
  ((day_number (field s 0 4) (field s 4 2) (field s 6 2) * 86400 + field s 9 2 * 3600 + field s 12 2 * 60 + field s 15 2)
   * 1000000 + field s 18 6).

Ltac read_field :=
  repeat (rewrite field_skip by (rewrite ?length_fixed; cbn; lia); rewrite ?length_fixed; cbn [String.length Nat.add Nat.sub]);
  (apply field_here || apply field_last); done.

(** A text with the fields where they belong *)
Definition text (y m d h mi se us : Z) : string :=
  (fixed 4 y "" ++ fixed 2 m "" ++ fixed 2 d "" ++ " " ++ fixed 2 h "" ++ ":" ++ fixed 2 mi "" ++ ":" ++ fixed 2 se "" ++
   "." ++ fixed 6 us "")%string.

Lemma read_layout y m d h mi se us :
  0 <= y < 10000 -> 0 <= m < 100 -> 0 <= d < 100 -> 0 <= h < 100 -> 0 <= mi < 100 -> 0 <= se < 100 -> 0 <= us < 1000000 ->
  String.length (text y m d h mi se us) = 24%nat /\
  read_formatted (text y m d h mi se us) = (day_number y m d * 86400 + h * 3600 + mi * 60 + se) * 1000000 + us.
Proof.
  intros. unfold text. split; [rewrite !length_app_string, !length_fixed; reflexivity|]. unfold read_formatted.
  set (T := (fixed 4 y "" ++ _)%string).
  assert (field T 0 4 = y) as -> by (unfold T; read_field). assert (field T 4 2 = m) as -> by (unfold T; read_field).
  assert (field T 6 2 = d) as -> by (unfold T; read_field). assert (field T 9 2 = h) as -> by (unfold T; read_field).
  assert (field T 12 2 = mi) as -> by (unfold T; read_field). assert (field T 15 2 = se) as -> by (unfold T; read_field).
  assert (field T 18 6 = us) as -> by (unfold T; read_field). done.
Qed.

(** Timestamps from the epoch to the end of the year 9999 *)
Definition four_digit_years (t : Z) : Prop := 0 <= t < 253402300800 * 1000000.

Lemma year_bounds n : 0 <= n < 2932897 -> 1970 <= year_of_day n <= 9999.
Proof.
  intros Hn. pose proof (year_of_day_bounds n) as H. cbn in H. set (y := year_of_day n) in *. clearbody y.
  destruct (Z.eq_dec y 1969) as [->|]; [change (days_before_year 1969) with (-365) in H; change (is_leap 1969) with false in H; lia|].
  destruct (Z.eq_dec y 10000) as [->|]; [change (days_before_year 10000) with 2932897 in H; lia|].
  unfold days_before_year in H. change (leaps 1969) with 477 in H. pose proof (leaps_bounds (y - 1)).
  destruct (is_leap y); lia.
Qed.

(** C39: the text of a timestamp from the epoch to the end of the year 9999 is 24
    characters, and read as a date, a time and microseconds it is the timestamp:
    toFormattedString loses nothing. *)
Theorem toFormattedString_round_trip t :
  four_digit_years t ->
  String.length (toFormattedString true t) = 24%nat /\ read_formatted (toFormattedString true t) = t.
Proof.
  unfold four_digit_years. intros Ht. unfold toFormattedString, kMicroSecondsPerSecond.
  rewrite Z.quot_div_nonneg, Z.rem_mod_nonneg by lia. change (1000 * 1000) with 1000000.
  set (s := t / 1000000). set (us := t mod 1000000).
  assert (t = s * 1000000 + us /\ 0 <= us < 1000000 /\ 0 <= s < 253402300800) as (E & Hus & Hs)
    by (unfold s, us; Z.to_euclidean_division_equations; lia).
  clearbody s us. unfold gmtime_r. set (n := s / 86400). set (r := s mod 86400).
  assert (s = n * 86400 + r /\ 0 <= r < 86400 /\ 0 <= n < 2932897) as (Es & Hr & Hn)
    by (unfold n, r; Z.to_euclidean_division_equations; lia).
  clearbody n r. pose proof (date_of_day_ok n) as Hd. pose proof (year_bounds n Hn) as Hy.
  assert ((date_of_day n).1.1 = year_of_day n) as Hy' by (unfold date_of_day; by destruct (month_of_day _ _ _ _)).
  destruct (date_of_day n) as [[y m] d]. cbn in Hy'. subst y. set (y := year_of_day n) in *. clearbody y.
  destruct Hd as [Hv Hd]. unfold valid_date in Hv. bool_hyps.
  assert (days_in_month y m <= 31) by (unfold days_in_month; repeat case_match; lia).
  cbn [tm_year tm_mon tm_mday tm_hour tm_min tm_sec].
  assert (i32 us = us) as -> by (apply wraps_small; [lia|]; unfold in_int; cbn; apply andb_true_iff; split; [apply Z.leb_le|apply Z.ltb_lt]; lia).
  replace (y - 1900 + 1900) with y by lia. replace (m - 1 + 1) with m by lia.
  rewrite padded_year, !padded_fixed by (cbn; Z.to_euclidean_division_equations; lia).
  destruct (read_layout y m d (r / 3600) (r / 60 mod 60) (r mod 60) us) as [Hl Hr']; try (Z.to_euclidean_division_equations; lia).
  split; [exact Hl|]. unfold text in Hr'. rewrite Hr', Hd. Z.to_euclidean_division_equations. lia.
Qed.

Lemma toFormattedString_round_trip_witness :
  String.length (toFormattedString true 1656633599000042) = 24%nat /\
  read_formatted (toFormattedString true 1656633599000042) = 1656633599000042.
Proof. apply toFormattedString_round_trip. unfold four_digit_years. lia. Defined.
