(* ===== verification/TimerCorrect.v ===== *)
(** * Correctness of the timer manager

    The invariant that ties the ordered set, the set of active timers and the
    heap together; that no operation, callbacks included, fails an assertion or
    touches a deleted timer; which callbacks run and in which order; and that
    the timerfd is armed for a waiting timer. *)
From stdpp Require Import base list gmap.
From Stdlib Require Import ZArith SpecFloat Sorting.Sorted Lia.
From S2P Require Import Prelude CLib Timer.
Open Scope Z_scope.
#[local] Set Warnings "-clear-no-such-hyp".

(** ** The ordered set *)
Definition entry_before (a b : Entry) : Prop := entry_lt a b = true.
Abbreviation sorted := (StronglySorted entry_before).

Lemma entry_lt_spec a b : entry_lt a b = true <-> a.1 < b.1 \/ (a.1 = b.1 /\ a.2 < b.2).
Proof.
  unfold entry_lt. rewrite orb_true_iff, andb_true_iff, !Z.ltb_lt, Z.eqb_eq. done.
Qed.

Lemma entry_lt_trans a b c : entry_before a b -> entry_before b c -> entry_before a c.
Proof. unfold entry_before. rewrite !entry_lt_spec. lia. Qed.

Lemma entry_lt_irrefl a : ~ entry_before a a.
Proof. unfold entry_before. rewrite entry_lt_spec. lia. Qed.

Lemma entry_lt_total a b : entry_lt a b = false -> entry_lt b a = false -> a = b.
Proof.
  destruct a as [x p], b as [y q]. intros H1 H2.
  assert (~ (x < y \/ x = y /\ p < q)) as N1 by (rewrite <- (entry_lt_spec (x, p) (y, q)); congruence).
  assert (~ (y < x \/ y = x /\ q < p)) as N2 by (rewrite <- (entry_lt_spec (y, q) (x, p)); congruence).
  f_equal; lia.
Qed.

Lemma set_insert_spec e l :
  sorted l -> e ∉ l ->
  exists l', set_insert e l = Some l' /\ sorted l' /\
    (forall x, x ∈ l' <-> x = e \/ x ∈ l) /\ List.length l' = S (List.length l).
Proof.
  induction 1 as [|x l Hs IH Hx]; intros He; simpl.
  - exists [e]. split_and!; [done|repeat constructor| |done]. intros x. set_solver.
  - apply not_elem_of_cons in He as [Hne He]. destruct (entry_lt e x) eqn:E1.
    + exists (e :: x :: l). split_and!; [done| |intros; set_solver|done].
      constructor; [by constructor|]. constructor; [done|].
      rewrite Forall_forall in *. intros y Hy. by apply (entry_lt_trans _ x), Hx.
    + destruct (entry_lt x e) eqn:E2; [|by destruct Hne; apply entry_lt_total].
      destruct (IH He) as (l' & -> & Hs' & Hm & Hl). exists (x :: l'). simpl.
      split_and!; [done| |intros; set_solver|by rewrite Hl].
      constructor; [done|]. rewrite Forall_forall in *. intros y [->|Hy]%Hm; auto.
Qed.

Lemma set_erase_spec e l :
  sorted l -> e ∈ l ->
  exists l', set_erase e l = (1, l') /\ sorted l' /\
    (forall x, x ∈ l' <-> x ∈ l /\ x <> e) /\ List.length l = S (List.length l').
Proof.
  induction 1 as [|x l Hs IH Hx]; intros He; simpl; [by apply not_elem_of_nil in He|].
  rewrite Forall_forall in Hx. case_bool_decide as E.
  - subst x. exists l. split_and!; [done|done| |done]. intros y. rewrite elem_of_cons.
    split; [|intros [[->|?] ?]; done]. intros Hy. split; [by right|]. intros ->.
    by apply (entry_lt_irrefl e), Hx.
  - apply elem_of_cons in He as [->|He]; [done|].
    destruct (IH He) as (l' & -> & Hs' & Hm & Hl). exists (x :: l').
    split_and!; [done| | |simpl; by rewrite Hl].
    + constructor; [done|]. rewrite Forall_forall. intros y [Hy _]%Hm. auto.
    + intros y. rewrite !elem_of_cons, Hm. split; [|tauto]. intros [->|[? ?]]; auto.
Qed.

(** The entries up to a time, when no pointer reaches the sentinel. *)
Lemma split_lower_spec t l :
  sorted l -> (forall e p, (e, p) ∈ l -> p < UINTPTR_MAX) ->
  exists a b, split_lower (t, UINTPTR_MAX) l = (a, b) /\ l = a ++ b /\ sorted a /\ sorted b /\
    (forall x, x ∈ a -> x.1 <= t) /\ (forall x, x ∈ b -> t < x.1).
Proof.
  induction 1 as [|[e p] l Hs IH Hx]; intros Hp; simpl.
  - exists [], []. split_and!; try done; try constructor; by intros ? ?%not_elem_of_nil.
  - specialize (Hp e p ltac:(left)) as Hpp.
    destruct IH as (a & b & E & -> & Ha & Hb & HA & HB).
    { intros e' p' ?. apply (Hp e'). by right. }
    destruct (entry_lt (e, p) (t, UINTPTR_MAX)) eqn:El.
    + rewrite E. apply entry_lt_spec in El. exists ((e, p) :: a), b.
      split_and!; [done|done| |done| |done].
      * constructor; [done|]. apply Forall_app in Hx. tauto.
      * intros x [->|Hin]%elem_of_cons; simpl in *; [lia|auto].
    + assert (t < e) as He.
      { destruct (Z.ltb_spec t e); [done|]. exfalso.
        assert (entry_lt (e, p) (t, UINTPTR_MAX) = true) by (apply entry_lt_spec; simpl; lia).
        congruence. }
      exists [], ((e, p) :: a ++ b).
      split_and!; [done|done|constructor|by constructor|by intros ? ?%not_elem_of_nil|].
      rewrite Forall_forall in Hx. intros x [->|Hin%Hx]%elem_of_cons; [done|].
      apply entry_lt_spec in Hin. simpl in Hin. lia.
Qed.

(** ** The invariant *)

(** Times and intervals that do not overflow. *)
Definition time_ok (t : Z) : Prop := - 2 ^ 62 <= t < 2 ^ 63.
Definition interval_ok (d : double) : bool :=
  match time_delta d with
  | Ret k => (- 2 ^ 62 <=? k) && (k <? 2 ^ 62) && implb (double_pos d) (0 <=? k)
  | Fault _ => false
  end.

Definition command_ok (c : command) : bool :=
  match c with
  | RunAt t _ => (- 2 ^ 62 <=? t) && (t <? 2 ^ 63)
  | RunAfter d _ | RunEvery d _ => interval_ok d
  | Cancel _ => true
  end.

(** [pend] are the timers taken out of the sets whose callbacks are still to
    be run or that are still to be put back. *)
Record Inv (pend : gset Z) (m : TimerManger) : Prop := mkInv {
  i_sorted : sorted (timers_ m);
  i_entry e p : (e, p) ∈ timers_ m -> exists t, heap m !! p = Some t /\ expiration_ t = e;
  i_active p s : (p, s) ∈ activeTimers_ m <->
    exists e t, (e, p) ∈ timers_ m /\ heap m !! p = Some t /\ sequence_ t = s;
  i_heap p : is_Some (heap m !! p) <-> (exists e, (e, p) ∈ timers_ m) \/ p ∈ pend;
  i_apart e p : (e, p) ∈ timers_ m -> p ∉ pend;
  i_timer p t : heap m !! p = Some t ->
    0 < p < UINTPTR_MAX /\ time_ok (expiration_ t) /\
    (recurring_ t = true -> interval_ok (interval_ t) = true /\ double_pos (interval_ t) = true);
  i_size : List.length (timers_ m) = size (activeTimers_ m)
}.

(** Every waiting timer is covered by the timerfd, or expires at [lo] or later
    while the manager handles a signal at time [lo]. *)
Definition covered (lo : option Z) (m : TimerManger) : Prop :=
  forall e p, (e, p) ∈ timers_ m ->
    (exists a, armed m = Some a /\ a <= e) \/ (exists t, lo = Some t /\ t <= e).

(** The timers of [pend] are not touched. *)
Definition keeps (pend : gset Z) (m m' : TimerManger) : Prop :=
  forall p, p ∈ pend -> heap m' !! p = heap m !! p.

Lemma sizes_agree_ok pend m : Inv pend m -> sizes_agree m = Ret tt.
Proof. intros H. unfold sizes_agree. by rewrite (i_size _ _ H), Nat.eqb_refl. Qed.

Lemma size_insert `{Countable A} (x : A) (X : gset A) : x ∉ X -> size ({[x]} ∪ X) = S (size X).
Proof. intros Hx. rewrite size_union by set_solver. by rewrite size_singleton. Qed.

Lemma size_remove `{Countable A} (x : A) (X : gset A) : x ∈ X -> size X = S (size (X ∖ {[x]})).
Proof.
  intros Hx. rewrite <- (size_insert x) by set_solver. f_equal.
  apply set_eq. intros y. destruct (decide (y = x)); set_solver.
Qed.

(** An entry determines its timer's expiration, so a pointer occurs once. *)
Lemma entry_unique pend m e e' p : Inv pend m -> (e, p) ∈ timers_ m -> (e', p) ∈ timers_ m -> e = e'.
Proof.
  intros H (t & Ht & <-)%(i_entry _ _ H) (t' & Ht' & <-)%(i_entry _ _ H). congruence.
Qed.

(** ** Operations *)
Section operations.
Context (clock : nat -> Z) (alloc : gmap Z Timer -> option Z) (callback : Z -> list command).
Context (Hclock : forall n, 0 < clock n < 2 ^ 62).
Context (Halloc : forall h p, alloc h = Some p -> h !! p = None /\ 0 < p < UINTPTR_MAX).
Context (Hcb : forall c, forallb command_ok (callback c) = true).

Lemma signed64_ok x : - 2 ^ 63 <= x < 2 ^ 63 -> signed 64 x = Ret x.
Proof.
  intros Hx. unfold signed, in_int.
  rewrite (proj2 (Z.leb_le _ _)), (proj2 (Z.ltb_lt _ _)) by lia. done.
Qed.

Lemma interval_ok_delta d :
  interval_ok d = true ->
  exists k, time_delta d = Ret k /\ - 2 ^ 62 <= k < 2 ^ 62 /\ (double_pos d = true -> 0 <= k).
Proof.
  unfold interval_ok. destruct (time_delta d) as [k|]; [|done]. intros ?. bool_hyps.
  exists k. split_and!; [done|lia|lia|]. intros Hp.
  rewrite Hp in *. simpl in *. bool_hyps. done.
Qed.

(** Adding an interval to a clock reading. *)
Lemma addTime_ok n d :
  interval_ok d = true ->
  exists e, addTime (clock n) d = Ret e /\ time_ok e /\ (double_pos d = true -> clock n <= e).
Proof.
  intros (k & Hk & Hr & Hp)%interval_ok_delta. pose proof (Hclock n).
  exists (clock n + k). unfold addTime. rewrite Hk. cbn [obind].
  rewrite signed64_ok by lia. unfold time_ok. split_and!; [done|lia|lia|]. intros ?%Hp. lia.
Qed.

Lemma resetTimerfd_ok m e :
  time_ok e -> resetTimerfd clock m e = Ret (set_armed (tick m) (Some e)).
Proof.
  intros He. unfold resetTimerfd, now, howMuchTimeFromNow. unfold time_ok in He.
  pose proof (Hclock (ticks m)). rewrite signed64_ok by lia. cbn [obind].
  set (d := if _ <? _ then _ else _).
  assert (100 <= d) by (unfold d; destruct (Z.ltb_spec (e - clock (ticks m)) 100); lia).
  unfold timespec_ok, kMicroSecondsPerSecond. simpl tv_sec. simpl tv_nsec.
  pose proof (Z.quot_pos d (1000 * 1000) ltac:(lia) ltac:(lia)).
  pose proof (Z.rem_bound_pos d (1000 * 1000) ltac:(lia) ltac:(lia)).
  rewrite !(proj2 (Z.leb_le _ _)), (proj2 (Z.ltb_lt _ _)) by lia. done.
Qed.

(** Inserting a pending timer. *)
Lemma insert_ok pend m p t :
  Inv ({[p]} ∪ pend) m -> p ∉ pend -> heap m !! p = Some t ->
  exists ec ts, let m' := set_sets m ts ({[ (p, sequence_ t) ]} ∪ activeTimers_ m) in
    insert m p = Ret (ec, m') /\ Inv pend m' /\
    (forall x, x ∈ ts <-> x = (expiration_ t, p) \/ x ∈ timers_ m) /\
    (if ec then forall x, x ∈ timers_ m -> expiration_ t < x.1
     else exists x, x ∈ timers_ m /\ x.1 <= expiration_ t).
Proof.
  intros H Hp Ht.
  assert (forall e, (e, p) ∉ timers_ m) as Hnot.
  { intros e He. apply (i_apart _ _ H) in He. set_solver. }
  assert ((p, sequence_ t) ∉ activeTimers_ m) as Hact.
  { rewrite (i_active _ _ H). intros (e & t' & He & _). by apply (Hnot e). }
  destruct (set_insert_spec (expiration_ t, p) (timers_ m) (i_sorted _ _ H) (Hnot _))
    as (ts & E & Hs & Hm & Hl).
  assert (List.length ts = size ({[ (p, sequence_ t) ]} ∪ activeTimers_ m)) as Hsz.
  { rewrite Hl, (i_size _ _ H). symmetry. by apply size_insert. }
  eexists _, ts. unfold insert. rewrite (sizes_agree_ok _ _ H), Ht. cbn [obind deref].
  rewrite E. unfold cassert. rewrite bool_decide_eq_false_2 by done. cbn [negb obind].
  unfold sizes_agree. cbn [timers_ activeTimers_ set_sets]. rewrite Hsz, Nat.eqb_refl.
  cbn [cassert obind]. split_and!; [reflexivity| |done|].
  - constructor; cbn [timers_ activeTimers_ heap set_sets].
    + done.
    + intros e q [[= -> ->]|Hq]%Hm; [eauto|]. by apply (i_entry _ _ H).
    + intros q s. rewrite elem_of_union, elem_of_singleton, (i_active _ _ H). split.
      * intros [[= -> ->]|(e & t' & He & ?)]; [|exists e, t'; rewrite Hm; auto].
        exists (expiration_ t), t. rewrite Hm. auto.
      * intros (e & t' & [[= -> ->]|He]%Hm & Ht' & <-); [left; congruence|eauto 10].
    + intros q. rewrite (i_heap _ _ H). setoid_rewrite Hm. split.
      * intros [(e & He)|Hq]; [left; eauto|]. apply elem_of_union in Hq as [->%elem_of_singleton|?];
          [left; eauto|auto].
      * intros [(e & [[= -> ->]|He])|?]; [right; set_solver|left; eauto|right; set_solver].
    + intros e q [[= -> ->]|Hq]%Hm; [done|]. apply (i_apart _ _ H) in Hq. set_solver.
    + apply (i_timer _ _ H).
    + done.
  - pose proof (i_sorted _ _ H) as Hsrt. destruct (timers_ m) as [|x l] eqn:El.
    { by intros y ?%not_elem_of_nil. }
    destruct (Z.ltb_spec (expiration_ t) x.1).
    + intros y [->|Hy]%elem_of_cons; [done|]. apply StronglySorted_inv in Hsrt as [_ Hx].
      rewrite Forall_forall in Hx. apply Hx, entry_lt_spec in Hy. lia.
    + exists x. split; [by left|done].
Qed.

(** [new Timer] makes a pending timer. *)
Lemma new_Timer_ok pend m cb when interval :
  Inv pend m -> time_ok when ->
  (double_pos interval = true -> interval_ok interval = true) ->
  safe (exists h, alloc h = None) (new_Timer alloc m cb when interval) (fun '(p, m') =>
  let t := mkTimer cb when interval (double_pos interval) (i64 (numCreated m + 1)) in
  Inv ({[p]} ∪ pend) m' /\ (p ∉ pend) /\ heap m' = <[p := t]> (heap m) /\ heap m !! p = None /\
  timers_ m' = timers_ m /\ armed m' = armed m /\ ran m' = ran m /\
  cancelingTimers_ m' = cancelingTimers_ m).
Proof.
  intros H Hw Hi. unfold new_Timer.
  destruct (alloc (heap m)) as [p|] eqn:Ep; [|split; [done|by exists (heap m)]].
  destruct (Halloc (heap m) p Ep) as [Hnone Hrange]. simpl.
  assert (p ∉ pend) as Hp.
  { intros Hp. assert (is_Some (heap m !! p)) as [? ?] by (apply (i_heap _ _ H); auto). congruence. }
  assert (forall e, (e, p) ∉ timers_ m) as Hnot.
  { intros e He. apply (i_entry _ _ H) in He as (? & ? & _). congruence. }
  split_and!; try done. constructor; cbn [timers_ activeTimers_ heap].
  - apply (i_sorted _ _ H).
  - intros e q Hq. assert (q <> p) by (intros ->; by apply (Hnot e)).
    rewrite lookup_insert_ne by done. by apply (i_entry _ _ H).
  - intros q s. rewrite (i_active _ _ H). split; intros (e & t & He & Ht & Hs); exists e, t;
      assert (q <> p) by (intros ->; by apply (Hnot e)); rewrite lookup_insert_ne in * by done; auto.
  - intros q. destruct (decide (q = p)) as [->|Hne].
    + rewrite lookup_insert_eq. split; [intros _; right; set_solver|eauto].
    + rewrite lookup_insert_ne, (i_heap _ _ H) by done. set_solver.
  - intros e q Hq. assert (q <> p) by (intros ->; by apply (Hnot e)).
    apply (i_apart _ _ H) in Hq. set_solver.
  - intros q t. destruct (decide (q = p)) as [->|Hne].
    + rewrite lookup_insert_eq. intros [= <-]. simpl. auto.
    + rewrite lookup_insert_ne by done. apply (i_timer _ _ H).
  - apply (i_size _ _ H).
Qed.

(** The timerfd covers a timer that was just inserted. *)
Lemma covered_insert lo m m' e p (ec : bool) :
  covered lo m -> (forall x, x ∈ timers_ m' <-> x = (e, p) \/ x ∈ timers_ m) ->
  (if ec then forall x, x ∈ timers_ m -> e < x.1 else exists x, x ∈ timers_ m /\ x.1 <= e) ->
  armed m' = (if ec then Some e else armed m) -> covered lo m'.
Proof.
  intros Hc Hm Hec Ha e' p' Hin. rewrite Ha. destruct ec.
  - left. exists e. split; [done|]. apply Hm in Hin as [[= -> ->]|Hin]; [lia|].
    apply Hec in Hin. simpl in Hin. lia.
  - apply Hm in Hin as [[= -> ->]|Hin]; [|by apply (Hc e' p')].
    destruct Hec as ([e1 p1] & Hx & Hle). simpl in Hle.
    destruct (Hc e1 p1 Hx) as [(a & ? & ?)|(t & ? & ?)]; [left; exists a|right; exists t];
      split; done || lia.
Qed.

(** What every call from a callback preserves. *)
Record preserves (pend : gset Z) (lo : option Z) (m m' : TimerManger) : Prop := mkPreserves {
  p_inv : Inv pend m';
  p_keeps : keeps pend m m';
  p_covered : covered lo m -> covered lo m';
  p_ran : ran m' = ran m;
  p_canceling : cancelingTimers_ m ⊆ cancelingTimers_ m'
}.

(** Allocation can fail. *)
Definition oom : Prop := exists h, alloc h = None.

Lemma addTimer_ok pend lo m cb when interval :
  Inv pend m -> time_ok when ->
  (double_pos interval = true -> interval_ok interval = true) ->
  safe oom (addTimer clock alloc m cb when interval) (fun '(id, m') =>
    preserves pend lo m m' /\
    (forall x, x ∈ timers_ m' <-> x = (when, id.1) \/ x ∈ timers_ m) /\
    heap m !! id.1 = None /\
    heap m' !! id.1 = Some (mkTimer cb when interval (double_pos interval) id.2)).
Proof.
  intros H Hw Hi. unfold addTimer.
  apply (safe_bind _ _ _ _ _ (new_Timer_ok pend m cb when interval H Hw Hi)).
  intros [p m1]. set (t := mkTimer cb when interval _ _). cbv beta zeta.
  intros (H1 & Hp & Hh & Hnone & Ht & Ha & Hr & Hc).
  assert (heap m1 !! p = Some t) as Hpt by (by rewrite Hh, lookup_insert_eq).
  destruct (insert_ok pend m1 p t H1 Hp Hpt) as (ec & ts & E & H2 & Hm & Hec).
  assert (forall q, q ∈ pend -> heap m1 !! q = heap m !! q) as Hk.
  { intros q Hq. rewrite Hh, lookup_insert_ne; [done|]. by intros ->. }
  rewrite Ht in Hm, Hec. unfold addTimer_ptr. rewrite E. cbn [obind]. destruct ec.
  - cbn [heap set_sets]. rewrite Hpt. cbn [deref obind].
    rewrite resetTimerfd_ok by done. cbn [obind heap set_armed tick set_sets].
    rewrite Hpt. cbn [deref obind safe fst snd].
    split; [|split; [exact Hm|split; [exact Hnone|exact Hpt]]].
    constructor; cbn [ran cancelingTimers_ set_armed tick set_sets]; [by destruct H2|done| |done|by rewrite Hc].
    intros Hcov. by apply (covered_insert lo m _ when p true).
  - cbn [obind heap set_sets]. rewrite Hpt. cbn [deref obind safe fst snd].
    split; [|split; [exact Hm|split; [exact Hnone|exact Hpt]]].
    constructor; cbn [ran cancelingTimers_ set_sets]; [done|done| |done|by rewrite Hc].
    intros Hcov. by apply (covered_insert lo m _ when p false).
Qed.

Lemma Inv_tick pend m : Inv pend m -> Inv pend (tick m).
Proof. by intros []. Qed.

(** Without the entry of a timer, and without the timer. *)
Lemma without_entry_inv pend m p s ts :
  Inv pend m -> (p, s) ∈ activeTimers_ m -> p ∉ pend -> sorted ts ->
  (forall t1, heap m !! p = Some t1 -> sequence_ t1 = s) ->
  (forall e' q, (e', q) ∈ ts <-> (e', q) ∈ timers_ m /\ q <> p) -> List.length (timers_ m) = S (List.length ts) ->
  Inv pend (set_sets (set_heap m (delete p (heap m))) ts (activeTimers_ m ∖ {[(p, s)]})).
Proof.
  clear Hclock Halloc Hcb clock alloc callback. intros H Hin Hpend Hsrt Hs Hm' Hl.
  constructor; cbn [timers_ activeTimers_ heap set_sets set_heap].
  + done.
  + intros e' q [Hq Hne]%Hm'. rewrite lookup_delete_ne by done. by apply (i_entry _ _ H).
  + intros q s'. rewrite elem_of_difference, elem_of_singleton, (i_active _ _ H). split.
    * intros [(e1 & t1 & He1 & Ht1 & Hs1) Hne].
      assert (q <> p) by (intros ->; destruct Hne; f_equal; rewrite <- Hs1; by apply Hs).
      exists e1, t1. rewrite Hm', lookup_delete_ne by done. auto.
    * intros (e1 & t1 & [He1 Hne]%Hm' & Ht1 & Hs1). rewrite lookup_delete_ne in Ht1 by done.
      split; [eauto|]. by intros [= -> _].
  + intros q. destruct (decide (q = p)) as [->|Hne].
    * rewrite lookup_delete_eq. split; [by intros []|].
      intros [(e1 & [_ ?]%Hm')|?]; done.
    * rewrite lookup_delete_ne, (i_heap _ _ H) by done. setoid_rewrite Hm'. naive_solver.
  + intros e' q [Hq _]%Hm'. by apply (i_apart _ _ H e').
  + intros q t1 [_ Ht1]%lookup_delete_Some. by apply (i_timer _ _ H).
  + pose proof (size_remove (p, s) (activeTimers_ m) Hin). pose proof (i_size _ _ H). lia.
Qed.

Lemma cancel_ok pend lo m id :
  Inv pend m ->
  exists m', cancel m id = Ret m' /\ preserves pend lo m m' /\
    (forall e p, (e, p) ∈ timers_ m' <->
       (e, p) ∈ timers_ m /\ ~ (p = id.1 /\ id ∈ activeTimers_ m)) /\
    (id ∉ activeTimers_ m -> callingExpiredTimers_ m = true -> id ∈ cancelingTimers_ m').
Proof.
  clear Hclock Halloc Hcb clock alloc callback. intros H. unfold cancel.
  rewrite (sizes_agree_ok _ _ H). cbn [obind]. case_bool_decide as Hin.
  - destruct id as [p s]. pose proof (proj1 (i_active _ _ H p s) Hin) as (e & t & He & Ht & Hs).
    destruct (i_entry _ _ H e p He) as (t' & Ht' & Hexp).
    assert (t' = t) as -> by congruence. cbn [fst]. rewrite Ht. cbn [deref obind]. rewrite Hexp.
    destruct (set_erase_spec (e, p) (timers_ m) (i_sorted _ _ H) He) as (ts & -> & Hsrt & Hm & Hl).
    cbn [obind]. change (1 =? 1) with true. cbn [cassert obind].
    set (m' := set_sets _ ts _).
    assert (forall e' q, (e', q) ∈ ts <-> (e', q) ∈ timers_ m /\ q <> p) as Hm'.
    { intros e' q. rewrite Hm. split; intros [Hq Hne]; (split; [done|]).
      - intros ->. destruct Hne. f_equal. by apply (entry_unique pend m e' e p).
      - intros [= -> ->]. done. }
    assert (p ∉ pend) as Hpend by (by apply (i_apart _ _ H e)).
    assert (Inv pend m') as HI
      by (apply (without_entry_inv pend m p s ts); try done; intros; congruence).
    rewrite (sizes_agree_ok pend m' HI). cbn [obind]. exists m'.
    split; [done|]. split; [|split; [|done]].
    + constructor; [done| | |done|done].
      * intros q Hq. unfold m'. cbn [heap set_sets set_heap]. rewrite lookup_delete_ne; [done|].
        by intros ->.
      * intros Hcov e' q Hq. unfold m' in *. cbn [timers_ armed set_sets set_heap] in *.
        apply Hm' in Hq as [Hq _]. by apply (Hcov e' q).
    + intros e' q. unfold m'. cbn [timers_ set_sets set_heap]. rewrite Hm'. simpl. tauto.
  - destruct (callingExpiredTimers_ m) eqn:Ec; cbn [obind].
    + assert (Inv pend (set_canceling m ({[id]} ∪ cancelingTimers_ m))) as HI by (by destruct H).
      rewrite (sizes_agree_ok _ _ HI). cbn [obind]. eexists. split; [reflexivity|].
      split; [|split; [intros; simpl; tauto|intros; simpl; set_solver]].
      constructor; [done|done|done|done|simpl; set_solver].
    + rewrite (sizes_agree_ok _ _ H). cbn [obind]. eexists. split; [reflexivity|].
      split; [by constructor|split; [intros; tauto|done]].
Qed.

Lemma zero_not_recurring : double_pos (S754_zero false) = true -> interval_ok (S754_zero false) = true.
Proof. discriminate. Qed.

Lemma run_command_ok pend lo m c :
  Inv pend m -> command_ok c = true ->
  safe oom (run_command clock alloc m c) (preserves pend lo m).
Proof.
  intros H Hc. destruct c as [t cb|d cb|d cb|id]; cbn [run_command command_ok] in *.
  - bool_hyps. refine (safe_bind _ _ _ _ _ (addTimer_ok pend lo m cb t _ H _ zero_not_recurring) _);
      [unfold time_ok; lia|]. by intros [id m'] [? _].
  - destruct (addTime_ok (ticks m) d Hc) as (e & E & He & _).
    unfold runAfter, now. rewrite E. cbn [obind].
    apply (safe_bind _ _ _ _ _ (addTimer_ok pend lo (tick m) cb e _ (Inv_tick _ _ H) He zero_not_recurring)).
    intros [id m'] [[] _]. by constructor.
  - destruct (addTime_ok (ticks m) d Hc) as (e & E & He & _).
    unfold runEvery, now. rewrite E. cbn [obind].
    apply (safe_bind _ _ _ _ _ (addTimer_ok pend lo (tick m) cb e d (Inv_tick _ _ H) He (fun _ => Hc))).
    intros [id m'] [[] _]. by constructor.
  - destruct (cancel_ok pend lo m id H) as (m' & -> & Hp & _). done.
Qed.

Lemma preserves_trans pend lo m1 m2 m3 :
  preserves pend lo m1 m2 -> preserves pend lo m2 m3 -> preserves pend lo m1 m3.
Proof.
  intros [? K1 C1 R1 N1] [? K2 C2 R2 N2]. constructor; [done| |auto|congruence|set_solver].
  intros p Hp. by rewrite K2, K1.
Qed.

Lemma run_commands_ok pend lo m cs :
  Inv pend m -> forallb command_ok cs = true ->
  safe oom (run_commands clock alloc m cs) (preserves pend lo m).
Proof.
  revert m. induction cs as [|c cs IH]; intros m H Hcs; cbn [run_commands].
  - by constructor.
  - simpl in Hcs. apply andb_true_iff in Hcs as [Hc Hcs].
    apply (safe_bind _ _ _ _ _ (run_command_ok pend lo m c H Hc)). intros m1 H1.
    apply (safe_mono _ _ _ _ (IH m1 (p_inv _ _ _ _ H1) Hcs)). intros m2.
    by apply preserves_trans.
Qed.

(** ** Handling a signal *)

(** The timers of a list of entries. *)
Definition ptrs (l : list Entry) : gset Z := list_to_set (map snd l).

Lemma elem_of_ptrs p l : p ∈ ptrs l <-> exists e, (e, p) ∈ l.
Proof.
  unfold ptrs. rewrite elem_of_list_to_set, list_elem_of_fmap. split.
  - intros ([e q] & -> & H). eauto.
  - intros [e H]. exists (e, p). auto.
Qed.

(** Without the first entry, whose timer is now pending. *)
Lemma taken_entry_inv pend m e p l t :
  Inv pend (set_sets m ((e, p) :: l ++ timers_ m) (activeTimers_ m)) ->
  heap m !! p = Some t -> (p, sequence_ t) ∈ activeTimers_ m ->
  Inv ({[p]} ∪ pend) (set_sets m (l ++ timers_ m) (activeTimers_ m ∖ {[(p, sequence_ t)]})).
Proof.
  intros H Ht Hact.
  assert (forall e', (e', p) ∉ l ++ timers_ m) as Hnot.
  { intros e' Hin. pose proof (i_sorted _ _ H) as Hs. cbn [timers_ set_sets app] in Hs.
    apply StronglySorted_inv in Hs as [_ Hs]. rewrite Forall_forall in Hs.
    assert (e = e') as <-.
    { apply (entry_unique _ _ e e' p H); cbn [timers_ set_sets app]; [by left|by right]. }
    by apply (entry_lt_irrefl (e, p)), Hs. }
  constructor; cbn [timers_ activeTimers_ heap set_sets].
  + pose proof (i_sorted _ _ H) as Hs. by apply StronglySorted_inv in Hs as [Hs _].
  + intros e' q Hq. apply (i_entry _ _ H). by right.
  + intros q s. rewrite elem_of_difference, elem_of_singleton.
    rewrite (i_active _ _ H q s). cbn [timers_ heap set_sets app]. split.
    * intros [(e1 & t1 & [[= -> ->]|Hin]%elem_of_cons & Ht1 & Hs1) Hne]; [|eauto 10].
      destruct Hne. congruence.
    * intros (e1 & t1 & Hin & Ht1 & Hs1). split.
      -- exists e1, t1. split_and!; [by right|done|done].
      -- intros [= -> _]. by apply (Hnot e1).
  + intros q. rewrite (i_heap _ _ H q). cbn [timers_ set_sets app]. split.
    * intros [(e1 & [[= -> ->]|Hin]%elem_of_cons)|Hq]; [right; set_solver|eauto|right; set_solver].
    * intros [(e1 & Hin)|[->%elem_of_singleton|Hq]%elem_of_union];
        [left; exists e1; by right|left; exists e; by left|by right].
  + intros e1 q Hin. apply not_elem_of_union. split.
    * intros ->%elem_of_singleton. by apply (Hnot e1).
    * apply (i_apart _ _ H e1). by right.
  + apply (i_timer _ _ H).
  + pose proof (i_size _ _ H) as Hsz. cbn [timers_ activeTimers_ set_sets app List.length] in Hsz.
    rewrite (size_remove _ _ Hact) in Hsz. lia.
Qed.

(** Taking expired entries out of the active set, one by one. *)
Lemma erase_active_ok pend m l :
  Inv pend (set_sets m (l ++ timers_ m) (activeTimers_ m)) ->
  exists act, erase_active m l = Ret (set_sets m (timers_ m) act) /\
    Inv (ptrs l ∪ pend) (set_sets m (timers_ m) act).
Proof.
  revert pend m. induction l as [|[e p] l IH]; intros pend m H.
  - exists (activeTimers_ m). destruct m; simpl in *. split; [done|].
    replace (ptrs [] ∪ pend) with pend by set_solver. done.
  - cbn [erase_active snd].
    destruct (i_entry _ _ H e p) as (t & Ht & He); [by left|].
    assert ((p, sequence_ t) ∈ activeTimers_ m) as Hact.
    { apply (i_active _ _ H). exists e, t. cbn [timers_ set_sets]. split_and!; [by left|done|done]. }
    cbn [heap set_sets] in Ht. rewrite Ht. cbn [deref obind].
    rewrite bool_decide_eq_true_2 by done. cbn [cassert obind].
    set (m1 := set_sets m (timers_ m) _).
    assert (Inv ({[p]} ∪ pend) (set_sets m1 (l ++ timers_ m1) (activeTimers_ m1))) as H1
      by (by apply (taken_entry_inv pend m e p l t)).
    destruct (IH ({[p]} ∪ pend) m1 H1) as (act & E & H2). exists act. split; [exact E|].
    replace (ptrs ((e, p) :: l) ∪ pend) with (ptrs l ∪ ({[p]} ∪ pend)); [exact H2|].
    unfold ptrs. simpl. set_solver.
Qed.

(** [getExpired] takes out exactly the entries up to the time, in order. *)
Lemma getExpired_ok m t :
  Inv ∅ m ->
  exists expired m', getExpired m t = Ret (expired, m') /\
    timers_ m = expired ++ timers_ m' /\
    (forall x, x ∈ expired -> x.1 <= t) /\ (forall x, x ∈ timers_ m' -> t < x.1) /\
    Inv (ptrs expired) m' /\ m' = set_sets m (timers_ m') (activeTimers_ m').
Proof.
  intros H. unfold getExpired. rewrite (sizes_agree_ok _ _ H). cbn [obind].
  destruct (split_lower_spec t (timers_ m) (i_sorted _ _ H)) as (a & b & -> & E & Ha & Hb & HA & HB).
  { intros e p He. destruct (i_entry _ _ H e p He) as (tm & Htm & _).
    apply (i_timer _ _ H) in Htm. lia. }
  destruct (erase_active_ok ∅ (set_sets m b (activeTimers_ m)) a) as (act & E2 & H2).
  { cbn [timers_ activeTimers_ set_sets]. rewrite <- E. by destruct m. }
  replace (cassert _) with (@Ret unit tt).
  2: { destruct b as [|x b]; [done|]. unfold cassert.
       by rewrite (proj2 (Z.ltb_lt _ _)) by (apply HB; left). }
  cbn [obind]. rewrite E2. cbn [obind]. rewrite (sizes_agree_ok _ _ H2). cbn [obind].
  eexists a, _. split; [reflexivity|]. cbn [timers_ activeTimers_ set_sets].
  rewrite (right_id_L ∅ (∪)) in H2. split_and!; done.
Qed.

(** Running the callbacks of the expired timers. *)
Lemma run_expired_ok lo pend m l :
  Inv pend m -> ptrs l ⊆ pend ->
  safe oom (run_expired clock alloc callback m l) (fun m' =>
    Inv pend m' /\ keeps pend m m' /\ (covered lo m -> covered lo m') /\
    ran m' = ran m ++ map (fun x => from_option cb_ 0 (heap m !! x.2)) l).
Proof.
  revert m. induction l as [|[e p] l IH]; intros m H Hl; cbn [run_expired snd].
  - split_and!; [done|done|done|by rewrite app_nil_r].
  - assert (p ∈ pend) as Hp by (apply Hl, elem_of_ptrs; exists e; by left).
    destruct (proj2 (i_heap _ _ H p) (or_intror Hp)) as [t Ht]. rewrite Ht. cbn [deref obind].
    assert (Inv pend (log_run m (cb_ t))) as H1 by (by destruct H).
    apply (safe_bind _ _ _ _ _ (run_commands_ok pend lo (log_run m (cb_ t)) (callback (cb_ t)) H1 (Hcb _))).
    intros m1 [H2 K2 C2 R2 _].
    assert (ptrs l ⊆ pend) as Hl' by (intros q Hq; apply Hl; unfold ptrs in *; simpl; set_solver).
    apply (safe_mono _ _ _ _ (IH m1 H2 Hl')). intros m2 (H3 & K3 & C3 & R3).
    split_and!; [done| |auto|].
    + intros q Hq. rewrite K3, K2 by done. done.
    + rewrite R3, R2. cbn [ran log_run map snd]. rewrite Ht, <- app_assoc. simpl. do 2 f_equal.
      apply map_ext_in. intros [e' q] Hq%list_elem_of_In. simpl.
      rewrite K2; [done|]. apply Hl, elem_of_ptrs. exists e'. by right.
Qed.

Lemma timers_NoDup pend m : Inv pend m -> NoDup (map snd (timers_ m)).
Proof.
  intros H. assert (forall l, sorted l -> (forall x, x ∈ l -> x ∈ timers_ m) -> NoDup (map snd l))
    as Hl; [|by apply Hl; [apply (i_sorted _ _ H)|]].
  induction 1 as [|[e p] l Hs IH Hx]; intros Hsub; simpl; constructor.
  - intros Hin. apply list_elem_of_fmap in Hin as ([e' p'] & E & Hin). simpl in E. subst p'.
    assert (e = e') as <-.
    { apply (entry_unique pend m e e' p H); apply Hsub; [by left|by right]. }
    rewrite Forall_forall in Hx. by apply (entry_lt_irrefl (e, p)), Hx.
  - apply IH. intros x Hx'. apply Hsub. by right.
Qed.

(** Replacing a pending timer's object, and deleting a pending timer. *)
Lemma Inv_update pend m p t :
  Inv ({[p]} ∪ pend) m -> 0 < p < UINTPTR_MAX -> time_ok (expiration_ t) ->
  (recurring_ t = true -> interval_ok (interval_ t) = true /\ double_pos (interval_ t) = true) ->
  Inv ({[p]} ∪ pend) (set_heap m (<[p := t]> (heap m))).
Proof.
  intros H Hp Ht Hr.
  assert (forall e q, (e, q) ∈ timers_ m -> q <> p) as Hne.
  { intros e q Hq ->. apply (i_apart _ _ H) in Hq. set_solver. }
  constructor; cbn [timers_ activeTimers_ heap set_heap].
  - apply (i_sorted _ _ H).
  - intros e q Hq. rewrite lookup_insert_ne by (symmetry; eauto). by apply (i_entry _ _ H).
  - intros q s. rewrite (i_active _ _ H). split; intros (e & t' & He & Ht' & Hs); exists e, t';
      rewrite lookup_insert_ne in * by (symmetry; eauto); auto.
  - intros q. destruct (decide (q = p)) as [->|Hq].
    + rewrite lookup_insert_eq. split; [intros _; right; set_solver|eauto].
    + rewrite lookup_insert_ne by done. apply (i_heap _ _ H).
  - apply (i_apart _ _ H).
  - intros q t'. destruct (decide (q = p)) as [->|Hq].
    + rewrite lookup_insert_eq. by intros [= <-].
    + rewrite lookup_insert_ne by done. apply (i_timer _ _ H).
  - apply (i_size _ _ H).
Qed.

Lemma Inv_delete pend m p :
  Inv ({[p]} ∪ pend) m -> p ∉ pend -> Inv pend (set_heap m (delete p (heap m))).
Proof.
  intros H Hp.
  assert (forall e q, (e, q) ∈ timers_ m -> p <> q) as Hne.
  { intros e q Hq ->. apply (i_apart _ _ H) in Hq. set_solver. }
  constructor; cbn [timers_ activeTimers_ heap set_heap].
  - apply (i_sorted _ _ H).
  - intros e q Hq. rewrite lookup_delete_ne by eauto. by apply (i_entry _ _ H).
  - intros q s. rewrite (i_active _ _ H). split; intros (e & t' & He & Ht' & Hs); exists e, t';
      rewrite lookup_delete_ne in * by eauto; auto.
  - intros q. destruct (decide (q = p)) as [->|Hq].
    + rewrite lookup_delete_eq. split; [by intros []|]. intros [[e He]|?]; [|done].
      by destruct (Hne e p).
    + rewrite lookup_delete_ne, (i_heap _ _ H) by done. set_solver.
  - intros e q Hq. apply (i_apart _ _ H) in Hq. set_solver.
  - intros q t' [_ Ht']%lookup_delete_Some. by apply (i_timer _ _ H).
  - apply (i_size _ _ H).
Qed.

(** An expired timer goes back when it repeats and was not cancelled. *)
Definition goes_back (m : TimerManger) (p : Z) : bool :=
  match heap m !! p with
  | Some t => recurring_ t && negb (bool_decide ((p, sequence_ t) ∈ cancelingTimers_ m))
  | None => false
  end.

(** The entry [x] comes from a timer of [l] that goes back at time [clock n]. *)
Definition back_in (n : nat) (m : TimerManger) (l : list Entry) (x : Entry) : Prop :=
  exists e t, (e, x.2) ∈ l /\ goes_back m x.2 = true /\ heap m !! x.2 = Some t /\
    addTime (clock n) (interval_ t) = Ret x.1.

(** The first entry is dealt with in [m1]; the rest is as in [m]. *)
Lemma back_in_cons n m m1 e p t l :
  p ∉ ptrs l -> heap m !! p = Some t ->
  (forall q, q <> p -> heap m1 !! q = heap m !! q) ->
  cancelingTimers_ m1 = cancelingTimers_ m ->
  (forall x, x ∈ timers_ m1 <-> x ∈ timers_ m \/ (goes_back m p = true /\ x.2 = p /\
      addTime (clock n) (interval_ t) = Ret x.1)) ->
  forall x, x ∈ timers_ m1 \/ back_in n m1 l x <-> x ∈ timers_ m \/ back_in n m ((e, p) :: l) x.
Proof.
  intros Hpl Ht Hh Hc Hm x. rewrite Hm.
  assert (forall e0, (e0, x.2) ∈ l -> x.2 <> p) as Hne.
  { intros e0 Hin E. apply Hpl, elem_of_ptrs. rewrite <- E. eauto. }
  assert (forall e0, (e0, x.2) ∈ l -> goes_back m1 x.2 = goes_back m x.2) as Hgb.
  { intros e0 Hin%Hne. unfold goes_back. by rewrite Hh, Hc. }
  split.
  - intros [[?|(Hg & E & Hx)]|(e0 & t0 & Hin & Hg & Ht0 & Hx)]; [by left| |]; right.
    + rewrite <- E in *. exists e, t. split_and!; [by left|done|done|done].
    + exists e0, t0. rewrite <- Hh by eauto. rewrite (Hgb e0 Hin) in Hg.
      split_and!; [by right|done|done|done].
  - intros [?|(e0 & t0 & [[= -> E]|Hin]%elem_of_cons & Hg & Ht0 & Hx)]; [by left; left| |].
    + left; right. rewrite E in *. split_and!; [done|done|congruence].
    + right. exists e0, t0. rewrite Hh by eauto. rewrite (Hgb e0 Hin). done.
Qed.

Lemma reset_loop_ok n m l :
  Inv (ptrs l) m -> NoDup (map snd l) ->
  exists m', reset_loop m l (clock n) = Ret m' /\ Inv ∅ m' /\
    armed m' = armed m /\ ran m' = ran m /\
    (forall x, x ∈ timers_ m' <-> x ∈ timers_ m \/ back_in n m l x).
Proof.
  revert m. induction l as [|[e p] l IH]; intros m H Hnd; cbn [reset_loop snd].
  { exists m. split_and!; [done|done|done|done|]. intros x. split; [auto|].
    intros [?|(e & t & ?%not_elem_of_nil & _)]; done. }
  replace (ptrs ((e, p) :: l)) with ({[p]} ∪ ptrs l) in H by done.
  simpl in Hnd. apply NoDup_cons in Hnd as [Hp Hnd].
  assert (p ∉ ptrs l) as Hpl.
  { rewrite elem_of_ptrs. intros [e' He']. apply Hp, list_elem_of_fmap. by exists (e', p). }
  destruct (proj2 (i_heap _ _ H p)) as [t Ht]; [right; set_solver|]. rewrite Ht. cbn [deref obind].
  destruct (i_timer _ _ H p t Ht) as (Hpr & Htime & Hrec).
  assert (goes_back m p = recurring_ t && negb (bool_decide ((p, sequence_ t) ∈ cancelingTimers_ m)))
    as Eg by (unfold goes_back; by rewrite Ht).
  rewrite <- Eg. destruct (goes_back m p) eqn:Egb.
  - symmetry in Eg. apply andb_true_iff in Eg as [Er _]. destruct (Hrec Er) as [Hi Hpos].
    destruct (addTime_ok n (interval_ t) Hi) as (e' & Ee & He' & _).
    unfold restart. rewrite Er, Ee. cbn [obind]. set (t' := mkTimer _ e' _ _ _).
    pose proof (Inv_update (ptrs l) m p t' H Hpr He' (fun _ => conj Hi Hpos)) as HU.
    destruct (insert_ok (ptrs l) _ p t' HU Hpl) as (ec & ts & E & H3 & Hm & _).
    { cbn [heap set_heap]. by rewrite lookup_insert_eq. }
    rewrite E. cbn [obind snd]. destruct (IH _ H3 Hnd) as (m2 & E2 & H2 & Ha2 & Hr2 & Hm2).
    exists m2. split_and!; [done|done|done|done|]. intros x. rewrite Hm2.
    apply (back_in_cons n m _ e p t l Hpl Ht); [|done|].
    + intros q Hq. cbn [heap set_sets set_heap]. by rewrite lookup_insert_ne.
    + intros y. cbn [timers_ set_sets]. rewrite Hm, Egb, Ee. destruct y as [y1 y2].
      cbn [timers_ set_heap fst snd]. split.
      * intros [[= -> ->]|?]; auto.
      * intros [?|(_ & -> & [= ->])]; auto.
  - cbn [obind]. destruct (IH _ (Inv_delete _ _ _ H Hpl) Hnd) as (m2 & E2 & H2 & Ha2 & Hr2 & Hm2).
    exists m2. split_and!; [done|done|done|done|]. intros x. rewrite Hm2.
    apply (back_in_cons n m _ e p t l Hpl Ht); [|done|].
    + intros q Hq. cbn [heap set_heap]. by rewrite lookup_delete_ne.
    + intros y. rewrite Egb. split; [auto|]. by intros [?|[? _]].
Qed.

(** A timer that goes back is due at the time of the signal or later. *)
Lemma back_in_later n m l x pend : Inv pend m -> back_in n m l x -> clock n <= x.1.
Proof.
  intros H (e & t & _ & Hg & Ht & Hx). unfold goes_back in Hg. rewrite Ht in Hg.
  apply andb_true_iff in Hg as [Hr _].
  destruct (i_timer _ _ H _ _ Ht) as (_ & _ & Hrec). destruct (Hrec Hr) as [Hi Hpos].
  destruct (addTime_ok n _ Hi) as (e' & E & _ & Hle). rewrite E in Hx. injection Hx as <-. auto.
Qed.

(** [reset] arms the timerfd for the earliest timer. *)
Lemma reset_ok n m l :
  Inv (ptrs l) m -> NoDup (map snd l) -> covered (Some (clock n)) m ->
  exists m', reset clock m l (clock n) = Ret m' /\ Inv ∅ m' /\ covered None m' /\ ran m' = ran m /\
    (forall x, x ∈ timers_ m' <-> x ∈ timers_ m \/ back_in n m l x).
Proof.
  intros H Hnd Hcov. destruct (reset_loop_ok n m l H Hnd) as (m1 & E & H1 & Ha & Hr & Hm).
  assert (covered (Some (clock n)) m1) as Hcov1.
  { intros e p [Hin|Hin]%Hm; [rewrite Ha; by apply (Hcov e p)|].
    right. exists (clock n). split; [done|]. apply (back_in_later n m l (e, p) _ H Hin). }
  unfold reset. rewrite E. cbn [obind]. destruct (timers_ m1) as [|[e p] ts] eqn:Et.
  - exists m1. change (valid invalid) with false. split_and!; [done|done| |done|].
    + intros e p Hin. rewrite Et in Hin. by apply not_elem_of_nil in Hin.
    + intros x. by rewrite <- Hm, Et.
  - assert ((e, p) ∈ timers_ m1) as Hin by (rewrite Et; by left).
    destruct (i_entry _ _ H1 e p Hin) as (t & Ht & He). cbn [snd]. rewrite Ht. cbn [deref obind].
    rewrite He.
    assert (forall y, y ∈ timers_ m1 -> e <= y.1) as Hmin.
    { intros y Hy. pose proof (i_sorted _ _ H1) as Hs. rewrite Et in Hs, Hy.
      apply StronglySorted_inv in Hs as [_ Hs]. rewrite Forall_forall in Hs.
      apply elem_of_cons in Hy as [->|Hy]; [simpl; lia|].
      apply Hs, entry_lt_spec in Hy. simpl in Hy. lia. }
    destruct (valid e) eqn:Ev.
    + destruct (i_timer _ _ H1 p t Ht) as (_ & Htime & _). rewrite He in Htime.
      rewrite resetTimerfd_ok by done. eexists. split; [reflexivity|].
      split_and!; [by destruct H1| |done|intros x; cbn [timers_ set_armed tick]; by rewrite <- Hm, Et].
      intros e' p' Hin'. left. exists e. split; [done|]. apply (Hmin (e', p') Hin').
    + exists m1. split_and!; [done|done| |done|intros x; by rewrite <- Hm, Et].
      unfold valid in Ev. rewrite Z.gtb_ltb in Ev. apply Z.ltb_ge in Ev. pose proof (Hclock n).
      destruct (Hcov1 e p Hin) as [(a & Ea & Hle)|(t0 & [= <-] & Hle)]; [|lia].
      intros e' p' Hin'%Hmin. left. exists a. simpl in Hin'. split; [done|lia].
Qed.

(** The callbacks that are due at time [t], in the order of the set. *)
Definition due (m : TimerManger) (t : Z) : list Z :=
  map (fun x => from_option cb_ 0 (heap m !! x.2)) (filter (fun x => x.1 <= t) (timers_ m)).

Lemma handleRead_ok m :
  Inv ∅ m ->
  safe oom (handleRead clock alloc callback m) (fun m' =>
    Inv ∅ m' /\ covered None m' /\ ran m' = ran m ++ due m (clock (ticks m))).
Proof.
  intros H. unfold handleRead, now. set (t := clock (ticks m)).
  set (m0 := set_armed (tick m) None).
  assert (Inv ∅ m0) as H0 by (by destruct H).
  destruct (getExpired_ok m0 t H0) as (l & m1 & -> & Ets & Hle & Hgt & H1 & Em1). cbn [obind].
  assert (filter (fun x : Entry => x.1 <= t) (timers_ m0) = l) as Hfil.
  { rewrite Ets. apply filter_prefix; [done|]. intros x Hx%Hgt. lia. }
  set (m2 := set_canceling (set_calling m1 true) ∅).
  assert (Inv (ptrs l) m2) as H2 by (by destruct H1).
  assert (covered (Some t) m2) as Hcov.
  { intros e p Hin%Hgt. right. exists t. simpl in Hin. split; [done|lia]. }
  apply (safe_bind _ _ _ _ _ (run_expired_ok (Some t) (ptrs l) m2 l H2 ltac:(done))).
  intros m3 (H3 & _ & C3 & R3). apply C3 in Hcov.
  assert (NoDup (map snd l)) as Hnd.
  { pose proof (timers_NoDup _ _ H0) as Hnd. rewrite Ets, map_app in Hnd.
    by apply NoDup_app in Hnd as [? _]. }
  destruct (reset_ok (ticks m) (set_calling m3 false) l) as (m4 & E4 & H4 & C4 & R4 & _);
    [by destruct H3|done|done|]. fold t in E4. rewrite E4.
  cbn [safe]. split_and!; [done|done|]. rewrite R4. cbn [ran set_calling]. rewrite R3.
  unfold m2. cbn [ran heap set_canceling set_calling].
  assert (ran m1 = ran m) as -> by (by rewrite Em1).
  assert (heap m1 = heap m) as -> by (by rewrite Em1).
  f_equal. unfold due. by rewrite <- Hfil.
Qed.
End operations.

(** ** Histories *)
Inductive event : Set :=
| Call (c : command)
| Signal.

Definition event_ok (e : event) : bool := match e with Call c => command_ok c | Signal => true end.

Section histories.
Context (clock : nat -> Z) (alloc : gmap Z Timer -> option Z) (callback : Z -> list command).

Definition run_event (m : TimerManger) (e : event) : outcome TimerManger :=
  match e with
  | Call c => run_command clock alloc m c
  | Signal => handleRead clock alloc callback m
  end.

Fixpoint run_events (m : TimerManger) (es : list event) : outcome TimerManger :=
  match es with
  | [] => Ret m
  | e :: es' => let! m := run_event m e in run_events m es'
  end.
End histories.

Lemma new_TimerManger_ok : Inv ∅ new_TimerManger /\ covered None new_TimerManger.
Proof.
  split; [|by intros e p ?%not_elem_of_nil]. constructor; simpl.
  - constructor.
  - by intros e p ?%not_elem_of_nil.
  - intros p s. split; [by intros ?%not_elem_of_empty|]. by intros (e & t & ?%not_elem_of_nil & _).
  - intros p. split; [by intros [? ?]|]. by intros [[e ?%not_elem_of_nil]|?%not_elem_of_empty].
  - by intros e p ?%not_elem_of_nil.
  - done.
  - done.
Qed.

Lemma run_events_ok clock alloc callback es :
  (forall n, 0 < clock n < 2 ^ 62) ->
  (forall h p, alloc h = Some p -> h !! p = None /\ 0 < p < UINTPTR_MAX) ->
  (forall c, forallb command_ok (callback c) = true) ->
  forallb event_ok es = true ->
  safe (exists h, alloc h = None) (run_events clock alloc callback new_TimerManger es)
    (fun m => Inv ∅ m /\ covered None m).
Proof.
  intros Hclock Halloc Hcb Hes. destruct new_TimerManger_ok as [H0 C0].
  revert H0 C0. generalize new_TimerManger. induction es as [|e es IH]; intros m H C; [done|].
  simpl in Hes. apply andb_true_iff in Hes as [He Hes]. cbn [run_events].
  apply (safe_bind _ _ _ (fun m => Inv ∅ m /\ covered None m)).
  - destruct e as [c|]; cbn [run_event].
    + apply (safe_mono _ _ _ _ (run_command_ok clock alloc callback Hclock Halloc Hcb ∅ None m c H He)).
      intros m' [? _ ? _ _]. auto.
    + apply (safe_mono _ _ _ _ (handleRead_ok clock alloc callback Hclock Halloc Hcb m H)). tauto.
  - intros m' [? ?]. auto.
Qed.

(** C8: from an empty manager, every sequence of calls and timerfd signals,
    with callbacks that themselves add and cancel timers, keeps the invariant
    (the two sets and the heap agree, no timer is leaked) without failing an
    assertion or touching a deleted timer, unless an allocation fails; and
    whenever a timer is waiting the timerfd is armed for it or earlier. The clock
    stays between 0 and 2^62, and delays and times in the bounds of [command_ok]. *)
Theorem run_events_safe clock alloc callback es :
  (forall n, 0 < clock n < 2 ^ 62) ->
  (forall h p, alloc h = Some p -> h !! p = None /\ 0 < p < UINTPTR_MAX) ->
  (forall c, forallb command_ok (callback c) = true) ->
  forallb event_ok es = true ->
  safe (exists h, alloc h = None) (run_events clock alloc callback new_TimerManger es)
    (fun m => Inv ∅ m /\ covered None m).
Proof. exact (run_events_ok clock alloc callback es). Qed.

(** A concrete clock, allocator and callbacks. *)
Definition clock_ex (n : nat) : Z := 1000 + 10 * Z.min (Z.of_nat n) 1000.
Definition alloc_ex (h : gmap Z Timer) : option Z :=
  List.find (fun p => bool_decide (h !! p = None)) (map Z.of_nat (seq 1 100)).
Definition callback_ex (c : Z) : list command :=
  if c =? 1 then [RunAt 1005 2; Cancel (2, 2)] else [].

Lemma clock_ex_ok n : 0 < clock_ex n < 2 ^ 62.
Proof. unfold clock_ex. lia. Qed.
Lemma alloc_ex_ok h p : alloc_ex h = Some p -> h !! p = None /\ 0 < p < UINTPTR_MAX.
Proof.
  unfold alloc_ex. intros [Hin Hb]%find_some. apply bool_decide_eq_true in Hb. split; [done|].
  apply in_map_iff in Hin as (k & <- & Hk%in_seq). unfold UINTPTR_MAX. lia.
Qed.
Lemma callback_ex_ok c : forallb command_ok (callback_ex c) = true.
Proof. unfold callback_ex. by destruct (c =? 1). Qed.

Lemma run_events_safe_witness :
  exists m, run_events clock_ex alloc_ex callback_ex new_TimerManger
      [Call (RunAt 900 1); Call (RunEvery (double_of_Z 1) 3); Signal; Signal] = Ret m /\
    Inv ∅ m /\ ran m = [1; 2].
Proof.
  pose proof (run_events_safe clock_ex alloc_ex callback_ex
    [Call (RunAt 900 1); Call (RunEvery (double_of_Z 1) 3); Signal; Signal]
    clock_ex_ok alloc_ex_ok callback_ex_ok eq_refl) as H.
  destruct (run_events _ _ _ _ _) as [m|f] eqn:E; [|vm_compute in E; discriminate E].
  exists m. split; [reflexivity|]. split; [apply H|].
  vm_compute in E. injection E as <-. reflexivity.
Defined.

(** C17: when the timerfd signals at time [t], [handleRead] runs exactly the
    callbacks of the timers due at [t] or before, each once and in the order of
    their expiration, keeps the invariant, and rearms the timerfd for every
    timer that waits afterwards, unless an allocation fails in a callback. (Clock and
    delays are in the bounds of the theorem above.) *)
Theorem handleRead_runs_due clock alloc callback m :
  (forall n, 0 < clock n < 2 ^ 62) ->
  (forall h p, alloc h = Some p -> h !! p = None /\ 0 < p < UINTPTR_MAX) ->
  (forall c, forallb command_ok (callback c) = true) ->
  Inv ∅ m ->
  let t := clock (ticks m) in
  safe (exists h, alloc h = None) (handleRead clock alloc callback m) (fun m' =>
    exists expired, sorted expired /\
      (forall x, x ∈ expired <-> x ∈ timers_ m /\ x.1 <= t) /\
      ran m' = ran m ++ map (fun x => from_option cb_ 0 (heap m !! x.2)) expired /\
      Inv ∅ m' /\ covered None m').
Proof.
  intros Hclock Halloc Hcb H t.
  apply (safe_mono _ _ _ _ (handleRead_ok clock alloc callback Hclock Halloc Hcb m H)).
  intros m' (H' & C' & R'). exists (filter (fun x => x.1 <= t) (timers_ m)).
  split_and!; [| |done|done|done].
  - assert (forall l, sorted l -> sorted (filter (fun x : Entry => x.1 <= t) l)) as Hf;
      [|apply Hf, (i_sorted _ _ H)].
    induction 1 as [|x l Hs IH Hx]; [constructor|].
    destruct (decide (x.1 <= t)); [rewrite filter_cons_True by done|rewrite filter_cons_False by done];
      [|done]. constructor; [done|]. rewrite Forall_forall in *.
    intros y [_ Hy]%list_elem_of_filter. auto.
  - intros x. rewrite list_elem_of_filter. tauto.
Qed.

(** Of three timers two are due; the callback of the first adds a fourth. *)
Definition waiting_ex : list event := [Call (RunAt 5000 7); Call (RunAt 1015 4); Call (RunAt 900 1)].
Definition due_ex : TimerManger :=
  match run_events clock_ex alloc_ex callback_ex new_TimerManger waiting_ex with Ret m => m | Fault _ => new_TimerManger end.
Lemma due_ex_ok : Inv ∅ due_ex.
Proof.
  pose proof (run_events_ok clock_ex alloc_ex callback_ex waiting_ex clock_ex_ok alloc_ex_ok callback_ex_ok eq_refl) as H.
  unfold due_ex. destruct (run_events _ _ _ _ _) as [m|f]; [apply H|apply new_TimerManger_ok].
Qed.
Lemma handleRead_runs_due_witness : exists m' expired,
  run_events clock_ex alloc_ex callback_ex new_TimerManger waiting_ex = Ret due_ex /\
  map fst (timers_ due_ex) = [900; 1015; 5000] /\
  handleRead clock_ex alloc_ex callback_ex due_ex = Ret m' /\
  sorted expired /\ (forall x, x ∈ expired <-> x ∈ timers_ due_ex /\ x.1 <= clock_ex (ticks due_ex)) /\
  ran m' = ran due_ex ++ map (fun x => from_option cb_ 0 (heap due_ex !! x.2)) expired /\ ran m' = [1; 4] /\
  Inv ∅ m' /\ covered None m'.
Proof.
  pose proof (handleRead_runs_due clock_ex alloc_ex callback_ex due_ex clock_ex_ok alloc_ex_ok callback_ex_ok due_ex_ok) as H.
  assert (match handleRead clock_ex alloc_ex callback_ex due_ex with Ret m' => ran m' = [1; 4] | Fault _ => False end) as E
    by (vm_compute; reflexivity).
  destruct (handleRead clock_ex alloc_ex callback_ex due_ex) as [m'|f]; [|destruct E].
  destruct H as (expired & H1 & H2 & H3 & H4 & H5). exists m', expired. split; [vm_compute; reflexivity|].
  split; [vm_compute; reflexivity|]. split; [reflexivity|]. exact (conj H1 (conj H2 (conj H3 (conj E (conj H4 H5))))).
Defined.

(** Cancelling an active timer removes and frees it and leaves every other
    timer in place; cancelling it while its callback runs keeps it from being
    rescheduled; an unknown or stale id changes nothing. *)
Theorem cancel_correct m id :
  Inv ∅ m ->
  exists m', cancel m id = Ret m' /\ Inv ∅ m' /\
    (forall e p, (e, p) ∈ timers_ m' <-> (e, p) ∈ timers_ m /\ ~ (p = id.1 /\ id ∈ activeTimers_ m)) /\
    (id ∈ activeTimers_ m -> heap m' !! id.1 = None) /\
    (id ∉ activeTimers_ m -> callingExpiredTimers_ m = true ->
     forall t, sequence_ t = id.2 ->
       goes_back (set_heap m' (<[id.1 := t]> (heap m'))) id.1 = false).
Proof.
  intros H. destruct (cancel_ok ∅ None m id H) as (m' & E & [HI _ _ _ _] & Ht & Hc).
  exists m'. split_and!; [done|done|done| |].
  - intros Hin. destruct (heap m' !! id.1) as [t|] eqn:Eh; [|done]. exfalso.
    destruct (proj1 (i_heap _ _ HI id.1) (ex_intro _ t Eh)) as [[e He]|?%not_elem_of_empty]; [|done].
    apply Ht in He as [_ He]. tauto.
  - intros Hn Hcall t Hs. unfold goes_back. cbn [heap set_heap cancelingTimers_].
    rewrite lookup_insert_eq, Hs. destruct id as [p s]. cbn [fst snd] in *.
    rewrite (bool_decide_eq_true_2 _ (Hc Hn Hcall)). apply andb_false_r.
Qed.

Lemma cancel_correct_witness :
  exists m', cancel new_TimerManger (7, 1) = Ret m' /\ Inv ∅ m'.
Proof.
  destruct (cancel_correct new_TimerManger (7, 1) (proj1 new_TimerManger_ok)) as (m' & E & H & _).
  exists m'. split; [exact E|exact H].
Defined.

(** The relative time handed to the timerfd is normalised and is the
    distance to the expiration, but at least 100 microseconds. *)
Theorem howMuchTimeFromNow_bounds when now :
  in_int 64 (when - now) = true ->
  exists ts, howMuchTimeFromNow when now = Ret ts /\ timespec_ok ts = true /\
    1000000000 * tv_sec ts + tv_nsec ts = 1000 * Z.max 100 (when - now).
Proof.
  intros Hi. unfold howMuchTimeFromNow, signed. rewrite Hi. cbn [obind].
  eexists. split; [reflexivity|]. unfold timespec_ok, kMicroSecondsPerSecond. cbn [tv_sec tv_nsec].
  set (d := if when - now <? 100 then 100 else when - now).
  assert (d = Z.max 100 (when - now)) as Hd.
  { unfold d. destruct (Z.ltb_spec (when - now) 100); lia. }
  pose proof (Z.quot_pos d (1000 * 1000) ltac:(lia) ltac:(lia)).
  pose proof (Z.rem_bound_pos d (1000 * 1000) ltac:(lia) ltac:(lia)).
  pose proof (Z.quot_rem' d (1000 * 1000)).
  rewrite !(proj2 (Z.leb_le _ _)), (proj2 (Z.ltb_lt _ _)) by lia. split; [done|lia].
Qed.

Lemma howMuchTimeFromNow_bounds_witness :
  exists ts, howMuchTimeFromNow 5000050 3000000 = Ret ts /\ timespec_ok ts = true.
Proof.
  destruct (howMuchTimeFromNow_bounds 5000050 3000000 eq_refl) as (ts & E & H & _).
  exists ts. split; [exact E|exact H].
Defined.
