(* ===== verification/Fiber.v ===== *)
(** * Fibers (src/qslary/base/Fiber.h, Fiber.cc)

    The fibers of one thread. An object of [Fiber] is found by its number of
    creation in the store; the thread locals [thread_current_fiber] and
    [t_scheduler_main_fiber] are fields of the store. What a callback does is a
    list of actions, so that the context [swapcontext] saves is the list of the
    actions that are left. *)
From stdpp Require Import base list gmap.
From Stdlib Require Import ZArith Lia.
From S2P Require Import Prelude CLib.
Open Scope Z_scope.

(** [Fiber::State] *)
Inductive State : Set := INIT | HOLD | EXEC | TERM | READY | EXCEPTION.

#[export] Instance State_eq_dec : EqDecision State.
Proof. solve_decision. Defined.

(** What a callback does: something observable, [Scheduler::scheduler] of a
    function (null when [None]) or of the running fiber itself, the two yields,
    and leaving by an exception. *)
Inductive action (T : Type) : Type :=
| Emit (n : Z)
| Schedule (cb : option T)
| ScheduleSelf
| DoYieldToReady
| DoYieldToHold
| Throw.
Arguments Emit {T}.
Arguments Schedule {T}.
Arguments ScheduleSelf {T}.
Arguments DoYieldToReady {T}.
Arguments DoYieldToHold {T}.
Arguments Throw {T}.

(** [ctx_]: made by [makecontext], saved by [swapOut] inside [FiberRun], or
    saved by the last [swapOut] of [FiberRun]. *)
Inductive context (T : Type) : Type :=
| Fresh
| Suspended (k : list (action T))
| Finished.
Arguments Fresh {T}.
Arguments Suspended {T}.
Arguments Finished {T}.

(** The function of a fiber: a scheduled one, or the scheduler's [run] or
    [Idle]. *)
Inductive callback (T : Type) : Type :=
| Task (t : T)
| RunLoop
| IdleLoop.
Arguments Task {T}.
Arguments RunLoop {T}.
Arguments IdleLoop {T}.

Section fiber.
Context {T : Type}.

Record Fiber : Type := mkFiber {
  id_ : Z;
  state_ : State;
  ctx_ : context T;
  stack_ : bool;                            (** [stack_ != nullptr] *)
  cb_ : option (callback T)
}.

Record Store : Type := mkStore {
  fibers : gmap Z Fiber;
  created : Z;                              (** number of fibers created so far *)
  s_fiber_count : Z;
  thread_current_fiber : option Z;
  first_fiber : Z                           (** [t_scheduler_main_fiber] *)
}.

Definition set_fibers (s : Store) (m : gmap Z Fiber) : Store :=
  mkStore m (created s) (s_fiber_count s) (thread_current_fiber s) (first_fiber s).
Definition SetThreadCurrentFiber (s : Store) (f : option Z) : Store :=
  mkStore (fibers s) (created s) (s_fiber_count s) f (first_fiber s).
Definition set_first (s : Store) (f : Z) : Store :=
  mkStore (fibers s) (created s) (s_fiber_count s) (thread_current_fiber s) f.

Definition with_state (x : Fiber) (st : State) : Fiber :=
  mkFiber (id_ x) st (ctx_ x) (stack_ x) (cb_ x).
Definition with_ctx (x : Fiber) (c : context T) : Fiber :=
  mkFiber (id_ x) (state_ x) c (stack_ x) (cb_ x).
Definition with_cb (x : Fiber) (cb : option (callback T)) : Fiber :=
  mkFiber (id_ x) (state_ x) (ctx_ x) (stack_ x) cb.

(** Assigning through a pointer to a fiber. *)
Definition update (s : Store) (f : Z) (g : Fiber -> Fiber) : outcome Store :=
  let! x := deref (fibers s !! f) in Ret (set_fibers s (<[f := g x]> (fibers s))).

(** A new object: the counters, and its identifier. *)
Definition allocate (s : Store) (x : Z -> Fiber) : Z * Store :=
  let f := created s + 1 in
  (f, mkStore (<[f := x (u64 f)]> (fibers s)) f (u32 (s_fiber_count s + 1))
        (thread_current_fiber s) (first_fiber s)).

(** [Fiber::Fiber()], the fiber of the thread itself *)
Definition new_main_Fiber (s : Store) : Z * Store :=
  let '(f, s) := allocate s (fun id => mkFiber id EXEC Fresh false None) in
  (f, SetThreadCurrentFiber s (Some f)).

(** [Fiber::Fiber(cb)] *)
Definition new_Fiber (s : Store) (cb : option (callback T)) : Z * Store :=
  allocate s (fun id => mkFiber id INIT Fresh true cb).

Definition GetThreadCurrentFiber (s : Store) : Z * Store :=
  match thread_current_fiber s with
  | Some f => (f, s)
  | None => new_main_Fiber s
  end.

(** [Fiber::~Fiber] *)
Definition delete_Fiber (s : Store) (f : Z) : outcome Store :=
  let! x := deref (fibers s !! f) in
  let s' := mkStore (delete f (fibers s)) (created s) (u32 (s_fiber_count s - 1))
              (thread_current_fiber s) (first_fiber s) in
  if stack_ x then
    let! _ := cassert (bool_decide (state_ x = TERM) || bool_decide (state_ x = INIT)
                       || bool_decide (state_ x = EXCEPTION)) in
    Ret s'
  else
    let! _ := cassert (match cb_ x with None => true | Some _ => false end) in
    let! _ := cassert (bool_decide (state_ x = EXEC)) in
    Ret (if bool_decide (thread_current_fiber s = Some f)
         then SetThreadCurrentFiber s' None else s').

(** [Fiber::swapIn] up to the switch to the fiber *)
Definition swapIn (s : Store) (f : Z) : outcome Store :=
  let s := SetThreadCurrentFiber s (Some f) in
  let! x := deref (fibers s !! f) in
  let! _ := cassert (negb (bool_decide (state_ x = EXEC))) in
  update s f (fun x => with_state x EXEC).

(** [Fiber::swapOut] with the context it saves *)
Definition swapOut (s : Store) (f : Z) (k : context T) : outcome Store :=
  let s := SetThreadCurrentFiber s (Some (first_fiber s)) in
  update s f (fun x => with_ctx x k).

(** [Fiber::reset] *)
Definition reset (s : Store) (f : Z) (cb : option (callback T)) : outcome Store :=
  let! x := deref (fibers s !! f) in
  let! _ := cassert (stack_ x) in
  let! _ := cassert (bool_decide (state_ x = TERM) || bool_decide (state_ x = EXCEPTION)
                     || bool_decide (state_ x = INIT)) in
  update s f (fun x => mkFiber (id_ x) INIT Fresh (stack_ x) cb).

Definition yield_to (st : State) (s : Store) (k : list (action T)) : outcome Store :=
  let '(cur, s) := GetThreadCurrentFiber s in
  let! x := deref (fibers s !! cur) in
  let! _ := cassert (bool_decide (state_ x = EXEC)) in
  let! s := update s cur (fun x => with_state x st) in
  swapOut s cur (Suspended k).

Definition YieldToReady : Store -> list (action T) -> outcome Store := yield_to READY.
Definition YieldToHold : Store -> list (action T) -> outcome Store := yield_to HOLD.

(** [FiberRun] after the callback returned, or threw *)
Definition FiberRun_end (s : Store) (threw : bool) : outcome Store :=
  let '(fiber, s) := GetThreadCurrentFiber s in
  let! s := update s fiber (fun x =>
    if threw then with_state x EXCEPTION else with_state (with_cb x None) TERM) in
  swapOut s fiber Finished.

(** [Fiber::TotalFibers], [Fiber::getFiberId] *)
Definition TotalFibers (s : Store) : Z := s_fiber_count s.
Definition getFiberId (s : Store) : outcome Z :=
  match thread_current_fiber s with
  | Some f => let! x := deref (fibers s !! f) in Ret (id_ x)
  | None => Ret 0
  end.
End fiber.
Arguments Fiber : clear implicits.
Arguments Store : clear implicits.
