(* ===== verification/Scheduler.v ===== *)
(** * The scheduler (src/qslary/net/Scheduler.h, Scheduler.cc)

    The queue of fibers and the loop [run] of one worker thread. [Scheduler] has
    virtual methods that [IOManager] overrides; they are the class [Virtuals],
    over the part [X] of the object that the derived class adds. *)
From stdpp Require Import base list gmap.
From Stdlib Require Import ZArith Lia.
From S2P Require Import Prelude CLib Fiber.
Open Scope Z_scope.

(** The scheduler's members, the locals [doing] and [idleFiber] of [run], the
    observable actions of the callbacks so far, and the derived class's part. *)
Record Scheduler (T X : Type) : Type := mkScheduler {
  store : Store T;
  pendingFunctors_ : list Z;
  activeThreadCount_ : Z;
  idleThreadCount_ : Z;
  clean_ : bool;
  autoStop_ : bool;
  doing : option Z;
  idleFiber : Z;
  emitted : list Z;
  derived : X
}.
Arguments mkScheduler {T X}.
Arguments store {T X}.
Arguments pendingFunctors_ {T X}.
Arguments activeThreadCount_ {T X}.
Arguments idleThreadCount_ {T X}.
Arguments clean_ {T X}.
Arguments autoStop_ {T X}.
Arguments doing {T X}.
Arguments idleFiber {T X}.
Arguments emitted {T X}.
Arguments derived {T X}.

(** One iteration of the loop: it goes on, it leaves the loop, or it waits in
    the idle fiber for something that has not happened. *)
Inductive iteration (A : Type) : Type :=
| Next (a : A)
| Exit (a : A)
| Waiting.
Arguments Next {A}.
Arguments Exit {A}.
Arguments Waiting {A}.

(** The virtual methods. [Idle] runs the idle fiber from the switch to it until
    it switches back; [None] when it waits. *)
Class Wakeups (T X : Type) : Type := {
  Wakeup : Scheduler T X -> Scheduler T X
}.
Class Virtuals (T X : Type) : Type := {
  Virtuals_wakeup :: Wakeups T X;
  Idle : Scheduler T X -> outcome (option (Scheduler T X))
}.

Section fields.
Context {T X : Type}.
Implicit Types s : Scheduler T X.

Definition set_store s (st : Store T) : Scheduler T X :=
  mkScheduler st (pendingFunctors_ s) (activeThreadCount_ s) (idleThreadCount_ s) (clean_ s)
    (autoStop_ s) (doing s) (idleFiber s) (emitted s) (derived s).
Definition set_pending s (l : list Z) : Scheduler T X :=
  mkScheduler (store s) l (activeThreadCount_ s) (idleThreadCount_ s) (clean_ s)
    (autoStop_ s) (doing s) (idleFiber s) (emitted s) (derived s).
Definition add_active s (n : Z) : Scheduler T X :=
  mkScheduler (store s) (pendingFunctors_ s) (u64 (activeThreadCount_ s + n)) (idleThreadCount_ s)
    (clean_ s) (autoStop_ s) (doing s) (idleFiber s) (emitted s) (derived s).
Definition add_idle s (n : Z) : Scheduler T X :=
  mkScheduler (store s) (pendingFunctors_ s) (activeThreadCount_ s) (u64 (idleThreadCount_ s + n))
    (clean_ s) (autoStop_ s) (doing s) (idleFiber s) (emitted s) (derived s).
Definition set_flags s (clean auto : bool) : Scheduler T X :=
  mkScheduler (store s) (pendingFunctors_ s) (activeThreadCount_ s) (idleThreadCount_ s)
    clean auto (doing s) (idleFiber s) (emitted s) (derived s).
Definition set_doing s (d : option Z) : Scheduler T X :=
  mkScheduler (store s) (pendingFunctors_ s) (activeThreadCount_ s) (idleThreadCount_ s)
    (clean_ s) (autoStop_ s) d (idleFiber s) (emitted s) (derived s).
Definition emit s (n : Z) : Scheduler T X :=
  mkScheduler (store s) (pendingFunctors_ s) (activeThreadCount_ s) (idleThreadCount_ s)
    (clean_ s) (autoStop_ s) (doing s) (idleFiber s) (emitted s ++ [n]) (derived s).
Definition set_derived s (x : X) : Scheduler T X :=
  mkScheduler (store s) (pendingFunctors_ s) (activeThreadCount_ s) (idleThreadCount_ s)
    (clean_ s) (autoStop_ s) (doing s) (idleFiber s) (emitted s) x.

(** [hasIdleThreads] and the base class's [IsClean] *)
Definition hasIdleThreads s : bool := 0 <? idleThreadCount_ s.
Definition IsClean s : bool :=
  autoStop_ s && clean_ s && bool_decide (pendingFunctors_ s = []) && (activeThreadCount_ s =? 0).

(** [schedulerNoLock]: the new fiber goes to the end of the queue; a wake-up is
    needed when the queue was empty. *)
Definition schedulerNoLock s (cb : option (callback T)) : bool * Scheduler T X :=
  let need_wakeup := bool_decide (pendingFunctors_ s = []) in
  let '(f, st) := new_Fiber (store s) cb in
  (need_wakeup, set_pending (set_store s st) (pendingFunctors_ s ++ [f])).

(** [scheduler(Fiber::ptr)] *)
Definition scheduler_fiber s (f : Z) : Scheduler T X :=
  set_pending s (pendingFunctors_ s ++ [f]).

(** [start] sets the flag before the worker runs, [stop] when there are worker
    threads to join. *)
Definition start s : Scheduler T X := if clean_ s then set_flags s false (autoStop_ s) else s.
Definition stop s : Scheduler T X := set_flags s true true.

(** The constructor's fiber, and the worker's beginning of [run]: the thread's
    own fiber and the idle fiber. *)
Definition new_Scheduler (created count : Z) (x : X) : Scheduler T X :=
  let '(_, st) := new_Fiber (mkStore ∅ created count None 0) (Some RunLoop) in
  mkScheduler st [] 0 0 true false None 0 [] x.
Definition run_begin s : Scheduler T X :=
  let '(first, st) := GetThreadCurrentFiber (store s) in
  let '(idle, st) := new_Fiber (set_first st first) (Some IdleLoop) in
  mkScheduler st (pendingFunctors_ s) (activeThreadCount_ s) (idleThreadCount_ s) (clean_ s)
    (autoStop_ s) None idle (emitted s) (derived s).

(** The search of [run] for the first fiber that can be run. *)
Definition runnable (st : State) : bool :=
  match st with INIT | HOLD | READY => true | _ => false end.

Fixpoint take_runnable (fs : gmap Z (Fiber T)) (l : list Z) : outcome (option (Z * list Z)) :=
  match l with
  | [] => Ret None
  | f :: l =>
      let! x := deref (fs !! f) in
      if runnable (state_ x) then Ret (Some (f, l))
      else let! r := take_runnable fs l in
           Ret (match r with Some (g, rest) => Some (g, f :: rest) | None => None end)
  end.

(** [doing.reset()]: the fiber is destroyed when the loop had the last reference
    to it: it is not in the queue, and [FiberRun] does not hold one on the
    fiber's own stack. *)
Definition release s : outcome (Scheduler T X) :=
  match doing s with
  | None => Ret s
  | Some f =>
      let s := set_doing s None in
      let! x := deref (fibers (store s) !! f) in
      match ctx_ x with
      | Suspended _ => Ret s
      | _ =>
          if bool_decide (f ∈ pendingFunctors_ s) then Ret s
          else let! st := delete_Fiber (store s) f in Ret (set_store s st)
      end
  end.
End fields.

(** [scheduler(std::function)] *)
Definition scheduler {T X : Type} `{!Wakeups T X} (s : Scheduler T X) (cb : option (callback T))
    : Scheduler T X :=
  let '(need_wakeup, s) := schedulerNoLock s cb in
  if need_wakeup then Wakeup s else s.

(** [scheduler(begin, end)]: one wake-up for all *)
Fixpoint schedule_list {T X : Type} (s : Scheduler T X) (l : list (option (callback T))) (need_wakeup : bool)
    : bool * Scheduler T X :=
  match l with
  | [] => (need_wakeup, s)
  | cb :: l => let '(need, s) := schedulerNoLock s cb in schedule_list s l (need || need_wakeup)
  end.
Definition scheduler_range {T X : Type} `{!Wakeups T X} (s : Scheduler T X) (l : list (option (callback T)))
    : Scheduler T X :=
  let '(need_wakeup, s) := schedule_list s l false in
  if need_wakeup then Wakeup s else s.

Section run.
Context {T X : Type} `{!Virtuals T X}.
Context (body : T -> list (action T)).
Implicit Types s : Scheduler T X.

(** The callback of the current fiber until it switches out. *)
Fixpoint exec s (k : list (action T)) : outcome (Scheduler T X) :=
  match k with
  | [] => let! st := FiberRun_end (store s) false in Ret (set_store s st)
  | Emit n :: k => exec (emit s n) k
  | Schedule cb :: k => exec (scheduler s (Task <$> cb)) k
  | ScheduleSelf :: k =>
      let '(cur, st) := GetThreadCurrentFiber (store s) in
      exec (scheduler_fiber (set_store s st) cur) k
  | DoYieldToReady :: k => let! st := YieldToReady (store s) k in Ret (set_store s st)
  | DoYieldToHold :: k => let! st := YieldToHold (store s) k in Ret (set_store s st)
  | Throw :: _ => let! st := FiberRun_end (store s) true in Ret (set_store s st)
  end.

(** [FiberRun] of a scheduled fiber: an empty function throws when called. The
    scheduler's own fibers are not run from the queue ([run_safe]). *)
Definition FiberRun s : outcome (Scheduler T X) :=
  let '(fiber, st) := GetThreadCurrentFiber (store s) in
  let! x := deref (fibers st !! fiber) in
  match cb_ x with
  | Some (Task t) => exec (set_store s st) (body t)
  | Some _ => Fault Undefined
  | None => let! st := FiberRun_end st true in Ret (set_store s st)
  end.

(** [swapIn] of a scheduled fiber until control is back in the loop. *)
Definition switch_to s (f : Z) : outcome (Scheduler T X) :=
  let! st := swapIn (store s) f in
  let s := set_store s st in
  let! x := deref (fibers st !! f) in
  match ctx_ x with
  | Fresh => FiberRun s
  | Suspended k => exec s k
  | Finished => Fault ThreadEnded
  end.

(** What [run] does with the fiber that has come back. *)
Definition finish_run s (f : Z) : outcome (Scheduler T X) :=
  let! x := deref (fibers (store s) !! f) in
  match state_ x with
  | READY => Ret (scheduler s (cb_ x))
  | TERM | EXCEPTION => Ret s
  | _ => let! st := update (store s) f (fun x => with_state x HOLD) in Ret (set_store s st)
  end.

(** The branch of [run] that has a fiber. *)
Definition run_doing s (f : Z) (rest : list Z) : outcome (Scheduler T X) :=
  let s := Wakeup (set_doing (set_pending s rest) (Some f)) in
  let! s := switch_to (add_active s 1) f in
  finish_run (add_active s (-1)) f.

(** The branch of [run] that has none: a switch to the idle fiber and back. *)
Definition idle_round s : outcome (iteration (Scheduler T X)) :=
  let s := add_idle s 1 in
  let! st := swapIn (store s) (idleFiber s) in
  let! o := Idle (set_store s st) in
  match o with
  | None => Ret Waiting
  | Some s =>
      let! x := deref (fibers (store s) !! idleFiber s) in
      let! st :=
        match state_ x with
        | EXCEPTION | TERM => Ret (store s)
        | _ => update (store s) (idleFiber s) (fun x => with_state x HOLD)
        end in
      Ret (Next (add_idle (set_store s st) (-1)))
  end.

Definition run_idle s : outcome (iteration (Scheduler T X)) :=
  let! x := deref (fibers (store s) !! idleFiber s) in
  match state_ x with
  | EXCEPTION | TERM => Ret (Exit s)
  | _ => idle_round s
  end.

(** The body of the loop of [run]. *)
Definition run_step s : outcome (iteration (Scheduler T X)) :=
  let! s := release s in
  let! r := take_runnable (fibers (store s)) (pendingFunctors_ s) in
  match r with
  | Some (f, rest) => let! s := run_doing s f rest in Ret (Next s)
  | None => run_idle s
  end.

(** [n] iterations. *)
Fixpoint run_steps (n : nat) s : outcome (iteration (Scheduler T X)) :=
  match n with
  | O => Ret (Next s)
  | S n =>
      let! r := run_step s in
      match r with Next s => run_steps n s | r => Ret r end
  end.
End run.

(** ** The base class

    [Wakeup] only logs; [Idle] yields until the scheduler is clean. *)
#[export] Instance Scheduler_wakeups T : Wakeups T unit := { Wakeup s := s }.
#[export] Instance Scheduler_virtuals T : Virtuals T unit := {
  Idle s :=
    if IsClean s then let! st := FiberRun_end (store s) false in Ret (Some (set_store s st))
    else let! st := YieldToHold (store s) [] in Ret (Some (set_store s st))
}.

(** A range is scheduled as its callbacks one by one. *)
Lemma scheduler_range_each {T} (s : Scheduler T unit) l : scheduler_range s l = foldl scheduler s l.
Proof.
  assert (forall n, (schedule_list s l n).2 = foldl scheduler s l) as H.
  { revert s. induction l as [|cb l IH]; cbn [schedule_list foldl]; intros s n; [done|].
    assert (scheduler s cb = (schedulerNoLock s cb).2) as -> by (unfold scheduler; by destruct (schedulerNoLock s cb) as [[] s']).
    destruct (schedulerNoLock s cb) as [need s']. apply IH. }
  unfold scheduler_range. specialize (H false). destruct (schedule_list s l false) as [[] s']; exact H.
Qed.

(** ** Examples *)
Definition example_body (t : nat) : list (action nat) :=
  match t with
  | 0%nat => [Emit 1; Schedule (Some 1%nat); Emit 2]
  | 1%nat => [Emit 3; ScheduleSelf; DoYieldToHold; Emit 4]
  | _ => [Emit 5; DoYieldToReady; Emit 6]
  end.
Definition example_start (t : nat) : Scheduler nat unit :=
  scheduler (run_begin (start (new_Scheduler 0 0 ()))) (Some (Task t)).
Example run_two_tasks :
  match run_steps example_body 4 (example_start 0) with
  | Ret (Next s) => emitted s = [1; 2; 3; 4] /\ pendingFunctors_ s = []
  | _ => False
  end.
Proof. vm_compute. done. Qed.
Example run_yield_to_ready :
  match run_steps example_body 3 (example_start 2) with
  | Ret (Next s) => emitted s = [5; 5; 5]
  | _ => False
  end.
Proof. vm_compute. done. Qed.
