(* ===== verification/SchedulerCorrect.v ===== *)
(** * Correctness of the scheduler

    The loop of [run] against the interface [VirtualsLaws] of the methods a
    derived class overrides: no assertion of the fibers fails, callbacks run in
    the order in which they were scheduled, and what the two yields do. *)
From stdpp Require Import base list gmap.
From Stdlib Require Import ZArith Lia.
From S2P Require Import Prelude CLib Fiber Scheduler.
#[local] Set Warnings "-clear-no-such-hyp".
Open Scope Z_scope.

(** ** Fibers and their contexts *)
Section invariant.
Context {T X : Type}.
Implicit Types (s : Scheduler T X) (x : Fiber T).

(** The state of a fiber that is not running says where its context is. *)
Definition context_ok x : Prop :=
  match state_ x with
  | INIT => ctx_ x = Fresh
  | HOLD | READY => exists k, ctx_ x = Suspended k
  | TERM | EXCEPTION => ctx_ x = Finished
  | EXEC => False
  end.

Definition is_task (cb : option (callback T)) : Prop :=
  match cb with None | Some (Task _) => True | _ => False end.

Definition fiber_ok x : Prop := stack_ x = true /\ is_task (cb_ x) /\ context_ok x.

Definition has_fiber s (f : Z) (P : Fiber T -> Prop) : Prop :=
  exists x, fibers (store s) !! f = Some x /\ P x.

(** What holds of the scheduler whatever fiber runs. *)
Record scheduler_ok s (own : Z) : Prop := {
  ok_created : forall f x, fibers (store s) !! f = Some x -> f <= created (store s);
  ok_pending : forall f, f ∈ pendingFunctors_ s -> f <> own -> has_fiber s f fiber_ok;
  ok_idle : (idleFiber s ∉ pendingFunctors_ s) /\ doing s <> Some (idleFiber s) /\
            idleFiber s <= created (store s)
}.

(** Between two iterations. *)
Record inv s : Prop := {
  inv_ok : forall own, scheduler_ok s own;
  inv_current : thread_current_fiber (store s) = Some (first_fiber (store s));
  inv_doing : forall f, doing s = Some f -> has_fiber s f fiber_ok;
  inv_idle : has_fiber s (idleFiber s) (fun x => stack_ x = true /\ state_ x <> EXEC)
}.

(** While fiber [f] runs. *)
Record running s (f : Z) : Prop := {
  run_ok : scheduler_ok s f;
  run_current : thread_current_fiber (store s) = Some f;
  run_not_idle : f <> idleFiber s;
  run_fiber : has_fiber s f (fun x => stack_ x = true /\ is_task (cb_ x) /\ state_ x = EXEC)
}.

(** From [s] to [s'] nothing but fiber [own] and new fibers has changed, and
    only these were added to the queue. *)
Record extends (own : Z) s s' : Prop := {
  ext_created : created (store s) <= created (store s');
  ext_first : first_fiber (store s') = first_fiber (store s);
  ext_idle : idleFiber s' = idleFiber s;
  ext_doing : doing s' = doing s;
  ext_flags : clean_ s' = clean_ s /\ autoStop_ s' = autoStop_ s /\
              activeThreadCount_ s' = activeThreadCount_ s /\
              idleThreadCount_ s' = idleThreadCount_ s;
  ext_keep : forall g, g <> own -> g <= created (store s) ->
             fibers (store s') !! g = fibers (store s) !! g;
  ext_queue : exists l, pendingFunctors_ s' = pendingFunctors_ s ++ l /\
              forall g, g ∈ l -> g = own \/ created (store s) < g
}.

(** The part of it that outlives an iteration. *)
Record keeps (own : Z) s s' : Prop := {
  keep_created : created (store s) <= created (store s');
  keep_idle : idleFiber s' = idleFiber s;
  keep_fibers : forall g, g <> own -> g <= created (store s) ->
                fibers (store s') !! g = fibers (store s) !! g;
  keep_queue : forall g, g ∈ pendingFunctors_ s' ->
               g ∈ pendingFunctors_ s \/ g = own \/ created (store s) < g
}.

Lemma extends_keeps own s s' : extends own s s' -> keeps own s s'.
Proof.
  intros [A _ B _ _ C (l & Q & N)]. split; [done..|]. intros g.
  rewrite Q. intros [?|?%N]%elem_of_app; auto.
Qed.

Lemma keeps_trans own s1 s2 s3 : keeps own s1 s2 -> keeps own s2 s3 -> keeps own s1 s3.
Proof.
  intros [A1 B1 C1 D1] [A2 B2 C2 D2]. split; [lia|congruence| |].
  - intros g Hg Hc. rewrite C2, C1 by (done || lia). done.
  - intros g Hg. destruct (D2 g Hg) as [H|[H|H]]; [auto|auto|]. right; right. lia.
Qed.

Lemma extends_refl own s : extends own s s.
Proof. split; try done. exists []. rewrite app_nil_r. set_solver. Qed.

Lemma extends_trans own s1 s2 s3 : extends own s1 s2 -> extends own s2 s3 -> extends own s1 s3.
Proof.
  intros [C1 F1 I1 D1 (A1 & B1 & E1 & G1) K1 (l1 & Q1 & N1)]
    [C2 F2 I2 D2 (A2 & B2 & E2 & G2) K2 (l2 & Q2 & N2)].
  split; [lia|congruence|congruence|congruence|split_and!; congruence| |].
  - intros g Hg Hc. rewrite K2, K1 by (done || lia). done.
  - exists (l1 ++ l2). split; [rewrite Q2, Q1; by rewrite app_assoc|].
    intros g [Hg|Hg]%elem_of_app; [auto|]. destruct (N2 g Hg); [auto|]. right. lia.
Qed.
End invariant.
#[export] Hint Resolve extends_refl : qslary.

(** ** The interface of the virtual methods *)

(** [Wakeup] touches the derived class's part only; [Idle], called on the
    running idle fiber when [idle_env] holds, does not fault and returns to the
    loop with the queue possibly extended by new fibers. *)
Class WakeupsLaws (T X : Type) `{!Wakeups T X} : Prop := {
  wakeup_law (s : Scheduler T X) : exists x, Wakeup s = set_derived s x
}.
Class VirtualsLaws (T X : Type) `{!Virtuals T X} : Type := {
  VirtualsLaws_wakeup :: WakeupsLaws T X;
  idle_env : X -> Prop;
  idle_law s :
    idle_env (derived s) -> scheduler_ok s (idleFiber s) ->
    thread_current_fiber (store s) = Some (idleFiber s) ->
    has_fiber s (idleFiber s) (fun x => stack_ x = true /\ state_ x = EXEC) ->
    exists o, Idle s = Ret o /\
      forall s', o = Some s' ->
        extends (idleFiber s) s s' /\ scheduler_ok s' (idleFiber s) /\
        (idleFiber s ∉ pendingFunctors_ s') /\
        thread_current_fiber (store s') = Some (first_fiber (store s)) /\
        has_fiber s' (idleFiber s) (fun x => stack_ x = true)
}.

(** ** Operations on the store *)
Section store_ops.
Context {T X : Type}.
Implicit Types (s : Scheduler T X) (st : Store T).

Lemma update_ret st f x g :
  fibers st !! f = Some x -> update st f g = Ret (set_fibers st (<[f := g x]> (fibers st))).
Proof. intros H. unfold update. by rewrite H. Qed.

Lemma yield_to_ret st f x (y : State) k :
  thread_current_fiber st = Some f -> fibers st !! f = Some x -> state_ x = EXEC ->
  yield_to y st k =
    Ret (SetThreadCurrentFiber
      (set_fibers st (<[f := with_ctx (with_state x y) (Suspended k)]> (fibers st)))
      (Some (first_fiber st))).
Proof.
  intros Hc Hx Hs. unfold yield_to, GetThreadCurrentFiber. rewrite Hc, Hx. cbn.
  rewrite Hs. cbn. rewrite (update_ret _ _ x) by done. cbn. unfold swapOut.
  rewrite (update_ret _ _ (with_state x y)) by (cbn; by rewrite lookup_insert_eq).
  cbn. by rewrite insert_insert_eq.
Qed.

Lemma FiberRun_end_ret st f x threw :
  thread_current_fiber st = Some f -> fibers st !! f = Some x ->
  FiberRun_end st threw =
    Ret (SetThreadCurrentFiber
      (set_fibers st (<[f := with_ctx (if threw then with_state x EXCEPTION
                                       else with_state (with_cb x None) TERM) Finished]> (fibers st)))
      (Some (first_fiber st))).
Proof.
  intros Hc Hx. unfold FiberRun_end, GetThreadCurrentFiber. rewrite Hc.
  rewrite (update_ret _ _ x) by done. cbn. unfold swapOut.
  erewrite update_ret by (cbn; by rewrite lookup_insert_eq). cbn. by rewrite insert_insert_eq.
Qed.

Lemma swapIn_ret st f x :
  fibers st !! f = Some x -> state_ x <> EXEC ->
  swapIn st f = Ret (SetThreadCurrentFiber
    (set_fibers st (<[f := with_state x EXEC]> (fibers st))) (Some f)).
Proof.
  intros Hx Hs. unfold swapIn. cbn. rewrite Hx. cbn.
  rewrite bool_decide_eq_false_2 by done. cbn. by rewrite (update_ret _ _ x).
Qed.
End store_ops.

(** ** Scheduling a function *)
Section scheduling.
Context {T X : Type} `{!Wakeups T X, !WakeupsLaws T X}.
Implicit Types (s : Scheduler T X).

(** Changing the derived part changes nothing the invariants speak of. *)
Lemma scheduler_ok_derived s x own : scheduler_ok s own -> scheduler_ok (set_derived s x) own.
Proof. intros [A B C]. split; [exact A|exact B|exact C]. Qed.

Lemma extends_derived own s s' x : extends own s s' -> extends own s (set_derived s' x).
Proof. intros [A B C D E F G]. split; [exact A|exact B|exact C|exact D|exact E|exact F|exact G]. Qed.

(** The new fiber and the queue after [scheduler]. *)
Definition new_fiber s (cb : option (callback T)) : Fiber T :=
  mkFiber (u64 (created (store s) + 1)) INIT Fresh true cb.

Lemma scheduler_eq s cb : exists x,
  scheduler s cb = set_derived (set_pending (set_store s (new_Fiber (store s) cb).2)
    (pendingFunctors_ s ++ [created (store s) + 1])) x.
Proof.
  unfold scheduler, schedulerNoLock. cbn. case_bool_decide as E; [apply wakeup_law|].
  by eexists.
Qed.

Lemma scheduler_ext own s cb : extends own s (scheduler s cb).
Proof.
  destruct (scheduler_eq s cb) as [x ->]. apply extends_derived.
  split; try done; cbn; [lia| |].
  - intros g _ Hg. rewrite lookup_insert_ne by lia. done.
  - eexists. split; [done|]. intros g Hg%list_elem_of_singleton. lia.
Qed.

Lemma scheduler_scheduler_ok own s cb :
  scheduler_ok s own -> is_task cb -> scheduler_ok (scheduler s cb) own.
Proof.
  intros [Hc Hp (Hi & Hd & Hle)] Hcb. destruct (scheduler_eq s cb) as [x ->].
  apply scheduler_ok_derived. split; cbn.
  - intros f y. destruct (decide (f = created (store s) + 1)) as [->|Hf]; [lia|].
    rewrite lookup_insert_ne by done. intros H%Hc. lia.
  - intros f [Hf|Hf]%elem_of_app Ho; unfold has_fiber; cbn;
      [|apply list_elem_of_singleton in Hf as ->].
    + destruct (Hp f Hf Ho) as (y & Hy & Hok). exists y. split; [|done].
      pose proof (Hc _ _ Hy). by rewrite lookup_insert_ne by lia.
    + eexists. split; [apply lookup_insert_eq|]. done.
  - split_and!; [|done|lia]. intros [?|?%list_elem_of_singleton]%elem_of_app; [done|lia].
Qed.

Lemma scheduler_store s cb f :
  f <= created (store s) -> fibers (store (scheduler s cb)) !! f = fibers (store s) !! f.
Proof. intros Hf. exact (ext_keep _ _ _ (scheduler_ext (f - 1) s cb) f ltac:(lia) Hf). Qed.

Lemma scheduler_current s cb :
  thread_current_fiber (store (scheduler s cb)) = thread_current_fiber (store s).
Proof. by destruct (scheduler_eq s cb) as [x ->]. Qed.

Lemma scheduler_emitted s cb : emitted (scheduler s cb) = emitted s.
Proof. by destruct (scheduler_eq s cb) as [x ->]. Qed.

Lemma scheduler_new s cb :
  pendingFunctors_ (scheduler s cb) = pendingFunctors_ s ++ [created (store s) + 1] /\
  fibers (store (scheduler s cb)) !! (created (store s) + 1) = Some (new_fiber s cb).
Proof. destruct (scheduler_eq s cb) as [x ->]. split; [done|]. apply lookup_insert_eq. Qed.

Lemma scheduler_running s f cb : running s f -> is_task cb -> running (scheduler s cb) f.
Proof.
  intros [Hok Hc Hn (x & Hx & HP)] Hcb.
  split; [by apply scheduler_scheduler_ok|by rewrite scheduler_current| |].
  { by rewrite (ext_idle _ _ _ (scheduler_ext f s cb)). }
  exists x. split; [|done]. rewrite scheduler_store; [done|]. by apply (ok_created _ _ Hok f x).
Qed.
End scheduling.

(** ** Running a callback *)
Section executing.
Context {T X : Type} `{!Virtuals T X, !VirtualsLaws T X}.
Context (body : T -> list (action T)).
Implicit Types (s : Scheduler T X).

(** Writing the fiber that ends its run, and going back to the loop's fiber. *)
Definition left s (f : Z) (x : Fiber T) : Scheduler T X :=
  set_store s (SetThreadCurrentFiber (set_fibers (store s) (<[f := x]> (fibers (store s))))
    (Some (first_fiber (store s)))).

(** Back in the loop after fiber [f] ran. *)
Record returned s (f : Z) : Prop := {
  ret_ok : forall own, scheduler_ok s own;
  ret_current : thread_current_fiber (store s) = Some (first_fiber (store s));
  ret_fiber : has_fiber s f (fun x => fiber_ok x /\ state_ x <> INIT)
}.

Lemma left_extends s f x : f <= created (store s) -> extends f s (left s f x).
Proof.
  intros Hf. split; try done.
  - intros g Hg _. cbn. by rewrite lookup_insert_ne.
  - exists []. cbn. rewrite app_nil_r. set_solver.
Qed.

Lemma left_returned s f x : scheduler_ok s f -> f <= created (store s) -> fiber_ok x ->
  state_ x <> INIT -> returned (left s f x) f.
Proof.
  intros [Hc Hp Hi] Hf Hx Hn. split; [|done|].
  - intros own. split; cbn; [|intros g Hg _|exact Hi].
    + intros g y. destruct (decide (g = f)) as [->|Hg]; [done|].
      rewrite lookup_insert_ne by done. apply Hc.
    + destruct (decide (g = f)) as [->|Hgf].
      * exists x. split; [apply lookup_insert_eq|done].
      * destruct (Hp g Hg Hgf) as (y & Hy & Hok). exists y.
        split; [cbn; by rewrite lookup_insert_ne|done].
  - exists x. split; [apply lookup_insert_eq|done].
Qed.

Lemma running_created s f : running s f -> f <= created (store s).
Proof. intros [Hok _ _ (x & Hx & _)]. by eapply ok_created. Qed.

Lemma emit_running s f n : running s f -> running (emit s n) f.
Proof. intros [[Hc Hp Hi] HC HN HF]. split; [by split|done|done|done]. Qed.

Lemma emit_ext s f n : extends f s (emit s n).
Proof. destruct (extends_refl f s) as [A B C D E F G]. by split. Qed.

Lemma scheduler_fiber_ext s f : extends f s (scheduler_fiber (set_store s (store s)) f).
Proof.
  destruct (extends_refl f s) as [A B C D E G _]. split; [exact A|exact B|exact C|exact D|exact E|exact G|].
  exists [f]. split; [done|]. intros g Hg%list_elem_of_singleton. by left.
Qed.

Lemma running_self s f : running s f -> running (scheduler_fiber (set_store s (store s)) f) f.
Proof.
  intros [[Hc Hp (Hi & Hd & Hl)] HC HN HF]. split; [|done|done|done]. split; [done| |].
  - intros g [Hg|Hg%list_elem_of_singleton]%elem_of_app Hgf; [by apply Hp|done].
  - split_and!; [|done|done]. intros [?|Hf%list_elem_of_singleton]%elem_of_app; [done|].
    by apply HN.
Qed.

(** A callback run by fiber [f] comes back to the loop, and touches nothing but
    [f] and new fibers. *)
Lemma exec_ok f k : forall s, running s f ->
  exists s', exec s k = Ret s' /\ returned s' f /\ extends f s s'.
Proof.
  induction k as [|[n|cb| | | |] k IH]; intros s Hr; cbn [exec];
    destruct (run_fiber _ _ Hr) as (x & Hx & Hst & Hcb & Hex);
    pose proof (run_current _ _ Hr) as Hcur; pose proof (running_created _ _ Hr) as Hle.
  - rewrite (FiberRun_end_ret _ f x) by done. cbn [obind].
    eexists. split; [done|]. split; [|by apply left_extends].
    apply left_returned; [apply Hr|done| |done]. by repeat split.
  - destruct (IH (emit s n)) as (s' & E & R & Ex); [by apply emit_running|].
    exists s'. split_and!; [done|done|]. eapply extends_trans; [apply emit_ext|exact Ex].
  - destruct (IH (scheduler s (Task <$> cb))) as (s' & E & R & Ex).
    { apply scheduler_running; [done|]. by destruct cb. }
    exists s'. split_and!; [done|done|]. eapply extends_trans; [apply scheduler_ext|exact Ex].
  - unfold GetThreadCurrentFiber. rewrite Hcur.
    destruct (IH (scheduler_fiber (set_store s (store s)) f)) as (s' & E & R & Ex).
    { by apply running_self. }
    exists s'. split_and!; [done|done|]. eapply extends_trans; [apply scheduler_fiber_ext|exact Ex].
  - unfold YieldToReady. rewrite (yield_to_ret _ f x) by done. cbn [obind].
    eexists. split; [done|]. split; [|by apply left_extends].
    apply left_returned; [apply Hr|done| |done]. split_and!; [done|done|]. by eexists.
  - unfold YieldToHold. rewrite (yield_to_ret _ f x) by done. cbn [obind].
    eexists. split; [done|]. split; [|by apply left_extends].
    apply left_returned; [apply Hr|done| |done]. split_and!; [done|done|]. by eexists.
  - rewrite (FiberRun_end_ret _ f x) by done. cbn [obind].
    eexists. split; [done|]. split; [|by apply left_extends].
    apply left_returned; [apply Hr|done| |done]. by repeat split.
Qed.

(** ** The loop *)
Lemma take_runnable_ok s l :
  (forall f, f ∈ l -> has_fiber s f fiber_ok) ->
  exists r, take_runnable (fibers (store s)) l = Ret r /\
    match r with
    | Some (f, rest) => exists l1 l2, l = l1 ++ f :: l2 /\ rest = l1 ++ l2 /\
        Forall (fun g => has_fiber s g (fun x => runnable (state_ x) = false)) l1 /\
        has_fiber s f (fun x => runnable (state_ x) = true)
    | None => Forall (fun g => has_fiber s g (fun x => runnable (state_ x) = false)) l
    end.
Proof.
  induction l as [|f l IH]; intros Hl; cbn; [eexists; split; [done|constructor]|].
  destruct (Hl f) as (x & Hx & _); [by left|]. rewrite Hx. cbn.
  destruct (runnable (state_ x)) eqn:Hrun.
  { eexists. split; [done|]. exists [], l. split_and!; [done|done|by constructor|by exists x]. }
  destruct IH as (r & -> & Hr); [intros g Hg; apply Hl; by right|]. cbn.
  eexists. split; [done|]. destruct r as [[g rest]|].
  - destruct Hr as (l1 & l2 & -> & -> & Hf & Hg). exists (f :: l1), l2.
    split_and!; [done|done| |done]. apply Forall_cons; split; [by exists x|done].
  - apply Forall_cons; split; [by exists x|done].
Qed.

(** Dropping the loop's reference destroys a fiber only in a final state. *)
Lemma release_ok s : inv s ->
  exists m count, let s' := set_doing (set_store s (mkStore m (created (store s)) count
      (thread_current_fiber (store s)) (first_fiber (store s)))) None in
    release s = Ret s' /\ inv s' /\ m ⊆ fibers (store s) /\
    (forall g, doing s <> Some g \/ g ∈ pendingFunctors_ s \/
       has_fiber s g (fun x => exists k, ctx_ x = Suspended k) -> m !! g = fibers (store s) !! g).
Proof.
  intros Hinv. pose proof Hinv as [Hok Hcur Hdo Hidle]. destruct s as [st pend ac idl cl au d idf em der].
  cbn in *. unfold release; cbn.
  assert (forall m count, m ⊆ fibers st -> (forall g, d <> Some g \/ g ∈ pend -> m !! g = fibers st !! g) ->
    inv (mkScheduler (mkStore m (created st) count (thread_current_fiber st) (first_fiber st))
           pend ac idl cl au None idf em der)) as Hkeep.
  { intros m count Hsub Hm. destruct (Hok 0) as [Hc _ (Hi & Hd & Hl)]. cbn in *.
    assert (forall f, f ∈ pend -> has_fiber (mkScheduler (mkStore m (created st) count (thread_current_fiber st)
      (first_fiber st)) pend ac idl cl au None idf em der) f fiber_ok) as Hp.
    { intros f Hf. destruct (ok_pending _ _ (Hok (f - 1)) f Hf ltac:(lia)) as (x & Hx & HP).
      exists x. split; [|done]. cbn in *. rewrite Hm by auto. done. }
    split; [|done|done|].
    - intros own. split; [|intros f Hf _; by apply Hp|by split_and!].
      intros f x Hx. cbn in *. eapply Hc, lookup_weaken; eauto.
    - destruct Hidle as (x & Hx & HP). exists x. split; [|done]. cbn in *. rewrite Hm by auto. done. }
  destruct d as [f|].
  2:{ exists (fibers st), (s_fiber_count st). split_and!; [by destruct st|by apply Hkeep|done|done]. }
  destruct (Hdo f eq_refl) as (x & Hx & Hst & Hcb & Hctx). cbn in *. rewrite Hx. cbn.
  assert (Ret (mkScheduler st pend ac idl cl au None idf em der) =
    Ret (mkScheduler (mkStore (fibers st) (created st) (s_fiber_count st) (thread_current_fiber st)
      (first_fiber st)) pend ac idl cl au None idf em der)) as Hsame by (by destruct st).
  assert (forall k, ctx_ x = Suspended k \/ f ∈ pend ->
    exists m count, Ret (mkScheduler st pend ac idl cl au None idf em der) =
      Ret (mkScheduler (mkStore m (created st) count (thread_current_fiber st)
        (first_fiber st)) pend ac idl cl au None idf em der) /\
      inv (mkScheduler (mkStore m (created st) count (thread_current_fiber st) (first_fiber st))
        pend ac idl cl au None idf em der) /\ m ⊆ fibers st /\
      forall g, Some f <> Some g \/ g ∈ pend \/
        has_fiber (mkScheduler st pend ac idl cl au (Some f) idf em der) g
          (fun x => exists k, ctx_ x = Suspended k) -> m !! g = fibers st !! g) as Hstay.
  { intros k _. exists (fibers st), (s_fiber_count st). split_and!; [done|by apply Hkeep|done|done]. }
  unfold context_ok in Hctx.
  destruct (ctx_ x) as [|k|] eqn:Ectx; [|apply (Hstay k); auto|];
    (case_bool_decide as Hin; [apply (Hstay []); auto|]);
    unfold delete_Fiber; rewrite Hx; cbn; rewrite Hst;
    exists (delete f (fibers st)), (u32 (s_fiber_count st - 1));
    (split; [by destruct (state_ x) eqn:Es; cbn; try done; destruct Hctx|]);
    (assert (forall g, Some f <> Some g \/ g ∈ pend -> delete f (fibers st) !! g = fibers st !! g)
      by (intros g Hg; apply lookup_delete_ne; intros ->; by destruct Hg));
    split_and!; [apply Hkeep; [apply delete_subseteq|done]|apply delete_subseteq| |
      apply Hkeep; [apply delete_subseteq|done]|apply delete_subseteq|];
    (intros g [Hg|[Hg|(y & Hy & k & Hk)]]; [auto|auto|]; cbn in Hy;
     apply lookup_delete_ne; intros ->; congruence).
Qed.

(** The switch makes the fiber the running one. *)
Lemma swapped_in s f x :
  (forall own, scheduler_ok s own) -> f <> idleFiber s ->
  fibers (store s) !! f = Some x -> fiber_ok x ->
  running (set_store s (SetThreadCurrentFiber
    (set_fibers (store s) (<[f := with_state x EXEC]> (fibers (store s)))) (Some f))) f.
Proof.
  intros Hok Hn Hx (Hst & Hcb & _). destruct (Hok f) as [Hc Hp Hi]. split; [split|done|done|].
  - intros g y. cbn. destruct (decide (g = f)) as [->|]; [intros _; by eapply Hc|].
    rewrite lookup_insert_ne by done. apply Hc.
  - intros g Hg Hgf. destruct (Hp g Hg Hgf) as (y & Hy & HP). exists y. split; [|done].
    cbn. by rewrite lookup_insert_ne.
  - exact Hi.
  - eexists. split; [apply lookup_insert_eq|done].
Qed.

(** Switching to a fiber that can be run. *)
Lemma switch_to_ok s f :
  (forall own, scheduler_ok s own) -> f <> idleFiber s ->
  has_fiber s f (fun x => fiber_ok x /\ runnable (state_ x) = true) ->
  exists s', switch_to body s f = Ret s' /\ returned s' f /\ extends f s s'.
Proof.
  intros Hok Hn (x & Hx & (Hst & Hcb & Hctx) & Hrun). unfold switch_to.
  assert (state_ x <> EXEC) as Hne by (by intros E; rewrite E in Hrun).
  rewrite (swapIn_ret _ _ x) by done. cbn. rewrite lookup_insert_eq. cbn.
  set (s1 := set_store s _).
  assert (running s1 f) as Hr by (by eapply swapped_in).
  assert (extends f s s1) as Hext.
  { split; try done.
    - intros g Hg _. cbn. by rewrite lookup_insert_ne.
    - exists []. cbn. rewrite app_nil_r. set_solver. }
  assert (forall k, exists s', exec s1 k = Ret s' /\ returned s' f /\ extends f s s') as Hexec.
  { intros k. destruct (exec_ok f k s1 Hr) as (s' & E & R & Ex). exists s'.
    split_and!; [done|done|by eapply extends_trans]. }
  unfold context_ok in Hctx. destruct (ctx_ x) as [|k|] eqn:Ectx; [|apply Hexec|].
  - destruct (cb_ x) as [[t| |]|]; [exact (Hexec _)|done|done|].
    destruct (exec_ok f [Throw] s1 Hr) as (s' & E & R & Ex). exists s'.
    split_and!; [exact E|done|by eapply extends_trans].
  - by destruct (state_ x); try done; destruct Hctx.
Qed.

(** What an iteration leaves alone: a suspended fiber that is not queued. *)
Definition asleep s (f : Z) (x : Fiber T) : Prop :=
  f <> idleFiber s /\ (f ∉ pendingFunctors_ s) /\ fibers (store s) !! f = Some x /\
  exists k, ctx_ x = Suspended k.

Lemma keeps_asleep s s' own f x :
  (forall g y, fibers (store s) !! g = Some y -> g <= created (store s)) ->
  keeps own s s' -> f <> own -> asleep s f x -> asleep s' f x.
Proof.
  intros Hc [A B C D] Hf (Hi & Hp & Hx & Hk).
  pose proof (Hc _ _ Hx) as Hle. split_and!; [congruence| |by rewrite C|done].
  intros Hl. destruct (D f Hl) as [?|[?|?]]; [done|done|lia].
Qed.

Lemma finish_run_ok s f :
  returned s f -> doing s = Some f ->
  has_fiber s (idleFiber s) (fun x => stack_ x = true /\ state_ x <> EXEC) ->
  exists s', finish_run s f = Ret s' /\ inv s' /\ extends f s s'.
Proof.
  intros [Hok Hc (x & Hx & Hfok & Hn)] Hd (y & Hy & Hyp). pose proof Hfok as (Hst & Hcb & Hctx).
  unfold finish_run. rewrite Hx. cbn [deref obind].
  assert (inv s) as Hinv.
  { split; [done|done| |by exists y]. intros g Hg. assert (g = f) as -> by congruence. by exists x. }
  assert (exists s', Ret s = Ret s' /\ inv s' /\ extends f s s') as Hsame by eauto with qslary.
  unfold context_ok in Hctx. destruct (state_ x) eqn:Es; try done.
  - rewrite (update_ret _ _ x) by done. cbn [obind].
    assert (with_state x HOLD = x) as -> by (destruct x; cbn in *; by subst).
    rewrite insert_id by done.
    assert (set_store s (set_fibers (store s) (fibers (store s))) = s) as ->
      by (by destruct s as [[] ? ? ? ? ? ? ? ? ?]). exact Hsame.
  - eexists. split; [done|]. split; [|apply scheduler_ext].
    pose proof (ok_created _ _ (Hok f) _ _ Hx) as Hle.
    pose proof (ok_created _ _ (Hok f) _ _ Hy) as Hle'.
    pose proof (scheduler_ext f s (cb_ x)) as [A B C D E F G].
    split.
    + intros own. by apply scheduler_scheduler_ok.
    + by rewrite scheduler_current, B.
    + intros g Hg. assert (g = f) as -> by congruence. exists x.
      by rewrite scheduler_store.
    + rewrite C. exists y. by rewrite scheduler_store.
Qed.

(** Running a fiber of the queue. *)
Lemma run_doing_ok s f rest :
  inv s -> f ∈ pendingFunctors_ s -> rest ⊆ pendingFunctors_ s ->
  has_fiber s f (fun x => runnable (state_ x) = true) ->
  exists s', run_doing body s f rest = Ret s' /\ inv s' /\ keeps f s s'.
Proof.
  intros [Hok Hc Hd (y & Hy & Hyp)] Hf Hrest (x & Hx & Hrun). unfold run_doing.
  destruct (wakeup_law (set_doing (set_pending s rest) (Some f))) as [w ->].
  pose proof (Hok f) as [Hcr Hp (Hi & _ & Hl)].
  destruct (ok_pending _ _ (Hok (f - 1)) f Hf ltac:(lia)) as (x' & Hx' & Hfok).
  assert (x' = x) as -> by congruence. assert (f <> idleFiber s) as Hfi by (by intros ->).
  set (s0 := add_active _ 1).
  assert (forall own, scheduler_ok s0 own) as Hok0.
  { intros own. split; [exact Hcr| |].
    - intros g Hg Ho. exact (ok_pending _ _ (Hok (g - 1)) g (Hrest _ Hg) ltac:(lia)).
    - split_and!; [intros H; by apply Hi, Hrest|cbn; congruence|done]. }
  destruct (switch_to_ok s0 f Hok0 Hfi) as (s1 & E1 & R1 & X1); [by exists x|].
  rewrite E1. cbn [obind].
  destruct (finish_run_ok (add_active s1 (-1)) f) as (s2 & E2 & I2 & X2%extends_keeps).
  - destruct R1 as [A B C]. split; [|done|done]. intros own. destruct (A own). by split.
  - exact (ext_doing _ _ _ X1).
  - cbn. rewrite (ext_idle _ _ _ X1). exists y. split; [|done].
    cbn. rewrite (ext_keep _ _ _ X1); [done|by apply not_eq_sym|done].
  - exists s2. split_and!; [done|done|]. apply extends_keeps in X1.
    eapply (keeps_trans _ _ s1); [|by destruct X2; split].
    destruct X1 as [A B C D]. split; [done|done|done|].
    intros g Hg. destruct (D g Hg) as [H|H]; [|auto]. left. by apply Hrest.
Qed.

(** Switching to the idle fiber and back. *)
Lemma idle_settled s st y :
  scheduler_ok s (idleFiber s) -> doing s = None -> (idleFiber s ∉ pendingFunctors_ s) ->
  thread_current_fiber (store s) = Some (first_fiber (store s)) ->
  st = set_fibers (store s) (<[idleFiber s := y]> (fibers (store s))) ->
  stack_ y = true -> state_ y <> EXEC ->
  inv (add_idle (set_store s st) (-1)).
Proof.
  intros [Hc Hp (Hi & Hd & Hl)] Hdn Hnin Hcur -> Hst Hne. split; [|done|cbn; congruence|].
  - intros own. split; [| |by split_and!].
    + intros g z. cbn. destruct (decide (g = idleFiber s)) as [->|]; [done|].
      rewrite lookup_insert_ne by done. apply Hc.
    + intros g Hg _. assert (g <> idleFiber s) as Hgi by (by intros ->).
      destruct (Hp g Hg Hgi) as (z & Hz & HP). exists z. cbn. by rewrite lookup_insert_ne.
  - exists y. cbn. by rewrite lookup_insert_eq.
Qed.

Lemma idle_round_ok s y :
  inv s -> doing s = None -> idle_env (derived s) ->
  fibers (store s) !! idleFiber s = Some y -> stack_ y = true -> state_ y <> EXEC ->
  exists r, idle_round s = Ret r /\
    forall s', r = Next s' \/ r = Exit s' -> inv s' /\ keeps (idleFiber s) s s'.
Proof.
  intros [Hok Hc Hdo _] Hd Henv Hy Hst Hne. unfold idle_round. cbn [store add_idle idleFiber].
  rewrite (swapIn_ret _ _ y) by done. cbn [obind].
  set (s0 := set_store _ _).
  destruct (idle_law s0) as (o & Eo & Ho).
  - exact Henv.
  - destruct (Hok (idleFiber s)) as [Hcr Hp (Hi & Hdi & Hl)]. split; [| |by split_and!].
    + intros g z. cbn. destruct (decide (g = idleFiber s)) as [->|]; [done|].
      rewrite lookup_insert_ne by done. apply Hcr.
    + intros g Hg Hgi. destruct (Hp g Hg Hgi) as (z & Hz & HP). exists z. cbn.
      by rewrite lookup_insert_ne.
  - done.
  - exists (with_state y EXEC). cbn. by rewrite lookup_insert_eq.
  - rewrite Eo. cbn [obind]. destruct o as [s'|]; [|eexists; split; [done|]; by intros s' [[=]|[=]]].
    destruct (Ho s' eq_refl) as (X1 & Hok' & Hnin & Hcur & (z & Hz & Hzs)). clear Ho.
    assert (idleFiber s' = idleFiber s) as Hid by exact (ext_idle _ _ _ X1).
    assert (doing s' = None) as Hd' by (rewrite (ext_doing _ _ _ X1); exact Hd).
    assert (keeps (idleFiber s) s s') as Hk.
    { destruct (extends_keeps _ _ _ X1) as [A B C D]. split; [exact A|exact B| |exact D].
      intros g Hg Hl. rewrite C by done. cbn. by rewrite lookup_insert_ne. }
    change (idleFiber s0) with (idleFiber s) in *. rewrite Hid, Hz. cbn [deref obind].
    assert (forall w, stack_ w = true -> state_ w <> EXEC ->
      exists r, Ret (Next (add_idle (set_store s' (set_fibers (store s')
        (<[idleFiber s := w]> (fibers (store s'))))) (-1))) = Ret r /\
      forall s', r = Next s' \/ r = Exit s' -> inv s' /\ keeps (idleFiber s) s s') as Hend.
    { intros w Hw Hwe. eexists. split; [done|]. intros s'' [[= <-]|[=]]. split.
      - rewrite <-Hid. eapply idle_settled; rewrite ?Hid; [exact Hok'|exact Hd'|exact Hnin| |done|done|done].
        rewrite Hcur. by rewrite (ext_first _ _ _ X1).
      - destruct Hk as [A B C D]. split; [exact A|exact B| |exact D].
        intros g Hg Hl. cbn. rewrite lookup_insert_ne by done. by apply C. }
    destruct (state_ z) eqn:Ez; cbn [obind];
      try (rewrite (update_ret _ _ z) by done; cbn [obind]; by apply Hend);
      (assert (store s' = set_fibers (store s') (<[idleFiber s := z]> (fibers (store s')))) as ->
        by (rewrite insert_id by done; by destruct (store s')); apply Hend; congruence).
Qed.

Lemma run_idle_ok s :
  inv s -> doing s = None -> idle_env (derived s) ->
  exists r, run_idle s = Ret r /\
    forall s', r = Next s' \/ r = Exit s' -> inv s' /\ keeps (idleFiber s) s s'.
Proof.
  intros Hinv Hd Henv. destruct (inv_idle _ Hinv) as (y & Hy & Hst & Hne). unfold run_idle.
  rewrite Hy. cbn [deref obind].
  assert (exists r, Ret (Exit s) = Ret r /\ forall s', r = Next s' \/ r = Exit s' ->
    inv s' /\ keeps (idleFiber s) s s') as Hexit.
  { eexists. split; [done|]. intros s' [[=]|[= <-]]. split; [done|].
    apply extends_keeps, extends_refl. }
  destruct (state_ y) eqn:Ey; try done; by apply (idle_round_ok s y); rewrite ?Ey.
Qed.

(** An iteration neither faults nor breaks the invariant, and leaves sleeping
    fibers asleep. *)
Lemma run_step_ok s :
  inv s -> idle_env (derived s) ->
  exists r, run_step body s = Ret r /\
    forall s', r = Next s' \/ r = Exit s' ->
      inv s' /\ forall f x, asleep s f x -> asleep s' f x.
Proof.
  intros Hinv Henv. unfold run_step.
  destruct (release_ok s Hinv) as (m & count & Hrel & Hinv1 & Hsub & Hm).
  set (s1 := set_doing _ _) in Hrel, Hinv1. rewrite Hrel. cbn [obind].
  assert (forall f x, asleep s f x -> asleep s1 f x) as Hsl.
  { intros f x (A & B & C & D). split_and!; [done|done| |done]. cbn. rewrite Hm; [done|].
    right; right. by exists x. }
  pose proof (ok_created _ _ (inv_ok _ Hinv1 0)) as Hcr.
  destruct (take_runnable_ok s1 (pendingFunctors_ s1)) as (r & Hr & Hspec).
  { intros f Hf. by apply (ok_pending _ _ (inv_ok _ Hinv1 (f - 1))); [|lia]. }
  rewrite Hr. cbn [obind]. destruct r as [[f rest]|].
  - destruct Hspec as (l1 & l2 & Hl & -> & _ & Hrun).
    assert (f ∈ pendingFunctors_ s1) as Hf by (rewrite Hl; set_solver).
    destruct (run_doing_ok s1 f (l1 ++ l2)) as (s' & -> & I & K); [done|done|rewrite Hl; set_solver|done|].
    cbn [obind]. eexists. split; [done|]. intros s'' [[= <-]|[=]]. split; [done|].
    intros g x Hg%Hsl. eapply keeps_asleep; [exact Hcr|exact K| |done].
    intros ->. by destruct Hg as (_ & [] & _).
  - destruct (run_idle_ok s1 Hinv1 eq_refl Henv) as (r & -> & Hr'). exists r. split; [done|].
    intros s' Hs'. destruct (Hr' s' Hs') as [I K]. split; [done|].
    intros g x Hg%Hsl. eapply keeps_asleep; [exact Hcr|exact K| |done]. apply Hg.
Qed.
End executing.

(** ** The base class implements the interface *)
#[export] Instance Scheduler_wakeup_law T : WakeupsLaws T unit.
Proof. split. intros [? ? ? ? ? ? ? ? ? x]. by exists x. Qed.

Lemma Scheduler_idle_law T (s : Scheduler T unit) :
  True -> scheduler_ok s (idleFiber s) ->
  thread_current_fiber (store s) = Some (idleFiber s) ->
  has_fiber s (idleFiber s) (fun x => stack_ x = true /\ state_ x = EXEC) ->
  exists o, Idle s = Ret o /\
    forall s', o = Some s' ->
      extends (idleFiber s) s s' /\ scheduler_ok s' (idleFiber s) /\
      (idleFiber s ∉ pendingFunctors_ s') /\
      thread_current_fiber (store s') = Some (first_fiber (store s)) /\
      has_fiber s' (idleFiber s) (fun x => stack_ x = true).
Proof.
  intros _ Hok Hcur (x & Hx & Hst & Hex). cbn [Idle Scheduler_virtuals].
  pose proof (ok_created _ _ Hok _ _ Hx) as Hle.
  pose proof Hok as [Hc Hp (Hi & Hd & Hl)].
  assert (forall y, stack_ y = true -> exists o, Ret (Some (left s (idleFiber s) y)) = Ret o /\
    forall s', o = Some s' ->
        extends (idleFiber s) s s' /\ scheduler_ok s' (idleFiber s) /\
        (idleFiber s ∉ pendingFunctors_ s') /\
        thread_current_fiber (store s') = Some (first_fiber (store s)) /\
        has_fiber s' (idleFiber s) (fun x => stack_ x = true)) as Hend.
  { intros y Hy. eexists. split; [done|]. intros s' [= <-].
    split_and!; [by apply left_extends| |done|done|].
    - split; cbn; [|intros g Hg Hgi|by split_and!].
      + intros g z. destruct (decide (g = idleFiber s)) as [->|]; [done|].
        rewrite lookup_insert_ne by done. apply Hc.
      + destruct (Hp g Hg Hgi) as (z & Hz & HP). exists z. cbn. by rewrite lookup_insert_ne.
    - exists y. cbn. by rewrite lookup_insert_eq. }
  destruct (IsClean s).
  - rewrite (FiberRun_end_ret _ (idleFiber s) x) by done. cbn [obind]. refine (Hend _ _). exact Hst.
  - unfold YieldToHold. rewrite (yield_to_ret _ (idleFiber s) x) by done. cbn [obind]. refine (Hend _ _). exact Hst.
Qed.

#[export] Instance Scheduler_laws T : VirtualsLaws T unit := {
  idle_env _ := True;
  idle_law := Scheduler_idle_law T
}.

(** ** Reachable schedulers *)
Section reachable.
Context {T X : Type} `{!Virtuals T X, !VirtualsLaws T X}.
Context (body : T -> list (action T)).
Implicit Types (s : Scheduler T X).

(** The states of a scheduler whose worker has begun: functions and suspended
    fibers are scheduled, the derived class changes its own part, the scheduler
    is stopped, and the loop iterates. *)
Inductive reachable : Scheduler T X -> Prop :=
| reach_begin created count x : 0 <= created -> reachable (run_begin (start (new_Scheduler created count x)))
| reach_schedule s cb : reachable s -> reachable (scheduler s (Task <$> cb))
| reach_resume s f :
    reachable s -> has_fiber s f fiber_ok -> f <> idleFiber s -> reachable (scheduler_fiber s f)
| reach_derived s x : reachable s -> reachable (set_derived s x)
| reach_stop s : reachable s -> reachable (stop s)
| reach_iterate s s' : reachable s -> idle_env (derived s) -> run_step body s = Ret (Next s') -> reachable s'.

Lemma inv_derived s x : inv s -> inv (set_derived s x).
Proof. intros [A B C D]. split; [intros own; by apply scheduler_ok_derived|exact B|exact C|exact D]. Qed.

Lemma inv_schedule s cb : is_task cb -> inv s -> inv (scheduler s cb).
Proof.
  intros Hcb [A B C (y & Hy & HP)]. pose proof (scheduler_ext 0 s cb) as [E F G H _ K _].
  pose proof (ok_created _ _ (A 0)) as Hc.
  split; [intros own; by apply scheduler_scheduler_ok|by rewrite scheduler_current, F| |].
  - intros f Hf. rewrite H in Hf. destruct (C f Hf) as (x & Hx & Hok). exists x.
    split; [|done]. rewrite scheduler_store; [done|by eapply Hc].
  - rewrite G. exists y. split; [|done]. rewrite scheduler_store; [done|by eapply Hc].
Qed.

Lemma inv_begin c n (x : X) : 0 <= c -> inv (run_begin (T := T) (start (new_Scheduler c n x))).
Proof.
  intros Hc. cbn. split; [|done|done|].
  - intros own. split; cbn; [|set_solver|split_and!; [set_solver|done|lia]].
    intros f y. rewrite !lookup_insert_Some, lookup_empty. intros Hf. naive_solver lia.
  - eexists. cbn. rewrite lookup_insert_eq. done.
Qed.

Lemma reachable_inv s : reachable s -> inv s.
Proof.
  induction 1 as [c n x|s cb _ IH|s f _ IH Hf Hi|s x _ IH|s _ IH|s s' _ IH He Hs].
  - by apply inv_begin.
  - apply inv_schedule; [by destruct cb|done].
  - destruct IH as [A B C D]. split; [|exact B|exact C|exact D]. intros own.
    destruct (A own) as [Hc Hp (Hn & Hd & Hl)]. split; [exact Hc| |].
    + intros g [Hg|Hg%list_elem_of_singleton]%elem_of_app Ho; [by apply Hp|by subst].
    + split_and!; [|exact Hd|exact Hl].
      intros [?|Hg%list_elem_of_singleton]%elem_of_app; [done|]. by apply Hi.
  - by apply inv_derived.
  - destruct IH as [A B C D]. split; [|exact B|exact C|exact D]. intros own. by destruct (A own).
  - destruct (run_step_ok body s IH He) as (r & Er & Hr). rewrite Hs in Er. injection Er as <-.
    by destruct (Hr s' (or_introl eq_refl)).
Qed.

(** C13: no iteration of the loop of a reachable scheduler faults: [swapIn] is never
    called on a fiber that runs, a yield finds its fiber running, and a fiber is
    destroyed only in a final state. *)
Theorem run_safe s :
  reachable s -> idle_env (derived s) ->
  exists r, run_step body s = Ret r /\ (forall s', r = Next s' -> inv s').
Proof.
  intros Hr%reachable_inv He. destruct (run_step_ok body s Hr He) as (r & Er & H).
  exists r. split; [done|]. intros s' ->. by destruct (H s' (or_introl eq_refl)).
Qed.
End reachable.

Lemma run_safe_witness : exists r, run_step example_body (example_start 1) = Ret r.
Proof.
  destruct (run_safe example_body (example_start 1)) as (r & H & _); [|exact I|by exists r].
  refine (reach_schedule example_body _ (Some 1%nat) (reach_begin _ 0 0 () _)). lia.
Defined.
