(* ===== verification/SchedulerQueue.v ===== *)
(** * The scheduler as a queue of jobs

    The abstract scheduler is a queue of jobs: a function, and what is left of
    its actions. It runs the first job until it ends, waits, or yields. The loop
    of [run] refines it for callbacks that schedule themselves only in order to
    hold. *)
From stdpp Require Import base list gmap.
From Stdlib Require Import ZArith Lia.
From S2P Require Import Prelude CLib Fiber Scheduler SchedulerCorrect.
#[local] Set Warnings "-clear-no-such-hyp".
Open Scope Z_scope.

(** ** Specification *)
Section specification.
Context {T : Type} (body : T -> list (action T)).

(** Calling an empty function throws. *)
Definition script (cb : option T) : list (action T) :=
  match cb with Some t => body t | None => [Throw] end.

Abbreviation job := (option T * list (action T))%type.

(** How a run of a job ends: for good, asleep until someone schedules the fiber,
    queued again to go on with the rest, or to be started again. *)
Inductive ending : Type :=
| Ended
| Asleep
| GoesOn (k : list (action T))
| StartsAgain.

(** The jobs it schedules, what it emits, and how it ends, for a callback that
    schedules itself only in order to hold ([cooperative]): what another [ScheduleSelf]
    does, which queues a fiber that goes on running, is left out here. *)
Fixpoint effects (k : list (action T)) : list job * list Z * ending :=
  match k with
  | [] | Throw :: _ => ([], [], Ended)
  | Emit n :: k => let '(sp, em, e) := effects k in (sp, n :: em, e)
  | Schedule cb :: k => let '(sp, em, e) := effects k in ((cb, script cb) :: sp, em, e)
  | ScheduleSelf :: DoYieldToHold :: k => ([], [], GoesOn k)
  | ScheduleSelf :: k => let '(sp, em, e) := effects k in (sp, em, e)
  | DoYieldToReady :: _ => ([], [], StartsAgain)
  | DoYieldToHold :: _ => ([], [], Asleep)
  end.

(** Callbacks that schedule themselves only in order to hold. *)
Fixpoint cooperative (k : list (action T)) : bool :=
  match k with
  | [] => true
  | ScheduleSelf :: DoYieldToHold :: k => cooperative k
  | ScheduleSelf :: _ => false
  | _ :: k => cooperative k
  end.

Definition back_in_queue (cb : option T) (e : ending) : list job :=
  match e with
  | Ended | Asleep => []
  | GoesOn k => [(cb, k)]
  | StartsAgain => [(cb, script cb)]
  end.

(** One job, and [n] jobs, of the queue; [None] when the queue is empty. *)
Definition queue_step (q : list job) : option (list job * list Z) :=
  match q with
  | [] => None
  | (cb, k) :: q => let '(sp, em, e) := effects k in Some (q ++ sp ++ back_in_queue cb e, em)
  end.

Fixpoint queue_run (n : nat) (q : list job) : option (list job * list Z) :=
  match n with
  | O => Some (q, [])
  | S n =>
      match queue_step q with
      | None => None
      | Some (q, em) => (fun r => (r.1, em ++ r.2)) <$> queue_run n q
      end
  end.
End specification.

(** ** Simulation *)
Section simulation.
Context {T X : Type} `{!Virtuals T X, !VirtualsLaws T X}.
Context (body : T -> list (action T)).
Hypothesis body_cooperative : forall t, cooperative (body t) = true.
Implicit Types (s : Scheduler T X).

(** The fiber of a job: not started, or suspended. *)
Definition fiber_job (x : Fiber T) (j : option T * list (action T)) : Prop :=
  cb_ x = Task <$> j.1 /\ cooperative j.2 = true /\
  ((state_ x = INIT /\ j.2 = script body j.1) \/
   (state_ x = HOLD /\ ctx_ x = Suspended j.2)).

Definition queued s (l : list Z) (q : list (option T * list (action T))) : Prop :=
  Forall2 (fun f j => has_fiber s f (fun x => fiber_job x j)) l q.

Record simulates s (q : list (option T * list (action T))) : Prop := {
  sim_inv : inv s;
  sim_active : activeThreadCount_ s = 0;
  sim_nodup : NoDup (pendingFunctors_ s);
  sim_queue : queued s (pendingFunctors_ s) q
}.

Lemma script_cooperative cb : cooperative (script body cb) = true.
Proof. destruct cb; [apply body_cooperative|done]. Qed.

Lemma queued_keep s s' l q :
  (forall f, f ∈ l -> fibers (store s') !! f = fibers (store s) !! f) ->
  queued s l q -> queued s' l q.
Proof.
  intros Hk Hq. apply Forall2_same_length_lookup in Hq as [Hlen Hq].
  apply Forall2_same_length_lookup. split; [done|]. intros i f j Hf Hj.
  destruct (Hq i f j Hf Hj) as (x & Hx & HP). exists x. split; [|done].
  rewrite Hk; [done|]. by eapply list_elem_of_lookup_2.
Qed.

Lemma queued_bound s l q : queued s l q ->
  (forall f x, fibers (store s) !! f = Some x -> f <= created (store s)) ->
  forall f, f ∈ l -> f <= created (store s).
Proof.
  intros Hq Hc f [i Hf]%list_elem_of_lookup. apply Forall2_same_length_lookup in Hq as [Hlen Hq].
  assert (exists j, q !! i = Some j) as [j Hj].
  { apply lookup_lt_is_Some. rewrite <-Hlen. by eapply lookup_lt_Some. }
  destruct (Hq i f j Hf Hj) as (x & Hx & _). by eapply Hc.
Qed.

(** The state in which a run leaves its fiber. *)
Definition ends (x x' : Fiber T) (e : ending (T := T)) : Prop :=
  match e with
  | Ended => state_ x' = TERM \/ state_ x' = EXCEPTION
  | Asleep => state_ x' = HOLD
  | GoesOn k => state_ x' = HOLD /\ ctx_ x' = Suspended k /\ cb_ x' = cb_ x
  | StartsAgain => state_ x' = READY /\ cb_ x' = cb_ x
  end.

Definition requeues (f : Z) (e : ending (T := T)) : list Z :=
  match e with GoesOn _ => [f] | _ => [] end.

Lemma exec_effects f k : forall s x,
  running s f -> fibers (store s) !! f = Some x -> cooperative k = true ->
  exists s' x' l, exec s k = Ret s' /\ fibers (store s') !! f = Some x' /\
    emitted s' = emitted s ++ (effects body k).1.2 /\
    pendingFunctors_ s' = pendingFunctors_ s ++ l ++ requeues f (effects body k).2 /\
    NoDup l /\ (forall g, g ∈ l -> created (store s) < g) /\
    queued s' l (effects body k).1.1 /\
    ends x x' (effects body k).2.
Proof.
  induction k as [|a k IH]; intros s x Hr Hx Hco.
  { cbn [exec]. rewrite (FiberRun_end_ret _ f x) by (done || apply Hr). cbn.
    eexists _, _, []. split_and!; [done|apply lookup_insert_eq|by rewrite app_nil_r..
      |constructor|set_solver|constructor|by left]. }
  destruct (run_fiber _ _ Hr) as (y & Hy & _ & _ & Hex). assert (y = x) as -> by congruence.
  pose proof (run_current _ _ Hr) as Hcur. pose proof (running_created _ _ Hr) as Hle.
  destruct a as [n|cb| | | |]; cbn [exec].
  - destruct (IH (emit s n) x) as (s' & x' & l & E & Hx' & Hem & Hp & Hnd & Hl & Hq & He);
      [by apply emit_running|done|done|].
    exists s', x', l. cbn. destruct (effects body k) as [[sp em] e]. cbn in *.
    split_and!; [done|done| |done|done|done|done|done]. by rewrite Hem, <-app_assoc.
  - set (s1 := scheduler s (Task <$> cb)).
    destruct (scheduler_new s (Task <$> cb)) as [Hpn Hfn]. fold s1 in Hpn, Hfn.
    assert (running s1 f) as Hr1 by (apply scheduler_running; [done|by destruct cb]).
    destruct (IH s1 x) as (s' & x' & l & E & Hx' & Hem & Hp & Hnd & Hl & Hq & He);
      [done|by subst s1; rewrite scheduler_store|done|].
    destruct (exec_ok f k s1 Hr1) as (s2 & E2 & _ & X2). assert (s2 = s') as -> by congruence.
    pose proof (ext_created _ _ _ (scheduler_ext f s (Task <$> cb))) as Hcr. fold s1 in Hcr.
    pose proof (ok_created _ _ (run_ok _ _ Hr1) _ _ Hfn) as Hnew.
    exists s', x', (created (store s) + 1 :: l). cbn [effects].
    destruct (effects body k) as [[sp em] e]. cbn [fst snd] in *.
    split_and!; [done|done| | | | | |done].
    + rewrite Hem. subst s1. by rewrite scheduler_emitted.
    + by rewrite Hp, Hpn, <-app_assoc.
    + constructor; [|done]. intros H%Hl. lia.
    + intros g [->|H%Hl]%elem_of_cons; lia.
    + constructor; [|done]. eexists. split; [rewrite (ext_keep _ _ _ X2) by lia; exact Hfn|].
      split_and!; [done|apply script_cooperative|by left].
  - destruct k as [|[| | | | |] k]; try done. cbn [exec].
    unfold GetThreadCurrentFiber. rewrite Hcur.
    unfold YieldToHold. rewrite (yield_to_ret _ f x) by done. cbn.
    eexists _, _, []. split; [done|]. split; [apply lookup_insert_eq|].
    split; [by rewrite app_nil_r|]. split_and!; [done|by apply NoDup_nil|set_solver|by constructor|done..].
  - unfold YieldToReady. rewrite (yield_to_ret _ f x) by done. cbn.
    eexists _, _, []. split; [done|]. split; [apply lookup_insert_eq|].
    split; [by rewrite app_nil_r|]. split; [by rewrite app_nil_r|].
    split_and!; [by apply NoDup_nil|set_solver|by constructor|done..].
  - unfold YieldToHold. rewrite (yield_to_ret _ f x) by done. cbn.
    eexists _, _, []. split; [done|]. split; [apply lookup_insert_eq|].
    split; [by rewrite app_nil_r|]. split; [by rewrite app_nil_r|].
    split_and!; [by apply NoDup_nil|set_solver|by constructor|done..].
  - rewrite (FiberRun_end_ret _ f x) by done. cbn.
    eexists _, _, []. split_and!; [done|apply lookup_insert_eq|by rewrite app_nil_r..
      |constructor|set_solver|constructor|by right].
Qed.

(** Switching to the fiber of a job. *)
Lemma switch_to_effects s f j x :
  (forall own, scheduler_ok s own) -> f <> idleFiber s ->
  fibers (store s) !! f = Some x -> fiber_ok x -> fiber_job x j ->
  exists s' x' l, switch_to body s f = Ret s' /\ fibers (store s') !! f = Some x' /\
    emitted s' = emitted s ++ (effects body j.2).1.2 /\
    pendingFunctors_ s' = pendingFunctors_ s ++ l ++ requeues f (effects body j.2).2 /\
    NoDup l /\ (forall g, g ∈ l -> created (store s) < g) /\
    queued s' l (effects body j.2).1.1 /\
    ends x x' (effects body j.2).2.
Proof.
  destruct j as [cb k]. intros Hok Hn Hx (Hst & Hcb & Hctx) (Hcbx & Hco & Hj). cbn in Hcbx, Hco, Hj.
  unfold switch_to. rewrite (swapIn_ret _ _ x) by (done || by destruct Hj as [[-> _]|[-> _]]).
  cbn [obind set_store store SetThreadCurrentFiber fibers set_fibers]. rewrite lookup_insert_eq.
  cbn [deref obind]. set (s1 := set_store s _).
  assert (running s1 f) as Hr by (by eapply swapped_in).
  assert (fibers (store s1) !! f = Some (with_state x EXEC)) as Hx1 by apply lookup_insert_eq.
  destruct (exec_effects f k s1 _ Hr Hx1 Hco) as (s' & x' & l & E & Hr').
  exists s', x', l. split; [|exact Hr'].
  unfold context_ok in Hctx. destruct Hj as [[Hs ->]|[Hs Hc]]; rewrite Hs in Hctx.
  - cbn [with_state ctx_]. rewrite Hctx. unfold FiberRun, GetThreadCurrentFiber.
    rewrite (run_current _ _ Hr), Hx1. cbn [deref obind with_state cb_]. rewrite Hcbx.
    by destruct cb.
  - cbn [with_state ctx_]. by rewrite Hc.
Qed.
Lemma effects_goes_on k k' :
  cooperative k = true -> (effects body k).2 = GoesOn k' -> cooperative k' = true.
Proof.
  induction k as [|[n|cb| | | |] k IH]; cbn; try done.
  - destruct (effects body k) as [[sp em] e]. exact IH.
  - destruct (effects body k) as [[sp em] e]. exact IH.
  - destruct k as [|[| | | | |] k]; try done. by intros H [= <-].
Qed.

Lemma finish_run_effects s f x0 x e :
  fibers (store s) !! f = Some x -> ends x0 x e ->
  finish_run s f = Ret (match e with StartsAgain => scheduler s (cb_ x) | _ => s end).
Proof.
  intros Hx He. unfold finish_run. rewrite Hx. cbn [deref obind].
  assert (state_ x = HOLD -> (let! st := update (store s) f (fun x => with_state x HOLD) in
    Ret (set_store s st)) = Ret s) as Hhold.
  { intros Hs. rewrite (update_ret _ _ x) by done. cbn [obind].
    assert (with_state x HOLD = x) as -> by (destruct x; cbn in *; by subst).
    rewrite insert_id by done. by destruct s as [[] ? ? ? ? ? ? ? ? ?]. }
  destruct e as [| |k|]; cbn in He.
  - by destruct He as [-> | ->].
  - rewrite He. by apply Hhold.
  - destruct He as (He & _). rewrite He. by apply Hhold.
  - by destruct He as (-> & _).
Qed.

(** What becomes of the fiber that was run: the queue [rl] that it leaves, with the
    jobs of it, and behind them the fiber or its successor when it goes on. *)
Lemma after_run s1 f x x1 j rl jobs e :
  let s2 := add_active s1 (-1) in
  let s3 := match e with StartsAgain => scheduler s2 (cb_ x1) | _ => s2 end in
  inv s3 -> fibers (store s1) !! f = Some x1 -> ends x x1 e -> fiber_job x j -> (effects body j.2).2 = e ->
  NoDup rl -> f ∉ rl -> pendingFunctors_ s1 = rl ++ requeues f e -> activeThreadCount_ s1 = 1 ->
  (forall g, g ∈ rl -> g <= created (store s1)) ->
  (forall s', (forall g, g ∈ rl -> fibers (store s') !! g = fibers (store s1) !! g) -> queued s' rl jobs) ->
  simulates s3 (jobs ++ back_in_queue body j.1 e) /\ emitted s3 = emitted s1 /\
  clean_ s3 = clean_ s1 /\ autoStop_ s3 = autoStop_ s1.
Proof.
  intros s2 s3 I3 Hx1 He (Hcbj & Hco & _) Eeff Hnrl Hfl Hpe Fn Hb Hrl. subst s2.
  destruct e as [| |k'|]; cbn [requeues back_in_queue] in *; subst s3; rewrite ?app_nil_r in *.
  - split_and!; [split; [done|cbn; by rewrite Fn|cbn; by rewrite Hpe|]|done|done|done].
    cbn [pendingFunctors_ add_active]. rewrite Hpe. by apply Hrl.
  - split_and!; [split; [done|cbn; by rewrite Fn|cbn; by rewrite Hpe|]|done|done|done].
    cbn [pendingFunctors_ add_active]. rewrite Hpe. by apply Hrl.
  - destruct He as (Hs & Hctx & Hcbx).
    split_and!; [split; [done|cbn; by rewrite Fn| |]|done|done|done];
      cbn [pendingFunctors_ add_active]; rewrite Hpe.
    + apply NoDup_app. split_and!; [done|set_solver|apply NoDup_singleton].
    + apply Forall2_app; [by apply Hrl|]. constructor; [|constructor].
      exists x1. split; [done|]. split_and!; [by rewrite Hcbx, Hcbj|cbn|by right].
      by eapply effects_goes_on.
  - destruct He as (Hs & Hcbx). set (s2 := add_active s1 (-1)) in *.
    destruct (scheduler_new s2 (cb_ x1)) as [Hpn Hfn].
    destruct (ext_flags _ _ _ (scheduler_ext f s2 (cb_ x1))) as (Gc & Ga & Gn & _).
    change (created (store s2)) with (created (store s1)) in *.
    change (pendingFunctors_ s2) with (pendingFunctors_ s1) in Hpn. rewrite Hpe in Hpn.
    split_and!; [split; [done|rewrite Gn; cbn; by rewrite Fn| |]|by rewrite scheduler_emitted|by rewrite Gc|by rewrite Ga].
    + rewrite Hpn. apply NoDup_app. split_and!; [done| |apply NoDup_singleton].
      intros g Hg%Hb Hg'%list_elem_of_singleton. lia.
    + rewrite Hpn. apply Forall2_app.
      * apply Hrl. intros g Hg%Hb. by rewrite scheduler_store.
      * constructor; [|constructor]. eexists. split; [exact Hfn|].
        split_and!; [cbn; by rewrite Hcbx, Hcbj|apply script_cooperative|by left].
Qed.

(** The queue after the loop has run its first fiber. *)
Lemma run_doing_effects s f rest j q :
  inv s -> pendingFunctors_ s = f :: rest -> NoDup (f :: rest) ->
  queued s (f :: rest) (j :: q) -> activeThreadCount_ s = 0 ->
  exists s', run_doing body s f rest = Ret s' /\
    simulates s' (q ++ (effects body j.2).1.1 ++ back_in_queue body j.1 (effects body j.2).2) /\
    emitted s' = emitted s ++ (effects body j.2).1.2 /\
    clean_ s' = clean_ s /\ autoStop_ s' = autoStop_ s.
Proof.
  intros Hinv Hp [Hfr Hnd]%NoDup_cons Hq Hact. inversion Hq as [|? ? ? ? (x & Hx & Hj) Hq']; subst.
  assert (f ∈ pendingFunctors_ s) as Hf by (rewrite Hp; left).
  destruct (run_doing_ok body s f rest) as (s3 & E3 & I3 & _);
    [done|done|rewrite Hp; set_solver| |].
  { exists x. split; [done|]. by destruct Hj as (_ & _ & [[-> _]|[-> _]]). }
  pose proof Hinv as [Hok Hc Hd _]. pose proof (ok_created _ _ (Hok 0)) as Hcr.
  destruct (ok_pending _ _ (Hok (f - 1)) f Hf ltac:(lia)) as (x' & Hx' & Hfok).
  assert (x' = x) as -> by congruence.
  exists s3. split; [done|]. revert E3. unfold run_doing.
  destruct (wakeup_law (set_doing (set_pending s rest) (Some f))) as [w ->].
  set (s0 := add_active _ 1).
  assert (f <> idleFiber s) as Hfi by (intros ->; by destruct (ok_idle _ _ (Hok 0))).
  assert (forall own, scheduler_ok s0 own) as Hok0.
  { intros own. destruct (Hok own) as [_ _ (Hi & _ & Hl)]. split; [exact Hcr| |].
    - intros g Hg _. apply (ok_pending _ _ (Hok (g - 1)) g); [rewrite Hp; by right|lia].
    - rewrite Hp in Hi. split_and!; [set_solver|cbn; congruence|done]. }
  destruct (switch_to_effects s0 f j x Hok0 Hfi Hx Hfok Hj)
    as (s1 & x1 & l & E1 & Hx1 & Hem & Hpe & Hndl & Hl & Hql & He).
  destruct (switch_to_ok body s0 f Hok0 Hfi) as (s1' & E1' & R1 & X1).
  { exists x. split; [done|split; [done|]]. by destruct Hj as (_ & _ & [[-> _]|[-> _]]). }
  assert (s1' = s1) as -> by congruence. rewrite E1. cbn [obind].
  rewrite (finish_run_effects _ f x x1 (effects body j.2).2) by done. intros [= <-].
  destruct (ext_flags _ _ _ X1) as (Fc & Fa & Fn & _). cbn in Fc, Fa, Fn. rewrite Hact in Fn.
  assert (queued s1 rest q) as Hqr.
  { apply (queued_keep s); [|done]. intros g Hg. apply (ext_keep _ _ _ X1); [by intros ->|].
    by apply (queued_bound s rest q). }
  assert (NoDup (rest ++ l) /\ f ∉ l) as [Hnrl Hfl].
  { split; [|intros H%Hl; pose proof (Hcr _ _ Hx); cbn in H; lia].
    apply NoDup_app. split_and!; [done| |done]. intros g Hg Hgl%Hl.
    pose proof (queued_bound s rest q Hq' Hcr g Hg). cbn in Hgl. lia. }
  assert (forall s', (forall g, g ∈ rest ++ l ->
    fibers (store s') !! g = fibers (store s1) !! g) -> queued s' (rest ++ l) (q ++ (effects body j.2).1.1))
    as Hrl.
  { intros s' Hk. apply (queued_keep s1); [exact Hk|]. by apply Forall2_app. }
  destruct (after_run s1 f x x1 j (rest ++ l) (q ++ (effects body j.2).1.1) (effects body j.2).2)
    as (S3 & Em3 & C3 & A3); try done.
  - by apply not_elem_of_app.
  - by rewrite Hpe, <-app_assoc.
  - apply (queued_bound s1 (rest ++ l) (q ++ (effects body j.2).1.1)); [by apply Hrl|].
    exact (ok_created _ _ (ret_ok _ _ R1 0)).
  - rewrite (app_assoc q). split_and!; [exact S3|by rewrite Em3|by rewrite C3|by rewrite A3].
Qed.
Lemma release_simulates s q : simulates s q ->
  exists s', release s = Ret s' /\ simulates s' q /\ doing s' = None /\
    pendingFunctors_ s' = pendingFunctors_ s /\ emitted s' = emitted s /\
    clean_ s' = clean_ s /\ autoStop_ s' = autoStop_ s.
Proof.
  intros [Hinv Ha Hnd Hq].
  destruct (release_ok s Hinv) as (m & count & Hrel & Hinv1 & Hsub & Hm).
  eexists. split; [exact Hrel|]. split; [|done]. split; [done|done|done|].
  apply (queued_keep s); [|done]. intros g Hg. cbn. apply Hm. auto.
Qed.

(** One iteration runs the first job. *)
Lemma run_step_effects s j q :
  simulates s (j :: q) ->
  exists s', run_step body s = Ret (Next s') /\
    simulates s' (q ++ (effects body j.2).1.1 ++ back_in_queue body j.1 (effects body j.2).2) /\
    emitted s' = emitted s ++ (effects body j.2).1.2 /\
    clean_ s' = clean_ s /\ autoStop_ s' = autoStop_ s.
Proof.
  intros Hs. unfold run_step.
  destruct (release_simulates _ _ Hs) as (s1 & -> & [Hinv Ha Hnd Hq] & Hd & Hp1 & Hem & Hc & Hau).
  cbn [obind]. rewrite <-Hem, <-Hc, <-Hau. clear Hs Hp1 Hem Hc Hau.
  inversion Hq as [|f ? rest ? (x & Hx & Hj) Hq' Hpe]; subst. cbn [take_runnable].
  rewrite Hx. cbn [deref obind].
  assert (runnable (state_ x) = true) as -> by (by destruct Hj as (_ & _ & [[-> _]|[-> _]])).
  cbn [obind].
  destruct (run_doing_effects s1 f rest j q) as (s' & -> & H); [done|done|by rewrite Hpe|by rewrite Hpe|done|].
  by exists s'.
Qed.

Lemma run_steps_app n m : forall s,
  run_steps body (n + m) s =
    (let! r := run_steps body n s in match r with Next s => run_steps body m s | r => Ret r end).
Proof.
  induction n as [|n IH]; intros s; cbn [Nat.add run_steps]; [done|].
  destruct (run_step body s) as [[s'|s'|]|f]; cbn [obind]; [apply IH|done..].
Qed.

Lemma run_steps_effects n : forall s q q' em,
  simulates s q -> queue_run body n q = Some (q', em) ->
  exists s', run_steps body n s = Ret (Next s') /\ simulates s' q' /\
    emitted s' = emitted s ++ em /\ clean_ s' = clean_ s /\ autoStop_ s' = autoStop_ s.
Proof.
  induction n as [|n IH]; intros s q q' em Hs Hrun; cbn in Hrun.
  { injection Hrun as <- <-. exists s. by rewrite app_nil_r. }
  destruct q as [|[cb k] q]; [done|]. cbn in Hrun.
  destruct (run_step_effects s (cb, k) q Hs) as (s1 & E1 & Hs1 & Hem1 & Hc1 & Ha1). cbn [fst snd] in *.
  destruct (effects body k) as [[sp em1] e]. cbn [fst snd] in *.
  destruct (queue_run body n _) as [[q2 em2]|] eqn:E2; [|done]. injection Hrun as <- <-. cbn [fst snd].
  destruct (IH s1 _ _ _ Hs1 E2) as (s' & E' & Hs' & Hem' & Hc' & Ha').
  exists s'. cbn [run_steps]. rewrite E1. cbn [obind]. split_and!; [done|done| |congruence|congruence].
  by rewrite Hem', Hem1, <-app_assoc.
Qed.

Lemma simulates_begin c n (x : X) : 0 <= c ->
  simulates (run_begin (T := T) (start (new_Scheduler c n x))) [].
Proof. intros Hc. split; [by apply inv_begin|done|by apply NoDup_nil|by constructor]. Qed.

Lemma simulates_schedule s q cb :
  simulates s q -> simulates (scheduler s (Task <$> cb)) (q ++ [(cb, script body cb)]).
Proof.
  intros [Hinv Ha Hnd Hq]. destruct (scheduler_new s (Task <$> cb)) as [Hpn Hfn].
  assert (forall g, g ∈ pendingFunctors_ s -> g <= created (store s)) as Hb.
  { by apply (queued_bound s _ q), (ok_created _ _ (inv_ok _ Hinv 0)). }
  split.
  - apply inv_schedule; [by destruct cb|done].
  - by destruct (ext_flags _ _ _ (scheduler_ext 0 s (Task <$> cb))) as (_ & _ & -> & _).
  - rewrite Hpn. apply NoDup_app. split_and!; [done| |apply NoDup_singleton].
    intros g Hg%Hb Hg'%list_elem_of_singleton. lia.
  - rewrite Hpn. apply Forall2_app.
    + apply (queued_keep s); [|done]. intros g Hg%Hb. by apply scheduler_store.
    + constructor; [|constructor]. eexists. split; [exact Hfn|].
      split_and!; [done|apply script_cooperative|by left].
Qed.

(** A scheduler whose worker has begun, with callbacks scheduled in order. *)
Definition scheduled c n (x : X) (cbs : list (option T)) : Scheduler T X :=
  fold_left (fun s cb => scheduler s (Task <$> cb)) cbs (run_begin (start (new_Scheduler c n x))).

Definition jobs (cbs : list (option T)) : list (option T * list (action T)) :=
  map (fun cb => (cb, script body cb)) cbs.

Lemma simulates_fold cbs : forall s q, simulates s q ->
  simulates (fold_left (fun s cb => scheduler s (Task <$> cb)) cbs s) (q ++ jobs cbs).
Proof.
  induction cbs as [|cb cbs IH]; intros s q Hs; cbn [fold_left jobs map];
    [by rewrite app_nil_r|].
  rewrite cons_middle, app_assoc. by apply IH, simulates_schedule.
Qed.

Lemma emitted_fold cbs : forall s,
  emitted (fold_left (fun s cb => scheduler s (Task <$> cb)) cbs s) = emitted s.
Proof. induction cbs as [|cb cbs IH]; intros s; cbn [fold_left]; [done|]. by rewrite IH, scheduler_emitted. Qed.

Lemma simulates_scheduled c n (x : X) cbs :
  0 <= c -> simulates (scheduled c n x cbs) (jobs cbs) /\ emitted (scheduled c n x cbs) = [].
Proof.
  intros Hc. split; [|by unfold scheduled; rewrite emitted_fold].
  by apply (simulates_fold cbs _ []), simulates_begin.
Qed.

(** C9: when every callback schedules itself only in order to hold, that is, its next
    action is to yield to hold ([body_cooperative]), the loop of [run] refines the
    queue of jobs: as long as the queue has jobs, each iteration runs the first one, so
    that after [n] iterations the callbacks have done what the first [n] jobs do, in
    order. (Of a callback that schedules itself and then ends or yields to ready, the
    code's queue holds the fiber once more than the queue of jobs.) *)
Theorem run_refines_queue c n0 (x : X) cbs n q em :
  0 <= c -> queue_run body n (jobs cbs) = Some (q, em) ->
  exists s, run_steps body n (scheduled c n0 x cbs) = Ret (Next s) /\ emitted s = em /\
    simulates s q.
Proof.
  intros Hc Hrun. destruct (simulates_scheduled c n0 x cbs Hc) as [Hs He].
  destruct (run_steps_effects n _ _ _ _ Hs Hrun) as (s & E & Hs' & Hem & _).
  exists s. split_and!; [done|by rewrite Hem, He|done].
Qed.

(** A callback that yields with [YieldToReady] is started again from its
    beginning by the next iteration: its first part is run over and over, and
    what follows the yield never. *)
Theorem YieldToReady_restarts c n0 (x : X) t pre post n :
  0 <= c -> body t = map Emit pre ++ DoYieldToReady :: post ->
  exists s, run_steps body n (scheduled c n0 x [Some t]) = Ret (Next s) /\
    emitted s = concat (replicate n pre).
Proof.
  intros Hc Hb.
  assert (effects body (body t) = ([], pre, StartsAgain)) as Heff.
  { rewrite Hb. clear. induction pre as [|z pre IH]; cbn; [done|]. by rewrite IH. }
  assert (queue_run body n (jobs [Some t]) = Some (jobs [Some t], concat (replicate n pre))) as Hrun.
  { clear -Heff. induction n as [|n IH]; [done|]. cbn [queue_run queue_step jobs map script] in *.
    rewrite Heff. cbn [app back_in_queue script]. rewrite IH. done. }
  destruct (simulates_scheduled c n0 x [Some t] Hc) as [Hs He].
  destruct (run_steps_effects n _ _ _ _ Hs Hrun) as (s & E & _ & Hem & _).
  exists s. by rewrite Hem, He.
Qed.
End simulation.

(** ** The base class: stopping *)
Section stopping.
Context {T : Type} (body : T -> list (action T)).
Hypothesis body_cooperative : forall t, cooperative (body t) = true.
Implicit Types (s : Scheduler T unit).

(** An idle fiber that has ended ends the loop. *)
Lemma run_step_exit s x :
  simulates body s [] -> fibers (store s) !! idleFiber s = Some x -> state_ x = TERM ->
  doing s = None -> run_step body s = Ret (Exit s).
Proof.
  intros [Hinv Ha Hnd Hq] Hx Hst Hd. unfold run_step, release. rewrite Hd. cbn [obind].
  inversion Hq as [Hp|]. cbn [take_runnable obind]. unfold run_idle. rewrite Hx. cbn. by rewrite Hst.
Qed.

(** With the queue empty, a stopped scheduler ends its idle fiber and the loop. *)
Lemma stopped_exits s :
  simulates body s [] -> clean_ s = true -> autoStop_ s = true ->
  exists s', run_steps body 2 s = Ret (Exit s') /\ emitted s' = emitted s.
Proof.
  intros Hs Hcl Hau. destruct (release_simulates body _ _ Hs) as (s1 & E1 & Hs1 & Hd & Hp1 & Hem & Hc & Ha).
  rewrite Hcl in Hc. rewrite Hau in Ha. rewrite <-Hem. clear Hp1 Hem Hcl Hau.
  pose proof Hs1 as [Hinv Hact Hnd Hq]. inversion Hq as [Hp|].
  destruct (inv_idle _ Hinv) as (x & Hx & Hst & Hne).
  assert (run_step body s = run_idle s1) as Estep.
  { unfold run_step. rewrite E1. cbn [obind]. by rewrite <-Hp. }
  cbn [run_steps]. rewrite Estep.
  assert (idle_env (T := T) (derived s1)) as Henv by exact I.
  destruct (idle_round_ok s1 x Hinv Hd Henv Hx Hst Hne) as (r & Er & Hr).
  assert (exists s2 y, r = Next s2 /\ emitted s2 = emitted s1 /\ pendingFunctors_ s2 = [] /\
    activeThreadCount_ s2 = 0 /\ doing s2 = None /\
    fibers (store s2) !! idleFiber s2 = Some y /\ state_ y = TERM) as (s2 & y & -> & Hem2 & Hp2 & Ha2 & Hd2 & Hy & Hty).
  { revert Er. unfold idle_round. cbn [store add_idle idleFiber].
    rewrite (swapIn_ret _ _ x) by done. cbn [obind Idle Scheduler_virtuals].
    assert (forall st, IsClean (set_store (add_idle s1 1) st) = true) as ->.
    { intros st. unfold IsClean. cbn. by rewrite Hc, Ha, <-Hp, Hact. }
    rewrite (FiberRun_end_ret _ (idleFiber s1) (with_state x EXEC)) by (done || apply lookup_insert_eq).
    cbn [obind]. intros E. revert E. cbn -[lookup insert]. rewrite lookup_insert_eq. cbn -[lookup insert].
    intros [= <-]. eexists _, _. split_and!; [done|done|by cbn|done|done|apply lookup_insert_eq|done]. }
  destruct (Hr s2 (or_introl eq_refl)) as [Hinv2 _].
  assert (run_step body s2 = Ret (Exit s2)) as Hexit.
  { eapply run_step_exit; [|done..]. split; [done|done|rewrite Hp2; by apply NoDup_nil|].
    rewrite Hp2. constructor. }
  unfold run_idle. rewrite Hx. cbn [deref obind].
  destruct (state_ x); rewrite ?Er; cbn [obind];
    try (by exists s1); exists s2; rewrite Hexit; by cbn.
Qed.

(** C14: when every callback schedules itself only in order to hold, that is, its next
    action is to yield to hold ([body_cooperative]), the base scheduler, stopped with
    callbacks in its queue, runs every job before its loop ends: when the queue of jobs
    empties after [n] jobs, the loop ends after at most two more iterations, and exactly
    their output has been emitted. (A callback that schedules itself and then ends
    leaves its ended fiber in the queue, and the loop does not end.) *)
Theorem stop_runs_everything c n0 cbs n em :
  0 <= c -> queue_run body n (jobs body cbs) = Some ([], em) ->
  exists s, run_steps body (n + 2) (stop (scheduled c n0 () cbs)) = Ret (Exit s) /\ emitted s = em.
Proof.
  intros Hc Hrun. destruct (simulates_scheduled body body_cooperative c n0 () cbs Hc) as [[A B C D] He].
  assert (simulates body (stop (scheduled c n0 () cbs)) (jobs body cbs)) as Hs.
  { split; [|done|done|done]. destruct A as [A1 A2 A3 A4]. split; [|done|done|done].
    intros own. by destruct (A1 own). }
  destruct (run_steps_effects body body_cooperative n _ _ _ _ Hs Hrun) as (s & E & Hs' & Hem & Hcl & Hau).
  destruct (stopped_exits s Hs' Hcl Hau) as (s' & E' & Hem'). exists s'.
  rewrite run_steps_app, E. cbn [obind]. split; [done|]. rewrite Hem', Hem. cbn. by rewrite He.
Qed.
End stopping.

(** ** Witnesses *)
Lemma example_cooperative t : cooperative (example_body t) = true.
Proof. by destruct t as [|[|t]]. Qed.

Lemma run_refines_queue_witness :
  exists s, run_steps example_body 2 (scheduled 0 0 () [Some 0%nat]) = Ret (Next s) /\
    emitted s = [1; 2; 3].
Proof.
  destruct (run_refines_queue example_body example_cooperative 0 0 () [Some 0%nat] 2
    [(Some 1%nat, [Emit 4])] [1; 2; 3]) as (s & E & H & _); [lia|vm_compute; reflexivity|exact (ex_intro _ s (conj E H))].
Defined.

Lemma YieldToReady_restarts_witness :
  exists s, run_steps example_body 3 (scheduled 0 0 () [Some 2%nat]) = Ret (Next s) /\
    emitted s = [5; 5; 5].
Proof.
  destruct (YieldToReady_restarts example_body example_cooperative 0 0 () 2%nat [5] [Emit 6] 3)
    as (s & E & H); [lia|reflexivity|exact (ex_intro _ s (conj E H))].
Defined.

Lemma stop_runs_everything_witness :
  exists s, run_steps example_body 5 (stop (scheduled 0 0 () [Some 0%nat])) = Ret (Exit s) /\
    emitted s = [1; 2; 3; 4].
Proof.
  destruct (stop_runs_everything example_body example_cooperative 0 0 [Some 0%nat] 3 [1; 2; 3; 4])
    as (s & E & H); [lia|vm_compute; reflexivity|exact (ex_intro _ s (conj E H))].
Defined.
