(* ===== verification/Workers.v ===== *)
(** * Several workers of one scheduler (src/qslary/net/Scheduler.h, Scheduler.cc)

    [Scheduler::run] in several threads at a time, as turns of the workers in any
    order. A worker's turn is what it does between two points where another may
    interfere: with the queue it works under the mutex, with a fiber it does not.
    Each worker has its own idle fiber, here a flag that tells that it is over; the
    count of idle threads, which nothing in the scheduler reads, and the deletion of
    fibers (Scheduler.v) are left out. *)
From stdpp Require Import base list gmap relations.
From Stdlib Require Import ZArith Lia.
From S2P Require Import Prelude CLib Fiber.
From S2P Require Import Scheduler.
Open Scope Z_scope.

Section workers.
Context {T : Type} (body : T -> list (action T)).

(** Where a worker is in the loop of [run], and in the fiber it runs *)
Inductive place : Type :=
| Searching                                           (** in front of the block with the mutex *)
| Taken (f : Z)                                       (** behind it, with a fiber *)
| Entering (f : Z)                                    (** in front of [swapIn] *)
| Switching (f : Z)                                   (** in [swapIn], in front of [swapcontext] *)
| Running (f : Z) (k : list (action T))
| Leaving (f : Z) (c : context T)                     (** in [swapOut], in front of [swapcontext] *)
| Back (f : Z)                                        (** in the loop again *)
| Deciding (f : Z)                                    (** in front of the tests of the state *)
| Idling                                              (** in the idle fiber *)
| Exited.
Record worker : Type := mkWorker { idle_over : bool; at_ : place }.

(** What the workers share, what the callbacks did, each with its fiber, and the
    callbacks of all fibers in the order in which they were made *)
Record pool : Type := mkPool {
  w_fibers : gmap Z (Fiber T);
  w_created : Z;
  w_pending : list Z;
  w_active : Z;
  w_clean : bool;
  w_autoStop : bool;
  workers : list worker;
  w_log : list (Z * Z);
  w_made : list (option T)
}.
Implicit Types (s : pool) (x : Fiber T) (p : place).

Definition set_worker s (w : nat) (wk : worker) : pool :=
  mkPool (w_fibers s) (w_created s) (w_pending s) (w_active s) (w_clean s) (w_autoStop s) (<[w := wk]> (workers s))
    (w_log s) (w_made s).
Definition set_queue s (l : list Z) : pool :=
  mkPool (w_fibers s) (w_created s) l (w_active s) (w_clean s) (w_autoStop s) (workers s) (w_log s) (w_made s).
Definition count_active s (n : Z) : pool :=
  mkPool (w_fibers s) (w_created s) (w_pending s) (u64 (w_active s + n)) (w_clean s) (w_autoStop s) (workers s)
    (w_log s) (w_made s).
Definition set_fiber s (f : Z) x : pool :=
  mkPool (<[f := x]> (w_fibers s)) (w_created s) (w_pending s) (w_active s) (w_clean s) (w_autoStop s) (workers s)
    (w_log s) (w_made s).
Definition say s (f n : Z) : pool :=
  mkPool (w_fibers s) (w_created s) (w_pending s) (w_active s) (w_clean s) (w_autoStop s) (workers s)
    (w_log s ++ [(f, n)]) (w_made s).

(** [scheduler] of a function: a new fiber at the end of the queue *)
Definition spawn s (cb : option T) : pool :=
  let f := w_created s + 1 in
  mkPool (<[f := mkFiber (u64 f) INIT Fresh true (Task <$> cb)]> (w_fibers s)) f (w_pending s ++ [f]) (w_active s)
    (w_clean s) (w_autoStop s) (workers s) (w_log s) (w_made s ++ [cb]).
Definition cb_task x : option T := match cb_ x with Some (Task t) => Some t | _ => None end.

Definition IsClean s : bool :=
  w_autoStop s && w_clean s && bool_decide (w_pending s = []) && (w_active s =? 0).
Definition stop s : pool :=
  mkPool (w_fibers s) (w_created s) (w_pending s) (w_active s) true true (workers s) (w_log s) (w_made s).
(** [start] with [n] worker threads, each at the beginning of the loop *)
Definition start (n : nat) : pool := mkPool ∅ 0 [] 0 false false (repeat (mkWorker false Searching) n) [] [].

(** The callback of a fiber, one action at a time; a yield stores the state, and
    [swapOut] the context later. *)
Definition act s (f : Z) (k : list (action T)) : outcome (pool * place) :=
  let! x := deref (w_fibers s !! f) in
  match k with
  | [] => Ret (set_fiber s f (with_state (with_cb x None) TERM), Leaving f Finished)
  | Emit n :: k => Ret (say s f n, Running f k)
  | Schedule cb :: k => Ret (spawn s cb, Running f k)
  | ScheduleSelf :: k => Ret (set_queue s (w_pending s ++ [f]), Running f k)
  | DoYieldToReady :: k =>
      let! _ := cassert (bool_decide (state_ x = EXEC)) in
      Ret (set_fiber s f (with_state x READY), Leaving f (Suspended k))
  | DoYieldToHold :: k =>
      let! _ := cassert (bool_decide (state_ x = EXEC)) in
      Ret (set_fiber s f (with_state x HOLD), Leaving f (Suspended k))
  | Throw :: _ => Ret (set_fiber s f (with_state x EXCEPTION), Leaving f Finished)
  end.

(** The turn of a worker; [None]: there is none or it has left the loop. *)
Definition turn s (w : nat) : outcome (option pool) :=
  match workers s !! w with
  | None => Ret None
  | Some (mkWorker over p) =>
      let go s p := Ret (Some (set_worker s w (mkWorker over p))) in
      match p with
      | Searching =>
          let! r := take_runnable (w_fibers s) (w_pending s) in
          match r with
          | Some (f, rest) => go (set_queue s rest) (Taken f)
          | None => go s (if over then Exited else Idling)
          end
      | Taken f => go (count_active s 1) (Entering f)
      | Entering f =>
          let! x := deref (w_fibers s !! f) in
          let! _ := cassert (negb (bool_decide (state_ x = EXEC))) in
          go (set_fiber s f (with_state x EXEC)) (Switching f)
      | Switching f =>
          let! x := deref (w_fibers s !! f) in
          match ctx_ x with
          | Fresh =>
              match cb_ x with
              | Some (Task t) => go s (Running f (body t))
              | Some _ => Fault Undefined
              | None => go s (Running f [Throw])
              end
          | Suspended k => go s (Running f k)
          | Finished => Fault ThreadEnded
          end
      | Running f k => let! r := act s f k in go r.1 r.2
      | Leaving f c => let! x := deref (w_fibers s !! f) in go (set_fiber s f (with_ctx x c)) (Back f)
      | Back f => go (count_active s (-1)) (Deciding f)
      | Deciding f =>
          let! x := deref (w_fibers s !! f) in
          match state_ x with
          | READY => go (spawn s (cb_task x)) Searching
          | TERM | EXCEPTION => go s Searching
          | _ => go (set_fiber s f (with_state x HOLD)) Searching
          end
      | Idling => Ret (Some (set_worker s w (mkWorker (over || IsClean s) Searching)))
      | Exited => Ret None
      end
  end.

(** Turns in any order, callbacks scheduled by other threads until [stop], and
    [stop] *)
Inductive step s : pool -> Prop :=
| step_turn w s' : turn s w = Ret (Some s') -> step s s'
| step_schedule cb : w_clean s = false -> step s (spawn s cb)
| step_stop : step s (stop s).
Definition reachable (n : nat) : pool -> Prop := rtc step (start n).

Fixpoint run_turns s (l : list nat) : outcome pool :=
  match l with
  | [] => Ret s
  | w :: l => let! o := turn s w in run_turns (default s o) l
  end.

Lemma run_turns_steps s l s' : run_turns s l = Ret s' -> rtc step s s'.
Proof.
  revert s. induction l as [|w l IH]; cbn; intros s H; [by injection H as <-|].
  destruct (turn s w) as [[s1|]|] eqn:E; cbn in H; [|by apply IH|done].
  apply rtc_l with s1; [by apply step_turn with w|by apply IH].
Qed.

(** ** Who has which fiber *)

(** What a callback prints until it ends or yields *)
Fixpoint trace (k : list (action T)) : list Z :=
  match k with
  | Emit n :: k => n :: trace k
  | Schedule _ :: k | ScheduleSelf :: k => trace k
  | _ => []
  end.
Definition whole (cb : option T) : list Z := match cb with Some t => trace (body t) | None => [] end.

Definition holds p : option Z :=
  match p with
  | Taken f | Entering f | Switching f | Running f _ | Leaving f _ | Back f | Deciding f => Some f
  | _ => None
  end.
Definition held s : list Z := omap (fun wk => holds (at_ wk)) (workers s).

Definition printed s (f : Z) : list Z := (filter (fun e => e.1 = f) (w_log s)).*2.
(** The callback for which a fiber was made *)
Definition callback_of s (f : Z) : option (option T) := w_made s !! Z.to_nat (f - 1).

Definition fresh x (st : State) (cb : option T) (l : list Z) : Prop :=
  state_ x = st /\ ctx_ x = Fresh /\ cb_ x = Task <$> cb /\ l = [].
(** What holds of the fiber that a worker has, when it has printed [l] *)
Definition place_ok p x (cb : option T) (l : list Z) : Prop :=
  match p with
  | Taken _ | Entering _ => fresh x INIT cb l
  | Switching _ => fresh x EXEC cb l
  | Running _ k => state_ x = EXEC /\ cb_ x = Task <$> cb /\ l ++ trace k = whole cb /\ ScheduleSelf ∉ k
  | Leaving _ _ | Back _ | Deciding _ => l = whole cb /\ (state_ x = READY -> cb_task x = cb)
  | _ => True
  end.

(** The invariant: every fiber is in one place, and has printed what it is to print
    up to there. *)
Record pool_ok s : Prop := {
  v_dom f : is_Some (w_fibers s !! f) <-> 1 <= f <= w_created s;
  v_made : w_created s = Z.of_nat (length (w_made s));
  v_nodup : NoDup (w_pending s ++ held s);
  v_log e : e ∈ w_log s -> 1 <= e.1 <= w_created s;
  v_pending f : f ∈ w_pending s -> exists x cb,
    w_fibers s !! f = Some x /\ callback_of s f = Some cb /\ fresh x INIT cb (printed s f);
  v_place w wk f : workers s !! w = Some wk -> holds (at_ wk) = Some f -> exists x cb,
    w_fibers s !! f = Some x /\ callback_of s f = Some cb /\ place_ok (at_ wk) x cb (printed s f);
  v_rest f cb : 1 <= f -> callback_of s f = Some cb -> f ∉ w_pending s -> f ∉ held s -> printed s f = whole cb;
  v_over w wk : workers s !! w = Some wk -> idle_over wk = true -> w_clean s = true;
  v_exited w wk : workers s !! w = Some wk -> at_ wk = Exited -> idle_over wk = true;
  v_last : w_pending s = [] \/ exists w wk, workers s !! w = Some wk /\ at_ wk <> Exited
}.

Definition others s (w : nat) : list Z := omap (fun wk => holds (at_ wk)) (delete w (workers s)).

Lemma held_others s w wk :
  workers s !! w = Some wk -> held s ≡ₚ option_list (holds (at_ wk)) ++ others s w.
Proof.
  intros Hw. unfold held, others. rewrite (delete_Permutation _ _ _ Hw) at 1. cbn. by destruct (holds (at_ wk)).
Qed.

Lemma others_set_worker s w wk : others (set_worker s w wk) w = others s w.
Proof.
  unfold others. cbn. destruct (decide (w < length (workers s))%nat).
  - rewrite !delete_take_drop, insert_take_drop by done.
    rewrite take_app_length' by (rewrite length_take; lia). f_equal. f_equal.
    rewrite (cons_middle wk), app_assoc, drop_app_length'; [done|]. rewrite length_app, length_take. cbn. lia.
  - by rewrite list_insert_ge by lia.
Qed.

(** The workers with [w] in another place *)
Lemma set_worker_lookup s w wk w' wk' :
  workers (set_worker s w wk) !! w' = Some wk' -> (w' = w /\ wk' = wk) \/ (w' <> w /\ workers s !! w' = Some wk').
Proof. cbn. intros [(-> & -> & _)|(Hne & H)]%list_lookup_insert_Some; [by left|by right]. Qed.

Lemma held_elem s w wk w' wk' f :
  workers s !! w = Some wk -> workers s !! w' = Some wk' -> w' <> w -> holds (at_ wk') = Some f -> f ∈ others s w.
Proof.
  intros Hw Hw' Hne Hf. unfold others. apply list_elem_of_omap. exists wk'. split; [|done].
  destruct (decide (w' < w)%nat).
  - apply list_elem_of_lookup. exists w'. by rewrite list_lookup_delete_lt.
  - apply list_elem_of_lookup. exists (pred w'). rewrite list_lookup_delete_ge by lia. by replace (S (pred w')) with w' by lia.
Qed.

Lemma printed_other s f g n : g <> f -> printed (say s f n) g = printed s g.
Proof. intros H. unfold printed. cbn. rewrite filter_app, filter_cons_False by (cbn; congruence). cbn. by rewrite app_nil_r. Qed.

Lemma printed_say s f n : printed (say s f n) f = printed s f ++ [n].
Proof. unfold printed. cbn. rewrite filter_app, filter_cons_True by done. cbn. by rewrite fmap_app. Qed.

(** What a worker does with its fiber *)
Lemma change_ok s s' w wk wk' f x' cb :
  pool_ok s -> workers s !! w = Some wk -> holds (at_ wk) = Some f -> callback_of s f = Some cb ->
  w_fibers s' = <[f := x']> (w_fibers s) -> w_created s' = w_created s -> w_made s' = w_made s ->
  w_pending s' = w_pending s -> w_clean s' = w_clean s -> workers s' = <[w := wk']> (workers s) ->
  (forall e, e ∈ w_log s' -> e ∈ w_log s \/ e.1 = f) -> (forall g, g <> f -> printed s' g = printed s g) ->
  idle_over wk' = idle_over wk -> at_ wk' <> Exited ->
  (holds (at_ wk') = Some f /\ place_ok (at_ wk') x' cb (printed s' f) \/ holds (at_ wk') = None /\ printed s' f = whole cb) ->
  pool_ok s'.
Proof.
  intros [V1 V2 V3 V4 V5 V6 V7 V8 V9 V10] Hw Hf Hcb Efib Ecr Emade Epend Eclean Ework Hlog Hpr Hover Hex Hend.
  pose proof (held_others s w wk Hw) as Hh. rewrite Hf in Hh. cbn in Hh.
  assert (workers s' !! w = Some wk') as Hw' by (rewrite Ework; apply list_lookup_insert_eq; by eapply lookup_lt_Some).
  assert (held s' ≡ₚ option_list (holds (at_ wk')) ++ others s w) as Hh'.
  { rewrite (held_others s' w wk' Hw'). f_equiv. rewrite <- (others_set_worker s w wk'). unfold others. cbn. by rewrite Ework. }
  assert (is_Some (w_fibers s !! f)) as [x Hx] by (destruct (V6 w wk f Hw Hf) as (x & _ & ? & _); by exists x).
  rewrite Hh in V3. apply NoDup_app in V3 as (Nq & Nqh & Nh). apply NoDup_cons in Nh as [Nf No].
  assert (f ∉ w_pending s) as Hfq by (intros H; apply (Nqh f H); by left).
  assert (forall g, callback_of s' g = callback_of s g) as Hc by (intros g; unfold callback_of; by rewrite Emade).
  split.
  - intros g. rewrite Efib, Ecr, <- V1. destruct (decide (g = f)) as [->|Hne]; [rewrite lookup_insert_eq|by rewrite lookup_insert_ne].
    split; [by exists x|by eexists].
  - by rewrite Ecr, Emade.
  - rewrite Epend, Hh'. apply NoDup_app. split; [done|]. destruct Hend as [[-> _]|[-> _]]; cbn.
    + split; [|by constructor]. intros g Hg. by apply (Nqh g Hg).
    + split; [|done]. intros g Hg Hgo. apply (Nqh g Hg). by right.
  - intros e He. rewrite Ecr. destruct (Hlog e He) as [He'| ->]; [by apply V4|]. apply V1. by exists x.
  - intros g. rewrite Epend. intros Hg. destruct (V5 g Hg) as (y & cb' & Hy & Hcb' & Hfr). exists y, cb'.
    assert (g <> f) by (by intros ->). rewrite Efib, lookup_insert_ne, Hc, Hpr by done. done.
  - intros w2 wk2 g Hw2 Hg. rewrite Ework in Hw2. rewrite Hc, Efib.
    apply list_lookup_insert_Some in Hw2 as [(-> & -> & _)|(Hne & Hw2)].
    + destruct Hend as [[E Hp]|[E _]]; [|congruence]. assert (g = f) as -> by congruence. rewrite lookup_insert_eq. eauto.
    + pose proof (held_elem s w wk w2 wk2 g Hw Hw2 ltac:(congruence) Hg) as Hgo.
      assert (g <> f) by (by intros ->). rewrite lookup_insert_ne, Hpr by done. by apply V6 with w2.
  - intros g cb' Hg1. rewrite Hc, Epend, Hh'. intros Hcb' Hgq Hgo. destruct (decide (g = f)) as [->|Hne].
    + destruct Hend as [[E _]|[_ E]]; [|by assert (cb' = cb) as -> by congruence].
      rewrite E in Hgo. cbn in Hgo. by apply not_elem_of_cons in Hgo as [? _].
    + rewrite Hpr by done. apply V7; try done. rewrite Hh. apply not_elem_of_cons. split; [done|].
      by apply not_elem_of_app in Hgo as [_ ?].
  - intros w2 wk2. rewrite Ework, Eclean. intros [(-> & -> & _)|(_ & H)]%list_lookup_insert_Some; [|by apply (V8 w2)].
    rewrite Hover. by eapply V8.
  - intros w2 wk2. rewrite Ework. intros [(-> & -> & _)|(_ & H)]%list_lookup_insert_Some; [done|by apply (V9 w2)].
  - right. exists w, wk'. done.
Qed.

Lemma spawn_ok s cb :
  pool_ok s -> (exists w wk, workers s !! w = Some wk /\ at_ wk <> Exited) -> pool_ok (spawn s cb).
Proof.
  intros [V1 V2 V3 V4 V5 V6 V7 V8 V9 V10] Hex. set (n := w_created s + 1).
  assert (0 <= w_created s) as H0 by (rewrite V2; lia).
  assert (w_fibers s !! n = None) as Hn.
  { destruct (w_fibers s !! n) eqn:E; [|done]. assert (is_Some (w_fibers s !! n)) as H%V1 by (by eexists). unfold n in H. lia. }
  assert (forall f x, w_fibers s !! f = Some x -> f <> n) as Hfn by (intros f x Hf ->; congruence).
  assert (n ∉ w_pending s) as Hq by (intros H; destruct (V5 n H) as (x & _ & Hx & _); congruence).
  assert (n ∉ held s) as Hh.
  { unfold held. intros (wk & Hwk & Hf)%list_elem_of_omap. apply list_elem_of_lookup in Hwk as [w Hw].
    destruct (V6 w wk n Hw Hf) as (x & _ & Hx & _). congruence. }
  assert (forall f c, callback_of s f = Some c -> callback_of (spawn s cb) f = Some c) as Hc.
  { intros f c Hf. unfold callback_of in *. cbn. apply lookup_app_l_Some. exact Hf. }
  assert (callback_of (spawn s cb) n = Some cb) as Hcn.
  { unfold callback_of. cbn. rewrite lookup_app_r by (unfold n; lia).
    replace (Z.to_nat (n - 1) - length (w_made s))%nat with O by (unfold n; lia). done. }
  assert (printed s n = []) as Hpn.
  { unfold printed. destruct (filter _ _) as [|e l] eqn:E; [done|].
    assert (e ∈ filter (fun e => e.1 = n) (w_log s)) as [He1 He2]%list_elem_of_filter by (rewrite E; by left).
    apply V4 in He2. unfold n in He1. lia. }
  change (spawn s cb) with (mkPool (<[n := mkFiber (u64 n) INIT Fresh true (Task <$> cb)]> (w_fibers s)) n (w_pending s ++ [n])
    (w_active s) (w_clean s) (w_autoStop s) (workers s) (w_log s) (w_made s ++ [cb])) in *.
  set (s' := mkPool _ _ _ _ _ _ _ _ _) in *.
  split; try done; cbn.
  - intros f. destruct (decide (f = n)) as [->|Hne].
    + rewrite lookup_insert_eq. split; [unfold n; lia|by eexists].
    + rewrite lookup_insert_ne by done. rewrite V1. unfold n in *. lia.
  - rewrite length_app. cbn. unfold n. lia.
  - rewrite <- app_assoc, (Permutation_app_comm [n]). change (held s') with (held s). rewrite app_assoc. apply NoDup_app.
    split; [done|]. split; [|by apply NoDup_singleton]. intros f Hf ->%list_elem_of_singleton. by apply elem_of_app in Hf as [?|?].
  - intros e He%V4. unfold n. lia.
  - intros f [Hf| ->%list_elem_of_singleton]%elem_of_app.
    + destruct (V5 f Hf) as (x & c & Hx & Hcf & Hfr). exists x, c. rewrite lookup_insert_ne by (by intros <-; congruence). eauto.
    + exists (mkFiber (u64 n) INIT Fresh true (Task <$> cb)), cb. split; [apply lookup_insert_eq|]. split; [exact Hcn|].
      unfold fresh. split_and!; [done..|exact Hpn].
  - intros w wk f Hw Hf. destruct (V6 w wk f Hw Hf) as (x & c & Hx & Hcf & Hp). exists x, c.
    rewrite lookup_insert_ne by (by intros <-; congruence). eauto.
  - intros f c Hf1 Hcf Hq' Hh'. change (printed s' f) with (printed s f). apply not_elem_of_app in Hq' as [Hq1 Hq2].
    apply V7; try done. unfold callback_of in *. cbn in Hcf. rewrite lookup_app_l in Hcf; [done|].
    apply lookup_lt_Some in Hcf. rewrite length_app in Hcf. cbn in Hcf.
    assert (f <> n) by (intros ->; apply Hq2; by left). unfold n in *. lia.
  - by right.
Qed.

(** A worker without a fiber goes elsewhere, or takes the first of the queue. *)
Lemma wander_ok s w wk over p :
  pool_ok s -> workers s !! w = Some wk -> holds (at_ wk) = None -> holds p = None ->
  (over = true -> w_clean s = true) -> (p = Exited -> over = true /\ w_pending s = []) ->
  pool_ok (set_worker s w (mkWorker over p)).
Proof.
  intros [V1 V2 V3 V4 V5 V6 V7 V8 V9 V10] Hw Hf Hp Hover Hex. set (s' := set_worker s w (mkWorker over p)).
  assert (workers s' !! w = Some (mkWorker over p)) as Hw' by (apply list_lookup_insert_eq; by eapply lookup_lt_Some).
  assert (held s' ≡ₚ held s) as Hh.
  { rewrite (held_others s' w _ Hw'), (held_others s w _ Hw), Hf. cbn [at_]. rewrite Hp. unfold s'. by rewrite others_set_worker. }
  split; try done.
  - cbn [w_pending s' set_worker]. by rewrite Hh.
  - intros w2 wk2 f H Hf2. apply set_worker_lookup in H as [[-> ->]|[_ H]]; [cbn in Hf2; congruence|]. by apply (V6 w2).
  - intros f cb Hf1 Hc Hq. rewrite Hh. by apply V7.
  - intros w2 wk2 H. apply set_worker_lookup in H as [[-> ->]|[_ H]]; [done|]. by apply (V8 w2).
  - intros w2 wk2 H. apply set_worker_lookup in H as [[-> ->]|[_ H]]; [cbn; intros E; by apply Hex|]. by apply (V9 w2).
  - assert (p = Exited \/ p <> Exited) as [->|E] by (destruct p; by (left; done) || (right; done)).
    + left. by apply Hex.
    + right. exists w, (mkWorker over p). done.
Qed.

Lemma take_ok s w wk f rest :
  pool_ok s -> workers s !! w = Some wk -> holds (at_ wk) = None -> w_pending s = f :: rest ->
  pool_ok (set_worker (set_queue s rest) w (mkWorker (idle_over wk) (Taken f))).
Proof.
  intros [V1 V2 V3 V4 V5 V6 V7 V8 V9 V10] Hw Hf Hq. set (s' := set_worker (set_queue s rest) w _).
  assert (workers s' !! w = Some (mkWorker (idle_over wk) (Taken f))) as Hw'
    by (apply list_lookup_insert_eq; by eapply lookup_lt_Some).
  assert (held s ≡ₚ others s w) as Hh by (by rewrite (held_others s w _ Hw), Hf).
  assert (held s' ≡ₚ f :: held s) as Hh'.
  { rewrite (held_others s' w _ Hw'), Hh. cbn. unfold s'. by rewrite (others_set_worker (set_queue s rest)). }
  rewrite Hq in V3. cbn in V3. apply NoDup_cons in V3 as [Nf Nq].
  split; try done.
  - cbn [w_pending s' set_worker set_queue]. rewrite Hh', <- Permutation_middle. by apply NoDup_cons.
  - intros g Hg. apply V5. rewrite Hq. by right.
  - intros w2 wk2 g H Hg. apply set_worker_lookup in H as [[-> ->]|[_ H]]; [|by apply (V6 w2)].
    cbn in Hg. injection Hg as <-. destruct (V5 f) as (x & cb & ? & ? & ?); [rewrite Hq; by left|]. by exists x, cb.
  - intros g cb Hg1 Hc Hgq. rewrite Hh'. intros [Hne Hgo]%not_elem_of_cons. apply V7; try done.
    rewrite Hq. apply not_elem_of_cons. done.
  - intros w2 wk2 H. apply set_worker_lookup in H as [[-> ->]|[_ H]]; [by apply (V8 w wk)|]. by apply (V8 w2).
  - intros w2 wk2 H. apply set_worker_lookup in H as [[-> ->]|[_ H]]; [done|]. by apply (V9 w2).
  - right. eexists w, _. split; [exact Hw'|done].
Qed.

(** The queue has new fibers only, so the search takes the first. *)
Lemma take_first s :
  pool_ok s ->
  take_runnable (w_fibers s) (w_pending s) = Ret (match w_pending s with [] => None | f :: rest => Some (f, rest) end).
Proof.
  intros Hok. destruct (w_pending s) as [|f rest] eqn:E; [done|].
  destruct (v_pending s Hok f) as (x & cb & Hx & _ & Hst & _); [rewrite E; by left|].
  cbn. rewrite Hx. cbn. by rewrite Hst.
Qed.

Lemma activity_ok s n : pool_ok s -> pool_ok (count_active s n).
Proof. by intros [V1 V2 V3 V4 V5 V6 V7 V8 V9 V10]. Qed.

Lemma stop_ok s : pool_ok s -> pool_ok (stop s).
Proof. intros [V1 V2 V3 V4 V5 V6 V7 V8 V9 V10]. by split. Qed.

Lemma start_ok n : pool_ok (start n).
Proof.
  assert (forall w wk, workers (start n) !! w = Some wk -> wk = mkWorker false Searching) as H.
  { intros w wk H. apply list_elem_of_lookup_2, list_elem_of_In in H. by apply repeat_spec in H. }
  split; cbn.
  - intros f. rewrite lookup_empty. split; [by intros []|lia].
  - done.
  - unfold held. cbn. induction n as [|n IH]; cbn; [constructor|]. apply IH. intros w wk Hw. apply (H (S w)). exact Hw.
  - by intros e He%elem_of_nil.
  - by intros f Hf%elem_of_nil.
  - intros w wk f ->%H. done.
  - intros f cb _ Hc. done.
  - intros w wk ->%H. done.
  - intros w wk ->%H. done.
  - by left.
Qed.

(** ** The turns *)
Context (no_self : forall t, ScheduleSelf ∉ body t).

(** A change by the worker [w], in the form of the turns *)
Lemma go_ok s w over p f x cb x' p' :
  pool_ok s -> workers s !! w = Some (mkWorker over p) -> holds p = Some f -> w_fibers s !! f = Some x ->
  callback_of s f = Some cb -> p' <> Exited ->
  (holds p' = Some f /\ place_ok p' x' cb (printed s f) \/ holds p' = None /\ printed s f = whole cb) ->
  pool_ok (set_worker (set_fiber s f x') w (mkWorker over p')).
Proof using Type.
  intros Hok Hw Hf Hx Hcb Hex Hend.
  apply (change_ok s _ w (mkWorker over p) (mkWorker over p') f x' cb); try done. by left.
Qed.

(** ... that leaves the fiber alone *)
Lemma stay_ok s w over p f x cb p' :
  pool_ok s -> workers s !! w = Some (mkWorker over p) -> holds p = Some f -> w_fibers s !! f = Some x ->
  callback_of s f = Some cb -> p' <> Exited ->
  (holds p' = Some f /\ place_ok p' x cb (printed s f) \/ holds p' = None /\ printed s f = whole cb) ->
  pool_ok (set_worker s w (mkWorker over p')).
Proof using Type.
  intros Hok Hw Hf Hx Hcb Hex Hend.
  apply (change_ok s _ w (mkWorker over p) (mkWorker over p') f x cb); try done; [|by left].
  cbn. by rewrite insert_id.
Qed.

Definition good (o : outcome (option pool)) : Prop :=
  match o with Ret (Some s) => pool_ok s | Ret None => True | Fault _ => False end.

Lemma running_ok s w over f k :
  pool_ok s -> workers s !! w = Some (mkWorker over (Running f k)) -> good (turn s w).
Proof using no_self.
  intros Hok Hw. unfold turn. rewrite Hw. destruct (v_place s Hok w _ f Hw eq_refl) as (x & cb & Hx & Hcb & Hst & Hxcb & Hpr & Hns).
  unfold act. rewrite Hx. cbn [deref obind].
  destruct k as [|[n|c| | | |] k]; cbn [obind fst snd trace] in *.
  - apply (go_ok s w over (Running f []) f x cb); try done. left. rewrite app_nil_r in Hpr. done.
  - apply not_elem_of_cons in Hns as [_ Hns]. change (good (Ret (Some (set_worker (say s f n) w (mkWorker over (Running f k)))))).
    apply (change_ok s _ w (mkWorker over (Running f (Emit n :: k))) (mkWorker over (Running f k)) f x cb); try done.
    + cbn. by rewrite insert_id.
    + intros e. cbn. intros [?| ->%list_elem_of_singleton]%elem_of_app; [by left|by right].
    + intros g Hg. change (printed (say s f n) g = printed s g). by apply printed_other.
    + left. split; [done|]. change (printed (set_worker (say s f n) w (mkWorker over (Running f k))) f) with (printed (say s f n) f).
      rewrite printed_say. cbn. rewrite <- app_assoc. done.
  - apply not_elem_of_cons in Hns as [_ Hns].
    assert (pool_ok (spawn s c)) as Hok' by (apply spawn_ok; [done|]; eexists w, _; split; [exact Hw|done]).
    destruct (v_place _ Hok' w _ f Hw eq_refl) as (x' & cb' & Hx' & Hcb' & Hst' & Hxcb' & Hpr' & Hns').
    apply (stay_ok (spawn s c) w over (Running f (Schedule c :: k)) f x' cb'); try done. left. done.
  - destruct Hns. by left.
  - unfold cassert. rewrite (bool_decide_true _ Hst). cbn.
    apply (go_ok s w over (Running f (DoYieldToReady :: k)) f x cb); try done. left. rewrite app_nil_r in Hpr. split; [done|].
    split; [done|]. intros _. unfold cb_task. cbn. rewrite Hxcb. by destruct cb.
  - unfold cassert. rewrite (bool_decide_true _ Hst). cbn.
    apply (go_ok s w over (Running f (DoYieldToHold :: k)) f x cb); try done. left. rewrite app_nil_r in Hpr. done.
  - apply (go_ok s w over (Running f (Throw :: k)) f x cb); try done. left. rewrite app_nil_r in Hpr. done.
Qed.

Lemma turn_good s w : pool_ok s -> good (turn s w).
Proof using no_self.
  intros Hok. destruct (workers s !! w) as [[over p]|] eqn:Hw; [|unfold turn; by rewrite Hw].
  destruct (holds p) as [f|] eqn:Hf.
  - destruct p; cbn in Hf; try done; injection Hf as ->; [..|by apply (running_ok s w over f k)| | |];
      unfold turn; rewrite Hw; destruct (v_place s Hok w _ f Hw eq_refl) as (x & cb & Hx & Hcb & Hp); cbn [at_ place_ok] in Hp;
      rewrite ?Hx; cbn [deref obind].
    + apply (stay_ok (count_active s 1) w over (Taken f) f x cb); try done; [by apply activity_ok|by left].
    + destruct Hp as (Hst & Hp). unfold cassert. rewrite bool_decide_false by congruence. cbn.
      apply (go_ok s w over (Entering f) f x cb); try done. left. by destruct Hp.
    + destruct Hp as (Hst & -> & Hxcb & Hpr). rewrite Hxcb. destruct cb as [t|]; cbn.
      * apply (stay_ok s w over (Switching f) f x (Some t)); try done. left. rewrite Hpr. done.
      * apply (stay_ok s w over (Switching f) f x None); try done. left. rewrite Hpr. split; [done|]. split_and!; try done.
        by intros H%list_elem_of_singleton.
    + destruct Hp as [Hpr Hcbt]. apply (go_ok s w over (Leaving f c) f x cb); try done. by left.
    + apply (stay_ok (count_active s (-1)) w over (Back f) f x cb); try done; [by apply activity_ok|by left].
    + destruct Hp as [Hpr Hcbt]. destruct (state_ x);
        try (apply (stay_ok s w over (Deciding f) f x cb); try done; by right);
        try (apply (go_ok s w over (Deciding f) f x cb (with_state x HOLD)); try done; by right).
      assert (pool_ok (spawn s (cb_task x))) as Hok' by (apply spawn_ok; [done|]; eexists w, _; split; [exact Hw|done]).
      destruct (v_place _ Hok' w _ f Hw eq_refl) as (x' & cb' & Hx' & Hcb' & Hpr' & _).
      apply (stay_ok (spawn s (cb_task x)) w over (Deciding f) f x' cb'); try done. by right.
  - destruct p; cbn in Hf; try done; unfold turn; rewrite Hw.
    + rewrite (take_first s Hok). cbn [obind]. destruct (w_pending s) as [|f rest] eqn:Eq.
      * apply (wander_ok s w (mkWorker over Searching)); try done; [by destruct over|by apply (v_over s Hok w _ Hw)|].
        destruct over; [done|done].
      * by apply (take_ok s w (mkWorker over Searching)).
    + apply (wander_ok s w (mkWorker over Idling)); try done.
      intros [H|H]%orb_true_iff; [by apply (v_over s Hok w _ Hw)|]. unfold IsClean in H. by bool_hyps.
    + done.
Qed.

Lemma act_workers s f k r : act s f k = Ret r -> workers r.1 = workers s.
Proof using Type.
  unfold act. intros H. outcome_inv. destruct k as [|[] k]; outcome_inv; done.
Qed.

Lemma turn_length s w s' : turn s w = Ret (Some s') -> length (workers s') = length (workers s).
Proof using Type.
  unfold turn. destruct (workers s !! w) as [[over p]|]; [|done].
  assert (forall s1 wk, workers s1 = workers s -> length (workers (set_worker s1 w wk)) = length (workers s)) as Hlen.
  { intros s1 wk Hs. cbn. by rewrite length_insert, Hs. }
  destruct p; intros H; outcome_inv; try (by apply Hlen).
  - destruct x as [[f rest]|]; outcome_inv; by apply Hlen.
  - destruct (ctx_ x); [|by outcome_inv; apply Hlen|done].
    destruct (cb_ x) as [[t| |]|]; outcome_inv; by apply Hlen.
  - apply Hlen. by eapply act_workers.
  - destruct (state_ x); outcome_inv; by apply Hlen.
  - done.
Qed.

Lemma reachable_ok n s : (0 < n)%nat -> reachable n s -> pool_ok s /\ length (workers s) = n.
Proof using no_self.
  intros Hn H. refine (rtc_ind_r (fun s => pool_ok s /\ length (workers s) = n) (start n) _ _ s H); clear s H.
  - split; [apply start_ok|]. cbn. apply repeat_length.
  - intros s s' _ [w s1 Ht|cb Hc|] [Hok Hl].
    + pose proof (turn_good s w Hok) as H. rewrite Ht in H. split; [done|]. by rewrite (turn_length s w s1 Ht).
    + split; [|done]. apply spawn_ok; [done|]. destruct (workers s) as [|wk l] eqn:E; [cbn in Hl; lia|].
      exists O, wk. split; [done|]. intros Hex.
      assert (workers s !! O = Some wk) as H0 by (by rewrite E).
      pose proof (v_over s Hok O wk H0 (v_exited s Hok O wk H0 Hex)). congruence.
    + split; [by apply stop_ok|done].
Qed.


(** ** Theorems *)

Lemma fiber_prefix s f cb : pool_ok s -> 1 <= f -> callback_of s f = Some cb -> printed s f `prefix_of` whole cb.
Proof using Type.
  intros Hok Hf Hcb. destruct (decide (f ∈ w_pending s)) as [Hq|Hq].
  - destruct (v_pending s Hok f Hq) as (x & cb' & _ & Hcb' & _ & _ & _ & ->). apply prefix_nil.
  - destruct (decide (f ∈ held s)) as [Hh|Hh]; [|by rewrite (v_rest s Hok f cb)].
    unfold held in Hh. apply list_elem_of_omap in Hh as ([over p] & Hwk & Hp). apply list_elem_of_lookup in Hwk as [w Hw].
    destruct (v_place s Hok w _ f Hw Hp) as (x & cb' & _ & Hcb' & Hpl). assert (cb' = cb) as -> by congruence.
    destruct p; cbn in Hpl, Hp; try done; first [destruct Hpl as (_ & _ & _ & ->); apply prefix_nil
      |destruct Hpl as (_ & _ & <- & _); by apply prefix_app_r|destruct Hpl as [-> _]; done].
Qed.

(** C15: however the turns of several workers interleave, as long as no callback
    schedules its own fiber no assertion fails and nothing undefined is done, no two
    workers have the same fiber, and no worker has one that is in the queue; what a
    callback has printed is a beginning of what it prints when it runs alone, and all
    of it once its fiber is neither in the queue nor with a worker: every callback
    is run once. *)
Theorem workers_run_each_once n s :
  (0 < n)%nat -> reachable n s ->
  (forall w, exists o, turn s w = Ret o) /\
  NoDup (w_pending s ++ held s) /\
  (forall f cb, 1 <= f -> callback_of s f = Some cb ->
     printed s f `prefix_of` whole cb /\ (f ∉ w_pending s -> f ∉ held s -> printed s f = whole cb)).
Proof using no_self.
  intros Hn H. destruct (reachable_ok n s Hn H) as [Hok _]. split; [|split; [apply Hok|]].
  - intros w. pose proof (turn_good s w Hok) as Hg. destruct (turn s w) as [o|]; [by exists o|done].
  - intros f cb Hf Hcb. split; [|by apply (v_rest s Hok)]. by apply fiber_prefix.
Qed.

End workers.
Arguments place : clear implicits.
Arguments worker : clear implicits.
Arguments pool : clear implicits.

(** ** Fibers that schedule themselves

    [YieldToHold] stores the state before [swapOut] saves the context, and the state
    is all that [run] looks at. *)
Definition self_body (k : list (action unit)) (_ : unit) : list (action unit) := ScheduleSelf :: DoYieldToHold :: k.
Definition race (k : list (action unit)) : outcome (pool unit) :=
  run_turns (self_body k) (spawn (start 2) (Some tt)) ([0; 0; 0; 0; 0; 0] ++ [1; 1; 1; 1])%nat.

(** A fiber that schedules itself and yields can be run by two workers at a
    time: one that has stored the state and is about to save the context, and one
    that took the fiber because of the state and runs its callback from the
    beginning, on the same stack. *)
Theorem self_scheduled_fiber_runs_twice k :
  exists s, reachable (self_body k) 2 s /\
    map at_ (workers s) = [Leaving 1 (Suspended k); Running 1 (self_body k tt)].
Proof.
  assert (exists s, race k = Ret s /\ map at_ (workers s) = [Leaving 1 (Suspended k); Running 1 (self_body k tt)]) as (s & Hs & H)
    by (eexists; vm_compute; split; reflexivity).
  exists s. split; [|exact H]. apply rtc_l with (spawn (start 2) (Some tt)); [by apply step_schedule|].
  by apply (run_turns_steps _ _ ([0; 0; 0; 0; 0; 0] ++ [1; 1; 1; 1])%nat).
Qed.

(** ** An example: two workers and three callbacks, of which one schedules another
    and one yields *)
Definition example_body (n : nat) : list (action nat) :=
  match n with
  | O => [Emit 1; Schedule (Some 2%nat); Emit 2]
  | 1%nat => [Emit 3; DoYieldToHold; Emit 4]
  | _ => [Emit 5]
  end.
Lemma example_no_self t : ScheduleSelf ∉ example_body t.
Proof. destruct t as [|[|t]]; cbn; rewrite ?not_elem_of_cons; split_and?; try done; apply not_elem_of_nil. Qed.

Definition example_pool : pool nat := stop (spawn (spawn (start 2) (Some 0%nat)) (Some 1%nat)).
Definition ret_or {A} (a : A) (m : outcome A) : A := match m with Ret a => a | Fault _ => a end.
(** Turn and turn about *)
Definition turns (n : nat) : list nat := List.concat (repeat [0; 1]%nat n).
Definition example_end (n : nat) : pool nat := ret_or example_pool (run_turns example_body example_pool (turns n)).

Lemma example_pool_reachable n : reachable example_body 2 (example_end n).
Proof.
  apply rtc_l with (spawn (start 2) (Some 0%nat)); [by apply step_schedule|].
  apply rtc_l with (spawn (spawn (start 2) (Some 0%nat)) (Some 1%nat)); [by apply step_schedule|].
  apply rtc_l with example_pool; [apply step_stop|].
  unfold example_end. destruct (run_turns example_body example_pool (turns n)) as [s|] eqn:E; [|apply rtc_refl].
  by apply (run_turns_steps _ _ (turns n)).
Qed.

Lemma workers_run_each_once_witness :
  (forall w, exists o, turn example_body (example_end 6) w = Ret o) /\
  NoDup (w_pending (example_end 6) ++ held (example_end 6)) /\
  (forall f cb, 1 <= f -> callback_of (example_end 6) f = Some cb ->
     printed (example_end 6) f `prefix_of` whole example_body cb /\
     (f ∉ w_pending (example_end 6) -> f ∉ held (example_end 6) -> printed (example_end 6) f = whole example_body cb)).
Proof. exact (workers_run_each_once example_body example_no_self 2 _ ltac:(lia) (example_pool_reachable 6)). Defined.

