(* ===== verification/IOManager.v ===== *)
(** * The IO manager (src/qslary/net/IOManager.h, IOManager.cc)

    The part [IOManager] adds to the scheduler: the callbacks registered per
    descriptor and the calls it makes on its epoll instance. What the kernel
    answers is an input: the results of [epoll_wait], in order. *)
From stdpp Require Import base list gmap.
From Stdlib Require Import ZArith Lia.
From S2P Require Import Prelude CLib Fiber Scheduler.
Open Scope Z_scope.

Definition EPOLLIN : Z := 1.
Definition EPOLLOUT : Z := 4.
Definition EPOLLERR : Z := 8.
Definition EPOLLHUP : Z := 16.

Definition has_bit (events mask : Z) : bool := negb (Z.land events mask =? 0).

Inductive ctl : Set := EPOLL_CTL_ADD | EPOLL_CTL_MOD.

Section types.
Context {T : Type}.

Record FdCallback : Type := mkFdCallback {
  concernRead : bool;
  concernWrite : bool;
  readCallback_ : option T;
  writeCallback_ : option T
}.

(** [epoll_calls] are the calls of [epoll_ctl] with their events, [wakeup_writes]
    the writes to [mWakeupFd]. A result of [epoll_wait] is an error ([None]) or
    the events, none on a timeout. *)
Record IOState : Type := mkIO {
  mFdGroups : gmap Z FdCallback;
  pendingEventCount_ : Z;
  mWakeupFd : Z;
  epoll_calls : list (ctl * Z * Z);
  wakeup_writes : nat;
  epoll_results : list (option (list (Z * Z)))
}.

Definition set_groups (m : IOState) (g : gmap Z FdCallback) : IOState :=
  mkIO g (pendingEventCount_ m) (mWakeupFd m) (epoll_calls m) (wakeup_writes m) (epoll_results m).
Definition epoll_ctl (m : IOState) (op : ctl) (fd events : Z) : IOState :=
  mkIO (mFdGroups m) (pendingEventCount_ m) (mWakeupFd m) (epoll_calls m ++ [(op, fd, events)])
    (wakeup_writes m) (epoll_results m).
Definition set_count (m : IOState) (n : Z) : IOState :=
  mkIO (mFdGroups m) n (mWakeupFd m) (epoll_calls m) (wakeup_writes m) (epoll_results m).
Definition set_results (m : IOState) (l : list (option (list (Z * Z)))) : IOState :=
  mkIO (mFdGroups m) (pendingEventCount_ m) (mWakeupFd m) (epoll_calls m) (wakeup_writes m) l.
Definition write_wakeup (m : IOState) : IOState :=
  mkIO (mFdGroups m) (pendingEventCount_ m) (mWakeupFd m) (epoll_calls m) (S (wakeup_writes m))
    (epoll_results m).

(** [UpdateEpoll] *)
Definition UpdateEpoll (m : IOState) (fd events : Z) : IOState :=
  match mFdGroups m !! fd with
  | None =>
      let m := set_groups m (<[fd := mkFdCallback false false None None]> (mFdGroups m)) in
      epoll_ctl m EPOLL_CTL_ADD fd events
  | Some _ => epoll_ctl m EPOLL_CTL_MOD fd events
  end.

(** [mFdGroups[fd]->...= ...] of an entry that exists *)
Definition update_group (m : IOState) (fd : Z) (g : FdCallback -> FdCallback) : outcome IOState :=
  let! x := deref (mFdGroups m !! fd) in Ret (set_groups m (<[fd := g x]> (mFdGroups m))).

Definition AddReadEvent (m : IOState) (fd : Z) (cb : option T) : outcome (bool * IOState) :=
  let! m := update_group (UpdateEpoll m fd EPOLLIN) fd
    (fun x => mkFdCallback true (concernWrite x) cb (writeCallback_ x)) in
  Ret (true, m).

Definition AddWriteEvent (m : IOState) (fd : Z) (cb : option T) : outcome (bool * IOState) :=
  let! m := update_group (UpdateEpoll m fd EPOLLOUT) fd
    (fun x => mkFdCallback (concernRead x) true (readCallback_ x) cb) in
  Ret (true, m).

Definition CancelReadEvent (m : IOState) (fd : Z) : bool * IOState :=
  match mFdGroups m !! fd with
  | Some x =>
      if concernRead x then
        (true, set_groups m (<[fd := mkFdCallback false (concernWrite x) (readCallback_ x)
                                       (writeCallback_ x)]> (mFdGroups m)))
      else (true, m)
  | None => (true, m)
  end.

Definition CancelWriteEvent (m : IOState) (fd : Z) : bool * IOState :=
  match mFdGroups m !! fd with
  | Some x =>
      if concernWrite x then
        (true, set_groups m (<[fd := mkFdCallback (concernRead x) false (readCallback_ x)
                                       (writeCallback_ x)]> (mFdGroups m)))
      else (true, m)
  | None => (true, m)
  end.

(** [CancelReadEvent(fd) && CancelWriteEvent(fd)] *)
Definition CancelAll (m : IOState) (fd : Z) : bool * IOState :=
  let '(b, m) := CancelReadEvent m fd in
  if b then CancelWriteEvent m fd else (false, m).

(** [erase] of the end iterator is undefined. *)
Definition DelFileDesc (m : IOState) (fd : Z) : outcome (bool * IOState) :=
  match mFdGroups m !! fd with
  | Some _ => Ret (true, set_groups m (delete fd (mFdGroups m)))
  | None => Fault Undefined
  end.

(** The inner loop of [Idle] calls [epoll_wait] until it does not return 0. *)
Fixpoint epoll_wait_loop (l : list (option (list (Z * Z)))) :
    option (list (Z * Z) * list (option (list (Z * Z)))) :=
  match l with
  | [] => None
  | Some [] :: l => epoll_wait_loop l
  | Some events :: l => Some (events, l)
  | None :: l => Some ([], l)
  end.
End types.
Arguments FdCallback : clear implicits.
Arguments IOState : clear implicits.

Section manager.
Context {T : Type}.
Abbreviation IOManager := (Scheduler T (IOState T)).
Implicit Types s : IOManager.

(** [IOManager::Wakeup] *)
#[export] Instance IOManager_wakeups : Wakeups T (IOState T) := {
  Wakeup s := if hasIdleThreads s then s else set_derived s (write_wakeup (derived s))
}.

(** [FdCallback::TriggerEvent]: the number of callbacks scheduled *)
Definition TriggerEvent s (x : FdCallback T) (events : Z) : Z * IOManager :=
  let '(n, s) :=
    if concernRead x && has_bit events EPOLLIN
    then (1, scheduler s (Task <$> readCallback_ x)) else (0, s) in
  if concernRead x && has_bit events EPOLLOUT
  then (n + 1, scheduler s (Task <$> writeCallback_ x)) else (n, s).

(** The bits of an error or hang-up stand for both directions. *)
Definition event_bits (events : Z) : Z :=
  if has_bit events (Z.lor EPOLLERR EPOLLHUP) then Z.lor events (Z.lor EPOLLIN EPOLLOUT) else events.

(** [ProcessFdEvent]: [operator[]] of a missing entry gives a null pointer. *)
Definition ProcessFdEvent s (event : Z * Z) : outcome IOManager :=
  let '(fd, events) := event in
  let! x := deref (mFdGroups (derived s) !! fd) in
  let '(num, s) := TriggerEvent s x (event_bits events) in
  Ret (set_derived s (set_count (derived s) (u64 (pendingEventCount_ (derived s) - num)))).

Fixpoint process_events s (events : list (Z * Z)) : outcome IOManager :=
  match events with
  | [] => Ret s
  | event :: events =>
      if event.1 =? mWakeupFd (derived s) then process_events s events
      else let! s := ProcessFdEvent s event in process_events s events
  end.

(** One round of [IOManager::Idle], up to its [swapOut]. *)
Definition IOManager_Idle s : outcome (option IOManager) :=
  match epoll_wait_loop (epoll_results (derived s)) with
  | None => Ret None
  | Some (events, rest) =>
      let! s := process_events (set_derived s (set_results (derived s) rest)) events in
      let '(cur, st) := GetThreadCurrentFiber (store s) in
      let! st := swapOut st cur (Suspended []) in
      Ret (Some (set_store s st))
  end.

#[export] Instance IOManager_virtuals : Virtuals T (IOState T) := { Idle := IOManager_Idle }.

(** [IOManager::IsClean] with the local [timeout] it passes *)
Definition IOManager_IsClean_of s (timeout : Z) : bool :=
  (timeout =? u64 (-1)) && (pendingEventCount_ (derived s) =? 0) && IsClean s.
Definition IOManager_IsClean s : bool := IOManager_IsClean_of s 0.

(** The constructor: the wake-up descriptor, then the timer's. *)
Definition new_IOState (wakeup_fd timer_fd : Z) (handleRead : T)
    (results : list (option (list (Z * Z)))) : outcome (IOState T) :=
  let m := epoll_ctl (mkIO ∅ 0 wakeup_fd [] 0 results) EPOLL_CTL_ADD wakeup_fd EPOLLIN in
  let! r := AddReadEvent m timer_fd (Some handleRead) in Ret r.2.
End manager.

(** ** Examples *)
Definition example_io (results : list (option (list (Z * Z)))) : IOState nat :=
  match new_IOState 3 4 7%nat results with
  | Ret m => match AddReadEvent m 9 (Some 8%nat) with Ret (_, m) => m | Fault _ => m end
  | Fault _ => mkIO ∅ 0 0 [] 0 []
  end.
Example timer_event_schedules :
  match run_steps (fun t : nat => [Emit (Z.of_nat t)]) 3
          (run_begin (start (new_Scheduler 0 0 (example_io [Some []; Some [(3, 1); (4, 1); (9, 16)]])))) with
  | Ret (Next s) => emitted s = [7; 8] /\ pendingEventCount_ (derived s) = 2 ^ 64 - 3
  | _ => False
  end.
Proof. vm_compute. done. Qed.
