(* ===== verification/IOManagerCorrect.v ===== *)
(** * Correctness of the IO manager

    The IO manager as an implementation of the scheduler's interface, what an
    event schedules, what the epoll instance is asked to watch, and what its
    loop never does: end, or resume a fiber that waits for a descriptor. *)
From stdpp Require Import base list gmap.
From Stdlib Require Import ZArith Lia.
From S2P Require Import Prelude CLib Fiber Scheduler SchedulerCorrect IOManager.
#[local] Set Warnings "-clear-no-such-hyp".
Open Scope Z_scope.

(** ** The interface *)
Section laws.
Context {T : Type}.
Implicit Types (s : Scheduler T (IOState T)) (m : IOState T).

#[export] Instance IOManager_wakeups_laws : WakeupsLaws T (IOState T).
Proof.
  split. intros s. unfold Wakeup; cbn. destruct (hasIdleThreads s); [|by eexists].
  exists (derived s). by destruct s.
Qed.

(** Scheduling touches the wake-up count only. *)
Definition same_registrations m m' : Prop :=
  mFdGroups m' = mFdGroups m /\ mWakeupFd m' = mWakeupFd m /\ epoll_results m' = epoll_results m.

Lemma scheduler_derived s cb :
  same_registrations (derived s) (derived (scheduler s cb)) /\
  pendingEventCount_ (derived (scheduler s cb)) = pendingEventCount_ (derived s).
Proof.
  unfold scheduler, schedulerNoLock, Wakeup; cbn. case_bool_decide; [|done].
  by case_match.
Qed.

(** The callbacks an event of a descriptor schedules, in order. *)
Definition triggered (x : FdCallback T) (events : Z) : list (option T) :=
  (if concernRead x && has_bit events EPOLLIN then [readCallback_ x] else []) ++
  (if concernRead x && has_bit events EPOLLOUT then [writeCallback_ x] else []).

Definition schedule_all s (cbs : list (option T)) : Scheduler T (IOState T) :=
  fold_left (fun s cb => scheduler s (Task <$> cb)) cbs s.

Lemma TriggerEvent_spec s x events :
  TriggerEvent s x events =
    (Z.of_nat (length (triggered x events)), schedule_all s (triggered x events)).
Proof.
  unfold TriggerEvent, triggered, schedule_all.
  by destruct (concernRead x && has_bit events EPOLLIN), (concernRead x && has_bit events EPOLLOUT).
Qed.

Lemma schedule_all_ext own cbs : forall s, extends own s (schedule_all s cbs).
Proof.
  unfold schedule_all. induction cbs as [|cb cbs IH]; intros s; cbn [fold_left]; [apply extends_refl|].
  eapply extends_trans; [apply scheduler_ext|apply IH].
Qed.

Lemma schedule_all_ok own cbs : forall s, scheduler_ok s own ->
  scheduler_ok (schedule_all s cbs) own /\
  thread_current_fiber (store (schedule_all s cbs)) = thread_current_fiber (store s) /\
  same_registrations (derived s) (derived (schedule_all s cbs)) /\
  pendingEventCount_ (derived (schedule_all s cbs)) = pendingEventCount_ (derived s).
Proof.
  unfold schedule_all. induction cbs as [|cb cbs IH]; intros s Hok; cbn [fold_left].
  { by split_and!. }
  destruct (IH (scheduler s (Task <$> cb))) as (A & C & (D1 & D2 & D3) & E).
  { apply scheduler_scheduler_ok; [done|by destruct cb]. }
  destruct (scheduler_derived s (Task <$> cb)) as [(F1 & F2 & F3) G].
  split_and!; [done|by rewrite C, scheduler_current| |congruence].
  split_and!; congruence.
Qed.

Lemma ProcessFdEvent_eq s fd events x :
  mFdGroups (derived s) !! fd = Some x ->
  let s' := schedule_all s (triggered x (event_bits events)) in
  ProcessFdEvent s (fd, events) =
    Ret (set_derived s' (set_count (derived s')
      (u64 (pendingEventCount_ (derived s') - Z.of_nat (length (triggered x (event_bits events))))))).
Proof. intros Hx. unfold ProcessFdEvent. rewrite Hx. cbn [deref obind]. by rewrite TriggerEvent_spec. Qed.

(** Every event of the batch is for the wake-up descriptor or a registered one. *)
Definition events_known m (events : list (Z * Z)) : Prop :=
  forall e, e ∈ events -> e.1 = mWakeupFd m \/ is_Some (mFdGroups m !! e.1).

Lemma process_events_ok own events : forall s,
  scheduler_ok s own -> events_known (derived s) events ->
  exists s', process_events s events = Ret s' /\ scheduler_ok s' own /\ extends own s s' /\
    thread_current_fiber (store s') = thread_current_fiber (store s) /\
    same_registrations (derived s) (derived s').
Proof.
  induction events as [|[fd ev] events IH]; intros s Hok Hkn; cbn [process_events].
  { exists s. split_and!; [done|done|apply extends_refl|done..]. }
  assert (events_known (derived s) events) as Hkn' by (intros e He; apply Hkn; by right).
  cbn [fst]. destruct (Z.eqb_spec fd (mWakeupFd (derived s))) as [_|Hne]; [by apply IH|].
  destruct (Hkn (fd, ev)) as [?|[x Hx]]; [by left|done|]. cbn in Hx.
  rewrite (ProcessFdEvent_eq s fd ev x Hx). cbn [obind].
  destruct (schedule_all_ok own (triggered x (event_bits ev)) s Hok) as (A & C & (D1 & D2 & D3) & E).
  set (s1 := schedule_all s _) in *.
  destruct (IH (set_derived s1 (set_count (derived s1)
    (u64 (pendingEventCount_ (derived s1) - Z.of_nat (length (triggered x (event_bits ev)))))))) as
    (s' & E' & A' & B' & C' & (F1 & F2 & F3)).
  - by apply scheduler_ok_derived.
  - unfold events_known in *. cbn. by rewrite D1, D2.
  - exists s'. cbn in *. split_and!; [done|done| |by rewrite C'|split_and!; congruence].
    eapply extends_trans; [|exact B']. apply extends_derived, schedule_all_ext.
Qed.

Lemma IOManager_idle_round s :
  (forall events rest, epoll_wait_loop (epoll_results (derived s)) = Some (events, rest) ->
     events_known (derived s) events) ->
  scheduler_ok s (idleFiber s) ->
  thread_current_fiber (store s) = Some (idleFiber s) ->
  has_fiber s (idleFiber s) (fun x => stack_ x = true /\ state_ x = EXEC) ->
  exists o, Idle s = Ret o /\
    forall s', o = Some s' ->
      extends (idleFiber s) s s' /\ scheduler_ok s' (idleFiber s) /\
      (idleFiber s ∉ pendingFunctors_ s') /\
      thread_current_fiber (store s') = Some (first_fiber (store s)) /\
      has_fiber s' (idleFiber s) (fun x => stack_ x = true /\ state_ x = EXEC).
Proof.
  intros Henv Hok Hcur (x & Hx & Hst & Hex). unfold Idle; cbn [IOManager_virtuals]. unfold IOManager_Idle.
  destruct (epoll_wait_loop (epoll_results (derived s))) as [[events rest]|] eqn:Ew;
    [|by eexists].
  assert (forall own, scheduler_ok s own) as Hok'.
  { destruct Hok as [A B C]. intros own. split; [done| |done].
    intros f Hf _. apply B; [done|]. intros ->. by destruct C. }
  set (s0 := set_derived s (set_results (derived s) rest)).
  destruct (process_events_ok (idleFiber s - 1) events s0) as (s1 & E & _ & X1 & _).
  { apply scheduler_ok_derived, Hok'. }
  { exact (Henv _ _ eq_refl). }
  destruct (process_events_ok (idleFiber s) events s0) as (s1' & E' & Hok1 & X1' & Hcur1 & _).
  { apply scheduler_ok_derived, Hok'. }
  { exact (Henv _ _ eq_refl). }
  assert (s1' = s1) as -> by congruence. rewrite E. cbn [obind].
  pose proof (ok_created _ _ Hok _ _ Hx) as Hle.
  assert (fibers (store s1) !! idleFiber s = Some x) as Hx1.
  { rewrite (ext_keep _ _ _ X1); [done|lia|done]. }
  unfold GetThreadCurrentFiber. rewrite Hcur1. change (thread_current_fiber (store s0)) with (thread_current_fiber (store s)).
  rewrite Hcur. unfold swapOut. rewrite (update_ret _ _ x) by done. cbn [obind].
  eexists. split; [done|]. intros s' [= <-].
  assert (idleFiber s1 = idleFiber s) as Hid by exact (ext_idle _ _ _ X1).
  pose proof (ext_first _ _ _ X1) as Hfi. cbn in Hfi.
  assert (extends (idleFiber s) s s1) as Hext by (destruct X1'; by split).
  assert (idleFiber s1 ∉ pendingFunctors_ s1) as Hnin by (by destruct (ok_idle _ _ Hok1)).
  change (set_store s1 _) with (left s1 (idleFiber s) (with_ctx x (Suspended []))).
  split_and!.
  - eapply extends_trans; [exact Hext|]. apply left_extends.  pose proof (ext_created _ _ _ Hext). lia.
  - destruct Hok1 as [A B C]. split; [| |exact C].
    + intros g z. cbn. destruct (decide (g = idleFiber s)) as [->|]; [intros _; by eapply A|].
      rewrite lookup_insert_ne by done. apply A.
    + intros g Hg Hgi. destruct (B g Hg Hgi) as (z & Hz & HP). exists z. cbn. by rewrite lookup_insert_ne.
  - cbn. by rewrite <-Hid.
  - cbn. by rewrite Hfi.
  - eexists. cbn. by rewrite lookup_insert_eq.
Qed.
Lemma IOManager_idle_law s :
  (forall events rest, epoll_wait_loop (epoll_results (derived s)) = Some (events, rest) ->
     events_known (derived s) events) ->
  scheduler_ok s (idleFiber s) ->
  thread_current_fiber (store s) = Some (idleFiber s) ->
  has_fiber s (idleFiber s) (fun x => stack_ x = true /\ state_ x = EXEC) ->
  exists o, Idle s = Ret o /\
    forall s', o = Some s' ->
      extends (idleFiber s) s s' /\ scheduler_ok s' (idleFiber s) /\
      (idleFiber s ∉ pendingFunctors_ s') /\
      thread_current_fiber (store s') = Some (first_fiber (store s)) /\
      has_fiber s' (idleFiber s) (fun x => stack_ x = true).
Proof.
  intros H1 H2 H3 H4. destruct (IOManager_idle_round s H1 H2 H3 H4) as (o & E & H).
  exists o. split; [done|]. intros s' Ho. destruct (H s' Ho) as (A & B & C & D & (x & Hx & Hst & _)).
  split_and!; [done..|]. by exists x.
Qed.
End laws.

#[export] Instance IOManager_laws T : VirtualsLaws T (IOState T) := {
  idle_env m := forall events rest,
    epoll_wait_loop (epoll_results m) = Some (events, rest) -> events_known m events;
  idle_law := IOManager_idle_law
}.

(** ** What an event schedules *)
Section dispatch.
Context {T : Type}.
Implicit Types (s : Scheduler T (IOState T)) (m : IOState T).

(** The fibers of functions that wait in the queue. *)
Definition queues_tasks s (l : list Z) (cbs : list (option T)) : Prop :=
  Forall2 (fun f cb => has_fiber s f (fun x => state_ x = INIT /\ cb_ x = Task <$> cb)) l cbs.

Lemma schedule_all_queue cbs : forall s,
  exists l, pendingFunctors_ (schedule_all s cbs) = pendingFunctors_ s ++ l /\
    queues_tasks (schedule_all s cbs) l cbs.
Proof.
  induction cbs as [|cb cbs IH]; intros s; unfold schedule_all; cbn [fold_left].
  { exists []. rewrite app_nil_r. split; [done|by constructor]. }
  set (s1 := scheduler s (Task <$> cb)). destruct (IH s1) as (l & Hl & Hq). fold (schedule_all s1 cbs).
  destruct (scheduler_new s (Task <$> cb)) as [Hp Hf]. fold s1 in Hp, Hf.
  exists (created (store s) + 1 :: l). split; [by rewrite Hl, Hp, <-app_assoc|].
  constructor; [|exact Hq]. exists (new_fiber s (Task <$> cb)). split; [|done].
  rewrite (ext_keep _ _ _ (schedule_all_ext (created (store s)) cbs s1)); [exact Hf|lia|].
  destruct (scheduler_eq s (Task <$> cb)) as [x Hx]. fold s1 in Hx. rewrite Hx. cbn. lia.
Qed.

Lemma schedule_all_count cbs : forall s,
  pendingEventCount_ (derived (schedule_all s cbs)) = pendingEventCount_ (derived s).
Proof.
  induction cbs as [|cb cbs IH]; intros s; [done|]. unfold schedule_all; cbn [fold_left].
  fold (schedule_all (scheduler s (Task <$> cb)) cbs). rewrite IH.
  by destruct (scheduler_derived s (Task <$> cb)).
Qed.

Lemma ProcessFdEvent_queue s fd events x :
  mFdGroups (derived s) !! fd = Some x ->
  exists s' l, ProcessFdEvent s (fd, events) = Ret s' /\
    pendingFunctors_ s' = pendingFunctors_ s ++ l /\
    queues_tasks s' l (triggered x (event_bits events)) /\
    pendingEventCount_ (derived s') =
      u64 (pendingEventCount_ (derived s) - Z.of_nat (length (triggered x (event_bits events)))).
Proof.
  intros Hx. destruct (schedule_all_queue (triggered x (event_bits events)) s) as (l & Hl & Hq).
  eexists _, l. split; [by apply ProcessFdEvent_eq|]. split_and!; [exact Hl|exact Hq|].
  cbn [derived set_derived pendingEventCount_ set_count]. by rewrite schedule_all_count.
Qed.

Lemma has_bit_lor e a b : has_bit e (Z.lor a b) = has_bit e a || has_bit e b.
Proof.
  unfold has_bit. rewrite Z.land_lor_distr_r, <-negb_andb. f_equal.
  apply eq_true_iff_eq. rewrite andb_true_iff, !Z.eqb_eq. apply Z.lor_eq_0_iff.
Qed.

Lemma event_bits_spec e mask :
  mask = EPOLLIN \/ mask = EPOLLOUT ->
  has_bit (event_bits e) mask = has_bit e (Z.lor mask (Z.lor EPOLLERR EPOLLHUP)).
Proof.
  intros Hm. rewrite has_bit_lor. unfold event_bits.
  destruct (has_bit e (Z.lor EPOLLERR EPOLLHUP)); [|by rewrite orb_false_r].
  rewrite orb_true_r. unfold has_bit. rewrite Z.land_lor_distr_l. apply negb_true_iff, Z.eqb_neq.
  intros [_ H]%Z.lor_eq_0_iff. by destruct Hm as [-> | ->].
Qed.

Lemma UpdateEpoll_new m fd events : mFdGroups m !! fd = None ->
  UpdateEpoll m fd events =
    epoll_ctl (set_groups m (<[fd := mkFdCallback false false None None]> (mFdGroups m)))
      EPOLL_CTL_ADD fd events.
Proof. intros H. unfold UpdateEpoll. by rewrite H. Qed.

End dispatch.


(** ** What the epoll instance watches *)
Section interest.
Context {T : Type}.
Implicit Types m : IOState T.

(** The documented effect of [epoll_ctl] on the interest list: [ADD] fails on a
    descriptor that is there, [MOD] on one that is not and replaces the events
    otherwise. *)
Definition kernel_ctl (k : gmap Z Z) (call : ctl * Z * Z) : gmap Z Z :=
  let '(op, fd, events) := call in
  match op, k !! fd with
  | EPOLL_CTL_ADD, None => <[fd := events]> k
  | EPOLL_CTL_MOD, Some _ => <[fd := events]> k
  | _, _ => k
  end.
Definition interest m : gmap Z Z := fold_left kernel_ctl (epoll_calls m) ∅.

(** The calls a program makes on the manager's registrations. *)
Inductive registration : Type :=
| RegRead (fd : Z) (cb : option T)
| RegWrite (fd : Z) (cb : option T)
| RegCancelRead (fd : Z)
| RegCancelWrite (fd : Z)
| RegCancelAll (fd : Z).

Definition register m (r : registration) : outcome (IOState T) :=
  match r with
  | RegRead fd cb => let! r := AddReadEvent m fd cb in Ret r.2
  | RegWrite fd cb => let! r := AddWriteEvent m fd cb in Ret r.2
  | RegCancelRead fd => Ret (CancelReadEvent m fd).2
  | RegCancelWrite fd => Ret (CancelWriteEvent m fd).2
  | RegCancelAll fd => Ret (CancelAll m fd).2
  end.

Fixpoint registers m (rs : list registration) : outcome (IOState T) :=
  match rs with [] => Ret m | r :: rs => let! m := register m r in registers m rs end.

(** The events of the last registration of a descriptor. *)
Definition last_events (fd : Z) (before : option Z) (r : registration) : option Z :=
  match r with
  | RegRead g _ => if g =? fd then Some EPOLLIN else before
  | RegWrite g _ => if g =? fd then Some EPOLLOUT else before
  | _ => before
  end.

(** The registered descriptors are watched, and no others but [mWakeupFd]. *)
Definition watched m : Prop :=
  forall fd, fd <> mWakeupFd m -> is_Some (mFdGroups m !! fd) <-> is_Some (interest m !! fd).

Lemma interest_ctl m op fd events :
  interest (epoll_ctl m op fd events) = kernel_ctl (interest m) (op, fd, events).
Proof. unfold interest. cbn [epoll_calls epoll_ctl]. by rewrite fold_left_app. Qed.

Lemma UpdateEpoll_interest m fd events :
  watched m -> fd <> mWakeupFd m ->
  interest (UpdateEpoll m fd events) = <[fd := events]> (interest m) /\
  watched (UpdateEpoll m fd events) /\ is_Some (mFdGroups (UpdateEpoll m fd events) !! fd) /\
  mWakeupFd (UpdateEpoll m fd events) = mWakeupFd m.
Proof.
  intros Hw Hfd. unfold UpdateEpoll. pose proof (Hw fd Hfd) as [H1 H2].
  destruct (mFdGroups m !! fd) as [x|] eqn:Hx.
  - assert (interest (epoll_ctl m EPOLL_CTL_MOD fd events) = <[fd := events]> (interest m)) as Hi.
    { rewrite interest_ctl. cbn. destruct H1 as [e ->]; [by eexists|done]. }
    split_and!; [done| |by eexists|done]. intros g Hg. rewrite Hi.
    change (mFdGroups (epoll_ctl m _ fd events)) with (mFdGroups m).
    destruct (decide (g = fd)) as [->|]; [rewrite lookup_insert_eq, Hx; by split; eexists|].
    rewrite lookup_insert_ne by done. by apply Hw.
  - assert (interest m !! fd = None) as Hn.
    { destruct (interest m !! fd) eqn:E; [|done]. destruct H2 as [? [=]]. by eexists. }
    set (m1 := set_groups m _).
    assert (interest (epoll_ctl m1 EPOLL_CTL_ADD fd events) = <[fd := events]> (interest m)) as Hi.
    { rewrite interest_ctl. change (interest m1) with (interest m). cbn. by rewrite Hn. }
    split_and!; [done| |by eexists; apply lookup_insert_eq|done]. intros g Hg. rewrite Hi. cbn in *.
    destruct (decide (g = fd)) as [->|]; [rewrite !lookup_insert_eq; by split; eexists|].
    rewrite !lookup_insert_ne by done. by apply Hw.
Qed.

(** The descriptor a call is about is not the manager's own. *)
Definition target (r : registration) : Z :=
  match r with
  | RegRead fd _ | RegWrite fd _ | RegCancelRead fd | RegCancelWrite fd | RegCancelAll fd => fd
  end.

Definition same_watch m m' : Prop :=
  interest m' = interest m /\ mWakeupFd m' = mWakeupFd m /\
  forall fd, is_Some (mFdGroups m' !! fd) <-> is_Some (mFdGroups m !! fd).

Lemma same_watch_watched m m' : same_watch m m' -> watched m -> watched m'.
Proof. intros (A & B & C) Hw fd Hfd. rewrite A. etransitivity; [apply C|apply Hw; congruence]. Qed.

Lemma update_same_watch m fd x :
  is_Some (mFdGroups m !! fd) -> same_watch m (set_groups m (<[fd := x]> (mFdGroups m))).
Proof.
  intros Hfd. split_and!; [done|done|]. intros g. cbn.
  destruct (decide (g = fd)) as [->|]; [rewrite lookup_insert_eq|by rewrite lookup_insert_ne].
  split; [done|by eexists].
Qed.

Lemma same_watch_trans m1 m2 m3 : same_watch m1 m2 -> same_watch m2 m3 -> same_watch m1 m3.
Proof. intros (A & B & C) (D & E & F). split_and!; [congruence|congruence|]. intros fd. etransitivity; [apply F|apply C]. Qed.

Lemma cancel_same_watch m fd :
  same_watch m (CancelReadEvent m fd).2 /\ same_watch m (CancelWriteEvent m fd).2 /\
  same_watch m (CancelAll m fd).2.
Proof.
  assert (forall m, same_watch m (CancelReadEvent m fd).2 /\ same_watch m (CancelWriteEvent m fd).2 /\
    (CancelReadEvent m fd).1 = true) as H.
  { intros n. unfold CancelReadEvent, CancelWriteEvent. destruct (mFdGroups n !! fd) as [x|] eqn:Hx; [|done].
    destruct (concernRead x), (concernWrite x); split_and!; try done; by apply update_same_watch. }
  split_and!; [apply H|apply H|]. unfold CancelAll. destruct (H m) as (A & _ & B).
  destruct (CancelReadEvent m fd) as [b n]. cbn in A, B. rewrite B.
  eapply same_watch_trans; [exact A|]. apply H.
Qed.

Lemma register_interest m r :
  watched m -> target r <> mWakeupFd m ->
  exists m', register m r = Ret m' /\ watched m' /\ mWakeupFd m' = mWakeupFd m /\
    forall fd, interest m' !! fd = last_events fd (interest m !! fd) r.
Proof.
  intros Hw Ht. assert (forall m', same_watch m m' -> exists m'', Ret m' = Ret m'' /\ watched m'' /\
    mWakeupFd m'' = mWakeupFd m /\ forall fd, interest m'' !! fd = interest m !! fd) as Hsame.
  { intros m' H. exists m'. split_and!; [done|by eapply same_watch_watched|apply H|].
    intros fd. by destruct H as (-> & _). }
  assert (forall fd events (g : FdCallback T -> FdCallback T), fd <> mWakeupFd m ->
    exists m', update_group (UpdateEpoll m fd events) fd g = Ret m' /\ watched m' /\
      mWakeupFd m' = mWakeupFd m /\
      forall fd', interest m' !! fd' = if fd =? fd' then Some events else interest m !! fd') as Hadd.
  { intros fd events g Hfd.
    destruct (UpdateEpoll_interest m fd events Hw Hfd) as (Hi & Hw' & [x Hx] & Hwk).
    unfold update_group. rewrite Hx. cbn [deref obind]. eexists. split; [done|].
    assert (same_watch (UpdateEpoll m fd events) (set_groups (UpdateEpoll m fd events)
      (<[fd := g x]> (mFdGroups (UpdateEpoll m fd events))))) as Hs by (by apply update_same_watch; eexists).
    split_and!; [by eapply same_watch_watched|done|]. intros fd'. destruct Hs as (-> & _). rewrite Hi.
    destruct (Z.eqb_spec fd fd') as [->|]; [apply lookup_insert_eq|by apply lookup_insert_ne]. }
  destruct r as [fd cb|fd cb|fd|fd|fd]; cbn [register last_events target] in *;
    try (apply Hsame; apply cancel_same_watch).
  - unfold AddReadEvent. destruct (Hadd fd EPOLLIN (fun x => mkFdCallback true (concernWrite x) cb (writeCallback_ x)) Ht)
      as (m' & -> & H). by exists m'.
  - unfold AddWriteEvent. destruct (Hadd fd EPOLLOUT (fun x => mkFdCallback (concernRead x) true (readCallback_ x) cb) Ht)
      as (m' & -> & H). by exists m'.
Qed.

Lemma registers_interest rs : forall m,
  watched m -> Forall (fun r => target r <> mWakeupFd m) rs ->
  exists m', registers m rs = Ret m' /\
    forall fd, interest m' !! fd = fold_left (last_events fd) rs (interest m !! fd).
Proof.
  induction rs as [|r rs IH]; intros m Hw Hrs; [by exists m|].
  apply Forall_cons in Hrs as [Hr Hrs]. destruct (register_interest m r Hw Hr) as (m1 & E & Hw1 & Hwk & H1).
  destruct (IH m1 Hw1) as (m' & E' & H').
  { eapply Forall_impl; [exact Hrs|]. by intros r' H; rewrite Hwk. }
  exists m'. cbn [registers fold_left]. rewrite E. cbn [obind]. split; [done|].
  intros fd. by rewrite H', H1.
Qed.

Lemma new_IOState_watched w t (hr : T) results : w <> t ->
  exists m, new_IOState w t hr results = Ret m /\ watched m /\ mWakeupFd m = w /\
    interest m = <[t := EPOLLIN]> (<[w := EPOLLIN]> ∅).
Proof.
  intros Hwt. unfold new_IOState, AddReadEvent, update_group. rewrite UpdateEpoll_new by done. cbn.
  rewrite lookup_insert_eq. cbn. rewrite insert_insert_eq. eexists. split; [done|].
  assert (forall k : IOState T, epoll_calls k = [(EPOLL_CTL_ADD, w, EPOLLIN); (EPOLL_CTL_ADD, t, EPOLLIN)] ->
    interest k = <[t := EPOLLIN]> (<[w := EPOLLIN]> ∅)) as Hi.
  { intros k Hk. unfold interest. rewrite Hk. cbn. rewrite lookup_empty. cbn.
    by rewrite lookup_insert_ne, lookup_empty. }
  split_and!; [|done|by apply Hi]. intros fd Hfd. rewrite Hi by done. cbn in *.
  destruct (decide (fd = t)) as [->|]; [rewrite !lookup_insert_eq; by split; eexists|].
  rewrite !lookup_insert_ne, !lookup_empty by done. by split; intros [? [=]].
Qed.

(** C26: of a new manager's registrations and cancellations, in any order, the
    last registration of a descriptor alone decides the events the epoll
    instance watches for it; registering for the other direction drops the
    first one, and cancelling changes nothing. *)
Theorem epoll_interest_last w t (hr : T) results rs :
  w <> t -> Forall (fun r => target r <> w) rs ->
  exists m m', new_IOState w t hr results = Ret m /\ registers m rs = Ret m' /\
    forall fd, fd <> w ->
      interest m' !! fd =
        fold_left (last_events fd) rs (if fd =? t then Some EPOLLIN else None).
Proof.
  intros Hwt Hrs. destruct (new_IOState_watched w t hr results Hwt) as (m & E & Hw & Hwk & Hi).
  destruct (registers_interest rs m Hw) as (m' & E' & H'); [by rewrite Hwk|].
  exists m, m'. split_and!; [done|done|]. intros fd Hfd. rewrite H', Hi.
  destruct (Z.eqb_spec fd t) as [->|]; [by rewrite lookup_insert_eq|].
  by rewrite !lookup_insert_ne, lookup_empty.
Qed.
End interest.

Lemma epoll_interest_last_witness :
  exists m m', new_IOState 3 4 7%nat [] = Ret m /\
    registers m [RegRead 9 (Some 1%nat); RegWrite 9 (Some 2%nat); RegCancelWrite 9] = Ret m' /\
    interest m' !! 9 = Some EPOLLOUT.
Proof.
  destruct (epoll_interest_last 3 4 7%nat []
    [RegRead 9 (Some 1%nat); RegWrite 9 (Some 2%nat); RegCancelWrite 9]) as (m & m' & E & E' & H);
    [lia|by repeat constructor|].
  exists m, m'. exact (conj E (conj E' (H 9 ltac:(lia)))).
Defined.

(** ** What the loop never does *)
Section never.
Context {T : Type} (body : T -> list (action T)).
Implicit Types s : Scheduler T (IOState T).

(** The moves of a running IO manager: iterations of its loop, functions
    scheduled, registrations, cancellations, and answers of the kernel. *)
Inductive io_move : Scheduler T (IOState T) -> Scheduler T (IOState T) -> Prop :=
| move_iterate s s' :
    idle_env (T := T) (derived s) -> run_step body s = Ret (Next s') -> io_move s s'
| move_schedule s cb : io_move s (scheduler s (Task <$> cb))
| move_register s r m : register (derived s) r = Ret m -> io_move s (set_derived s m)
| move_delete s fd b m : DelFileDesc (derived s) fd = Ret (b, m) -> io_move s (set_derived s m)
| move_kernel s l : io_move s (set_derived s (set_results (derived s) l))
| move_stop s : io_move s (stop s).

Lemma io_move_reachable s s' : reachable body s -> io_move s s' -> reachable body s'.
Proof.
  intros Hr Hm. destruct Hm as [s s' He Hs|s cb|s r m _|s fd b m _|s l|s].
  - by eapply reach_iterate.
  - exact (reach_schedule body s cb Hr).
  - by apply reach_derived.
  - by apply reach_derived.
  - by apply reach_derived.
  - by apply reach_stop.
Qed.

Lemma io_move_asleep s s' f x : reachable body s -> io_move s s' -> asleep s f x -> asleep s' f x.
Proof.
  intros Hr Hm Ha. pose proof (reachable_inv body s Hr) as Hinv.
  destruct Hm as [s s' He Hs|s cb|s r m _|s fd b m _|s l|s]; try exact Ha.
  - destruct (run_step_ok body s Hinv He) as (r & Er & H). rewrite Hs in Er. injection Er as <-.
    by apply (H s' (or_introl eq_refl)).
  - pose proof (ok_created _ _ (inv_ok _ Hinv 0)) as Hc.
    eapply (keeps_asleep s _ (f - 1)); [exact Hc|apply extends_keeps, scheduler_ext|lia|exact Ha].
Qed.

(** C24: a fiber that has yielded with [YieldToHold], as [do_io] does after it
    has registered its descriptor with an empty callback, is not resumed by any
    sequence of loop iterations, events, registrations, cancellations and
    scheduled functions: it stays suspended and out of the queue. *)
Theorem waiting_fiber_never_resumed s s' f x :
  reachable body s -> asleep s f x -> rtc io_move s s' -> asleep s' f x.
Proof.
  intros Hr Ha Hm. induction Hm as [s|s s1 s2 Hm _ IH]; [done|].
  apply IH; [by eapply io_move_reachable|by eapply io_move_asleep].
Qed.

(** The idle fiber of an IO manager does not end. *)
Definition idle_alive s : Prop :=
  has_fiber s (idleFiber s) (fun x => state_ x <> TERM /\ state_ x <> EXCEPTION).

Lemma keeps_idle_alive s s' own :
  inv s -> own <> idleFiber s -> keeps own s s' -> idle_alive s -> idle_alive s'.
Proof.
  intros Hinv Ho [A B C D] (x & Hx & HP). exists x. split; [|done].
  rewrite B, C; [done|by apply not_eq_sym|]. by apply (ok_created _ _ (inv_ok _ Hinv 0) _ x).
Qed.

Lemma idle_round_alive s s' :
  inv s -> doing s = None -> idle_env (T := T) (derived s) -> idle_alive s ->
  idle_round s = Ret (Next s') -> idle_alive s'.
Proof.
  intros [Hok Hc Hdo (y & Hy & Hst & Hne)] Hd Henv _. unfold idle_round. cbn [store add_idle idleFiber].
  rewrite (swapIn_ret _ _ y) by done. cbn [obind]. set (s0 := set_store _ _).
  destruct (IOManager_idle_round s0) as (o & Eo & Ho).
  - exact Henv.
  - destruct (Hok (idleFiber s)) as [Hcr Hp (Hi & Hdi & Hl)]. split; [| |by split_and!].
    + intros g z. cbn. destruct (decide (g = idleFiber s)) as [->|]; [done|].
      rewrite lookup_insert_ne by done. apply Hcr.
    + intros g Hg Hgi. destruct (Hp g Hg Hgi) as (z & Hz & HP). exists z. cbn.
      by rewrite lookup_insert_ne.
  - done.
  - exists (with_state y EXEC). cbn. by rewrite lookup_insert_eq.
  - rewrite Eo. cbn [obind]. destruct o as [s1|]; [|done].
    destruct (Ho s1 eq_refl) as (X & _ & _ & _ & (z & Hz & _ & Hze)).
    change (idleFiber s0) with (idleFiber s) in *.
    rewrite (ext_idle _ _ _ X). change (idleFiber s0) with (idleFiber s). rewrite Hz.
    cbn [deref obind]. rewrite Hze, (update_ret _ _ z) by done. cbn [obind]. intros [= <-].
    exists (with_state z HOLD). cbn. rewrite (ext_idle _ _ _ X). by rewrite lookup_insert_eq.
Qed.

Lemma run_step_alive s r :
  inv s -> idle_env (T := T) (derived s) -> idle_alive s -> run_step body s = Ret r ->
  match r with Next s' => idle_alive s' | Exit _ => False | Waiting => True end.
Proof.
  intros Hinv Henv (x & Hx & Hal). unfold run_step.
  destruct (release_ok s Hinv) as (m & count & Hrel & Hinv1 & Hsub & Hm).
  set (s1 := set_doing _ _) in Hrel, Hinv1. rewrite Hrel. cbn [obind].
  assert (fibers (store s1) !! idleFiber s1 = Some x) as Hx1.
  { cbn. rewrite Hm; [done|]. left. by destruct (ok_idle _ _ (inv_ok _ Hinv 0)) as (_ & ? & _). }
  assert (idle_alive s1) as Hal1 by (by exists x).
  destruct (take_runnable_ok s1 (pendingFunctors_ s1)) as (t & Ht & Hspec).
  { intros f Hf. by apply (ok_pending _ _ (inv_ok _ Hinv1 (f - 1))); [|lia]. }
  rewrite Ht. cbn [obind]. destruct t as [[f rest]|].
  - destruct Hspec as (l1 & l2 & Hl & -> & _ & Hrun).
    assert (f ∈ pendingFunctors_ s1) as Hf by (rewrite Hl; set_solver).
    destruct (run_doing_ok body s1 f (l1 ++ l2)) as (s' & -> & I & K); [done|done|rewrite Hl; set_solver|done|].
    cbn [obind]. intros [= <-]. eapply keeps_idle_alive; [exact Hinv1| |exact K|done].
    intros ->. by destruct (ok_idle _ _ (inv_ok _ Hinv1 0)).
  - unfold run_idle. rewrite Hx1. cbn [deref obind].
    assert (idle_round s1 = Ret r -> match r with Next s' => idle_alive s' | Exit _ => False | Waiting => True end) as Hr.
    { intros E. destruct r as [s'|s'|]; [by eapply idle_round_alive| |done].
      revert E. unfold idle_round. destruct (swapIn _ _); cbn [obind]; [|done].
      destruct (Idle _) as [[s2|]|]; cbn [obind]; [|done|done].
      destruct (deref _); cbn [obind]; [|done]. by match goal with |- obind ?m _ = _ -> _ => destruct m end. }
    destruct Hal as [Hal2 Hal3]. by destruct (state_ x); try done.
Qed.

Lemma reachable_idle_alive s : reachable body s -> idle_alive s.
Proof.
  intros Hr. induction Hr as [c n x Hc|s cb Hr IH|s f Hr IH Hf Hi|s x Hr IH|s Hr IH|s s' Hr IH He Hs].
  - eexists. cbn. rewrite lookup_insert_eq. done.
  - eapply (keeps_idle_alive s _ (idleFiber s - 1)); [by apply (reachable_inv body)|lia| |done].
    apply extends_keeps, scheduler_ext.
  - done.
  - done.
  - done.
  - exact (run_step_alive s _ (reachable_inv body s Hr) He IH Hs).
Qed.

(** The loop of an IO manager never ends, even when it has been stopped and
    nothing is left to do: [IsClean] is always false, the idle fiber does not
    look at it and never ends, so that [stop] joins threads that do not end. *)
Theorem IOManager_never_exits s s' :
  reachable body s -> idle_env (T := T) (derived s) ->
  run_step body s <> Ret (Exit s') /\ IOManager_IsClean s = false.
Proof.
  intros Hr He. split; [|done]. intros Hs.
  exact (run_step_alive s _ (reachable_inv body s Hr) He (reachable_idle_alive s Hr) Hs).
Qed.
End never.

(** ** Witnesses *)
Definition io_body (t : nat) : list (action nat) :=
  match t with
  | 0%nat => [Emit 1; DoYieldToHold; Emit 2]
  | _ => [Emit 3]
  end.

(** A manager whose first callback waits, and the state after it has yielded. *)
Definition io_start (results : list (option (list (Z * Z)))) : Scheduler nat (IOState nat) :=
  scheduler (run_begin (start (new_Scheduler 0 0 (example_io results)))) (Task <$> Some 0%nat).

Lemma io_start_reachable results : reachable io_body (io_start results).
Proof. refine (reach_schedule io_body _ (Some 0%nat) (reach_begin _ 0 0 (example_io results) _)). lia. Qed.

Lemma io_start_env : idle_env (T := nat) (derived (io_start [])).
Proof. intros events rest H. discriminate H. Qed.

Lemma waiting_fiber_never_resumed_witness :
  exists s x, run_step io_body (io_start []) = Ret (Next s) /\
    asleep (scheduler s (Task <$> Some 1%nat)) 4 x.
Proof.
  destruct (run_step io_body (io_start [])) as [[s|s|]|] eqn:E; try discriminate (E).
  assert (exists x, asleep s 4 x) as [x Hx].
  { revert E. vm_compute. intros [= <-]. eexists. split_and!; try done; [by apply not_elem_of_nil|].
    by eexists. }
  exists s, x. split; [reflexivity|].
  apply (waiting_fiber_never_resumed io_body s _ 4 x).
  - exact (reach_iterate io_body _ s (io_start_reachable []) io_start_env E).
  - exact Hx.
  - apply rtc_once. exact (move_schedule io_body s (Some 1%nat)).
Defined.

Lemma IOManager_never_exits_witness :
  ~ (exists s, run_step io_body (stop (io_start [])) = Ret (Exit s)) /\
  IOManager_IsClean (stop (io_start [])) = false.
Proof.
  split.
  - intros [s H]. refine (proj1 (IOManager_never_exits io_body (stop (io_start [])) s _ io_start_env) H).
    apply reach_stop, io_start_reachable.
  - apply (IOManager_never_exits io_body (stop (io_start [])) (io_start [])).
    + apply reach_stop, io_start_reachable.
    + exact io_start_env.
Defined.
