(* ===== verification/FdManager.v ===== *)
(** * File descriptor contexts (src/qslary/net/FdManager.h and FdManager.cc)

    What the program remembers about each descriptor: whether it is a socket,
    the user's and the system's blocking mode, and the timeouts. The system
    (descriptor kinds and status flags) is a parameter. *)
From stdpp Require Import base list.
From Stdlib Require Import ZArith Lia.
From S2P Require Import Prelude CLib.
Open Scope Z_scope.

Definition O_NONBLOCK : Z := 2048.
Definition SO_RCVTIMEO : Z := 20.
Definition SO_SNDTIMEO : Z := 21.

Record FdContext : Set := mkFdContext {
  isInit_ : bool;
  isSocket_ : bool;
  sysNonblock_ : bool;
  userNonblock_ : bool;
  isClosed_ : bool;
  fd_ : Z;
  recvTimeout_ : Z;                                     (** [uint64_t] *)
  sendTimeout_ : Z
}.

(** [uint64_t] of -1 *)
Definition no_timeout : Z := u64 (-1).

Definition setUserNonBlock (c : FdContext) (v : bool) : FdContext :=
  mkFdContext (isInit_ c) (isSocket_ c) (sysNonblock_ c) v (isClosed_ c) (fd_ c)
    (recvTimeout_ c) (sendTimeout_ c).
Definition setSysNonBlock (c : FdContext) (v : bool) : FdContext :=
  mkFdContext (isInit_ c) (isSocket_ c) v (userNonblock_ c) (isClosed_ c) (fd_ c)
    (recvTimeout_ c) (sendTimeout_ c).

Definition setTimeout (c : FdContext) (type v : Z) : FdContext :=
  if type =? SO_RCVTIMEO then
    mkFdContext (isInit_ c) (isSocket_ c) (sysNonblock_ c) (userNonblock_ c) (isClosed_ c) (fd_ c)
      v (sendTimeout_ c)
  else
    mkFdContext (isInit_ c) (isSocket_ c) (sysNonblock_ c) (userNonblock_ c) (isClosed_ c) (fd_ c)
      (recvTimeout_ c) v.
Definition getTimeout (c : FdContext) (type : Z) : Z :=
  if type =? SO_RCVTIMEO then recvTimeout_ c else sendTimeout_ c.

(** The manager's vector; [None] is a null pointer. *)
Record FdContextManager : Set := mkFdManager { fds_ : list (option FdContext) }.

Definition new_FdContextManager : FdContextManager := mkFdManager (replicate 64 None).

Section system.
(** The system's state; [fstat] says whether a descriptor is open and a socket,
    [getfl] and [setfl] are [fcntl_f] with [F_GETFL] and [F_SETFL]. *)
Context (Sys : Type) (fstat : Sys -> Z -> option bool).
Context (getfl : Sys -> Z -> Z) (setfl : Sys -> Z -> Z -> Sys).

(** [FdContext::init] on a fresh object, called by the constructor. *)
Definition new_FdContext (k : Sys) (fd : Z) : FdContext * Sys :=
  let '(isInit, isSocket) :=
    (match fstat k fd with
     | None => (false, false)
     | Some s => (true, s)
     end) in
  let '(sys, k) :=
    (if (isSocket : bool) then
       let flags := getfl k fd in
       (true, if Z.land flags O_NONBLOCK =? 0 then setfl k fd (Z.lor flags O_NONBLOCK) else k)
     else (false, k)) in
  (mkFdContext isInit isSocket sys false false fd no_timeout no_timeout, k).

(** [fds_.resize(n)] with a [size_t]. *)
Definition resize_fds (l : list (option FdContext)) (n : Z) : list (option FdContext) :=
  take (Z.to_nat n) l ++ replicate (Z.to_nat n - length l) None.

(** [FdContextManager::getFdContext]; [fd * 1.5] is exact for an [int], and its
    conversion to [size_t] is undefined when it is negative. *)
Definition getFdContext (m : FdContextManager) (k : Sys) (fd : Z) (auto_creat : bool)
    : outcome (option FdContext * FdContextManager * Sys) :=
  if fd =? -1 then Ret (None, m, k)
  else
    let n := Z.of_nat (length (fds_ m)) in
    let ufd := u64 fd in
    let create :=
      (if auto_creat then
         let! l := (if n <=? ufd then
                      if fd <? 0 then Fault Undefined else Ret (resize_fds (fds_ m) (fd * 3 / 2))
                    else Ret (fds_ m)) in
         let '(ctx, k) := new_FdContext k fd in
         if ufd <? Z.of_nat (length l)
         then Ret (Some ctx, mkFdManager (<[Z.to_nat fd := Some ctx]> l), k)
         else Fault Undefined
       else Ret (None, m, k)) in
    if ufd <? n then
      match fds_ m !! Z.to_nat ufd with
      | Some (Some c) => Ret (Some c, m, k)
      | _ => if auto_creat then create else Ret (None, m, k)
      end
    else create.

(** [FdContextManager::delFdContext] *)
Definition delFdContext (m : FdContextManager) (fd : Z) : outcome FdContextManager :=
  let n := Z.of_nat (length (fds_ m)) in
  let ufd := u64 fd in
  if ufd >? n then Ret m
  else if ufd <? n then Ret (mkFdManager (<[Z.to_nat ufd := None]> (fds_ m)))
  else Fault Undefined.
End system.

(** The context of a descriptor, as the pointer finds it. *)
Definition context (m : FdContextManager) (fd : Z) : option FdContext :=
  if (0 <=? fd) then mjoin (fds_ m !! Z.to_nat fd) else None.

(** A change through the shared pointer of a descriptor's context. *)
Definition update_context (m : FdContextManager) (fd : Z) (f : FdContext -> FdContext)
    : FdContextManager :=
  match context m fd with
  | Some c => mkFdManager (<[Z.to_nat fd := Some (f c)]> (fds_ m))
  | None => m
  end.

(** ** Properties *)
Section properties.
Context (Sys : Type) (fstat : Sys -> Z -> option bool).
Context (getfl : Sys -> Z -> Z) (setfl : Sys -> Z -> Z -> Sys).

Lemma length_resize_fds l n : 0 <= n -> length (resize_fds l n) = Z.to_nat n.
Proof. intros. unfold resize_fds. rewrite length_app, length_take, length_replicate. lia. Qed.

Lemma lookup_resize_fds l n i :
  Z.of_nat (length l) <= n ->
  mjoin (resize_fds l n !! i) = mjoin (l !! i).
Proof.
  intros Hn. unfold resize_fds. rewrite take_ge by lia.
  destruct (decide (i < length l)%nat).
  - by rewrite lookup_app_l.
  - rewrite lookup_app_r by lia. rewrite (lookup_ge_None_2 l) by lia.
    destruct (replicate _ _ !! _) eqn:E; [|done].
    by apply lookup_replicate in E as [-> _].
Qed.

Lemma context_lookup m fd : 0 <= fd -> context m fd = mjoin (fds_ m !! Z.to_nat fd).
Proof. intros. unfold context. by rewrite (proj2 (Z.leb_le _ _)). Qed.

(** For every descriptor number a process can have, [getFdContext] with
    creation returns the existing context or makes and stores a new one,
    growing the vector when needed, and disturbs no other descriptor; without
    creation it is the plain lookup. *)
Theorem getFdContext_correct m k fd :
  0 <= fd < 2 ^ 31 -> (64 <= length (fds_ m))%nat ->
  getFdContext Sys fstat getfl setfl m k fd false = Ret (context m fd, m, k) /\
  exists c m' k', getFdContext Sys fstat getfl setfl m k fd true = Ret (Some c, m', k') /\
    context m' fd = Some c /\ (64 <= length (fds_ m'))%nat /\
    (context m fd = Some c \/
     context m fd = None /\ (c, k') = new_FdContext Sys fstat getfl setfl k fd) /\
    (forall fd', 0 <= fd' -> fd' <> fd -> context m' fd' = context m fd').
Proof.
  intros Hfd Hlen. unfold getFdContext. rewrite (proj2 (Z.eqb_neq _ _)) by lia.
  rewrite (wrapu_small 64) by lia. rewrite (context_lookup m fd) by lia.
  destruct (Z.ltb_spec fd (Z.of_nat (length (fds_ m)))) as [Hlt|Hge].
  - destruct (lookup_lt_is_Some_2 (fds_ m) (Z.to_nat fd)) as [o Ho]; [lia|]. rewrite Ho.
    split; [by destruct o|].
    destruct o as [c|]; [exists c, m, k; split_and!; auto; by rewrite context_lookup, Ho by lia|].
    rewrite (proj2 (Z.leb_gt _ _)) by lia. cbn [obind].
    destruct (new_FdContext Sys fstat getfl setfl k fd) as [c k'] eqn:E.
    rewrite (proj2 (Z.ltb_lt _ _)) by lia. eexists c, _, k'. split; [reflexivity|]. split_and!.
    + rewrite context_lookup by lia. cbn [fds_]. by rewrite list_lookup_insert_eq by lia.
    + cbn [fds_]. by rewrite length_insert.
    + right. done.
    + intros fd' H0 Hne. rewrite !context_lookup by lia. cbn [fds_].
      by rewrite list_lookup_insert_ne by lia.
  - rewrite (lookup_ge_None_2 (fds_ m)) by lia. split; [done|].
    rewrite (proj2 (Z.leb_le _ _)), (proj2 (Z.ltb_ge _ _)) by lia. cbn [obind].
    assert (fd + 1 <= fd * 3 / 2) as Hgrow by (apply Z.div_le_lower_bound; lia).
    destruct (new_FdContext Sys fstat getfl setfl k fd) as [c k'] eqn:E.
    rewrite length_resize_fds, Z2Nat.id by lia. rewrite (proj2 (Z.ltb_lt _ _)) by lia.
    eexists c, _, k'. split; [reflexivity|]. split_and!.
    + rewrite context_lookup by lia. cbn [fds_].
      rewrite list_lookup_insert_eq; [done|]. rewrite length_resize_fds; lia.
    + cbn [fds_]. rewrite length_insert, length_resize_fds; lia.
    + right. done.
    + intros fd' H0 Hne. rewrite !context_lookup by lia. cbn [fds_].
      rewrite list_lookup_insert_ne by lia. apply lookup_resize_fds. lia.
Qed.
End properties.

Lemma getFdContext_correct_witness :
  exists c m' k', getFdContext unit (fun _ _ => Some true) (fun _ _ => 0) (fun k _ _ => k)
    new_FdContextManager tt 100 true = Ret (Some c, m', k') /\ context m' 100 = Some c.
Proof.
  destruct (getFdContext_correct unit (fun _ _ => Some true) (fun _ _ => 0) (fun k _ _ => k)
    new_FdContextManager tt 100) as (_ & c & m' & k' & E & H & _);
    [lia|apply (bool_decide_unpack _); vm_compute; exact I|].
  exists c, m', k'. split; [exact E|exact H].
Defined.

(** [delFdContext] forgets the descriptor and no other, but its bound test
    lets the descriptor equal to the vector's size through, which writes past
    the end. *)
Theorem delFdContext_correct m fd :
  0 <= fd < 2 ^ 31 ->
  (delFdContext m fd = Fault Undefined <-> fd = Z.of_nat (length (fds_ m))) /\
  (fd <> Z.of_nat (length (fds_ m)) ->
   exists m', delFdContext m fd = Ret m' /\ context m' fd = None /\
     forall fd', 0 <= fd' -> fd' <> fd -> context m' fd' = context m fd').
Proof.
  intros Hfd. unfold delFdContext. rewrite (wrapu_small 64), Z.gtb_ltb by lia.
  destruct (Z.ltb_spec (Z.of_nat (length (fds_ m))) fd) as [Hgt|Hle].
  - split; [split; [done|lia]|]. intros _. exists m. split_and!; [done| |done].
    rewrite context_lookup, lookup_ge_None_2 by lia. done.
  - destruct (Z.ltb_spec fd (Z.of_nat (length (fds_ m)))) as [Hlt|Hge].
    + split; [split; [done|lia]|]. intros _. eexists. split; [reflexivity|]. split.
      * rewrite context_lookup by lia. cbn [fds_]. by rewrite list_lookup_insert_eq by lia.
      * intros fd' H0 Hne. rewrite !context_lookup by lia. cbn [fds_].
        by rewrite list_lookup_insert_ne by lia.
    + split; [split; [lia|done]|]. lia.
Qed.

Lemma delFdContext_correct_witness : delFdContext new_FdContextManager 64 = Fault Undefined.
Proof.
  destruct (delFdContext_correct new_FdContextManager 64) as [[_ H] _]; [lia|].
  apply H. reflexivity.
Defined.
