(* ===== verification/FdThreads.v ===== *)
(** * The descriptor contexts used by threads (src/qslary/net/FdManager.cc)

    [getFdContext] and [delFdContext] as the blocks they hold the manager's
    [RWMutex] in (RWMutex.v). Alone they are the methods of FdManager.v;
    [getFdContext] looks under the read lock and makes the context under the write
    lock, without looking again. *)
From stdpp Require Import base list relations.
From Stdlib Require Import ZArith Lia.
From S2P Require Import Prelude CLib RWMutex FdManager.
Open Scope Z_scope.

Section threads.
Context {Sys : Type} (fstat : Sys -> Z -> option bool).
Context (getfl : Sys -> Z -> Z) (setfl : Sys -> Z -> Z -> Sys).

(** What the lock protects, with the system. *)
Abbreviation shared := (FdContextManager * Sys)%type.
Abbreviation block_prog := (prog shared Empty_set (option FdContext)).

(** The second block of [getFdContext] *)
Definition create_context (x : shared) (fd : Z) : outcome (option FdContext * shared) :=
  let n := Z.of_nat (length (fds_ x.1)) in
  let ufd := u64 fd in
  let! l := (if n <=? ufd then
               if fd <? 0 then Fault Undefined else Ret (resize_fds (fds_ x.1) (fd * 3 / 2))
             else Ret (fds_ x.1)) in
  let '(ctx, k) := new_FdContext Sys fstat getfl setfl x.2 fd in
  if ufd <? Z.of_nat (length l)
  then Ret (Some ctx, (mkFdManager (<[Z.to_nat fd := Some ctx]> l), k))
  else Fault Undefined.

(** A block of the write guard that may fail *)
Definition write_block (f : shared -> outcome (option FdContext * shared)) : block_prog :=
  Write (fun x => match f x with Ret r => r.2 | Fault _ => x end)
    (fun x => match f x with Ret r => Return r.1 | Fault e => Fail e end).

Inductive call : Type :=
| GetFdContext (fd : Z) (auto_creat : bool)
| DelFdContext (fd : Z).

Definition meaning (c : call) : block_prog :=
  match c with
  | GetFdContext fd auto_creat =>
      if fd =? -1 then Return None
      else
        Read (fun _ => []) (fun x =>
          let behind := if auto_creat then write_block (fun x => create_context x fd) else Return None in
          if u64 fd <? Z.of_nat (length (fds_ x.1)) then
            match fds_ x.1 !! Z.to_nat (u64 fd) with
            | Some (Some c) => Return (Some c)
            | _ => if auto_creat then behind else Return None
            end
          else behind)
  | DelFdContext fd =>
      write_block (fun x => let! m := delFdContext x.1 fd in Ret (None, (m, x.2)))
  end.

(** The same calls by the methods of FdManager.v, one after the other. *)
Definition do_call (c : call) (x : shared) : outcome (option FdContext * shared) :=
  match c with
  | GetFdContext fd auto_creat =>
      let! r := getFdContext Sys fstat getfl setfl x.1 x.2 fd auto_creat in Ret (r.1.1, (r.1.2, r.2))
  | DelFdContext fd => let! m := delFdContext x.1 fd in Ret (None, (m, x.2))
  end.
Fixpoint do_calls (cs : list call) (x : shared) (rs : list (option FdContext)) : outcome (list (option FdContext) * shared) :=
  match cs with
  | [] => Ret (rs, x)
  | c :: cs => let! r := do_call c x in do_calls cs r.2 (rs ++ [r.1])
  end.

Lemma write_block_alone f x :
  alone (write_block f) x [] = (let! r := f x in Ret (r.1, r.2, [])).
Proof. unfold write_block. cbn. by destruct (f x) as [[r x']|e]. Qed.

(** A call alone is the method. *)
Lemma fd_call_alone c x : alone (meaning c) x [] = (let! r := do_call c x in Ret (r.1, r.2, [])).
Proof.
  destruct x as [m k], c as [fd auto|fd]; cbn [meaning do_call]; [|apply write_block_alone].
  unfold getFdContext. destruct (fd =? -1); [done|]. cbn [alone fst snd app].
  assert (alone (write_block (fun x => create_context x fd)) (m, k) [] =
    (let! r := (let! r := (let! l := (if Z.of_nat (length (fds_ m)) <=? u64 fd then
                      if fd <? 0 then Fault Undefined else Ret (resize_fds (fds_ m) (fd * 3 / 2))
                    else Ret (fds_ m)) in
         let '(ctx, k) := new_FdContext Sys fstat getfl setfl k fd in
         if u64 fd <? Z.of_nat (length l)
         then Ret (Some ctx, mkFdManager (<[Z.to_nat fd := Some ctx]> l), k)
         else Fault Undefined) in Ret (r.1.1, (r.1.2, r.2))) in Ret (r.1, r.2, @nil Empty_set))) as Hc.
  { rewrite write_block_alone. unfold create_context. cbn [fst snd].
    destruct (if Z.of_nat (length (fds_ m)) <=? u64 fd then _ else _) as [l|e]; [|done]. cbn [obind].
    destruct (new_FdContext _ _ _ _ _ _) as [ctx k']. by destruct (u64 fd <? Z.of_nat (length l)). }
  destruct (u64 fd <? Z.of_nat (length (fds_ m))).
  - destruct (fds_ m !! Z.to_nat (u64 fd)) as [[c|]|]; [done| |]; destruct auto; done.
  - by destruct auto.
Qed.

Lemma fd_calls_alone cs : forall x rs,
  all_alone meaning cs x [] rs = (let! r := do_calls cs x rs in Ret (r.1, r.2, [])).
Proof.
  induction cs as [|c cs IH]; intros x rs; cbn [all_alone do_calls]; [done|]. rewrite fd_call_alone.
  destruct (do_call c x) as [[r x']|e]; [|done]. apply IH.
Qed.

(** The calls that only look. *)
Definition looks (c : call) : bool := match c with GetFdContext _ false => true | _ => false end.
Lemma fd_looks_quiet c : looks c = true -> quiet (meaning c).
Proof.
  destruct c as [fd [|]|fd]; cbn; try done. intros _. destruct (fd =? -1); [done|]. split; [done|].
  intros x. destruct (u64 fd <? _); [|done]. by destruct (fds_ x.1 !! _) as [[c|]|].
Qed.

(** With one thread that makes and deletes contexts, and others that only look them
    up, the manager is as that thread alone makes it: once it has made its calls, the
    contexts, the system and what it was given are those of the methods one after
    the other. *)
Theorem one_creator_sequential x programs t0 cs s th :
  programs !! t0 = Some cs ->
  (forall u cs' c, u <> t0 -> programs !! u = Some cs' -> c ∈ cs' -> looks c = true) ->
  reachable meaning x programs s -> threads s !! t0 = Some th -> finished th = true ->
  do_calls cs x [] = Ret (results th, data s).
Proof.
  intros Ht Hq Hs H0 Hf.
  assert (forall u cs', u <> t0 -> programs !! u = Some cs' -> Forall (fun c => quiet (meaning c)) cs') as Hq'.
  { intros u cs' Hu Hc. apply Forall_forall. intros c Hin. by eapply fd_looks_quiet, Hq. }
  destruct (one_finish _ _ _ _ (reachable_one_writes _ _ _ _ _ _ Ht Hq' Hs)) as (th' & H0' & E).
  assert (th' = th) as -> by congruence. rewrite fd_calls_alone in E. unfold finish in E. unfold finished in Hf.
  destruct (place_ th); [done|]. destruct (calls th); [|done]. cbn in E.
  destruct (do_calls cs x []) as [[rs x']|e]; [|done]. cbn in E. by injection E as -> -> _.
Qed.
End threads.

(** ** Two creators

    A system that keeps the descriptors whose flags were set: a context that is made
    sets them. *)
Definition log_setfl (k : list Z) (fd a : Z) : list Z := k ++ [fd].
Abbreviation fd_meaning := (meaning (fun (_ : list Z) _ => Some true) (fun _ _ => 0) log_setfl).
Definition creators : list (list call) := [[GetFdContext 5 true]; [GetFdContext 5 true]].

(** Two threads that ask for the context of a descriptor at a time can both make one:
    both look before either has stored, and the second replaces the context that the
    first was given. One after the other, the second gets the context of the first. *)
Theorem two_creators_make_two :
  (exists s, reachable fd_meaning (new_FdContextManager, []) creators s /\
     (forall t th, threads s !! t = Some th -> finished th = true) /\ (data s).2 = [5; 5]) /\
  exists x r, do_calls (fun (_ : list Z) _ => Some true) (fun _ _ => 0) log_setfl
    [GetFdContext 5 true; GetFdContext 5 true] (new_FdContextManager, []) [] = Ret ([r; r], x) /\ x.2 = [5].
Proof.
  split; [|by vm_compute; do 2 eexists].
  destruct (rw_run_end fd_meaning (fun s => (forallb finished (threads s), (data s).2)) (true, [5; 5])
    [0; 0; 0; 0; 1; 1; 1; 1; 0; 0; 0; 0; 1; 1; 1; 1]%nat (new_state (new_FdContextManager, []) creators)) as (s & Hr & [= Hf Hd]);
    [vm_compute; reflexivity|].
  exists s. split; [exact Hr|]. split; [by apply all_finished|done].
Qed.

Definition creator_and_reader : list (list call) := [[GetFdContext 5 true; DelFdContext 5]; [GetFdContext 5 false]].
Lemma one_creator_sequential_witness : exists s th,
  reachable fd_meaning (new_FdContextManager, []) creator_and_reader s /\
  threads s !! 0%nat = Some th /\
  do_calls (fun (_ : list Z) _ => Some true) (fun _ _ => 0) log_setfl [GetFdContext 5 true; DelFdContext 5]
    (new_FdContextManager, []) [] = Ret (results th, data s).
Proof.
  destruct (rw_run_end fd_meaning (fun s => (forallb finished (threads s), length (threads s))) (true, 2%nat)
    [0; 0; 0; 0; 1; 1; 1; 1; 0; 0; 1; 0; 0; 0; 0; 0; 0; 0]%nat (new_state (new_FdContextManager, []) creator_and_reader))
    as (s & Hr & [= Hf Hl]); [vm_compute; reflexivity|].
  destruct (lookup_lt_is_Some_2 (threads s) 0%nat ltac:(lia)) as [th Ht]. exists s, th. split; [exact Hr|]. split; [exact Ht|].
  apply (one_creator_sequential _ _ _ (new_FdContextManager, []) creator_and_reader 0%nat
    [GetFdContext 5 true; DelFdContext 5] s th); [done| |exact Hr|exact Ht|by apply (all_finished s Hf 0%nat)].
  intros [|[|u]] cs' c Hu Hc Hin; [done| |done]. injection Hc as <-. by apply list_elem_of_singleton in Hin as ->.
Defined.
