(* ===== verification/Hook.v ===== *)
(** * Hooked system calls (src/qslary/base/Hook.cc)

    The wrappers that turn blocking calls of a fiber into waits: [do_io] behind
    the read and write family, the sleeping calls, [socket] and [close], and the
    calls that keep the user's view of a descriptor's blocking mode. A wrapper's
    effects on the IO manager are listed in order; the results of the system
    call it wraps are an input, one per call. *)
From stdpp Require Import base list gmap.
From Stdlib Require Import ZArith SpecFloat Lia.
From S2P Require Import Prelude CLib Timer FdManager IOManager.
Open Scope Z_scope.

Definition EINTR : Z := 4.
Definition EBADF : Z := 9.
Definition EAGAIN : Z := 11.
Definition EINPROGRESS : Z := 115.
Definition READ_EVENT : Z := 1.
Definition WRITE_EVENT : Z := 4.

Definition double_div : double -> double -> double := SFdiv 53 1024.

(** The calls of the read and write family, with the event and the timeout
    their wrappers hand to [do_io]. *)
Inductive io_call : Set :=
| call_accept | call_read | call_readv | call_recv | call_recvfrom | call_recvmsg
| call_write | call_writev | call_send | call_sendto | call_sendmsg.

Definition call_event (c : io_call) : Z * Z :=
  match c with
  | call_accept | call_read | call_readv | call_recv | call_recvfrom | call_recvmsg =>
      (READ_EVENT, SO_RCVTIMEO)
  | call_write | call_writev | call_send | call_sendto | call_sendmsg =>
      (WRITE_EVENT, SO_SNDTIMEO)
  end.

(** ** Effects *)

(** What the timer of a wait does when it expires. *)
Inductive timer_task : Set :=
| CancelRead (fd : Z)
| CancelWrite (fd : Z)
| CancelBoth (fd : Z)
| CancelNothing
| ScheduleFiber.

Inductive effect : Set :=
| Invoke                                  (** the wrapped system call *)
| RunTimer (when : Z) (task : timer_task) (** [runAfter], by its expiration *)
| AddRead (fd : Z)                        (** with an empty callback *)
| AddWrite (fd : Z)
| CancelEvents (fd : Z)
| Yield                                   (** [Fiber::YieldToHold] *)
| CancelTimer.

Section calls.
Context {T : Type}.

(** What a wrapper returns: the value, [errno] after it, its effects, and the
    thread's IO manager after it. *)
Record io_result : Type := mkIo {
  io_value : Z;
  io_errno : Z;
  io_effects : list effect;
  io_manager : option (IOState T)
}.
Implicit Types mgr : option (IOState T).

(** ** do_io *)

(** The loop that repeats an interrupted call; [None] when the results given
    are all interrupted. *)
Fixpoint call_uninterrupted (results : list (Z * Z)) (effs : list effect)
    : option (Z * Z * list effect) :=
  match results with
  | [] => None
  | (n, e) :: rs =>
      if (n =? -1) && (e =? EINTR) then call_uninterrupted rs (effs ++ [Invoke])
      else Some (n, e, effs ++ [Invoke])
  end.

Definition call_once mgr (results : list (Z * Z)) : option io_result :=
  match results with
  | [] => None
  | (n, e) :: _ => Some (mkIo n e [Invoke] mgr)
  end.

(** The timer's callback, by the event waited for. *)
Definition do_io_timeout (event fd : Z) : timer_task :=
  if event =? READ_EVENT then CancelRead fd
  else if event =? WRITE_EVENT then CancelWrite fd else CancelNothing.

(** Registering for the event: [GetIOManager()->Add...Event(fd, nullptr)]. *)
Definition do_io_register (event fd : Z) (m : IOState T) : outcome (list effect * IOState T) :=
  let! r := (if event =? READ_EVENT then AddReadEvent m fd None else Ret (true, m)) in
  let! r' := (if event =? WRITE_EVENT then AddWriteEvent r.2 fd None else Ret (true, r.2)) in
  Ret ((if event =? READ_EVENT then [AddRead fd] else [])
       ++ (if event =? WRITE_EVENT then [AddWrite fd] else []), r'.2).

(** [do_io] at the clock reading [now]; the label [retry] has no jump to it. *)
Definition do_io (hook_enable : bool) (fdctx : option FdContext) mgr (fd event timeout_so now : Z)
    (results : list (Z * Z)) : outcome (option io_result) :=
  if negb hook_enable then Ret (call_once mgr results)
  else
    match fdctx with
    | None => Ret (call_once mgr results)
    | Some c =>
        if isClosed_ c then Ret (Some (mkIo (-1) EBADF [] mgr))
        else if negb (isSocket_ c) || userNonblock_ c then Ret (call_once mgr results)
        else
          let to := getTimeout c timeout_so in
          match call_uninterrupted results [] with
          | None => Ret None
          | Some (n, e, effs) =>
              if (n =? -1) && (e =? EAGAIN) then
                let! m := deref mgr in
                let! when := addTime now (double_of_Z to) in
                let! r := do_io_register event fd m in
                Ret (Some (mkIo n e
                  (effs ++ [RunTimer when (do_io_timeout event fd)] ++ r.1 ++ [Yield; CancelTimer])
                  (Some r.2)))
              else Ret (Some (mkIo n e effs mgr))
          end
    end.

(** The wrapper of one call. *)
Definition hooked (call : io_call) (hook_enable : bool) (fdctx : option FdContext) mgr (fd now : Z)
    (results : list (Z * Z)) : outcome (option io_result) :=
  let '(event, so) := call_event call in
  do_io hook_enable fdctx mgr fd event so now results.

(** ** Sleeping: the value returned, and the timer that wakes the fiber *)
Definition sleep (hook_enable : bool) (now seconds original : Z) : outcome (Z * list effect) :=
  if negb hook_enable then Ret (original, [Invoke])
  else
    let! when := addTime now (double_of_Z seconds) in
    Ret (0, [RunTimer when ScheduleFiber; Yield]).

Definition usleep (hook_enable : bool) (now usec original : Z) : outcome (Z * list effect) :=
  if negb hook_enable then Ret (original, [Invoke])
  else
    let! when := addTime now (double_div (double_of_Z usec) (double_of_Z 1000)) in
    Ret (0, [RunTimer when ScheduleFiber; Yield]).

(** [int timeout_ms = tv_sec + tv_nsec / 1000 / 1000] *)
Definition nanaosleep (hook_enable : bool) (now : Z) (req : timespec) (original : Z)
    : outcome (Z * list effect) :=
  if negb hook_enable then Ret (original, [Invoke])
  else
    let timeout_ms := i32 (tv_sec req + Z.quot (Z.quot (tv_nsec req) 1000) 1000) in
    let! when := addTime now (double_of_Z timeout_ms) in
    Ret (0, [RunTimer when ScheduleFiber; Yield]).

(** ** Connecting *)

(** [connect_with_timeout]: the result of [connect_f], then the return value of
    [getsockopt] and the socket's error. [AddWriteEvent] returns a [bool], which
    [rt == 0] compares as an [int]. *)
Definition connect_with_timeout (hook_enable : bool) (fdctx : option FdContext) mgr
    (fd now timeout_ms : Z) (result : Z * Z) (sockopt : Z * Z) (error : Z) : outcome io_result :=
  let '(n, e) := result in
  if negb hook_enable then Ret (mkIo n e [Invoke] mgr)
  else
    match fdctx with
    | None => Ret (mkIo (-1) EBADF [] mgr)
    | Some c =>
        if isClosed_ c then Ret (mkIo (-1) EBADF [] mgr)
        else if negb (isSocket_ c) || userNonblock_ c then Ret (mkIo n e [Invoke] mgr)
        else if n =? 0 then Ret (mkIo 0 e [Invoke] mgr)
        else if negb (n =? -1) || negb (e =? EINPROGRESS) then Ret (mkIo n e [Invoke] mgr)
        else
          let! m := deref mgr in
          let! when := addTime now (double_div (double_of_Z timeout_ms) (double_of_Z 1000)) in
          let! r := AddWriteEvent m fd None in
          let rt := Z.b2z r.1 in
          let effs := [Invoke; RunTimer when (CancelBoth fd); AddWrite fd]
                        ++ (if rt =? 0 then [Yield; CancelTimer] else []) in
          let '(rc, e') := sockopt in
          if rc =? -1 then Ret (mkIo (-1) e' effs (Some r.2))
          else if error =? 0 then Ret (mkIo 0 e' effs (Some r.2))
          else Ret (mkIo (-1) error effs (Some r.2))
    end.
End calls.
Arguments io_result : clear implicits.

(** ** The user's view of the blocking mode *)
Section system.
Context (Sys : Type) (fstat : Sys -> Z -> option bool).
Context (getfl : Sys -> Z -> Z) (setfl : Sys -> Z -> Z -> Sys).

(** [!ctx || ctx->isClosed() || !ctx->isSocket()] *)
Definition untracked (c : option FdContext) : bool :=
  match c with None => true | Some c => isClosed_ c || negb (isSocket_ c) end.

(** [fcntl(fd, F_SETFL, arg)] *)
Definition fcntl_setfl (m : FdContextManager) (k : Sys) (fd arg : Z) : FdContextManager * Sys :=
  match context m fd with
  | Some c =>
      if untracked (Some c) then (m, setfl k fd arg)
      else
        (update_context m fd (fun c => setUserNonBlock c (negb (Z.land arg O_NONBLOCK =? 0))),
         setfl k fd (if sysNonblock_ c then Z.lor arg O_NONBLOCK
                     else Z.land arg (Z.lnot O_NONBLOCK)))
  | None => (m, setfl k fd arg)
  end.

(** [fcntl(fd, F_GETFL)] *)
Definition fcntl_getfl (m : FdContextManager) (k : Sys) (fd : Z) : Z :=
  let arg := getfl k fd in
  match context m fd with
  | Some c =>
      if untracked (Some c) then arg
      else if userNonblock_ c then Z.lor arg O_NONBLOCK
      else Z.land arg (Z.lnot O_NONBLOCK)
  | None => arg
  end.

(** [ioctl(fd, FIONBIO, &v)] before it is passed on *)
Definition ioctl_fionbio (m : FdContextManager) (fd v : Z) : FdContextManager :=
  if untracked (context m fd) then m
  else update_context m fd (fun c => setUserNonBlock c (negb (v =? 0))).

(** [setsockopt] of a timeout, before it is passed on *)
Definition setsockopt_timeout (hook_enable : bool) (m : FdContextManager) (fd optname : Z)
    (sec usec : Z) : FdContextManager :=
  if hook_enable && ((optname =? SO_RCVTIMEO) || (optname =? SO_SNDTIMEO)) then
    update_context m fd (fun c => setTimeout c optname (u64 (sec * 1000 + Z.quot usec 1000)))
  else m.

(** [socket] once the system has returned [fd] *)
Definition socket_hook (hook_enable : bool) (m : FdContextManager) (k : Sys) (fd : Z)
    : outcome (FdContextManager * Sys) :=
  if negb hook_enable || (fd =? -1) then Ret (m, k)
  else let! r := getFdContext Sys fstat getfl setfl m k fd true in
       let '(_, m, k) := r in Ret (m, k).

(** [accept] once [do_io] has returned [fd] *)
Definition accept_hook (m : FdContextManager) (k : Sys) (fd : Z) : outcome (FdContextManager * Sys) :=
  if 0 <=? fd then
    let! r := getFdContext Sys fstat getfl setfl m k fd true in
    let '(_, m, k) := r in Ret (m, k)
  else Ret (m, k).

(** [close] before it is passed on, on the thread's IO manager if it has one *)
Definition close_hook {T} (hook_enable : bool) (mgr : option (IOState T)) (m : FdContextManager)
    (k : Sys) (fd : Z) : outcome (FdContextManager * option (IOState T) * list effect) :=
  if negb hook_enable then Ret (m, mgr, [])
  else
    let! r := getFdContext Sys fstat getfl setfl m k fd false in
    match r with
    | (Some _, m, _) =>
        let! m := delFdContext m fd in
        match mgr with
        | Some io => Ret (m, Some (CancelAll io fd).2, [CancelEvents fd])
        | None => Ret (m, None, [])
        end
    | (None, m, _) => Ret (m, mgr, [])
    end.
End system.

(** ** Properties *)
Lemma call_uninterrupted_spec rs effs n e :
  Forall (fun r => r = (-1, EINTR)) rs -> (n, e) <> (-1, EINTR) ->
  forall rest, call_uninterrupted (rs ++ (n, e) :: rest) effs =
    Some (n, e, effs ++ replicate (S (length rs)) Invoke).
Proof.
  intros H Hne rest. revert effs. induction H as [|r rs -> _ IH]; intros effs; cbn [app call_uninterrupted].
  - destruct ((n =? -1) && (e =? EINTR)) eqn:E; [|done]. bool_hyps. congruence.
  - change ((-1 =? -1) && (EINTR =? EINTR)) with true. cbn iota. rewrite IH, <- app_assoc. done.
Qed.

(** The calls [do_io] turns into waits. *)
Definition waits (c : FdContext) : bool :=
  negb (isClosed_ c) && isSocket_ c && negb (userNonblock_ c).

Section do_io.
Context {T : Type}.
Implicit Types (mgr : option (IOState T)) (m : IOState T).

Lemma waits_do_io c mgr fd event so now rs :
  waits c = true ->
  do_io true (Some c) mgr fd event so now rs =
    match call_uninterrupted rs [] with
    | None => Ret None
    | Some (n, e, effs) =>
        if (n =? -1) && (e =? EAGAIN) then
          let! m := deref mgr in
          let! when := addTime now (double_of_Z (getTimeout c so)) in
          let! r := do_io_register event fd m in
          Ret (Some (mkIo n e
            (effs ++ [RunTimer when (do_io_timeout event fd)] ++ r.1 ++ [Yield; CancelTimer]) (Some r.2)))
        else Ret (Some (mkIo n e effs mgr))
    end.
Proof.
  unfold waits, do_io. intros H. bool_hyps.
  repeat match goal with H : _ = _ |- _ => rewrite H end. done.
Qed.

(** An interrupted call is repeated until it is not, and a result other
    than "try again" is returned as it is, with nothing but the calls made. *)
Theorem do_io_completes c mgr fd event so now rs n e rest :
  waits c = true -> Forall (fun r => r = (-1, EINTR)) rs ->
  (n, e) <> (-1, EINTR) -> (n, e) <> (-1, EAGAIN) ->
  do_io true (Some c) mgr fd event so now (rs ++ (n, e) :: rest) =
  Ret (Some (mkIo n e (replicate (S (length rs)) Invoke) mgr)).
Proof.
  intros Hw Hrs Hne Hne2. rewrite waits_do_io, call_uninterrupted_spec by done. cbn [app].
  destruct ((n =? -1) && (e =? EAGAIN)) eqn:E; [|done]. bool_hyps. congruence.
Qed.

(** A registration leaves its entry in the map. *)
Lemma update_group_updates m fd events g :
  exists m' x, update_group (UpdateEpoll m fd events) fd g = Ret m' /\ mFdGroups m' !! fd = Some (g x).
Proof.
  assert (is_Some (mFdGroups (UpdateEpoll m fd events) !! fd)) as [x Hx].
  { unfold UpdateEpoll. destruct (mFdGroups m !! fd) eqn:E; [by exists f|].
    eexists. apply lookup_insert_eq. }
  unfold update_group. rewrite Hx. eexists _, x. split; [done|]. apply lookup_insert_eq.
Qed.

(** The registration of a wait, by the call. *)
Lemma do_io_register_call call fd m :
  exists m' x, do_io_register (call_event call).1 fd m =
      Ret ([if (call_event call).1 =? READ_EVENT then AddRead fd else AddWrite fd], m') /\
    mFdGroups m' !! fd = Some x /\
    (if (call_event call).1 =? READ_EVENT
     then concernRead x = true /\ readCallback_ x = None
     else concernWrite x = true /\ writeCallback_ x = None).
Proof.
  assert ((call_event call).1 = READ_EVENT \/ (call_event call).1 = WRITE_EVENT) as [-> | ->]
    by (destruct call; auto); unfold do_io_register, AddReadEvent, AddWriteEvent; cbn [obind].
  - change (READ_EVENT =? READ_EVENT) with true. change (READ_EVENT =? WRITE_EVENT) with false.
    destruct (update_group_updates m fd EPOLLIN
      (fun x => mkFdCallback true (concernWrite x) None (writeCallback_ x))) as (m' & x & E & Hx).
    cbn iota. rewrite E. cbn [obind snd app]. by exists m', (mkFdCallback true (concernWrite x) None (writeCallback_ x)).
  - change (WRITE_EVENT =? READ_EVENT) with false. change (WRITE_EVENT =? WRITE_EVENT) with true.
    destruct (update_group_updates m fd EPOLLOUT
      (fun x => mkFdCallback (concernRead x) true (readCallback_ x) None)) as (m' & x & E & Hx).
    cbn [obind snd]. rewrite E. cbn [obind snd app]. by exists m', (mkFdCallback (concernRead x) true (readCallback_ x) None).
Qed.

(** When the descriptor is not ready, a hooked call starts its timer,
    registers the descriptor with an empty callback, gives up the thread once,
    and then returns the old "try again" error without calling again: the
    blocking call fails instead of waiting. *)
Theorem do_io_does_not_retry call c m fd now rs rest when :
  waits c = true -> Forall (fun r => r = (-1, EINTR)) rs ->
  addTime now (double_of_Z (getTimeout c (call_event call).2)) = Ret when ->
  exists task m' x,
    hooked call true (Some c) (Some m) fd now (rs ++ (-1, EAGAIN) :: rest) =
      Ret (Some (mkIo (-1) EAGAIN
        (replicate (S (length rs)) Invoke ++
         [RunTimer when task;
          if (call_event call).1 =? READ_EVENT then AddRead fd else AddWrite fd; Yield; CancelTimer])
        (Some m'))) /\
    mFdGroups m' !! fd = Some x /\
    (if (call_event call).1 =? READ_EVENT
     then concernRead x = true /\ readCallback_ x = None
     else concernWrite x = true /\ writeCallback_ x = None).
Proof.
  intros Hw Hrs Ht. destruct (do_io_register_call call fd m) as (m' & x & Hreg & Hx & Hcb).
  exists (do_io_timeout (call_event call).1 fd), m', x. split; [|done].
  unfold hooked. destruct (call_event call) as [event so]. cbn [fst snd] in *.
  rewrite waits_do_io, call_uninterrupted_spec by done. cbn [app].
  change ((-1 =? -1) && (EAGAIN =? EAGAIN)) with true. cbn [deref obind]. rewrite Ht. cbn [obind].
  rewrite Hreg. reflexivity.
Qed.

(** A socket has no timeout until one is set, and that value, 2^64 - 1,
    is handed to [runAfter] as seconds: the first wait of every such socket
    converts a double out of the range of [int64_t], which is undefined. *)
Theorem do_io_default_timeout_undefined call c m fd now rs rest :
  waits c = true -> Forall (fun r => r = (-1, EINTR)) rs ->
  getTimeout c (call_event call).2 = no_timeout ->
  hooked call true (Some c) (Some m) fd now (rs ++ (-1, EAGAIN) :: rest) = Fault Undefined.
Proof.
  intros Hw Hrs Ht. unfold hooked. destruct (call_event call) as [event so]. cbn [fst snd] in *.
  rewrite waits_do_io, call_uninterrupted_spec by done. cbn [app].
  change ((-1 =? -1) && (EAGAIN =? EAGAIN)) with true. cbn [deref obind]. rewrite Ht.
  unfold addTime. replace (time_delta (double_of_Z no_timeout)) with (@Fault Z Undefined); [done|].
  vm_compute. reflexivity.
Qed.
End do_io.

Definition socket_context (fd to : Z) : FdContext := mkFdContext true true true false false fd to to.
Definition empty_manager : IOState unit := mkIO ∅ 0 3 [] 0 [].

Lemma do_io_completes_witness :
  do_io true (Some (socket_context 5 no_timeout)) (Some empty_manager) 5 READ_EVENT SO_RCVTIMEO 0
    [(-1, EINTR); (7, 0)] = Ret (Some (mkIo 7 0 [Invoke; Invoke] (Some empty_manager))).
Proof.
  apply (do_io_completes _ _ _ _ _ _ [(-1, EINTR)] 7 0 []); [reflexivity| |discriminate|discriminate].
  repeat constructor.
Defined.

Lemma do_io_does_not_retry_witness :
  exists task m, hooked call_read true (Some (socket_context 5 3000)) (Some empty_manager) 5 1000000
      [(-1, EAGAIN); (7, 0)] =
    Ret (Some (mkIo (-1) EAGAIN [Invoke; RunTimer 3001000000 task; AddRead 5; Yield; CancelTimer]
      (Some m))).
Proof.
  destruct (do_io_does_not_retry call_read (socket_context 5 3000) empty_manager 5 1000000 [] [(7, 0)]
    3001000000) as (task & m & _ & E & _); [reflexivity|constructor|vm_compute; reflexivity|].
  exists task, m. exact E.
Defined.

Lemma do_io_default_timeout_undefined_witness :
  hooked call_read true
    (Some (fst (new_FdContext unit (fun _ _ => Some true) (fun _ _ => 0) (fun k _ _ => k) tt 5)))
    (Some empty_manager) 5 0 [(-1, EAGAIN)] = Fault Undefined.
Proof.
  apply (do_io_default_timeout_undefined call_read _ empty_manager 5 0 [] []);
    [reflexivity|constructor|reflexivity].
Defined.

Section view.
Context (Sys : Type) (getfl : Sys -> Z -> Z) (setfl : Sys -> Z -> Z -> Sys).
Context (get_set : forall k fd a, getfl (setfl k fd a) fd = a).

Lemma nonblock_view arg (user : bool) :
  user = negb (Z.land arg O_NONBLOCK =? 0) ->
  (if user then Z.lor (Z.lor arg O_NONBLOCK) O_NONBLOCK
   else Z.land (Z.lor arg O_NONBLOCK) (Z.lnot O_NONBLOCK)) = arg.
Proof.
  intros ->. change O_NONBLOCK with (2 ^ 11).
  assert (forall n, 0 <= n -> Z.testbit (Z.land arg (2 ^ 11)) n = Z.testbit arg n && (n =? 11)) as Hb.
  { intros n Hn. rewrite Z.land_spec, Z.pow2_bits_eqb by lia. by rewrite (Z.eqb_sym 11). }
  destruct (Z.eqb_spec (Z.land arg (2 ^ 11)) 0) as [E|E]; cbn [negb]; apply Z.bits_inj'; intros n Hn.
  - rewrite Z.land_spec, Z.lor_spec, Z.lnot_spec, Z.pow2_bits_eqb by lia.
    specialize (Hb n Hn). rewrite E, Z.bits_0 in Hb. rewrite (Z.eqb_sym 11).
    by destruct (Z.testbit arg n), (n =? 11).
  - rewrite !Z.lor_spec, Z.pow2_bits_eqb by lia. destruct (Z.eqb_spec 11 n) as [<-|].
    + destruct (Z.testbit arg 11) eqn:Et; [done|]. destruct E. apply Z.bits_inj'. intros i Hi.
      rewrite Hb, Z.bits_0 by done. destruct (Z.eqb_spec i 11) as [->|]; [by rewrite Et|apply andb_false_r].
    + by rewrite !orb_false_r.
Qed.

(** For a tracked socket the user's [fcntl] flags are what the user set,
    blocking mode included, while the system's descriptor stays non-blocking;
    the flags of the system hold what the user set otherwise. *)
Theorem fcntl_user_view m k fd arg c :
  context m fd = Some c ->
  isClosed_ c = false -> isSocket_ c = true -> sysNonblock_ c = true ->
  let '(m', k') := fcntl_setfl Sys setfl m k fd arg in
  fcntl_getfl Sys getfl m' k' fd = arg /\
  Z.testbit (getfl k' fd) 11 = true /\
  exists c', context m' fd = Some c' /\ userNonblock_ c' = negb (Z.land arg O_NONBLOCK =? 0).
Proof.
  intros Hc Hcl Hs Hsys. unfold fcntl_setfl. rewrite Hc. unfold untracked at 1. rewrite Hcl, Hs.
  cbn [negb orb]. rewrite Hsys.
  assert (0 <= fd) as Hfd.
  { unfold context in Hc. by destruct (Z.leb_spec 0 fd). }
  assert (context (update_context m fd
    (fun c => setUserNonBlock c (negb (Z.land arg O_NONBLOCK =? 0)))) fd =
    Some (setUserNonBlock c (negb (Z.land arg O_NONBLOCK =? 0)))) as Hu.
  { unfold update_context. rewrite Hc. rewrite context_lookup in * by done. cbn [fds_].
    rewrite list_lookup_insert_eq; [done|]. apply lookup_lt_is_Some_1.
    destruct (fds_ m !! Z.to_nat fd); [eauto|discriminate]. }
  split_and!.
  - unfold fcntl_getfl. rewrite Hu, get_set. cbn [untracked isClosed_ isSocket_ userNonblock_ setUserNonBlock].
    rewrite Hcl, Hs. cbn [negb orb]. by apply nonblock_view.
  - rewrite get_set, Z.lor_spec. change O_NONBLOCK with (2 ^ 11). rewrite Z.pow2_bits_true by lia.
    apply orb_true_r.
  - eexists. split; [exact Hu|done].
Qed.
End view.

Lemma fcntl_user_view_witness :
  let m := mkFdManager [None; Some (socket_context 1 0)] in
  let '(m', k') := fcntl_setfl Z (fun _ _ a => a) m 0 1 2 in
  fcntl_getfl Z (fun k _ => k) m' k' 1 = 2.
Proof.
  apply (fcntl_user_view Z (fun k _ => k) (fun _ _ a => a) (fun _ _ _ => eq_refl)
    (mkFdManager [None; Some (socket_context 1 0)]) 0 1 2 (socket_context 1 0));
    [reflexivity|reflexivity|reflexivity|reflexivity].
Defined.

(** *** Units of the sleeping calls *)
Example usleep_waits_seconds :
  usleep true 0 1000 0 = Ret (0, [RunTimer 1000000 ScheduleFiber; Yield]).
Proof. vm_compute. reflexivity. Qed.
Example nanaosleep_mixes_units :
  nanaosleep true 0 (mkTimespec 2 500000000) 0 = Ret (0, [RunTimer 502000000 ScheduleFiber; Yield]).
Proof. vm_compute. reflexivity. Qed.

(** *** A connection in progress is reported without waiting for it *)
Example connect_does_not_wait :
  exists m, connect_with_timeout true (Some (socket_context 5 0)) (Some empty_manager) 5 0 50000
      (-1, EINPROGRESS) (0, EINPROGRESS) 0 =
    Ret (mkIo 0 EINPROGRESS [Invoke; RunTimer 50000000 (CancelBoth 5); AddWrite 5] (Some m)).
Proof. vm_compute. eexists. reflexivity. Qed.
