(* ===== verification/HookCalls.v ===== *)
(** * The calls that are passed on (src/qslary/base/Hook.cc)

    The whole of [fcntl], [ioctl], [setsockopt] and [getsockopt] in front of the
    original functions, how [hook_init] finds those, and [connect] with the timeout
    that the configuration sets. *)
From stdpp Require Import base list gmap strings.
From Stdlib Require Import ZArith Lia.
From S2P Require Import Prelude CLib Timer FdManager IOManager Hook Config.
Open Scope Z_scope.

(** ** fcntl

    What a caller passes behind the command; [va_arg] of another type, or of nothing,
    is undefined. *)
Inductive vararg : Set := NoArg | IntArg (v : Z) | PtrArg (p : Z).

Definition va_int (va : vararg) : outcome Z := match va with IntArg v => Ret v | _ => Fault Undefined end.
Definition va_pointer (va : vararg) : outcome Z := match va with PtrArg p => Ret p | _ => Fault Undefined end.

(** The commands, with the numbers Linux gives them. *)
Definition F_GETFL : Z := 3.
Definition F_SETFL : Z := 4.
(** F_DUPFD, F_DUPFD_CLOEXEC, F_SETFD, F_SETOWN, F_SETSIG, F_SETLEASE, F_NOTIFY, F_SETPIPE_SZ *)
Definition int_commands : list Z := [0; 1030; 2; 8; 10; 1024; 1026; 1031].
(** F_GETFD, F_GETOWN, F_GETSIG, F_GETLEASE, F_GETPIPE_SZ *)
Definition plain_commands : list Z := [1; 9; 11; 1025; 1032].
(** F_SETLK, F_SETLKW, F_GETLK *)
Definition lock_commands : list Z := [6; 7; 5].
(** F_GETOWN_EX, F_SETOWN_EX *)
Definition owner_commands : list Z := [16; 15].

Section original.
(** The system, with the original functions. *)
Context (Sys : Type) (fcntl_f : Sys -> Z -> Z -> vararg -> Z * Sys).
Context (ioctl_f : Sys -> Z -> Z -> Z -> Z * Sys).
Context (setsockopt_f : Sys -> Z -> Z -> Z -> Z -> Z -> Z * Sys).
Context (getsockopt_f : Sys -> Z -> Z -> Z -> Z -> Z -> Z * Sys).
(** What pointers of the caller point to: an [int], a [timeval] by its seconds and
    microseconds. *)
Context (read_int : Z -> option Z) (read_timeval : Z -> option (Z * Z)).
Implicit Types (m : FdContextManager) (k : Sys).

Definition pass m (r : Z * Sys) : outcome (Z * FdContextManager * Sys) := Ret (r.1, m, r.2).
Definition is_command (l : list Z) (cmd : Z) : bool := existsb (Z.eqb cmd) l.

Definition fcntl m k (fd cmd : Z) (va : vararg) : outcome (Z * FdContextManager * Sys) :=
  if cmd =? F_SETFL then
    let! arg := va_int va in
    match context m fd with
    | Some c =>
        if untracked (Some c) then pass m (fcntl_f k fd cmd (IntArg arg))
        else
          let m := update_context m fd (fun c => setUserNonBlock c (negb (Z.land arg O_NONBLOCK =? 0))) in
          let arg := if sysNonblock_ c then Z.lor arg O_NONBLOCK else Z.land arg (Z.lnot O_NONBLOCK) in
          pass m (fcntl_f k fd cmd (IntArg arg))
    | None => pass m (fcntl_f k fd cmd (IntArg arg))
    end
  else if cmd =? F_GETFL then
    let '(arg, k) := fcntl_f k fd cmd NoArg in
    match context m fd with
    | Some c =>
        if untracked (Some c) then Ret (arg, m, k)
        else Ret ((if userNonblock_ c then Z.lor arg O_NONBLOCK else Z.land arg (Z.lnot O_NONBLOCK)), m, k)
    | None => Ret (arg, m, k)
    end
  else if is_command int_commands cmd then
    let! arg := va_int va in pass m (fcntl_f k fd cmd (IntArg arg))
  else if is_command plain_commands cmd then pass m (fcntl_f k fd cmd NoArg)
  else if is_command lock_commands cmd then
    let! arg := va_pointer va in pass m (fcntl_f k fd cmd (PtrArg arg))
  else if is_command owner_commands cmd then
    let! arg := va_pointer va in pass m (fcntl_f k fd cmd (PtrArg arg))
  else pass m (fcntl_f k fd cmd NoArg).

(** ** The other calls *)
Definition FIONBIO : Z := 21537.
Definition SOL_SOCKET : Z := 1.

Definition ioctl m k (fd request arg : Z) : outcome (Z * FdContextManager * Sys) :=
  if request =? FIONBIO then
    let! v := deref (read_int arg) in
    pass (ioctl_fionbio m fd v) (ioctl_f k fd request arg)
  else pass m (ioctl_f k fd request arg).

Definition setsockopt (hook_enable : bool) m k (sockfd level optname optval optlen : Z)
    : outcome (Z * FdContextManager * Sys) :=
  let r := setsockopt_f k sockfd level optname optval optlen in
  if negb hook_enable then pass m r
  else if (level =? SOL_SOCKET) && ((optname =? SO_RCVTIMEO) || (optname =? SO_SNDTIMEO)) then
    match context m sockfd with
    | Some _ =>
        let! v := deref (read_timeval optval) in
        pass (setsockopt_timeout hook_enable m sockfd optname v.1 v.2) r
    | None => pass m r
    end
  else pass m r.

Definition getsockopt k (sockfd level optname optval optlen : Z) : Z * Sys :=
  getsockopt_f k sockfd level optname optval optlen.

(** ** What holds of them *)

(** The commands the wrapper knows, with the argument the manual page gives each. *)
Definition known_argument (cmd : Z) (va : vararg) : bool :=
  match va with
  | IntArg _ => (cmd =? F_SETFL) || is_command int_commands cmd
  | NoArg => (cmd =? F_GETFL) || is_command plain_commands cmd
  | PtrArg _ => is_command lock_commands cmd || is_command owner_commands cmd
  end.
Definition known_command (cmd : Z) : bool :=
  is_command (F_SETFL :: F_GETFL :: int_commands ++ plain_commands ++ lock_commands ++ owner_commands) cmd.

Lemma is_command_in l cmd : is_command l cmd = true <-> In cmd l.
Proof.
  unfold is_command. rewrite existsb_exists. split; [intros (c & Hc & E%Z.eqb_eq); by subst c|].
  intros H. exists cmd. by rewrite Z.eqb_refl.
Qed.

(** A known command is one of the flags' or it is passed on as it is. *)
Lemma known_argument_cases cmd va : known_argument cmd va = true ->
  (cmd = F_SETFL /\ exists arg, va = IntArg arg) \/ (cmd = F_GETFL /\ va = NoArg) \/
  forall m k fd, fcntl m k fd cmd va = pass m (fcntl_f k fd cmd va).
Proof.
  destruct va as [|v|p]; cbn [known_argument]; intros [H|H]%orb_prop;
    try (apply Z.eqb_eq in H as ->; eauto); apply is_command_in in H;
    right; right; intros m k fd; repeat (destruct H as [<-|H]; [done|]); done.
Qed.

(** Hooking [fcntl] is transparent: a command the wrapper knows, with the argument
    that the command takes, does what the original function does and changes nothing
    else, unless it reads or sets the flags of an open socket; [F_SETFL] and [F_GETFL]
    of one are the pair that keeps the user's view. *)
Theorem fcntl_transparent m k fd cmd va :
  known_argument cmd va = true ->
  let same := Ret ((fcntl_f k fd cmd va).1, m, (fcntl_f k fd cmd va).2) in
  (cmd <> F_SETFL -> cmd <> F_GETFL -> fcntl m k fd cmd va = same) /\
  (untracked (context m fd) = true -> fcntl m k fd cmd va = same) /\
  (forall arg, cmd = F_SETFL -> va = IntArg arg ->
     let setfl k fd a := (fcntl_f k fd F_SETFL (IntArg a)).2 in
     exists r, fcntl m k fd cmd va = Ret (r, (fcntl_setfl Sys setfl m k fd arg).1, (fcntl_setfl Sys setfl m k fd arg).2)) /\
  (cmd = F_GETFL ->
     let getfl k fd := (fcntl_f k fd F_GETFL NoArg).1 in
     fcntl m k fd cmd va = Ret (fcntl_getfl Sys getfl m k fd, m, (fcntl_f k fd cmd NoArg).2)).
Proof.
  intros Hk. cbv zeta. split_and!.
  - intros H1 H2. destruct (known_argument_cases _ _ Hk) as [[? _]|[[? _]| ->]]; done.
  - intros Hu. destruct (known_argument_cases _ _ Hk) as [[-> [arg ->]]|[[-> ->]| ->]]; [..|done].
    + unfold fcntl. cbn [Z.eqb F_SETFL Pos.eqb va_int obind]. by destruct (context m fd); [rewrite Hu|].
    + unfold fcntl. change (F_GETFL =? F_SETFL) with false. change (F_GETFL =? F_GETFL) with true. cbv iota.
      destruct (fcntl_f k fd F_GETFL NoArg) as [a k']. cbn [fst snd].
      by destruct (context m fd); [rewrite Hu|].
  - intros arg -> ->. unfold fcntl, fcntl_setfl. cbn [Z.eqb F_SETFL Pos.eqb va_int obind].
    destruct (context m fd) as [c|]; [|by eexists]. by destruct (untracked (Some c)); eexists.
  - intros ->. unfold fcntl, fcntl_getfl. change (F_GETFL =? F_SETFL) with false. change (F_GETFL =? F_GETFL) with true.
    cbv iota. destruct (fcntl_f k fd F_GETFL NoArg) as [a k']. cbn [fst snd].
    destruct (context m fd) as [c|]; [|done]. by destruct (untracked (Some c)).
Qed.

(** A command the wrapper does not know, as those for locks of open file
    descriptions and for seals, loses its argument: whatever it is, the original
    function is called without one. *)
Theorem fcntl_drops_argument m k fd cmd va :
  known_command cmd = false ->
  fcntl m k fd cmd va = Ret ((fcntl_f k fd cmd NoArg).1, m, (fcntl_f k fd cmd NoArg).2).
Proof.
  intros H. unfold known_command, is_command in H. cbn [existsb] in H.
  apply orb_false_iff in H as [H1 H]. apply orb_false_iff in H as [H2 H].
  rewrite !existsb_app in H. apply orb_false_iff in H as [H3 H]. apply orb_false_iff in H as [H4 H].
  apply orb_false_iff in H as [H5 H6].
  unfold fcntl, is_command. by rewrite H1, H2, H3, H4, H5, H6.
Qed.

(** F_OFD_SETLK and F_ADD_SEALS *)
Example ofd_lock_unknown : known_command 37 = false. Proof. reflexivity. Qed.
Example add_seals_unknown : known_command 1033 = false. Proof. reflexivity. Qed.

(** A timeout that is set for a socket, in milliseconds, is the one a call waits for:
    [runAfter] takes it for seconds. *)
Theorem timeout_taken_for_seconds {T} m k fd optname optval optlen sec usec c call (mgr : IOState T) now rs when :
  (optname = SO_RCVTIMEO \/ optname = SO_SNDTIMEO) -> (call_event call).2 = optname ->
  context m fd = Some c -> waits c = true -> read_timeval optval = Some (sec, usec) ->
  addTime now (double_of_Z (u64 (sec * 1000 + Z.quot usec 1000))) = Ret when ->
  exists r m' k' c', setsockopt true m k fd SOL_SOCKET optname optval optlen = Ret (r, m', k') /\
    context m' fd = Some c' /\
    exists task mgr' effs, hooked call true (Some c') (Some mgr) fd now ((-1, EAGAIN) :: rs) =
      Ret (Some (mkIo (-1) EAGAIN (Invoke :: RunTimer when task :: effs) (Some mgr'))).
Proof.
  intros Ho Hc Hctx Hw Hv Ht. unfold setsockopt. cbn [negb].
  assert ((SOL_SOCKET =? SOL_SOCKET) && ((optname =? SO_RCVTIMEO) || (optname =? SO_SNDTIMEO)) = true) as ->
    by (by destruct Ho as [->| ->]).
  rewrite Hctx, Hv. cbn [deref obind fst snd]. unfold setsockopt_timeout.
  assert (true && ((optname =? SO_RCVTIMEO) || (optname =? SO_SNDTIMEO)) = true) as ->
    by (by destruct Ho as [->| ->]).
  assert (0 <= fd) as Hfd by (unfold context in Hctx; by destruct (Z.leb_spec 0 fd)).
  revert Ht. generalize (u64 (sec * 1000 + Z.quot usec 1000)). intros v Ht.
  unfold pass. do 4 eexists. split; [reflexivity|]. split.
  - unfold update_context. rewrite Hctx. rewrite context_lookup in Hctx |- * by done. cbn [fds_].
    rewrite list_lookup_insert_eq; [reflexivity|]. apply lookup_lt_is_Some_1.
    destruct (fds_ m !! Z.to_nat fd); [eauto|discriminate].
  - assert (waits (setTimeout c optname v) = true) as Hw' by (unfold setTimeout; by destruct (optname =? SO_RCVTIMEO)).
    assert (getTimeout (setTimeout c optname v) optname = v) as Hg by (by destruct Ho as [->| ->]).
    unfold hooked. destruct (call_event call) as [event so] eqn:Ec. cbn in Hc. subst so.
    rewrite waits_do_io by done. cbn [call_uninterrupted].
    change ((-1 =? -1) && (EAGAIN =? EINTR)) with false. change ((-1 =? -1) && (EAGAIN =? EAGAIN)) with true.
    cbn [deref obind app]. rewrite Hg, Ht. cbn [obind].
    destruct (do_io_register_call call fd mgr) as (mgr' & x & Hr & _). rewrite Ec in Hr. cbn [fst] in Hr.
    rewrite Hr. cbn [obind fst snd app]. by do 3 eexists.
Qed.
End original.

(** ** Finding the original functions

    [HOOK_FUNCTION], and the pointers [name_f], which are null before. *)
Definition hook_functions : list string :=
  ["sleep"; "usleep"; "nanaosleep"; "socket"; "connect"; "accept"; "read"; "readv"; "recv"; "recvfrom"; "recvmsg";
   "write"; "writev"; "send"; "sendto"; "sendmsg"; "close"; "fcntl"; "ioctl"; "getsockopt"; "setsockopt"]%string.

Record HookTable (A : Type) : Type := mkTable {
  is_inited : bool;
  originals : gmap string A
}.
Arguments mkTable {A}.
Arguments is_inited {A}.
Arguments originals {A}.

Section table.
(** [dlsym(RTLD_NEXT, name)]; [None] is the null pointer. *)
Context {A : Type} (dlsym : string -> option A).
Implicit Types (t : HookTable A).

(** [hook_init]; the flag it tests is never set. *)
Fixpoint load_functions (l : list string) (o : gmap string A) : gmap string A :=
  match l with
  | [] => o
  | name :: l => load_functions l (partial_alter (fun _ => dlsym name) name o)
  end.
Definition hook_init t : HookTable A :=
  if is_inited t then t else mkTable (is_inited t) (load_functions hook_functions (originals t)).
Definition new_table : HookTable A := mkTable false ∅.

(** A call through [name_f] *)
Definition original t (name : string) : outcome A := deref (originals t !! name).

Lemma load_functions_lookup l : forall o name,
  load_functions l o !! name = if decide (name ∈ l) then dlsym name else o !! name.
Proof.
  induction l as [|n l IH]; intros o name; cbn [load_functions]; [done|].
  rewrite IH. destruct (decide (name ∈ l)) as [H|H]; [by rewrite decide_True by by right|].
  destruct (decide (name = n)) as [->|Hne].
  - rewrite decide_True by by left. by rewrite lookup_partial_alter_eq.
  - rewrite decide_False by (by intros [?|?]%elem_of_cons). by rewrite lookup_partial_alter_ne.
Qed.

Lemma iter_S n t : Nat.iter (S n) hook_init t = hook_init (Nat.iter n hook_init t).
Proof. reflexivity. Qed.
Lemma never_inited n : is_inited (Nat.iter n hook_init new_table) = false.
Proof. induction n as [|n IH]; [done|]. rewrite iter_S. unfold hook_init at 1. by rewrite IH. Qed.

(** However often the table is initialised, each hooked function that the libraries
    have can be called through its pointer; the misspelt nanaosleep, which they do
    not have, cannot, and nanosleep is not hooked at all. *)
Theorem hook_init_loads n name :
  (0 < n)%nat -> dlsym "nanaosleep" = None ->
  let t := Nat.iter n hook_init new_table in
  (name ∈ hook_functions -> dlsym name <> None -> exists f, dlsym name = Some f /\ original t name = Ret f) /\
  original t "nanaosleep" = Fault Undefined /\ "nanosleep"%string ∉ hook_functions.
Proof.
  intros Hn Hnull. cbv zeta.
  assert (forall k, k ∈ hook_functions -> originals (Nat.iter n hook_init new_table) !! k = dlsym k) as H.
  { destruct n as [|n]; [lia|]. rewrite iter_S. intros k Hk. unfold hook_init at 1. rewrite never_inited.
    cbn [originals]. by rewrite load_functions_lookup, decide_True. }
  split_and!.
  - intros Hin Hd. unfold original. rewrite (H name Hin). destruct (dlsym name) as [f|]; [by exists f|done].
  - unfold original. rewrite (H "nanaosleep"%string), Hnull; [done|]. apply list_elem_of_In. cbn. tauto.
  - intros Hin%list_elem_of_In. cbn in Hin. by repeat (destruct Hin as [Hin|Hin]; [discriminate Hin|]).
Qed.
End table.

(** ** connect *)
Definition connect {T} (hook_enable : bool) (fdctx : option FdContext) (mgr : option (IOState T))
    (sockfd now s_connect_timeout : Z) (result sockopt : Z * Z) (error : Z) : outcome (io_result T) :=
  connect_with_timeout hook_enable fdctx mgr sockfd now s_connect_timeout result sockopt error.

(** The timeout is a copy of the configuration's [int], as a [uint64_t]: set when the
    library is loaded ([_HookIniter]), and by a listener. What the listener acts on is
    the copy. *)
Section connect_timeout.
Context {Y : Yaml} (casts : forall t : unit, LexicalCast Z).
Abbreviation IntVar := (ConfigVar (ty := unit) (W := Z) (fun _ => Z) tt).

Definition set_int : IntVar -> Z -> Z -> outcome (bool * IntVar * Z) := setValue (fun _ => Z) (fun _ => Z.eqb).
Definition form_int : IntVar -> string -> Z -> outcome (bool * IntVar * Z) :=
  formString (fun _ => Z) casts (fun _ => Z.eqb).

Definition g_tcp_connect_timeout : IntVar := mkVar _ _ "tcp.connect.timeout" "tcp connect timeout" 50000 [].
Definition connect_timeout_changed : on_change_cb (W := Z) (fun _ : unit => Z) tt :=
  fun _ new_value _ => Ret (true, u64 new_value).
Definition HookIniter (x : IntVar) (fun_id : Z) : IntVar * Z * Z :=
  let s_connect_timeout := u64 (getValue _ x) in
  let r := addListener _ x fun_id connect_timeout_changed in
  (r.1.2, s_connect_timeout, r.2).

(** What changes the variable. *)
Inductive timeout_op : Set := SetTimeout (v : Z) | TimeoutFrom (s : string).
Definition do_timeout (s : IntVar * Z) (o : timeout_op) : outcome (IntVar * Z) :=
  let! r := (match o with
             | SetTimeout v => set_int s.1 v s.2
             | TimeoutFrom t => form_int s.1 t s.2
             end) in
  Ret (r.1.2, r.2).
Fixpoint do_timeouts (s : IntVar * Z) (os : list timeout_op) : outcome (IntVar * Z) :=
  match os with
  | [] => Ret s
  | o :: os => let! s := do_timeout s o in do_timeouts s os
  end.

Definition follows (s : IntVar * Z) : Prop :=
  s.2 = u64 (getValue _ s.1) /\ exists k, m_cbs _ _ s.1 = [(k, connect_timeout_changed)].

Lemma set_follows x v w : follows (x, w) ->
  exists x' w', set_int x v w = Ret (true, x', w') /\ follows (x', w') /\ getValue _ x' = v.
Proof.
  intros [Hw [k Hk]]. cbn in Hw, Hk. unfold set_int, setValue. destruct (Z.eqb_spec v (m_val _ _ x)) as [->|].
  - exists x, w. split; [done|]. split; [|done]. split; [done|by exists k].
  - rewrite Hk. cbn. do 2 eexists. split; [reflexivity|]. split; [|done]. split; [done|by exists k].
Qed.

(** The timeout that connections wait for is always the configured one, converted to
    unsigned, whatever the variable is set to or reads, from the first call on. *)
Theorem connect_timeout_follows fun_id os :
  let '(x, w, _) := HookIniter g_tcp_connect_timeout fun_id in
  exists x' w', do_timeouts (x, w) os = Ret (x', w') /\ w' = u64 (getValue _ x') /\
    (forall v, last os = Some (SetTimeout v) -> w' = u64 v).
Proof.
  unfold HookIniter, addListener. cbn [g_tcp_connect_timeout fst snd].
  match goal with |- exists x' w', do_timeouts (?x, ?w) os = _ /\ _ => assert (follows (x, w)) as Hf by (split; [done|by eexists]);
    revert Hf; generalize x w end.
  induction os as [|o os IH]; intros x w Hf; [exists x, w; by destruct Hf|].
  assert (exists x1 w1, do_timeout (x, w) o = Ret (x1, w1) /\ follows (x1, w1) /\
    (forall v, o = SetTimeout v -> w1 = u64 v)) as (x1 & w1 & H1 & Hf1 & Hv).
  { unfold do_timeout. destruct o as [v|t].
    - destruct (set_follows x v w Hf) as (x1 & w1 & E & Hf1 & Hv). cbn [fst snd]. rewrite E. exists x1, w1.
      split_and!; [done|done|]. intros v' [= <-]. destruct Hf1 as [Hw _]. cbn in Hw. by rewrite Hw, Hv.
    - unfold form_int, formString. cbn [fst snd]. destruct (of_text t) as [v|].
      + destruct (set_follows x v w Hf) as (x1 & w1 & E & Hf1 & Hv). unfold set_int in E. rewrite E.
        exists x1, w1. by split_and!.
      + exists x, w. by split_and!. }
  cbn [do_timeouts]. rewrite H1. cbn [obind]. destruct (IH x1 w1 Hf1) as (x2 & w2 & H2 & Hw2 & Hlast).
  exists x2, w2. split_and!; [done|done|]. intros v Hl. destruct os as [|o' os]; [|by apply Hlast].
  injection H2 as <- <-. cbn in Hl. injection Hl as ->. by apply Hv.
Qed.
End connect_timeout.

(** ** Witnesses

    A system that keeps the last command with its argument. *)
Definition toy_fcntl (k : Z * vararg) (fd cmd : Z) (va : vararg) : Z * (Z * vararg) := (0, (cmd, va)).
Definition toy_table : FdContextManager := mkFdManager [Some (socket_context 0 0)].

Lemma fcntl_transparent_witness :
  fcntl (Z * vararg) toy_fcntl toy_table (0, NoArg) 0 1030 (IntArg 7) = Ret (0, toy_table, (1030, IntArg 7)).
Proof.
  exact (proj1 (fcntl_transparent (Z * vararg) toy_fcntl toy_table (0, NoArg) 0 1030 (IntArg 7) eq_refl)
    ltac:(discriminate) ltac:(discriminate)).
Defined.

Lemma fcntl_drops_argument_witness :
  fcntl (Z * vararg) toy_fcntl toy_table (0, NoArg) 0 37 (PtrArg 4096) = Ret (0, toy_table, (37, NoArg)).
Proof. apply (fcntl_drops_argument (Z * vararg) toy_fcntl toy_table (0, NoArg) 0 37 (PtrArg 4096)). reflexivity. Defined.

Lemma timeout_taken_for_seconds_witness :
  exists r m' k' c', setsockopt unit (fun _ _ _ _ _ _ => (0, tt)) (fun _ => Some (3, 0)) true toy_table tt 0
      SOL_SOCKET SO_RCVTIMEO 4096 16 = Ret (r, m', k') /\
    context m' 0 = Some c' /\
    exists task mgr' effs, hooked call_recv true (Some c') (Some empty_manager) 0 1000000 [(-1, EAGAIN)] =
      Ret (Some (mkIo (-1) EAGAIN (Invoke :: RunTimer 3001000000 task :: effs) (Some mgr'))).
Proof.
  apply (timeout_taken_for_seconds unit (fun _ _ _ _ _ _ => (0, tt)) (fun _ => Some (3, 0)) toy_table tt 0
    SO_RCVTIMEO 4096 16 3 0 (socket_context 0 0) call_recv empty_manager 1000000 [] 3001000000);
    [by left|reflexivity..|vm_compute; reflexivity].
Defined.

Definition toy_libc (name : string) : option nat :=
  if String.eqb name "nanaosleep" then None else Some (String.length name).
Lemma hook_init_loads_witness :
  original (Nat.iter 2 (hook_init toy_libc) new_table) "connect" = Ret 7%nat /\
  original (Nat.iter 2 (hook_init toy_libc) new_table) "nanaosleep" = Fault Undefined.
Proof.
  destruct (hook_init_loads toy_libc 2 "connect" ltac:(lia) eq_refl) as (H1 & H2 & _). split; [|exact H2].
  destruct H1 as (f & Hf & H); [vm_compute; tauto || (apply list_elem_of_In; vm_compute; tauto)|discriminate|].
  injection Hf as <-. exact H.
Defined.
