(* ===== verification/Socket.v ===== *)
(** * Sockets (src/qslary/net/Socket.h, Socket.cc)

    The object, with its cached addresses, over the system calls it makes. The
    calls are parameters on a state [K] of the system, one function per call;
    they are the hooked ones when hooking is enabled. *)
From stdpp Require Import base list.
From Stdlib Require Import ZArith Ascii String Lia.
From S2P Require Import Prelude CLib Address FdManager.
Open Scope Z_scope.

Definition SOCK_STREAM : Z := 1.
Definition SOCK_DGRAM : Z := 2.
Definition SOL_SOCKET : Z := 1.
Definition IPPROTO_TCP : Z := 6.
Definition SO_REUSEADDR : Z := 2.
Definition SO_ERROR : Z := 4.
Definition TCP_NODELAY : Z := 1.

(** The system calls: the value returned and the system after it. [getsockname]
    and [getpeername] are handed the object whose address they fill, and give
    it back with the address length; [recv] gives the bytes received. Option
    values are the numbers of their object. *)
Record System (K : Type) : Type := mkSystem {
  sys_socket : K -> Z -> Z -> Z -> Z * K;
  sys_bind : K -> Z -> Address -> Z * K;
  sys_connect : K -> Z -> Address -> Z * K;
  sys_listen : K -> Z -> Z -> Z * K;
  sys_accept : K -> Z -> Z * K;
  sys_close : K -> Z -> K;
  sys_send : K -> Z -> list ascii -> Z * K;
  sys_recv : K -> Z -> Z -> Z * list ascii * K;
  sys_setsockopt : K -> Z -> Z -> Z -> list Z -> Z * K;
  sys_getsockopt : K -> Z -> Z -> Z -> Z * Z;
  sys_getsockname : K -> Z -> Address -> option (Address * Z);
  sys_getpeername : K -> Z -> Address -> option (Address * Z);
  sys_fdcontext : K -> Z -> option FdContext           (** [FdMgr::getFdContext(fd)] *)
}.
Arguments sys_socket {K}.
Arguments sys_bind {K}.
Arguments sys_connect {K}.
Arguments sys_listen {K}.
Arguments sys_accept {K}.
Arguments sys_close {K}.
Arguments sys_send {K}.
Arguments sys_recv {K}.
Arguments sys_setsockopt {K}.
Arguments sys_getsockopt {K}.
Arguments sys_getsockname {K}.
Arguments sys_getpeername {K}.
Arguments sys_fdcontext {K}.

Record Socket : Set := mkSocket {
  socketfd_ : Z;
  family_ : Z;
  type_ : Z;
  protocol_ : Z;
  isConnected_ : bool;
  localAddress_ : option Address;
  remoteAddress_ : option Address
}.

(** [Socket::Socket] and the factories *)
Definition new_Socket (family type protocol : Z) : Socket :=
  mkSocket (-1) family type protocol false None None.
Definition CreateTCPSocket_for (addr : Address) : Socket := new_Socket (GetFamily addr) SOCK_STREAM 0.
Definition CreateUDPSocket_for (addr : Address) : Socket := new_Socket (GetFamily addr) SOCK_DGRAM 0.
Definition CreateTCPSocket : Socket := new_Socket AF_INET SOCK_STREAM 0.
Definition CreateUDPSocket : Socket := new_Socket AF_INET SOCK_DGRAM 0.
Definition CreateTCPSocket6 : Socket := new_Socket AF_INET6 SOCK_STREAM 0.
Definition CreateUDPSocket6 : Socket := new_Socket AF_INET6 SOCK_DGRAM 0.
Definition CreateTCPUnixSocket : Socket := new_Socket AF_UNIX SOCK_STREAM 0.
Definition CreateUDPUnixSocket : Socket := new_Socket AF_UNIX SOCK_DGRAM 0.

Definition isVaild (s : Socket) : bool := negb (socketfd_ s =? -1).

Definition set_fd (s : Socket) (fd : Z) (connected : bool) : Socket :=
  mkSocket fd (family_ s) (type_ s) (protocol_ s) connected (localAddress_ s) (remoteAddress_ s).
Definition set_local (s : Socket) (a : Address) : Socket :=
  mkSocket (socketfd_ s) (family_ s) (type_ s) (protocol_ s) (isConnected_ s) (Some a) (remoteAddress_ s).
Definition set_remote (s : Socket) (a : Address) : Socket :=
  mkSocket (socketfd_ s) (family_ s) (type_ s) (protocol_ s) (isConnected_ s) (localAddress_ s) (Some a).

Section socket.
Context {K : Type} (sys : System K).

(** Options: the [assert] fails when the system refuses. *)
Definition setOption (s : Socket) (k : K) (level option : Z) (result : list Z) : outcome (bool * K) :=
  let '(rt, k) := sys_setsockopt sys k (socketfd_ s) level option result in
  let! _ := cassert (rt =? 0) in Ret (rt =? 0, k).

Definition getOption (s : Socket) (k : K) (level option : Z) : outcome (bool * Z) :=
  let '(rt, v) := sys_getsockopt sys k (socketfd_ s) level option in
  let! _ := cassert (rt =? 0) in Ret (rt =? 0, v).

Definition initSock (s : Socket) (k : K) : outcome K :=
  let! r := setOption s k SOL_SOCKET SO_REUSEADDR [1] in
  if type_ s =? SOCK_STREAM then
    let! r := setOption s r.2 IPPROTO_TCP TCP_NODELAY [1] in Ret r.2
  else Ret r.2.

Definition newSock (s : Socket) (k : K) : outcome (Socket * K) :=
  let '(fd, k) := sys_socket sys k (family_ s) (type_ s) (protocol_ s) in
  let s := set_fd s fd (isConnected_ s) in
  if negb (fd =? -1) then let! k := initSock s k in Ret (s, k) else Ret (s, k).

(** The object an address is read into. *)
Definition address_of_family (family : Z) : outcome Address :=
  if family =? AF_INET then Ret new_IPv4Address
  else if family =? AF_INET6 then Ret new_IPv6Address
  else if family =? AF_UNIX then Ret new_UnixAddress
  else Fault AssertFailed.

Definition filled (family : Z) (r : Address * Z) : Address :=
  if family =? AF_UNIX then setAddrlen r.1 r.2 else r.1.

Definition getRemoteAddress (s : Socket) (k : K) : outcome (option Address * Socket) :=
  match remoteAddress_ s with
  | Some a => Ret (Some a, s)
  | None =>
      let! result := address_of_family (family_ s) in
      match sys_getpeername sys k (socketfd_ s) result with
      | None => Ret (None, s)
      | Some r => let a := filled (family_ s) r in Ret (Some a, set_remote s a)
      end
  end.

Definition getLocalAddress (s : Socket) (k : K) : outcome (option Address * Socket) :=
  match localAddress_ s with
  | Some a => Ret (Some a, s)
  | None =>
      let! result := address_of_family (family_ s) in
      match sys_getsockname sys k (socketfd_ s) result with
      | None => Ret (None, s)
      | Some r => let a := filled (family_ s) r in Ret (Some a, set_local s a)
      end
  end.

(** [Socket::init]: a descriptor of the manager made a connected socket. *)
Definition init (s : Socket) (k : K) (fd : Z) : outcome (bool * Socket * K) :=
  match sys_fdcontext sys k fd with
  | Some c =>
      if isSocket_ c && negb (isClosed_ c) then
        let s := set_fd s fd true in
        let! k := initSock s k in
        let! l := getLocalAddress s k in
        let! r := getRemoteAddress l.2 k in
        Ret (true, r.2, k)
      else Ret (false, s, k)
  | None => Ret (false, s, k)
  end.

Definition close (s : Socket) (k : K) : bool * Socket * K :=
  if negb (isConnected_ s) && (socketfd_ s =? -1) then (true, s, k)
  else if socketfd_ s =? -1 then (true, set_fd s (socketfd_ s) false, k)
  else (true, set_fd s (-1) false, sys_close sys k (socketfd_ s)).

(** [Socket::accept]; a socket whose [init] fails is destroyed, which closes
    it. *)
Definition accept (s : Socket) (k : K) : outcome (option Socket * K) :=
  let sock := new_Socket (family_ s) (type_ s) (protocol_ s) in
  let '(newfd, k) := sys_accept sys k (socketfd_ s) in
  if newfd =? -1 then let '(_, _, k) := close sock k in Ret (None, k)
  else
    let! r := init sock k newfd in
    let '(ok, sock, k) := r in
    if (ok : bool) then Ret (Some sock, k)
    else let '(_, _, k) := close sock k in Ret (None, k).

Definition bind (s : Socket) (k : K) (addr : Address) : outcome (bool * Socket * K) :=
  let! r := (if isVaild s then Ret (s, k) else newSock s k) in
  let '(s, k) := r in
  if negb (GetFamily addr =? family_ s) then Ret (false, s, k)
  else
    let '(rt, k) := sys_bind sys k (socketfd_ s) addr in
    if negb (rt =? 0) then Ret (false, s, k)
    else let! l := getLocalAddress s k in Ret (true, l.2, k).

(** [Socket::connect]; both values of [timeout_ms] run the same code. *)
Definition connect (s : Socket) (k : K) (addr : Address) : outcome (bool * Socket * K) :=
  let! r := (if isVaild s then Ret (s, k) else newSock s k) in
  let '(s, k) := r in
  if negb (isVaild s) then Ret (false, s, k)
  else if negb (GetFamily addr =? family_ s) then Ret (false, s, k)
  else
    let '(rt, k) := sys_connect sys k (socketfd_ s) addr in
    if negb (rt =? 0) then let '(_, s, k) := close s k in Ret (false, s, k)
    else
      let s := set_fd s (socketfd_ s) true in
      let! r := getRemoteAddress s k in
      let! l := getLocalAddress r.2 k in
      Ret (true, l.2, k).

Definition listen (s : Socket) (k : K) (backlog : Z) : bool * K :=
  if negb (isVaild s) then (false, k)
  else let '(rt, k) := sys_listen sys k (socketfd_ s) backlog in (rt =? 0, k).

(** [Socket::send] and [Socket::recv] of one buffer *)
Definition send (s : Socket) (k : K) (d : list ascii) : Z * K :=
  if isConnected_ s then let '(r, k) := sys_send sys k (socketfd_ s) d in (i32 r, k) else (-1, k).
Definition recv (s : Socket) (k : K) (length : Z) : Z * list ascii * K :=
  if isConnected_ s then let '(r, d, k) := sys_recv sys k (socketfd_ s) length in (i32 r, d, k)
  else (-1, [], k).

(** [timeval] of a number of milliseconds *)
Definition timeval_of (val : Z) : list Z := [i32 (val / 1000); i32 (val mod 1000 * 1000)].
Definition setSendTimeout (s : Socket) (k : K) (val : Z) : outcome (bool * K) :=
  setOption s k SOL_SOCKET SO_SNDTIMEO (timeval_of val).
Definition setRecvTimeout (s : Socket) (k : K) (val : Z) : outcome (bool * K) :=
  setOption s k SOL_SOCKET SO_RCVTIMEO (timeval_of val).

(** [bool getError()]: the error code becomes a truth value. *)
Definition getError (s : Socket) (k : K) : outcome bool :=
  let! r := getOption s k SOL_SOCKET SO_ERROR in
  Ret (if r.1 then negb (r.2 =? 0) else true).

(** ** Properties *)

(** A connected socket has a descriptor. *)
Definition socket_ok (s : Socket) : Prop := isConnected_ s = true -> isVaild s = true.

(** The calls on one socket. *)
Inductive socket_op : Type :=
| OpInit (fd : Z)
| OpBind (addr : Address)
| OpConnect (addr : Address)
| OpListen (backlog : Z)
| OpSend (d : list ascii)
| OpRecv (length : Z)
| OpGetRemote
| OpGetLocal
| OpClose.

Definition run_op (sk : Socket * K) (o : socket_op) : outcome (Socket * K) :=
  let '(s, k) := sk in
  match o with
  | OpInit fd => let! r := init s k fd in Ret (r.1.2, r.2)
  | OpBind addr => let! r := bind s k addr in Ret (r.1.2, r.2)
  | OpConnect addr => let! r := connect s k addr in Ret (r.1.2, r.2)
  | OpListen n => Ret (s, (listen s k n).2)
  | OpSend d => Ret (s, (send s k d).2)
  | OpRecv n => Ret (s, (recv s k n).2)
  | OpGetRemote => let! r := getRemoteAddress s k in Ret (r.2, k)
  | OpGetLocal => let! r := getLocalAddress s k in Ret (r.2, k)
  | OpClose => Ret ((close s k).1.2, (close s k).2)
  end.

Fixpoint run_ops (sk : Socket * K) (os : list socket_op) : outcome (Socket * K) :=
  match os with
  | [] => Ret sk
  | o :: os => let! sk := run_op sk o in run_ops sk os
  end.

(** What the caches keep of a socket, and that a cached address stays. *)
Definition caches (s s' : Socket) : Prop :=
  socketfd_ s' = socketfd_ s /\ isConnected_ s' = isConnected_ s /\ family_ s' = family_ s /\
  (forall a, remoteAddress_ s = Some a -> remoteAddress_ s' = Some a).

Lemma get_addresses_keep s k r :
  getRemoteAddress s k = Ret r \/ getLocalAddress s k = Ret r -> caches s r.2.
Proof.
  unfold getRemoteAddress, getLocalAddress, caches. intros [H|H].
  - destruct (remoteAddress_ s) eqn:E; [outcome_inv; split_and!; try done; cbn; congruence|].
    apply obind_Ret_inv in H as (x & _ & H). destruct (sys_getpeername sys k _ x); by outcome_inv.
  - destruct (localAddress_ s) eqn:E; [by outcome_inv|].
    apply obind_Ret_inv in H as (x & _ & H). destruct (sys_getsockname sys k _ x); by outcome_inv.
Qed.

(** A new descriptor leaves the connection flag and the caches. *)
Lemma newSock_keep s k s' k' : newSock s k = Ret (s', k') ->
  isConnected_ s' = isConnected_ s /\ remoteAddress_ s' = remoteAddress_ s.
Proof.
  unfold newSock. destruct (sys_socket sys k _ _ _) as [fd k1].
  destruct (negb (fd =? -1)); intros H; outcome_inv; done.
Qed.

Lemma valid_first s k r :
  (if isVaild s then Ret (s, k) else newSock s k) = Ret r -> socket_ok s ->
  socket_ok r.1 /\ remoteAddress_ r.1 = remoteAddress_ s.
Proof.
  unfold socket_ok. destruct (isVaild s) eqn:E; intros H Hok; outcome_inv; [done|].
  destruct r as [s' k']. destruct (newSock_keep _ _ _ _ H) as [Hc Hr]. cbn. rewrite Hc. split; [|done].
  intros Hc'. by specialize (Hok Hc').
Qed.

Lemma caches_ok s s' : caches s s' -> socket_ok s -> socket_ok s'.
Proof. intros (A & B & _) H. unfold socket_ok, isVaild in *. by rewrite A, B. Qed.

Lemma caches_trans s1 s2 s3 : caches s1 s2 -> caches s2 s3 -> caches s1 s3.
Proof. intros (A & B & C & D) (E & F & G & H). split_and!; [congruence..|auto]. Qed.

(** Every branch of [connect]. *)
Lemma connect_cases s k addr r : connect s k addr = Ret r -> socket_ok s ->
  (r.1.1 = false /\ socket_ok r.1.2) \/
  (r.1.1 = true /\ isConnected_ r.1.2 = true /\ isVaild r.1.2 = true /\
   forall a, remoteAddress_ s = Some a -> remoteAddress_ r.1.2 = Some a).
Proof.
  unfold connect. intros H Hok. apply obind_Ret_inv in H as ([s1 k1] & H1 & H).
  destruct (valid_first _ _ _ H1 Hok) as [Hok1 Hr1]. cbn in Hok1, Hr1.
  destruct (isVaild s1) eqn:Hv; cbn [negb] in H; [|outcome_inv; by left].
  destruct (negb (GetFamily addr =? family_ s1)); [outcome_inv; by left|].
  destruct (sys_connect sys k1 (socketfd_ s1) addr) as [rt k2].
  destruct (negb (rt =? 0)).
  - left. unfold close in H. unfold isVaild in Hv. apply negb_true_iff in Hv. rewrite Hv in H.
    rewrite andb_false_r in H. by outcome_inv.
  - right. apply obind_Ret_inv in H as (r1 & Hr & H). apply obind_Ret_inv in H as (l & Hl & H). outcome_inv.
    pose proof (get_addresses_keep _ _ _ (or_introl Hr)) as C1.
    pose proof (get_addresses_keep _ _ _ (or_intror Hl)) as C2.
    destruct (caches_trans _ _ _ C1 C2) as (A & B & _ & D). cbn in A, B, D.
    cbn [fst snd]. split_and!; [done|by rewrite B|unfold isVaild; by rewrite A|].
    intros a Ha. apply D. congruence.
Qed.

Lemma run_op_ok s k o sk' :
  sys_fdcontext sys k (-1) = None -> socket_ok s -> run_op (s, k) o = Ret sk' -> socket_ok sk'.1.
Proof.
  intros Hfd Hok. destruct o as [fd|addr|addr|n|d|n| | |]; cbn [run_op]; intros H.
  - apply obind_Ret_inv in H as (r & Hr & H). outcome_inv. revert Hr. unfold init.
    destruct (sys_fdcontext sys k fd) as [c|] eqn:Ec; [|intros H; by outcome_inv].
    destruct (isSocket_ c && negb (isClosed_ c)); intros H; [|by outcome_inv].
    apply obind_Ret_inv in H as (k2 & _ & H). apply obind_Ret_inv in H as (l & Hl & H). apply obind_Ret_inv in H as (r1 & Hr & H). outcome_inv.
    pose proof (get_addresses_keep _ _ _ (or_intror Hl)) as C1.
    pose proof (get_addresses_keep _ _ _ (or_introl Hr)) as C2.
    apply (caches_ok _ _ (caches_trans _ _ _ C1 C2)). intros _. unfold isVaild. cbn.
    apply negb_true_iff, Z.eqb_neq. congruence.
  - apply obind_Ret_inv in H as (r & Hr & H). outcome_inv. revert Hr. unfold bind. intros H.
    apply obind_Ret_inv in H as ([s1 k1] & H1 & H). destruct (valid_first _ _ _ H1 Hok) as [Hok1 _].
    destruct (negb (GetFamily addr =? family_ s1)); [by outcome_inv|].
    destruct (sys_bind sys k1 (socketfd_ s1) addr) as [rt k2].
    destruct (negb (rt =? 0)); [by outcome_inv|].
    apply obind_Ret_inv in H as (l & Hl & H). outcome_inv. cbn.
    exact (caches_ok _ _ (get_addresses_keep _ _ _ (or_intror Hl)) Hok1).
  - apply obind_Ret_inv in H as (r & Hr & H). outcome_inv.
    destruct (connect_cases _ _ _ _ Hr Hok) as [[_ H]|(_ & _ & H & _)]; [exact H|by intros _].
  - by outcome_inv.
  - by outcome_inv.
  - by outcome_inv.
  - apply obind_Ret_inv in H as (r & Hr & H). outcome_inv.
    exact (caches_ok _ _ (get_addresses_keep _ _ _ (or_introl Hr)) Hok).
  - apply obind_Ret_inv in H as (r & Hr & H). outcome_inv.
    exact (caches_ok _ _ (get_addresses_keep _ _ _ (or_intror Hr)) Hok).
  - outcome_inv. cbn. unfold close.
    destruct (negb (isConnected_ s) && (socketfd_ s =? -1)); [done|]. by destruct (socketfd_ s =? -1).
Qed.

Lemma run_ops_ok os : forall sk sk', (forall k, sys_fdcontext sys k (-1) = None) ->
  socket_ok sk.1 -> run_ops sk os = Ret sk' -> socket_ok sk'.1.
Proof.
  induction os as [|o os IH]; intros [s k] sk' Hfd Hok H; cbn [run_ops] in H; [by outcome_inv|].
  apply obind_Ret_inv in H as (sk1 & H1 & H). apply (IH sk1 sk' Hfd); [|done].
  by eapply run_op_ok.
Qed.

(** Whatever calls are made on a new socket, it is connected only while it
    has a descriptor; closing it leaves it without one and disconnected, is
    idempotent, and after it neither sending nor receiving reaches the system. *)
Theorem socket_lifecycle family type protocol k os s k' d n :
  (forall k, sys_fdcontext sys k (-1) = None) ->
  run_ops (new_Socket family type protocol, k) os = Ret (s, k') ->
  (isConnected_ s = true -> isVaild s = true) /\
  let '(_, s', k'') := close s k' in
  socketfd_ s' = -1 /\ isConnected_ s' = false /\ close s' k'' = (true, s', k'') /\
  send s' k'' d = (-1, k'') /\ recv s' k'' n = (-1, [], k'').
Proof.
  intros Hfd Hrun. split.
  { assert (socket_ok (new_Socket family type protocol, k).1) as Hn by (intros [=]).
    exact (run_ops_ok os _ _ Hfd Hn Hrun). }
  unfold close. destruct (isConnected_ s) eqn:Ec, (socketfd_ s =? -1) eqn:Ef; cbn;
    rewrite ?Ec, ?Ef; bool_hyps; cbn; unfold send, recv; cbn; rewrite ?Ec; done.
Qed.

(** Closing a socket keeps its cached addresses: connected to a second
    peer, it reports the address of the first. *)
Theorem reconnect_reports_old_peer s k a ok s1 k1 addr2 s2 k2 :
  socket_ok s -> remoteAddress_ s = Some a ->
  close s k = (ok, s1, k1) -> connect s1 k1 addr2 = Ret (true, s2, k2) ->
  isConnected_ s2 = true /\ getRemoteAddress s2 k2 = Ret (Some a, s2).
Proof.
  intros Hok Ha Hclose Hconn.
  assert (socket_ok s1 /\ remoteAddress_ s1 = Some a) as [Hok1 Ha1].
  { revert Hclose. unfold close. destruct (negb (isConnected_ s) && (socketfd_ s =? -1));
      [by intros [= <- <- <-]|]. destruct (socketfd_ s =? -1); by intros [= <- <- <-]. }
  destruct (connect_cases _ _ _ _ Hconn Hok1) as [[[=] _]|(_ & Hc & _ & Hr)].
  split; [done|]. specialize (Hr a Ha1). cbn in Hr. unfold getRemoteAddress. by rewrite Hr.
Qed.
End socket.

(** ** Witnesses

    A system that accepts everything; its peer is the last address connected
    to. *)
Definition toy_net : System (option Address) := {|
  sys_socket k _ _ _ := (5, k);
  sys_bind k _ _ := (0, k);
  sys_connect k _ a := (0, Some a);
  sys_listen k _ _ := (0, k);
  sys_accept k _ := (-1, k);
  sys_close k _ := None;
  sys_send k _ d := (Z.of_nat (List.length d), k);
  sys_recv k _ n := (0, [], k);
  sys_setsockopt k _ _ _ _ := (0, k);
  sys_getsockopt k _ _ _ := (0, 0);
  sys_getsockname k _ a := Some (a, 0);
  sys_getpeername k _ _ := match k with Some a => Some (a, 0) | None => None end;
  sys_fdcontext k _ := None
|}.

Definition peer (n : Z) : Address := new_IPv4Address_of n 80.

Lemma socket_lifecycle_witness :
  exists s k, run_ops toy_net (CreateTCPSocket, None) [OpConnect (peer 1)] = Ret (s, k) /\
    send toy_net (close toy_net s k).1.2 (close toy_net s k).2 [zero] = (-1, (close toy_net s k).2).
Proof.
  destruct (run_ops toy_net (CreateTCPSocket, None) [OpConnect (peer 1)]) as [[s k]|] eqn:E;
    [|discriminate E].
  exists s, k. split; [reflexivity|].
  destruct (socket_lifecycle toy_net _ _ _ _ _ s k [zero] 0 (fun _ => eq_refl) E) as [_ H].
  destruct (close toy_net s k) as [[b s'] k']. apply H.
Defined.

Lemma reconnect_reports_old_peer_witness :
  exists s k, connect toy_net (set_remote CreateTCPSocket (peer 1)) None (peer 2) = Ret (true, s, k) /\
    getRemoteAddress toy_net s k = Ret (Some (peer 1), s).
Proof.
  destruct (connect toy_net (set_remote CreateTCPSocket (peer 1)) None (peer 2)) as [[[[|] s] k]|] eqn:E;
    try discriminate E.
  exists s, k. split; [reflexivity|].
  destruct (reconnect_reports_old_peer toy_net (set_remote CreateTCPSocket (peer 1)) None (peer 1) true
    (set_remote CreateTCPSocket (peer 1)) None (peer 2) s k) as [_ H]; [by intros ?|done|done|exact E|exact H].
Defined.
