(* ===== verification/SocketOps.v ===== *)
(** * The remaining operations of sockets (src/qslary/net/Socket.h, Socket.cc)

    Datagrams, the cancelling of events on the IO manager (IOManager.v), and
    printing, over the sockets of Socket.v. *)
From stdpp Require Import base list gmap strings.
From Stdlib Require Import ZArith Ascii String Lia.
From S2P Require Import Prelude CLib Address.
From S2P Require Import Fiber Scheduler IOManager.
From S2P Require Import FdManager Socket.
Open Scope Z_scope.

(** ** Datagrams

    [sendto] and [sendmsg] are handed the address, [recvfrom] and [recvmsg] the
    object whose address they fill, which they give back with the length of the
    address. *)
Section datagrams.
Context {K : Type}.
Context (sys_sendto : K -> Z -> list ascii -> Address -> Z * K).
Context (sys_recvfrom : K -> Z -> Z -> Address -> Z * list ascii * (Address * Z) * K).

Definition sendTo (s : Socket) (k : K) (d : list ascii) (to : Address) : Z * K :=
  if isConnected_ s then let '(r, k) := sys_sendto k (socketfd_ s) d to in (i32 r, k) else (-1, k).

(** The length that the system reports is not kept. *)
Definition recvFrom (s : Socket) (k : K) (length : Z) (from : Address) : Z * list ascii * Address * K :=
  if isConnected_ s then
    let '(r, d, (from, _), k) := sys_recvfrom k (socketfd_ s) length from in (i32 r, d, from, k)
  else (-1, [], from, k).

(** A socket that is only bound, as one for datagrams, neither sends nor
    receives. *)
Lemma datagrams_need_connect s k d to length from :
  isConnected_ s = false ->
  sendTo s k d to = (-1, k) /\ recvFrom s k length from = (-1, [], from, k).
Proof. intros H. unfold sendTo, recvFrom. by rewrite H. Qed.
End datagrams.

(** ** Cancelling *)
Section cancel.
Context {T : Type}.
Implicit Types (io : IOState T) (s : Socket).

Definition cancelRead s io : bool * IOState T := CancelReadEvent io (socketfd_ s).
Definition cancelWrite s io : bool * IOState T := CancelWriteEvent io (socketfd_ s).
Definition cancelAccept s io : bool * IOState T := CancelReadEvent io (socketfd_ s).
Definition cancelAll s io : bool * IOState T := CancelAll io (socketfd_ s).

(** Whether the IO manager hands an event on a descriptor to a callback. *)
Definition concerned io (fd : Z) : bool :=
  match mFdGroups io !! fd with Some x => concernRead x || concernWrite x | None => false end.

(** What is left of a group when it is cancelled: its callbacks. *)
Definition silenced (x : FdCallback T) : FdCallback T :=
  mkFdCallback false false (readCallback_ x) (writeCallback_ x).

Lemma set_groups_same io : set_groups io (mFdGroups io) = io.
Proof. by destruct io. Qed.

Lemma cancelAll_silences s io :
  cancelAll s io = (true, set_groups io (alter silenced (socketfd_ s) (mFdGroups io))).
Proof.
  unfold cancelAll, CancelAll, CancelReadEvent, CancelWriteEvent.
  assert (forall (m : gmap Z (FdCallback T)) x i, m !! i = Some x -> alter silenced i m = <[i := silenced x]> m) as Hal.
  { intros m x i E. apply map_eq. intros j. destruct (decide (j = i)) as [->|Hne].
    - by rewrite lookup_alter_eq, E, lookup_insert_eq.
    - by rewrite lookup_alter_ne, lookup_insert_ne by done. }
  destruct (mFdGroups io !! socketfd_ s) as [[r w rc wc]|] eqn:E.
  - rewrite (Hal _ _ _ E). destruct r; cbn; rewrite ?lookup_insert_eq; cbn; rewrite ?E; cbn.
    + destruct w; cbn; [by rewrite insert_insert_eq|done].
    + destruct w; cbn; [done|]. rewrite insert_id by done. by rewrite set_groups_same.
  - rewrite E. f_equal. destruct io as [g]. cbn in *. unfold set_groups. cbn. f_equal.
    apply map_eq. intros j. destruct (decide (j = socketfd_ s)) as [->|Hne].
    + by rewrite lookup_alter_eq, E.
    + by rewrite lookup_alter_ne.
Qed.

(** Cancelling ends the interest in one descriptor and wakes nobody. *)
Lemma cancelAll_concerned s io fd :
  concerned (cancelAll s io).2 fd = (if decide (fd = socketfd_ s) then false else concerned io fd).
Proof.
  rewrite cancelAll_silences. unfold concerned. cbn. destruct (decide (fd = socketfd_ s)) as [->|Hne].
  - rewrite lookup_alter_eq. by destruct (mFdGroups io !! socketfd_ s).
  - by rewrite lookup_alter_ne by done.
Qed.
End cancel.

(** ** Printing *)

(** [Socket::dump] *)
Definition bool_text (b : bool) : string := if b then "1" else "0".
Definition dump (s : Socket) : string :=
  (" Socket sock= " ++ decimal (socketfd_ s) ++ " is connect= " ++ bool_text (isConnected_ s)
   ++ " family = " ++ decimal (family_ s) ++ " type " ++ decimal (type_ s) ++ " protocol "
   ++ decimal (protocol_ s)
   ++ match localAddress_ s with Some a => " localAddress = " ++ ToString a | None => "" end
   ++ match remoteAddress_ s with Some a => " remoteAddress = " ++ ToString a | None => "" end
   ++ String (ascii_of_nat 10) "")%string.

Example dump_new : dump CreateTCPSocket = (" Socket sock= -1 is connect= 0 family = 2 type 1 protocol 0
")%string.
Proof. reflexivity. Qed.
