(* ===== verification/TcpServer.v ===== *)
(** * The server (src/qslary/net/TcpServer.h, TcpServer.cc)

    A server with its listening sockets, the fibers that accept on them, and the
    clients it hands to the worker, as steps in any order. *)
From stdpp Require Import base list gmap relations strings.
From Stdlib Require Import ZArith String Lia.
From S2P Require Import Prelude CLib Address.
From S2P Require Import Fiber Scheduler IOManager.
From S2P Require Import FdManager Socket SocketOps.
Open Scope Z_scope.

Definition SOMAXCONN : Z := 4096.

(** What a task on [accept_worker_] does next: a fiber in [startAccept] is at the
    loop, or in [accept] on the descriptor its socket had; or the task is the one
    of [stop]. *)
Inductive task : Type :=
| AtLoop (sock : nat)
| InAccept (sock : nat) (fd : Z)
| StopAll.

(** Sockets are shared and hence named by their place among all that were made. A task
    holds a [shared_ptr] to its socket, so that no socket that is used was destroyed;
    [heap] keeps also those that nothing holds any more. [k_] is the system, [io_] the IO manager whose events are cancelled. *)
Record TcpServer (K T : Type) : Type := mkServer {
  heap : list Socket;
  sockets_ : list nat;
  recvTimeout_ : Z;
  name_ : string;
  isStop_ : bool;
  accept_worker_ : list task;
  worker_ : list Socket;                              (** clients for [handleClient] *)
  k_ : K;
  io_ : IOState T
}.
Arguments mkServer {K T}.
Arguments heap {K T}.
Arguments sockets_ {K T}.
Arguments recvTimeout_ {K T}.
Arguments name_ {K T}.
Arguments isStop_ {K T}.
Arguments accept_worker_ {K T}.
Arguments worker_ {K T}.
Arguments k_ {K T}.
Arguments io_ {K T}.

Section server.
Context {K T : Type} (sys : System K).
Implicit Types (s : TcpServer K T).

(** [TcpServer::TcpServer]; the timeout is the configured one. *)
Definition new_TcpServer (timeout : Z) (k : K) (io : IOState T) : TcpServer K T :=
  mkServer [] [] timeout "qslary/1.0.0" true [] [] k io.

(** A turn of the loop in [bind]; a socket that is not kept is destroyed, which
    closes it. The value is what it adds to [fails]. *)
Definition bind_one s (addr : Address) : outcome (list Address * TcpServer K T) :=
  let! r := Socket.bind sys (CreateTCPSocket_for addr) (k_ s) addr in
  let '(bound, sock, k) := r in
  let fails := if bound : bool then [] else [addr] in
  let '(listening, k) := listen sys sock k SOMAXCONN in
  if listening : bool then
    Ret (fails, mkServer (heap s ++ [sock]) (sockets_ s ++ [List.length (heap s)]) (recvTimeout_ s) (name_ s)
      (isStop_ s) (accept_worker_ s) (worker_ s) k (io_ s))
  else
    let '(_, _, k) := Socket.close sys sock k in
    Ret (fails ++ [addr], mkServer (heap s) (sockets_ s) (recvTimeout_ s) (name_ s) (isStop_ s)
      (accept_worker_ s) (worker_ s) k (io_ s)).
Fixpoint bind_all s (addrs fails : list Address) : outcome (list Address * TcpServer K T) :=
  match addrs with
  | [] => Ret (fails, s)
  | i :: addrs => let! r := bind_one s i in bind_all r.2 addrs (fails ++ r.1)
  end.

(** [bind]; the listing of the sockets on [std::cout] is left out. *)
Definition bind s (addrs fails : list Address) : outcome (bool * list Address * TcpServer K T) :=
  let! r := bind_all s addrs fails in
  Ret (match r.1 with [] => true | _ => false end, r.1, r.2).

Definition set_tasks s (stop : bool) (l : list task) : TcpServer K T :=
  mkServer (heap s) (sockets_ s) (recvTimeout_ s) (name_ s) stop l (worker_ s) (k_ s) (io_ s).

Definition start s : bool * TcpServer K T :=
  if negb (isStop_ s) then (true, s)
  else (true, set_tasks s false (accept_worker_ s ++ map AtLoop (sockets_ s))).

Definition stop s : bool * TcpServer K T := (true, set_tasks s true (accept_worker_ s ++ [StopAll])).

(** The loop of [stop]'s task, and of the destructor without the cancelling. *)
Definition stop_one s (i : nat) : TcpServer K T :=
  match heap s !! i with
  | None => s
  | Some sock =>
      let io := (cancelAll sock (io_ s)).2 in
      let '(_, sock, k) := Socket.close sys sock (k_ s) in
      mkServer (<[i := sock]> (heap s)) (sockets_ s) (recvTimeout_ s) (name_ s) (isStop_ s)
        (accept_worker_ s) (worker_ s) k io
  end.
Definition clear_sockets s : TcpServer K T :=
  mkServer (heap s) [] (recvTimeout_ s) (name_ s) (isStop_ s) (accept_worker_ s) (worker_ s) (k_ s) (io_ s).
Definition stop_all s : TcpServer K T := clear_sockets (foldl stop_one s (sockets_ s)).

Definition delete_one s (i : nat) : TcpServer K T :=
  match heap s !! i with
  | None => s
  | Some sock =>
      let '(_, sock, k) := Socket.close sys sock (k_ s) in
      mkServer (<[i := sock]> (heap s)) (sockets_ s) (recvTimeout_ s) (name_ s) (isStop_ s)
        (accept_worker_ s) (worker_ s) k (io_ s)
  end.
Definition delete_TcpServer s : TcpServer K T := foldl delete_one s (sockets_ s).

(** [startAccept] behind [accept] *)
Definition accepted s (client : option Socket) (k : K) : outcome (TcpServer K T) :=
  match client with
  | Some client =>
      let! r := setRecvTimeout sys client k (recvTimeout_ s) in
      Ret (mkServer (heap s) (sockets_ s) (recvTimeout_ s) (name_ s) (isStop_ s) (accept_worker_ s)
             (worker_ s ++ [client]) r.2 (io_ s))
  | None =>
      Ret (mkServer (heap s) (sockets_ s) (recvTimeout_ s) (name_ s) (isStop_ s) (accept_worker_ s) (worker_ s) k (io_ s))
  end.

Definition put_task s (t : nat) (x : list task) : TcpServer K T :=
  set_tasks s (isStop_ s) (take t (accept_worker_ s) ++ x ++ drop (S t) (accept_worker_ s)).

(** A step of the task [t]; the descriptor is read when [accept] is called, and the
    socket may be closed before it returns. *)
Definition task_step s (t : nat) : outcome (option (TcpServer K T)) :=
  match accept_worker_ s !! t with
  | None => Ret None
  | Some (AtLoop i) =>
      if isStop_ s then Ret (Some (put_task s t []))
      else
        let! sock := deref (heap s !! i) in
        Ret (Some (put_task s t [InAccept i (socketfd_ sock)]))
  | Some (InAccept i fd) =>
      let! sock := deref (heap s !! i) in
      let! r := Socket.accept sys (set_fd sock fd (isConnected_ sock)) (k_ s) in
      let! s' := accepted s r.1 r.2 in
      Ret (Some (put_task s' t [AtLoop i]))
  | Some StopAll => Ret (Some (stop_all (put_task s t [])))
  end.

(** What happens: a task goes on, the system changes, or the program calls [bind],
    [start] or [stop]. *)
Inductive server_label : Type :=
| LTask (t : nat)
| LSystem
| LBind (addrs fails : list Address)
| LStart
| LStop.

Definition set_system s (k : K) : TcpServer K T :=
  mkServer (heap s) (sockets_ s) (recvTimeout_ s) (name_ s) (isStop_ s) (accept_worker_ s) (worker_ s) k (io_ s).

Inductive step s : server_label -> TcpServer K T -> Prop :=
| step_task t s' : task_step s t = Ret (Some s') -> step s (LTask t) s'
| step_system k : step s LSystem (set_system s k)
| step_bind addrs fails r : bind s addrs fails = Ret r -> step s (LBind addrs fails) r.2
| step_start : step s LStart (start s).2
| step_stop : step s LStop (stop s).2.

Definition reachable timeout k io : TcpServer K T -> Prop :=
  rtc (fun s s' => exists l, step s l s') (new_TcpServer timeout k io).

(** ** What holds while a server runs *)

(** A client is a connected socket with a descriptor. *)
Definition client_ok (c : Socket) : Prop := isConnected_ c = true /\ isVaild c = true.
Definition task_ok (n : nat) (t : task) : Prop :=
  match t with AtLoop i | InAccept i _ => (i < n)%nat | StopAll => True end.

Record server_inv s : Prop := {
  si_sockets : Forall (fun i => i < List.length (heap s))%nat (sockets_ s);
  si_tasks : Forall (task_ok (List.length (heap s))) (accept_worker_ s);
  si_clients : Forall client_ok (worker_ s)
}.

Lemma accept_client sock k r c : Socket.accept sys sock k = Ret r -> r.1 = Some c -> client_ok c.
Proof.
  unfold Socket.accept, client_ok. destruct (sys_accept sys k _) as [newfd k1].
  destruct (Z.eqb_spec newfd (-1)) as [E|E].
  { destruct (Socket.close _ _ _) as [[? ?] ?]. intros H. by outcome_inv. }
  intros H Hc. apply obind_Ret_inv in H as ([[ok sock'] k'] & Hi & H). destruct ok; [|].
  2: { destruct (Socket.close _ _ _) as [[? ?] ?]. by outcome_inv. }
  outcome_inv. cbn in Hc. injection Hc as <-. revert Hi. unfold init.
  destruct (sys_fdcontext sys k1 newfd) as [cx|]; [|intros Hi; by outcome_inv].
  destruct (isSocket_ cx && negb (isClosed_ cx)); intros Hi; [|by outcome_inv].
  apply obind_Ret_inv in Hi as (k2 & _ & Hi). apply obind_Ret_inv in Hi as (l & Hl & Hi).
  apply obind_Ret_inv in Hi as (r1 & Hr & Hi). outcome_inv.
  pose proof (get_addresses_keep _ _ _ _ (or_intror Hl)) as C1.
  pose proof (get_addresses_keep _ _ _ _ (or_introl Hr)) as C2.
  destruct (caches_trans _ _ _ C1 C2) as (A & B & _). cbn in A, B. unfold isVaild. rewrite A, B.
  split; [done|]. by apply negb_true_iff, Z.eqb_neq.
Qed.

Lemma task_ok_mono n m l : (n <= m)%nat -> Forall (task_ok n) l -> Forall (task_ok m) l.
Proof. intros Hle H. apply (Forall_impl _ _ _ H). intros []; cbn; [lia..|done]. Qed.

(** [bind] adds listening sockets to the list and changes nothing else. *)
Record grown s s' : Prop := {
  gr_heap : exists l, heap s' = heap s ++ l /\ sockets_ s' = sockets_ s ++ seq (List.length (heap s)) (List.length l);
  gr_tasks : accept_worker_ s' = accept_worker_ s;
  gr_clients : worker_ s' = worker_ s;
  gr_stop : isStop_ s' = isStop_ s
}.

Lemma grown_refl s : grown s s.
Proof. split; try done. exists []. by rewrite !app_nil_r. Qed.

Lemma grown_trans s1 s2 s3 : grown s1 s2 -> grown s2 s3 -> grown s1 s3.
Proof.
  intros [(l & Hh & Hs) Ht Hc Hp] [(l' & Hh' & Hs') Ht' Hc' Hp']. split; [|congruence..].
  exists (l ++ l'). rewrite Hh', Hh, app_assoc. split; [done|]. rewrite Hs', Hs, Hh, !length_app, seq_app, app_assoc. done.
Qed.

Lemma bind_one_grown s addr r : bind_one s addr = Ret r ->
  grown s r.2 /\ (r.1 = [] -> List.length (heap r.2) = S (List.length (heap s))).
Proof.
  unfold bind_one. intros H. apply obind_Ret_inv in H as ([[bound sock] k] & _ & H).
  destruct (listen sys sock k SOMAXCONN) as [[] k1].
  - outcome_inv. cbn. rewrite length_app. cbn. split; [|lia]. split; try done. by exists [sock].
  - destruct (Socket.close sys sock k1) as [[? ?] ?]. outcome_inv. cbn. split; [|by destruct bound].
    split; try done. exists []. by rewrite !app_nil_r.
Qed.

Lemma bind_all_grown addrs : forall s fails r, bind_all s addrs fails = Ret r ->
  grown s r.2 /\ exists l, r.1 = fails ++ l /\
    (l = [] -> List.length (heap r.2) = (List.length (heap s) + List.length addrs)%nat).
Proof.
  induction addrs as [|a addrs IH]; cbn; intros s fails r H.
  - outcome_inv. cbn. split; [apply grown_refl|]. exists []. rewrite app_nil_r. split; [done|]. cbn. lia.
  - apply obind_Ret_inv in H as (r1 & H1 & H). apply bind_one_grown in H1 as [G1 N1].
    apply IH in H as [G (l & E & N)]. split; [by eapply grown_trans|].
    exists (r1.1 ++ l). rewrite E, app_assoc. split; [done|]. intros [E1 E2]%app_nil. rewrite N, N1 by done. lia.
Qed.

Lemma grown_inv s s' : grown s s' -> server_inv s -> server_inv s'.
Proof.
  intros [(l & Hh & Hs) Ht Hc _] [A B C]. split.
  - rewrite Hs, Hh, length_app. apply Forall_app. split; [eapply Forall_impl; [exact A|]; cbn; lia|].
    apply Forall_forall. intros i Hi%elem_of_seq. lia.
  - rewrite Ht, Hh, length_app. eapply task_ok_mono; [|exact B]. lia.
  - by rewrite Hc.
Qed.

Lemma stop_one_keeps s i :
  List.length (heap (stop_one s i)) = List.length (heap s) /\ sockets_ (stop_one s i) = sockets_ s /\
  accept_worker_ (stop_one s i) = accept_worker_ s /\ worker_ (stop_one s i) = worker_ s /\
  isStop_ (stop_one s i) = isStop_ s.
Proof.
  unfold stop_one. destruct (heap s !! i) as [sock|]; [|done].
  destruct (Socket.close sys sock (k_ s)) as [[? ?] ?]. cbn. by rewrite length_insert.
Qed.

Lemma stop_ones_keep l : forall s,
  List.length (heap (foldl stop_one s l)) = List.length (heap s) /\
  accept_worker_ (foldl stop_one s l) = accept_worker_ s /\ worker_ (foldl stop_one s l) = worker_ s /\
  isStop_ (foldl stop_one s l) = isStop_ s.
Proof.
  induction l as [|i l IH]; cbn; intros s; [done|].
  destruct (IH (stop_one s i)) as (-> & -> & -> & ->), (stop_one_keeps s i) as (-> & _ & -> & -> & ->). done.
Qed.

Lemma accepted_keeps s c k s' : accepted s c k = Ret s' ->
  heap s' = heap s /\ sockets_ s' = sockets_ s /\ accept_worker_ s' = accept_worker_ s /\ isStop_ s' = isStop_ s /\
  worker_ s' = worker_ s ++ match c with Some c => [c] | None => [] end.
Proof.
  unfold accepted. destruct c as [c|]; intros H; [apply obind_Ret_inv in H as (r & _ & H)|]; outcome_inv; cbn;
    by rewrite ?app_nil_r.
Qed.

Lemma put_tasks n t x l : Forall (task_ok n) l -> Forall (task_ok n) x -> Forall (task_ok n) (take t l ++ x ++ drop (S t) l).
Proof. intros Hl Hx. apply Forall_app. split; [by apply Forall_take|]. apply Forall_app. split; [done|by apply Forall_drop]. Qed.

Lemma task_step_inv s t s' : server_inv s -> task_step s t = Ret (Some s') -> server_inv s'.
Proof.
  intros [A B C]. unfold task_step. destruct (accept_worker_ s !! t) as [[i|i fd|]|] eqn:E; [..|done].
  - destruct (isStop_ s); intros H; [|apply obind_Ret_inv in H as (sock & _ & H)]; outcome_inv;
      (split; cbn [heap sockets_ accept_worker_ worker_ put_task set_tasks]; [done| |done]); apply put_tasks; auto. constructor; [|done]. by apply (Forall_lookup_1 _ _ _ _ B E).
  - intros H. apply obind_Ret_inv in H as (sock & _ & H). apply obind_Ret_inv in H as (r & Hr & H).
    apply obind_Ret_inv in H as (s1 & H1 & H). outcome_inv.
    destruct (accepted_keeps _ _ _ _ H1) as (Hh & Hs & Ht & _ & Hw).
    split; cbn [heap sockets_ accept_worker_ worker_ put_task set_tasks].
    + by rewrite Hh, Hs.
    + rewrite Hh, Ht. apply put_tasks; [done|]. constructor; [|done]. by apply (Forall_lookup_1 _ _ _ _ B E).
    + rewrite Hw. apply Forall_app. split; [done|]. destruct (r.1) as [c|] eqn:Ec; [|done].
      constructor; [|done]. by eapply accept_client.
  - intros H. outcome_inv. unfold stop_all. destruct (stop_ones_keep (sockets_ (put_task s t [])) (put_task s t [])) as (Hh & Ht & Hw & _).
    split; cbn [heap sockets_ accept_worker_ worker_ clear_sockets]; [done| |].
    + rewrite Hh, Ht. by apply put_tasks.
    + by rewrite Hw.
Qed.

Lemma server_step_inv s l s' : server_inv s -> step s l s' -> server_inv s'.
Proof.
  intros HI [t s1 H|k|addrs fails r H| |].
  - by eapply task_step_inv.
  - by destruct HI.
  - unfold bind in H. apply obind_Ret_inv in H as (r1 & H1 & H). outcome_inv.
    apply bind_all_grown in H1 as [G _]. by eapply grown_inv.
  - unfold start. destruct (negb (isStop_ s)); [done|]. destruct HI as [A B C]. split; cbn; [done| |done].
    apply Forall_app. split; [done|]. by apply Forall_map.
  - destruct HI as [A B C]. split; cbn; [done| |done]. apply Forall_app. split; [done|by constructor].
Qed.

Lemma server_reachable_inv timeout k io s : reachable timeout k io s -> server_inv s.
Proof.
  intros H. refine (rtc_ind_r server_inv _ _ _ s H); [split; constructor|].
  intros s1 s2 _ [l Hs] HI. by eapply server_step_inv.
Qed.

(** A path by its labels. *)
Definition do_label s (l : server_label) : outcome (option (TcpServer K T)) :=
  match l with
  | LTask t => task_step s t
  | LSystem => Ret (Some s)
  | LBind addrs fails => let! r := bind s addrs fails in Ret (Some r.2)
  | LStart => Ret (Some (start s).2)
  | LStop => Ret (Some (stop s).2)
  end.
Fixpoint do_labels s (ls : list server_label) : option (TcpServer K T) :=
  match ls with
  | [] => Some s
  | l :: ls => match do_label s l with Ret (Some s') => do_labels s' ls | _ => None end
  end.

Lemma do_label_step s l s' : do_label s l = Ret (Some s') -> step s l s'.
Proof.
  destruct l as [t| |addrs fails| |]; cbn; intros H.
  - by apply step_task.
  - injection H as <-. destruct s. apply step_system.
  - apply obind_Ret_inv in H as (r & H & [= <-]). by eapply step_bind.
  - injection H as <-. apply step_start.
  - injection H as <-. apply step_stop.
Qed.

Lemma do_labels_steps s ls s' : do_labels s ls = Some s' -> rtc (fun s s' => exists l, step s l s') s s'.
Proof.
  revert s. induction ls as [|l ls IH]; cbn; intros s H; [by injection H as ->|].
  destruct (do_label s l) as [[s1|]|] eqn:E; try done. apply rtc_l with s1; [|by apply IH].
  exists l. by apply do_label_step.
Qed.

Lemma do_labels_stopping s ls s' :
  do_labels s ls = Some s' -> forallb (fun l => match l with LStart => false | _ => true end) ls = true ->
  rtc (fun s s' => exists l, l <> LStart /\ step s l s') s s'.
Proof.
  revert s. induction ls as [|l ls IH]; cbn; intros s H Hl; [by injection H as ->|].
  destruct (do_label s l) as [[s1|]|] eqn:E; try done. apply andb_prop in Hl as [Hl Hls].
  apply rtc_l with s1; [|by apply IH]. exists l. split; [by destruct l|]. by apply do_label_step.
Qed.

(** ** Binding *)

(** [bind] keeps the sockets there are and adds one per address it listens on;
    it returns true just when no address has failed, now or before, and then each
    address has its socket. *)
Theorem bind_reports s addrs fails ok fails' s' :
  bind s addrs fails = Ret (ok, fails', s') ->
  (exists l, heap s' = heap s ++ l /\
     sockets_ s' = sockets_ s ++ seq (List.length (heap s)) (List.length l) /\
     (ok = true -> List.length l = List.length addrs)) /\
  (exists l, fails' = fails ++ l) /\ (ok = true <-> fails' = []).
Proof.
  unfold bind. intros H. apply obind_Ret_inv in H as (r & Hb & H). outcome_inv.
  apply bind_all_grown in Hb as [[(l & Hh & Hs) _ _ _] (l' & E & N)]. split_and!.
  - exists l. split_and!; [done|done|]. intros Hok. rewrite E in Hok.
    rewrite Hh, length_app in N. destruct fails, l'; try done. specialize (N eq_refl). lia.
  - by exists l'.
  - by destruct r.1.
Qed.

(** An address that cannot be bound is reported as failed, and yet the socket is
    listened on, at a port the system chooses, and kept. *)
Lemma failed_bind_listens addrs : forall s fails,
  (forall k f t p, (sys_socket sys k f t p).1 <> -1) -> (forall k fd l o v, (sys_setsockopt sys k fd l o v).1 = 0) ->
  (forall k fd a, (sys_bind sys k fd a).1 <> 0) -> (forall k fd n, (sys_listen sys k fd n).1 = 0) ->
  exists s', bind_all s addrs fails = Ret (fails ++ addrs, s') /\
    List.length (sockets_ s') = (List.length (sockets_ s) + List.length addrs)%nat.
Proof.
  intros s fails H1 H2 H3 H4. revert s fails.
  assert (forall sock k, exists k', initSock sys sock k = Ret k') as Hinit.
  { intros sock k. unfold initSock, setOption. pose proof (H2 k (socketfd_ sock) SOL_SOCKET SO_REUSEADDR [1]) as E.
    destruct (sys_setsockopt sys k (socketfd_ sock) SOL_SOCKET SO_REUSEADDR [1]) as [rt k1]. cbn in E. subst rt. cbn.
    destruct (type_ sock =? SOCK_STREAM); [|by eexists].
    pose proof (H2 k1 (socketfd_ sock) IPPROTO_TCP TCP_NODELAY [1]) as E.
    destruct (sys_setsockopt sys k1 (socketfd_ sock) IPPROTO_TCP TCP_NODELAY [1]) as [rt k2]. cbn in E. subst rt. by eexists. }
  assert (forall s addr, exists s', bind_one s addr = Ret ([addr], s') /\
    List.length (sockets_ s') = S (List.length (sockets_ s))) as Hone.
  { intros s addr. unfold bind_one, Socket.bind, newSock. change (isVaild (CreateTCPSocket_for addr)) with false. cbv iota.
    cbn [family_ type_ protocol_ isConnected_ CreateTCPSocket_for new_Socket].
    pose proof (H1 (k_ s) (GetFamily addr) SOCK_STREAM 0) as E1.
    destruct (sys_socket sys (k_ s) (GetFamily addr) SOCK_STREAM 0) as [fd k1]. cbn in E1.
    rewrite (proj2 (Z.eqb_neq fd (-1))) by done. cbn [negb].
    set (sock := set_fd _ fd false). destruct (Hinit sock k1) as [k2 ->]. cbn [obind].
    replace (GetFamily addr =? family_ sock) with true by (symmetry; apply Z.eqb_refl). cbn [negb].
    pose proof (H3 k2 (socketfd_ sock) addr) as E3. destruct (sys_bind sys k2 (socketfd_ sock) addr) as [rt k3]. cbn in E3.
    rewrite (proj2 (Z.eqb_neq rt 0)) by done. cbn [negb obind].
    assert (isVaild sock = true) as Hv by (by apply negb_true_iff, Z.eqb_neq).
    unfold listen. rewrite Hv. cbn [negb]. pose proof (H4 k3 (socketfd_ sock) SOMAXCONN) as E4.
    destruct (sys_listen sys k3 (socketfd_ sock) SOMAXCONN) as [rl k4]. cbn in E4. subst rl. cbn [Z.eqb].
    eexists. split; [reflexivity|]. cbn. rewrite length_app. cbn. lia. }
  induction addrs as [|a addrs IH]; intros s fails; cbn [bind_all].
  - exists s. rewrite app_nil_r. split; [done|]. cbn. lia.
  - destruct (Hone s a) as (s1 & -> & N). cbn [obind fst snd].
    destruct (IH s1 (fails ++ [a])) as (s' & -> & N'). exists s'. rewrite <- app_assoc. split; [done|].
    cbn [List.length]. lia.
Qed.

(** ** Stopping *)

(** Calls of [accept] under way, and how far the tasks are from their ends when
    the server is stopped. *)
Definition accepting (l : list task) : nat := List.length (List.filter (fun t => match t with InAccept _ _ => true | _ => false end) l).
Definition task_weight (t : task) : nat := match t with InAccept _ _ => 2 | _ => 1 end.
Definition tasks_left s : nat := list_sum (map task_weight (accept_worker_ s)).

Lemma accepting_app l l' : accepting (l ++ l') = (accepting l + accepting l')%nat.
Proof. unfold accepting. by rewrite List.filter_app, length_app. Qed.

(** The list around a task. *)
Lemma split_task (l : list task) t x :
  l !! t = Some x -> l = take t l ++ x :: drop (S t) l.
Proof. intros H. by rewrite take_drop_middle. Qed.

Lemma tasks_left_app l l' : list_sum (map task_weight (l ++ l')) = (list_sum (map task_weight l) + list_sum (map task_weight l'))%nat.
Proof. by rewrite map_app, list_sum_app. Qed.

(** A task of a stopped server gets nearer to its end, and hands out a client only
    when [accept] was under way. *)
Lemma stopped_task s t s' : isStop_ s = true -> task_step s t = Ret (Some s') ->
  isStop_ s' = true /\ (tasks_left s' < tasks_left s)%nat /\
  (List.length (worker_ s') + accepting (accept_worker_ s') <= List.length (worker_ s) + accepting (accept_worker_ s))%nat.
Proof.
  intros Hst. unfold task_step, tasks_left. destruct (accept_worker_ s !! t) as [x|] eqn:E; [|done].
  pose proof (f_equal (fun l => list_sum (map task_weight l)) (split_task _ _ _ E)) as Hw1.
  pose proof (f_equal accepting (split_task _ _ _ E)) as Ha1. cbn beta in Hw1.
  change (x :: drop (S t) (accept_worker_ s)) with ([x] ++ drop (S t) (accept_worker_ s)) in Hw1, Ha1.
  rewrite !tasks_left_app in Hw1. rewrite !accepting_app in Ha1.
  destruct x as [i|i fd|]; cbn in Hw1, Ha1.
  - rewrite Hst. intros H. outcome_inv. cbn [isStop_ put_task set_tasks accept_worker_ worker_].
    rewrite !tasks_left_app, !accepting_app. cbn. split; [done|]. lia.
  - intros H. apply obind_Ret_inv in H as (sock & _ & H). apply obind_Ret_inv in H as (r & Hr & H).
    apply obind_Ret_inv in H as (s1 & H1 & H). outcome_inv.
    destruct (accepted_keeps _ _ _ _ H1) as (_ & _ & Ht & Hp & Hw).
    cbn [isStop_ put_task set_tasks accept_worker_ worker_]. rewrite Hp, Hw, Ht, length_app.
    rewrite !tasks_left_app, !accepting_app. cbn. destruct (r.1); cbn; split; try done; lia.
  - intros H. outcome_inv. unfold stop_all. cbn [isStop_ clear_sockets accept_worker_ worker_].
    destruct (stop_ones_keep (sockets_ (put_task s t [])) (put_task s t [])) as (_ & -> & -> & ->).
    cbn [isStop_ put_task set_tasks accept_worker_ worker_].
    rewrite !tasks_left_app, !accepting_app. cbn. split; [done|]. lia.
Qed.

(** Steps without a new start. *)
Definition stopping s s' : Prop := exists l, l <> LStart /\ step s l s'.

Lemma stopping_clients s s' : rtc stopping s s' -> isStop_ s = true ->
  isStop_ s' = true /\
  (List.length (worker_ s') + accepting (accept_worker_ s') <= List.length (worker_ s) + accepting (accept_worker_ s))%nat.
Proof.
  induction 1 as [|s1 s2 s3 (l & Hl & Hs) _ IH]; [done|]. intros Hst.
  assert (isStop_ s2 = true /\ (List.length (worker_ s2) + accepting (accept_worker_ s2)
    <= List.length (worker_ s1) + accepting (accept_worker_ s1))%nat) as [H1 H2].
  { destruct Hs as [t s2 H|k|addrs fails r H| |]; [|done| |done|].
    - by destruct (stopped_task s1 t s2 Hst H) as (? & _ & ?).
    - unfold bind in H. apply obind_Ret_inv in H as (r1 & Hb & H). outcome_inv.
      apply bind_all_grown in Hb as [[_ Ht Hc Hp] _]. cbn. by rewrite Ht, Hc, Hp.
    - cbn [stop snd set_tasks isStop_ accept_worker_ worker_]. rewrite accepting_app. cbn. split; [done|]. lia. }
  destruct (IH H1) as [? ?]. split; [done|]. lia.
Qed.

(** C38: a server that is stopped winds down: until it is started again it hands out
    at most as many clients as calls of [accept] were under way, and each step of a
    task brings the tasks nearer to their end, which they have reached when no
    step is possible. That [accept] returns is up to the system. *)
Theorem stop_winds_down s s' :
  isStop_ s = true -> rtc stopping s s' ->
  (List.length (worker_ s') <= List.length (worker_ s) + accepting (accept_worker_ s))%nat /\
  (forall t s'', task_step s' t = Ret (Some s'') -> (tasks_left s'' < tasks_left s')%nat) /\
  (forall t, task_step s' t = Ret None -> accept_worker_ s' !! t = None).
Proof.
  intros Hst Hs. destruct (stopping_clients s s' Hs Hst) as [Hst' Hc]. split; [lia|]. split.
  - intros t s'' H. by destruct (stopped_task s' t s'' Hst' H) as (_ & ? & _).
  - intros t H. unfold task_step in H. destruct (accept_worker_ s' !! t) as [[i|i fd|]|]; [exfalso..|done].
    + by rewrite Hst' in H.
    + destruct (deref (heap s' !! i)); [|done]. cbn in H. destruct (Socket.accept _ _ _) as [r|]; [|done]. cbn in H.
      by destruct (accepted s' r.1 r.2).
    + done.
Qed.

(** Only assertions fail, and only for a reason. *)
Definition asserts_when {A} (Q : Prop) (m : outcome A) : Prop := (m = Fault AssertFailed /\ Q) \/ exists a, m = Ret a.

Lemma asserts_bind {A B} (Q : Prop) (m : outcome A) (f : A -> outcome B) :
  asserts_when Q m -> (forall a, m = Ret a -> asserts_when Q (f a)) -> asserts_when Q (obind m f).
Proof. intros [[-> HQ]|[a ->]] H; [by left|]. by apply H. Qed.

Lemma asserts_ret {A} (Q : Prop) (a : A) : asserts_when Q (Ret a).
Proof. right. by exists a. Qed.

Lemma asserts_impl {A} (Q Q' : Prop) (m : outcome A) : (Q -> Q') -> asserts_when Q m -> asserts_when Q' m.
Proof. intros H [[-> HQ]|Hm]; [left; auto|by right]. Qed.

(** The system refuses an option for a descriptor; a family there is no address for. *)
Definition option_refused (fd : Z) : Prop := exists k level option v, (sys_setsockopt sys k fd level option v).1 <> 0.
Definition unknown_family (family : Z) : Prop := family <> AF_INET /\ family <> AF_INET6 /\ family <> AF_UNIX.

Lemma setOption_asserts sock k level option v : asserts_when (option_refused (socketfd_ sock)) (setOption sys sock k level option v).
Proof.
  unfold setOption. destruct (sys_setsockopt sys k _ _ _ _) as [rt k1] eqn:E. unfold cassert.
  destruct (Z.eqb_spec rt 0); [apply asserts_ret|left]. split; [done|]. exists k, level, option, v. by rewrite E.
Qed.

Lemma initSock_asserts sock k : asserts_when (option_refused (socketfd_ sock)) (initSock sys sock k).
Proof.
  unfold initSock. apply asserts_bind; [apply setOption_asserts|]. intros r _.
  destruct (type_ sock =? SOCK_STREAM); [|apply asserts_ret]. apply asserts_bind; [apply setOption_asserts|]. intros ? _. apply asserts_ret.
Qed.

Lemma family_asserts family : asserts_when (unknown_family family) (address_of_family family).
Proof.
  unfold address_of_family, unknown_family. destruct (Z.eqb_spec family AF_INET); [apply asserts_ret|].
  destruct (Z.eqb_spec family AF_INET6); [apply asserts_ret|]. destruct (Z.eqb_spec family AF_UNIX); [apply asserts_ret|by left].
Qed.

Lemma addresses_assert sock k :
  asserts_when (unknown_family (family_ sock)) (getLocalAddress sys sock k) /\
  asserts_when (unknown_family (family_ sock)) (getRemoteAddress sys sock k).
Proof.
  unfold getLocalAddress, getRemoteAddress. split.
  - destruct (localAddress_ sock); [apply asserts_ret|]. apply asserts_bind; [apply family_asserts|].
    intros a _. destruct (sys_getsockname sys k _ a); apply asserts_ret.
  - destruct (remoteAddress_ sock); [apply asserts_ret|]. apply asserts_bind; [apply family_asserts|].
    intros a _. destruct (sys_getpeername sys k _ a); apply asserts_ret.
Qed.

Lemma getLocalAddress_family sock k l : getLocalAddress sys sock k = Ret l -> family_ l.2 = family_ sock.
Proof.
  unfold getLocalAddress. destruct (localAddress_ sock); [intros H; by outcome_inv|]. intros (a & _ & H)%obind_Ret_inv.
  destruct (sys_getsockname sys k _ a); by outcome_inv.
Qed.

(** What may be wrong with a client that [accept] returns: an option is refused for
    its descriptor, or it is of an unknown family. *)
Definition client_refused (sock : Socket) k : Prop :=
  let fd := (sys_accept sys k (socketfd_ sock)).1 in fd <> -1 /\ (option_refused fd \/ unknown_family (family_ sock)).

Lemma accept_asserts sock k : asserts_when (client_refused sock k) (Socket.accept sys sock k).
Proof.
  unfold Socket.accept, client_refused. destruct (sys_accept sys k _) as [newfd k1]. cbn [fst].
  destruct (Z.eqb_spec newfd (-1)) as [|Hne]. { destruct (Socket.close _ _ _) as [[? ?] ?]. apply asserts_ret. }
  apply asserts_bind.
  - apply (asserts_impl (option_refused newfd \/ unknown_family (family_ sock))); [by split|].
    unfold init. destruct (sys_fdcontext sys k1 newfd) as [cx|]; [|apply asserts_ret].
    destruct (isSocket_ cx && negb (isClosed_ cx)); [|apply asserts_ret]. set (c := set_fd _ newfd true).
    apply asserts_bind; [eapply asserts_impl, (initSock_asserts c); by left|]. intros k2 _.
    apply asserts_bind; [eapply asserts_impl, (addresses_assert c); by right|]. intros l Hl.
    apply asserts_bind; [|intros ? _; apply asserts_ret]. eapply asserts_impl, (addresses_assert l.2).
    rewrite (getLocalAddress_family _ _ _ Hl). by right.
  - intros [[ok sk] k2] _. destruct ok; [apply asserts_ret|]. destruct (Socket.close _ _ _) as [[? ?] ?]. apply asserts_ret.
Qed.

(** The client has the descriptor that the system gave. *)
Lemma accept_fd sock k r c : Socket.accept sys sock k = Ret r -> r.1 = Some c ->
  socketfd_ c = (sys_accept sys k (socketfd_ sock)).1 /\ socketfd_ c <> -1.
Proof.
  intros H Hc. destruct (accept_client _ _ _ _ H Hc) as [_ Hv]. split; [|by apply Z.eqb_neq, negb_true_iff].
  revert H. unfold Socket.accept. destruct (sys_accept sys k _) as [newfd k1]. cbn [fst].
  destruct (newfd =? -1). { destruct (Socket.close _ _ _) as [[? ?] ?]. intros H. by outcome_inv. }
  intros H. apply obind_Ret_inv in H as ([[ok sock'] k'] & Hi & H). destruct ok; [|].
  2: { destruct (Socket.close _ _ _) as [[? ?] ?]. by outcome_inv. }
  outcome_inv. cbn in Hc. injection Hc as <-. revert Hi. unfold init.
  destruct (sys_fdcontext sys k1 newfd) as [cx|]; [|intros Hi; by outcome_inv].
  destruct (isSocket_ cx && negb (isClosed_ cx)); intros Hi; [|by outcome_inv].
  apply obind_Ret_inv in Hi as (k2 & _ & Hi). apply obind_Ret_inv in Hi as (l & Hl & Hi).
  apply obind_Ret_inv in Hi as (r1 & Hr & Hi). outcome_inv.
  destruct (caches_trans _ _ _ (get_addresses_keep _ _ _ _ (or_intror Hl)) (get_addresses_keep _ _ _ _ (or_introl Hr))) as (B & _ & _).
  exact B.
Qed.

(** The only steps of tasks that fail. *)
Definition task_refused s (t : nat) : Prop :=
  exists i fd sock, accept_worker_ s !! t = Some (InAccept i fd) /\ heap s !! i = Some sock /\
    client_refused (set_fd sock fd (isConnected_ sock)) (k_ s).

Lemma task_asserts s t : server_inv s -> asserts_when (task_refused s t) (task_step s t).
Proof.
  intros [A B C]. unfold task_step. destruct (accept_worker_ s !! t) as [x|] eqn:E; [|apply asserts_ret].
  pose proof (Forall_lookup_1 _ _ _ _ B E) as Hx. destruct x as [i|i fd|]; cbn in Hx; [..|apply asserts_ret].
  - destruct (isStop_ s); [apply asserts_ret|]. apply lookup_lt_is_Some in Hx as [sock ->]. apply asserts_ret.
  - apply lookup_lt_is_Some in Hx as [sock Hs]. rewrite Hs. cbn [deref obind].
    apply (asserts_impl (client_refused (set_fd sock fd (isConnected_ sock)) (k_ s))); [by exists i, fd, sock|].
    apply asserts_bind; [apply accept_asserts|].
    intros r Hr. apply asserts_bind; [|intros ? _; apply asserts_ret]. unfold accepted.
    destruct (r.1) as [c|] eqn:Ec; [|apply asserts_ret]. apply asserts_bind; [|intros ? _; apply asserts_ret].
    destruct (accept_fd _ _ _ _ Hr Ec) as [Ef Hne].
    eapply asserts_impl, setOption_asserts. intros Href. split; rewrite <- Ef; [done|by left].
Qed.

(** What may be wrong with an address that is bound. *)
Definition address_refused (addr : Address) : Prop :=
  (exists k, option_refused (sys_socket sys k (GetFamily addr) SOCK_STREAM 0).1) \/ unknown_family (GetFamily addr).

Lemma bind_one_asserts s addr : asserts_when (address_refused addr) (bind_one s addr).
Proof.
  unfold bind_one. apply asserts_bind.
  - unfold Socket.bind, newSock. change (isVaild (CreateTCPSocket_for addr)) with false. cbv iota.
    cbn [family_ type_ protocol_ isConnected_ CreateTCPSocket_for new_Socket].
    destruct (sys_socket sys (k_ s) (GetFamily addr) SOCK_STREAM 0) as [fd k1] eqn:Es. set (sock := set_fd _ fd false).
    apply asserts_bind.
    + destruct (negb (fd =? -1)); [|apply asserts_ret]. apply asserts_bind; [|intros ? _; apply asserts_ret].
      eapply asserts_impl, (initSock_asserts sock). intros Hr. left. exists (k_ s). by rewrite Es.
    + intros [s1 k2] Hs1. assert (family_ s1 = GetFamily addr) as Hf.
      { destruct (negb (fd =? -1)); [apply obind_Ret_inv in Hs1 as (? & _ & Hs1)|]; by outcome_inv. }
      destruct (negb (GetFamily addr =? family_ s1)); [apply asserts_ret|].
      destruct (sys_bind sys k2 (socketfd_ s1) addr) as [rt k3]. destruct (negb (rt =? 0)); [apply asserts_ret|].
      apply asserts_bind; [|intros ? _; apply asserts_ret]. eapply asserts_impl, (addresses_assert s1). rewrite Hf. by right.
  - intros [[bound sock] k] _. destruct (listen sys sock k SOMAXCONN) as [[] k1]; [apply asserts_ret|].
    destruct (Socket.close sys sock k1) as [[? ?] ?]. apply asserts_ret.
Qed.

Lemma bind_asserts addrs : forall s fails, asserts_when (exists addr, addr ∈ addrs /\ address_refused addr) (bind s addrs fails).
Proof.
  intros s fails. unfold bind. apply asserts_bind; [|intros ? _; apply asserts_ret]. revert s fails.
  induction addrs as [|a addrs IH]; intros s fails; cbn [bind_all]; [apply asserts_ret|]. apply asserts_bind.
  - eapply asserts_impl, bind_one_asserts. intros H. exists a. split; [by left|done].
  - intros r _. eapply asserts_impl, IH. intros (x & Hx & H). exists x. split; [by right|done].
Qed.

(** C20: every client that a server hands to its worker, in whatever order it is
    bound, started and stopped and its tasks go on, is a connected socket with a
    descriptor. A step of a task fails only in an assertion, and only where [accept]
    has given it a client whose descriptor the system refuses an option, or whose
    listening socket is of a family other than IPv4, IPv6 and Unix; and so does
    [bind], only for an address of such a family or when an option is refused for
    the new socket of one. *)
Theorem clients_connected timeout k io s :
  reachable timeout k io s ->
  Forall client_ok (worker_ s) /\
  (forall t, (task_step s t = Fault AssertFailed /\ task_refused s t) \/ exists r, task_step s t = Ret r) /\
  (forall addrs fails, (bind s addrs fails = Fault AssertFailed /\ exists addr, addr ∈ addrs /\ address_refused addr) \/
     exists r, bind s addrs fails = Ret r).
Proof.
  intros H. pose proof (server_reachable_inv _ _ _ _ H) as HI. split; [by apply si_clients|]. split.
  - intros t. by apply task_asserts.
  - intros addrs fails. apply bind_asserts.
Qed.

(** What the task of [stop] does to one socket. *)
Definition closed (c : Socket) : Socket := set_fd c (-1) false.

Lemma close_closed sock k : exists k', Socket.close sys sock k = (true, closed sock, k').
Proof.
  unfold Socket.close, closed. destruct (isConnected_ sock) eqn:E1, (Z.eqb_spec (socketfd_ sock) (-1)) as [E2|E2]; cbn; eexists; try reflexivity.
  - by rewrite E2.
  - by destruct sock; cbn in *; subst.
Qed.

Lemma stop_one_socket s i j : heap (stop_one s i) !! j =
  (if decide (j = i) then closed <$> heap s !! i else heap s !! j).
Proof.
  unfold stop_one. destruct (heap s !! i) as [sock|] eqn:E.
  - destruct (close_closed sock (k_ s)) as [k' ->]. cbn. destruct (decide (j = i)) as [->|Hne].
    + rewrite list_lookup_insert_eq; [done|]. by apply lookup_lt_Some in E.
    + by rewrite list_lookup_insert_ne.
  - by destruct (decide (j = i)) as [->|].
Qed.

Lemma stop_one_concerned s i fd :
  concerned (io_ (stop_one s i)) fd =
  (if decide (Some fd = socketfd_ <$> heap s !! i) then false else concerned (io_ s) fd).
Proof.
  unfold stop_one. destruct (heap s !! i) as [sock|] eqn:E; cbn.
  - destruct (close_closed sock (k_ s)) as [k' ->]. cbn. rewrite cancelAll_concerned.
    destruct (decide (fd = socketfd_ sock)) as [->|Hne]; [by rewrite decide_True|]. rewrite decide_False; [done|congruence].
  - by rewrite decide_False.
Qed.

Lemma stop_ones l : forall s, (forall i, i ∈ l -> (i < List.length (heap s))%nat) ->
  (forall j, heap (foldl stop_one s l) !! j = (if decide (j ∈ l) then closed <$> heap s !! j else heap s !! j)) /\
  (forall fd, concerned (io_ s) fd = false -> concerned (io_ (foldl stop_one s l)) fd = false) /\
  (forall i sock, i ∈ l -> heap s !! i = Some sock -> isVaild sock = true ->
     concerned (io_ (foldl stop_one s l)) (socketfd_ sock) = false).
Proof.
  induction l as [|i l IH]; intros s Hl; cbn [foldl].
  - split_and!; [done|done|]. by intros i sock Hi%elem_of_nil.
  - destruct (IH (stop_one s i)) as (H1 & H2 & H3).
    { intros j Hj. rewrite (proj1 (stop_one_keeps s i)). apply Hl. by right. }
    split_and!.
    + intros j. rewrite H1, stop_one_socket. destruct (decide (j = i)) as [->|Hne].
      * rewrite (decide_True (P := i ∈ i :: l)) by by left. destruct (decide (i ∈ l)); [|done]. by destruct (heap s !! i).
      * destruct (decide (j ∈ l)) as [Hj|Hj]; [rewrite decide_True by (by right); done|].
        rewrite decide_False; [done|]. intros [?|?]%elem_of_cons; done.
    + intros fd Hfd. apply H2. rewrite stop_one_concerned. by destruct (decide _).
    + intros j sock Hj Hs Hv. destruct (decide (j = i)) as [->|Hne].
      * apply H2. rewrite stop_one_concerned, Hs. by rewrite decide_True.
      * apply (H3 j sock); [by apply elem_of_cons in Hj as [?|?]| |done].
        rewrite stop_one_socket. by rewrite decide_False.
Qed.

(** The task that [stop] schedules closes every listening socket of the server
    and forgets it, and silences it in the IO manager; but it ends no other task: a
    fiber that waits in [accept] keeps waiting, since a silenced descriptor wakes
    nobody. *)
Theorem stop_closes s t s' :
  server_inv s -> accept_worker_ s !! t = Some StopAll -> task_step s t = Ret (Some s') ->
  sockets_ s' = [] /\ accept_worker_ s' = take t (accept_worker_ s) ++ drop (S t) (accept_worker_ s) /\
  forall i sock, i ∈ sockets_ s -> heap s !! i = Some sock ->
    heap s' !! i = Some (closed sock) /\
    (isVaild sock = true -> concerned (io_ s') (socketfd_ sock) = false).
Proof.
  intros [A _ _] E. unfold task_step. rewrite E. intros [= <-]. unfold stop_all.
  cbn [sockets_ clear_sockets accept_worker_ heap io_ put_task set_tasks].
  destruct (stop_ones_keep (sockets_ s) (put_task s t [])) as (_ & -> & _). split; [done|]. split; [done|].
  intros i sock Hi Hs.
  destruct (stop_ones (sockets_ s) (put_task s t [])) as (H1 & _ & H3).
  { intros j Hj. rewrite Forall_forall in A. exact (A j Hj). }
  split; [rewrite H1, decide_True by done; cbn; by rewrite Hs|]. by apply (H3 i).
Qed.

(** A server that is started again before the task of [stop] has run accepts on
    closed sockets for ever: each call fails at once, as the system refuses the
    descriptor -1, and the loop begins again without having yielded. *)
Theorem restarted_spins s t i sock :
  isStop_ s = false -> accept_worker_ s !! t = Some (AtLoop i) -> heap s !! i = Some sock ->
  isVaild sock = false -> (forall k, (sys_accept sys k (-1)).1 = -1) ->
  exists s1, task_step s t = Ret (Some s1) /\
    forall k, task_step (set_system s1 k) t = Ret (Some (set_system s (sys_accept sys k (-1)).2)).
Proof.
  intros Hst E Hs Hv Hacc. unfold isVaild in Hv. apply negb_false_iff, Z.eqb_eq in Hv.
  pose proof (lookup_lt_Some _ _ _ E) as Hlt.
  assert (forall x y : task, let l := take t (accept_worker_ s) ++ [x] ++ drop (S t) (accept_worker_ s) in
    take t l ++ [y] ++ drop (S t) l = take t (accept_worker_ s) ++ [y] ++ drop (S t) (accept_worker_ s)) as Hput.
  { intros x y l. unfold l. rewrite take_app_length' by (rewrite length_take; lia). f_equal. f_equal.
    rewrite drop_app_ge by (rewrite length_take; lia). rewrite length_take.
    replace (S t - t `min` _)%nat with 1%nat by lia. done. }
  cbv zeta in Hput.
  exists (put_task s t [InAccept i (-1)]). split; [|intros k].
  - unfold task_step. rewrite E, Hst, Hs. cbn. by rewrite Hv.
  - unfold task_step at 1. cbn [accept_worker_ set_system put_task set_tasks heap].
    rewrite lookup_app_r by (rewrite length_take; lia). rewrite length_take.
    replace (t - t `min` _)%nat with O by lia. change (([InAccept i (-1)] ++ drop (S t) (accept_worker_ s)) !! 0%nat) with (Some (InAccept i (-1))). cbv iota beta. rewrite Hs. cbn [deref obind].
    unfold Socket.accept. cbn [socketfd_ set_fd k_ set_system put_task set_tasks].
    specialize (Hacc k). destruct (sys_accept sys k (-1)) as [r k']. cbn in Hacc. subst r.
    cbn -[take drop app]. unfold set_system, put_task, set_tasks. cbn -[take drop app].
    rewrite Hput. change ([AtLoop i] ++ drop (S t) (accept_worker_ s)) with (AtLoop i :: drop (S t) (accept_worker_ s)).
    rewrite <- (split_task _ _ _ E). by rewrite Hst.
Qed.
End server.

(** ** Witnesses

    A system with one client after the other, numbered from 7. *)
Definition toy_listener : System Z := {|
  sys_socket k _ _ _ := (5, k);
  sys_bind k _ _ := (0, k);
  sys_connect k _ _ := (-1, k);
  sys_listen k _ _ := (0, k);
  sys_accept k fd := if fd =? -1 then (-1, k) else (k, k + 1);
  sys_close k _ := k;
  sys_send k _ d := (Z.of_nat (List.length d), k);
  sys_recv k _ n := (0, [], k);
  sys_setsockopt k _ _ _ _ := (0, k);
  sys_getsockopt k _ _ _ := (0, 0);
  sys_getsockname k _ a := Some (a, 0);
  sys_getpeername k _ a := Some (a, 0);
  sys_fdcontext k fd :=
    if 0 <=? fd then Some (mkFdContext true true true false false fd 0 0) else None
|}.

Definition no_io : IOState unit := mkIO ∅ 0 (-1) [] 0 [].
Definition an_address : Address := new_IPv4Address_of 0 8020.
Definition fresh_server : TcpServer Z unit := new_TcpServer 120000 7 no_io.

Lemma bind_reports_witness : exists s',
  bind toy_listener fresh_server [an_address] [] = Ret (true, [], s') /\ List.length (heap s') = 1%nat.
Proof.
  destruct (bind toy_listener fresh_server [an_address] []) as [[[ok fails'] s']|] eqn:E; [|discriminate E].
  pose proof (bind_reports toy_listener _ _ _ _ _ _ E) as ((l & Hh & Hs & Hl) & _ & Hok).
  assert (ok = true /\ fails' = []) as [-> ->] by (by injection E as <- <- <-).
  exists s'. split; [reflexivity|]. rewrite Hh, length_app, (Hl eq_refl). reflexivity.
Defined.

(** Two clients, and then the server is stopped while it waits for a third. *)
Definition until_stop : list server_label := [LBind [an_address] []; LStart; LTask 0; LTask 0; LTask 0; LTask 0; LTask 0; LStop].
Definition stopped_server : TcpServer Z unit :=
  match do_labels toy_listener fresh_server until_stop with Some s => s | None => fresh_server end.

Lemma clients_connected_witness :
  List.length (worker_ stopped_server) = 2%nat /\ Forall client_ok (worker_ stopped_server) /\
  forall t, exists r, task_step toy_listener stopped_server t = Ret r.
Proof.
  destruct (clients_connected toy_listener 120000 7 no_io stopped_server) as (H1 & H2 & _).
  - apply (do_labels_steps toy_listener _ until_stop). vm_compute. reflexivity.
  - split; [reflexivity|]. split; [exact H1|]. intros t.
    destruct (H2 t) as [[_ (i & fd & sock & Ht & Hs & Hne & [(k & l & o & v & Hr)|(Hf & _)])]|H]; [exfalso..|exact H].
    + apply Hr. reflexivity.
    + assert (forallb (fun c => family_ c =? AF_INET) (heap stopped_server) = true) as Ha by (vm_compute; reflexivity).
      rewrite forallb_forall in Ha. apply Hf, Z.eqb_eq, (Ha sock), list_elem_of_In. by eapply list_elem_of_lookup_2.
Defined.

(** The third client comes, and the tasks end. *)
Definition ended_server : TcpServer Z unit :=
  match do_labels toy_listener stopped_server [LTask 1; LTask 0; LTask 0] with Some s => s | None => fresh_server end.

Lemma stop_winds_down_witness :
  (List.length (worker_ ended_server) <= List.length (worker_ stopped_server) + accepting (accept_worker_ stopped_server))%nat /\
  (forall t s'', task_step toy_listener ended_server t = Ret (Some s'') -> (tasks_left s'' < tasks_left ended_server)%nat) /\
  (forall t, task_step toy_listener ended_server t = Ret None -> accept_worker_ ended_server !! t = None).
Proof.
  apply stop_winds_down; [reflexivity|].
  apply (do_labels_stopping toy_listener _ [LTask 1; LTask 0; LTask 0]); vm_compute; reflexivity.
Defined.

Lemma stop_closes_witness : exists s',
  task_step toy_listener stopped_server 1 = Ret (Some s') /\ sockets_ s' = [] /\
  accept_worker_ s' = [InAccept 0 5].
Proof.
  destruct (task_step toy_listener stopped_server 1) as [[s'|]|] eqn:E; [|discriminate E..].
  assert (server_inv stopped_server) as HI.
  { apply (server_reachable_inv toy_listener 120000 7 no_io), (do_labels_steps toy_listener _ until_stop). vm_compute. reflexivity. }
  destruct (stop_closes toy_listener stopped_server 1 s' HI eq_refl E) as (H1 & H2 & _).
  exists s'. split; [reflexivity|]. split; [exact H1|]. rewrite H2. reflexivity.
Defined.

(** Stopped and started before the task of [stop] runs. *)
Definition restarted_server : TcpServer Z unit :=
  match do_labels toy_listener fresh_server [LBind [an_address] []; LStart; LStop; LStart; LTask 1] with
  | Some s => s | None => fresh_server end.

Lemma restarted_spins_witness :
  exists s1, task_step toy_listener restarted_server 0 = Ret (Some s1) /\
    forall k, task_step toy_listener (set_system s1 k) 0 = Ret (Some (set_system restarted_server k)).
Proof.
  exact (restarted_spins toy_listener restarted_server 0 0 _ eq_refl eq_refl eq_refl eq_refl (fun _ => eq_refl)).
Defined.
