(* ===== verification/EventLoop.v ===== *)
(** * Channels, the epoll poller and the event loop (src/qslary/net/Channel.h,
      Channel.cc, Poller.h, Poller.cc, EventLoop.h, EventLoop.cc,
      src/qslary/poller/Epoller.h, Epoller.cc)

    The loop owns a poller; channels are named by where they are, and the poller
    keeps which of them has a descriptor. The calls of [epoll_ctl] are recorded. *)
From stdpp Require Import base list gmap strings.
From Stdlib Require Import ZArith Lia String.
From S2P Require Import Prelude CLib.
Open Scope Z_scope.

Definition POLLIN : Z := 1.
Definition POLLPRI : Z := 2.
Definition POLLOUT : Z := 4.
Definition POLLERR : Z := 8.
Definition POLLHUP : Z := 16.
Definition POLLNVAL : Z := 32.
Definition POLLRDHUP : Z := 8192.

Definition kNoneEvent : Z := 0.
Definition kReadEvent : Z := Z.lor POLLIN POLLPRI.
Definition kWriteEvent : Z := POLLOUT.

(** The states of a channel in the poller *)
Definition kNew : Z := -1.
Definition kAdded : Z := 1.
Definition kDeleted : Z := 2.

Inductive epoll_op : Set := EPOLL_CTL_ADD | EPOLL_CTL_MOD | EPOLL_CTL_DEL.

(** [EPollPoller::operationToString] *)
Definition operationToString (op : epoll_op) : string :=
  match op with EPOLL_CTL_ADD => "ADD" | EPOLL_CTL_DEL => "DEL" | EPOLL_CTL_MOD => "MOD" end%string.

Definition has (ev mask : Z) : bool := negb (Z.land ev mask =? 0).

(** [Channel::eventsToString] *)
Definition eventsToString (fd ev : Z) : string :=
  (decimal fd ++ ": " ++
   (if has ev POLLIN then "IN " else "") ++ (if has ev POLLPRI then "PRI " else "") ++
   (if has ev POLLOUT then "OUT " else "") ++ (if has ev POLLHUP then "HUP " else "") ++
   (if has ev POLLRDHUP then "RDHUP " else "") ++ (if has ev POLLERR then "ERR " else "") ++
   (if has ev POLLNVAL then "NVAL " else ""))%string.

Example eventsToString_example : eventsToString 7 (Z.lor kReadEvent POLLHUP) = "7: IN PRI HUP "%string.
Proof. reflexivity. Qed.

Section loop.
Context {Cb F : Type}.

Record Channel : Type := mkChannel {
  fd_ : Z;
  events_ : Z;
  revents_ : Z;
  index_ : Z;
  tied_ : option nat;                                 (** the object it is tied to *)
  ch_eventHandling_ : bool;
  addedToLoop_ : bool;
  readCallback_ : option Cb;
  writeCallback_ : option Cb;
  closeCallback_ : option Cb;
  errorCallback_ : option Cb
}.

Record EPollPoller : Type := mkPoller {
  channels_ : gmap Z nat;
  ctl_calls : list (epoll_op * Z * Z * nat);          (** operation, descriptor, events, pointer *)
  events_size : Z
}.

(** [mutex_] and the flags that only other threads read are left out; so is the
    queue of timers. *)
Record EventLoop : Type := mkLoop {
  heap : gmap nat Channel;
  poller_ : EPollPoller;
  looping_ : bool;
  quit_ : bool;
  eventHandling_ : bool;
  callingPendingFunctors_ : bool;
  iteration_ : Z;
  activeChannels_ : list nat;
  currentActiveChannel_ : option nat;
  pendingFunctors_ : list F
}.
Implicit Types (e : EventLoop) (c : Channel) (id : nat).

Definition set_heap e (h : gmap nat Channel) : EventLoop :=
  mkLoop h (poller_ e) (looping_ e) (quit_ e) (eventHandling_ e) (callingPendingFunctors_ e) (iteration_ e)
    (activeChannels_ e) (currentActiveChannel_ e) (pendingFunctors_ e).
Definition set_poller e (p : EPollPoller) : EventLoop :=
  mkLoop (heap e) p (looping_ e) (quit_ e) (eventHandling_ e) (callingPendingFunctors_ e) (iteration_ e)
    (activeChannels_ e) (currentActiveChannel_ e) (pendingFunctors_ e).

Definition set_index c (idx : Z) : Channel :=
  mkChannel (fd_ c) (events_ c) (revents_ c) idx (tied_ c) (ch_eventHandling_ c) (addedToLoop_ c)
    (readCallback_ c) (writeCallback_ c) (closeCallback_ c) (errorCallback_ c).
Definition set_revents c (revt : Z) : Channel :=
  mkChannel (fd_ c) (events_ c) revt (index_ c) (tied_ c) (ch_eventHandling_ c) (addedToLoop_ c)
    (readCallback_ c) (writeCallback_ c) (closeCallback_ c) (errorCallback_ c).
(** What [enableReading] and the like do before [update], and [update] itself *)
Definition set_events c (ev : Z) (added : bool) : Channel :=
  mkChannel (fd_ c) ev (revents_ c) (index_ c) (tied_ c) (ch_eventHandling_ c) added
    (readCallback_ c) (writeCallback_ c) (closeCallback_ c) (errorCallback_ c).
Definition set_handling c (b : bool) : Channel :=
  mkChannel (fd_ c) (events_ c) (revents_ c) (index_ c) (tied_ c) b (addedToLoop_ c)
    (readCallback_ c) (writeCallback_ c) (closeCallback_ c) (errorCallback_ c).
Definition isNoneEvent c : bool := events_ c =? kNoneEvent.
Definition isWriting c : bool := has (events_ c) kWriteEvent.
Definition isReading c : bool := has (events_ c) kReadEvent.

(** [Channel::Channel] *)
Definition new_Channel (fd : Z) : Channel := mkChannel fd 0 0 kNew None false false None None None None.

(** ** The poller *)

(** [EPollPoller::update] *)
Definition update (p : EPollPoller) (operation : epoll_op) id c : EPollPoller :=
  mkPoller (channels_ p) (ctl_calls p ++ [(operation, fd_ c, events_ c, id)]) (events_size p).

(** [find(fd) != end() && channels_[fd] == channel] *)
Definition registered (p : EPollPoller) id c : bool := bool_decide (channels_ p !! fd_ c = Some id).

(** [EPollPoller::updateChannel] *)
Definition updateChannel e id : outcome EventLoop :=
  let! c := deref (heap e !! id) in
  let p := poller_ e in
  if (index_ c =? kNew) || (index_ c =? kDeleted) then
    let! p :=
      (if index_ c =? kNew then
         let! _ := cassert (bool_decide (channels_ p !! fd_ c = None)) in
         Ret (mkPoller (<[fd_ c := id]> (channels_ p)) (ctl_calls p) (events_size p))
       else let! _ := cassert (registered p id c) in Ret p) in
    let c := set_index c kAdded in
    Ret (set_poller (set_heap e (<[id := c]> (heap e))) (update p EPOLL_CTL_ADD id c))
  else
    let! _ := cassert (registered p id c) in
    let! _ := cassert (index_ c =? kAdded) in
    if isNoneEvent c then
      Ret (set_poller (set_heap e (<[id := set_index c kDeleted]> (heap e))) (update p EPOLL_CTL_DEL id c))
    else Ret (set_poller e (update p EPOLL_CTL_MOD id c)).

(** [EPollPoller::removeChannel] *)
Definition poller_removeChannel e id : outcome EventLoop :=
  let! c := deref (heap e !! id) in
  let p := poller_ e in
  let! _ := cassert (registered p id c) in
  let! _ := cassert (isNoneEvent c) in
  let! _ := cassert ((index_ c =? kAdded) || (index_ c =? kDeleted)) in
  let p := mkPoller (delete (fd_ c) (channels_ p)) (ctl_calls p) (events_size p) in
  let p := if index_ c =? kAdded then update p EPOLL_CTL_DEL id c else p in
  Ret (set_poller (set_heap e (<[id := set_index c kNew]> (heap e))) p).

(** [Poller::hasChannel] *)
Definition hasChannel e id : bool :=
  match heap e !! id with Some c => registered (poller_ e) id c | None => false end.

(** [EPollPoller::fillActiveChannels]: the events and pointers that epoll_wait gave *)
Fixpoint fillActiveChannels e (l : list (Z * nat)) : outcome EventLoop :=
  match l with
  | [] => Ret e
  | (ev, id) :: l =>
      let! c := deref (heap e !! id) in
      let! _ := cassert (registered (poller_ e) id c) in
      let e := set_heap e (<[id := set_revents c ev]> (heap e)) in
      fillActiveChannels
        (mkLoop (heap e) (poller_ e) (looping_ e) (quit_ e) (eventHandling_ e) (callingPendingFunctors_ e) (iteration_ e)
           (activeChannels_ e ++ [id]) (currentActiveChannel_ e) (pendingFunctors_ e)) l
  end.

(** [EPollPoller::poll] with what epoll_wait gives, nothing when it fails *)
Definition poll e (l : list (Z * nat)) : outcome EventLoop :=
  match l with
  | [] => Ret e
  | _ =>
      let n := Z.of_nat (List.length l) in
      let! _ := cassert (n <=? events_size (poller_ e)) in
      let! e := fillActiveChannels e l in
      let p := poller_ e in
      Ret (if n =? events_size p then set_poller e (mkPoller (channels_ p) (ctl_calls p) (events_size p * 2)) else e)
  end.

(** ** Channels *)

(** [enableReading] and the like: new events, and [Channel::update] *)
Inductive interest : Set := EnableReading | DisableReading | EnableWriting | DisableWriting | DisableAll.
Definition new_events (i : interest) (ev : Z) : Z :=
  match i with
  | EnableReading => Z.lor ev kReadEvent
  | DisableReading => Z.land ev (Z.lnot kReadEvent)
  | EnableWriting => Z.lor ev kWriteEvent
  | DisableWriting => Z.land ev (Z.lnot kWriteEvent)
  | DisableAll => kNoneEvent
  end.
Definition change_interest e id (i : interest) : outcome EventLoop :=
  let! c := deref (heap e !! id) in
  updateChannel (set_heap e (<[id := set_events c (new_events i (events_ c)) true]> (heap e))) id.

(** [Channel::remove] and [EventLoop::removeChannel] *)
Definition remove e id : outcome EventLoop :=
  let! c := deref (heap e !! id) in
  let! _ := cassert (isNoneEvent c) in
  let e := set_heap e (<[id := set_events c (events_ c) false]> (heap e)) in
  let! _ := cassert (negb (eventHandling_ e) ||
                     bool_decide (currentActiveChannel_ e = Some id \/ id ∉ activeChannels_ e)) in
  poller_removeChannel e id.

(** A new channel, and [Channel::~Channel] in the thread of the loop *)
Definition create e id (fd : Z) : outcome EventLoop :=
  match heap e !! id with
  | None => Ret (set_heap e (<[id := new_Channel fd]> (heap e)))
  | Some _ => Fault Undefined
  end.
Definition delete_Channel e id : outcome EventLoop :=
  let! c := deref (heap e !! id) in
  let! _ := cassert (negb (ch_eventHandling_ c)) in
  let! _ := cassert (negb (addedToLoop_ c)) in
  let! _ := cassert (negb (hasChannel e id)) in
  Ret (set_heap e (delete id (heap e))).

(** The setters of the callbacks, and [tie] *)
Inductive setter : Type := Read (cb : Cb) | Write (cb : Cb) | Close (cb : Cb) | Error (cb : Cb) | Tie (o : nat).
Definition set_member c (m : setter) : Channel :=
  let new := mkChannel (fd_ c) (events_ c) (revents_ c) (index_ c) in
  match m with
  | Read cb => new (tied_ c) (ch_eventHandling_ c) (addedToLoop_ c) (Some cb) (writeCallback_ c) (closeCallback_ c) (errorCallback_ c)
  | Write cb => new (tied_ c) (ch_eventHandling_ c) (addedToLoop_ c) (readCallback_ c) (Some cb) (closeCallback_ c) (errorCallback_ c)
  | Close cb => new (tied_ c) (ch_eventHandling_ c) (addedToLoop_ c) (readCallback_ c) (writeCallback_ c) (Some cb) (errorCallback_ c)
  | Error cb => new (tied_ c) (ch_eventHandling_ c) (addedToLoop_ c) (readCallback_ c) (writeCallback_ c) (closeCallback_ c) (Some cb)
  | Tie o => new (Some o) (ch_eventHandling_ c) (addedToLoop_ c) (readCallback_ c) (writeCallback_ c) (closeCallback_ c) (errorCallback_ c)
  end.
Definition set_channel e id (m : setter) : outcome EventLoop :=
  let! c := deref (heap e !! id) in Ret (set_heap e (<[id := set_member c m]> (heap e))).

(** [wakeup], whose body is commented out, does nothing. *)
Definition queueInLoop e (cb : F) : EventLoop :=
  mkLoop (heap e) (poller_ e) (looping_ e) (quit_ e) (eventHandling_ e) (callingPendingFunctors_ e) (iteration_ e)
    (activeChannels_ e) (currentActiveChannel_ e) (pendingFunctors_ e ++ [cb]).
Definition queueSize e : nat := List.length (pendingFunctors_ e).
Definition quit e : EventLoop :=
  mkLoop (heap e) (poller_ e) (looping_ e) true (eventHandling_ e) (callingPendingFunctors_ e) (iteration_ e)
    (activeChannels_ e) (currentActiveChannel_ e) (pendingFunctors_ e).

(** What a program may do to a loop and its channels *)
Inductive loop_op : Type :=
| Create id (fd : Z)
| Interest id (i : interest)
| Remove id
| Delete id
| Set_channel id (m : setter)
| QueueInLoop (cb : F)
| Quit.
Definition do_op e (o : loop_op) : outcome EventLoop :=
  match o with
  | Create id fd => create e id fd
  | Interest id i => change_interest e id i
  | Remove id => remove e id
  | Delete id => delete_Channel e id
  | Set_channel id m => set_channel e id m
  | QueueInLoop cb => Ret (queueInLoop e cb)
  | Quit => Ret (quit e)
  end.
Fixpoint do_ops e (l : list loop_op) : outcome EventLoop :=
  match l with
  | [] => Ret e
  | o :: l => let! e := do_op e o in do_ops e l
  end.

(** ** Making and deleting a loop

    [id] is where the channel of the descriptor [wakeupFd_] is. *)
Definition kInitEventListSize : Z := 16.
Definition empty_loop : EventLoop :=
  mkLoop ∅ (mkPoller ∅ [] kInitEventListSize) false false false false 0 [] None [].
Definition new_EventLoop id (wakeupFd : Z) (handleRead : Cb) : outcome EventLoop :=
  do_ops empty_loop [Create id wakeupFd; Set_channel id (Read handleRead); Interest id EnableReading].
Definition delete_EventLoop e id : outcome EventLoop :=
  do_ops e [Interest id DisableAll; Remove id; Delete id].

(** ** Events

    What a callback does to the loop, whether an object is still there, and what a
    functor does and how its fiber ends are parameters. *)
Inductive fiber_end : Set := TERM | EXCEPTION | READY | HOLD.
Context (call : Cb -> EventLoop -> outcome EventLoop) (alive : nat -> EventLoop -> bool).
Context (swapIn : F -> EventLoop -> outcome (fiber_end * EventLoop)).

(** One of the branches of [handleEventWithGuard]; the channel is read again, as a
    callback may have changed it or deleted it. *)
Definition branch e id (test : Z -> bool) (cb : Channel -> option Cb) : outcome EventLoop :=
  let! c := deref (heap e !! id) in
  if test (revents_ c) then match cb c with Some f => call f e | None => Ret e end else Ret e.

Definition handleEventWithGuard e id : outcome EventLoop :=
  let! c := deref (heap e !! id) in
  let e := set_heap e (<[id := set_handling c true]> (heap e)) in
  let! e := branch e id (fun r => has r POLLHUP && negb (has r POLLIN)) closeCallback_ in
  let! e := branch e id (fun r => has r (Z.lor POLLERR POLLNVAL)) errorCallback_ in
  let! e := branch e id (fun r => has r (Z.lor (Z.lor POLLIN POLLPRI) POLLRDHUP)) readCallback_ in
  let! e := branch e id (fun r => has r POLLOUT) writeCallback_ in
  let! c := deref (heap e !! id) in
  Ret (set_heap e (<[id := set_handling c false]> (heap e))).

Definition handleEvent e id : outcome EventLoop :=
  let! c := deref (heap e !! id) in
  match tied_ c with
  | Some o => if alive o e then handleEventWithGuard e id else Ret e
  | None => handleEventWithGuard e id
  end.

(** ** The loop *)

(** [runInLoop], in the thread of the loop or in another *)
Definition runInLoop (run_now : F -> EventLoop -> outcome EventLoop) (isInLoopThread : bool) e (cb : F) : outcome EventLoop :=
  if isInLoopThread then run_now cb e else Ret (queueInLoop e cb).

Definition set_calling e (b : bool) (l : list F) : EventLoop :=
  mkLoop (heap e) (poller_ e) (looping_ e) (quit_ e) (eventHandling_ e) b (iteration_ e)
    (activeChannels_ e) (currentActiveChannel_ e) l.

(** The loop of [doPendingFunctors]: [reset] refuses a fiber that has not ended. *)
Fixpoint run_functors e (l : list F) : outcome EventLoop :=
  match l with
  | [] => Ret e
  | f :: l =>
      let! r := swapIn f e in
      let e := match r.1 with READY => queueInLoop r.2 f | _ => r.2 end in
      let! _ := cassert (match r.1 with TERM | EXCEPTION => true | _ => false end) in
      run_functors (set_calling e false (pendingFunctors_ e)) l
  end.
Definition doPendingFunctors e : outcome EventLoop :=
  run_functors (set_calling e true []) (pendingFunctors_ e).

Definition set_current e (b : bool) (cur : option nat) : EventLoop :=
  mkLoop (heap e) (poller_ e) (looping_ e) (quit_ e) b (callingPendingFunctors_ e) (iteration_ e)
    (activeChannels_ e) cur (pendingFunctors_ e).
Fixpoint handle_all e (l : list nat) : outcome EventLoop :=
  match l with
  | [] => Ret e
  | id :: l => let! e := handleEvent (set_current e (eventHandling_ e) (Some id)) id in handle_all e l
  end.

(** A turn of [loop] *)
Definition loop_turn e (l : list (Z * nat)) : outcome EventLoop :=
  let e := mkLoop (heap e) (poller_ e) (looping_ e) (quit_ e) (eventHandling_ e) (callingPendingFunctors_ e) (iteration_ e)
             [] (currentActiveChannel_ e) (pendingFunctors_ e) in
  let! e := poll e l in
  let e := mkLoop (heap e) (poller_ e) (looping_ e) (quit_ e) true (callingPendingFunctors_ e) (iteration_ e + 1)
             (activeChannels_ e) (currentActiveChannel_ e) (pendingFunctors_ e) in
  let! e := handle_all e (activeChannels_ e) in
  doPendingFunctors (set_current e false None).

(** [loop], with what each call of epoll_wait gives: whether it ended before they
    were used up. *)
Fixpoint loop_while e (polls : list (list (Z * nat))) : outcome (bool * EventLoop) :=
  if quit_ e then
    Ret (true, mkLoop (heap e) (poller_ e) false (quit_ e) (eventHandling_ e) (callingPendingFunctors_ e) (iteration_ e)
                 (activeChannels_ e) (currentActiveChannel_ e) (pendingFunctors_ e))
  else
    match polls with
    | [] => Ret (false, e)
    | l :: polls => let! e := loop_turn e l in loop_while e polls
    end.
Definition loop e (polls : list (list (Z * nat))) : outcome (bool * EventLoop) :=
  let! _ := cassert (negb (looping_ e)) in
  loop_while (mkLoop (heap e) (poller_ e) true false (eventHandling_ e) (callingPendingFunctors_ e) (iteration_ e)
                (activeChannels_ e) (currentActiveChannel_ e) (pendingFunctors_ e)) polls.
End loop.
Arguments Channel : clear implicits.
Arguments EventLoop : clear implicits.
Arguments loop_op : clear implicits.
