(* ===== verification/EventLoopCorrect.v ===== *)
(** * Channels and the epoll instance: what holds

    [epoll_ctl] is the system's, so the calls the poller makes are given the
    meaning that the manual page of epoll_ctl describes, and the epoll instance
    they leave is compared with the channels. *)
From stdpp Require Import base list gmap relations.
From Stdlib Require Import ZArith Lia.
From S2P Require Import Prelude CLib.
From S2P Require Import EventLoop.
Open Scope Z_scope.

(** The interest list of an epoll instance: the events and the pointer that are
    registered for a descriptor. An addition of one that is there and a change or
    removal of one that is not there fail. *)
Definition epoll_ctl (k : gmap Z (Z * nat)) (call : epoll_op * Z * Z * nat) : option (gmap Z (Z * nat)) :=
  let '(op, fd, ev, p) := call in
  match op, k !! fd with
  | EPOLL_CTL_ADD, None | EPOLL_CTL_MOD, Some _ => Some (<[fd := (ev, p)]> k)
  | EPOLL_CTL_DEL, Some _ => Some (delete fd k)
  | _, _ => None
  end.
Definition kernel (calls : list (epoll_op * Z * Z * nat)) : option (gmap Z (Z * nat)) :=
  foldl (fun k call => match k with Some k => epoll_ctl k call | None => None end) (Some ∅) calls.

Lemma kernel_snoc calls call k : kernel calls = Some k -> kernel (calls ++ [call]) = epoll_ctl k call.
Proof. intros H. unfold kernel in *. by rewrite foldl_app, H. Qed.

Section correct.
Context {Cb F : Type}.
Implicit Types (e : EventLoop Cb F) (c : Channel Cb) (id : nat).

(** What the index of a channel says of its members *)
Definition channel_ok c : Prop :=
  (index_ c = kNew /\ events_ c = 0 /\ addedToLoop_ c = false) \/
  (index_ c = kAdded /\ addedToLoop_ c = true) \/
  (index_ c = kDeleted /\ events_ c = 0 /\ addedToLoop_ c = true).

(** The map of the poller has the channels that are not new; the epoll instance
    those that are added, with the events they are interested in. *)
Record wf e : Prop := {
  wf_channel id c : heap e !! id = Some c -> channel_ok c;
  wf_channels fd id : channels_ (poller_ e) !! fd = Some id <->
    exists c, heap e !! id = Some c /\ fd_ c = fd /\ index_ c <> kNew;
  wf_kernel : exists k, kernel (ctl_calls (poller_ e)) = Some k /\
    forall fd ev id, k !! fd = Some (ev, id) <->
      exists c, heap e !! id = Some c /\ fd_ c = fd /\ index_ c = kAdded /\ events_ c = ev
}.

Lemma kinds : kNew <> kAdded /\ kNew <> kDeleted /\ kAdded <> kDeleted.
Proof. done. Qed.

Lemma channel_ok_none c : channel_ok c -> index_ c <> kAdded -> events_ c = 0.
Proof. intros [(_ & H & _)|[(? & _)|(_ & H & _)]] ?; done. Qed.

(** A change of the channel [id] from [c] to [c'], with the map of the poller and
    the epoll instance that go with it *)
Section change.
Context (e : EventLoop Cb F) (id : nat) (c c' : Channel Cb).
Hypothesis (Hwf : wf e) (Hid : heap e !! id = Some c) (Hfd : fd_ c' = fd_ c).
Hypothesis Hnew : index_ c = kNew -> index_ c' = kNew \/ channels_ (poller_ e) !! fd_ c = None.

Definition changed_channels : gmap Z nat :=
  if decide (index_ c' = kNew)
  then if decide (index_ c = kNew) then channels_ (poller_ e) else delete (fd_ c) (channels_ (poller_ e))
  else <[fd_ c := id]> (channels_ (poller_ e)).
Definition changed_kernel (k : gmap Z (Z * nat)) : gmap Z (Z * nat) :=
  if decide (index_ c' = kAdded) then <[fd_ c := (events_ c', id)]> k
  else if decide (index_ c = kAdded) then delete (fd_ c) k else k.

(** Another channel of the descriptor is registered only while this one is not. *)
Lemma change_alone j d :
  heap e !! j = Some d -> fd_ d = fd_ c -> j <> id -> index_ d <> kNew -> index_ c = kNew /\ index_ c' = kNew.
Proof using All.
  intros Hj Hf Hne Hd. assert (channels_ (poller_ e) !! fd_ c = Some j) as Hj' by (apply (wf_channels e Hwf); eauto).
  destruct (decide (index_ c = kNew)) as [E|E]; [split; [done|]|].
  - destruct (Hnew E); [done|congruence].
  - assert (channels_ (poller_ e) !! fd_ c = Some id) by (apply (wf_channels e Hwf); eauto). congruence.
Qed.

Lemma change_channels fd j :
  changed_channels !! fd = Some j <->
  exists d, <[id := c']> (heap e) !! j = Some d /\ fd_ d = fd /\ index_ d <> kNew.
Proof using All.
  unfold changed_channels. pose proof (wf_channels e Hwf) as Hch. split.
  - intros H. destruct (decide (index_ c' = kNew)) as [E'|E'].
    + assert (channels_ (poller_ e) !! fd = Some j /\ (index_ c <> kNew -> fd <> fd_ c)) as (H' & Hf).
      { destruct (decide (index_ c = kNew)); [done|]. apply lookup_delete_Some in H as [? ?]. done. }
      apply Hch in H' as (d & Hj & Hd & Hi). exists d. split; [|done].
      destruct (decide (j = id)) as [->|Hne]; [|by rewrite lookup_insert_ne].
      assert (d = c) as -> by congruence. by destruct (Hf Hi).
    + destruct (decide (fd = fd_ c)) as [->|Hf].
      * rewrite lookup_insert_eq in H. injection H as <-. exists c'. rewrite lookup_insert_eq. done.
      * rewrite lookup_insert_ne in H by done. apply Hch in H as (d & Hj & Hd & Hi). exists d. split; [|done].
        rewrite lookup_insert_ne; [done|]. intros ->. congruence.
  - intros (d & Hj & Hd & Hi). destruct (decide (j = id)) as [->|Hne].
    + rewrite lookup_insert_eq in Hj. injection Hj as ->. rewrite decide_False by done.
      rewrite <- Hd, Hfd. apply lookup_insert_eq.
    + rewrite lookup_insert_ne in Hj by done.
      assert (channels_ (poller_ e) !! fd = Some j) as Hj' by (apply Hch; eauto).
      destruct (decide (fd = fd_ c)) as [->|Hf].
      * destruct (change_alone j d Hj Hd Hne Hi) as [E E']. by rewrite !decide_True.
      * repeat case_decide; first [done|by rewrite lookup_delete_ne|by rewrite lookup_insert_ne].
Qed.

(** [k] agrees with the channels. *)
Definition agrees (h : gmap nat (Channel Cb)) (k : gmap Z (Z * nat)) : Prop :=
  forall fd ev id, k !! fd = Some (ev, id) <->
    exists c, h !! id = Some c /\ fd_ c = fd /\ index_ c = kAdded /\ events_ c = ev.

Lemma change_kernel_at k ev j :
  agrees (heap e) k ->
  changed_kernel k !! fd_ c = Some (ev, j) <->
  exists d, <[id := c']> (heap e) !! j = Some d /\ fd_ d = fd_ c /\ index_ d = kAdded /\ events_ d = ev.
Proof using All.
  intros Hint. unfold changed_kernel. destruct kinds as (K1 & K2 & K3).
  destruct (decide (index_ c' = kAdded)) as [E'|E'].
  - rewrite lookup_insert_eq. split.
    + intros [= <- <-]. exists c'. by rewrite lookup_insert_eq.
    + intros (d & Hj & Hd & Hi & He). destruct (decide (j = id)) as [->|Hne].
      * rewrite lookup_insert_eq in Hj. injection Hj as ->. by subst.
      * rewrite lookup_insert_ne in Hj by done. destruct (change_alone j d Hj Hd Hne) as [_ ?]; congruence.
  - split.
    + intros H. assert (k !! fd_ c = Some (ev, j) /\ index_ c <> kAdded) as [H' E].
      { case_decide; [by rewrite lookup_delete_eq in H|done]. }
      apply Hint in H' as (d & Hj & Hd & Hi & He). exists d. rewrite lookup_insert_ne; [done|]. intros ->. congruence.
    + intros (d & Hj & Hd & Hi & He). destruct (decide (j = id)) as [->|Hne].
      * rewrite lookup_insert_eq in Hj. injection Hj as ->. done.
      * rewrite lookup_insert_ne in Hj by done. destruct (change_alone j d Hj Hd Hne) as [E _]; [congruence|].
        rewrite decide_False by congruence. apply Hint. eauto.
Qed.

Lemma change_kernel k : agrees (heap e) k -> agrees (<[id := c']> (heap e)) (changed_kernel k).
Proof using All.
  intros Hint fd ev j. destruct (decide (fd = fd_ c)) as [->|Hf]; [by apply change_kernel_at|].
  assert (changed_kernel k !! fd = k !! fd) as ->.
  { unfold changed_kernel. repeat case_decide; first [by rewrite lookup_insert_ne|by rewrite lookup_delete_ne|done]. }
  rewrite (Hint fd ev j). split; intros (d & Hj & Hd & ?); exists d; (split; [|done]).
  - rewrite lookup_insert_ne; [done|]. intros ->. congruence.
  - rewrite lookup_insert_ne in Hj; [done|]. intros ->. rewrite lookup_insert_eq in Hj. congruence.
Qed.

Lemma wf_change (chans : gmap Z nat) calls n :
  channel_ok c' -> chans = changed_channels ->
  (forall k, kernel (ctl_calls (poller_ e)) = Some k ->
    (index_ c = kAdded -> k !! fd_ c = Some (events_ c, id)) ->
    (index_ c' <> kNew -> index_ c <> kAdded -> k !! fd_ c = None) ->
    kernel calls = Some (changed_kernel k)) ->
  wf (set_poller (set_heap e (<[id := c']> (heap e))) (mkPoller chans calls n)).
Proof using All.
  intros Hc' -> Hcalls. destruct (wf_kernel e Hwf) as (k & Hk & Hint). destruct kinds as (K1 & K2 & K3).
  split; cbn.
  - intros j d. destruct (decide (j = id)) as [->|Hne].
    + rewrite lookup_insert_eq. by intros [= <-].
    + rewrite lookup_insert_ne by done. apply (wf_channel e Hwf).
  - apply change_channels.
  - exists (changed_kernel k). split; [|by apply change_kernel].
    apply Hcalls; [done|intros E; apply Hint; eauto|].
    intros E' E. destruct (k !! fd_ c) as [[ev j]|] eqn:Ekj; [|done]. apply Hint in Ekj as (d & Hj & Hd & Hi & He).
    destruct (decide (j = id)) as [->|Hne]; [congruence|].
    destruct (change_alone j d Hj Hd Hne) as [_ ?]; [congruence|done].
Qed.
End change.

(** A change that the poller does not see, also of other members of the loop *)
Definition same_registration c c' : Prop :=
  fd_ c' = fd_ c /\ index_ c' = index_ c /\ events_ c' = events_ c /\ addedToLoop_ c' = addedToLoop_ c.

Lemma wf_unseen e e' id c c' :
  wf e -> heap e !! id = Some c -> same_registration c c' ->
  heap e' = <[id := c']> (heap e) -> channels_ (poller_ e') = channels_ (poller_ e) ->
  ctl_calls (poller_ e') = ctl_calls (poller_ e) -> wf e'.
Proof.
  intros Hwf Hid (Hf & Hi & He & Ha) Hh Hc Hl.
  assert (wf (set_poller (set_heap e (<[id := c']> (heap e)))
    (mkPoller (channels_ (poller_ e)) (ctl_calls (poller_ e)) 0))) as H.
  { apply (wf_change e id c c' Hwf Hid Hf).
    - rewrite Hi. by left.
    - pose proof (wf_channel e Hwf id c Hid) as H. unfold channel_ok in *. by rewrite Hi, He, Ha.
    - unfold changed_channels. rewrite Hi. case_decide; [done|].
      symmetry. apply insert_id, (wf_channels e Hwf). eauto.
    - intros k Hk Hin _. rewrite Hk. f_equal. unfold changed_kernel. rewrite Hi. case_decide; [|done].
      symmetry. apply insert_id. rewrite He. by apply Hin. }
  destruct H as [H1 H2 H3]. split; rewrite Hh, ?Hc, ?Hl; done.
Qed.

Lemma wf_eq e e' :
  wf e -> heap e' = heap e -> channels_ (poller_ e') = channels_ (poller_ e) ->
  ctl_calls (poller_ e') = ctl_calls (poller_ e) -> wf e'.
Proof. intros [H1 H2 H3] Hh Hc Hl. split; rewrite Hh, ?Hc, ?Hl; done. Qed.

(** ** The operations *)

Lemma registered_iff e id c : wf e -> heap e !! id = Some c -> registered (poller_ e) id c = true <-> index_ c <> kNew.
Proof.
  intros Hwf Hid. unfold registered. rewrite bool_decide_eq_true, (wf_channels e Hwf). split; [|eauto].
  intros (d & Hd & _ & ?). congruence.
Qed.

(** What [enableReading] and the like do: one call of epoll_ctl, unless another
    channel has the descriptor *)
Definition interest_call c (ev : Z) : epoll_op :=
  if index_ c =? kAdded then if ev =? kNoneEvent then EPOLL_CTL_DEL else EPOLL_CTL_MOD else EPOLL_CTL_ADD.
Definition interest_channel c (ev : Z) : Channel Cb :=
  set_index (set_events c ev true) (if (index_ c =? kAdded) && (ev =? kNoneEvent) then kDeleted else kAdded).
Definition interest_loop e id c (ev : Z) : EventLoop Cb F :=
  set_poller (set_heap e (<[id := interest_channel c ev]> (heap e)))
    (mkPoller (<[fd_ c := id]> (channels_ (poller_ e)))
       (ctl_calls (poller_ e) ++ [(interest_call c ev, fd_ c, ev, id)]) (events_size (poller_ e))).

Lemma change_interest_eq e id c i :
  wf e -> heap e !! id = Some c ->
  change_interest e id i =
    if decide (index_ c = kNew /\ channels_ (poller_ e) !! fd_ c <> None) then Fault AssertFailed
    else Ret (interest_loop e id c (new_events i (events_ c))).
Proof.
  intros Hwf Hid. unfold change_interest. rewrite Hid. cbn [deref obind]. set (ev := new_events i (events_ c)).
  pose proof (registered_iff e id c Hwf Hid) as Hr. pose proof (wf_channel e Hwf id c Hid) as Hok.
  unfold updateChannel, interest_loop, interest_call, interest_channel. cbn [heap set_heap]. rewrite lookup_insert_eq.
  cbn [deref obind poller_ set_heap index_ fd_ set_events]. unfold registered in *. cbn [fd_ set_events].
  unfold cassert. destruct Hok as [(Hi & _)|[(Hi & _)|(Hi & _)]]; rewrite Hi in Hr |- *.
  - cbn [kNew kAdded kDeleted Z.eqb orb andb]. destruct (channels_ (poller_ e) !! fd_ c) eqn:Ec.
    + rewrite decide_True by done. rewrite (bool_decide_false (Some n = None)) by done. done.
    + rewrite decide_False by (intros []; done). rewrite bool_decide_true by done. cbn [obind].
      unfold set_heap; cbn. by rewrite insert_insert_eq.
  - rewrite decide_False by (intros []; done). rewrite (proj2 Hr) by done.
    assert (channels_ (poller_ e) !! fd_ c = Some id) as Hc by (apply (wf_channels e Hwf); exists c; rewrite Hi; done).
    rewrite (insert_id _ _ _ Hc). cbn [kNew kAdded kDeleted Z.eqb orb andb obind]. unfold isNoneEvent. cbn [events_ set_events].
    change (Z.pos 1) with kAdded. cbn. destruct (ev =? kNoneEvent); unfold set_heap, update, set_index; cbn; rewrite ?insert_insert_eq; [done|].
    destruct c; cbn in *. by subst.
  - rewrite decide_False by (intros []; done). rewrite (proj2 Hr) by done.
    assert (channels_ (poller_ e) !! fd_ c = Some id) as Hc by (apply (wf_channels e Hwf); exists c; rewrite Hi; done).
    rewrite (insert_id _ _ _ Hc). cbn. unfold set_heap; cbn. by rewrite insert_insert_eq.
Qed.

Lemma change_interest_wf e id i e' : wf e -> change_interest e id i = Ret e' -> wf e'.
Proof.
  intros Hwf H. assert (exists c, heap e !! id = Some c) as [c Hid].
  { unfold change_interest in H. outcome_inv. eauto. }
  rewrite (change_interest_eq e id c i Hwf Hid) in H. case_decide as Hd; [done|]. injection H as <-.
  set (ev := new_events i (events_ c)). destruct kinds as (K1 & K2 & K3).
  assert (index_ (interest_channel c ev) <> kNew) as Hn by (unfold interest_channel; by destruct (_ && _)).
  apply (wf_change e id c (interest_channel c ev)); try done.
  - intros E. right. destruct (channels_ (poller_ e) !! fd_ c) eqn:Ec; [|done]. destruct Hd. done.
  - unfold channel_ok, interest_channel. destruct (ev =? kNoneEvent) eqn:Ev; bool_hyps.
    + destruct (index_ c =? kAdded); cbn; [|tauto]. right; right. done.
    + rewrite andb_false_r. cbn. tauto.
  - unfold changed_channels. by rewrite decide_False.
  - intros k Hk Hadd Hnone. rewrite (kernel_snoc _ _ k Hk). unfold epoll_ctl, interest_call, changed_kernel.
    unfold interest_channel in *. destruct (decide (index_ c = kAdded)) as [E|E].
    + rewrite (proj2 (Z.eqb_eq _ _) E), (Hadd E) in *. by destruct (ev =? kNoneEvent).
    + rewrite (proj2 (Z.eqb_neq _ _) E) in *. cbn [andb] in *. by rewrite (Hnone Hn E).
Qed.

(** What [remove] does: it needs a registered channel without events, and while the
    loop handles events one that is not waiting to be handled *)
Definition removable e id c : bool :=
  isNoneEvent c && (negb (eventHandling_ e) || bool_decide (currentActiveChannel_ e = Some id \/ id ∉ activeChannels_ e)) &&
  negb (index_ c =? kNew).
Definition removed_loop e id c : EventLoop Cb F :=
  set_poller (set_heap e (<[id := set_index (set_events c (events_ c) false) kNew]> (heap e)))
    (mkPoller (delete (fd_ c) (channels_ (poller_ e)))
       (ctl_calls (poller_ e) ++ (if index_ c =? kAdded then [(EPOLL_CTL_DEL, fd_ c, events_ c, id)] else []))
       (events_size (poller_ e))).

Lemma remove_eq e id c :
  wf e -> heap e !! id = Some c ->
  remove e id = if removable e id c then Ret (removed_loop e id c) else Fault AssertFailed.
Proof.
  intros Hwf Hid. pose proof (registered_iff e id c Hwf Hid) as Hr. pose proof (wf_channel e Hwf id c Hid) as Hok.
  unfold remove, removable, removed_loop, cassert. rewrite Hid. cbn [deref obind].
  destruct (isNoneEvent c) eqn:En; [|done].
  unfold set_heap at 1 2 3. cbn [obind andb eventHandling_ currentActiveChannel_ activeChannels_].
  destruct (negb (eventHandling_ e) || _) eqn:Eh; [|done].
  unfold poller_removeChannel, cassert. cbn [heap set_heap]. rewrite lookup_insert_eq.
  cbn [deref obind andb poller_ set_heap]. unfold isNoneEvent in *. cbn [events_ set_events index_ fd_].
  unfold registered in *. cbn [fd_ set_events]. rewrite En.
  destruct (Z.eqb_spec (index_ c) kNew) as [E|E]; cbn [negb].
  - destruct (bool_decide (channels_ _ !! fd_ c = Some id)); [|done]. by destruct (proj1 Hr eq_refl).
  - rewrite (proj2 Hr E). cbn [obind]. unfold set_heap, set_poller, update, set_index; cbn. rewrite insert_insert_eq.
    destruct Hok as [(Hi & _)|[(Hi & _)|(Hi & _)]]; [done|..]; rewrite Hi; cbn; [done|]. by rewrite app_nil_r.
Qed.

Lemma remove_wf e id e' : wf e -> remove e id = Ret e' -> wf e'.
Proof.
  intros Hwf H. assert (exists c, heap e !! id = Some c) as [c Hid].
  { unfold remove in H. outcome_inv. eauto. }
  rewrite (remove_eq e id c Hwf Hid) in H. destruct (removable e id c) eqn:Er; [|done]. injection H as <-.
  unfold removable, isNoneEvent in Er. bool_hyps. destruct kinds as (K1 & K2 & K3).
  apply (wf_change e id c (set_index (set_events c (events_ c) false) kNew)); try done.
  - by left.
  - unfold changed_channels. cbn. rewrite decide_True by done. by rewrite decide_False.
  - intros k Hk Hadd Hnone. unfold changed_kernel. cbn [index_ set_index]. rewrite decide_False by done.
    destruct (Z.eqb_spec (index_ c) kAdded) as [E|E].
    + rewrite (kernel_snoc _ _ k Hk), decide_True by done. cbn. by rewrite (Hadd E).
    + by rewrite app_nil_r, decide_False.
Qed.

(** Deleting needs a channel that is new and whose events are not being handled. *)
Definition deletable c : bool := negb (ch_eventHandling_ c) && (index_ c =? kNew).

Lemma delete_Channel_eq e id c :
  wf e -> heap e !! id = Some c ->
  delete_Channel e id = if deletable c then Ret (set_heap e (delete id (heap e))) else Fault AssertFailed.
Proof.
  intros Hwf Hid. pose proof (registered_iff e id c Hwf Hid) as Hr. pose proof (wf_channel e Hwf id c Hid) as Hok.
  unfold delete_Channel, deletable, cassert, hasChannel. rewrite Hid. cbn [deref obind].
  destruct (ch_eventHandling_ c); [done|]. cbn [negb obind andb].
  destruct Hok as [(Hi & _ & ->)|[(Hi & ->)|(Hi & _ & ->)]]; rewrite Hi in Hr |- *; [|done..]. cbn.
  destruct (registered (poller_ e) id c); [|done]. by destruct (proj1 Hr eq_refl).
Qed.

Lemma delete_Channel_wf e id e' : wf e -> delete_Channel e id = Ret e' -> wf e'.
Proof.
  intros Hwf H. assert (exists c, heap e !! id = Some c) as [c Hid].
  { unfold delete_Channel in H. outcome_inv. eauto. }
  rewrite (delete_Channel_eq e id c Hwf Hid) in H. destruct (deletable c) eqn:Er; [|done]. injection H as <-.
  unfold deletable in Er. bool_hyps. destruct Hwf as [Hok Hch (k & Hk & Hint)]. destruct kinds as (K1 & K2 & K3).
  assert (forall d, heap e !! id = Some d -> index_ d = kNew) as Hnew by congruence.
  assert (forall j d, delete id (heap e) !! j = Some d <-> heap e !! j = Some d /\ j <> id) as Hd.
  { intros j d. rewrite lookup_delete_Some. split; intros [? ?]; split; congruence. }
  split; cbn.
  - intros j d [Hj _]%Hd. by apply (Hok j).
  - intros fd j. rewrite Hch. split; intros (d & Hj & Hf & Hi); exists d; (split; [|done]).
    + apply Hd. split; [done|]. intros ->. by apply Hi, Hnew.
    + by apply Hd in Hj as [? _].
  - exists k. split; [done|]. intros fd ev j. rewrite (Hint fd ev j). split; intros (d & Hj & Hf & Hi & He); exists d; (split; [|done]).
    + apply Hd. split; [done|]. intros ->. rewrite (Hnew d Hj) in Hi. done.
    + by apply Hd in Hj as [? _].
Qed.

Lemma create_wf e id fd e' : wf e -> create e id fd = Ret e' -> wf e'.
Proof.
  unfold create. intros [Hok Hch (k & Hk & Hint)] H. destruct (heap e !! id) eqn:Hid; [done|]. injection H as <-.
  split; cbn.
  - intros j d. destruct (decide (j = id)) as [->|Hne].
    + rewrite lookup_insert_eq. intros [= <-]. by left.
    + rewrite lookup_insert_ne by done. apply Hok.
  - intros f j. rewrite Hch. split; intros (d & Hj & Hd & Hi); exists d; (split; [|done]).
    + rewrite lookup_insert_ne; [done|]. intros ->. congruence.
    + destruct (decide (j = id)) as [->|Hne]; [|by rewrite lookup_insert_ne in Hj].
      rewrite lookup_insert_eq in Hj. injection Hj as <-. done.
  - exists k. split; [done|]. intros f ev j. rewrite (Hint f ev j).
    split; intros (d & Hj & Hd & Hi & He); exists d; (split; [|done]).
    + rewrite lookup_insert_ne; [done|]. intros ->. congruence.
    + destruct (decide (j = id)) as [->|Hne]; [|by rewrite lookup_insert_ne in Hj].
      rewrite lookup_insert_eq in Hj. injection Hj as <-. done.
Qed.

Lemma set_channel_wf e id m e' : wf e -> set_channel e id m = Ret e' -> wf e'.
Proof.
  unfold set_channel. intros Hwf H. outcome_inv.
  eapply (wf_unseen e _ id _ (set_member x m)); try done. by destruct m.
Qed.

Lemma do_op_wf e o e' : wf e -> do_op e o = Ret e' -> wf e'.
Proof.
  intros Hwf H. destruct o; cbn [do_op] in H.
  - by apply create_wf in H.
  - by apply change_interest_wf in H.
  - by apply remove_wf in H.
  - by apply delete_Channel_wf in H.
  - by apply set_channel_wf in H.
  - injection H as <-. by apply (wf_eq e).
  - injection H as <-. by apply (wf_eq e).
Qed.

Lemma do_ops_wf e l e' : wf e -> do_ops e l = Ret e' -> wf e'.
Proof.
  revert e. induction l as [|o l IH]; cbn; intros e Hwf H; [by injection H as <-|].
  outcome_inv. eapply IH; [|done]. by eapply do_op_wf.
Qed.

Lemma empty_loop_wf : wf (empty_loop (Cb := Cb) (F := F)).
Proof.
  split; cbn.
  - intros id c H. by rewrite lookup_empty in H.
  - intros fd id. rewrite lookup_empty. split; [done|]. intros (c & H & _). by rewrite lookup_empty in H.
  - exists ∅. split; [done|]. intros fd ev id. rewrite lookup_empty. split; [done|]. intros (c & H & _). by rewrite lookup_empty in H.
Qed.

(** ** What operations leave alone *)

Lemma do_op_frame e o e' :
  do_op e o = Ret e' ->
  activeChannels_ e' = activeChannels_ e /\ currentActiveChannel_ e' = currentActiveChannel_ e /\
  eventHandling_ e' = eventHandling_ e /\ callingPendingFunctors_ e' = callingPendingFunctors_ e.
Proof.
  destruct o; cbn [do_op]; intros H; [..|injection H as <-; done|injection H as <-; done].
  - unfold create in H. destruct (heap e !! id); [done|]. by injection H as <-.
  - unfold change_interest, updateChannel in H. cbn [heap set_heap] in H. outcome_inv.
    destruct ((index_ x0 =? kNew) || _); outcome_inv; [|destruct (isNoneEvent _)]; by outcome_inv.
  - unfold remove, poller_removeChannel in H. by outcome_inv.
  - unfold delete_Channel in H. by outcome_inv.
  - unfold set_channel in H. by outcome_inv.
Qed.

(** A channel goes only by [Delete], and is taken out of the poller only by
    [Remove]. *)
Lemma do_op_channels e o e' j c :
  wf e -> do_op e o = Ret e' -> heap e !! j = Some c ->
  (o = Delete j /\ deletable c = true) \/
  exists c', heap e' !! j = Some c' /\ ch_eventHandling_ c' = ch_eventHandling_ c /\
    (index_ c <> kNew -> index_ c' <> kNew \/ o = Remove j /\ removable e j c = true).
Proof.
  intros Hwf H Hj.
  assert (forall id c0 c', heap e !! id = Some c0 -> heap e' = <[id := c']> (heap e) ->
    ch_eventHandling_ c' = ch_eventHandling_ c0 ->
    (index_ c0 <> kNew -> index_ c' <> kNew \/ o = Remove id /\ removable e id c0 = true) ->
    exists d, heap e' !! j = Some d /\ ch_eventHandling_ d = ch_eventHandling_ c /\
      (index_ c <> kNew -> index_ d <> kNew \/ o = Remove j /\ removable e j c = true)) as Hch.
  { intros id c0 c' Hid -> Hh Hi. destruct (decide (j = id)) as [->|Hne].
    - exists c'. rewrite lookup_insert_eq. assert (c0 = c) as -> by congruence. done.
    - exists c. rewrite lookup_insert_ne by done. tauto. }
  destruct o; cbn [do_op] in H.
  - right. exists c. unfold create in H. destruct (heap e !! id) eqn:E; [done|]. injection H as <-.
    cbn. rewrite lookup_insert_ne by congruence. tauto.
  - right. destruct (heap e !! id) as [c0|] eqn:Hid; [|by unfold change_interest in H; rewrite Hid in H].
    rewrite (change_interest_eq e id c0 i Hwf Hid) in H. case_decide; [done|]. injection H as <-.
    apply (Hch id c0 (interest_channel c0 (new_events i (events_ c0))) Hid eq_refl eq_refl).
    intros _. left. unfold interest_channel. by destruct (_ && _).
  - right. destruct (heap e !! id) as [c0|] eqn:Hid; [|by unfold remove in H; rewrite Hid in H].
    rewrite (remove_eq e id c0 Hwf Hid) in H. destruct (removable e id c0) eqn:Er; [|done]. injection H as <-.
    apply (Hch id c0 (set_index (set_events c0 (events_ c0) false) kNew) Hid eq_refl eq_refl). by right.
  - destruct (heap e !! id) as [c0|] eqn:Hid; [|by unfold delete_Channel in H; rewrite Hid in H].
    rewrite (delete_Channel_eq e id c0 Hwf Hid) in H. destruct (deletable c0) eqn:Er; [|done]. injection H as <-.
    destruct (decide (j = id)) as [->|Hne].
    + left. assert (c0 = c) as -> by congruence. done.
    + right. exists c. cbn. rewrite lookup_delete_ne by done. tauto.
  - right. unfold set_channel in H. outcome_inv. apply (Hch id x (set_member x m)); try done; by destruct m; try left.
  - right. injection H as <-. exists c. tauto.
  - right. injection H as <-. exists c. tauto.
Qed.

(** ** A turn of the loop *)

(** The computation returns something that has [P], or it fails in a way that is
    allowed. *)
Definition fails_by {A} (allowed : fault -> Prop) (m : outcome A) (P : A -> Prop) : Prop :=
  match m with Ret a => P a | Fault f => allowed f end.

Lemma fails_by_bind {A B} allowed (m : outcome A) (k : A -> outcome B) (P : A -> Prop) (Q : B -> Prop) :
  fails_by allowed m P -> (forall a, P a -> fails_by allowed (k a) Q) -> fails_by allowed (obind m k) Q.
Proof. destruct m; cbn; auto. Qed.

(** The channels of [l] wait to be handled while [id] is. *)
Record waiting e id (l : list nat) : Prop := {
  w_wf : wf e;
  w_handling : eventHandling_ e = true;
  w_current : currentActiveChannel_ e = Some id;
  w_nodup : NoDup (id :: l);
  w_active j : j ∈ l -> j ∈ activeChannels_ e;
  w_live j : j ∈ l -> exists c, heap e !! j = Some c /\ index_ c <> kNew
}.
Definition busy e id : Prop := exists c, heap e !! id = Some c /\ ch_eventHandling_ c = true.

Lemma do_op_waiting e id l o e' :
  waiting e id l /\ busy e id -> do_op e o = Ret e' -> waiting e' id l /\ busy e' id.
Proof.
  intros [[Hwf Hh Hc Hn Ha Hl] (c & Hid & Hb)] H. destruct (do_op_frame e o e' H) as (Ea & Ec & Eh & _).
  split; [split|].
  - by eapply do_op_wf.
  - congruence.
  - congruence.
  - done.
  - rewrite Ea. apply Ha.
  - intros j Hj. destruct (Hl j Hj) as (d & Hd & Hi).
    destruct (do_op_channels e o e' j d Hwf H Hd) as [[-> Hdel]|(d' & Hd' & _ & Hi')].
    + unfold deletable in Hdel. by bool_hyps.
    + exists d'. split; [done|]. destruct (Hi' Hi) as [?|[-> Hrem]]; [done|].
      apply NoDup_cons in Hn as [Hn _]. unfold removable in Hrem. rewrite Hh in Hrem. cbn in Hrem.
      apply andb_true_iff in Hrem as [[_ [E|E]%bool_decide_eq_true]%andb_true_iff _]; [|by destruct (E (Ha j Hj))].
      congruence.
  - destruct (do_op_channels e o e' id c Hwf H Hid) as [[-> Hdel]|(d' & Hd' & E & _)].
    + unfold deletable in Hdel. by rewrite Hb in Hdel.
    + exists d'. split; [done|congruence].
Qed.

Lemma do_ops_waiting e id l os e' :
  waiting e id l /\ busy e id -> do_ops e os = Ret e' -> waiting e' id l /\ busy e' id.
Proof.
  revert e. induction os as [|o os IH]; cbn; intros e Hw H; [by injection H as <-|].
  outcome_inv. eapply IH; [|done]. by eapply do_op_waiting.
Qed.

(** What epoll_wait may report: pointers of the interest list, each once *)
Definition reported e (l : list (Z * nat)) : Prop :=
  Z.of_nat (length l) <= events_size (poller_ e) /\ NoDup l.*2 /\
  exists k, kernel (ctl_calls (poller_ e)) = Some k /\
    forall ev id, (ev, id) ∈ l -> exists fd ev0, k !! fd = Some (ev0, id).

(** What [poll] changes *)
Record poll_done e e' (l : list (Z * nat)) : Prop := {
  f_wf : wf e';
  f_active : activeChannels_ e' = activeChannels_ e ++ l.*2;
  f_channels : channels_ (poller_ e') = channels_ (poller_ e);
  f_calls : ctl_calls (poller_ e') = ctl_calls (poller_ e);
  f_others : quit_ e' = quit_ e /\ looping_ e' = looping_ e /\ pendingFunctors_ e' = pendingFunctors_ e;
  f_old id c : heap e !! id = Some c -> id ∉ l.*2 -> heap e' !! id = Some c;
  f_heap id c : heap e !! id = Some c -> exists c', heap e' !! id = Some c' /\ same_registration c c';
  f_revents ev id : (ev, id) ∈ l -> exists c, heap e' !! id = Some c /\ revents_ c = ev
}.

Lemma fill_filled e l :
  wf e -> NoDup l.*2 -> (forall ev id, (ev, id) ∈ l -> exists c, heap e !! id = Some c /\ index_ c <> kNew) ->
  exists e', fillActiveChannels e l = Ret e' /\ poll_done e e' l /\ events_size (poller_ e') = events_size (poller_ e).
Proof.
  revert e. induction l as [|[ev id] l IH]; cbn [fillActiveChannels]; intros e Hwf Hn Hl.
  - exists e. split; [done|]. split; [|done]. split; try done.
    + by rewrite app_nil_r.
    + intros id c Hid. by exists c.
    + intros ev id H. by apply elem_of_nil in H.
  - destruct (Hl ev id) as (c & Hid & Hi); [by left|]. rewrite Hid. cbn [deref obind].
    rewrite (proj2 (registered_iff e id c Hwf Hid) Hi). cbn [cassert obind].
    set (e1 := mkLoop _ _ _ _ _ _ _ _ _ _). cbn in Hn. apply NoDup_cons in Hn as [Hni Hn].
    assert (wf e1) as Hwf1 by (apply (wf_unseen e e1 id c (set_revents c ev) Hwf Hid); done).
    destruct (IH e1 Hwf1 Hn) as (e' & He' & [F1 F2 F3 F4 F5 F6 F7 F8] & Hsz).
    { intros ev' j Hj. destruct (Hl ev' j) as (d & Hd & Hid'); [by right|]. exists d. split; [|done].
      cbn. rewrite lookup_insert_ne; [done|]. intros <-. apply Hni, list_elem_of_fmap. by exists (ev', id). }
    exists e'. split; [done|]. split; [|done]. split; try done.
    + rewrite F2. cbn. by rewrite <- app_assoc.
    + intros j d Hj Hnj. cbn in Hnj. apply not_elem_of_cons in Hnj as [Hne Hnj]. apply F6; [|done].
      cbn. by rewrite lookup_insert_ne.
    + intros j d Hj. destruct (decide (j = id)) as [->|Hne].
      * destruct (F7 id (set_revents c ev)) as (d' & Hd' & S); [cbn; by rewrite lookup_insert_eq|].
        exists d'. split; [done|]. assert (d = c) as -> by congruence. exact S.
      * apply F7. cbn. by rewrite lookup_insert_ne.
    + intros ev' j [[= -> ->]|Hj]%elem_of_cons; [|by apply F8].
      exists (set_revents c ev). split; [|done]. apply F6; [cbn; by rewrite lookup_insert_eq|done].
Qed.

Lemma poll_filled e l : wf e -> reported e l -> exists e', poll e l = Ret e' /\ poll_done e e' l.
Proof.
  intros Hwf (Hlen & Hn & k & Hk & Hl). destruct (wf_kernel e Hwf) as (k' & Hk' & Hint).
  assert (k' = k) as -> by congruence.
  destruct (fill_filled e l Hwf Hn) as (e' & He' & Hf & Hsz).
  { intros ev id H. destruct (Hl ev id H) as (fd & ev0 & (c & Hid & _ & Hi & _)%Hint). exists c. split; [done|]. by rewrite Hi. }
  unfold poll. destruct l as [|x l]; [exists e; injection He' as <-; done|].
  unfold cassert. rewrite (proj2 (Z.leb_le _ _) Hlen), He'. cbn [obind]. eexists. split; [done|].
  destruct Hf as [F1 F2 F3 F4 F5 F6 F7 F8]. destruct (_ =? _); split; try done. by apply (wf_eq e').
Qed.

(** Callbacks and functors do operations on channels that are there; [allowed] is how
    they may fail. *)
Definition ended (r : fiber_end) : bool := match r with TERM | EXCEPTION => true | _ => false end.
Context (allowed : fault -> Prop).
Context (call : Cb -> EventLoop Cb F -> outcome (EventLoop Cb F)) (alive : nat -> EventLoop Cb F -> bool).
Context (swapIn : F -> EventLoop Cb F -> outcome (fiber_end * EventLoop Cb F)).
Hypothesis call_ops : forall f e, wf e -> fails_by allowed (call f e) (fun e' => exists ops, do_ops e ops = Ret e').
Hypothesis swapIn_ops : forall f e, wf e ->
  fails_by allowed (swapIn f e) (fun r => (exists ops, do_ops e ops = Ret r.2) /\ (ended r.1 = true \/ allowed AssertFailed)).

Lemma branch_waiting e id l test cb :
  waiting e id l /\ busy e id -> fails_by allowed (branch call e id test cb) (fun e' => waiting e' id l /\ busy e' id).
Proof using call_ops.
  intros H. pose proof H as [[Hwf _ _ _ _ _] (c & Hid & _)]. unfold branch. rewrite Hid. cbn [deref obind].
  destruct (test (revents_ c)); [|done]. destruct (cb c) as [f|]; [|done].
  pose proof (call_ops f e Hwf) as Hf. destruct (call f e) as [e'|]; [|done]. destruct Hf as [os Hos].
  by apply (do_ops_waiting e id l os).
Qed.

Lemma same_registration_handling c b : same_registration c (set_handling c b).
Proof. done. Qed.

(** [eventHandling_] of a channel is not what the others depend on. *)
Lemma waiting_handling e id l c b :
  waiting e id l -> heap e !! id = Some c -> waiting (set_heap e (<[id := set_handling c b]> (heap e))) id l.
Proof.
  intros [Hwf Hh Hc Hn Ha Hl] Hid. split; try done.
  - by apply (wf_unseen e _ id c (set_handling c b)).
  - intros j Hj. destruct (Hl j Hj) as (d & Hd & Hi). exists d. split; [|done].
    cbn. rewrite lookup_insert_ne; [done|]. intros <-. by apply NoDup_cons in Hn as [Hn _].
Qed.

Lemma handleEvent_waiting e id l c :
  waiting e id l -> heap e !! id = Some c -> fails_by allowed (handleEvent call alive e id) (fun e' => waiting e' id l).
Proof using call_ops.
  intros Hw Hid. unfold handleEvent. rewrite Hid. cbn [deref obind].
  assert (fails_by allowed (handleEventWithGuard call e id) (fun e' => waiting e' id l)) as H.
  { unfold handleEventWithGuard. rewrite Hid. cbn [deref obind].
    set (e0 := set_heap e _). assert (waiting e0 id l /\ busy e0 id) as H0.
    { split; [by apply waiting_handling|]. exists (set_handling c true). cbn. by rewrite lookup_insert_eq. }
    clearbody e0. do 4 (eapply fails_by_bind; [apply branch_waiting; exact H0|clear H0; intros e1 H0; clear e0; rename e1 into e0]).
    destruct H0 as [Hw' (d & Hd & _)]. rewrite Hd. cbn. by apply waiting_handling. }
  destruct (tied_ c) as [o|]; [destruct (alive o e)|]; done.
Qed.

Lemma handle_all_wf e l :
  wf e -> eventHandling_ e = true -> NoDup l -> (forall j, j ∈ l -> j ∈ activeChannels_ e) ->
  (forall j, j ∈ l -> exists c, heap e !! j = Some c /\ index_ c <> kNew) ->
  fails_by allowed (handle_all call alive e l) wf.
Proof using call_ops.
  revert e. induction l as [|id l IH]; cbn [handle_all]; intros e Hwf Hh Hn Ha Hl; [done|].
  set (e1 := set_current e (eventHandling_ e) (Some id)).
  assert (waiting e1 id l) as Hw.
  { split; try done; [by apply (wf_eq e)| |]; intros j Hj; [apply Ha|apply Hl]; by right. }
  destruct (Hl id) as (c & Hid & _); [by left|].
  eapply fails_by_bind; [by apply (handleEvent_waiting e1 id l c)|]. intros e' [W1 W2 W3 W4 W5 W6].
  apply NoDup_cons in Hn as [_ Hn]. by apply IH.
Qed.

Lemma run_functors_wf e l : wf e -> fails_by allowed (run_functors swapIn e l) wf.
Proof using swapIn_ops.
  revert e. induction l as [|f l IH]; cbn [run_functors]; intros e Hwf; [done|].
  eapply fails_by_bind; [by apply swapIn_ops|]. intros [r e'] [(os & Hos) Hr]. cbn [fst snd] in *.
  assert (wf e') as Hwf' by (by apply (do_ops_wf e os)).
  change (match r with TERM | EXCEPTION => true | _ => false end) with (ended r).
  destruct (ended r); [|by destruct Hr]. apply IH. destruct r; by apply (wf_eq e').
Qed.

Lemma loop_turn_wf e l : wf e -> reported e l -> fails_by allowed (loop_turn call alive swapIn e l) wf.
Proof using call_ops swapIn_ops.
  intros Hwf Hrep. unfold loop_turn. set (e0 := mkLoop _ _ _ _ _ _ _ _ _ _).
  destruct (poll_filled e0 l) as (e1 & -> & [F1 F2 F3 F4 F5 F6 F7 F8]); [by apply (wf_eq e)|done|]. cbn [obind].
  set (e2 := mkLoop _ _ _ _ _ _ _ _ _ _).
  assert (wf e2) as Hwf2 by (by apply (wf_eq e1)).
  destruct Hrep as (_ & Hn & k & Hk & Hl). destruct (wf_kernel e Hwf) as (k' & Hk' & Hint).
  assert (k' = k) as -> by congruence.
  eapply fails_by_bind; [apply handle_all_wf; try done|].
  - change (NoDup (activeChannels_ e1)). by rewrite F2.
  - intros j Hj. change (j ∈ activeChannels_ e1) in Hj. rewrite F2 in Hj. cbn in Hj. apply list_elem_of_fmap in Hj as ([ev id] & -> & Hj).
    destruct (Hl ev id Hj) as (fd & ev0 & (c & Hid & _ & Hi & _)%Hint).
    destruct (F7 id c Hid) as (c' & Hc' & _ & E & _). exists c'. split; [done|]. rewrite E, Hi. done.
  - intros e3 Hwf3. apply run_functors_wf. by apply (wf_eq e3).
Qed.

(** What a program does with the loop: operations, and turns for what epoll_wait may
    report *)
Inductive goes e : EventLoop Cb F -> Prop :=
| goes_op o e' : do_op e o = Ret e' -> goes e e'
| goes_turn l e' : reported e l -> loop_turn call alive swapIn e l = Ret e' -> goes e e'.
Definition made e : Prop := exists id fd cb e0, new_EventLoop id fd cb = Ret e0 /\ rtc goes e0 e.

Lemma made_wf e : made e -> wf e.
Proof using call_ops swapIn_ops.
  intros (id & fd & cb & e0 & H0 & H).
  refine (rtc_ind_r wf e0 _ _ e H); clear e H.
  - eapply do_ops_wf; [apply empty_loop_wf|exact H0].
  - intros e e' _ H Hwf. destruct H as [o e' H|l e' Hr H]; [by eapply do_op_wf|].
    pose proof (loop_turn_wf e l Hwf Hr) as Hw. by rewrite H in Hw.
Qed.

(** ** Functors *)

(** Functors that append to the queue and end or do not *)
Lemma run_functors_queue (spawn : F -> list F) (ends : F -> bool) e l :
  (forall f e, exists r e', swapIn f e = Ret (r, e') /\ pendingFunctors_ e' = pendingFunctors_ e ++ spawn f /\ ended r = ends f) ->
  if forallb ends l then
    exists e', run_functors swapIn e l = Ret e' /\ pendingFunctors_ e' = pendingFunctors_ e ++ List.concat (map spawn l) /\
      callingPendingFunctors_ e' = match l with [] => callingPendingFunctors_ e | _ => false end
  else run_functors swapIn e l = Fault AssertFailed.
Proof using Type.
  clear call_ops swapIn_ops. intros Hs. revert e. induction l as [|f l IH]; cbn [forallb run_functors map List.concat]; intros e.
  - exists e. split; [done|]. by rewrite app_nil_r.
  - destruct (Hs f e) as (r & e' & -> & Hq & Hr). cbn [obind fst snd].
    change (match r with TERM | EXCEPTION => true | _ => false end) with (ended r). rewrite Hr.
    destruct (ends f) eqn:Ef; cbn [andb cassert obind]; [|done].
    set (e1 := set_calling _ _ _). specialize (IH e1). destruct (forallb ends l); [|done].
    destruct IH as (e2 & He2 & Hq2 & Hc2). exists e2. split; [done|]. split; [|by destruct l].
    rewrite Hq2. assert (pendingFunctors_ e1 = pendingFunctors_ e') as ->.
    { unfold e1. cbn. destruct r; done. }
    by rewrite Hq, <- app_assoc.
Qed.
End correct.

(** ** Theorems *)

Section theorems.
Context {Cb F : Type}.
Context (call : Cb -> EventLoop Cb F -> outcome (EventLoop Cb F)) (alive : nat -> EventLoop Cb F -> bool).
Context (swapIn : F -> EventLoop Cb F -> outcome (fiber_end * EventLoop Cb F)) (allowed : fault -> Prop).

(** What callbacks and functors may do: operations on channels that are there. *)
Definition well_behaved : Prop :=
  (forall f e, wf e -> fails_by allowed (call f e) (fun e' => exists ops, do_ops e ops = Ret e')) /\
  (forall f e, wf e ->
     fails_by allowed (swapIn f e) (fun r => (exists ops, do_ops e ops = Ret r.2) /\ (ended r.1 = true \/ allowed AssertFailed))).

(** C11: however a program uses a loop and its channels, with callbacks and
    functors that use channels that are there, no call of epoll_ctl fails, and the
    interest list it leaves is the channels whose index is [kAdded], each with its
    descriptor, its events and a pointer to it where it still is; the poller has a
    channel if its index is not [kNew], which is what [addedToLoop_] says. *)
Theorem epoll_matches_channels e :
  well_behaved -> made call alive swapIn e ->
  (exists k, kernel (ctl_calls (poller_ e)) = Some k /\
    forall fd ev id, k !! fd = Some (ev, id) <->
      exists c, heap e !! id = Some c /\ fd_ c = fd /\ index_ c = kAdded /\ events_ c = ev) /\
  (forall id c, heap e !! id = Some c -> hasChannel e id = addedToLoop_ c /\ (addedToLoop_ c = true <-> index_ c <> kNew)).
Proof.
  intros [Hc Hs] Hm. assert (wf e) as Hwf by exact (made_wf allowed call alive swapIn Hc Hs e Hm).
  split; [apply (wf_kernel e Hwf)|]. intros id c Hid.
  pose proof (registered_iff e id c Hwf Hid) as Hr. unfold hasChannel. rewrite Hid.
  destruct (wf_channel e Hwf id c Hid) as [(Hi & _ & ->)|[(Hi & ->)|(Hi & _ & ->)]]; rewrite Hi in Hr |- *.
  - split; [|done]. destruct (registered (poller_ e) id c); [|done]. by destruct (proj1 Hr eq_refl).
  - split; [|done]. by apply Hr.
  - split; [|done]. by apply Hr.
Qed.

(** C12: a turn of the loop goes wrong only where a callback or a functor does: the
    poller's assertions hold for what epoll_wait reports, every reported channel
    gets its events, and though callbacks may remove and delete channels, the loop
    handles no channel that is gone. *)
Theorem turn_fails_only_in_callbacks e l :
  well_behaved -> made call alive swapIn e -> reported e l ->
  (exists e', poll e l = Ret e' /\ activeChannels_ e' = activeChannels_ e ++ l.*2 /\
    forall ev id, (ev, id) ∈ l -> exists c, heap e' !! id = Some c /\ revents_ c = ev) /\
  fails_by allowed (loop_turn call alive swapIn e l) (fun _ => True).
Proof.
  intros [Hc Hs] Hm Hr. assert (wf e) as Hwf by exact (made_wf allowed call alive swapIn Hc Hs e Hm). split.
  - destruct (poll_filled e l Hwf Hr) as (e' & He' & Hf). exists e'. split; [done|]. split; apply Hf.
  - pose proof (loop_turn_wf allowed call alive swapIn Hc Hs e l Hwf Hr) as H.
    by destruct (loop_turn call alive swapIn e l).
Qed.

(** The functors that are pending run once and in order, and those they queue
    wait for the next turn, when every fiber ends; one that yields instead makes the
    assertion of [reset] fail. With nothing pending [callingPendingFunctors_]
    stays set. *)
Theorem functors_wait_for_next_turn (spawn : F -> list F) (ends : F -> bool) e :
  (forall f e, exists r e', swapIn f e = Ret (r, e') /\ pendingFunctors_ e' = pendingFunctors_ e ++ spawn f /\ ended r = ends f) ->
  if forallb ends (pendingFunctors_ e) then
    exists e', doPendingFunctors swapIn e = Ret e' /\
      pendingFunctors_ e' = List.concat (map spawn (pendingFunctors_ e)) /\
      callingPendingFunctors_ e' = match pendingFunctors_ e with [] => true | _ => false end
  else doPendingFunctors swapIn e = Fault AssertFailed.
Proof. intros Hs. apply (run_functors_queue swapIn spawn ends (set_calling e true []) (pendingFunctors_ e) Hs). Qed.
End theorems.

(** ** An example

    The channel 1 of the descriptor 5 has a callback that disables it or takes it
    out of the loop, if it is there. *)
Definition example_call (b : bool) (e : EventLoop bool bool) : outcome (EventLoop bool bool) :=
  match heap e !! 1%nat with
  | Some _ => do_ops e [if b then Interest 1 DisableAll else Remove 1]
  | None => Ret e
  end.
Definition example_swapIn (b : bool) (e : EventLoop bool bool) : outcome (fiber_end * EventLoop bool bool) :=
  let! e := example_call b e in Ret (TERM, e).

Lemma example_call_ops b e :
  wf e -> fails_by (eq AssertFailed) (example_call b e) (fun e' => exists ops, do_ops e ops = Ret e').
Proof.
  intros Hwf. unfold example_call. destruct (heap e !! 1%nat) as [c|] eqn:E; [|by exists []].
  set (o := if b then _ else _). cbn [do_ops].
  assert (match do_op e o with Ret _ => True | Fault f => AssertFailed = f end) as H.
  { subst o. destruct b; cbn [do_op].
    - rewrite (change_interest_eq e 1%nat c DisableAll Hwf E). by case_decide.
    - rewrite (remove_eq e 1%nat c Hwf E). by destruct (removable e 1%nat c). }
  destruct (do_op e o) as [e'|f] eqn:Eo; [|exact H]. exists [o]. cbn. by rewrite Eo.
Qed.

Lemma example_well_behaved : well_behaved example_call example_swapIn (eq AssertFailed).
Proof.
  split; [apply example_call_ops|]. intros f e Hwf. unfold example_swapIn.
  pose proof (example_call_ops f e Hwf) as H. destruct (example_call f e) as [e'|]; [|exact H]. split; [exact H|by left].
Qed.

Definition ret_or {A} (a : A) (m : outcome A) : A := match m with Ret a => a | Fault _ => a end.
Definition example_loop : EventLoop bool bool :=
  ret_or empty_loop (do_ops (ret_or empty_loop (new_EventLoop 0 3 false))
    [Create 1 5; Set_channel 1 (Read true); Interest 1 EnableReading; QueueInLoop false]).

Lemma rtc_goes (call : bool -> EventLoop bool bool -> outcome (EventLoop bool bool)) alive swapIn e ops e' :
  do_ops e ops = Ret e' -> rtc (goes call alive swapIn) e e'.
Proof.
  revert e. induction ops as [|o ops IH]; cbn; intros e H; [by injection H as <-|].
  destruct (do_op e o) as [e1|] eqn:E; [|done]. apply rtc_l with e1; [by apply goes_op with o|by apply IH].
Qed.

Lemma example_made : made example_call (fun _ _ => true) example_swapIn example_loop.
Proof.
  exists 0%nat, 3, false, (ret_or empty_loop (new_EventLoop 0 3 false)). split; [reflexivity|].
  apply (rtc_goes _ _ _ _ [Create 1 5; Set_channel 1 (Read true); Interest 1 EnableReading; QueueInLoop false]). vm_compute. reflexivity.
Qed.

Lemma epoll_matches_channels_witness :
  (exists k, kernel (ctl_calls (poller_ example_loop)) = Some k /\
    forall fd ev id, k !! fd = Some (ev, id) <->
      exists c, heap example_loop !! id = Some c /\ fd_ c = fd /\ index_ c = kAdded /\ events_ c = ev) /\
  (forall id c, heap example_loop !! id = Some c ->
    hasChannel example_loop id = addedToLoop_ c /\ (addedToLoop_ c = true <-> index_ c <> kNew)).
Proof.
  apply (epoll_matches_channels example_call (fun _ _ => true) example_swapIn (eq AssertFailed));
    [apply example_well_behaved|apply example_made].
Defined.

Lemma example_reported : reported example_loop [(POLLIN, 1%nat)].
Proof.
  split; [vm_compute; discriminate|]. split; [apply NoDup_singleton|]. exists (<[5 := (3, 1%nat)]> {[3 := (3, 0%nat)]}).
  split; [vm_compute; reflexivity|]. intros ev id [_ ->]%list_elem_of_singleton%pair_equal_spec. exists 5, kReadEvent. vm_compute. reflexivity.
Qed.

Lemma turn_fails_only_in_callbacks_witness :
  fails_by (eq AssertFailed) (loop_turn example_call (fun _ _ => true) example_swapIn example_loop [(POLLIN, 1%nat)]) (fun _ => True) /\
  match loop_turn example_call (fun _ _ => true) example_swapIn example_loop [(POLLIN, 1%nat)] with
  | Ret e => hasChannel e 1 = false /\ hasChannel e 0 = true /\ ctl_calls (poller_ e) =
      [(EPOLL_CTL_ADD, 3, 3, 0%nat); (EPOLL_CTL_ADD, 5, 3, 1%nat); (EPOLL_CTL_DEL, 5, 0, 1%nat)]
  | Fault _ => False
  end.
Proof.
  split; [|vm_compute; done].
  apply (turn_fails_only_in_callbacks example_call (fun _ _ => true) example_swapIn (eq AssertFailed));
    [apply example_well_behaved|apply example_made|apply example_reported].
Defined.

(** A functor queues its successor and ends. *)
Definition example_functor (n : nat) (e : EventLoop unit nat) : outcome (fiber_end * EventLoop unit nat) :=
  Ret (TERM, queueInLoop e (S n)).

Lemma functors_wait_for_next_turn_witness :
  exists e', doPendingFunctors example_functor (queueInLoop (queueInLoop empty_loop 4%nat) 7%nat) = Ret e' /\
    pendingFunctors_ e' = [5; 8]%nat /\ callingPendingFunctors_ e' = false.
Proof.
  apply (functors_wait_for_next_turn example_functor (fun n => [S n]) (fun _ => true)
    (queueInLoop (queueInLoop empty_loop 4%nat) 7%nat)).
  intros f e. exists TERM, (queueInLoop e (S f)). done.
Defined.
