(* ===== verification/EventLoopThread.v ===== *)
(** * A thread with an event loop (src/qslary/net/EventLoopThread.h,
      EventLoopThread.cc)

    [startLoop] starts the thread (Thread.v), which publishes its loop in [loop_]
    and notifies; [startLoop] waits until [loop_] is set. *)
From stdpp Require Import base list relations.
From Stdlib Require Import ZArith Lia.
From S2P Require Import Prelude CLib.
From S2P Require Import Monitor.

(** The calls of both threads: the wait of [startLoop] behind [thread_.start()];
    in [threadFunc] the block that sets [loop_], [loop.loop()], and the end. *)
Inductive loop_call : Set := WaitLoop | Publish | RunLoop | Retract.
#[export] Instance loop_call_eq_dec : EqDecision loop_call.
Proof. solve_decision. Defined.

(** [loop_], whether it is set *)
Definition loop_meaning (c : loop_call) : action bool unit :=
  match c with
  | WaitLoop => WaitUntil (fun loop_ => loop_)
  | Publish => Update (fun _ => Ret true) (fun _ => Notify)
  | RunLoop => Act (fun y => y)
  | Retract => Update (fun _ => Ret false) (fun _ => Silent)
  end.

(** [threadFunc], whose loop runs for ever or ends. *)
Definition threadFunc (quits : bool) : list loop_call :=
  Publish :: (if quits then [RunLoop; Retract] else []).
Definition startLoop (quits : bool) : monitor bool unit loop_call :=
  new_monitor false tt [[WaitLoop]; threadFunc quits].

#[export] Instance notice_eq_dec : EqDecision notice.
Proof. solve_decision. Defined.
#[export] Instance place_eq_dec : EqDecision place.
Proof. solve_decision. Defined.
#[export] Instance thread_eq_dec : EqDecision (thread loop_call).
Proof. solve_decision. Defined.
#[export] Instance monitor_eq_dec : EqDecision (monitor bool unit loop_call).
Proof. solve_decision. Defined.

(** ** All states

    Two threads have finitely many states; they are found by computation, and a
    list that is closed under steps has all. *)
Abbreviation state := (monitor bool unit loop_call).

(** The turns of a thread, whomever a notice wakes, and the wake-ups without a
    reason *)
Definition turns_of (s : state) : list state :=
  t ← [0; 1]%nat; c ← [0; 1]%nat; match turn loop_meaning t c s with Ret (Some s') => [s'] | _ => [] end.
Definition spurious_of (s : state) : list state :=
  t ← [0; 1]%nat;
  match threads s !! t with
  | Some th => if asleep th then [mkMonitor (owner s) (m_holder s) (guarded s) (free s) (go s t Woken)] else []
  | None => []
  end.
Definition next_of (s : state) : list state := turns_of s ++ spurious_of s.

Fixpoint explore (fuel : nat) (seen todo : list state) : list state :=
  match fuel, todo with
  | S fuel, s :: todo =>
      if decide (s ∈ seen) then explore fuel seen todo else explore fuel (s :: seen) (next_of s ++ todo)
  | _, _ => seen
  end.

Definition two (s : state) : bool := bool_decide (length (threads s) = 2%nat).
Definition closed (l : list state) : bool :=
  forallb (fun s => two s && forallb (fun s' => bool_decide (s' ∈ l)) (next_of s)) l.

(** A notice wakes nobody whom it would not wake for 0 or 1. *)
Lemma notify_choice n c l (l' : list (thread loop_call)) :
  length l = 2%nat -> notify n c l = Some l' -> exists c', (c' = 0 \/ c' = 1)%nat /\ notify n c' l = Some l'.
Proof.
  intros Hl H. destruct c as [|[|c]]; [by exists 0%nat; auto|by exists 1%nat; auto|].
  exists 0%nat. split; [by left|]. destruct n; cbn [notify] in *; try done.
  destruct (existsb asleep l); [|done]. rewrite lookup_ge_None_2 in H; [done|]. lia.
Qed.

Lemma turn_choice t c s s' :
  length (threads s) = 2%nat -> turn loop_meaning t c s = Ret (Some s') ->
  exists c', (c' = 0 \/ c' = 1)%nat /\ turn loop_meaning t c' s = Ret (Some s').
Proof.
  intros Hl H. unfold turn in *. destruct (threads s !! t) as [th|]; [|done].
  destruct (place_ th) eqn:Ep; try (exists 0%nat; split; [by left|exact H]).
  destruct (notify n c (threads s)) as [l|] eqn:E; [|done].
  destruct (notify_choice n c _ l Hl E) as (c' & Hc & Hn). exists c'. split; [done|]. by rewrite Hn.
Qed.

Lemma step_next s s' : length (threads s) = 2%nat -> step loop_meaning s s' -> s' ∈ next_of s.
Proof.
  intros Hl H. apply elem_of_app.
  assert (forall t th, threads s !! t = Some th -> t ∈ [0; 1]%nat) as Ht.
  { intros t th Ht%lookup_lt_Some. rewrite Hl in Ht. destruct t as [|[|t]]; [by left|by right; left|lia]. }
  destruct H as [s' (t & c & H)|t th Hth Hp].
  - left. destruct (turn_choice t c s s' Hl H) as (c' & Hc & H').
    apply list_elem_of_bind. exists t. split.
    + apply list_elem_of_bind. exists c'. split; [rewrite H'; by left|]. destruct Hc as [->| ->]; [by left|by right; left].
    + unfold turn in H. destruct (threads s !! t) eqn:E; [|done]. by apply (Ht t t0).
  - right. apply list_elem_of_bind. exists t. split; [|by apply (Ht t th)].
    rewrite Hth. unfold asleep. rewrite Hp. by left.
Qed.

Lemma closed_reachable l s s0 : closed l = true -> s0 ∈ l -> rtc (step loop_meaning) s0 s -> s ∈ l.
Proof.
  intros Hc H0 H. refine (rtc_ind_r (fun s => s ∈ l) s0 H0 _ s H); clear s H.
  intros s s' _ Hs IH. unfold closed in Hc. rewrite forallb_forall in Hc.
  specialize (Hc s (proj1 (list_elem_of_In _ _) IH)). apply andb_true_iff in Hc as [Ht%bool_decide_eq_true Hn].
  rewrite forallb_forall in Hn. apply step_next in Hs; [|done].
  specialize (Hn s' (proj1 (list_elem_of_In _ _) Hs)). by apply bool_decide_eq_true in Hn.
Qed.

Definition states (quits : bool) : list state := explore 400 [] [startLoop quits].

(** Nobody can take a turn. *)
Definition stuck (s : state) : Prop := forall s', ~ sched loop_meaning s s'.
(** Whether [startLoop] returned *)
Definition loop_returned (s : state) : bool :=
  match threads s !! 0%nat with Some th => bool_decide (calls th = []) | None => false end.

Lemma stuck_turns s : stuck s -> turns_of s = [].
Proof.
  intros H. destruct (turns_of s) as [|s' l] eqn:E; [done|].
  assert (s' ∈ turns_of s) as Hs by (rewrite E; by left). unfold turns_of in Hs.
  apply list_elem_of_bind in Hs as (t & Hs & _). apply list_elem_of_bind in Hs as (c & Hs & _).
  destruct (turn loop_meaning t c s) as [[s1|]|] eqn:Et; [|by apply elem_of_nil in Hs..].
  apply list_elem_of_singleton in Hs as ->. destruct (H s1). by exists t, c.
Qed.

Lemma turns_stuck s : two s = true -> turns_of s = [] -> stuck s.
Proof.
  intros Hl%bool_decide_eq_true H s' (t & c & Ht). destruct (turn_choice t c s s' Hl Ht) as (c' & Hc & H').
  assert (s' ∈ turns_of s) as Hs; [|by rewrite H in Hs; apply elem_of_nil in Hs].
  assert (t < 2)%nat as Htl.
  { unfold turn in Ht. destruct (threads s !! t) eqn:E; [|done]. apply lookup_lt_Some in E. lia. }
  apply list_elem_of_bind. exists t. split.
  - apply list_elem_of_bind. exists c'. split; [rewrite H'; by left|]. destruct Hc as [->| ->]; [by left|by right; left].
  - destruct t as [|[|t]]; [by left|by right; left|lia].
Qed.

Lemma states_complete quits s : reachable loop_meaning false tt [[WaitLoop]; threadFunc quits] s -> s ∈ states quits.
Proof.
  intros H. apply (closed_reachable (states quits) s (startLoop quits)); [| |exact H].
  - destruct quits; vm_compute; reflexivity.
  - apply (bool_decide_eq_true (startLoop quits ∈ states quits)). destruct quits; vm_compute; reflexivity.
Qed.

(** In a thread whose loop runs on, [startLoop] returns: in every order of the
    turns of both threads and with wake-ups without a reason, when nobody can take a
    turn the caller has its loop. *)
Theorem startLoop_returns s :
  reachable loop_meaning false tt [[WaitLoop]; threadFunc false] s -> stuck s -> loop_returned s = true /\ guarded s = true.
Proof.
  intros Hs%states_complete Ht%stuck_turns.
  assert (forallb (fun s => match turns_of s with [] => loop_returned s && guarded s | _ => true end) (states false) = true) as H
    by (vm_compute; reflexivity).
  rewrite forallb_forall in H. specialize (H s (proj1 (list_elem_of_In _ _) Hs)). rewrite Ht in H.
  by apply andb_true_iff in H.
Qed.

(** The caller waits first, and is woken. *)
Definition returned_example : state :=
  default (startLoop false)
    (run loop_meaning (repeat (0, 0)%nat 4 ++ repeat (1, 0)%nat 6 ++ repeat (0, 0)%nat 5) (startLoop false)).

Lemma startLoop_returns_witness : loop_returned returned_example = true /\ guarded returned_example = true.
Proof.
  apply startLoop_returns.
  - apply (run_reaches _ (repeat (0, 0)%nat 4 ++ repeat (1, 0)%nat 6 ++ repeat (0, 0)%nat 5)). vm_compute. reflexivity.
  - apply turns_stuck; vm_compute; reflexivity.
Defined.

(** A loop that quits before the caller has seen it leaves the caller waiting
    for ever: the end of [threadFunc] clears [loop_], and nothing notifies again. *)
Theorem startLoop_misses_loop :
  exists s, reachable loop_meaning false tt [[WaitLoop]; threadFunc true] s /\
    forall s', rtc (step loop_meaning) s s' -> loop_returned s' = false.
Proof.
  set (s0 := run loop_meaning (repeat (1, 0)%nat 13) (startLoop true)).
  exists (default (startLoop true) s0). split.
  - apply (run_reaches _ (repeat (1, 0)%nat 13)). vm_compute. reflexivity.
  - intros s' H. set (l := explore 100 [] [default (startLoop true) s0]).
    assert (s' ∈ l) as Hl.
    { apply (closed_reachable l s' (default (startLoop true) s0)); [vm_compute; reflexivity| |exact H].
      apply (bool_decide_eq_true (default (startLoop true) s0 ∈ l)). vm_compute. reflexivity. }
    assert (forallb (fun s => negb (loop_returned s)) l = true) as Hn by (vm_compute; reflexivity).
    rewrite forallb_forall in Hn. by apply negb_true_iff, Hn, list_elem_of_In.
Qed.
