(* ===== verification/Stream.v ===== *)
(** * Streams
    (src/qslary/net/Stream.h, Stream.cc, SockStream.h, SockStream.cc)

    [Stream]'s two pure virtual reads and writes are the class [Stream]; the
    transfers of a fixed size are loops over them. [SockStream] implements them
    with a socket. *)
From stdpp Require Import base list.
From Stdlib Require Import ZArith Ascii String Lia.
From S2P Require Import Prelude CLib ByteArray Socket.
Open Scope Z_scope.

(** ** The virtual methods

    [read w n] gives the value returned, the bytes placed in the buffer and the
    stream after it; [write w d] is handed the [d] that is left to write. *)
Class Stream (W : Type) : Type := {
  read : W -> Z -> Z * list ascii * W;
  write : W -> list ascii -> Z * W;
  read_array : W -> ByteArray -> Z -> outcome (Z * W * ByteArray);
  write_array : W -> ByteArray -> Z -> outcome (Z * W * ByteArray)
}.

Section fixed_size.
Context {W : Type} `{!Stream W}.

(** The loops have as much fuel as bytes to transfer ([fixed_size_transfers]
    shows that it is enough); the result is the value returned, the bytes placed
    in the buffer, and the stream. *)
Fixpoint read_loop (fuel : nat) (length left : Z) (w : W) (buffer : list ascii)
    : option (Z * list ascii * W) :=
  if 0 <? left then
    match fuel with
    | O => None
    | S fuel =>
        let '(len, d, w) := read w left in
        if len <=? 0 then Some (i32 len, buffer, w)
        else read_loop fuel length (left - len) w (buffer ++ d)
    end
  else Some (i32 length, buffer, w).

(** [Stream::readFixSize(void*, size_t)] *)
Definition readFixSize (w : W) (length : Z) : option (Z * list ascii * W) :=
  read_loop (Z.to_nat (i64 length)) length (i64 length) w [].

Fixpoint write_loop (fuel : nat) (length left : Z) (w : W) (buffer : list ascii)
    : option (Z * W) :=
  if 0 <? left then
    match fuel with
    | O => None
    | S fuel =>
        let '(len, w) := write w buffer in
        if len <=? 0 then Some (i32 len, w)
        else write_loop fuel length (left - len) w (drop (Z.to_nat len) buffer)
    end
  else Some (i32 length, w).

(** [Stream::writeFixSize(const void*, size_t)] of a whole buffer *)
Definition writeFixSize (w : W) (buffer : list ascii) : option (Z * W) :=
  let length := Z.of_nat (List.length buffer) in
  write_loop (Z.to_nat (i64 length)) length (i64 length) w buffer.

(** The loops over a [ByteArray], for either direction. *)
Fixpoint array_loop (step : W -> ByteArray -> Z -> outcome (Z * W * ByteArray))
    (fuel : nat) (length left : Z) (w : W) (b : ByteArray) : outcome (option (Z * W * ByteArray)) :=
  if 0 <? left then
    match fuel with
    | O => Ret None
    | S fuel =>
        let! r := step w b left in
        let '(len, w, b) := r in
        if len <=? 0 then Ret (Some (i32 len, w, b))
        else array_loop step fuel length (left - len) w b
    end
  else Ret (Some (i32 length, w, b)).

Definition readFixSize_array (w : W) (b : ByteArray) (length : Z) : outcome (option (Z * W * ByteArray)) :=
  array_loop read_array (Z.to_nat (i64 length)) length (i64 length) w b.
Definition writeFixSize_array (w : W) (b : ByteArray) (length : Z) : outcome (option (Z * W * ByteArray)) :=
  array_loop write_array (Z.to_nat (i64 length)) length (i64 length) w b.
End fixed_size.

(** ** Socket streams *)
Section sockstream.
Context {K : Type} (sys : System K).

(** [sock_] may be null; the state of the system the socket's calls change goes
    along. *)
Record SockStream : Type := mkSockStream { sock_ : option Socket; ower_ : bool; kernel : K }.

Definition set_kernel (w : SockStream) (k : K) : SockStream := mkSockStream (sock_ w) (ower_ w) k.

(** [SockStream::isConnected], and what follows the early return of [-1]. *)
Definition isConnected (w : SockStream) : bool :=
  match sock_ w with Some s => isConnected_ s | None => false end.
Definition if_connected {A} (w : SockStream) (f : Socket -> A) (otherwise : A) : A :=
  match sock_ w with
  | Some s => if isConnected w then f s else otherwise
  | None => otherwise
  end.

Definition SockStream_read (w : SockStream) (length : Z) : Z * list ascii * SockStream :=
  if_connected w (fun s =>
    let '(r, d, k) := recv sys s (kernel w) length in (r, d, set_kernel w k)) (-1, [], w).

Definition SockStream_write (w : SockStream) (d : list ascii) : Z * SockStream :=
  if_connected w (fun s =>
    let '(r, k) := send sys s (kernel w) d in (r, set_kernel w k)) (-1, w).

(** The received bytes go to [iov_base]; the array's write index stays. *)
Definition SockStream_read_array (w : SockStream) (b : ByteArray) (length : Z)
    : outcome (Z * SockStream * ByteArray) :=
  if_connected w (fun s =>
    let! g := GetWriteBuffer b length in
    let '(_, iov, b) := g in
    let '(ret, d, k) := recv sys s (kernel w) (iov_len iov) in
    let! buf := store (mBuffer b) (iov_base iov) d in
    Ret (ret, set_kernel w k, mkByteArray buf (mReadIndex b) (mWriteIndex b)))
  (Ret (-1, w, b)).

(** [GetReadBuffer] has moved the read index before anything is sent. *)
Definition SockStream_write_array (w : SockStream) (b : ByteArray) (length : Z)
    : outcome (Z * SockStream * ByteArray) :=
  if_connected w (fun s =>
    let! g := GetReadBuffer b length in
    let '(_, iov, b) := g in
    let! d := load (mBuffer b) (iov_base iov) (iov_len iov) in
    let '(ret, k) := send sys s (kernel w) d in
    Ret (ret, set_kernel w k, b))
  (Ret (-1, w, b)).

Definition SockStream_close (w : SockStream) : SockStream :=
  match sock_ w with
  | Some s => let '(_, s, k) := close sys s (kernel w) in mkSockStream (Some s) (ower_ w) k
  | None => w
  end.

(** [~SockStream] *)
Definition delete_SockStream (w : SockStream) : SockStream :=
  if ower_ w then SockStream_close w else w.

Instance SockStream_stream : Stream SockStream := {
  read := SockStream_read;
  write := SockStream_write;
  read_array := SockStream_read_array;
  write_array := SockStream_write_array
}.
End sockstream.
Arguments SockStream : clear implicits.
