(* ===== verification/StreamCorrect.v ===== *)
(** * Correctness of the transfers of a fixed size

    The loops against the interface [StreamLaws], the interface implemented by
    [SockStream] over system calls with their documented behaviour, and what
    becomes of bytes transferred to and from a [ByteArray]. *)
From stdpp Require Import base list.
From Stdlib Require Import ZArith Ascii String Lia.
From S2P Require Import Prelude CLib ByteArray ByteArrayCorrect Address Socket Stream.
Open Scope Z_scope.

(** ** The interface

    [inbox] is what the peer sends from now on, [outbox] what has been sent: a
    positive result of [read] or [write] is the count of the bytes moved, at
    most what was asked for; any other result moves nothing. *)
Class StreamLaws (W : Type) `{!Stream W} : Type := {
  inbox : W -> list ascii;
  outbox : W -> list ascii;
  read_law w n r d w' :
    0 < n -> read w n = (r, d, w') ->
    - 2 ^ 31 <= r <= n /\ inbox w = (if 0 <? r then d else []) ++ inbox w' /\
    (0 < r -> Z.of_nat (List.length d) = r);
  write_law w b r w' :
    b <> [] -> write w b = (r, w') ->
    - 2 ^ 31 <= r <= Z.of_nat (List.length b) /\
    outbox w' = outbox w ++ take (Z.to_nat r) b
}.

Section transfers.
Context {W : Type} `{!Stream W, !StreamLaws W}.

Lemma wraps_fits w x : 1 <= w -> - 2 ^ (w - 1) <= x < 2 ^ (w - 1) -> wraps w x = x.
Proof.
  intros Hw Hx. apply wraps_small; [done|]. unfold in_int.
  by rewrite (proj2 (Z.leb_le _ _)), (proj2 (Z.ltb_lt _ _)) by lia.
Qed.

Lemma read_loop_ok length fuel : forall left w buffer,
  0 <= left -> (Z.to_nat left <= fuel)%nat -> length = Z.of_nat (List.length buffer) + left ->
  exists r d w', read_loop fuel length left w buffer = Some (r, d, w') /\
    buffer ++ inbox w = d ++ inbox w' /\
    ((Z.of_nat (List.length d) = length /\ r = i32 length) \/
     (Z.of_nat (List.length d) < length /\ r <= 0)).
Proof.
  induction fuel as [|fuel IH]; intros left w buffer Hl Hf Hlen; cbn [read_loop].
  { assert (left = 0) as -> by lia. exists (i32 length), buffer, w. split_and!; [done|done|left; lia]. }
  destruct (Z.ltb_spec 0 left).
  2:{ exists (i32 length), buffer, w. split_and!; [done|done|left; lia]. }
  destruct (read w left) as [[r d] w1] eqn:E. destruct (read_law w left r d w1) as (Hr & Hin & Hd); [done|done|].
  destruct (Z.leb_spec r 0) as [Hr0|Hr0].
  - exists (i32 r), buffer, w1. split; [done|]. rewrite Hin.
    rewrite (proj2 (Z.ltb_ge 0 r)) by lia. split; [done|]. right. rewrite wraps_fits by lia. lia.
  - rewrite (proj2 (Z.ltb_lt 0 r)) in Hin by lia. specialize (Hd Hr0).
    destruct (IH (left - r) w1 (buffer ++ d)) as (r' & d' & w' & E' & Hin' & H'); [lia|lia|rewrite length_app; lia|].
    exists r', d', w'. split_and!; [done|by rewrite Hin, <-Hin', <-app_assoc|done].
Qed.

Lemma write_loop_ok length fuel : forall left w buffer,
  0 <= left -> (Z.to_nat left <= fuel)%nat -> left = Z.of_nat (List.length buffer) ->
  exists r w' n, write_loop fuel length left w buffer = Some (r, w') /\
    outbox w' = outbox w ++ take n buffer /\
    ((n = List.length buffer /\ r = i32 length) \/ ((n < List.length buffer)%nat /\ r <= 0)).
Proof.
  induction fuel as [|fuel IH]; intros left w buffer Hl Hf Hlen; cbn [write_loop].
  { assert (left = 0) as -> by lia. exists (i32 length), w, 0%nat. destruct buffer; [|cbn in Hlen; lia].
    split_and!; [done|by rewrite app_nil_r|by left]. }
  destruct (Z.ltb_spec 0 left).
  2:{ exists (i32 length), w, 0%nat. destruct buffer; [|cbn in Hlen; lia].
      split_and!; [done|by rewrite app_nil_r|by left]. }
  destruct (write w buffer) as [r w1] eqn:E.
  assert (buffer <> []) as Hne by (intros ->; cbn in Hlen; lia).
  destruct (write_law w buffer r w1 Hne E) as (Hr & Hout).
  destruct (Z.leb_spec r 0) as [Hr0|Hr0].
  - exists (i32 r), w1, 0%nat. assert (Z.to_nat r = 0%nat) as Hz by lia. rewrite Hz in Hout.
    split_and!; [done|done|]. right. rewrite wraps_fits by lia. lia.
  - destruct (IH (left - r) w1 (drop (Z.to_nat r) buffer)) as (r' & w' & n & E' & Hout' & H');
      [lia|lia|rewrite length_drop; lia|].
    exists r', w', (Z.to_nat r + n)%nat. split; [done|]. rewrite length_drop in H'. split.
    + rewrite Hout', Hout, <-app_assoc. f_equal. by rewrite take_take_drop.
    + destruct H' as [[-> ->]|[Hn H']]; [left|right]; lia.
Qed.

(** Reads that deliver something, each of which asks for what is left of [left]; and
    one that delivers nothing, at the end of the stream or by an error. *)
Inductive reads : Z -> W -> list ascii -> W -> Prop :=
| reads_none left w : reads left w [] w
| reads_some left w r d w1 d' w' :
    0 < left -> read w left = (r, d, w1) -> 0 < r -> reads (left - r) w1 d' w' -> reads left w (d ++ d') w'.
Definition read_fails (w : W) (left : Z) (w' : W) : Prop := exists r d, read w left = (r, d, w') /\ r <= 0.

(** Writes that send something, up to [rest]; and one that sends nothing. *)
Inductive writes : W -> list ascii -> list ascii -> W -> Prop :=
| writes_none w b : writes w b b w
| writes_some w b r w1 rest w' :
    b <> [] -> write w b = (r, w1) -> 0 < r -> writes w1 (drop (Z.to_nat r) b) rest w' -> writes w b rest w'.
Definition write_fails (w : W) (b : list ascii) (w' : W) : Prop := exists r, write w b = (r, w') /\ r <= 0.

Lemma reads_inbox left w d w' : reads left w d w' -> inbox w = d ++ inbox w'.
Proof.
  induction 1 as [|left w r d w1 d' w' Hl E Hr _ IH]; [done|].
  destruct (read_law w left r d w1 Hl E) as (_ & Hin & _). rewrite (proj2 (Z.ltb_lt 0 r)) in Hin by lia.
  by rewrite Hin, IH, app_assoc.
Qed.

Lemma reads_no_more w d w' : reads 0 w d w' -> d = [] /\ w' = w.
Proof. inversion 1; [done|lia]. Qed.

Lemma reads_total n : forall left w, 0 <= left -> (Z.to_nat left <= n)%nat ->
  exists d w', reads left w d w' /\
    (Z.of_nat (List.length d) = left \/
     Z.of_nat (List.length d) < left /\ exists w2, read_fails w' (left - Z.of_nat (List.length d)) w2).
Proof.
  induction n as [|n IH]; intros left w Hl Hn.
  { exists [], w. split; [constructor|]. left. cbn. lia. }
  destruct (decide (left = 0)) as [->|Hne]; [exists [], w; split; [constructor|by left]|].
  destruct (read w left) as [[r d] w1] eqn:E. destruct (read_law w left r d w1) as (Hr & _ & Hd); [lia|done|].
  destruct (Z.leb_spec r 0).
  - exists [], w. split; [constructor|]. right. split; [cbn; lia|]. exists w1, r, d. cbn [List.length]. by rewrite Z.sub_0_r.
  - specialize (Hd ltac:(lia)). destruct (IH (left - r) w1) as (d' & w' & Hr' & H'); [lia|lia|].
    exists (d ++ d'), w'. split; [by eapply reads_some; [lia|exact E|lia|]|]. rewrite length_app.
    replace (left - Z.of_nat (List.length d + List.length d')) with (left - r - Z.of_nat (List.length d')) by lia.
    destruct H' as [H'|[H' H2]]; [left; lia|right; split; [lia|done]].
Qed.

Lemma read_loop_reads length left w d w' : reads left w d w' -> forall fuel buffer, (Z.to_nat left <= fuel)%nat ->
  exists fuel', (Z.to_nat (left - Z.of_nat (List.length d)) <= fuel')%nat /\
    read_loop fuel length left w buffer = read_loop fuel' length (left - Z.of_nat (List.length d)) w' (buffer ++ d).
Proof.
  induction 1 as [left w|left w r d w1 d' w' Hl E Hr _ IH]; intros fuel buffer Hf.
  { exists fuel. cbn [List.length]. by rewrite Z.sub_0_r, app_nil_r. }
  destruct (read_law w left r d w1 Hl E) as (Hrl & _ & Hd). specialize (Hd Hr).
  destruct fuel as [|fuel]; [lia|]. destruct (IH fuel (buffer ++ d)) as (fuel' & Hf' & E'); [lia|].
  exists fuel'. rewrite length_app. replace (left - Z.of_nat (List.length d + List.length d'))
    with (left - r - Z.of_nat (List.length d')) by lia. split; [done|].
  cbn [read_loop]. rewrite (proj2 (Z.ltb_lt 0 left)), E, (proj2 (Z.leb_gt r 0)) by lia. by rewrite E', app_assoc.
Qed.

(** A transfer that gets all it asks for, and one that does not. *)
Lemma readFixSize_gets length w d w' : 0 <= length < 2 ^ 63 ->
  reads length w d w' -> Z.of_nat (List.length d) = length -> readFixSize w length = Some (i32 length, d, w').
Proof.
  intros Hl Hr Hd. unfold readFixSize. rewrite wraps_fits by lia.
  destruct (read_loop_reads length length w d w' Hr (Z.to_nat length) [] (le_n _)) as (fuel & _ & ->).
  rewrite Hd, Z.sub_diag. by destruct fuel.
Qed.
Lemma readFixSize_fails length w d w1 w' : 0 <= length < 2 ^ 63 ->
  reads length w d w1 -> Z.of_nat (List.length d) < length -> read_fails w1 (length - Z.of_nat (List.length d)) w' ->
  exists r, readFixSize w length = Some (r, d, w') /\ r <= 0.
Proof.
  intros Hl Hr Hd (r & d' & E & Hr0). unfold readFixSize. rewrite wraps_fits by lia.
  destruct (read_loop_reads length length w d w1 Hr (Z.to_nat length) [] (le_n _)) as (fuel & Hf & ->).
  destruct fuel as [|fuel]; [lia|]. cbn [read_loop]. rewrite (proj2 (Z.ltb_lt _ _)), E, (proj2 (Z.leb_le r 0)) by lia.
  destruct (read_law w1 (length - Z.of_nat (List.length d)) r d' w' ltac:(lia) E) as (Hrl & _).
  exists (i32 r). split; [done|]. rewrite wraps_fits by lia. done.
Qed.

Lemma writes_total n : forall w b, (List.length b <= n)%nat ->
  exists rest w', writes w b rest w' /\ (rest = [] \/ rest <> [] /\ exists w2, write_fails w' rest w2).
Proof.
  induction n as [|n IH]; intros w b Hn; [destruct b; [|cbn in Hn; lia]; exists [], w; split; [constructor|by left]|].
  destruct (decide (b = [])) as [->|Hb]; [exists [], w; split; [constructor|by left]|].
  destruct (write w b) as [r w1] eqn:E. destruct (Z.leb_spec r 0) as [Hr|Hr].
  - exists b, w. split; [constructor|]. right. split; [done|]. by exists w1, r.
  - destruct (IH w1 (drop (Z.to_nat r) b)) as (rest & w' & Hw & H'); [rewrite length_drop; lia|].
    exists rest, w'. split; [by eapply writes_some|done].
Qed.

Lemma write_loop_writes length w b rest w' : writes w b rest w' -> forall fuel, (List.length b <= fuel)%nat ->
  exists fuel', (List.length rest <= fuel')%nat /\
    write_loop fuel length (Z.of_nat (List.length b)) w b = write_loop fuel' length (Z.of_nat (List.length rest)) w' rest /\
    outbox w' = outbox w ++ take (List.length b - List.length rest) b /\ (List.length rest <= List.length b)%nat.
Proof.
  induction 1 as [w b|w b r w1 rest w' Hb E Hr _ IH]; intros fuel Hf.
  { exists fuel. by rewrite Nat.sub_diag, take_0, app_nil_r. }
  destruct (write_law w b r w1 Hb E) as (Hrl & Hout). destruct fuel as [|fuel]; [destruct b; [done|cbn in Hf; lia]|].
  destruct (IH fuel) as (fuel' & Hf' & E' & Ho & Hle); [rewrite length_drop; lia|]. rewrite length_drop in Hle, E', Ho.
  exists fuel'. split; [done|]. split; [|split; [|lia]].
  - cbn [write_loop]. rewrite (proj2 (Z.ltb_lt 0 _)), E, (proj2 (Z.leb_gt r 0)) by lia.
    rewrite <- E'. f_equal. lia.
  - rewrite Ho, Hout, <- app_assoc. f_equal. rewrite take_take_drop. f_equal. lia.
Qed.

Lemma writeFixSize_sends w b w' : Z.of_nat (List.length b) < 2 ^ 63 -> writes w b [] w' ->
  writeFixSize w b = Some (i32 (Z.of_nat (List.length b)), w') /\ outbox w' = outbox w ++ b.
Proof.
  intros Hb Hw. unfold writeFixSize. rewrite wraps_fits by lia.
  destruct (write_loop_writes (Z.of_nat (List.length b)) w b [] w' Hw (Z.to_nat (Z.of_nat (List.length b)))) as (fuel & _ & -> & Ho & _);
    [lia|]. split; [by destruct fuel|]. by rewrite Ho, Nat.sub_0_r, take_ge.
Qed.
Lemma writeFixSize_fails w b rest w1 w' : Z.of_nat (List.length b) < 2 ^ 63 ->
  writes w b rest w1 -> rest <> [] -> write_fails w1 rest w' ->
  exists r, writeFixSize w b = Some (r, w') /\ r <= 0 /\
    outbox w' = outbox w ++ take (List.length b - List.length rest) b.
Proof.
  intros Hb Hw Hne (r & E & Hr). unfold writeFixSize. rewrite wraps_fits by lia.
  destruct (write_loop_writes (Z.of_nat (List.length b)) w b rest w1 Hw (Z.to_nat (Z.of_nat (List.length b)))) as (fuel & Hf & -> & Ho & _);
    [lia|]. destruct (write_law w1 rest r w' Hne E) as (Hrl & Ho').
  destruct fuel as [|fuel]; [destruct rest; [done|cbn in Hf; lia]|]. cbn [write_loop].
  rewrite (proj2 (Z.ltb_lt 0 _)), E, (proj2 (Z.leb_le r 0)) by (done || (destruct rest; [done|cbn [List.length]; lia])).
  exists (i32 r). split; [done|]. split; [rewrite wraps_fits by lia; done|].
  rewrite Ho', Ho. replace (Z.to_nat r) with 0%nat by lia. by rewrite take_0, app_nil_r.
Qed.

(** A transfer of a fixed size ends; when it succeeds it has moved all the
    bytes in order, and when it fails it has moved a proper prefix of them and
    its result is not positive. The result of a success is the size converted
    to [int], which is positive only below [2 ^ 31]. *)
Theorem fixed_size_transfers w length buffer :
  0 <= length < 2 ^ 63 -> Z.of_nat (List.length buffer) < 2 ^ 63 ->
  (exists r d w', readFixSize w length = Some (r, d, w') /\ inbox w = d ++ inbox w' /\
     ((Z.of_nat (List.length d) = length /\ r = i32 length) \/
      (Z.of_nat (List.length d) < length /\ r <= 0))) /\
  (exists r w' n, writeFixSize w buffer = Some (r, w') /\ outbox w' = outbox w ++ take n buffer /\
     ((n = List.length buffer /\ r = i32 (Z.of_nat (List.length buffer))) \/
      ((n < List.length buffer)%nat /\ r <= 0))).
Proof.
  intros Hl Hb. unfold readFixSize, writeFixSize.
  assert (forall x, 0 <= x < 2 ^ 63 -> i64 x = x) as Hi by (intros x Hx; apply wraps_fits; lia).
  rewrite !Hi by lia. split.
  - destruct (read_loop_ok length (Z.to_nat length) length w []) as (r & d & w' & H); [lia|done|done|].
    by exists r, d, w'.
  - by apply write_loop_ok; [lia|lia|done].
Qed.
End transfers.

(** ** Socket streams *)
Section sockstream.
Context {K : Type}.
Context (sys : System K).

(** What the peer of a descriptor sends from now on, and what was sent to it. *)
Context (k_in k_out : K -> Z -> list ascii).

(** The documented behaviour of [recv] and [send]: the count moved, at most the
    size asked for and [0x7ffff000], or -1 and nothing moved. *)
Definition transfer_limit : Z := 0x7ffff000.
Hypothesis recv_spec : forall k fd n r d k', 0 < n -> sys_recv sys k fd n = (r, d, k') ->
  -1 <= r <= Z.min n transfer_limit /\ k_in k fd = d ++ k_in k' fd /\
  Z.of_nat (List.length d) = Z.max 0 r.
Hypothesis send_spec : forall k fd b r k', b <> [] -> sys_send sys k fd b = (r, k') ->
  -1 <= r <= Z.min (Z.of_nat (List.length b)) transfer_limit /\
  k_out k' fd = k_out k fd ++ take (Z.to_nat r) b.
Implicit Types w : SockStream K.

Definition stream_in w : list ascii :=
  match sock_ w with Some s => k_in (kernel w) (socketfd_ s) | None => [] end.
Definition stream_out w : list ascii :=
  match sock_ w with Some s => k_out (kernel w) (socketfd_ s) | None => [] end.

Lemma transfer_small r n : -1 <= r <= Z.min n transfer_limit -> i32 r = r.
Proof. intros H. apply wraps_fits; [lia|]. unfold transfer_limit in H. lia. Qed.

Lemma SockStream_read_law w n r d w' :
  0 < n -> SockStream_read sys w n = (r, d, w') ->
  - 2 ^ 31 <= r <= n /\ stream_in w = (if 0 <? r then d else []) ++ stream_in w' /\
  (0 < r -> Z.of_nat (List.length d) = r).
Proof.
  intros Hn. unfold SockStream_read, if_connected, isConnected, stream_in, recv.
  destruct w as [[s|] o k]; cbn [sock_ kernel]; [|intros [= <- <- <-]; split_and!; [lia|lia|done|lia]].
  destruct (isConnected_ s) eqn:Ec; [|intros [= <- <- <-]; split_and!; [lia|lia|done|lia]].
  destruct (sys_recv sys k (socketfd_ s) n) as [[r0 d0] k'] eqn:E.
  destruct (recv_spec _ _ _ _ _ _ Hn E) as (Hr & Hin & Hd).
  rewrite (transfer_small _ _ Hr). intros [= <- <- <-]. cbn.
  split_and!; [lia|lia| |lia]. rewrite Hin. destruct (Z.ltb_spec 0 r0); [done|].
  destruct d0; [done|]. cbn in Hd. lia.
Qed.

Lemma SockStream_write_law w b r w' :
  b <> [] -> SockStream_write sys w b = (r, w') ->
  - 2 ^ 31 <= r <= Z.of_nat (List.length b) /\
  stream_out w' = stream_out w ++ take (Z.to_nat r) b.
Proof.
  intros Hb. unfold SockStream_write, if_connected, isConnected, stream_out, send.
  destruct w as [[s|] o k]; cbn [sock_ kernel];
    [|intros [= <- <-]; split; [lia|by rewrite app_nil_r]].
  destruct (isConnected_ s) eqn:Ec; [|intros [= <- <-]; split; [lia|by rewrite app_nil_r]].
  destruct (sys_send sys k (socketfd_ s) b) as [r0 k'] eqn:E.
  destruct (send_spec _ _ _ _ _ Hb E) as (Hr & Hout).
  rewrite (transfer_small _ _ Hr). intros [= <- <-]. split; [lia|exact Hout].
Qed.

(** [SockStream] implements the interface. *)
Definition SockStream_laws : @StreamLaws (SockStream K) (SockStream_stream sys) :=
  @Build_StreamLaws (SockStream K) (SockStream_stream sys) stream_in stream_out
    SockStream_read_law SockStream_write_law.

(** A byte array and a connected socket stream do not fit together. What a
    read receives is consumed from the peer, but the array holds the same bytes
    as before; and a write removes all the bytes it was asked to send from the
    array, however few of them have been sent. *)
Theorem array_transfers_lose w s b r e len :
  sock_ w = Some s -> isConnected_ s = true -> wf b r e ->
  0 < len -> size_of (mBuffer b) + len < limit ->
  (exists ret w' b' d, SockStream_read_array sys w b len = Ret (ret, w', b') /\
     valid_bytes b' /\ bytes b' = bytes b /\
     stream_in w = d ++ stream_in w' /\ Z.of_nat (List.length d) = Z.max 0 ret) /\
  (bytes b <> [] ->
   exists ret w' b', SockStream_write_array sys w b len = Ret (ret, w', b') /\
     valid_bytes b' /\ bytes b' = drop (Z.to_nat len) (bytes b) /\
     stream_out w' = stream_out w ++ take (Z.to_nat ret) (take (Z.to_nat len) (bytes b))).
Proof.
  intros Hs Hc Hwf Hlen Hlim. split.
  - unfold SockStream_read_array, if_connected, isConnected, stream_in, GetWriteBuffer, recv. rewrite Hs, Hc.
    destruct (MakeSpace_ok b r e len Hwf ltac:(lia) Hlim) as (b' & r' & e' & -> & Hwf' & Hb & Hroom & _).
    cbn [obind]. rewrite (wf_w _ _ _ Hwf'). cbn [deref obind iov_len iov_base].
    destruct (sys_recv sys (kernel w) (socketfd_ s) len) as [[r0 d] k'] eqn:E.
    destruct (recv_spec _ _ _ _ _ _ Hlen E) as (Hr & Hin & Hd).
    unfold size_of in Hroom. rewrite store_ok by lia. cbn [obind].
    eexists _, _, _, d. split; [reflexivity|]. rewrite (transfer_small _ _ Hr). cbn.
    assert (wf (mkByteArray (take e' (mBuffer b') ++ d ++ drop (e' + List.length d) (mBuffer b'))
      (mReadIndex b') (mWriteIndex b')) r' e') as Hwf2.
    { destruct Hwf' as [A B C D]. constructor; cbn; [done|done| |];
        rewrite ?length_store by lia; [lia|]. unfold size_of in *. by rewrite length_store by lia. }
    split_and!; [by exists r', e'| |by rewrite Hs|done].
    rewrite <-Hb, (wf_bytes _ _ _ Hwf2), (wf_bytes _ _ _ Hwf'). cbn. destruct Hwf' as [A B C D].
    by rewrite window_resize by lia.
  - intros Hne.
    destruct (GetReadBuffer_ok b r e len Hwf ltac:(lia)) as (b' & r' & E & El & Hwf' & Hb & _).
    unfold SockStream_write_array, if_connected, isConnected, stream_out, send. rewrite Hs, Hc, E. cbn [obind iov_base iov_len].
    rewrite El. cbn [obind].
    destruct (sys_send sys (kernel w) (socketfd_ s) (take (Z.to_nat len) (bytes b))) as [r0 k'] eqn:Es.
    assert (take (Z.to_nat len) (bytes b) <> []) as Htk.
    { destruct (bytes b); [done|]. by destruct (Z.to_nat len) eqn:El0; [lia|]. }
    destruct (send_spec _ _ _ _ _ Htk Es) as (Hr & Hout).
    rewrite (transfer_small _ _ Hr). eexists _, _, b'. split; [reflexivity|].
    split_and!; [by exists r', e|done|cbn [sock_ set_kernel kernel]; by rewrite Hs].
Qed.
End sockstream.

(** ** Witnesses

    A connection whose two ends are lists, with at most three bytes at a time. *)
Abbreviation Toy := (list ascii * list ascii)%type.
Definition toy_system : System Toy := {|
  sys_socket k _ _ _ := (5, k);
  sys_bind k _ _ := (0, k);
  sys_connect k _ _ := (0, k);
  sys_listen k _ _ := (0, k);
  sys_accept k _ := (-1, k);
  sys_close k _ := k;
  sys_send k _ d := (Z.of_nat (List.length (take 3 d)), (k.1, k.2 ++ take 3 d));
  sys_recv k _ n :=
    let d := take (Z.to_nat (Z.min n 3)) k.1 in
    (Z.of_nat (List.length d), d, (drop (Z.to_nat (Z.min n 3)) k.1, k.2));
  sys_setsockopt k _ _ _ _ := (0, k);
  sys_getsockopt k _ _ _ := (0, 0);
  sys_getsockname k _ a := Some (a, 0);
  sys_getpeername k _ a := Some (a, 0);
  sys_fdcontext k _ := None
|}.

Lemma toy_recv_spec (k : Toy) (fd n r : Z) d k' : 0 < n -> sys_recv toy_system k fd n = (r, d, k') ->
  -1 <= r <= Z.min n transfer_limit /\ k.1 = d ++ k'.1 /\ Z.of_nat (List.length d) = Z.max 0 r.
Proof.
  intros Hn [= <- <- <-]. cbn [fst]. rewrite length_take. unfold transfer_limit.
  split; [lia|]. split; [by rewrite take_drop|lia].
Qed.

Lemma toy_send_spec (k : Toy) (fd : Z) b r k' : b <> [] -> sys_send toy_system k fd b = (r, k') ->
  -1 <= r <= Z.min (Z.of_nat (List.length b)) transfer_limit /\ k'.2 = k.2 ++ take (Z.to_nat r) b.
Proof.
  intros _ [= <- <-]. cbn [snd]. rewrite length_take. unfold transfer_limit. split; [lia|].
  f_equal. rewrite Nat2Z.id. destruct (decide (List.length b <= 3)%nat); [rewrite !take_ge by lia; done|].
  f_equal. lia.
Qed.

Definition toy_socket : Socket := mkSocket 5 AF_INET SOCK_STREAM 0 true None None.
Definition toy_stream (text : string) : SockStream Toy :=
  mkSockStream (Some toy_socket) false (list_ascii_of_string text, []).

Definition toy_laws :=
  SockStream_laws toy_system (fun k _ => k.1) (fun k _ => k.2) toy_recv_spec toy_send_spec.

Lemma fixed_size_transfers_witness :
  exists r d w, @readFixSize _ (SockStream_stream toy_system) (toy_stream "hello world") 5 = Some (r, d, w) /\
    ((Z.of_nat (List.length d) = 5 /\ r = i32 5) \/ (Z.of_nat (List.length d) < 5 /\ r <= 0)).
Proof.
  destruct (@fixed_size_transfers _ (SockStream_stream toy_system) toy_laws (toy_stream "hello world") 5 [])
    as [(r & d & w & E & _ & H) _]; [lia|cbn; lia|].
  exists r, d, w. exact (conj E H).
Defined.

Lemma array_transfers_lose_witness :
  exists ret w b d, SockStream_read_array toy_system (toy_stream "hello") (mkByteArray [] (Some 0) (Some 0)) 5
      = Ret (ret, w, b) /\ bytes b = [] /\
    list_ascii_of_string "hello" = d ++ stream_in (fun k _ => k.1) w.
Proof.
  destruct (array_transfers_lose toy_system (fun k _ => k.1) (fun k _ => k.2) toy_recv_spec toy_send_spec
    (toy_stream "hello") toy_socket (mkByteArray [] (Some 0) (Some 0)) 0 0 5)
    as [(ret & w & b & d & E & _ & Hb & Hin & _) _];
    [done|done|by constructor; cbn|lia|vm_compute; done|].
  exists ret, w, b, d. exact (conj E (conj Hb Hin)).
Defined.
