(* ===== verification/Http.v ===== *)
(** * HTTP messages (src/qslary/http/Http.h and Http.cc)

    Methods and statuses with their names, the header maps ordered by
    [CaseInsensitiveLess], and the request and response objects with their
    accessors and printers. *)
From stdpp Require Import base list strings.
From Stdlib Require Import ZArith Ascii String Lia.
From S2P Require Import Prelude CLib.
Open Scope Z_scope.

(** ** Methods and statuses *)
Module HttpMethod.
Inductive t : Set :=
| DELETE | GET | HEAD | POST | PUT | CONNECT | OPTIONS | TRACE | COPY | LOCK
| MKCOL | MOVE | PROPFIND | PROPPATCH | SEARCH | UNLOCK | BIND | REBIND
| UNBIND | ACL | REPORT | MKACTIVITY | CHECKOUT | MERGE | MSEARCH | NOTIFY
| SUBSCRIBE | UNSUBSCRIBE | PATCH | PURGE | MKCALENDAR | LINK | UNLINK
| SOURCE | UNKNOW.

#[global] Instance eq_dec : EqDecision t.
Proof. solve_decision. Defined.
End HttpMethod.

(** The entries of the macros: number, enumerator and its name as a string. *)
Definition HTTP_METHOD_MAP : list (Z * HttpMethod.t * string) :=
  [(0, HttpMethod.DELETE, "DELETE");
   (1, HttpMethod.GET, "GET");
   (2, HttpMethod.HEAD, "HEAD");
   (3, HttpMethod.POST, "POST");
   (4, HttpMethod.PUT, "PUT");
   (5, HttpMethod.CONNECT, "CONNECT");
   (6, HttpMethod.OPTIONS, "OPTIONS");
   (7, HttpMethod.TRACE, "TRACE");
   (8, HttpMethod.COPY, "COPY");
   (9, HttpMethod.LOCK, "LOCK");
   (10, HttpMethod.MKCOL, "MKCOL");
   (11, HttpMethod.MOVE, "MOVE");
   (12, HttpMethod.PROPFIND, "PROPFIND");
   (13, HttpMethod.PROPPATCH, "PROPPATCH");
   (14, HttpMethod.SEARCH, "SEARCH");
   (15, HttpMethod.UNLOCK, "UNLOCK");
   (16, HttpMethod.BIND, "BIND");
   (17, HttpMethod.REBIND, "REBIND");
   (18, HttpMethod.UNBIND, "UNBIND");
   (19, HttpMethod.ACL, "ACL");
   (20, HttpMethod.REPORT, "REPORT");
   (21, HttpMethod.MKACTIVITY, "MKACTIVITY");
   (22, HttpMethod.CHECKOUT, "CHECKOUT");
   (23, HttpMethod.MERGE, "MERGE");
   (24, HttpMethod.MSEARCH, "MSEARCH");
   (25, HttpMethod.NOTIFY, "NOTIFY");
   (26, HttpMethod.SUBSCRIBE, "SUBSCRIBE");
   (27, HttpMethod.UNSUBSCRIBE, "UNSUBSCRIBE");
   (28, HttpMethod.PATCH, "PATCH");
   (29, HttpMethod.PURGE, "PURGE");
   (30, HttpMethod.MKCALENDAR, "MKCALENDAR");
   (31, HttpMethod.LINK, "LINK");
   (32, HttpMethod.UNLINK, "UNLINK");
   (33, HttpMethod.SOURCE, "SOURCE")]%string.

(** A status is its number: the response parser stores any code in it. *)
Definition HTTP_STATUS_MAP : list (Z * string) :=
  [(100, "CONTINUE");
   (101, "SWITCHING_PROTOCOLS");
   (102, "PROCESSING");
   (200, "OK");
   (201, "CREATED");
   (202, "ACCEPTED");
   (203, "NON_AUTHORITATIVE_INFORMATION");
   (204, "NO_CONTENT");
   (205, "RESET_CONTENT");
   (206, "PARTIAL_CONTENT");
   (207, "MULTI_STATUS");
   (208, "ALREADY_REPORTED");
   (226, "IM_USED");
   (300, "MULTIPLE_CHOICES");
   (301, "MOVED_PERMANENTLY");
   (302, "FOUND");
   (303, "SEE_OTHER");
   (304, "NOT_MODIFIED");
   (305, "USE_PROXY");
   (307, "TEMPORARY_REDIRECT");
   (308, "PERMANENT_REDIRECT");
   (400, "BAD_REQUEST");
   (401, "UNAUTHORIZED");
   (402, "PAYMENT_REQUIRED");
   (403, "FORBIDDEN");
   (404, "NOT_FOUND");
   (405, "METHOD_NOT_ALLOWED");
   (406, "NOT_ACCEPTABLE");
   (407, "PROXY_AUTHENTICATION_REQUIRED");
   (408, "REQUEST_TIMEOUT");
   (409, "CONFLICT");
   (410, "GONE");
   (411, "LENGTH_REQUIRED");
   (412, "PRECONDITION_FAILED");
   (413, "PAYLOAD_TOO_LARGE");
   (414, "URI_TOO_LONG");
   (415, "UNSUPPORTED_MEDIA_TYPE");
   (416, "RANGE_NOT_SATISFIABLE");
   (417, "EXPECTATION_FAILED");
   (421, "MISDIRECTED_REQUEST");
   (422, "UNPROCESSABLE_ENTITY");
   (423, "LOCKED");
   (424, "FAILED_DEPENDENCY");
   (426, "UPGRADE_REQUIRED");
   (428, "PRECONDITION_REQUIRED");
   (429, "TOO_MANY_REQUESTS");
   (431, "REQUEST_HEADER_FIELDS_TOO_LARGE");
   (451, "UNAVAILABLE_FOR_LEGAL_REASONS");
   (500, "INTERNAL_SERVER_ERROR");
   (501, "NOT_IMPLEMENTED");
   (502, "BAD_GATEWAY");
   (503, "SERVICE_UNAVAILABLE");
   (504, "GATEWAY_TIMEOUT");
   (505, "HTTP_VERSION_NOT_SUPPORTED");
   (506, "VARIANT_ALSO_NEGOTIATES");
   (507, "INSUFFICIENT_STORAGE");
   (508, "LOOP_DETECTED");
   (510, "NOT_EXTENDED");
   (511, "NETWORK_AUTHENTICATION_REQUIRED")]%string.

Definition UNKNOW_STATUS : Z := 512.
Definition OK_STATUS : Z := 200.

(** [strncmp(#name, method, strlen(#name)) == 0], entry by entry. *)
Fixpoint find_method (l : list (Z * HttpMethod.t * string)) (method : string) : HttpMethod.t :=
  match l with
  | [] => HttpMethod.UNKNOW
  | (_, m, name) :: l' =>
      if strncmp name method (String.length name) =? 0 then m else find_method l' method
  end.
Definition StringToHttpMethod (method : string) : HttpMethod.t := find_method HTTP_METHOD_MAP method.
Definition CharsToHttpMethod (method : string) : HttpMethod.t := find_method HTTP_METHOD_MAP method.

(** [strcmp(#name, status) == 0], entry by entry. *)
Fixpoint find_status (l : list (Z * string)) (status : string) : Z :=
  match l with
  | [] => UNKNOW_STATUS
  | (n, name) :: l' => if strcmp name status =? 0 then n else find_status l' status
  end.
Definition StringToHttpStatus (status : string) : Z := find_status HTTP_STATUS_MAP status.
Definition CharsToHttpStatus (status : string) : Z := find_status HTTP_STATUS_MAP status.

Fixpoint method_name (l : list (Z * HttpMethod.t * string)) (m : HttpMethod.t) : string :=
  match l with
  | [] => "UNKNOW"
  | (_, m', name) :: l' => if bool_decide (m = m') then name else method_name l' m
  end.
Definition HttpMethodToString (m : HttpMethod.t) : string := method_name HTTP_METHOD_MAP m.

Fixpoint status_name (l : list (Z * string)) (s : Z) : string :=
  match l with
  | [] => "UNKNOW"
  | (n, name) :: l' => if s =? n then name else status_name l' s
  end.
Definition HttpStatusToString (s : Z) : string := status_name HTTP_STATUS_MAP s.

(** ** Header maps *)
Definition CaseInsensitiveLess (lhs rhs : string) : bool := strcasecmp lhs rhs <? 0.

(** [std::map<std::string, std::string, CaseInsensitiveLess>] as the list of
    its pairs in order. *)
Abbreviation HttpMap := (list (string * string)).

Fixpoint map_find (m : HttpMap) (key : string) : option string :=
  match m with
  | [] => None
  | (k, v) :: m' =>
      if CaseInsensitiveLess k key then map_find m' key
      else if CaseInsensitiveLess key k then None else Some v
  end.

(** [map[key] = value]: an equivalent key keeps its spelling. *)
Fixpoint map_set (m : HttpMap) (key value : string) : HttpMap :=
  match m with
  | [] => [(key, value)]
  | (k, v) :: m' =>
      if CaseInsensitiveLess k key then (k, v) :: map_set m' key value
      else if CaseInsensitiveLess key k then (key, value) :: m
      else (k, value) :: m'
  end.

Fixpoint map_erase (m : HttpMap) (key : string) : HttpMap :=
  match m with
  | [] => []
  | (k, v) :: m' =>
      if CaseInsensitiveLess k key then (k, v) :: map_erase m' key
      else if CaseInsensitiveLess key k then m else m'
  end.

Definition map_get (m : HttpMap) (key : string) : string := default ""%string (map_find m key).

(** ** Requests *)
Record HttpRequest : Set := mkRequest {
  method_ : HttpMethod.t;
  mProtocol : string;
  mVersion : Z;                                         (** [uint8_t] *)
  status_ : Z;
  close_ : bool;
  mURL : string;
  path_ : string;
  query_ : string;
  fragment_ : string;
  body_ : string;
  headres_ : HttpMap;
  parmas_ : HttpMap;
  cookies_ : HttpMap
}.

Definition new_HttpRequest : HttpRequest :=
  mkRequest HttpMethod.GET "" 0 OK_STATUS true "" "/" "" "" "" [] [] [].
Definition new_HttpRequest_of (m : HttpMethod.t) (status version : Z) (close : bool) : HttpRequest :=
  mkRequest m "" version status close "" "" "" "" "" [] [] [].

Definition setMethod (r : HttpRequest) (x : HttpMethod.t) : HttpRequest :=
  mkRequest x (mProtocol r) (mVersion r) (status_ r) (close_ r) (mURL r)
    (path_ r) (query_ r) (fragment_ r) (body_ r) (headres_ r) (parmas_ r)
    (cookies_ r).
Definition setStatus (r : HttpRequest) (x : Z) : HttpRequest :=
  mkRequest (method_ r) (mProtocol r) (mVersion r) x (close_ r) (mURL r)
    (path_ r) (query_ r) (fragment_ r) (body_ r) (headres_ r) (parmas_ r)
    (cookies_ r).
Definition setVersion (r : HttpRequest) (x : Z) : HttpRequest :=
  mkRequest (method_ r) (mProtocol r) x (status_ r) (close_ r) (mURL r)
    (path_ r) (query_ r) (fragment_ r) (body_ r) (headres_ r) (parmas_ r)
    (cookies_ r).
Definition SetProtocl (r : HttpRequest) (x : string) : HttpRequest :=
  mkRequest (method_ r) x (mVersion r) (status_ r) (close_ r) (mURL r)
    (path_ r) (query_ r) (fragment_ r) (body_ r) (headres_ r) (parmas_ r)
    (cookies_ r).
Definition SetURL (r : HttpRequest) (x : string) : HttpRequest :=
  mkRequest (method_ r) (mProtocol r) (mVersion r) (status_ r) (close_ r) x
    (path_ r) (query_ r) (fragment_ r) (body_ r) (headres_ r) (parmas_ r)
    (cookies_ r).
Definition setClose (r : HttpRequest) (x : bool) : HttpRequest :=
  mkRequest (method_ r) (mProtocol r) (mVersion r) (status_ r) x (mURL r)
    (path_ r) (query_ r) (fragment_ r) (body_ r) (headres_ r) (parmas_ r)
    (cookies_ r).
Definition setPath (r : HttpRequest) (x : string) : HttpRequest :=
  mkRequest (method_ r) (mProtocol r) (mVersion r) (status_ r) (close_ r)
    (mURL r) x (query_ r) (fragment_ r) (body_ r) (headres_ r) (parmas_ r)
    (cookies_ r).
Definition setQuery (r : HttpRequest) (x : string) : HttpRequest :=
  mkRequest (method_ r) (mProtocol r) (mVersion r) (status_ r) (close_ r)
    (mURL r) (path_ r) x (fragment_ r) (body_ r) (headres_ r) (parmas_ r)
    (cookies_ r).
Definition setFragment (r : HttpRequest) (x : string) : HttpRequest :=
  mkRequest (method_ r) (mProtocol r) (mVersion r) (status_ r) (close_ r)
    (mURL r) (path_ r) (query_ r) x (body_ r) (headres_ r) (parmas_ r)
    (cookies_ r).
Definition setBody (r : HttpRequest) (x : string) : HttpRequest :=
  mkRequest (method_ r) (mProtocol r) (mVersion r) (status_ r) (close_ r)
    (mURL r) (path_ r) (query_ r) (fragment_ r) x (headres_ r) (parmas_ r)
    (cookies_ r).
Definition set_headers (r : HttpRequest) (x : HttpMap) : HttpRequest :=
  mkRequest (method_ r) (mProtocol r) (mVersion r) (status_ r) (close_ r)
    (mURL r) (path_ r) (query_ r) (fragment_ r) (body_ r) x (parmas_ r)
    (cookies_ r).
Definition set_parmas (r : HttpRequest) (x : HttpMap) : HttpRequest :=
  mkRequest (method_ r) (mProtocol r) (mVersion r) (status_ r) (close_ r)
    (mURL r) (path_ r) (query_ r) (fragment_ r) (body_ r) (headres_ r) x
    (cookies_ r).
Definition set_cookies (r : HttpRequest) (x : HttpMap) : HttpRequest :=
  mkRequest (method_ r) (mProtocol r) (mVersion r) (status_ r) (close_ r)
    (mURL r) (path_ r) (query_ r) (fragment_ r) (body_ r) (headres_ r)
    (parmas_ r) x.

Definition getHeaderEntry (r : HttpRequest) (key : string) : string := map_get (headres_ r) key.
Definition getParmaEntry (r : HttpRequest) (key : string) : string := map_get (parmas_ r) key.
Definition getCookisEntry (r : HttpRequest) (key : string) : string := map_get (cookies_ r) key.

Definition setHeaderEntry (r : HttpRequest) (key value : string) : HttpRequest :=
  set_headers r (map_set (headres_ r) key value).
Definition setParmaEntry (r : HttpRequest) (key value : string) : HttpRequest :=
  set_parmas r (map_set (parmas_ r) key value).
Definition setCookiesEntry (r : HttpRequest) (key value : string) : HttpRequest :=
  set_cookies r (map_set (cookies_ r) key value).
Definition delHeaderEntry (r : HttpRequest) (key : string) : HttpRequest :=
  set_headers r (map_erase (headres_ r) key).
Definition delParmaEntry (r : HttpRequest) (key : string) : HttpRequest :=
  set_parmas r (map_erase (parmas_ r) key).
Definition delCookiesEntry (r : HttpRequest) (key : string) : HttpRequest :=
  set_cookies r (map_erase (cookies_ r) key).
Definition HasHeaderEntry (r : HttpRequest) (key : string) : bool :=
  match map_find (headres_ r) key with Some _ => true | None => false end.

(** [getAs]: the entry converted by [boost::lexical_cast], whose failure is an
    exception the function swallows. The cast is a parameter; the result is the
    returned flag and the value of the output argument. *)
Definition getAs {T : Type} (lexical_cast : string -> option T) (m : HttpMap) (key : string)
    (value : T) : bool * T :=
  match map_find m key with
  | None => (false, value)
  | Some text => match lexical_cast text with Some x => (true, x) | None => (false, value) end
  end.

Definition getHeaderEntryAs {T : Type} (lexical_cast : string -> option T) (r : HttpRequest)
    (key : string) (value : T) : bool * T := getAs lexical_cast (headres_ r) key value.

(** [HttpRequest::init]: the connection header decides about closing. *)
Definition init (lexical_cast : string -> option string) (r : HttpRequest) : HttpRequest :=
  let conn := (getHeaderEntryAs lexical_cast r "connection" "").2 in
  if bool_decide (conn = ""%string) then r
  else setClose r (negb (strcasecmp conn "keep-alive" =? 0)).

Definition crlf : string := String "013"%char (String "010"%char EmptyString).

(** [HTTP/major.minor] of the version byte. *)
Definition version_text (v : Z) : string :=
  ("HTTP/" ++ decimal (Z.shiftr v 4) ++ "." ++ decimal (Z.land v 15))%string.

(** The header lines; the comparison with "connection" is by spelling. *)
Fixpoint header_lines (m : HttpMap) : string :=
  match m with
  | [] => ""
  | (k, v) :: m' =>
      ((if bool_decide (k = "connection"%string) then ""
        else k ++ ": " ++ v ++ crlf) ++ header_lines m')%string
  end.

Definition size_text (s : string) : string := decimal (Z.of_nat (String.length s)).

(** [HttpRequest::dump] and [toString] *)
Definition HttpRequest_toString (r : HttpRequest) : string :=
  (HttpMethodToString (method_ r) ++ " " ++ mURL r ++ " " ++ version_text (mVersion r) ++ crlf
   ++ header_lines (headres_ r)
   ++ (if bool_decide (body_ r = "") then crlf
       else "content-length: " ++ size_text (body_ r) ++ crlf ++ crlf ++ body_ r))%string.

(** ** Responses *)
Record HttpResponse : Set := mkResponse {
  rsp_status : Z;
  rsp_statusCode : string;
  rsp_statusDesc : string;
  rsp_version : Z;
  rsp_close : bool;
  rsp_body : string;
  rsp_reason : string;
  rsp_headers : HttpMap
}.

Definition new_HttpResponse : HttpResponse := mkResponse OK_STATUS "" "" 0 true "" "" [].
Definition new_HttpResponse_of (status version : Z) (close : bool) : HttpResponse :=
  mkResponse status "" "" version close "" "" [].

Definition rsp_setStatus (r : HttpResponse) (x : Z) : HttpResponse :=
  mkResponse x (rsp_statusCode r) (rsp_statusDesc r) (rsp_version r) (rsp_close r) (rsp_body r)
    (rsp_reason r) (rsp_headers r).
Definition rsp_setVersion (r : HttpResponse) (x : Z) : HttpResponse :=
  mkResponse (rsp_status r) (rsp_statusCode r) (rsp_statusDesc r) x (rsp_close r) (rsp_body r)
    (rsp_reason r) (rsp_headers r).
Definition rsp_setClose (r : HttpResponse) (x : bool) : HttpResponse :=
  mkResponse (rsp_status r) (rsp_statusCode r) (rsp_statusDesc r) (rsp_version r) x (rsp_body r)
    (rsp_reason r) (rsp_headers r).
Definition rsp_setBody (r : HttpResponse) (x : string) : HttpResponse :=
  mkResponse (rsp_status r) (rsp_statusCode r) (rsp_statusDesc r) (rsp_version r) (rsp_close r) x
    (rsp_reason r) (rsp_headers r).
Definition rsp_setReason (r : HttpResponse) (x : string) : HttpResponse :=
  mkResponse (rsp_status r) (rsp_statusCode r) (rsp_statusDesc r) (rsp_version r) (rsp_close r)
    (rsp_body r) x (rsp_headers r).
Definition SetStatusCode (r : HttpResponse) (x : string) : HttpResponse :=
  mkResponse (rsp_status r) x (rsp_statusDesc r) (rsp_version r) (rsp_close r)
    (rsp_body r) (rsp_reason r) (rsp_headers r).
Definition SetStatusDesc (r : HttpResponse) (x : string) : HttpResponse :=
  mkResponse (rsp_status r) (rsp_statusCode r) x (rsp_version r) (rsp_close r)
    (rsp_body r) (rsp_reason r) (rsp_headers r).
Definition rsp_setHeaders (r : HttpResponse) (x : HttpMap) : HttpResponse :=
  mkResponse (rsp_status r) (rsp_statusCode r) (rsp_statusDesc r) (rsp_version r) (rsp_close r)
    (rsp_body r) (rsp_reason r) x.

Definition rsp_getHeaderEntry (r : HttpResponse) (key : string) : string := map_get (rsp_headers r) key.
Definition rsp_setHeaderEntry (r : HttpResponse) (key value : string) : HttpResponse :=
  rsp_setHeaders r (map_set (rsp_headers r) key value).
Definition rsp_HasHeaderEntry (r : HttpResponse) (key : string) : bool :=
  match map_find (rsp_headers r) key with Some _ => true | None => false end.
Definition rsp_delHeaderEntry (r : HttpResponse) (key : string) : HttpResponse :=
  rsp_setHeaders r (map_erase (rsp_headers r) key).

Definition rsp_getHeaderEntryAs {T : Type} (lexical_cast : string -> option T) (r : HttpResponse)
    (key : string) (value : T) : bool * T := getAs lexical_cast (rsp_headers r) key value.

(** [HttpResponse::dump] and [toString] *)
Definition HttpResponse_toString (r : HttpResponse) : string :=
  (version_text (rsp_version r) ++ " " ++ decimal (rsp_status r) ++ " "
   ++ (if bool_decide (rsp_reason r = "") then HttpStatusToString (rsp_status r) else rsp_reason r)
   ++ crlf ++ header_lines (rsp_headers r)
   ++ "connection: " ++ (if rsp_close r then "close" else "keep-alive") ++ crlf
   ++ (if bool_decide (rsp_body r = "") then crlf
       else "content-length: " ++ size_text (rsp_body r) ++ crlf ++ crlf ++ rsp_body r ++ crlf))%string.

(** ** Examples *)
Example method_prefix : StringToHttpMethod "GETX" = HttpMethod.GET.
Proof. reflexivity. Qed.
Example header_case :
  getHeaderEntry (setHeaderEntry new_HttpRequest "Content-Type" "text/html") "content-type" =
  "text/html"%string.
Proof. reflexivity. Qed.
