(* ===== verification/HttpCorrect.v ===== *)
(** * Correctness of the HTTP message objects

    What the method and status lookups accept, and that the header maps are
    finite maps on names compared without case. *)
From stdpp Require Import base list gmap strings.
From Stdlib Require Import ZArith Ascii String Sorting.Sorted Lia.
From S2P Require Import Prelude CLib Http.
Open Scope Z_scope.

(** ** Strings *)

(** [p] is a prefix of [s]. *)
Fixpoint is_prefix (p s : string) : bool :=
  match p, s with
  | EmptyString, _ => true
  | String a p', String b s' => bool_decide (a = b) && is_prefix p' s'
  | String _ _, EmptyString => false
  end.

Lemma is_prefix_refl p : is_prefix p p = true.
Proof. induction p as [|a p IH]; simpl; [done|]. by rewrite bool_decide_eq_true_2. Qed.

Lemma c_str_idem s : c_str (c_str s) = c_str s.
Proof.
  induction s as [|a s IH]; simpl; [done|]. destruct (uchar a =? 0) eqn:E; [done|].
  simpl. by rewrite E, IH.
Qed.

Lemma strncmp_prefix p s :
  c_str p = p -> (strncmp p s (String.length p) =? 0) = is_prefix p (c_str s).
Proof.
  intros Hp. unfold strncmp. rewrite Hp, substring_all.
  generalize (c_str s). clear Hp s. induction p as [|a p IH]; intros [|b s]; simpl; try done.
  case_bool_decide as E.
  - subst b. rewrite Z.ltb_irrefl. apply IH.
  - assert (uchar a <> uchar b) by (by intros ?%uchar_inj).
    destruct (Z.ltb_spec (uchar a) (uchar b)); [done|].
    destruct (Z.ltb_spec (uchar b) (uchar a)); [done|lia].
Qed.

Lemma prefix_linear p q s :
  is_prefix p s = true -> is_prefix q s = true -> is_prefix p q = true \/ is_prefix q p = true.
Proof.
  revert q s. induction p as [|a p IH]; intros [|b q] [|c s]; simpl; auto; try discriminate.
  rewrite !andb_true_iff, !bool_decide_eq_true. intros [-> Hp] [-> Hq].
  destruct (IH q s Hp Hq); auto.
Qed.

(** ** Methods *)

(** The named methods: every one but [UNKNOW]. *)
Definition methods : list HttpMethod.t := map (fun e => snd (fst e)) HTTP_METHOD_MAP.

(** No name is a prefix of another, and names hold no NUL. *)
Definition names_apart (l : list (Z * HttpMethod.t * string)) : bool :=
  forallb (fun e => bool_decide (c_str (snd e) = snd e) &&
    forallb (fun e' => implb (is_prefix (snd e) (snd e')) (bool_decide (snd (fst e) = snd (fst e')))) l) l.

Lemma names_apart_ok : names_apart HTTP_METHOD_MAP = true.
Proof. vm_compute. reflexivity. Qed.

Lemma method_names_ok :
  forallb (fun e => bool_decide (HttpMethodToString (snd (fst e)) = snd e)) HTTP_METHOD_MAP = true.
Proof. vm_compute. reflexivity. Qed.

Lemma find_method_spec l s m :
  (forall e, e ∈ l -> c_str (snd e) = snd e) ->
  (forall e e', e ∈ l -> e' ∈ l -> is_prefix (snd e) (snd e') = true -> snd (fst e) = snd (fst e')) ->
  m <> HttpMethod.UNKNOW ->
  find_method l s = m <-> exists n name, (n, m, name) ∈ l /\ is_prefix name (c_str s) = true.
Proof.
  induction l as [|[[n m'] name] l IH]; intros Hc Hap Hm; simpl.
  - split; [by intros <-|]. by intros (? & ? & ?%not_elem_of_nil & _).
  - rewrite strncmp_prefix by (apply (Hc (n, m', name)); left).
    destruct (is_prefix name (c_str s)) eqn:Ep.
    + split; [intros ->; exists n, name; split; [left|done]|].
      intros (n2 & name2 & Hin & Hp).
      destruct (prefix_linear name name2 (c_str s) Ep Hp) as [H|H].
      * apply (Hap (n, m', name) (n2, m, name2)); [left|done|done].
      * symmetry. apply (Hap (n2, m, name2) (n, m', name)); [done|left|done].
    + rewrite IH; [|intros e He; apply Hc; by right|intros e e' He He'; apply Hap; by right|done].
      split; intros (n2 & name2 & Hin & Hp); exists n2, name2; (split; [|done]).
      * by right.
      * apply elem_of_cons in Hin as [[= -> -> ->]|?]; [congruence|done].
Qed.

(** A method string is recognised exactly when a method's name is a
    prefix of it ([GETX] is taken for [GET]), the method is then unique, and
    every method's printed name is read back as that method. *)
Theorem StringToHttpMethod_prefix s m :
  m <> HttpMethod.UNKNOW ->
  (StringToHttpMethod s = m <-> is_prefix (HttpMethodToString m) (c_str s) = true) /\
  StringToHttpMethod (HttpMethodToString m) = m.
Proof.
  intros Hm. pose proof names_apart_ok as Hap. unfold names_apart in Hap.
  rewrite forallb_forall in Hap.
  assert (forall n name, (n, m, name) ∈ HTTP_METHOD_MAP -> HttpMethodToString m = name) as Hname.
  { intros n name Hin%list_elem_of_In. pose proof method_names_ok as H.
    rewrite forallb_forall in H. by apply H, bool_decide_eq_true in Hin. }
  assert (exists n, (n, m, HttpMethodToString m) ∈ HTTP_METHOD_MAP) as [n0 Hin0].
  { assert (m ∈ methods) as Hin by (destruct m; try (by destruct Hm);
      apply (bool_decide_unpack _); vm_compute; exact I).
    apply list_elem_of_fmap in Hin as ([[n m'] name] & -> & Hin). exists n.
    by rewrite (Hname n name Hin). }
  assert (forall s, StringToHttpMethod s = m <-> is_prefix (HttpMethodToString m) (c_str s) = true)
    as Hiff.
  { intros s'. unfold StringToHttpMethod. rewrite find_method_spec; [|..|done].
    - split; [|intros Hp; exists n0; eauto].
      intros (n & name & Hin & Hp). by rewrite (Hname n name Hin).
    - intros e He%list_elem_of_In. apply Hap in He. bool_hyps. done.
    - intros e e' He%list_elem_of_In He'%list_elem_of_In Hp. apply Hap in He. bool_hyps.
      match goal with H : forallb _ _ = true |- _ => rewrite forallb_forall in H; apply H in He' end.
      rewrite Hp in He'. simpl in He'. by apply bool_decide_eq_true in He'. }
  split; [apply Hiff|]. apply Hiff.
  assert (c_str (HttpMethodToString m) = HttpMethodToString m) as ->.
  { apply list_elem_of_In in Hin0. apply Hap in Hin0. bool_hyps. done. }
  apply is_prefix_refl.
Qed.

Lemma StringToHttpMethod_prefix_witness : StringToHttpMethod "GETX" = HttpMethod.GET.
Proof.
  destruct (StringToHttpMethod_prefix "GETX" HttpMethod.GET) as [H _]; [discriminate|].
  apply H. reflexivity.
Defined.

(** ** Statuses *)
Definition status_entry_ok (e : Z * string) : bool :=
  bool_decide (HttpStatusToString (fst e) = snd e) &&
  bool_decide (StringToHttpStatus (snd e) = fst e) &&
  bool_decide (c_str (snd e) = snd e) && negb (fst e =? UNKNOW_STATUS).

Lemma status_table_check : forallb status_entry_ok HTTP_STATUS_MAP = true.
Proof. vm_compute. reflexivity. Qed.

Lemma status_entry n name :
  (n, name) ∈ HTTP_STATUS_MAP ->
  HttpStatusToString n = name /\ StringToHttpStatus name = n /\ c_str name = name /\
  n <> UNKNOW_STATUS.
Proof.
  intros Hin%list_elem_of_In. pose proof status_table_check as H. rewrite forallb_forall in H.
  apply H in Hin. unfold status_entry_ok in Hin. simpl in Hin. bool_hyps. done.
Qed.

Lemma find_status_cases l s :
  (exists n name, (n, name) ∈ l /\ find_status l s = n /\ c_str name = c_str s) \/
  find_status l s = UNKNOW_STATUS.
Proof.
  induction l as [|[n name] l IH]; simpl; [by right|].
  unfold strcmp. destruct (Z.eqb_spec (strcmp_sign (c_str name) (c_str s)) 0) as [E|E].
  - apply strcmp_sign_eq in E. left. exists n, name. split_and!; [left|done|done].
  - destruct IH as [(n' & name' & ? & ? & ?)|?]; [left|by right].
    exists n', name'. split_and!; [by right|done|done].
Qed.

Lemma find_status_c_str l s t : c_str s = c_str t -> find_status l s = find_status l t.
Proof.
  intros E. induction l as [|[n name] l IH]; simpl; [done|]. unfold strcmp. by rewrite E, IH.
Qed.

(** The status names and codes are in bijection: every code of the table
    prints as a name that is read back as the code, and a string is read as a
    code of the table exactly if it is that code's name. *)
Theorem status_round_trip n s :
  n ∈ map fst HTTP_STATUS_MAP ->
  StringToHttpStatus (HttpStatusToString n) = n /\
  (StringToHttpStatus s = n <-> c_str s = HttpStatusToString n).
Proof.
  intros ([n' name] & -> & Hin)%list_elem_of_fmap. cbn [fst].
  destruct (status_entry n' name Hin) as (-> & E & Hc & Hu). split; [done|]. split.
  - intros Es. destruct (find_status_cases HTTP_STATUS_MAP s) as [(n2 & name2 & Hin2 & E2 & Hc2)|Hx].
    + unfold StringToHttpStatus in Es. assert (n2 = n') as -> by congruence.
      destruct (status_entry n' name2 Hin2) as (Hn2 & _ & Hcc & _).
      destruct (status_entry n' name Hin) as (Hn & _). congruence.
    + unfold StringToHttpStatus in Es. congruence.
  - intros Es. rewrite <- E. apply find_status_c_str. by rewrite Es, Hc.
Qed.

Lemma status_round_trip_witness : StringToHttpStatus (HttpStatusToString 404) = 404.
Proof.
  destruct (status_round_trip 404 "") as [H _]; [by apply (bool_decide_unpack _)|exact H].
Defined.

(** ** Header maps *)

(** The name a key stands for. *)
Definition norm (k : string) : string := string_lower (c_str k).

Lemma less_spec j k : CaseInsensitiveLess j k = true <-> strcmp_sign (norm j) (norm k) < 0.
Proof. unfold CaseInsensitiveLess, strcasecmp. apply Z.ltb_lt. Qed.

Definition key_before (x y : string * string) : Prop := CaseInsensitiveLess x.1 y.1 = true.
Abbreviation map_ok := (StronglySorted key_before).

Lemma less_trichotomy j k :
  CaseInsensitiveLess j k = false -> CaseInsensitiveLess k j = false -> norm j = norm k.
Proof.
  intros H1 H2. apply strcmp_sign_eq.
  assert (~ strcmp_sign (norm j) (norm k) < 0) by (rewrite <- less_spec; congruence).
  assert (~ strcmp_sign (norm k) (norm j) < 0) by (rewrite <- less_spec; congruence).
  pose proof (strcmp_sign_antisym (norm j) (norm k)). lia.
Qed.

Lemma less_irrefl j k : norm j = norm k -> CaseInsensitiveLess j k = false.
Proof.
  intros E. destruct (CaseInsensitiveLess j k) eqn:H; [|done].
  apply less_spec in H. rewrite E, strcmp_sign_refl in H. lia.
Qed.

Lemma less_trans j k l :
  CaseInsensitiveLess j k = true -> CaseInsensitiveLess k l = true -> CaseInsensitiveLess j l = true.
Proof. rewrite !less_spec. apply strcmp_sign_trans. Qed.

(** Two keys that stand for one name are ordered alike. *)
Lemma less_norm j k l : norm j = norm k ->
  CaseInsensitiveLess j l = CaseInsensitiveLess k l /\
  CaseInsensitiveLess l j = CaseInsensitiveLess l k.
Proof.
  intros E. unfold CaseInsensitiveLess, strcasecmp. fold (norm j) (norm k) (norm l).
  by rewrite E.
Qed.

(** The finite map a header map stands for. *)
Definition denote (m : HttpMap) : gmap string string :=
  list_to_map (map (fun '(k, v) => (norm k, v)) m).

Lemma denote_cons k v m : denote ((k, v) :: m) = <[norm k := v]> (denote m).
Proof. done. Qed.

Lemma denote_later m k :
  Forall (fun y => CaseInsensitiveLess k y.1 = true) m -> denote m !! norm k = None.
Proof.
  induction 1 as [|[k' v'] m Hk _ IH]; [done|]. rewrite denote_cons, lookup_insert_ne; [done|].
  intros E. simpl in Hk. by rewrite (less_irrefl k k' (eq_sym E)) in Hk.
Qed.

Lemma map_ok_tail k v m : map_ok ((k, v) :: m) ->
  map_ok m /\ Forall (fun y => CaseInsensitiveLess k y.1 = true) m.
Proof. apply StronglySorted_inv. Qed.

Lemma map_find_denote m k : map_ok m -> map_find m k = denote m !! norm k.
Proof.
  induction m as [|[k' v'] m IH]; intros Hm; [done|].
  apply map_ok_tail in Hm as [Hm Hk']. simpl map_find. rewrite denote_cons.
  destruct (CaseInsensitiveLess k' k) eqn:E1.
  - rewrite lookup_insert_ne; [by apply IH|]. intros E. by rewrite less_irrefl in E1.
  - destruct (CaseInsensitiveLess k k') eqn:E2.
    + rewrite lookup_insert_ne; [|intros E; by rewrite less_irrefl in E2].
      symmetry. apply denote_later. apply (Forall_impl _ _ _ Hk').
      intros y. by apply less_trans.
    + by rewrite (less_trichotomy k k'), lookup_insert_eq.
Qed.

Lemma map_set_spec m k v :
  map_ok m -> map_ok (map_set m k v) /\ denote (map_set m k v) = <[norm k := v]> (denote m) /\
  (forall j, (forall y, y ∈ m -> CaseInsensitiveLess j y.1 = true) -> CaseInsensitiveLess j k = true ->
     Forall (fun y => CaseInsensitiveLess j y.1 = true) (map_set m k v)).
Proof.
  induction m as [|[k' v'] m IH]; intros Hm; cbn [map_set].
  { split_and!; [repeat constructor|done|]. intros j _ Hj. by repeat constructor. }
  pose proof Hm as Hm'. apply map_ok_tail in Hm as [Hm Hk'].
  destruct (IH Hm) as (IH1 & IH2 & IH3). rewrite Forall_forall in Hk'.
  destruct (CaseInsensitiveLess k' k) eqn:E1; [|destruct (CaseInsensitiveLess k k') eqn:E2].
  - split_and!.
    + constructor; [done|]. by apply IH3.
    + rewrite !denote_cons, IH2. apply insert_insert_ne. intros E. by rewrite less_irrefl in E1.
    + intros j Hj Hjk. constructor; [apply (Hj (k', v')); left|].
      apply IH3; [|done]. intros y Hy. apply Hj. by right.
  - split_and!.
    + constructor; [done|]. rewrite Forall_forall. intros y [->|Hy]%elem_of_cons; [done|].
      by apply (less_trans _ k'), Hk'.
    + done.
    + intros j Hj Hjk. rewrite Forall_forall. intros y [->|Hy]%elem_of_cons; [done|auto].
  - pose proof (less_trichotomy k k' E2 E1) as E. split_and!.
    + constructor; [done|]. by rewrite Forall_forall.
    + by rewrite !denote_cons, E, insert_insert_eq.
    + intros j Hj Hjk. rewrite Forall_forall. intros y [->|Hy]%elem_of_cons.
      * apply (Hj (k', v')). left.
      * apply Hj. by right.
Qed.

Lemma map_erase_spec m k :
  map_ok m -> map_ok (map_erase m k) /\ denote (map_erase m k) = delete (norm k) (denote m) /\
  (forall y, y ∈ map_erase m k -> y ∈ m).
Proof.
  induction m as [|[k' v'] m IH]; intros Hm; cbn [map_erase].
  { split_and!; [done|by rewrite delete_id|done]. }
  pose proof Hm as Hm'. apply map_ok_tail in Hm as [Hm Hk'].
  destruct (IH Hm) as (IH1 & IH2 & IH3).
  destruct (CaseInsensitiveLess k' k) eqn:E1; [|destruct (CaseInsensitiveLess k k') eqn:E2].
  - split_and!.
    + constructor; [done|]. rewrite Forall_forall in *. intros y Hy%IH3. by apply Hk'.
    + rewrite !denote_cons, IH2, delete_insert_ne; [done|]. intros E.
      by rewrite less_irrefl in E1.
    + intros y [->|Hy]%elem_of_cons; [left|right; auto].
  - split_and!; [done| |done]. rewrite delete_id; [done|]. rewrite denote_cons, lookup_insert_ne.
    + apply denote_later, (Forall_impl _ _ _ Hk'). intros y. by apply less_trans.
    + intros E. by rewrite less_irrefl in E2.
  - pose proof (less_trichotomy k k' E2 E1) as E. split_and!; [done| |by right].
    rewrite denote_cons, E, delete_insert_eq, delete_id; [done|]. by apply denote_later.
Qed.

(** The header maps of requests and responses are finite maps whose keys
    are compared without case: on an ordered map [find] looks up, assignment
    through [operator[]] updates and [erase] deletes in the map of the
    lower-case names, and the order is kept. *)
Theorem header_map_refines m k v :
  map_ok m ->
  map_find m k = denote m !! norm k /\
  map_ok (map_set m k v) /\ denote (map_set m k v) = <[norm k := v]> (denote m) /\
  map_ok (map_erase m k) /\ denote (map_erase m k) = delete (norm k) (denote m).
Proof.
  intros Hm. destruct (map_set_spec m k v Hm) as (? & ? & _).
  destruct (map_erase_spec m k Hm) as (? & ? & _).
  split_and!; [by apply map_find_denote|done|done|done|done].
Qed.

Lemma header_map_refines_witness :
  map_find (map_set [("Host", "a")] "HOST" "b")%string "host" = Some "b"%string.
Proof.
  assert (map_ok [("Host", "a")]%string) as Hm by (repeat constructor).
  destruct (header_map_refines _ "HOST" "b" Hm) as (_ & Hs & Hd & _).
  destruct (header_map_refines _ "host" "" Hs) as (-> & _). rewrite Hd. reflexivity.
Defined.

(** Header entries of a request set under one spelling are read under any
    other, other entries are kept, and deleting removes the entry; the request's
    connection header, compared without case, decides [close_] when the cast of
    a string to a string is the identity. *)
Theorem request_headers lexical_cast r k v k' :
  map_ok (headres_ r) -> (forall s, lexical_cast s = Some s) ->
  getHeaderEntry (setHeaderEntry r k v) k' =
    (if bool_decide (norm k = norm k') then v else getHeaderEntry r k') /\
  getHeaderEntry (delHeaderEntry r k) k' =
    (if bool_decide (norm k = norm k') then ""%string else getHeaderEntry r k') /\
  (norm k = "connection"%string -> v <> ""%string ->
   close_ (init lexical_cast (setHeaderEntry r k v)) = negb (bool_decide (norm v = "keep-alive"%string))).
Proof.
  intros Hm Hcast. destruct (map_set_spec (headres_ r) k v Hm) as (Hs & Ds & _).
  destruct (map_erase_spec (headres_ r) k Hm) as (He & De & _).
  assert (forall j, getHeaderEntry (setHeaderEntry r k v) j =
    (if bool_decide (norm k = norm j) then v else getHeaderEntry r j)) as Hset.
  { intros j. unfold getHeaderEntry, setHeaderEntry, map_get. cbn [headres_ set_headers].
    rewrite !map_find_denote, Ds by done.
    case_bool_decide as E; [by rewrite E, lookup_insert_eq|by rewrite lookup_insert_ne]. }
  split_and!; [apply Hset| |].
  - unfold getHeaderEntry, delHeaderEntry, map_get. cbn [headres_ set_headers].
    rewrite !map_find_denote, De by done.
    case_bool_decide as E; [by rewrite E, lookup_delete_eq|by rewrite lookup_delete_ne].
  - intros Hk Hv.
    assert ((getHeaderEntryAs lexical_cast (setHeaderEntry r k v) "connection" ""%string).2 = v)
      as Hconn.
    { specialize (Hset "connection"%string). unfold getHeaderEntry, map_get in Hset.
      change (norm "connection") with "connection"%string in Hset.
      rewrite (bool_decide_eq_true_2 _ Hk) in Hset. unfold getHeaderEntryAs, getAs.
      destruct (map_find _ "connection") as [text|]; cbn in Hset |- *; [by rewrite Hcast|done]. }
    unfold init. rewrite Hconn.
    rewrite bool_decide_eq_false_2 by done. cbn [close_ setClose].
    f_equal. unfold strcasecmp. fold (norm v). change (string_lower (c_str "keep-alive")) with "keep-alive"%string.
    case_bool_decide as E; [rewrite E; reflexivity|].
    apply Z.eqb_neq. by intros ?%strcmp_sign_eq.
Qed.

Lemma request_headers_witness :
  close_ (init Some (setHeaderEntry new_HttpRequest "Connection" "Keep-Alive")) = false.
Proof.
  destruct (request_headers Some new_HttpRequest "Connection" "Keep-Alive" "CONNECTION")
    as (_ & _ & H); [constructor|done|]. exact (H eq_refl ltac:(discriminate)).
Defined.
