(* ===== verification/HttpCommon.v ===== *)
(** * What the HTTP parsers share
    (src/qslary/http/http_common.h, HttpParser.cc)

    The types of their callbacks, their macros, and the parts of a message both
    read. A buffer is the list of its characters; a pointer into it is its
    offset, and a pointer handed to a callback is the text from there to the end
    of the buffer. *)
From stdpp Require Import base list strings.
From Stdlib Require Import ZArith Ascii String Lia.
From S2P Require Import Prelude CLib.
Open Scope Z_scope.

Abbreviation len l := (Z.of_nat (List.length l)).

(** ** Callbacks

    A callback takes the object [void *data] points to and may change it; a null
    pointer is [None]. *)
Definition element_cb (D : Type) : Type := option (D -> list ascii -> Z -> outcome D).
Definition field_cb (D : Type) : Type :=
  option (D -> list ascii -> Z -> list ascii -> Z -> outcome D).

Section buffer.
Context (buffer : list ascii).

Definition size : Z := Z.of_nat (List.length buffer).

(** The text at [buffer + off]: a pointer past the end is undefined. *)
Definition at_ (off : Z) : outcome (list ascii) :=
  if (0 <=? off) && (off <=? size) then Ret (drop (Z.to_nat off) buffer) else Fault Undefined.

(** [if (f != NULL) f(data, PTR_TO(start), LEN(start, p))] *)
Definition element {D} (f : element_cb D) (d : D) (start p : Z) : outcome D :=
  match f with
  | Some f => let! text := at_ start in f d text (u64 (p - start))
  | None => Ret d
  end.
End buffer.

(** [std::string(at, length)] *)
Definition string_at (text : list ascii) (length : Z) : outcome string :=
  if length <=? Z.of_nat (List.length text)
  then Ret (string_of_list_ascii (take (Z.to_nat length) text))
  else Fault Undefined.

(** The version byte of a text ([on_request_version], [on_response_version]), [None] for an unknown one. *)
Definition version_at (text : list ascii) (length : Z) : option Z :=
  let s := string_of_list_ascii text in
  if strncmp s "HTTP/1.1" (Z.to_nat length) =? 0 then Some 0x11
  else if strncmp s "HTTP/1.0" (Z.to_nat length) =? 0 then Some 0x10
  else None.

(** ** Texts *)
Definition one_of (l : list Z) (c : Z) : bool := existsb (Z.eqb c) l.
Definition is_xdigit (c : Z) : bool :=
  isdigit c || ((65 <=? c) && (c <=? 70)) || ((97 <=? c) && (c <=? 102)).
(** Characters of a field name (RFC 7230 [token]), blanks. *)
Definition is_token (c : Z) : bool :=
  (33 <=? c) && (c <=? 126) &&
  negb (one_of [34; 40; 41; 44; 47; 58; 59; 60; 61; 62; 63; 64; 91; 92; 93; 123; 125] c).
Definition is_blank (c : Z) : bool := one_of [9; 32] c.

Definition blank : list ascii := [" "%char].
Definition eol : list ascii := ["013"; "010"]%char.
Definition version_text (v : bool) : list ascii :=
  ["H"; "T"; "T"; "P"; "/"; "1"; "."; if v then "1" else "0"]%char.
Definition version_byte (v : bool) : Z := if v then 0x11 else 0x10.

Record field : Set := Field { f_name : list ascii; f_blanks : list ascii; f_value : list ascii }.

Definition field_text (f : field) : list ascii :=
  f_name f ++ ":"%char :: f_blanks f ++ f_value f ++ eol.

(** ** Texts in the buffer *)
Lemma forallb_Forall {A} (f : A -> bool) l :
  forallb f l = true -> Forall (fun a => f a = true) l.
Proof. induction l; simpl; [constructor|]. intros [? ?]%andb_true_iff. constructor; auto. Qed.

Lemma length_string l : String.length (string_of_list_ascii l) = List.length l.
Proof. induction l; simpl; auto. Qed.

Lemma ascii_list_app s t :
  list_ascii_of_string (s ++ t)%string = list_ascii_of_string s ++ list_ascii_of_string t.
Proof.
  induction s as [|a s IH]; [done|].
  change (a :: list_ascii_of_string (s ++ t)%string = a :: list_ascii_of_string s ++ list_ascii_of_string t).
  by rewrite IH.
Qed.

Lemma list_ascii_length s : List.length (list_ascii_of_string s) = String.length s.
Proof. induction s as [|a s IH]; [done|]. simpl. by rewrite IH. Qed.

Lemma at_app pre rest : at_ (pre ++ rest) (len pre) = Ret rest.
Proof.
  unfold at_, size. rewrite length_app, Nat2Z.inj_add.
  rewrite (proj2 (Z.leb_le _ _)), (proj2 (Z.leb_le _ _)) by lia. simpl.
  by rewrite Nat2Z.id, drop_app_length.
Qed.

(** A callback on the text [w] between the mark and the position. *)
Lemma element_app {D} (f : D -> list ascii -> Z -> outcome D) d pre w rest :
  len (pre ++ w ++ rest) < 2 ^ 64 ->
  element (pre ++ w ++ rest) (Some f) d (len pre) (len (pre ++ w)) = f d (w ++ rest) (len w).
Proof.
  intros Hs. unfold element. rewrite at_app. simpl. f_equal.
  rewrite !length_app in *. rewrite wrapu_small by lia. lia.
Qed.

Lemma element_nil {D} (f : D -> list ascii -> Z -> outcome D) d pre rest :
  len (pre ++ rest) < 2 ^ 64 -> element (pre ++ rest) (Some f) d (len pre) (len pre) = f d rest 0.
Proof. intros Hs. pose proof (element_app f d pre [] rest Hs) as E. by rewrite app_nil_r in E. Qed.

Lemma string_at_nil rest : string_at rest 0 = Ret ""%string.
Proof. unfold string_at. by rewrite (proj2 (Z.leb_le _ _)) by lia. Qed.

Lemma string_at_app w rest : string_at (w ++ rest) (len w) = Ret (string_of_list_ascii w).
Proof.
  unfold string_at. rewrite length_app, (proj2 (Z.leb_le _ _)) by lia.
  by rewrite Nat2Z.id, take_app_length.
Qed.

Lemma string_at_ok text n : n <= len text -> exists s, string_at text n = Ret s.
Proof. intros H. unfold string_at. rewrite (proj2 (Z.leb_le _ _) H). eauto. Qed.

Lemma version_at_text v rest : version_at (version_text v ++ rest) 8 = Some (version_byte v).
Proof.
  assert (forall s, substring 0 0 s = ""%string) as E by (by intros []).
  unfold version_at, strncmp. change (Z.to_nat 8) with 8%nat.
  destruct v; simpl; rewrite E; reflexivity.
Qed.

(** A callback that needs nothing but a text within the buffer. *)
Definition total_cb {D} (f : D -> list ascii -> Z -> outcome D) : Prop :=
  forall d text n, 0 <= n <= len text -> exists d', f d text n = Ret d'.

Lemma total_string {D} (g : D -> string -> D) :
  total_cb (fun d text n => let! s := string_at text n in Ret (g d s)).
Proof. intros d text n Hn. destruct (string_at_ok text n) as [s ->]; [lia|]. eexists. reflexivity. Qed.
Lemma total_skip {D} : total_cb (fun (d : D) _ _ => Ret d).
Proof. intros d text n _. eauto. Qed.

Lemma at_ok buffer off :
  0 <= off <= len buffer -> exists text, at_ buffer off = Ret text /\ len text = len buffer - off.
Proof.
  intros H. unfold at_, size. rewrite (proj2 (Z.leb_le _ _)), (proj2 (Z.leb_le _ _)) by lia.
  eexists. split; [reflexivity|]. rewrite length_drop. lia.
Qed.

Lemma element_ok {D} buffer (f : D -> list ascii -> Z -> outcome D) d s p :
  len buffer < 2 ^ 64 -> total_cb f -> 0 <= s <= p -> p <= len buffer ->
  exists d', element buffer (Some f) d s p = Ret d'.
Proof.
  intros Hl Hf Hs Hp. unfold element. destruct (at_ok buffer s) as (text & -> & Ht); [lia|]. cbn [obind].
  apply Hf. rewrite wrapu_small by lia. lia.
Qed.
