(* ===== verification/HttpRequestTable.v ===== *)
(** * The request parser's state machine

    [http_parser_execute] (src/qslary/http/http_request_parser.cc) runs a goto
    program made by Ragel. This file holds that program, block by block in the
    order of the source: [request_cases_k] gives, for each [case n:] of the
    block, the label the code jumps to, and [request_trans_k] gives, for each
    label [trn:], the actions it executes and the state it continues in. *)
From stdpp Require Import base list.
From Stdlib Require Import ZArith.
From S2P Require Import Prelude Ragel.
Import ListNotations.
Open Scope Z_scope.

(** The action blocks, named after the callback or the field they are about;
    the bodies are given in HttpRequestParser.v. [Done n] is the last action,
    which stops in the final state [n]. *)
Inductive request_action : Set :=
| Mark
| RequestMethod
| RequestUri
| Fragment
| StartQuery
| QueryString
| HttpVersion
| RequestPath
| StartField
| WriteField
| WriteValue
| Xml
| Json
| Done (n : Z).

(** A case tests the character itself ([Plain]), or the character [_widec]
    made of it ([Wide]); the code that makes it is [widened] and [widec] of
    HttpRequestParser.v, the same in every such case. *)
Inductive case : Type :=
| Plain (f : Z -> label)
| Wide (f : Z -> label).

(** http_request_parser.cc, lines 113-258 *)
Definition request_cases_1 : list (Z * case) :=
  [(1, Plain (fun c =>
    switch c
      [(60, tr 2); (64, tr 3)]
      (if c >? 57 then
          if (65 <=? c) && (c <=? 90) then tr 0
          else st 0
        else if c >=? 48 then tr 0
        else st 0)));
   (2, Plain (fun c =>
    if c =? 32 then tr 4
    else if c >? 57 then
      if (65 <=? c) && (c <=? 90) then st 175
      else st 0
    else if c >=? 48 then st 175
    else st 0));
   (3, Wide (fun w =>
    switch w
      [(32, tr 6); (33, tr 7); (35, tr 8); (37, tr 9); (47, tr 10);
       (59, tr 7); (61, tr 7); (63, tr 11); (64, tr 7); (95, tr 7);
       (126, tr 7); (606, tr 7); (635, tr 7); (637, tr 7)]
      (if w <? 65 then
          if (36 <=? w) && (w <=? 57) then tr 7
          else st 0
        else if w >? 90 then
          if (97 <=? w) && (w <=? 122) then tr 12
          else st 0
        else tr 12)))].

Definition request_trans_1 : list (Z * (list request_action * Z)) :=
  [(0, ([Mark], 2));
   (4, ([RequestMethod], 3));
   (6, ([Mark; RequestPath; RequestUri], 4))].

(** http_request_parser.cc, lines 259-404 *)
Definition request_cases_2 : list (Z * case) :=
  [(4, Plain (fun c =>
    if c =? 72 then tr 13
    else st 0));
   (5, Plain (fun c =>
    if c =? 84 then st 6
    else st 0));
   (6, Plain (fun c =>
    if c =? 84 then st 7
    else st 0));
   (7, Plain (fun c =>
    if c =? 80 then st 8
    else st 0));
   (8, Plain (fun c =>
    if c =? 47 then st 9
    else st 0));
   (9, Plain (fun c =>
    if c =? 49 then st 10
    else st 0));
   (10, Plain (fun c =>
    if c =? 46 then st 11
    else st 0));
   (11, Plain (fun c =>
    if (48 <=? c) && (c <=? 49) then st 12
    else st 0));
   (12, Plain (fun c =>
    switch c
      [(10, tr 21); (13, tr 22)]
      (st 0)))].

Definition request_trans_2 : list (Z * (list request_action * Z)) :=
  [(37, ([RequestPath; RequestUri], 4));
   (44, ([Mark; Fragment], 4));
   (47, ([Fragment], 4));
   (54, ([StartQuery; QueryString; RequestUri], 4));
   (58, ([QueryString; RequestUri], 4));
   (13, ([Mark], 5));
   (21, ([HttpVersion], 13))].

(** http_request_parser.cc, lines 405-552 *)
Definition request_cases_3 : list (Z * case) :=
  [(13, Plain (fun c =>
    switch c
      [(10, tr 24); (13, tr 25); (33, tr 23); (124, tr 23); (126, tr 23)]
      (if c <? 42 then
          if c <? 11 then
            if (1 <=? c) && (c <=? 8) then tr 23
            else st 0
          else if c >? 31 then
            if (35 <=? c) && (c <=? 39) then tr 23
            else st 0
          else tr 23
        else if c >? 43 then
          if c <? 48 then
            if (45 <=? c) && (c <=? 46) then tr 23
            else st 0
          else if c >? 57 then
            if c >? 90 then
              if (94 <=? c) && (c <=? 122) then tr 23
              else st 0
            else if c >=? 65 then tr 23
            else st 0
          else tr 23
        else tr 23)));
   (14, Plain (fun c =>
    switch c
      [(33, st 14); (58, tr 27); (124, st 14); (126, st 14)]
      (if c <? 42 then
          if c <? 10 then
            if (1 <=? c) && (c <=? 8) then st 14
            else st 0
          else if c >? 31 then
            if (35 <=? c) && (c <=? 39) then st 14
            else st 0
          else st 14
        else if c >? 43 then
          if c <? 48 then
            if (45 <=? c) && (c <=? 46) then st 14
            else st 0
          else if c >? 57 then
            if c >? 90 then
              if (94 <=? c) && (c <=? 122) then st 14
              else st 0
            else if c >=? 65 then st 14
            else st 0
          else st 14
        else st 14)))].

Definition request_trans_3 : list (Z * (list request_action * Z)) :=
  [(30, ([Mark; WriteValue], 13));
   (33, ([WriteValue], 13));
   (23, ([StartField], 14));
   (27, ([WriteField], 15))].

(** http_request_parser.cc, lines 553-697 *)
Definition request_cases_4 : list (Z * case) :=
  [(15, Plain (fun c =>
    switch c
      [(0, st 0); (9, tr 29); (10, tr 30); (13, tr 31); (32, tr 29);
       (127, st 0)]
      (tr 28)));
   (16, Plain (fun c =>
    switch c
      [(0, st 0); (10, tr 33); (13, tr 34); (127, st 0)]
      (st 16)));
   (17, Plain (fun c =>
    if c =? 10 then st 13
    else st 0))].

Definition request_trans_4 : list (Z * (list request_action * Z)) :=
  [(29, ([Mark], 15));
   (28, ([Mark], 16));
   (22, ([HttpVersion], 17));
   (31, ([Mark; WriteValue], 17));
   (34, ([WriteValue], 17));
   (24, ([StartField; Done 348], 348));
   (36, ([Done 348], 348))].

(** http_request_parser.cc, lines 698-819 *)
Definition request_cases_5 : list (Z * case) :=
  [(348, Plain (fun c =>
    switch c
      [(33, st 14); (58, tr 27); (124, st 14); (126, st 14)]
      (if c <? 42 then
          if c <? 10 then
            if (1 <=? c) && (c <=? 8) then st 14
            else st 0
          else if c >? 31 then
            if (35 <=? c) && (c <=? 39) then st 14
            else st 0
          else st 14
        else if c >? 43 then
          if c <? 48 then
            if (45 <=? c) && (c <=? 46) then st 14
            else st 0
          else if c >? 57 then
            if c >? 90 then
              if (94 <=? c) && (c <=? 122) then st 14
              else st 0
            else if c >=? 65 then st 14
            else st 0
          else st 14
        else st 14)));
   (18, Plain (fun c =>
    switch c
      [(10, tr 36); (33, st 14); (58, tr 27); (124, st 14); (126, st 14)]
      (if c <? 42 then
          if c <? 11 then
            if (1 <=? c) && (c <=? 8) then st 14
            else st 0
          else if c >? 31 then
            if (35 <=? c) && (c <=? 39) then st 14
            else st 0
          else st 14
        else if c >? 43 then
          if c <? 48 then
            if (45 <=? c) && (c <=? 46) then st 14
            else st 0
          else if c >? 57 then
            if c >? 90 then
              if (94 <=? c) && (c <=? 122) then st 14
              else st 0
            else if c >=? 65 then st 14
            else st 0
          else st 14
        else st 14)))].

Definition request_trans_5 : list (Z * (list request_action * Z)) :=
  [(25, ([StartField], 18));
   (7, ([Mark], 19))].

(** http_request_parser.cc, lines 820-960 *)
Definition request_cases_6 : list (Z * case) :=
  [(19, Wide (fun w =>
    switch w
      [(32, tr 37); (33, st 19); (35, tr 39); (37, st 24); (47, st 26);
       (59, st 19); (61, st 19); (63, tr 42); (95, st 19); (126, st 19);
       (606, st 19); (635, st 19); (637, st 19)]
      (if w <? 64 then
          if (36 <=? w) && (w <=? 57) then st 19
          else st 0
        else if w >? 90 then
          if (97 <=? w) && (w <=? 122) then st 19
          else st 0
        else st 19)))].

Definition request_trans_6 : list (Z * (list request_action * Z)) :=
  [(8, ([Mark; RequestPath; RequestUri], 20));
   (39, ([RequestPath; RequestUri], 20));
   (55, ([StartQuery; QueryString; RequestUri], 20));
   (59, ([QueryString; RequestUri], 20))].

(** http_request_parser.cc, lines 961-1041 *)
Definition request_cases_7 : list (Z * case) :=
  [(20, Wide (fun w =>
    switch w
      [(32, tr 44); (33, tr 43); (37, tr 45); (61, tr 43); (95, tr 43);
       (126, tr 43); (606, tr 43); (635, tr 43); (637, tr 43)]
      (if w <? 36 then
          if w <=? (-1) then tr 43
          else st 0
        else if w >? 59 then
          if w >? 90 then
            if (97 <=? w) && (w <=? 122) then tr 43
            else st 0
          else if w >=? 63 then tr 43
          else st 0
        else tr 43)))].

Definition request_trans_7 : list (Z * (list request_action * Z)) :=
  [(43, ([Mark], 21))].

(** http_request_parser.cc, lines 1042-1181 *)
Definition request_cases_8 : list (Z * case) :=
  [(21, Wide (fun w =>
    switch w
      [(32, tr 47); (33, st 21); (37, st 22); (61, st 21); (95, st 21);
       (126, st 21); (606, st 21); (635, st 21); (637, st 21)]
      (if w <? 36 then
          if w <=? (-1) then st 21
          else st 0
        else if w >? 59 then
          if w >? 90 then
            if (97 <=? w) && (w <=? 122) then st 21
            else st 0
          else if w >=? 63 then st 21
          else st 0
        else st 21)));
   (22, Plain (fun c =>
    if c <? 65 then
      if (48 <=? c) && (c <=? 57) then st 23
      else st 0
    else if c >? 70 then
      if (97 <=? c) && (c <=? 102) then st 23
      else st 0
    else st 23));
   (23, Plain (fun c =>
    if c <? 65 then
      if (48 <=? c) && (c <=? 57) then st 21
      else st 0
    else if c >? 70 then
      if (97 <=? c) && (c <=? 102) then st 21
      else st 0
    else st 21));
   (24, Plain (fun c =>
    if c <? 65 then
      if (48 <=? c) && (c <=? 57) then st 25
      else st 0
    else if c >? 70 then
      if (97 <=? c) && (c <=? 102) then st 25
      else st 0
    else st 25))].

Definition request_trans_8 : list (Z * (list request_action * Z)) :=
  [(45, ([Mark], 22));
   (9, ([Mark], 24))].

(** http_request_parser.cc, lines 1182-1324 *)
Definition request_cases_9 : list (Z * case) :=
  [(25, Plain (fun c =>
    if c <? 65 then
      if (48 <=? c) && (c <=? 57) then st 19
      else st 0
    else if c >? 70 then
      if (97 <=? c) && (c <=? 102) then st 19
      else st 0
    else st 19));
   (26, Wide (fun w =>
    switch w
      [(32, tr 37); (33, st 26); (35, tr 39); (37, st 27); (61, st 26);
       (63, tr 42); (95, st 26); (126, st 26); (606, st 26); (635, st 26);
       (637, st 26)]
      (if w <? 36 then
          if w <=? (-1) then st 26
          else st 0
        else if w >? 59 then
          if w >? 90 then
            if (97 <=? w) && (w <=? 122) then st 26
            else st 0
          else if w >=? 64 then st 26
          else st 0
        else st 26)));
   (27, Plain (fun c =>
    if c <? 65 then
      if (48 <=? c) && (c <=? 57) then st 28
      else st 0
    else if c >? 70 then
      if (97 <=? c) && (c <=? 102) then st 28
      else st 0
    else st 28));
   (28, Plain (fun c =>
    if c <? 65 then
      if (48 <=? c) && (c <=? 57) then st 26
      else st 0
    else if c >? 70 then
      if (97 <=? c) && (c <=? 102) then st 26
      else st 0
    else st 26))].

Definition request_trans_9 : list (Z * (list request_action * Z)) :=
  [(203, ([Mark], 26));
   (204, ([Mark], 27))].

(** http_request_parser.cc, lines 1325-1426 *)
Definition request_cases_10 : list (Z * case) :=
  [(29, Wide (fun w =>
    switch w
      [(32, tr 54); (33, tr 53); (35, tr 55); (37, tr 56); (61, tr 53);
       (95, tr 53); (126, tr 53); (606, tr 53); (635, tr 53); (637, tr 53)]
      (if w <? 36 then
          if w <=? (-1) then tr 53
          else st 0
        else if w >? 59 then
          if w >? 90 then
            if (97 <=? w) && (w <=? 122) then tr 53
            else st 0
          else if w >=? 63 then tr 53
          else st 0
        else tr 53)))].

Definition request_trans_10 : list (Z * (list request_action * Z)) :=
  [(11, ([Mark; RequestPath], 29));
   (42, ([RequestPath], 29));
   (53, ([StartQuery], 30))].

(** http_request_parser.cc, lines 1427-1550 *)
Definition request_cases_11 : list (Z * case) :=
  [(30, Wide (fun w =>
    switch w
      [(32, tr 58); (33, st 30); (35, tr 59); (37, st 31); (61, st 30);
       (95, st 30); (126, st 30); (606, st 30); (635, st 30); (637, st 30)]
      (if w <? 36 then
          if w <=? (-1) then st 30
          else st 0
        else if w >? 59 then
          if w >? 90 then
            if (97 <=? w) && (w <=? 122) then st 30
            else st 0
          else if w >=? 63 then st 30
          else st 0
        else st 30)));
   (31, Plain (fun c =>
    if c <? 65 then
      if (48 <=? c) && (c <=? 57) then st 32
      else st 0
    else if c >? 70 then
      if (97 <=? c) && (c <=? 102) then st 32
      else st 0
    else st 32));
   (32, Plain (fun c =>
    if c <? 65 then
      if (48 <=? c) && (c <=? 57) then st 30
      else st 0
    else if c >? 70 then
      if (97 <=? c) && (c <=? 102) then st 30
      else st 0
    else st 30))].

Definition request_trans_11 : list (Z * (list request_action * Z)) :=
  [(56, ([StartQuery], 31));
   (10, ([Mark], 33))].

(** http_request_parser.cc, lines 1551-1631 *)
Definition request_cases_12 : list (Z * case) :=
  [(33, Wide (fun w =>
    switch w
      [(32, tr 37); (33, st 26); (35, tr 39); (37, st 27); (47, st 34);
       (61, st 26); (63, tr 42); (95, st 26); (126, st 26); (606, st 26);
       (635, st 26); (637, st 26)]
      (if w <? 36 then
          if w <=? (-1) then st 26
          else st 0
        else if w >? 59 then
          if w >? 90 then
            if (97 <=? w) && (w <=? 122) then st 26
            else st 0
          else if w >=? 64 then st 26
          else st 0
        else st 26)))].

(** http_request_parser.cc, lines 1632-1712 *)
Definition request_cases_13 : list (Z * case) :=
  [(34, Wide (fun w =>
    switch w
      [(32, tr 37); (33, st 35); (35, tr 39); (37, st 36); (47, st 26);
       (58, st 38); (61, st 35); (63, tr 42); (64, st 42); (91, st 47);
       (95, st 35); (126, st 35); (606, st 35); (635, st 35); (637, st 35)]
      (if w <? 65 then
          if (36 <=? w) && (w <=? 59) then st 35
          else st 0
        else if w >? 90 then
          if (97 <=? w) && (w <=? 122) then st 35
          else st 0
        else st 35)))].

(** http_request_parser.cc, lines 1713-1825 *)
Definition request_cases_14 : list (Z * case) :=
  [(35, Wide (fun w =>
    switch w
      [(32, tr 37); (33, st 35); (35, tr 39); (37, st 36); (47, st 26);
       (58, st 38); (61, st 35); (63, tr 42); (64, st 42); (95, st 35);
       (126, st 35); (606, st 35); (635, st 35); (637, st 35)]
      (if w <? 65 then
          if (36 <=? w) && (w <=? 59) then st 35
          else st 0
        else if w >? 90 then
          if (97 <=? w) && (w <=? 122) then st 35
          else st 0
        else st 35)));
   (36, Plain (fun c =>
    if c <? 65 then
      if (48 <=? c) && (c <=? 57) then st 37
      else st 0
    else if c >? 70 then
      if (97 <=? c) && (c <=? 102) then st 37
      else st 0
    else st 37));
   (37, Plain (fun c =>
    if c <? 65 then
      if (48 <=? c) && (c <=? 57) then st 35
      else st 0
    else if c >? 70 then
      if (97 <=? c) && (c <=? 102) then st 35
      else st 0
    else st 35))].

(** http_request_parser.cc, lines 1826-1912 *)
Definition request_cases_15 : list (Z * case) :=
  [(38, Wide (fun w =>
    switch w
      [(32, tr 37); (33, st 39); (35, tr 39); (37, st 40); (47, st 26);
       (61, st 39); (63, tr 42); (64, st 42); (95, st 39); (126, st 39);
       (606, st 39); (635, st 39); (637, st 39)]
      (if w <? 58 then
          if w >? 46 then
            if (48 <=? w) && (w <=? 57) then st 38
            else st 0
          else if w >=? 36 then st 39
          else st 0
        else if w >? 59 then
          if w >? 90 then
            if (97 <=? w) && (w <=? 122) then st 39
            else st 0
          else if w >=? 65 then st 39
          else st 0
        else st 39)))].

(** http_request_parser.cc, lines 1913-2020 *)
Definition request_cases_16 : list (Z * case) :=
  [(39, Wide (fun w =>
    switch w
      [(33, st 39); (37, st 40); (61, st 39); (64, st 42); (95, st 39);
       (126, st 39); (606, st 39); (635, st 39); (637, st 39)]
      (if w <? 48 then
          if (36 <=? w) && (w <=? 46) then st 39
          else st 0
        else if w >? 59 then
          if w >? 90 then
            if (97 <=? w) && (w <=? 122) then st 39
            else st 0
          else if w >=? 65 then st 39
          else st 0
        else st 39)));
   (40, Plain (fun c =>
    if c <? 65 then
      if (48 <=? c) && (c <=? 57) then st 41
      else st 0
    else if c >? 70 then
      if (97 <=? c) && (c <=? 102) then st 41
      else st 0
    else st 41));
   (41, Plain (fun c =>
    if c <? 65 then
      if (48 <=? c) && (c <=? 57) then st 39
      else st 0
    else if c >? 70 then
      if (97 <=? c) && (c <=? 102) then st 39
      else st 0
    else st 39))].

(** http_request_parser.cc, lines 2021-2099 *)
Definition request_cases_17 : list (Z * case) :=
  [(42, Wide (fun w =>
    switch w
      [(32, tr 37); (33, st 43); (35, tr 39); (37, st 44); (47, st 26);
       (58, st 46); (61, st 43); (63, tr 42); (91, st 47); (95, st 43);
       (126, st 43); (606, st 43); (635, st 43); (637, st 43)]
      (if w <? 65 then
          if (36 <=? w) && (w <=? 59) then st 43
          else st 0
        else if w >? 90 then
          if (97 <=? w) && (w <=? 122) then st 43
          else st 0
        else st 43)))].

(** http_request_parser.cc, lines 2100-2228 *)
Definition request_cases_18 : list (Z * case) :=
  [(43, Wide (fun w =>
    switch w
      [(32, tr 37); (33, st 43); (35, tr 39); (37, st 44); (47, st 26);
       (58, st 46); (61, st 43); (63, tr 42); (95, st 43); (126, st 43);
       (606, st 43); (635, st 43); (637, st 43)]
      (if w <? 65 then
          if (36 <=? w) && (w <=? 59) then st 43
          else st 0
        else if w >? 90 then
          if (97 <=? w) && (w <=? 122) then st 43
          else st 0
        else st 43)));
   (44, Plain (fun c =>
    if c <? 65 then
      if (48 <=? c) && (c <=? 57) then st 45
      else st 0
    else if c >? 70 then
      if (97 <=? c) && (c <=? 102) then st 45
      else st 0
    else st 45));
   (45, Plain (fun c =>
    if c <? 65 then
      if (48 <=? c) && (c <=? 57) then st 43
      else st 0
    else if c >? 70 then
      if (97 <=? c) && (c <=? 102) then st 43
      else st 0
    else st 43));
   (46, Plain (fun c =>
    switch c
      [(32, tr 37); (35, tr 39); (47, st 26); (63, tr 42)]
      (if (48 <=? c) && (c <=? 57) then st 46
        else st 0)))].

(** http_request_parser.cc, lines 2229-2359 *)
Definition request_cases_19 : list (Z * case) :=
  [(47, Plain (fun c =>
    switch c
      [(6, st 48); (58, st 167); (118, st 169)]
      (if c <? 65 then
          if (48 <=? c) && (c <=? 57) then st 91
          else st 0
        else if c >? 70 then
          if (97 <=? c) && (c <=? 102) then st 91
          else st 0
        else st 91)));
   (48, Plain (fun c =>
    if c <? 65 then
      if (48 <=? c) && (c <=? 57) then st 49
      else st 0
    else if c >? 70 then
      if (97 <=? c) && (c <=? 102) then st 49
      else st 0
    else st 49));
   (49, Plain (fun c =>
    if c =? 58 then st 53
    else if c <? 65 then
      if (48 <=? c) && (c <=? 57) then st 50
      else st 0
    else if c >? 70 then
      if (97 <=? c) && (c <=? 102) then st 50
      else st 0
    else st 50));
   (50, Plain (fun c =>
    if c =? 58 then st 53
    else if c <? 65 then
      if (48 <=? c) && (c <=? 57) then st 51
      else st 0
    else if c >? 70 then
      if (97 <=? c) && (c <=? 102) then st 51
      else st 0
    else st 51));
   (51, Plain (fun c =>
    if c =? 58 then st 53
    else if c <? 65 then
      if (48 <=? c) && (c <=? 57) then st 52
      else st 0
    else if c >? 70 then
      if (97 <=? c) && (c <=? 102) then st 52
      else st 0
    else st 52));
   (52, Plain (fun c =>
    if c =? 58 then st 53
    else st 0));
   (53, Plain (fun c =>
    switch c
      [(49, st 84); (50, st 87)]
      (if c <? 65 then
          if (48 <=? c) && (c <=? 57) then st 54
          else st 0
        else if c >? 70 then
          if (97 <=? c) && (c <=? 102) then st 90
          else st 0
        else st 90)))].

(** http_request_parser.cc, lines 2360-2503 *)
Definition request_cases_20 : list (Z * case) :=
  [(54, Plain (fun c =>
    switch c
      [(46, st 55); (58, st 80)]
      (if c <? 65 then
          if (48 <=? c) && (c <=? 57) then st 77
          else st 0
        else if c >? 70 then
          if (97 <=? c) && (c <=? 102) then st 77
          else st 0
        else st 77)));
   (55, Plain (fun c =>
    switch c
      [(49, st 72); (50, st 74)]
      (if (48 <=? c) && (c <=? 57) then st 56
        else st 0)));
   (56, Plain (fun c =>
    if c =? 46 then st 57
    else st 0));
   (57, Plain (fun c =>
    switch c
      [(49, st 67); (50, st 69)]
      (if (48 <=? c) && (c <=? 57) then st 58
        else st 0)));
   (58, Plain (fun c =>
    if c =? 46 then st 59
    else st 0));
   (59, Plain (fun c =>
    switch c
      [(49, st 62); (50, st 64)]
      (if (48 <=? c) && (c <=? 57) then st 60
        else st 0)));
   (60, Plain (fun c =>
    if c =? 93 then st 61
    else st 0));
   (61, Plain (fun c =>
    switch c
      [(32, tr 37); (35, tr 39); (47, st 26); (58, st 46); (63, tr 42)]
      (st 0)));
   (62, Plain (fun c =>
    if c =? 93 then st 61
    else if (48 <=? c) && (c <=? 57) then st 63
    else st 0));
   (63, Plain (fun c =>
    if c =? 93 then st 61
    else if (48 <=? c) && (c <=? 57) then st 60
    else st 0));
   (64, Plain (fun c =>
    switch c
      [(48, st 65); (53, st 66); (93, st 61)]
      (st 0)));
   (65, Plain (fun c =>
    if (48 <=? c) && (c <=? 57) then st 60
    else st 0))].

(** http_request_parser.cc, lines 2504-2647 *)
Definition request_cases_21 : list (Z * case) :=
  [(66, Plain (fun c =>
    if c =? 48 then st 60
    else st 0));
   (67, Plain (fun c =>
    if c =? 46 then st 59
    else if (48 <=? c) && (c <=? 57) then st 68
    else st 0));
   (68, Plain (fun c =>
    if c =? 46 then st 59
    else if (48 <=? c) && (c <=? 57) then st 58
    else st 0));
   (69, Plain (fun c =>
    switch c
      [(46, st 59); (48, st 70); (53, st 71)]
      (st 0)));
   (70, Plain (fun c =>
    if (48 <=? c) && (c <=? 57) then st 58
    else st 0));
   (71, Plain (fun c =>
    if c =? 48 then st 58
    else st 0));
   (72, Plain (fun c =>
    if c =? 46 then st 57
    else if (48 <=? c) && (c <=? 57) then st 73
    else st 0));
   (73, Plain (fun c =>
    if c =? 46 then st 57
    else if (48 <=? c) && (c <=? 57) then st 56
    else st 0));
   (74, Plain (fun c =>
    switch c
      [(46, st 57); (48, st 75); (53, st 76)]
      (st 0)));
   (75, Plain (fun c =>
    if (48 <=? c) && (c <=? 57) then st 56
    else st 0));
   (76, Plain (fun c =>
    if c =? 48 then st 56
    else st 0));
   (77, Plain (fun c =>
    if c =? 58 then st 80
    else if c <? 65 then
      if (48 <=? c) && (c <=? 57) then st 78
      else st 0
    else if c >? 70 then
      if (97 <=? c) && (c <=? 102) then st 78
      else st 0
    else st 78));
   (78, Plain (fun c =>
    if c =? 58 then st 80
    else if c <? 65 then
      if (48 <=? c) && (c <=? 57) then st 79
      else st 0
    else if c >? 70 then
      if (97 <=? c) && (c <=? 102) then st 79
      else st 0
    else st 79));
   (79, Plain (fun c =>
    if c =? 58 then st 80
    else st 0))].

(** http_request_parser.cc, lines 2648-2793 *)
Definition request_cases_22 : list (Z * case) :=
  [(80, Plain (fun c =>
    if c <? 65 then
      if (48 <=? c) && (c <=? 57) then st 81
      else st 0
    else if c >? 70 then
      if (97 <=? c) && (c <=? 102) then st 81
      else st 0
    else st 81));
   (81, Plain (fun c =>
    if c =? 93 then st 61
    else if c <? 65 then
      if (48 <=? c) && (c <=? 57) then st 82
      else st 0
    else if c >? 70 then
      if (97 <=? c) && (c <=? 102) then st 82
      else st 0
    else st 82));
   (82, Plain (fun c =>
    if c =? 93 then st 61
    else if c <? 65 then
      if (48 <=? c) && (c <=? 57) then st 83
      else st 0
    else if c >? 70 then
      if (97 <=? c) && (c <=? 102) then st 83
      else st 0
    else st 83));
   (83, Plain (fun c =>
    if c =? 93 then st 61
    else if c <? 65 then
      if (48 <=? c) && (c <=? 57) then st 60
      else st 0
    else if c >? 70 then
      if (97 <=? c) && (c <=? 102) then st 60
      else st 0
    else st 60));
   (84, Plain (fun c =>
    switch c
      [(46, st 55); (58, st 80)]
      (if c <? 65 then
          if (48 <=? c) && (c <=? 57) then st 85
          else st 0
        else if c >? 70 then
          if (97 <=? c) && (c <=? 102) then st 77
          else st 0
        else st 77)));
   (85, Plain (fun c =>
    switch c
      [(46, st 55); (58, st 80)]
      (if c <? 65 then
          if (48 <=? c) && (c <=? 57) then st 86
          else st 0
        else if c >? 70 then
          if (97 <=? c) && (c <=? 102) then st 78
          else st 0
        else st 78)));
   (86, Plain (fun c =>
    switch c
      [(46, st 55); (58, st 80)]
      (if c <? 65 then
          if (48 <=? c) && (c <=? 57) then st 79
          else st 0
        else if c >? 70 then
          if (97 <=? c) && (c <=? 102) then st 79
          else st 0
        else st 79)))].

(** http_request_parser.cc, lines 2794-2940 *)
Definition request_cases_23 : list (Z * case) :=
  [(87, Plain (fun c =>
    switch c
      [(46, st 55); (48, st 88); (53, st 89); (58, st 80)]
      (if c <? 65 then
          if (49 <=? c) && (c <=? 57) then st 77
          else st 0
        else if c >? 70 then
          if (97 <=? c) && (c <=? 102) then st 77
          else st 0
        else st 77)));
   (88, Plain (fun c =>
    if c =? 58 then st 80
    else if c <? 65 then
      if (48 <=? c) && (c <=? 57) then st 86
      else st 0
    else if c >? 70 then
      if (97 <=? c) && (c <=? 102) then st 78
      else st 0
    else st 78));
   (89, Plain (fun c =>
    switch c
      [(48, st 86); (58, st 80)]
      (if c <? 65 then
          if (49 <=? c) && (c <=? 57) then st 78
          else st 0
        else if c >? 70 then
          if (97 <=? c) && (c <=? 102) then st 78
          else st 0
        else st 78)));
   (90, Plain (fun c =>
    if c =? 58 then st 80
    else if c <? 65 then
      if (48 <=? c) && (c <=? 57) then st 77
      else st 0
    else if c >? 70 then
      if (97 <=? c) && (c <=? 102) then st 77
      else st 0
    else st 77));
   (91, Plain (fun c =>
    if c =? 58 then st 95
    else if c <? 65 then
      if (48 <=? c) && (c <=? 57) then st 92
      else st 0
    else if c >? 70 then
      if (97 <=? c) && (c <=? 102) then st 92
      else st 0
    else st 92));
   (92, Plain (fun c =>
    if c =? 58 then st 95
    else if c <? 65 then
      if (48 <=? c) && (c <=? 57) then st 93
      else st 0
    else if c >? 70 then
      if (97 <=? c) && (c <=? 102) then st 93
      else st 0
    else st 93));
   (93, Plain (fun c =>
    if c =? 58 then st 95
    else if c <? 65 then
      if (48 <=? c) && (c <=? 57) then st 94
      else st 0
    else if c >? 70 then
      if (97 <=? c) && (c <=? 102) then st 94
      else st 0
    else st 94))].

(** http_request_parser.cc, lines 2941-3087 *)
Definition request_cases_24 : list (Z * case) :=
  [(94, Plain (fun c =>
    if c =? 58 then st 95
    else st 0));
   (95, Plain (fun c =>
    if c =? 58 then st 166
    else if c <? 65 then
      if (48 <=? c) && (c <=? 57) then st 96
      else st 0
    else if c >? 70 then
      if (97 <=? c) && (c <=? 102) then st 96
      else st 0
    else st 96));
   (96, Plain (fun c =>
    if c =? 58 then st 100
    else if c <? 65 then
      if (48 <=? c) && (c <=? 57) then st 97
      else st 0
    else if c >? 70 then
      if (97 <=? c) && (c <=? 102) then st 97
      else st 0
    else st 97));
   (97, Plain (fun c =>
    if c =? 58 then st 100
    else if c <? 65 then
      if (48 <=? c) && (c <=? 57) then st 98
      else st 0
    else if c >? 70 then
      if (97 <=? c) && (c <=? 102) then st 98
      else st 0
    else st 98));
   (98, Plain (fun c =>
    if c =? 58 then st 100
    else if c <? 65 then
      if (48 <=? c) && (c <=? 57) then st 99
      else st 0
    else if c >? 70 then
      if (97 <=? c) && (c <=? 102) then st 99
      else st 0
    else st 99));
   (99, Plain (fun c =>
    if c =? 58 then st 100
    else st 0));
   (100, Plain (fun c =>
    if c =? 58 then st 165
    else if c <? 65 then
      if (48 <=? c) && (c <=? 57) then st 101
      else st 0
    else if c >? 70 then
      if (97 <=? c) && (c <=? 102) then st 101
      else st 0
    else st 101));
   (101, Plain (fun c =>
    if c =? 58 then st 105
    else if c <? 65 then
      if (48 <=? c) && (c <=? 57) then st 102
      else st 0
    else if c >? 70 then
      if (97 <=? c) && (c <=? 102) then st 102
      else st 0
    else st 102));
   (102, Plain (fun c =>
    if c =? 58 then st 105
    else if c <? 65 then
      if (48 <=? c) && (c <=? 57) then st 103
      else st 0
    else if c >? 70 then
      if (97 <=? c) && (c <=? 102) then st 103
      else st 0
    else st 103))].

(** http_request_parser.cc, lines 3088-3234 *)
Definition request_cases_25 : list (Z * case) :=
  [(103, Plain (fun c =>
    if c =? 58 then st 105
    else if c <? 65 then
      if (48 <=? c) && (c <=? 57) then st 104
      else st 0
    else if c >? 70 then
      if (97 <=? c) && (c <=? 102) then st 104
      else st 0
    else st 104));
   (104, Plain (fun c =>
    if c =? 58 then st 105
    else st 0));
   (105, Plain (fun c =>
    if c =? 58 then st 164
    else if c <? 65 then
      if (48 <=? c) && (c <=? 57) then st 106
      else st 0
    else if c >? 70 then
      if (97 <=? c) && (c <=? 102) then st 106
      else st 0
    else st 106));
   (106, Plain (fun c =>
    if c =? 58 then st 110
    else if c <? 65 then
      if (48 <=? c) && (c <=? 57) then st 107
      else st 0
    else if c >? 70 then
      if (97 <=? c) && (c <=? 102) then st 107
      else st 0
    else st 107));
   (107, Plain (fun c =>
    if c =? 58 then st 110
    else if c <? 65 then
      if (48 <=? c) && (c <=? 57) then st 108
      else st 0
    else if c >? 70 then
      if (97 <=? c) && (c <=? 102) then st 108
      else st 0
    else st 108));
   (108, Plain (fun c =>
    if c =? 58 then st 110
    else if c <? 65 then
      if (48 <=? c) && (c <=? 57) then st 109
      else st 0
    else if c >? 70 then
      if (97 <=? c) && (c <=? 102) then st 109
      else st 0
    else st 109));
   (109, Plain (fun c =>
    if c =? 58 then st 110
    else st 0));
   (110, Plain (fun c =>
    if c =? 58 then st 163
    else if c <? 65 then
      if (48 <=? c) && (c <=? 57) then st 111
      else st 0
    else if c >? 70 then
      if (97 <=? c) && (c <=? 102) then st 111
      else st 0
    else st 111));
   (111, Plain (fun c =>
    if c =? 58 then st 115
    else if c <? 65 then
      if (48 <=? c) && (c <=? 57) then st 112
      else st 0
    else if c >? 70 then
      if (97 <=? c) && (c <=? 102) then st 112
      else st 0
    else st 112))].

(** http_request_parser.cc, lines 3235-3381 *)
Definition request_cases_26 : list (Z * case) :=
  [(112, Plain (fun c =>
    if c =? 58 then st 115
    else if c <? 65 then
      if (48 <=? c) && (c <=? 57) then st 113
      else st 0
    else if c >? 70 then
      if (97 <=? c) && (c <=? 102) then st 113
      else st 0
    else st 113));
   (113, Plain (fun c =>
    if c =? 58 then st 115
    else if c <? 65 then
      if (48 <=? c) && (c <=? 57) then st 114
      else st 0
    else if c >? 70 then
      if (97 <=? c) && (c <=? 102) then st 114
      else st 0
    else st 114));
   (114, Plain (fun c =>
    if c =? 58 then st 115
    else st 0));
   (115, Plain (fun c =>
    if c =? 58 then st 151
    else if c <? 65 then
      if (48 <=? c) && (c <=? 57) then st 116
      else st 0
    else if c >? 70 then
      if (97 <=? c) && (c <=? 102) then st 116
      else st 0
    else st 116));
   (116, Plain (fun c =>
    if c =? 58 then st 120
    else if c <? 65 then
      if (48 <=? c) && (c <=? 57) then st 117
      else st 0
    else if c >? 70 then
      if (97 <=? c) && (c <=? 102) then st 117
      else st 0
    else st 117));
   (117, Plain (fun c =>
    if c =? 58 then st 120
    else if c <? 65 then
      if (48 <=? c) && (c <=? 57) then st 118
      else st 0
    else if c >? 70 then
      if (97 <=? c) && (c <=? 102) then st 118
      else st 0
    else st 118));
   (118, Plain (fun c =>
    if c =? 58 then st 120
    else if c <? 65 then
      if (48 <=? c) && (c <=? 57) then st 119
      else st 0
    else if c >? 70 then
      if (97 <=? c) && (c <=? 102) then st 119
      else st 0
    else st 119));
   (119, Plain (fun c =>
    if c =? 58 then st 120
    else st 0));
   (120, Plain (fun c =>
    if c =? 58 then st 150
    else if c <? 65 then
      if (48 <=? c) && (c <=? 57) then st 121
      else st 0
    else if c >? 70 then
      if (97 <=? c) && (c <=? 102) then st 121
      else st 0
    else st 121))].

(** http_request_parser.cc, lines 3382-3521 *)
Definition request_cases_27 : list (Z * case) :=
  [(121, Plain (fun c =>
    if c =? 58 then st 125
    else if c <? 65 then
      if (48 <=? c) && (c <=? 57) then st 122
      else st 0
    else if c >? 70 then
      if (97 <=? c) && (c <=? 102) then st 122
      else st 0
    else st 122));
   (122, Plain (fun c =>
    if c =? 58 then st 125
    else if c <? 65 then
      if (48 <=? c) && (c <=? 57) then st 123
      else st 0
    else if c >? 70 then
      if (97 <=? c) && (c <=? 102) then st 123
      else st 0
    else st 123));
   (123, Plain (fun c =>
    if c =? 58 then st 125
    else if c <? 65 then
      if (48 <=? c) && (c <=? 57) then st 124
      else st 0
    else if c >? 70 then
      if (97 <=? c) && (c <=? 102) then st 124
      else st 0
    else st 124));
   (124, Plain (fun c =>
    if c =? 58 then st 125
    else st 0));
   (125, Plain (fun c =>
    if c =? 58 then st 126
    else if c <? 65 then
      if (48 <=? c) && (c <=? 57) then st 121
      else st 0
    else if c >? 70 then
      if (97 <=? c) && (c <=? 102) then st 121
      else st 0
    else st 121));
   (126, Plain (fun c =>
    switch c
      [(49, st 143); (50, st 146); (93, st 61)]
      (if c <? 48 then
          if (2 <=? c) && (c <=? 3) then st 48
          else st 0
        else if c >? 57 then
          if c >? 70 then
            if (97 <=? c) && (c <=? 102) then st 149
            else st 0
          else if c >=? 65 then st 149
          else st 0
        else st 127)));
   (127, Plain (fun c =>
    switch c
      [(46, st 55); (58, st 131); (93, st 61)]
      (if c <? 65 then
          if (48 <=? c) && (c <=? 57) then st 128
          else st 0
        else if c >? 70 then
          if (97 <=? c) && (c <=? 102) then st 128
          else st 0
        else st 128)))].

(** http_request_parser.cc, lines 3522-3655 *)
Definition request_cases_28 : list (Z * case) :=
  [(128, Plain (fun c =>
    switch c
      [(58, st 131); (93, st 61)]
      (if c <? 65 then
          if (48 <=? c) && (c <=? 57) then st 129
          else st 0
        else if c >? 70 then
          if (97 <=? c) && (c <=? 102) then st 129
          else st 0
        else st 129)));
   (129, Plain (fun c =>
    switch c
      [(58, st 131); (93, st 61)]
      (if c <? 65 then
          if (48 <=? c) && (c <=? 57) then st 130
          else st 0
        else if c >? 70 then
          if (97 <=? c) && (c <=? 102) then st 130
          else st 0
        else st 130)));
   (130, Plain (fun c =>
    switch c
      [(58, st 131); (93, st 61)]
      (st 0)));
   (131, Plain (fun c =>
    switch c
      [(49, st 136); (50, st 139)]
      (if c <? 65 then
          if (48 <=? c) && (c <=? 57) then st 132
          else st 0
        else if c >? 70 then
          if (97 <=? c) && (c <=? 102) then st 142
          else st 0
        else st 142)));
   (132, Plain (fun c =>
    switch c
      [(46, st 55); (58, st 80); (93, st 61)]
      (if c <? 65 then
          if (48 <=? c) && (c <=? 57) then st 133
          else st 0
        else if c >? 70 then
          if (97 <=? c) && (c <=? 102) then st 133
          else st 0
        else st 133)));
   (133, Plain (fun c =>
    switch c
      [(58, st 80); (93, st 61)]
      (if c <? 65 then
          if (48 <=? c) && (c <=? 57) then st 134
          else st 0
        else if c >? 70 then
          if (97 <=? c) && (c <=? 102) then st 134
          else st 0
        else st 134)))].

(** http_request_parser.cc, lines 3656-3799 *)
Definition request_cases_29 : list (Z * case) :=
  [(134, Plain (fun c =>
    switch c
      [(58, st 80); (93, st 61)]
      (if c <? 65 then
          if (48 <=? c) && (c <=? 57) then st 135
          else st 0
        else if c >? 70 then
          if (97 <=? c) && (c <=? 102) then st 135
          else st 0
        else st 135)));
   (135, Plain (fun c =>
    switch c
      [(58, st 80); (93, st 61)]
      (st 0)));
   (136, Plain (fun c =>
    switch c
      [(46, st 55); (58, st 80); (93, st 61)]
      (if c <? 65 then
          if (48 <=? c) && (c <=? 57) then st 137
          else st 0
        else if c >? 70 then
          if (97 <=? c) && (c <=? 102) then st 133
          else st 0
        else st 133)));
   (137, Plain (fun c =>
    switch c
      [(46, st 55); (58, st 80); (93, st 61)]
      (if c <? 65 then
          if (48 <=? c) && (c <=? 57) then st 138
          else st 0
        else if c >? 70 then
          if (97 <=? c) && (c <=? 102) then st 134
          else st 0
        else st 134)));
   (138, Plain (fun c =>
    switch c
      [(46, st 55); (58, st 80); (93, st 61)]
      (if c <? 65 then
          if (48 <=? c) && (c <=? 57) then st 135
          else st 0
        else if c >? 70 then
          if (97 <=? c) && (c <=? 102) then st 135
          else st 0
        else st 135)));
   (139, Plain (fun c =>
    switch c
      [(46, st 55); (48, st 140); (53, st 141); (58, st 80); (93, st 61)]
      (if c <? 65 then
          if (49 <=? c) && (c <=? 57) then st 133
          else st 0
        else if c >? 70 then
          if (97 <=? c) && (c <=? 102) then st 133
          else st 0
        else st 133)))].

(** http_request_parser.cc, lines 3800-3925 *)
Definition request_cases_30 : list (Z * case) :=
  [(140, Plain (fun c =>
    switch c
      [(58, st 80); (93, st 61)]
      (if c <? 65 then
          if (48 <=? c) && (c <=? 57) then st 138
          else st 0
        else if c >? 70 then
          if (97 <=? c) && (c <=? 102) then st 134
          else st 0
        else st 134)));
   (141, Plain (fun c =>
    switch c
      [(48, st 138); (58, st 80); (93, st 61)]
      (if c <? 65 then
          if (49 <=? c) && (c <=? 57) then st 134
          else st 0
        else if c >? 70 then
          if (97 <=? c) && (c <=? 102) then st 134
          else st 0
        else st 134)));
   (142, Plain (fun c =>
    switch c
      [(58, st 80); (93, st 61)]
      (if c <? 65 then
          if (48 <=? c) && (c <=? 57) then st 133
          else st 0
        else if c >? 70 then
          if (97 <=? c) && (c <=? 102) then st 133
          else st 0
        else st 133)));
   (143, Plain (fun c =>
    switch c
      [(46, st 55); (58, st 131); (93, st 61)]
      (if c <? 65 then
          if (48 <=? c) && (c <=? 57) then st 144
          else st 0
        else if c >? 70 then
          if (97 <=? c) && (c <=? 102) then st 128
          else st 0
        else st 128)));
   (144, Plain (fun c =>
    switch c
      [(46, st 55); (58, st 131); (93, st 61)]
      (if c <? 65 then
          if (48 <=? c) && (c <=? 57) then st 145
          else st 0
        else if c >? 70 then
          if (97 <=? c) && (c <=? 102) then st 129
          else st 0
        else st 129)))].

(** http_request_parser.cc, lines 3926-4055 *)
Definition request_cases_31 : list (Z * case) :=
  [(145, Plain (fun c =>
    switch c
      [(46, st 55); (58, st 131); (93, st 61)]
      (if c <? 65 then
          if (48 <=? c) && (c <=? 57) then st 130
          else st 0
        else if c >? 70 then
          if (97 <=? c) && (c <=? 102) then st 130
          else st 0
        else st 130)));
   (146, Plain (fun c =>
    switch c
      [(46, st 55); (48, st 147); (53, st 148); (58, st 131); (93, st 61)]
      (if c <? 65 then
          if (49 <=? c) && (c <=? 57) then st 128
          else st 0
        else if c >? 70 then
          if (97 <=? c) && (c <=? 102) then st 128
          else st 0
        else st 128)));
   (147, Plain (fun c =>
    switch c
      [(58, st 131); (93, st 61)]
      (if c <? 65 then
          if (48 <=? c) && (c <=? 57) then st 145
          else st 0
        else if c >? 70 then
          if (97 <=? c) && (c <=? 102) then st 129
          else st 0
        else st 129)));
   (148, Plain (fun c =>
    switch c
      [(48, st 145); (58, st 131); (93, st 61)]
      (if c <? 65 then
          if (49 <=? c) && (c <=? 57) then st 129
          else st 0
        else if c >? 70 then
          if (97 <=? c) && (c <=? 102) then st 129
          else st 0
        else st 129)));
   (149, Plain (fun c =>
    switch c
      [(58, st 131); (93, st 61)]
      (if c <? 65 then
          if (48 <=? c) && (c <=? 57) then st 128
          else st 0
        else if c >? 70 then
          if (97 <=? c) && (c <=? 102) then st 128
          else st 0
        else st 128)))].

(** http_request_parser.cc, lines 4056-4182 *)
Definition request_cases_32 : list (Z * case) :=
  [(150, Plain (fun c =>
    switch c
      [(49, st 143); (50, st 146)]
      (if c <? 48 then
          if (2 <=? c) && (c <=? 3) then st 48
          else st 0
        else if c >? 57 then
          if c >? 70 then
            if (97 <=? c) && (c <=? 102) then st 149
            else st 0
          else if c >=? 65 then st 149
          else st 0
        else st 127)));
   (151, Plain (fun c =>
    switch c
      [(49, st 156); (50, st 159)]
      (if c <? 48 then
          if (2 <=? c) && (c <=? 3) then st 48
          else st 0
        else if c >? 57 then
          if c >? 70 then
            if (97 <=? c) && (c <=? 102) then st 162
            else st 0
          else if c >=? 65 then st 162
          else st 0
        else st 152)));
   (152, Plain (fun c =>
    switch c
      [(46, st 55); (58, st 131)]
      (if c <? 65 then
          if (48 <=? c) && (c <=? 57) then st 153
          else st 0
        else if c >? 70 then
          if (97 <=? c) && (c <=? 102) then st 153
          else st 0
        else st 153)));
   (153, Plain (fun c =>
    if c =? 58 then st 131
    else if c <? 65 then
      if (48 <=? c) && (c <=? 57) then st 154
      else st 0
    else if c >? 70 then
      if (97 <=? c) && (c <=? 102) then st 154
      else st 0
    else st 154));
   (154, Plain (fun c =>
    if c =? 58 then st 131
    else if c <? 65 then
      if (48 <=? c) && (c <=? 57) then st 155
      else st 0
    else if c >? 70 then
      if (97 <=? c) && (c <=? 102) then st 155
      else st 0
    else st 155));
   (155, Plain (fun c =>
    if c =? 58 then st 131
    else st 0))].

(** http_request_parser.cc, lines 4183-4325 *)
Definition request_cases_33 : list (Z * case) :=
  [(156, Plain (fun c =>
    switch c
      [(46, st 55); (58, st 131)]
      (if c <? 65 then
          if (48 <=? c) && (c <=? 57) then st 157
          else st 0
        else if c >? 70 then
          if (97 <=? c) && (c <=? 102) then st 153
          else st 0
        else st 153)));
   (157, Plain (fun c =>
    switch c
      [(46, st 55); (58, st 131)]
      (if c <? 65 then
          if (48 <=? c) && (c <=? 57) then st 158
          else st 0
        else if c >? 70 then
          if (97 <=? c) && (c <=? 102) then st 154
          else st 0
        else st 154)));
   (158, Plain (fun c =>
    switch c
      [(46, st 55); (58, st 131)]
      (if c <? 65 then
          if (48 <=? c) && (c <=? 57) then st 155
          else st 0
        else if c >? 70 then
          if (97 <=? c) && (c <=? 102) then st 155
          else st 0
        else st 155)));
   (159, Plain (fun c =>
    switch c
      [(46, st 55); (48, st 160); (53, st 161); (58, st 131)]
      (if c <? 65 then
          if (49 <=? c) && (c <=? 57) then st 153
          else st 0
        else if c >? 70 then
          if (97 <=? c) && (c <=? 102) then st 153
          else st 0
        else st 153)));
   (160, Plain (fun c =>
    if c =? 58 then st 131
    else if c <? 65 then
      if (48 <=? c) && (c <=? 57) then st 158
      else st 0
    else if c >? 70 then
      if (97 <=? c) && (c <=? 102) then st 154
      else st 0
    else st 154));
   (161, Plain (fun c =>
    switch c
      [(48, st 158); (58, st 131)]
      (if c <? 65 then
          if (49 <=? c) && (c <=? 57) then st 154
          else st 0
        else if c >? 70 then
          if (97 <=? c) && (c <=? 102) then st 154
          else st 0
        else st 154)))].

(** http_request_parser.cc, lines 4326-4461 *)
Definition request_cases_34 : list (Z * case) :=
  [(162, Plain (fun c =>
    if c =? 58 then st 131
    else if c <? 65 then
      if (48 <=? c) && (c <=? 57) then st 153
      else st 0
    else if c >? 70 then
      if (97 <=? c) && (c <=? 102) then st 153
      else st 0
    else st 153));
   (163, Plain (fun c =>
    if c <? 48 then
      if (2 <=? c) && (c <=? 3) then st 48
      else st 0
    else if c >? 57 then
      if c >? 70 then
        if (97 <=? c) && (c <=? 102) then st 49
        else st 0
      else if c >=? 65 then st 49
      else st 0
    else st 49));
   (164, Plain (fun c =>
    if (2 <=? c) && (c <=? 3) then st 48
    else st 0));
   (165, Plain (fun c =>
    if c =? 3 then st 48
    else st 0));
   (166, Plain (fun c =>
    if c =? 4 then st 48
    else st 0));
   (167, Plain (fun c =>
    if c =? 58 then st 168
    else st 0));
   (168, Plain (fun c =>
    switch c
      [(49, st 143); (50, st 146); (93, st 61)]
      (if c <? 48 then
          if (2 <=? c) && (c <=? 5) then st 48
          else st 0
        else if c >? 57 then
          if c >? 70 then
            if (97 <=? c) && (c <=? 102) then st 149
            else st 0
          else if c >=? 65 then st 149
          else st 0
        else st 127)));
   (169, Plain (fun c =>
    if c <? 65 then
      if (48 <=? c) && (c <=? 57) then st 170
      else st 0
    else if c >? 70 then
      if (97 <=? c) && (c <=? 102) then st 170
      else st 0
    else st 170));
   (170, Plain (fun c =>
    if c =? 46 then st 171
    else if c <? 65 then
      if (48 <=? c) && (c <=? 57) then st 170
      else st 0
    else if c >? 70 then
      if (97 <=? c) && (c <=? 102) then st 170
      else st 0
    else st 170))].

(** http_request_parser.cc, lines 4462-4607 *)
Definition request_cases_35 : list (Z * case) :=
  [(171, Wide (fun w =>
    switch w
      [(33, st 172); (36, st 172); (61, st 172); (95, st 172);
       (126, st 172); (606, st 172); (635, st 172); (637, st 172)]
      (if w <? 48 then
          if (38 <=? w) && (w <=? 46) then st 172
          else st 0
        else if w >? 59 then
          if w >? 90 then
            if (97 <=? w) && (w <=? 122) then st 172
            else st 0
          else if w >=? 65 then st 172
          else st 0
        else st 172)));
   (172, Wide (fun w =>
    switch w
      [(33, st 172); (36, st 172); (61, st 172); (93, st 61);
       (95, st 172); (126, st 172); (606, st 172); (635, st 172);
       (637, st 172)]
      (if w <? 48 then
          if (38 <=? w) && (w <=? 46) then st 172
          else st 0
        else if w >? 59 then
          if w >? 90 then
            if (97 <=? w) && (w <=? 122) then st 172
            else st 0
          else if w >=? 65 then st 172
          else st 0
        else st 172)))].

(** http_request_parser.cc, lines 4608-4702 *)
Definition request_cases_36 : list (Z * case) :=
  [(173, Wide (fun w =>
    switch w
      [(32, tr 37); (33, st 19); (35, tr 39); (37, st 24); (43, st 173);
       (47, st 26); (58, st 174); (59, st 19); (61, st 19); (63, tr 42);
       (64, st 19); (95, st 19); (126, st 19); (606, st 19); (635, st 19);
       (637, st 19)]
      (if w <? 45 then
          if (36 <=? w) && (w <=? 44) then st 19
          else st 0
        else if w >? 57 then
          if w >? 90 then
            if (97 <=? w) && (w <=? 122) then st 173
            else st 0
          else if w >=? 65 then st 173
          else st 0
        else st 173)))].

Definition request_trans_36 : list (Z * (list request_action * Z)) :=
  [(12, ([Mark], 173))].

(** http_request_parser.cc, lines 4703-4852 *)
Definition request_cases_37 : list (Z * case) :=
  [(174, Wide (fun w =>
    switch w
      [(32, tr 6); (33, tr 203); (35, tr 8); (37, tr 204); (47, tr 10);
       (61, tr 203); (63, tr 11); (95, tr 203); (126, tr 203);
       (606, tr 203); (635, tr 203); (637, tr 203)]
      (if w <? 36 then
          if w <=? (-1) then tr 203
          else st 0
        else if w >? 59 then
          if w >? 90 then
            if (97 <=? w) && (w <=? 122) then tr 203
            else st 0
          else if w >=? 64 then tr 203
          else st 0
        else tr 203)));
   (175, Plain (fun c =>
    if c =? 32 then tr 4
    else if c >? 57 then
      if (65 <=? c) && (c <=? 90) then st 176
      else st 0
    else if c >=? 48 then st 176
    else st 0));
   (176, Plain (fun c =>
    if c =? 32 then tr 4
    else if c >? 57 then
      if (65 <=? c) && (c <=? 90) then st 177
      else st 0
    else if c >=? 48 then st 177
    else st 0));
   (177, Plain (fun c =>
    if c =? 32 then tr 4
    else if c >? 57 then
      if (65 <=? c) && (c <=? 90) then st 178
      else st 0
    else if c >=? 48 then st 178
    else st 0));
   (178, Plain (fun c =>
    if c =? 32 then tr 4
    else if c >? 57 then
      if (65 <=? c) && (c <=? 90) then st 179
      else st 0
    else if c >=? 48 then st 179
    else st 0));
   (179, Plain (fun c =>
    if c =? 32 then tr 4
    else if c >? 57 then
      if (65 <=? c) && (c <=? 90) then st 180
      else st 0
    else if c >=? 48 then st 180
    else st 0))].

(** http_request_parser.cc, lines 4853-4992 *)
Definition request_cases_38 : list (Z * case) :=
  [(180, Plain (fun c =>
    if c =? 32 then tr 4
    else if c >? 57 then
      if (65 <=? c) && (c <=? 90) then st 181
      else st 0
    else if c >=? 48 then st 181
    else st 0));
   (181, Plain (fun c =>
    if c =? 32 then tr 4
    else if c >? 57 then
      if (65 <=? c) && (c <=? 90) then st 182
      else st 0
    else if c >=? 48 then st 182
    else st 0));
   (182, Plain (fun c =>
    if c =? 32 then tr 4
    else if c >? 57 then
      if (65 <=? c) && (c <=? 90) then st 183
      else st 0
    else if c >=? 48 then st 183
    else st 0));
   (183, Plain (fun c =>
    if c =? 32 then tr 4
    else if c >? 57 then
      if (65 <=? c) && (c <=? 90) then st 184
      else st 0
    else if c >=? 48 then st 184
    else st 0));
   (184, Plain (fun c =>
    if c =? 32 then tr 4
    else if c >? 57 then
      if (65 <=? c) && (c <=? 90) then st 185
      else st 0
    else if c >=? 48 then st 185
    else st 0));
   (185, Plain (fun c =>
    if c =? 32 then tr 4
    else if c >? 57 then
      if (65 <=? c) && (c <=? 90) then st 186
      else st 0
    else if c >=? 48 then st 186
    else st 0));
   (186, Plain (fun c =>
    if c =? 32 then tr 4
    else if c >? 57 then
      if (65 <=? c) && (c <=? 90) then st 187
      else st 0
    else if c >=? 48 then st 187
    else st 0));
   (187, Plain (fun c =>
    if c =? 32 then tr 4
    else if c >? 57 then
      if (65 <=? c) && (c <=? 90) then st 188
      else st 0
    else if c >=? 48 then st 188
    else st 0));
   (188, Plain (fun c =>
    if c =? 32 then tr 4
    else if c >? 57 then
      if (65 <=? c) && (c <=? 90) then st 189
      else st 0
    else if c >=? 48 then st 189
    else st 0));
   (189, Plain (fun c =>
    if c =? 32 then tr 4
    else if c >? 57 then
      if (65 <=? c) && (c <=? 90) then st 190
      else st 0
    else if c >=? 48 then st 190
    else st 0))].

(** http_request_parser.cc, lines 4993-5128 *)
Definition request_cases_39 : list (Z * case) :=
  [(190, Plain (fun c =>
    if c =? 32 then tr 4
    else if c >? 57 then
      if (65 <=? c) && (c <=? 90) then st 191
      else st 0
    else if c >=? 48 then st 191
    else st 0));
   (191, Plain (fun c =>
    if c =? 32 then tr 4
    else if c >? 57 then
      if (65 <=? c) && (c <=? 90) then st 192
      else st 0
    else if c >=? 48 then st 192
    else st 0));
   (192, Plain (fun c =>
    if c =? 32 then tr 4
    else if c >? 57 then
      if (65 <=? c) && (c <=? 90) then st 193
      else st 0
    else if c >=? 48 then st 193
    else st 0));
   (193, Plain (fun c =>
    if c =? 32 then tr 4
    else st 0));
   (194, Plain (fun c =>
    if c <? 48 then
      if (45 <=? c) && (c <=? 46) then st 195
      else st 0
    else if c >? 57 then
      if c >? 90 then
        if (97 <=? c) && (c <=? 122) then st 195
        else st 0
      else if c >=? 65 then st 195
      else st 0
    else st 195));
   (195, Plain (fun c =>
    switch c
      [(32, tr 224); (47, tr 224); (62, tr 224)]
      (if c <? 45 then
          if (9 <=? c) && (c <=? 13) then tr 224
          else st 0
        else if c >? 57 then
          if c >? 90 then
            if (97 <=? c) && (c <=? 122) then st 195
            else st 0
          else if c >=? 65 then st 195
          else st 0
        else st 195)));
   (196, Plain (fun c =>
    if c =? 62 then st 197
    else st 196));
   (197, Plain (fun c =>
    switch c
      [(0, tr 227); (62, st 197)]
      (st 196)))].

Definition request_trans_39 : list (Z * (list request_action * Z)) :=
  [(2, ([Mark], 194));
   (224, ([RequestPath], 196))].

(** http_request_parser.cc, lines 5129-5272 *)
Definition request_cases_40 : list (Z * case) :=
  [(349, Plain (fun c =>
    st 0));
   (198, Wide (fun w =>
    switch w
      [(32, tr 228); (33, st 202); (37, st 203); (47, st 208);
       (59, st 202); (61, st 202); (95, st 202); (126, st 202);
       (606, st 202); (635, st 202); (637, st 202)]
      (if w <? 64 then
          if (36 <=? w) && (w <=? 57) then st 202
          else st 0
        else if w >? 90 then
          if (97 <=? w) && (w <=? 122) then st 202
          else st 0
        else st 202)))].

Definition request_trans_40 : list (Z * (list request_action * Z)) :=
  [(227, ([Xml; Done 349], 349));
   (235, ([Json; Done 349], 349));
   (3, ([Mark], 198))].

(** http_request_parser.cc, lines 5273-5420 *)
Definition request_cases_41 : list (Z * case) :=
  [(199, Plain (fun c =>
    if c =? 123 then tr 232
    else st 0));
   (200, Plain (fun c =>
    if c =? 125 then st 201
    else st 200));
   (201, Plain (fun c =>
    switch c
      [(0, tr 235); (125, st 201)]
      (st 200)));
   (202, Wide (fun w =>
    switch w
      [(32, tr 228); (33, st 202); (37, st 203); (47, st 205);
       (59, st 202); (61, st 202); (95, st 202); (126, st 202);
       (606, st 202); (635, st 202); (637, st 202)]
      (if w <? 64 then
          if (36 <=? w) && (w <=? 57) then st 202
          else st 0
        else if w >? 90 then
          if (97 <=? w) && (w <=? 122) then st 202
          else st 0
        else st 202)));
   (203, Plain (fun c =>
    if c <? 65 then
      if (48 <=? c) && (c <=? 57) then st 204
      else st 0
    else if c >? 70 then
      if (97 <=? c) && (c <=? 102) then st 204
      else st 0
    else st 204));
   (204, Plain (fun c =>
    if c <? 65 then
      if (48 <=? c) && (c <=? 57) then st 202
      else st 0
    else if c >? 70 then
      if (97 <=? c) && (c <=? 102) then st 202
      else st 0
    else st 202))].

Definition request_trans_41 : list (Z * (list request_action * Z)) :=
  [(228, ([RequestPath], 199));
   (232, ([Mark], 200))].

(** http_request_parser.cc, lines 5421-5528 *)
Definition request_cases_42 : list (Z * case) :=
  [(205, Wide (fun w =>
    switch w
      [(32, tr 228); (33, st 205); (37, st 206); (61, st 205);
       (95, st 205); (126, st 205); (606, st 205); (635, st 205);
       (637, st 205)]
      (if w <? 36 then
          if w <=? (-1) then st 205
          else st 0
        else if w >? 59 then
          if w >? 90 then
            if (97 <=? w) && (w <=? 122) then st 205
            else st 0
          else if w >=? 64 then st 205
          else st 0
        else st 205)));
   (206, Plain (fun c =>
    if c <? 65 then
      if (48 <=? c) && (c <=? 57) then st 207
      else st 0
    else if c >? 70 then
      if (97 <=? c) && (c <=? 102) then st 207
      else st 0
    else st 207));
   (207, Plain (fun c =>
    if c <? 65 then
      if (48 <=? c) && (c <=? 57) then st 205
      else st 0
    else if c >? 70 then
      if (97 <=? c) && (c <=? 102) then st 205
      else st 0
    else st 205))].

(** http_request_parser.cc, lines 5529-5604 *)
Definition request_cases_43 : list (Z * case) :=
  [(208, Wide (fun w =>
    switch w
      [(32, tr 228); (33, st 205); (37, st 206); (47, st 209);
       (61, st 205); (95, st 205); (126, st 205); (606, st 205);
       (635, st 205); (637, st 205)]
      (if w <? 36 then
          if w <=? (-1) then st 205
          else st 0
        else if w >? 59 then
          if w >? 90 then
            if (97 <=? w) && (w <=? 122) then st 205
            else st 0
          else if w >=? 64 then st 205
          else st 0
        else st 205)))].

(** http_request_parser.cc, lines 5605-5681 *)
Definition request_cases_44 : list (Z * case) :=
  [(209, Wide (fun w =>
    switch w
      [(32, tr 228); (33, st 210); (37, st 211); (47, st 205);
       (58, st 213); (61, st 210); (64, st 217); (91, st 222);
       (95, st 210); (126, st 210); (606, st 210); (635, st 210);
       (637, st 210)]
      (if w <? 65 then
          if (36 <=? w) && (w <=? 59) then st 210
          else st 0
        else if w >? 90 then
          if (97 <=? w) && (w <=? 122) then st 210
          else st 0
        else st 210)))].

(** http_request_parser.cc, lines 5682-5790 *)
Definition request_cases_45 : list (Z * case) :=
  [(210, Wide (fun w =>
    switch w
      [(32, tr 228); (33, st 210); (37, st 211); (47, st 205);
       (58, st 213); (61, st 210); (64, st 217); (95, st 210);
       (126, st 210); (606, st 210); (635, st 210); (637, st 210)]
      (if w <? 65 then
          if (36 <=? w) && (w <=? 59) then st 210
          else st 0
        else if w >? 90 then
          if (97 <=? w) && (w <=? 122) then st 210
          else st 0
        else st 210)));
   (211, Plain (fun c =>
    if c <? 65 then
      if (48 <=? c) && (c <=? 57) then st 212
      else st 0
    else if c >? 70 then
      if (97 <=? c) && (c <=? 102) then st 212
      else st 0
    else st 212));
   (212, Plain (fun c =>
    if c <? 65 then
      if (48 <=? c) && (c <=? 57) then st 210
      else st 0
    else if c >? 70 then
      if (97 <=? c) && (c <=? 102) then st 210
      else st 0
    else st 210))].

(** http_request_parser.cc, lines 5791-5873 *)
Definition request_cases_46 : list (Z * case) :=
  [(213, Wide (fun w =>
    switch w
      [(32, tr 228); (33, st 214); (37, st 215); (47, st 205);
       (61, st 214); (64, st 217); (95, st 214); (126, st 214);
       (606, st 214); (635, st 214); (637, st 214)]
      (if w <? 58 then
          if w >? 46 then
            if (48 <=? w) && (w <=? 57) then st 213
            else st 0
          else if w >=? 36 then st 214
          else st 0
        else if w >? 59 then
          if w >? 90 then
            if (97 <=? w) && (w <=? 122) then st 214
            else st 0
          else if w >=? 65 then st 214
          else st 0
        else st 214)))].

(** http_request_parser.cc, lines 5874-5981 *)
Definition request_cases_47 : list (Z * case) :=
  [(214, Wide (fun w =>
    switch w
      [(33, st 214); (37, st 215); (61, st 214); (64, st 217);
       (95, st 214); (126, st 214); (606, st 214); (635, st 214);
       (637, st 214)]
      (if w <? 48 then
          if (36 <=? w) && (w <=? 46) then st 214
          else st 0
        else if w >? 59 then
          if w >? 90 then
            if (97 <=? w) && (w <=? 122) then st 214
            else st 0
          else if w >=? 65 then st 214
          else st 0
        else st 214)));
   (215, Plain (fun c =>
    if c <? 65 then
      if (48 <=? c) && (c <=? 57) then st 216
      else st 0
    else if c >? 70 then
      if (97 <=? c) && (c <=? 102) then st 216
      else st 0
    else st 216));
   (216, Plain (fun c =>
    if c <? 65 then
      if (48 <=? c) && (c <=? 57) then st 214
      else st 0
    else if c >? 70 then
      if (97 <=? c) && (c <=? 102) then st 214
      else st 0
    else st 214))].

(** http_request_parser.cc, lines 5982-6129 *)
Definition request_cases_48 : list (Z * case) :=
  [(217, Wide (fun w =>
    switch w
      [(32, tr 228); (33, st 218); (37, st 219); (47, st 205);
       (58, st 221); (61, st 218); (91, st 222); (95, st 218);
       (126, st 218); (606, st 218); (635, st 218); (637, st 218)]
      (if w <? 65 then
          if (36 <=? w) && (w <=? 59) then st 218
          else st 0
        else if w >? 90 then
          if (97 <=? w) && (w <=? 122) then st 218
          else st 0
        else st 218)));
   (218, Wide (fun w =>
    switch w
      [(32, tr 228); (33, st 218); (37, st 219); (47, st 205);
       (58, st 221); (61, st 218); (95, st 218); (126, st 218);
       (606, st 218); (635, st 218); (637, st 218)]
      (if w <? 65 then
          if (36 <=? w) && (w <=? 59) then st 218
          else st 0
        else if w >? 90 then
          if (97 <=? w) && (w <=? 122) then st 218
          else st 0
        else st 218)))].

(** http_request_parser.cc, lines 6130-6277 *)
Definition request_cases_49 : list (Z * case) :=
  [(219, Plain (fun c =>
    if c <? 65 then
      if (48 <=? c) && (c <=? 57) then st 220
      else st 0
    else if c >? 70 then
      if (97 <=? c) && (c <=? 102) then st 220
      else st 0
    else st 220));
   (220, Plain (fun c =>
    if c <? 65 then
      if (48 <=? c) && (c <=? 57) then st 218
      else st 0
    else if c >? 70 then
      if (97 <=? c) && (c <=? 102) then st 218
      else st 0
    else st 218));
   (221, Plain (fun c =>
    switch c
      [(32, tr 228); (47, st 205)]
      (if (48 <=? c) && (c <=? 57) then st 221
        else st 0)));
   (222, Plain (fun c =>
    switch c
      [(6, st 223); (58, st 342); (118, st 344)]
      (if c <? 65 then
          if (48 <=? c) && (c <=? 57) then st 266
          else st 0
        else if c >? 70 then
          if (97 <=? c) && (c <=? 102) then st 266
          else st 0
        else st 266)));
   (223, Plain (fun c =>
    if c <? 65 then
      if (48 <=? c) && (c <=? 57) then st 224
      else st 0
    else if c >? 70 then
      if (97 <=? c) && (c <=? 102) then st 224
      else st 0
    else st 224));
   (224, Plain (fun c =>
    if c =? 58 then st 228
    else if c <? 65 then
      if (48 <=? c) && (c <=? 57) then st 225
      else st 0
    else if c >? 70 then
      if (97 <=? c) && (c <=? 102) then st 225
      else st 0
    else st 225));
   (225, Plain (fun c =>
    if c =? 58 then st 228
    else if c <? 65 then
      if (48 <=? c) && (c <=? 57) then st 226
      else st 0
    else if c >? 70 then
      if (97 <=? c) && (c <=? 102) then st 226
      else st 0
    else st 226));
   (226, Plain (fun c =>
    if c =? 58 then st 228
    else if c <? 65 then
      if (48 <=? c) && (c <=? 57) then st 227
      else st 0
    else if c >? 70 then
      if (97 <=? c) && (c <=? 102) then st 227
      else st 0
    else st 227))].

(** http_request_parser.cc, lines 6278-6427 *)
Definition request_cases_50 : list (Z * case) :=
  [(227, Plain (fun c =>
    if c =? 58 then st 228
    else st 0));
   (228, Plain (fun c =>
    switch c
      [(49, st 259); (50, st 262)]
      (if c <? 65 then
          if (48 <=? c) && (c <=? 57) then st 229
          else st 0
        else if c >? 70 then
          if (97 <=? c) && (c <=? 102) then st 265
          else st 0
        else st 265)));
   (229, Plain (fun c =>
    switch c
      [(46, st 230); (58, st 255)]
      (if c <? 65 then
          if (48 <=? c) && (c <=? 57) then st 252
          else st 0
        else if c >? 70 then
          if (97 <=? c) && (c <=? 102) then st 252
          else st 0
        else st 252)));
   (230, Plain (fun c =>
    switch c
      [(49, st 247); (50, st 249)]
      (if (48 <=? c) && (c <=? 57) then st 231
        else st 0)));
   (231, Plain (fun c =>
    if c =? 46 then st 232
    else st 0));
   (232, Plain (fun c =>
    switch c
      [(49, st 242); (50, st 244)]
      (if (48 <=? c) && (c <=? 57) then st 233
        else st 0)));
   (233, Plain (fun c =>
    if c =? 46 then st 234
    else st 0));
   (234, Plain (fun c =>
    switch c
      [(49, st 237); (50, st 239)]
      (if (48 <=? c) && (c <=? 57) then st 235
        else st 0)));
   (235, Plain (fun c =>
    if c =? 93 then st 236
    else st 0));
   (236, Plain (fun c =>
    switch c
      [(32, tr 228); (47, st 205); (58, st 221)]
      (st 0)));
   (237, Plain (fun c =>
    if c =? 93 then st 236
    else if (48 <=? c) && (c <=? 57) then st 238
    else st 0));
   (238, Plain (fun c =>
    if c =? 93 then st 236
    else if (48 <=? c) && (c <=? 57) then st 235
    else st 0))].

(** http_request_parser.cc, lines 6428-6566 *)
Definition request_cases_51 : list (Z * case) :=
  [(239, Plain (fun c =>
    switch c
      [(48, st 240); (53, st 241); (93, st 236)]
      (st 0)));
   (240, Plain (fun c =>
    if (48 <=? c) && (c <=? 57) then st 235
    else st 0));
   (241, Plain (fun c =>
    if c =? 48 then st 235
    else st 0));
   (242, Plain (fun c =>
    if c =? 46 then st 234
    else if (48 <=? c) && (c <=? 57) then st 243
    else st 0));
   (243, Plain (fun c =>
    if c =? 46 then st 234
    else if (48 <=? c) && (c <=? 57) then st 233
    else st 0));
   (244, Plain (fun c =>
    switch c
      [(46, st 234); (48, st 245); (53, st 246)]
      (st 0)));
   (245, Plain (fun c =>
    if (48 <=? c) && (c <=? 57) then st 233
    else st 0));
   (246, Plain (fun c =>
    if c =? 48 then st 233
    else st 0));
   (247, Plain (fun c =>
    if c =? 46 then st 232
    else if (48 <=? c) && (c <=? 57) then st 248
    else st 0));
   (248, Plain (fun c =>
    if c =? 46 then st 232
    else if (48 <=? c) && (c <=? 57) then st 231
    else st 0));
   (249, Plain (fun c =>
    switch c
      [(46, st 232); (48, st 250); (53, st 251)]
      (st 0)));
   (250, Plain (fun c =>
    if (48 <=? c) && (c <=? 57) then st 231
    else st 0));
   (251, Plain (fun c =>
    if c =? 48 then st 231
    else st 0));
   (252, Plain (fun c =>
    if c =? 58 then st 255
    else if c <? 65 then
      if (48 <=? c) && (c <=? 57) then st 253
      else st 0
    else if c >? 70 then
      if (97 <=? c) && (c <=? 102) then st 253
      else st 0
    else st 253))].

(** http_request_parser.cc, lines 6567-6714 *)
Definition request_cases_52 : list (Z * case) :=
  [(253, Plain (fun c =>
    if c =? 58 then st 255
    else if c <? 65 then
      if (48 <=? c) && (c <=? 57) then st 254
      else st 0
    else if c >? 70 then
      if (97 <=? c) && (c <=? 102) then st 254
      else st 0
    else st 254));
   (254, Plain (fun c =>
    if c =? 58 then st 255
    else st 0));
   (255, Plain (fun c =>
    if c <? 65 then
      if (48 <=? c) && (c <=? 57) then st 256
      else st 0
    else if c >? 70 then
      if (97 <=? c) && (c <=? 102) then st 256
      else st 0
    else st 256));
   (256, Plain (fun c =>
    if c =? 93 then st 236
    else if c <? 65 then
      if (48 <=? c) && (c <=? 57) then st 257
      else st 0
    else if c >? 70 then
      if (97 <=? c) && (c <=? 102) then st 257
      else st 0
    else st 257));
   (257, Plain (fun c =>
    if c =? 93 then st 236
    else if c <? 65 then
      if (48 <=? c) && (c <=? 57) then st 258
      else st 0
    else if c >? 70 then
      if (97 <=? c) && (c <=? 102) then st 258
      else st 0
    else st 258));
   (258, Plain (fun c =>
    if c =? 93 then st 236
    else if c <? 65 then
      if (48 <=? c) && (c <=? 57) then st 235
      else st 0
    else if c >? 70 then
      if (97 <=? c) && (c <=? 102) then st 235
      else st 0
    else st 235));
   (259, Plain (fun c =>
    switch c
      [(46, st 230); (58, st 255)]
      (if c <? 65 then
          if (48 <=? c) && (c <=? 57) then st 260
          else st 0
        else if c >? 70 then
          if (97 <=? c) && (c <=? 102) then st 252
          else st 0
        else st 252)));
   (260, Plain (fun c =>
    switch c
      [(46, st 230); (58, st 255)]
      (if c <? 65 then
          if (48 <=? c) && (c <=? 57) then st 261
          else st 0
        else if c >? 70 then
          if (97 <=? c) && (c <=? 102) then st 253
          else st 0
        else st 253)))].

(** http_request_parser.cc, lines 6715-6847 *)
Definition request_cases_53 : list (Z * case) :=
  [(261, Plain (fun c =>
    switch c
      [(46, st 230); (58, st 255)]
      (if c <? 65 then
          if (48 <=? c) && (c <=? 57) then st 254
          else st 0
        else if c >? 70 then
          if (97 <=? c) && (c <=? 102) then st 254
          else st 0
        else st 254)));
   (262, Plain (fun c =>
    switch c
      [(46, st 230); (48, st 263); (53, st 264); (58, st 255)]
      (if c <? 65 then
          if (49 <=? c) && (c <=? 57) then st 252
          else st 0
        else if c >? 70 then
          if (97 <=? c) && (c <=? 102) then st 252
          else st 0
        else st 252)));
   (263, Plain (fun c =>
    if c =? 58 then st 255
    else if c <? 65 then
      if (48 <=? c) && (c <=? 57) then st 261
      else st 0
    else if c >? 70 then
      if (97 <=? c) && (c <=? 102) then st 253
      else st 0
    else st 253));
   (264, Plain (fun c =>
    switch c
      [(48, st 261); (58, st 255)]
      (if c <? 65 then
          if (49 <=? c) && (c <=? 57) then st 253
          else st 0
        else if c >? 70 then
          if (97 <=? c) && (c <=? 102) then st 253
          else st 0
        else st 253)));
   (265, Plain (fun c =>
    if c =? 58 then st 255
    else if c <? 65 then
      if (48 <=? c) && (c <=? 57) then st 252
      else st 0
    else if c >? 70 then
      if (97 <=? c) && (c <=? 102) then st 252
      else st 0
    else st 252));
   (266, Plain (fun c =>
    if c =? 58 then st 270
    else if c <? 65 then
      if (48 <=? c) && (c <=? 57) then st 267
      else st 0
    else if c >? 70 then
      if (97 <=? c) && (c <=? 102) then st 267
      else st 0
    else st 267))].

(** http_request_parser.cc, lines 6848-6994 *)
Definition request_cases_54 : list (Z * case) :=
  [(267, Plain (fun c =>
    if c =? 58 then st 270
    else if c <? 65 then
      if (48 <=? c) && (c <=? 57) then st 268
      else st 0
    else if c >? 70 then
      if (97 <=? c) && (c <=? 102) then st 268
      else st 0
    else st 268));
   (268, Plain (fun c =>
    if c =? 58 then st 270
    else if c <? 65 then
      if (48 <=? c) && (c <=? 57) then st 269
      else st 0
    else if c >? 70 then
      if (97 <=? c) && (c <=? 102) then st 269
      else st 0
    else st 269));
   (269, Plain (fun c =>
    if c =? 58 then st 270
    else st 0));
   (270, Plain (fun c =>
    if c =? 58 then st 341
    else if c <? 65 then
      if (48 <=? c) && (c <=? 57) then st 271
      else st 0
    else if c >? 70 then
      if (97 <=? c) && (c <=? 102) then st 271
      else st 0
    else st 271));
   (271, Plain (fun c =>
    if c =? 58 then st 275
    else if c <? 65 then
      if (48 <=? c) && (c <=? 57) then st 272
      else st 0
    else if c >? 70 then
      if (97 <=? c) && (c <=? 102) then st 272
      else st 0
    else st 272));
   (272, Plain (fun c =>
    if c =? 58 then st 275
    else if c <? 65 then
      if (48 <=? c) && (c <=? 57) then st 273
      else st 0
    else if c >? 70 then
      if (97 <=? c) && (c <=? 102) then st 273
      else st 0
    else st 273));
   (273, Plain (fun c =>
    if c =? 58 then st 275
    else if c <? 65 then
      if (48 <=? c) && (c <=? 57) then st 274
      else st 0
    else if c >? 70 then
      if (97 <=? c) && (c <=? 102) then st 274
      else st 0
    else st 274));
   (274, Plain (fun c =>
    if c =? 58 then st 275
    else st 0));
   (275, Plain (fun c =>
    if c =? 58 then st 340
    else if c <? 65 then
      if (48 <=? c) && (c <=? 57) then st 276
      else st 0
    else if c >? 70 then
      if (97 <=? c) && (c <=? 102) then st 276
      else st 0
    else st 276))].

(** http_request_parser.cc, lines 6995-7141 *)
Definition request_cases_55 : list (Z * case) :=
  [(276, Plain (fun c =>
    if c =? 58 then st 280
    else if c <? 65 then
      if (48 <=? c) && (c <=? 57) then st 277
      else st 0
    else if c >? 70 then
      if (97 <=? c) && (c <=? 102) then st 277
      else st 0
    else st 277));
   (277, Plain (fun c =>
    if c =? 58 then st 280
    else if c <? 65 then
      if (48 <=? c) && (c <=? 57) then st 278
      else st 0
    else if c >? 70 then
      if (97 <=? c) && (c <=? 102) then st 278
      else st 0
    else st 278));
   (278, Plain (fun c =>
    if c =? 58 then st 280
    else if c <? 65 then
      if (48 <=? c) && (c <=? 57) then st 279
      else st 0
    else if c >? 70 then
      if (97 <=? c) && (c <=? 102) then st 279
      else st 0
    else st 279));
   (279, Plain (fun c =>
    if c =? 58 then st 280
    else st 0));
   (280, Plain (fun c =>
    if c =? 58 then st 339
    else if c <? 65 then
      if (48 <=? c) && (c <=? 57) then st 281
      else st 0
    else if c >? 70 then
      if (97 <=? c) && (c <=? 102) then st 281
      else st 0
    else st 281));
   (281, Plain (fun c =>
    if c =? 58 then st 285
    else if c <? 65 then
      if (48 <=? c) && (c <=? 57) then st 282
      else st 0
    else if c >? 70 then
      if (97 <=? c) && (c <=? 102) then st 282
      else st 0
    else st 282));
   (282, Plain (fun c =>
    if c =? 58 then st 285
    else if c <? 65 then
      if (48 <=? c) && (c <=? 57) then st 283
      else st 0
    else if c >? 70 then
      if (97 <=? c) && (c <=? 102) then st 283
      else st 0
    else st 283));
   (283, Plain (fun c =>
    if c =? 58 then st 285
    else if c <? 65 then
      if (48 <=? c) && (c <=? 57) then st 284
      else st 0
    else if c >? 70 then
      if (97 <=? c) && (c <=? 102) then st 284
      else st 0
    else st 284));
   (284, Plain (fun c =>
    if c =? 58 then st 285
    else st 0))].

(** http_request_parser.cc, lines 7142-7281 *)
Definition request_cases_56 : list (Z * case) :=
  [(285, Plain (fun c =>
    if c =? 58 then st 338
    else if c <? 65 then
      if (48 <=? c) && (c <=? 57) then st 286
      else st 0
    else if c >? 70 then
      if (97 <=? c) && (c <=? 102) then st 286
      else st 0
    else st 286));
   (286, Plain (fun c =>
    if c =? 58 then st 290
    else if c <? 65 then
      if (48 <=? c) && (c <=? 57) then st 287
      else st 0
    else if c >? 70 then
      if (97 <=? c) && (c <=? 102) then st 287
      else st 0
    else st 287));
   (287, Plain (fun c =>
    if c =? 58 then st 290
    else if c <? 65 then
      if (48 <=? c) && (c <=? 57) then st 288
      else st 0
    else if c >? 70 then
      if (97 <=? c) && (c <=? 102) then st 288
      else st 0
    else st 288));
   (288, Plain (fun c =>
    if c =? 58 then st 290
    else if c <? 65 then
      if (48 <=? c) && (c <=? 57) then st 289
      else st 0
    else if c >? 70 then
      if (97 <=? c) && (c <=? 102) then st 289
      else st 0
    else st 289));
   (289, Plain (fun c =>
    if c =? 58 then st 290
    else st 0));
   (290, Plain (fun c =>
    if c =? 58 then st 326
    else if c <? 65 then
      if (48 <=? c) && (c <=? 57) then st 291
      else st 0
    else if c >? 70 then
      if (97 <=? c) && (c <=? 102) then st 291
      else st 0
    else st 291));
   (291, Plain (fun c =>
    if c =? 58 then st 295
    else if c <? 65 then
      if (48 <=? c) && (c <=? 57) then st 292
      else st 0
    else if c >? 70 then
      if (97 <=? c) && (c <=? 102) then st 292
      else st 0
    else st 292));
   (292, Plain (fun c =>
    if c =? 58 then st 295
    else if c <? 65 then
      if (48 <=? c) && (c <=? 57) then st 293
      else st 0
    else if c >? 70 then
      if (97 <=? c) && (c <=? 102) then st 293
      else st 0
    else st 293))].

(** http_request_parser.cc, lines 7282-7409 *)
Definition request_cases_57 : list (Z * case) :=
  [(293, Plain (fun c =>
    if c =? 58 then st 295
    else if c <? 65 then
      if (48 <=? c) && (c <=? 57) then st 294
      else st 0
    else if c >? 70 then
      if (97 <=? c) && (c <=? 102) then st 294
      else st 0
    else st 294));
   (294, Plain (fun c =>
    if c =? 58 then st 295
    else st 0));
   (295, Plain (fun c =>
    if c =? 58 then st 325
    else if c <? 65 then
      if (48 <=? c) && (c <=? 57) then st 296
      else st 0
    else if c >? 70 then
      if (97 <=? c) && (c <=? 102) then st 296
      else st 0
    else st 296));
   (296, Plain (fun c =>
    if c =? 58 then st 300
    else if c <? 65 then
      if (48 <=? c) && (c <=? 57) then st 297
      else st 0
    else if c >? 70 then
      if (97 <=? c) && (c <=? 102) then st 297
      else st 0
    else st 297));
   (297, Plain (fun c =>
    if c =? 58 then st 300
    else if c <? 65 then
      if (48 <=? c) && (c <=? 57) then st 298
      else st 0
    else if c >? 70 then
      if (97 <=? c) && (c <=? 102) then st 298
      else st 0
    else st 298));
   (298, Plain (fun c =>
    if c =? 58 then st 300
    else if c <? 65 then
      if (48 <=? c) && (c <=? 57) then st 299
      else st 0
    else if c >? 70 then
      if (97 <=? c) && (c <=? 102) then st 299
      else st 0
    else st 299));
   (299, Plain (fun c =>
    if c =? 58 then st 300
    else st 0));
   (300, Plain (fun c =>
    if c =? 58 then st 301
    else if c <? 65 then
      if (48 <=? c) && (c <=? 57) then st 296
      else st 0
    else if c >? 70 then
      if (97 <=? c) && (c <=? 102) then st 296
      else st 0
    else st 296))].

(** http_request_parser.cc, lines 7410-7550 *)
Definition request_cases_58 : list (Z * case) :=
  [(301, Plain (fun c =>
    switch c
      [(49, st 318); (50, st 321); (93, st 236)]
      (if c <? 48 then
          if (2 <=? c) && (c <=? 3) then st 223
          else st 0
        else if c >? 57 then
          if c >? 70 then
            if (97 <=? c) && (c <=? 102) then st 324
            else st 0
          else if c >=? 65 then st 324
          else st 0
        else st 302)));
   (302, Plain (fun c =>
    switch c
      [(46, st 230); (58, st 306); (93, st 236)]
      (if c <? 65 then
          if (48 <=? c) && (c <=? 57) then st 303
          else st 0
        else if c >? 70 then
          if (97 <=? c) && (c <=? 102) then st 303
          else st 0
        else st 303)));
   (303, Plain (fun c =>
    switch c
      [(58, st 306); (93, st 236)]
      (if c <? 65 then
          if (48 <=? c) && (c <=? 57) then st 304
          else st 0
        else if c >? 70 then
          if (97 <=? c) && (c <=? 102) then st 304
          else st 0
        else st 304)));
   (304, Plain (fun c =>
    switch c
      [(58, st 306); (93, st 236)]
      (if c <? 65 then
          if (48 <=? c) && (c <=? 57) then st 305
          else st 0
        else if c >? 70 then
          if (97 <=? c) && (c <=? 102) then st 305
          else st 0
        else st 305)));
   (305, Plain (fun c =>
    switch c
      [(58, st 306); (93, st 236)]
      (st 0)));
   (306, Plain (fun c =>
    switch c
      [(49, st 311); (50, st 314)]
      (if c <? 65 then
          if (48 <=? c) && (c <=? 57) then st 307
          else st 0
        else if c >? 70 then
          if (97 <=? c) && (c <=? 102) then st 317
          else st 0
        else st 317)))].

(** http_request_parser.cc, lines 7551-7688 *)
Definition request_cases_59 : list (Z * case) :=
  [(307, Plain (fun c =>
    switch c
      [(46, st 230); (58, st 255); (93, st 236)]
      (if c <? 65 then
          if (48 <=? c) && (c <=? 57) then st 308
          else st 0
        else if c >? 70 then
          if (97 <=? c) && (c <=? 102) then st 308
          else st 0
        else st 308)));
   (308, Plain (fun c =>
    switch c
      [(58, st 255); (93, st 236)]
      (if c <? 65 then
          if (48 <=? c) && (c <=? 57) then st 309
          else st 0
        else if c >? 70 then
          if (97 <=? c) && (c <=? 102) then st 309
          else st 0
        else st 309)));
   (309, Plain (fun c =>
    switch c
      [(58, st 255); (93, st 236)]
      (if c <? 65 then
          if (48 <=? c) && (c <=? 57) then st 310
          else st 0
        else if c >? 70 then
          if (97 <=? c) && (c <=? 102) then st 310
          else st 0
        else st 310)));
   (310, Plain (fun c =>
    switch c
      [(58, st 255); (93, st 236)]
      (st 0)));
   (311, Plain (fun c =>
    switch c
      [(46, st 230); (58, st 255); (93, st 236)]
      (if c <? 65 then
          if (48 <=? c) && (c <=? 57) then st 312
          else st 0
        else if c >? 70 then
          if (97 <=? c) && (c <=? 102) then st 308
          else st 0
        else st 308)));
   (312, Plain (fun c =>
    switch c
      [(46, st 230); (58, st 255); (93, st 236)]
      (if c <? 65 then
          if (48 <=? c) && (c <=? 57) then st 313
          else st 0
        else if c >? 70 then
          if (97 <=? c) && (c <=? 102) then st 309
          else st 0
        else st 309)))].

(** http_request_parser.cc, lines 7689-7818 *)
Definition request_cases_60 : list (Z * case) :=
  [(313, Plain (fun c =>
    switch c
      [(46, st 230); (58, st 255); (93, st 236)]
      (if c <? 65 then
          if (48 <=? c) && (c <=? 57) then st 310
          else st 0
        else if c >? 70 then
          if (97 <=? c) && (c <=? 102) then st 310
          else st 0
        else st 310)));
   (314, Plain (fun c =>
    switch c
      [(46, st 230); (48, st 315); (53, st 316); (58, st 255); (93, st 236)]
      (if c <? 65 then
          if (49 <=? c) && (c <=? 57) then st 308
          else st 0
        else if c >? 70 then
          if (97 <=? c) && (c <=? 102) then st 308
          else st 0
        else st 308)));
   (315, Plain (fun c =>
    switch c
      [(58, st 255); (93, st 236)]
      (if c <? 65 then
          if (48 <=? c) && (c <=? 57) then st 313
          else st 0
        else if c >? 70 then
          if (97 <=? c) && (c <=? 102) then st 309
          else st 0
        else st 309)));
   (316, Plain (fun c =>
    switch c
      [(48, st 313); (58, st 255); (93, st 236)]
      (if c <? 65 then
          if (49 <=? c) && (c <=? 57) then st 309
          else st 0
        else if c >? 70 then
          if (97 <=? c) && (c <=? 102) then st 309
          else st 0
        else st 309)));
   (317, Plain (fun c =>
    switch c
      [(58, st 255); (93, st 236)]
      (if c <? 65 then
          if (48 <=? c) && (c <=? 57) then st 308
          else st 0
        else if c >? 70 then
          if (97 <=? c) && (c <=? 102) then st 308
          else st 0
        else st 308)))].

(** http_request_parser.cc, lines 7819-7950 *)
Definition request_cases_61 : list (Z * case) :=
  [(318, Plain (fun c =>
    switch c
      [(46, st 230); (58, st 306); (93, st 236)]
      (if c <? 65 then
          if (48 <=? c) && (c <=? 57) then st 319
          else st 0
        else if c >? 70 then
          if (97 <=? c) && (c <=? 102) then st 303
          else st 0
        else st 303)));
   (319, Plain (fun c =>
    switch c
      [(46, st 230); (58, st 306); (93, st 236)]
      (if c <? 65 then
          if (48 <=? c) && (c <=? 57) then st 320
          else st 0
        else if c >? 70 then
          if (97 <=? c) && (c <=? 102) then st 304
          else st 0
        else st 304)));
   (320, Plain (fun c =>
    switch c
      [(46, st 230); (58, st 306); (93, st 236)]
      (if c <? 65 then
          if (48 <=? c) && (c <=? 57) then st 305
          else st 0
        else if c >? 70 then
          if (97 <=? c) && (c <=? 102) then st 305
          else st 0
        else st 305)));
   (321, Plain (fun c =>
    switch c
      [(46, st 230); (48, st 322); (53, st 323); (58, st 306); (93, st 236)]
      (if c <? 65 then
          if (49 <=? c) && (c <=? 57) then st 303
          else st 0
        else if c >? 70 then
          if (97 <=? c) && (c <=? 102) then st 303
          else st 0
        else st 303)));
   (322, Plain (fun c =>
    switch c
      [(58, st 306); (93, st 236)]
      (if c <? 65 then
          if (48 <=? c) && (c <=? 57) then st 320
          else st 0
        else if c >? 70 then
          if (97 <=? c) && (c <=? 102) then st 304
          else st 0
        else st 304)))].

(** http_request_parser.cc, lines 7951-8082 *)
Definition request_cases_62 : list (Z * case) :=
  [(323, Plain (fun c =>
    switch c
      [(48, st 320); (58, st 306); (93, st 236)]
      (if c <? 65 then
          if (49 <=? c) && (c <=? 57) then st 304
          else st 0
        else if c >? 70 then
          if (97 <=? c) && (c <=? 102) then st 304
          else st 0
        else st 304)));
   (324, Plain (fun c =>
    switch c
      [(58, st 306); (93, st 236)]
      (if c <? 65 then
          if (48 <=? c) && (c <=? 57) then st 303
          else st 0
        else if c >? 70 then
          if (97 <=? c) && (c <=? 102) then st 303
          else st 0
        else st 303)));
   (325, Plain (fun c =>
    switch c
      [(49, st 318); (50, st 321)]
      (if c <? 48 then
          if (2 <=? c) && (c <=? 3) then st 223
          else st 0
        else if c >? 57 then
          if c >? 70 then
            if (97 <=? c) && (c <=? 102) then st 324
            else st 0
          else if c >=? 65 then st 324
          else st 0
        else st 302)));
   (326, Plain (fun c =>
    switch c
      [(49, st 331); (50, st 334)]
      (if c <? 48 then
          if (2 <=? c) && (c <=? 3) then st 223
          else st 0
        else if c >? 57 then
          if c >? 70 then
            if (97 <=? c) && (c <=? 102) then st 337
            else st 0
          else if c >=? 65 then st 337
          else st 0
        else st 327)));
   (327, Plain (fun c =>
    switch c
      [(46, st 230); (58, st 306)]
      (if c <? 65 then
          if (48 <=? c) && (c <=? 57) then st 328
          else st 0
        else if c >? 70 then
          if (97 <=? c) && (c <=? 102) then st 328
          else st 0
        else st 328)))].

(** http_request_parser.cc, lines 8083-8227 *)
Definition request_cases_63 : list (Z * case) :=
  [(328, Plain (fun c =>
    if c =? 58 then st 306
    else if c <? 65 then
      if (48 <=? c) && (c <=? 57) then st 329
      else st 0
    else if c >? 70 then
      if (97 <=? c) && (c <=? 102) then st 329
      else st 0
    else st 329));
   (329, Plain (fun c =>
    if c =? 58 then st 306
    else if c <? 65 then
      if (48 <=? c) && (c <=? 57) then st 330
      else st 0
    else if c >? 70 then
      if (97 <=? c) && (c <=? 102) then st 330
      else st 0
    else st 330));
   (330, Plain (fun c =>
    if c =? 58 then st 306
    else st 0));
   (331, Plain (fun c =>
    switch c
      [(46, st 230); (58, st 306)]
      (if c <? 65 then
          if (48 <=? c) && (c <=? 57) then st 332
          else st 0
        else if c >? 70 then
          if (97 <=? c) && (c <=? 102) then st 328
          else st 0
        else st 328)));
   (332, Plain (fun c =>
    switch c
      [(46, st 230); (58, st 306)]
      (if c <? 65 then
          if (48 <=? c) && (c <=? 57) then st 333
          else st 0
        else if c >? 70 then
          if (97 <=? c) && (c <=? 102) then st 329
          else st 0
        else st 329)));
   (333, Plain (fun c =>
    switch c
      [(46, st 230); (58, st 306)]
      (if c <? 65 then
          if (48 <=? c) && (c <=? 57) then st 330
          else st 0
        else if c >? 70 then
          if (97 <=? c) && (c <=? 102) then st 330
          else st 0
        else st 330)));
   (334, Plain (fun c =>
    switch c
      [(46, st 230); (48, st 335); (53, st 336); (58, st 306)]
      (if c <? 65 then
          if (49 <=? c) && (c <=? 57) then st 328
          else st 0
        else if c >? 70 then
          if (97 <=? c) && (c <=? 102) then st 328
          else st 0
        else st 328)))].

(** http_request_parser.cc, lines 8228-8370 *)
Definition request_cases_64 : list (Z * case) :=
  [(335, Plain (fun c =>
    if c =? 58 then st 306
    else if c <? 65 then
      if (48 <=? c) && (c <=? 57) then st 333
      else st 0
    else if c >? 70 then
      if (97 <=? c) && (c <=? 102) then st 329
      else st 0
    else st 329));
   (336, Plain (fun c =>
    switch c
      [(48, st 333); (58, st 306)]
      (if c <? 65 then
          if (49 <=? c) && (c <=? 57) then st 329
          else st 0
        else if c >? 70 then
          if (97 <=? c) && (c <=? 102) then st 329
          else st 0
        else st 329)));
   (337, Plain (fun c =>
    if c =? 58 then st 306
    else if c <? 65 then
      if (48 <=? c) && (c <=? 57) then st 328
      else st 0
    else if c >? 70 then
      if (97 <=? c) && (c <=? 102) then st 328
      else st 0
    else st 328));
   (338, Plain (fun c =>
    if c <? 48 then
      if (2 <=? c) && (c <=? 3) then st 223
      else st 0
    else if c >? 57 then
      if c >? 70 then
        if (97 <=? c) && (c <=? 102) then st 224
        else st 0
      else if c >=? 65 then st 224
      else st 0
    else st 224));
   (339, Plain (fun c =>
    if (2 <=? c) && (c <=? 3) then st 223
    else st 0));
   (340, Plain (fun c =>
    if c =? 3 then st 223
    else st 0));
   (341, Plain (fun c =>
    if c =? 4 then st 223
    else st 0));
   (342, Plain (fun c =>
    if c =? 58 then st 343
    else st 0));
   (343, Plain (fun c =>
    switch c
      [(49, st 318); (50, st 321); (93, st 236)]
      (if c <? 48 then
          if (2 <=? c) && (c <=? 5) then st 223
          else st 0
        else if c >? 57 then
          if c >? 70 then
            if (97 <=? c) && (c <=? 102) then st 324
            else st 0
          else if c >=? 65 then st 324
          else st 0
        else st 302)))].

(** http_request_parser.cc, lines 8371-8478 *)
Definition request_cases_65 : list (Z * case) :=
  [(344, Plain (fun c =>
    if c <? 65 then
      if (48 <=? c) && (c <=? 57) then st 345
      else st 0
    else if c >? 70 then
      if (97 <=? c) && (c <=? 102) then st 345
      else st 0
    else st 345));
   (345, Plain (fun c =>
    if c =? 46 then st 346
    else if c <? 65 then
      if (48 <=? c) && (c <=? 57) then st 345
      else st 0
    else if c >? 70 then
      if (97 <=? c) && (c <=? 102) then st 345
      else st 0
    else st 345));
   (346, Wide (fun w =>
    switch w
      [(33, st 347); (36, st 347); (61, st 347); (95, st 347);
       (126, st 347); (606, st 347); (635, st 347); (637, st 347)]
      (if w <? 48 then
          if (38 <=? w) && (w <=? 46) then st 347
          else st 0
        else if w >? 59 then
          if w >? 90 then
            if (97 <=? w) && (w <=? 122) then st 347
            else st 0
          else if w >=? 65 then st 347
          else st 0
        else st 347)))].

(** http_request_parser.cc, lines 8479-8552 *)
Definition request_cases_66 : list (Z * case) :=
  [(347, Wide (fun w =>
    switch w
      [(33, st 347); (36, st 347); (61, st 347); (93, st 236);
       (95, st 347); (126, st 347); (606, st 347); (635, st 347);
       (637, st 347)]
      (if w <? 48 then
          if (38 <=? w) && (w <=? 46) then st 347
          else st 0
        else if w >? 59 then
          if w >? 90 then
            if (97 <=? w) && (w <=? 122) then st 347
            else st 0
          else if w >=? 65 then st 347
          else st 0
        else st 347)))].

Definition request_cases : list (Z * case) :=
  concat
    [request_cases_1; request_cases_2; request_cases_3; request_cases_4;
     request_cases_5; request_cases_6; request_cases_7; request_cases_8;
     request_cases_9; request_cases_10; request_cases_11; request_cases_12;
     request_cases_13; request_cases_14; request_cases_15; request_cases_16;
     request_cases_17; request_cases_18; request_cases_19; request_cases_20;
     request_cases_21; request_cases_22; request_cases_23; request_cases_24;
     request_cases_25; request_cases_26; request_cases_27; request_cases_28;
     request_cases_29; request_cases_30; request_cases_31; request_cases_32;
     request_cases_33; request_cases_34; request_cases_35; request_cases_36;
     request_cases_37; request_cases_38; request_cases_39; request_cases_40;
     request_cases_41; request_cases_42; request_cases_43; request_cases_44;
     request_cases_45; request_cases_46; request_cases_47; request_cases_48;
     request_cases_49; request_cases_50; request_cases_51; request_cases_52;
     request_cases_53; request_cases_54; request_cases_55; request_cases_56;
     request_cases_57; request_cases_58; request_cases_59; request_cases_60;
     request_cases_61; request_cases_62; request_cases_63; request_cases_64;
     request_cases_65; request_cases_66].

Definition request_trans : list (Z * (list request_action * Z)) :=
  concat
    [request_trans_1; request_trans_2; request_trans_3; request_trans_4;
     request_trans_5; request_trans_6; request_trans_7; request_trans_8;
     request_trans_9; request_trans_10; request_trans_11; request_trans_36;
     request_trans_39; request_trans_40; request_trans_41].
