(* ===== verification/HttpRequestParser.v ===== *)
(** * The request parser
    (src/qslary/http/http_request_parser.h, http_request_parser.cc,
    HttpParser.h, HttpParser.cc)

    The struct [http_parser], the program that runs the table of
    HttpRequestTable.v over a buffer and calls back what it finds, and
    [HttpRequestParser], whose callbacks store it in a request. *)
From stdpp Require Import base list gmap strings.
From Stdlib Require Import ZArith Ascii String Lia.
From S2P Require Import Prelude CLib Ragel Http HttpCommon HttpRequestTable.
Open Scope Z_scope.

#[export] Instance case_inhabited : Inhabited case := populate (Plain (fun _ => st 0)).

(** ** The struct

    [http_parser_init] does not set [query_start] and [uri_relaxed]: they are
    indeterminate ([None]) until something else does. The function pointers are
    the record [http_callbacks]; [None] is a null pointer. *)
Record http_parser : Set := mkParser {
  cs : Z;
  body_start : Z;
  content_len : Z;                                      (** [int] *)
  nread : Z;
  mark : Z;
  field_start : Z;
  field_len : Z;
  query_start : option Z;
  xml_sent : Z;
  json_sent : Z;
  uri_relaxed : option Z
}.

Definition http_parser_start : Z := 1.
Definition http_parser_first_final : Z := 348.
Definition http_parser_error : Z := 0.

Definition http_parser_init (P : http_parser) : http_parser :=
  mkParser http_parser_start 0 0 0 0 0 0 (query_start P) 0 0 (uri_relaxed P).

Definition http_parser_has_error (P : http_parser) : bool := cs P =? http_parser_error.
Definition http_parser_is_finished (P : http_parser) : bool := http_parser_first_final <=? cs P.
Definition http_parser_finish (P : http_parser) : Z :=
  if http_parser_has_error P then -1
  else if http_parser_is_finished P then 1
  else 0.

Definition set_cs (P : http_parser) (x : Z) : http_parser :=
  mkParser x (body_start P) (content_len P) (nread P) (mark P) (field_start P) (field_len P)
    (query_start P) (xml_sent P) (json_sent P) (uri_relaxed P).
Definition set_body (P : http_parser) (start len : Z) : http_parser :=
  mkParser (cs P) start len (nread P) (mark P) (field_start P) (field_len P)
    (query_start P) (xml_sent P) (json_sent P) (uri_relaxed P).
Definition set_nread (P : http_parser) (x : Z) : http_parser :=
  mkParser (cs P) (body_start P) (content_len P) x (mark P) (field_start P) (field_len P)
    (query_start P) (xml_sent P) (json_sent P) (uri_relaxed P).
Definition set_mark (P : http_parser) (x : Z) : http_parser :=
  mkParser (cs P) (body_start P) (content_len P) (nread P) x (field_start P) (field_len P)
    (query_start P) (xml_sent P) (json_sent P) (uri_relaxed P).
Definition set_field_start (P : http_parser) (x : Z) : http_parser :=
  mkParser (cs P) (body_start P) (content_len P) (nread P) (mark P) x (field_len P)
    (query_start P) (xml_sent P) (json_sent P) (uri_relaxed P).
Definition set_field_len (P : http_parser) (x : Z) : http_parser :=
  mkParser (cs P) (body_start P) (content_len P) (nread P) (mark P) (field_start P) x
    (query_start P) (xml_sent P) (json_sent P) (uri_relaxed P).
Definition set_query_start (P : http_parser) (x : Z) : http_parser :=
  mkParser (cs P) (body_start P) (content_len P) (nread P) (mark P) (field_start P) (field_len P)
    (Some x) (xml_sent P) (json_sent P) (uri_relaxed P).
Definition set_sent (P : http_parser) (xml json : Z) : http_parser :=
  mkParser (cs P) (body_start P) (content_len P) (nread P) (mark P) (field_start P) (field_len P)
    (query_start P) xml json (uri_relaxed P).

(** ** The machine *)
Definition request_case_map : gmap Z case := list_to_map request_cases.
Definition request_trans_map : gmap Z (list request_action * Z) := list_to_map request_trans.

(** Whether a [Wide] case widens the character. *)
Definition widened (c : Z) : bool :=
  if c <? 123 then (94 <=? c) && (c <=? 94)
  else if c >? 123 then (125 <=? c) && (c <=? 125)
  else true.

(** [_widec]: the test of [uri_relaxed] is made only for the characters
    [widened]. *)
Definition widec (relaxed : option Z) (c : Z) : outcome Z :=
  if widened c then
    let! r := deref relaxed in
    Ret (128 + (c - -128) + (if r =? 0 then 0 else 256))
  else Ret c.

(** The label a case jumps to. *)
Definition jump (relaxed : option Z) (k : case) (c : Z) : outcome label :=
  match k with
  | Plain f => Ret (f c)
  | Wide f => let! w := widec relaxed c in Ret (f w)
  end.

Definition follow_request (l : label) : list request_action * Z :=
  match l with
  | st n => ([], n)
  | tr n => default ([], http_parser_error) (request_trans_map !! n)
  end.

(** The actions of the jump out of a state, and the state it leads to. *)
Definition request_goto (relaxed : option Z) (cs c : Z) : outcome (list request_action * Z) :=
  let! l := jump relaxed (request_case_map !!! cs) c in Ret (follow_request l).

(** ** The actions *)
Section execute.
Context {D : Type}.

Record http_callbacks : Type := {
  http_field : field_cb D;
  request_method : element_cb D;
  request_uri : element_cb D;
  fragment : element_cb D;
  request_path : element_cb D;
  query_string : element_cb D;
  http_version : element_cb D;
  header_done : element_cb D
}.
Context (cb : http_callbacks) (buffer : list ascii).

(** The action block [done], up to its jump. *)
Definition request_done (p : Z) (Pd : http_parser * D) : outcome (http_parser * D) :=
  let '(P, d) := Pd in
  if negb (xml_sent P =? 0) || negb (json_sent P =? 0) then
    Ret (set_body P (mark P) (i32 (u64 (p - mark P + 1))), d)
  else
    let! d := match header_done cb with
              | Some f => let! text := at_ buffer (p + 1) in f d text (u64 (size buffer - p - 1))
              | None => Ret d
              end in
    Ret (set_body P (p + 1) (content_len P), d).

Definition run_request_action (a : request_action) (p : Z) (Pd : http_parser * D)
    : outcome (http_parser * D) :=
  let '(P, d) := Pd in
  match a with
  | Mark => Ret (set_mark P p, d)
  | RequestMethod => let! d := element buffer (request_method cb) d (mark P) p in Ret (P, d)
  | RequestUri => let! d := element buffer (request_uri cb) d (mark P) p in Ret (P, d)
  | Fragment => let! d := element buffer (fragment cb) d (mark P) p in Ret (P, d)
  | StartQuery => Ret (set_query_start P p, d)
  | QueryString =>
      match query_string cb with
      | Some _ =>
          let! q := deref (query_start P) in
          let! d := element buffer (query_string cb) d q p in Ret (P, d)
      | None => Ret (P, d)
      end
  | HttpVersion => let! d := element buffer (http_version cb) d (mark P) p in Ret (P, d)
  | RequestPath => let! d := element buffer (request_path cb) d (mark P) p in Ret (P, d)
  | StartField => Ret (set_field_start P p, d)
  | WriteField => Ret (set_field_len P (u64 (p - field_start P)), d)
  | WriteValue =>
      match http_field cb with
      | Some f =>
          let! name := at_ buffer (field_start P) in
          let! value := at_ buffer (mark P) in
          let! d := f d name (field_len P) value (u64 (p - mark P)) in Ret (P, d)
      | None => Ret (P, d)
      end
  | Xml => Ret (set_sent P 1 (json_sent P), d)
  | Json => Ret (set_sent P (xml_sent P) 1, d)
  | Done _ => request_done p Pd
  end.

(** The actions of a jump; a [Done n] among them leaves the program, with [p]
    advanced and [cs = n]. *)
Fixpoint run_request_actions (acts : list request_action) (p : Z) (Pd : http_parser * D)
    : outcome (http_parser * D * option Z) :=
  match acts with
  | [] => Ret (Pd, None)
  | Done n :: _ => let! Pd := request_done p Pd in Ret (Pd, Some n)
  | a :: acts => let! Pd := run_request_action a p Pd in run_request_actions acts p Pd
  end.

(** The program of http_request_parser.cc. *)
Definition exec : list ascii -> Z -> Z -> http_parser * D -> outcome (Z * Z * (http_parser * D)) :=
  program (fun cs => bool_decide (is_Some (request_case_map !! cs)))
    (fun Pd => request_goto (uri_relaxed Pd.1)) run_request_actions.

(** The assertions at the end of [http_parser_execute]. *)
Definition request_asserts (P : http_parser) (p : Z) : outcome unit :=
  let! _ := cassert (p <=? size buffer) in
  let! _ := cassert (nread P <=? size buffer) in
  let! _ := cassert (body_start P <=? size buffer) in
  let! _ := cassert (mark P <? size buffer) in
  let! _ := cassert (field_len P <=? size buffer) in
  cassert (field_start P <? size buffer).

(** [http_parser_execute(parser, buffer, len, off)] of a whole buffer: the
    value returned, the struct and the callbacks' data. *)
Definition http_parser_execute (P : http_parser) (d : D) (off : Z)
    : outcome (Z * http_parser * D) :=
  if size buffer =? 0 then Ret (0, P, d)
  else
    let P := set_field_start (set_field_len (set_mark (set_nread P 0) 0) 0) 0 in
    let! _ := cassert (off <=? size buffer) in
    let! diff := signed 32 (i32 (size buffer) - i32 off) in
    let! _ := cassert (size buffer - off =? diff) in
    let! r := exec (drop (Z.to_nat off) buffer) (cs P) off (P, d) in
    let '(cs, p, (P, d)) := r in
    let P := if http_parser_has_error P then P else set_cs P cs in
    let P := set_nread P (u64 (nread P + (p - off))) in
    let! _ := request_asserts P p in
    Ret (nread P, P, d).
End execute.
Arguments http_callbacks : clear implicits.

(** ** HttpRequestParser

    The callbacks change the members [m_data] and [m_error]. *)
Definition Data : Set := HttpRequest * Z.

(** [CharsToHttpMethod(at)] reads on behind the method, up to a difference. *)
Definition on_request_method (d : Data) (text : list ascii) (_ : Z) : outcome Data :=
  match CharsToHttpMethod (string_of_list_ascii text) with
  | HttpMethod.UNKNOW => Ret (d.1, 1000)
  | m => Ret (setMethod d.1 m, d.2)
  end.
Definition on_request_uri (d : Data) (_ : list ascii) (_ : Z) : outcome Data := Ret d.
Definition on_request_fragment (d : Data) (text : list ascii) (length : Z) : outcome Data :=
  let! s := string_at text length in Ret (setFragment d.1 s, d.2).
Definition on_request_path (d : Data) (text : list ascii) (length : Z) : outcome Data :=
  let! s := string_at text length in Ret (setPath d.1 s, d.2).
Definition on_request_query (d : Data) (text : list ascii) (length : Z) : outcome Data :=
  let! s := string_at text length in Ret (setQuery d.1 s, d.2).

Definition on_request_version (d : Data) (text : list ascii) (length : Z) : outcome Data :=
  match version_at text length with
  | Some v => Ret (setVersion d.1 v, d.2)
  | None => Ret (d.1, 1001)
  end.
Definition on_request_header_done (d : Data) (_ : list ascii) (_ : Z) : outcome Data := Ret d.
Definition on_request_http_field (d : Data) (field : list ascii) (flen : Z)
    (value : list ascii) (vlen : Z) : outcome Data :=
  if flen =? 0 then Ret d
  else
    let! f := string_at field flen in
    let! v := string_at value vlen in
    Ret (setHeaderEntry d.1 f v, d.2).

Definition request_callbacks : http_callbacks Data := {|
  http_field := Some on_request_http_field;
  request_method := Some on_request_method;
  request_uri := Some on_request_uri;
  fragment := Some on_request_fragment;
  request_path := Some on_request_path;
  query_string := Some on_request_query;
  http_version := Some on_request_version;
  header_done := Some on_request_header_done
|}.

Record HttpRequestParser : Set := mkHttpRequestParser {
  m_parser : http_parser;
  m_data : HttpRequest;
  m_error : Z
}.

(** The constructor; [m_parser] is not initialised before [http_parser_init]. *)
Definition new_HttpRequestParser : HttpRequestParser :=
  mkHttpRequestParser (http_parser_init (mkParser 0 0 0 0 0 0 0 None 0 0 None))
    new_HttpRequest 0.

(** [execute(data, len)]: the value returned, the buffer, from whose front the
    characters read are removed, and the object. *)
Definition execute (R : HttpRequestParser) (data : list ascii)
    : outcome (Z * list ascii * HttpRequestParser) :=
  let! r := http_parser_execute request_callbacks data (m_parser R) (m_data R, m_error R) 0 in
  let '(offset, P, (req, err)) := r in
  let n := Z.to_nat offset in
  Ret (offset, drop n data ++ drop (List.length data - n) data, mkHttpRequestParser P req err).

Definition isFinished (R : HttpRequestParser) : Z := http_parser_finish (m_parser R).
Definition hasError (R : HttpRequestParser) : bool :=
  negb (m_error R =? 0) || http_parser_has_error (m_parser R).
Definition getData (R : HttpRequestParser) : HttpRequest := m_data R.
Definition setError (R : HttpRequestParser) (v : Z) : HttpRequestParser :=
  mkHttpRequestParser (m_parser R) (m_data R) v.
Definition getContentLength (lexical_cast : string -> option Z) (R : HttpRequestParser) : Z :=
  (getHeaderEntryAs lexical_cast (m_data R) "content-length" 0).2.

(** ** Examples *)
Example parse_request :
  match execute new_HttpRequestParser (list_ascii_of_string
    ("GET /a/b?x=1#f HTTP/1.1" ++ crlf ++ "Host: example" ++ crlf ++ crlf ++ "body")) with
  | Ret (n, data, R) =>
      (string_of_list_ascii (take 4 data), isFinished R, hasError R) = ("body"%string, 1, false) /\
      (method_ (m_data R), path_ (m_data R), query_ (m_data R), fragment_ (m_data R),
       mVersion (m_data R), headres_ (m_data R)) =
      (HttpMethod.GET, "/a/b", "x=1", "f", 0x11, [("Host", "example")])%string
  | Fault _ => False
  end.
Proof. vm_compute. done. Qed.
Example parse_indeterminate :
  execute new_HttpRequestParser (list_ascii_of_string ("GET /{} HTTP/1.1" ++ crlf ++ crlf)) =
  Fault Undefined.
Proof. vm_compute. done. Qed.
