(* ===== verification/HttpGrammar.v ===== *)
(** * The grammars of the HTTP parsers

    ** Requests

    The language of the requests [http_parser_execute] accepts: an HTTP/1
    request head, or one of two forms of the Mongrel2 protocol the machine comes
    from, a JSON object behind a path and an XML element, both ended by a NUL.
    The expressions follow RFC 7230 and RFC 3986 name by name, in the notation of
    UriGrammar.v; where the machine departs from the RFC, a comment says so.
    [relaxed] is [uri_relaxed]: the characters [^], [{] and [}] in a URI. *)
From stdpp Require Import base list strings.
From Stdlib Require Import ZArith Ascii String.
From S2P Require Import Prelude CLib RegExp UriGrammar.
Open Scope Z_scope.

(** The characters from [lo] on that are not among the given ones, in order. *)
Fixpoint gaps (lo : Z) (cs : list Z) : list (Z * Z) :=
  match cs with
  | [] => [(lo, 127)]
  | c :: cs => if lo <? c then (lo, c - 1) :: gaps (c + 1) cs else gaps (c + 1) cs
  end.
Definition except (cs : list Z) : re := Cls (gaps (-128) cs).

Module Request.
Section grammar.
Context (relaxed : bool).

(** ** The request target *)
Definition unreserved : re :=
  alts [alpha; digit; char_of "-._~"; if relaxed then char_of "^{}" else Emp].
Definition userinfo : re := Star (alts [unreserved; pct_encoded; sub_delims; lit ":"]).

(** Of the two- and three-digit octets only 10 to 19, 100 to 199, 200 to 209 and
    250 are accepted: a range between two quoted characters is read as a
    difference. *)
Definition dec_octet : re :=
  alts [digit; Seq (lit "1") digit; seqs [lit "1"; digit; digit]; Seq (lit "20") digit; lit "250"].
Definition IPv4address : re :=
  seqs [dec_octet; lit "."; dec_octet; lit "."; dec_octet; lit "."; dec_octet].
Definition ls32 : re := Alt (seqs [h16; lit ":"; h16]) IPv4address.

(** [n(h16 ":")] of the RFC is not a repetition: the number is read as the
    character of that code. *)
Definition code_h16 (n : Z) : re := Seq (Cls [(n, n)]) h16_colon.
(** [\[ *n( h16 ":" ) h16 \]]: at least [n] groups instead of at most. *)
Definition groups (n : nat) : re := opt (seqs [times n h16_colon; Star h16_colon; h16]).
Definition IPv6address : re :=
  alts
    [Seq (code_h16 6) ls32;
     seqs [lit "::"; code_h16 5; ls32];
     seqs [opt h16; lit "::"; code_h16 4; ls32];
     seqs [groups 1; lit "::"; code_h16 3; ls32];
     seqs [groups 2; lit "::"; code_h16 2; ls32];
     seqs [groups 3; lit "::"; h16_colon; ls32];
     seqs [groups 4; lit "::"; ls32];
     seqs [groups 5; lit "::"; h16];
     seqs [groups 6; lit "::"]].
Definition IPvFuture : re :=
  seqs [lit "v"; plus xdigit; lit "."; plus (alts [unreserved; sub_delims; lit ":"])].
Definition IP_literal : re := seqs [lit "["; Alt IPv6address IPvFuture; lit "]"].
Definition reg_name : re := Star (alts [unreserved; pct_encoded; sub_delims]).
Definition host : re := alts [IP_literal; IPv4address; reg_name].
Definition authority : re :=
  seqs [opt (Seq userinfo (lit "@")); host; opt (Seq (lit ":") port)].

(** Beyond the RFC, any byte above 127, except in the first segment of a
    relative path. *)
Definition pchar : re :=
  alts [Cls [(-128, -1)]; unreserved; pct_encoded; sub_delims; lit ":"; lit "@"].
Definition pchar_nc : re := alts [unreserved; pct_encoded; sub_delims; lit "@"].
Definition segment : re := Star pchar.
Definition segments : re := Star (Seq (lit "/") segment).
Definition path_abempty : re := Seq (opt (Seq (lit "/") segment)) segments.
Definition path_absolute : re := Seq (lit "/") (opt (Seq (plus pchar) segments)).
Definition path_noscheme : re := Seq (plus pchar_nc) segments.
Definition path_rootless : re := Seq (plus pchar) segments.
Definition query : re := Star (alts [pchar; lit "/"; lit "?"]).
Definition fragment : re := Star (alts [pchar; lit "/"; lit "?"]).
Definition hier_part : re :=
  alts [seqs [lit "//"; authority; path_abempty]; path_absolute; path_rootless; Eps].
Definition relative_part : re :=
  alts [seqs [lit "//"; authority; path_abempty]; path_absolute; path_noscheme; Eps].
Definition query_fragment : re :=
  Seq (opt (Seq (lit "?") query)) (opt (Seq (lit "#") fragment)).
Definition URI_reference : re :=
  Alt (seqs [scheme; lit ":"; hier_part; query_fragment]) (Seq relative_part query_fragment).

(** ** The request line and the header fields

    A line may end in LF alone. *)
Definition eol : re := Seq (opt (Cls [(13, 13)])) (Cls [(10, 10)]).
Definition method_char : re := Cls [(48, 57); (65, 90)].
Definition Method : re := Seq method_char (upto 19 method_char).
Definition HTTP_Version : re := Seq (lit "HTTP/1.") (char_of "01").
Definition Request_Line : re :=
  seqs [Method; lit " "; URI_reference; lit " "; HTTP_Version; eol].

(** The control characters are NUL and DEL alone ([0 - 31] is read as a
    difference too): a field name may hold any other one, line ends included,
    as long as it does not begin with the end of the head. *)
Definition separators : list Z := [34; 40; 41; 44; 47; 58; 59; 60; 61; 62; 63; 64; 91; 92; 93; 123; 125].
Definition token_char (cs : list Z) : re :=
  Cls (gaps 0 (cs ++ separators ++ [127])).
Definition field_name : re :=
  Alt (Seq (token_char [0; 9; 10; 13; 32]) (Star (token_char [0; 9; 32])))
      (Seq (Cls [(13, 13)]) (opt (Seq (token_char [0; 9; 10; 32]) (Star (token_char [0; 9; 32]))))).
Definition field_value : re := Star (except [0; 10; 13; 127]).
Definition message_header : re := seqs [field_name; lit ":"; field_value; eol].
Definition Request : re := seqs [Request_Line; Star message_header; eol].

(** ** The socket forms

    Up to the first [close] that is followed by a NUL. *)
Definition until (close : Z) : re :=
  seqs [Star (except [close]); Cls [(close, close)];
        Star (Alt (Cls [(close, close)])
                  (seqs [except [0; close]; Star (except [close]); Cls [(close, close)]]));
        Cls [(0, 0)]].
Definition SocketJSON : re :=
  seqs [lit "@"; relative_part; lit " "; lit "{"; until 125].
Definition SocketXML : re :=
  seqs [lit "<"; plus (alts [alpha; digit; char_of "-."]);
        Cls [(9, 13); (32, 32); (47, 47); (62, 62)]; until 62].

Definition main : re := alts [Request; SocketXML; SocketJSON].
End grammar.
End Request.

(** ** Responses

    The head of an HTTP/1 response, or the header of a chunk. A line may end in
    LF alone. A version number may have any number of digits; the reason, which
    may not be empty, may begin with CR. *)
Module Response.
Definition eol : re := Seq (opt (Cls [(13, 13)])) (Cls [(10, 10)]).
Definition token : re :=
  plus (Cls (gaps 33 [34; 40; 41; 44; 47; 58; 59; 60; 61; 62; 63; 64; 91; 92; 93; 123; 125; 127])).
Definition caseless (s : string) : re :=
  foldr (fun c r => Seq (Cls (if isalpha c then [(Z.land c 223, Z.land c 223); (Z.lor c 32, Z.lor c 32)]
                              else [(c, c)])) r) Eps (chars s).
Definition space : re := Cls [(9, 13); (32, 32)].

Definition HTTP_Version : re := seqs [lit "HTTP/"; plus digit; lit "."; plus digit].
Definition Reason_Phrase : re := Seq (except [10]) (Star (except [10; 13])).
Definition Status_Line : re :=
  seqs [HTTP_Version; lit " "; plus digit; lit " "; Reason_Phrase; eol].

(** Three fields have a form of their own beside that of any field, in which
    line ends may come between the colon and the value. *)
Definition fields : re := seqs [token; lit ":"; Star (except [10; 13]); eol].
Definition special (name : string) (value : re) : re :=
  seqs [caseless name; lit ":"; Star space; value; eol].
Definition message_header : re :=
  alts [fields; special "content-length" (plus digit); special "connection" (caseless "close");
        special "transfer-encoding" (caseless "chunked")].
Definition Response : re := seqs [Status_Line; Star message_header; eol].

Definition chunk_extension : re := seqs [lit ";"; token; opt (Seq (lit "=") token)].
Definition Chunked_Header : re := seqs [plus xdigit; Star chunk_extension; eol].

Definition main : re := Alt Response Chunked_Header.
End Response.
