(* ===== verification/HttpRequestCheck.v ===== *)
(** * The request machine against its grammar

    The machine of HttpRequestTable.v as an automaton that stops in its final
    states, the certificates that compare it with the grammar of HttpGrammar.v,
    and the language it decides, for both values of [uri_relaxed]. *)
From stdpp Require Import base list gmap strings.
From Stdlib Require Import ZArith Ascii String Lia.
From S2P Require Import Prelude CLib RegExp Ragel HttpRequestTable HttpRequestParser HttpGrammar.
Open Scope Z_scope.

(** ** Character classes of the machine *)
Definition request_classes : list (Z * Z * Z) :=
  [(-128, -1, -128); (0, 0, 0); (1, 1, 1); (2, 2, 2); (3, 3, 3); (4, 4, 4);
   (5, 5, 5); (6, 6, 6); (7, 8, 1); (9, 9, 9); (10, 10, 10); (11, 12, 11);
   (13, 13, 13); (14, 31, 1); (32, 32, 32); (33, 33, 33); (34, 34, 34); (35,
   35, 35); (36, 36, 33); (37, 37, 37); (38, 39, 33); (40, 41, 40); (42, 42,
   33); (43, 43, 43); (44, 44, 40); (45, 45, 45); (46, 46, 46); (47, 47,
   47); (48, 48, 48); (49, 49, 49); (50, 50, 50); (51, 52, 51); (53, 53,
   53); (54, 57, 51); (58, 58, 58); (59, 59, 40); (60, 60, 60); (61, 61,
   40); (62, 62, 62); (63, 63, 63); (64, 64, 64); (65, 70, 65); (71, 71,
   71); (72, 72, 72); (73, 79, 71); (80, 80, 80); (81, 83, 71); (84, 84,
   84); (85, 90, 71); (91, 91, 91); (92, 92, 34); (93, 93, 93); (94, 94,
   94); (95, 95, 95); (96, 96, 1); (97, 102, 97); (103, 117, 103); (118,
   118, 118); (119, 122, 103); (123, 123, 123); (124, 124, 1); (125, 125,
   125); (126, 126, 95); (127, 127, 127)].
Definition request_class : Z -> Z := class_of request_classes.
Definition request_reps : list Z := remove_dups (map snd request_classes).

Definition relaxed_flag (b : bool) : option Z := Some (Z.b2z b).

(** The jump of a case, for both values of the flag. *)
Definition jumps (qk : Z * case) : Z * (Z -> outcome label * outcome label) :=
  (qk.1, fun c => (jump (relaxed_flag false) qk.2 c, jump (relaxed_flag true) qk.2 c)).

Lemma request_classes_ok : classes_respected request_class (map jumps request_cases) = true.
Proof. vm_cast_no_check (eq_refl true). Qed.

Lemma request_goto_class b q c :
  char_range c ->
  request_goto (relaxed_flag b) q c = request_goto (relaxed_flag b) q (request_class c).
Proof.
  intros Hc. unfold request_goto, request_case_map.
  generalize request_classes_ok. generalize request_cases. intros cases H.
  rewrite !lookup_total_alt.
  destruct (list_to_map cases !! q) as [k|] eqn:E; [|done].
  apply elem_of_list_to_map_2 in E. simpl.
  assert (jumps (q, k) ∈ map jumps cases) as Hin.
  { apply list_elem_of_In, in_map, list_elem_of_In, E. }
  pose proof (classes_respected_lookup request_class _ _ _ c H Hin Hc) as Hj.
  injection Hj as Hf Ht. destruct b; unfold relaxed_flag in *; simpl in *;
    [by rewrite Ht | by rewrite Hf].
Qed.

(** ** The automaton *)
Definition request_final (q : Z) : bool := http_parser_first_final <=? q.

Definition request_next (b : bool) (q c : Z) : Z :=
  if request_final q then 0
  else match request_goto (relaxed_flag b) q c with Ret (_, n) => n | Fault _ => 0 end.

(** ** Certificates *)
Definition strict_certificate : certificate :=
  Eval vm_compute in make_certificate 2000 (request_next false) 1 request_reps (Request.main false).
Definition relaxed_certificate : certificate :=
  Eval vm_compute in make_certificate 2000 (request_next true) 1 request_reps (Request.main true).
Definition request_certificate (b : bool) : certificate :=
  if b then relaxed_certificate else strict_certificate.

Lemma request_check b :
  dfa_check (request_next b) request_final request_class (Request.main b) 1
    (request_certificate b) = true.
Proof. destruct b; vm_cast_no_check (eq_refl true). Qed.

Lemma request_language b w :
  Forall char_range w ->
  request_final (fold_left (request_next b) w 1) = true <-> matches (Request.main b) w.
Proof.
  apply (dfa_check_sound _ _ _ _ _ _ (request_check b)).
  intros q ids c _ Hc. unfold request_next. by rewrite (request_goto_class b q c Hc).
Qed.

(** ** Every state leads to a final one *)

Definition request_states : list Z :=
  filter (fun q => request_final q = false) (map fst request_cases).

Definition request_alive : list (Z * Z) :=
  Eval vm_compute in
    alive_rounds 60 (map (fun q => (q, map (fun c => (c, request_next false q c)) request_reps))
                         request_states) request_final ∅.

Definition request_alive_check (b : bool) : bool :=
  match alive_ok (request_next b) request_final ∅ request_alive with
  | Some s => forallb (fun q => bool_decide (q ∈ s)) request_states
  | None => false
  end.

Lemma request_alive_ok b : request_alive_check b = true.
Proof. destruct b; vm_cast_no_check (eq_refl true). Qed.

#[local] Opaque request_states request_alive.

Lemma request_completes b q : q ∈ request_states -> completes (request_next b) request_final q.
Proof.
  pose proof (request_alive_ok b) as H. unfold request_alive_check in H.
  destruct (alive_ok _ _ _ _) as [s|] eqn:E; [|discriminate H].
  exact (alive_completes _ _ _ _ _ _ _ E eq_refl H).
Qed.
