(* ===== verification/HttpRequestRun.v ===== *)
(** * Running the request machine

    What [exec] of HttpRequestParser.v does on the parts of a request in origin
    form: the characters each state goes through, and the callbacks made at the
    ends of the parts. *)
From stdpp Require Import base list gmap strings.
From Stdlib Require Import ZArith Ascii String Lia.
From S2P Require Import Prelude CLib RegExp Ragel Http HttpCommon HttpRequestTable HttpRequestParser.
Open Scope Z_scope.

(** ** Classes of characters *)
(** Characters of a method, of a value. *)
Definition is_method (c : Z) : bool := isdigit c || isupper c.
Definition is_value (c : Z) : bool := negb (one_of [0; 10; 13; 127] c).
(** Characters of a path, of a query or a fragment, escapes apart. *)
Definition is_path (c : Z) : bool :=
  (c <? 0) || isalpha c || isdigit c ||
  one_of [33; 36; 38; 39; 40; 41; 42; 43; 44; 45; 46; 47; 58; 59; 61; 64; 95; 126] c.
Definition is_query (c : Z) : bool := is_path c || (c =? 63).

(** Texts of such characters and escapes ([%] and two hexadecimal digits). *)
Fixpoint escaped (K : Z -> bool) (w : list ascii) : bool :=
  match w with
  | [] => true
  | a :: w' =>
      if K (schar a) then escaped K w'
      else if schar a =? 37 then
        match w' with
        | x :: y :: w'' => is_xdigit (schar x) && is_xdigit (schar y) && escaped K w''
        | _ => false
        end
      else false
  end.

(** ** What the table says, state by state *)

#[export] Instance request_action_eq_dec : EqDecision request_action.
Proof. solve_decision. Defined.

(** In state [q] the characters of [K] lead to [n] with the actions [acts]. *)
Definition enters (q : Z) (K : Z -> bool) (acts : list request_action) (n : Z) : bool :=
  bool_decide (is_Some (request_case_map !! q)) && negb (n =? 0) &&
  forallb (fun c => implb (K c) (bool_decide (request_goto None q c = Ret (acts, n)))) all_chars.

#[local] Opaque request_case_map request_trans_map.

Lemma request_goto_any rx q c x :
  request_goto None q c = Ret x -> request_goto rx q c = Ret x.
Proof.
  unfold request_goto, jump, widec. destruct (request_case_map !!! q); [done|].
  destruct (widened c); [discriminate|done].
Qed.

Lemma enters_goto q K acts n c :
  enters q K acts n = true -> char_range c -> K c = true ->
  is_Some (request_case_map !! q) /\ n <> 0 /\
  forall rx, request_goto rx q c = Ret (acts, n).
Proof.
  unfold enters. intros [[Hq%bool_decide_eq_true Hn%negb_true_iff%Z.eqb_neq]%andb_true_iff H]%andb_true_iff.
  intros Hc HK. split_and!; [exact Hq|exact Hn|]. intros rx. apply request_goto_any.
  rewrite forallb_forall in H. specialize (H c (all_chars_spec c Hc)). rewrite HK in H.
  by apply bool_decide_eq_true in H.
Qed.

(** The texts of the hypotheses and the goal differ in the way they are put
    together only. *)
Ltac same_text := rewrite <- ?app_assoc; cbn [app]; rewrite <- ?app_assoc; cbn [app].
Ltac same_size H :=
  eapply Z.le_lt_trans; [|exact H]; repeat (rewrite length_app || cbn [List.length]); lia.

(** Runs the actions of a jump. *)
Ltac actions :=
  cbn [run_request_actions run_request_action request_path request_uri fragment query_string
       http_version http_field header_done request_callbacks set_mark set_field_start set_field_len
       set_query_start mark field_start field_len query_start deref obind].

(** ** Steps *)
Section run.
Implicit Types (P : http_parser) (d : Data) (pre w rest : list ascii).

(** The program in state [q] behind [pre]. *)
Definition run pre rest (q : Z) (Pd : http_parser * Data) : outcome (Z * Z * (http_parser * Data)) :=
  exec request_callbacks (pre ++ rest) rest q (len pre) Pd.

Lemma run_nil pre q Pd : run pre [] q Pd = Ret (q, len pre, Pd).
Proof. done. Qed.

Lemma run_enter q K acts n pre a rest P d :
  enters q K acts n = true -> K (schar a) = true ->
  run pre (a :: rest) q (P, d) =
  let! r := run_request_actions request_callbacks (pre ++ a :: rest) acts (len pre) (P, d) in
  match r with
  | (Pd, Some n) => Ret (n, len pre + 1, Pd)
  | (Pd, None) => run (pre ++ [a]) rest n Pd
  end.
Proof.
  intros He HK. destruct (enters_goto _ _ _ _ _ He (schar_range a) HK) as (Hs & Hn & Hg).
  unfold run at 1, exec. rewrite (program_step _ _ _ a rest q _ _ acts n) by (by apply bool_decide_true || apply Hg).
  apply Z.eqb_neq in Hn. rewrite Hn. unfold run, exec. rewrite <- app_assoc.
  replace (len (pre ++ [a])) with (len pre + 1) by (rewrite length_app; simpl; lia).
  done.
Qed.

Lemma run_move q K n pre a rest Pd :
  enters q K [] n = true -> K (schar a) = true ->
  run pre (a :: rest) q Pd = run (pre ++ [a]) rest n Pd.
Proof. destruct Pd as [P d]. intros He HK. by rewrite (run_enter _ _ _ _ _ _ _ _ _ He HK). Qed.

Lemma run_loop q K w pre rest Pd :
  enters q K [] q = true -> Forall (fun a => K (schar a) = true) w ->
  run pre (w ++ rest) q Pd = run (pre ++ w) rest q Pd.
Proof.
  intros He Hw. revert pre. induction Hw as [|a w HK Hw IH]; intros pre; simpl.
  - by rewrite app_nil_r.
  - rewrite (run_move _ _ _ _ _ _ _ He HK), IH, <- app_assoc. done.
Qed.

(** The three states a text with escapes goes through. *)
Definition escapes (q q1 q2 : Z) (K : Z -> bool) : bool :=
  enters q K [] q && enters q (Z.eqb 37) [] q1 &&
  enters q1 is_xdigit [] q2 && enters q2 is_xdigit [] q.

Lemma escapes_spec q q1 q2 K :
  escapes q q1 q2 K = true ->
  enters q K [] q = true /\ enters q (Z.eqb 37) [] q1 = true /\
  enters q1 is_xdigit [] q2 = true /\ enters q2 is_xdigit [] q = true.
Proof. unfold escapes. rewrite !andb_true_iff. tauto. Qed.

#[local] Opaque enters escapes.

Lemma run_escaped q q1 q2 K w pre rest Pd :
  escapes q q1 q2 K = true -> escaped K w = true ->
  run pre (w ++ rest) q Pd = run (pre ++ w) rest q Pd.
Proof.
  intros (H0 & H1 & H2 & H3)%escapes_spec. revert w pre.
  assert (forall n w pre, (List.length w < n)%nat -> escaped K w = true ->
    run pre (w ++ rest) q Pd = run (pre ++ w) rest q Pd) as Hn.
  { induction n as [|n IH]; intros w pre Hl Hw; [lia|].
    destruct w as [|a w]; simpl in *; [by rewrite app_nil_r|].
    destruct (K (schar a)) eqn:HK.
    - rewrite (run_move _ _ _ _ _ _ _ H0 HK), IH, <- app_assoc by (assumption || lia). reflexivity.
    - destruct (Z.eqb_spec (schar a) 37) as [E|]; [|done].
      destruct w as [|x [|y w]]; [done|done|]. simpl in *. bool_hyps.
      assert (Z.eqb 37 (schar a) = true) as E' by (rewrite E; reflexivity).
      rewrite (run_move _ _ _ _ _ _ _ H1 E').
      rewrite (run_move _ _ _ _ _ _ _ H2) by assumption.
      rewrite (run_move _ _ _ _ _ _ _ H3) by assumption.
      rewrite IH by (assumption || lia).
      rewrite <- !app_assoc. reflexivity. }
  intros w pre. apply (Hn (S (List.length w))). lia.
Qed.

(** ** Callbacks *)
(** The callback that ignores its argument needs only a mark in the buffer. *)
Lemma element_uri buffer d start p :
  0 <= start <= size buffer -> element buffer (Some on_request_uri) d start p = Ret d.
Proof.
  intros [H1 H2]. unfold element, at_.
  by rewrite (proj2 (Z.leb_le _ _) H1), (proj2 (Z.leb_le _ _) H2).
Qed.

(** ** What the parts of a request leave alone *)
Definition kept P P' : Prop :=
  body_start P' = body_start P /\ content_len P' = content_len P /\ nread P' = nread P /\
  cs P' = cs P /\ xml_sent P' = xml_sent P /\ json_sent P' = json_sent P /\
  uri_relaxed P' = uri_relaxed P.

(** The positions of the struct are in the first [n] characters. *)
Definition marks P (n : Z) : Prop :=
  0 <= mark P <= n /\ 0 <= field_start P <= n /\ 0 <= field_len P <= n.

Definition reaches (r : outcome (Z * Z * (http_parser * Data))) P pre rest (q : Z) d : Prop :=
  exists P', r = run pre rest q (P', d) /\ kept P P' /\ marks P' (len pre).

Lemma kept_trans P P' P'' : kept P P' -> kept P' P'' -> kept P P''.
Proof. unfold kept. intuition congruence. Qed.

Lemma kept_refl P : kept P P.
Proof. by repeat split. Qed.

Lemma reaches_trans r1 r2 P pre pre' rest rest' q q' d d' :
  reaches r1 P pre rest q d ->
  (forall P', kept P P' -> marks P' (len pre) ->
     reaches (run pre rest q (P', d)) P' pre' rest' q' d') ->
  r2 = r1 -> reaches r2 P pre' rest' q' d'.
Proof.
  intros (P1 & -> & Hk & Hm) H ->. destruct (H P1 Hk Hm) as (P2 & E & Hk' & Hm').
  exists P2. split_and!; [exact E|by eapply kept_trans|exact Hm'].
Qed.

(** ** The request line *)

(** The state behind [k] characters of a method. *)
Definition method_state (k : nat) : Z :=
  match k with O => 1 | S O => 2 | _ => 173 + Z.of_nat k end.

Lemma method_states k :
  (0 < k < 20)%nat -> enters (method_state k) is_method [] (method_state (S k)) = true.
Proof.
  intros Hk.
  assert (forallb (fun k => enters (method_state k) is_method [] (method_state (S k)))
            (seq 1 19) = true) as H by (vm_cast_no_check (eq_refl true)).
  rewrite forallb_forall in H. apply H, in_seq. lia.
Qed.

Lemma method_ends k :
  (0 < k <= 20)%nat -> enters (method_state k) (Z.eqb 32) [RequestMethod] 3 = true.
Proof.
  intros Hk.
  assert (forallb (fun k => enters (method_state k) (Z.eqb 32) [RequestMethod] 3)
            (seq 1 20) = true) as H by (vm_cast_no_check (eq_refl true)).
  rewrite forallb_forall in H. apply H, in_seq. lia.
Qed.

Lemma run_method_chars k w pre rest Pd :
  (0 < k)%nat -> (k + List.length w <= 20)%nat -> Forall (fun a => is_method (schar a) = true) w ->
  run pre (w ++ rest) (method_state k) Pd =
  run (pre ++ w) rest (method_state (k + List.length w)) Pd.
Proof.
  intros Hk Hl Hw. revert k pre Hk Hl. induction Hw as [|a w HK Hw IH]; intros k pre Hk Hl; simpl in *.
  - by rewrite app_nil_r, Nat.add_0_r.
  - rewrite (run_move _ _ _ _ _ _ _ (method_states k ltac:(lia)) HK), IH, <- app_assoc by lia.
    by rewrite Nat.add_succ_r.
Qed.

(** [on_request_method] never fails. *)
Definition with_method d (text : list ascii) : Data :=
  match CharsToHttpMethod (string_of_list_ascii text) with
  | HttpMethod.UNKNOW => (d.1, 1000)
  | m => (setMethod d.1 m, d.2)
  end.

Lemma on_request_method_ret d text n : on_request_method d text n = Ret (with_method d text).
Proof. unfold on_request_method, with_method. by destruct (CharsToHttpMethod _). Qed.



Lemma run_method m rest P d :
  (0 < List.length m <= 20)%nat -> Forall (fun a => is_method (schar a) = true) m ->
  len (m ++ blank ++ rest) < 2 ^ 31 -> marks P 0 ->
  reaches (run [] (m ++ blank ++ rest) 1 (P, d)) P (m ++ blank) rest 3
    (with_method d (m ++ blank ++ rest)).
Proof.
  intros Hl Hm Hs HP. destruct m as [|a m]; [simpl in Hl; lia|].
  apply Forall_cons in Hm as [Ha Hm]. change ((a :: m) ++ blank ++ rest) with (a :: m ++ blank ++ rest) at 1.
  rewrite (run_enter 1 is_method [Mark] 2 _ _ _ _ _ ltac:(vm_cast_no_check (eq_refl true)) Ha). simpl run_request_actions.
  cbn [obind]. rewrite (run_method_chars 1 m [a]) by (done || simpl in Hl; lia).
  unfold blank. simpl app.
  rewrite (run_enter _ _ _ _ _ _ _ _ _ (method_ends (1 + List.length m) ltac:(simpl in Hl; lia)))
    by reflexivity.
  cbn [run_request_actions run_request_action request_method request_callbacks set_mark mark].
  rewrite (element_app _ _ [] (a :: m) (" "%char :: rest)) by (simpl in *; lia).
  rewrite on_request_method_ret. cbn [obind]. exists (set_mark P 0).
  split_and!; [reflexivity|by repeat split|].
  destruct HP as (_ & ? & ?). unfold marks. simpl. rewrite length_app. simpl. lia.
Qed.

#[local] Opaque run.

(** Facts of the table, by computation. *)
Ltac by_table := vm_cast_no_check (eq_refl true).

(** [path] is "/" and what follows, which does not begin with another "/". *)
Definition path_ok (w : list ascii) : bool :=
  match w with
  | a :: w' => (schar a =? 47) && escaped is_path w' &&
               match w' with b :: _ => negb (schar b =? 47) | [] => true end
  | [] => false
  end.

Definition path_char (c : Z) : bool := is_path c && negb (c =? 47).

(** Behind a path the machine is in one of two states, which go on alike. *)
Definition path_state (q : Z) : Prop := q = 26 \/ q = 33.

Lemma path_states K acts n q :
  path_state q -> enters 26 K acts n && enters 33 K acts n = true -> enters q K acts n = true.
Proof. by intros [-> | ->] [? ?]%andb_true_iff. Qed.

Lemma at_26 : escapes 26 27 28 is_path = true.
Proof. by_table. Qed.
Lemma at_30 : escapes 30 31 32 is_query = true.
Proof. by_table. Qed.
Lemma at_21 : escapes 21 22 23 is_query = true.
Proof. by_table. Qed.

Lemma run_path w pre rest P d :
  path_ok w = true ->
  exists q, path_state q /\ ((1 < List.length w)%nat -> q = 26) /\
    run pre (w ++ rest) 3 (P, d) = run (pre ++ w) rest q (set_mark P (len pre), d).
Proof.
  destruct w as [|a w]; [done|]. simpl. intros [[Ha Hw]%andb_true_iff Hf]%andb_true_iff.
  rewrite Z.eqb_sym in Ha.
  rewrite (run_enter 3 (Z.eqb 47) [Mark] 33 _ _ _ _ _ ltac:(by_table) Ha).
  cbn [run_request_actions run_request_action obind].
  destruct w as [|b w].
  { exists 33. split_and!; [by right|simpl; lia|reflexivity]. }
  exists 26. split_and!; [by left|done|]. simpl in *.
  destruct (is_path (schar b)) eqn:Hb.
  - rewrite (run_move 33 path_char 26 _ _ _ _ ltac:(by_table)) by (unfold path_char; by rewrite Hb, Hf).
    rewrite (run_escaped _ _ _ _ _ _ _ _ at_26 Hw), <- !app_assoc. cbn [app]. reflexivity.
  - destruct (Z.eqb_spec (schar b) 37) as [E|]; [|done].
    destruct w as [|x [|y w]]; [done|done|]. simpl in Hw.
    apply andb_true_iff in Hw as [[Hx Hy]%andb_true_iff Hw].
    assert (Z.eqb 37 (schar b) = true) as E' by (rewrite E; reflexivity). simpl.
    rewrite (run_move 33 (Z.eqb 37) 27 _ _ _ _ ltac:(by_table) E').
    rewrite (run_move 27 is_xdigit 28 _ _ _ _ ltac:(by_table) Hx).
    rewrite (run_move 28 is_xdigit 26 _ _ _ _ ltac:(by_table) Hy).
    rewrite (run_escaped _ _ _ _ _ _ _ _ at_26 Hw), <- !app_assoc. cbn [app]. reflexivity.
Qed.

(** A query or a fragment: behind its first character, in the loop of its state. *)
Lemma run_tail q0 q q1 q2 acts K w pre rest P d :
  escapes q q1 q2 K = true -> enters q0 K acts q && enters q0 (Z.eqb 37) acts q1 = true ->
  escaped K w = true -> w <> [] -> forallb (fun a => match a with Mark | StartQuery => true | _ => false end) acts = true ->
  exists P', run_request_actions request_callbacks (pre ++ w ++ rest) acts (len pre) (P, d) = Ret (P', d, None) /\
    run pre (w ++ rest) q0 (P, d) = run (pre ++ w) rest q (P', d).
Proof.
  intros Hesc [H0 H1]%andb_true_iff Hw Hne Hacts.
  assert (exists P', run_request_actions request_callbacks (pre ++ w ++ rest) acts (len pre) (P, d) = Ret (P', d, None)) as [P' E].
  { clear -Hacts. revert P. induction acts as [|[] acts IH]; intros P; try done; simpl in *; eauto. }
  exists P'. split; [exact E|]. destruct w as [|a w]; [congruence|]. simpl in Hw, E |- *.
  destruct (K (schar a)) eqn:Ha.
  - rewrite (run_enter _ _ _ _ _ _ _ _ _ H0 Ha), E. cbn [obind].
    rewrite (run_escaped _ _ _ _ _ _ _ _ Hesc Hw), <- app_assoc. cbn [app]. reflexivity.
  - destruct (Z.eqb_spec (schar a) 37) as [E0|]; [|done].
    destruct w as [|x [|y w]]; [done|done|].
    apply andb_true_iff in Hw as [[Hx Hy]%andb_true_iff Hw].
    assert (Z.eqb 37 (schar a) = true) as E' by (rewrite E0; reflexivity). simpl in E |- *.
    rewrite (run_enter _ _ _ _ _ _ _ _ _ H1 E'), E. cbn [obind].
    destruct (escapes_spec _ _ _ _ Hesc) as (_ & _ & H2 & H3).
    rewrite (run_move _ _ _ _ _ _ _ H2 Hx), (run_move _ _ _ _ _ _ _ H3 Hy).
    rewrite (run_escaped _ _ _ _ _ _ _ _ Hesc Hw), <- !app_assoc. cbn [app]. reflexivity.
Qed.

(** ** The end of the target *)

Ltac at_text :=
  rewrite <- ?app_assoc; rewrite element_app by (rewrite ?app_assoc in *; lia); actions.


(** The target's parts are followed by one of these. *)
Definition at_end (t : ascii) (n : Z) : Prop := t = " "%char /\ n = 4 \/ t = "#"%char /\ n = 20.

Lemma marks_weaken P n m : marks P n -> n <= m -> marks P m.
Proof. unfold marks. lia. Qed.

Lemma run_path_end t n w pre rest P d :
  at_end t n \/ t = "?"%char /\ n = 29 ->
  path_ok w = true -> len (pre ++ w ++ t :: rest) < 2 ^ 31 -> marks P (len pre) ->
  reaches (run pre (w ++ t :: rest) 3 (P, d)) P (pre ++ w ++ [t]) rest n
    (setPath d.1 (string_of_list_ascii w), d.2).
Proof.
  intros Ht Hw Hs HP. destruct (run_path w pre (t :: rest) P d Hw) as (q & Hq & _ & ->).
  exists (set_mark P (len pre)). split_and!; [|by repeat split|].
  2: { destruct HP as (_ & ? & ?). unfold marks. simpl. rewrite !length_app. simpl. lia. }
  destruct Ht as [[[-> ->]|[-> ->]]|[-> ->]].
  - rewrite (run_enter _ _ _ _ _ _ _ _ _ (path_states (Z.eqb 32) [RequestPath; RequestUri] 4 q Hq ltac:(by_table)))
      by reflexivity.
    actions. at_text. unfold on_request_path. rewrite string_at_app. actions.
    rewrite element_uri by (unfold size; rewrite length_app; lia). actions. by rewrite <- ?app_assoc.
  - rewrite (run_enter _ _ _ _ _ _ _ _ _ (path_states (Z.eqb 35) [RequestPath; RequestUri] 20 q Hq ltac:(by_table)))
      by reflexivity.
    actions. at_text. unfold on_request_path. rewrite string_at_app. actions.
    rewrite element_uri by (unfold size; rewrite length_app; lia). actions. by rewrite <- ?app_assoc.
  - rewrite (run_enter _ _ _ _ _ _ _ _ _ (path_states (Z.eqb 63) [RequestPath] 29 q Hq ltac:(by_table)))
      by reflexivity.
    actions. at_text. unfold on_request_path. rewrite string_at_app. actions. by rewrite <- ?app_assoc.
Qed.

Lemma run_query_end t n w pre rest P d :
  at_end t n ->
  escaped is_query w = true -> len (pre ++ w ++ t :: rest) < 2 ^ 31 -> marks P (len pre) ->
  reaches (run pre (w ++ t :: rest) 29 (P, d)) P (pre ++ w ++ [t]) rest n
    (setQuery d.1 (string_of_list_ascii w), d.2).
Proof.
  intros Ht Hw Hs HP. exists (set_query_start P (len pre)). split_and!; [|by repeat split|].
  2: { apply (marks_weaken _ (len pre)); [exact HP|]. rewrite !length_app. lia. }
  destruct w as [|a w].
  - assert (element (pre ++ t :: rest) (Some on_request_query) d (len pre) (len pre) =
            Ret (setQuery d.1 "", d.2)) as E.
    { rewrite element_nil by (simpl in *; lia). unfold on_request_query.
      by rewrite string_at_nil. }
    assert (element (pre ++ t :: rest) (Some on_request_uri) (setQuery d.1 "", d.2) (mark P) (len pre) =
            Ret (setQuery d.1 "", d.2)) as E2.
    { apply element_uri. unfold size. rewrite length_app. destruct HP. lia. }
    destruct Ht as [[-> ->]|[-> ->]]; simpl app.
    + rewrite (run_enter 29 (Z.eqb 32) [StartQuery; QueryString; RequestUri] 4) by (by_table || reflexivity).
      actions. rewrite E. actions. by rewrite E2.
    + rewrite (run_enter 29 (Z.eqb 35) [StartQuery; QueryString; RequestUri] 20) by (by_table || reflexivity).
      actions. rewrite E. actions. by rewrite E2.
  - destruct (run_tail 29 30 31 32 [StartQuery] is_query (a :: w) pre (t :: rest) P d)
      as (P' & E & ->); [exact at_30|by_table|exact Hw|discriminate|reflexivity|].
    cbn [run_request_actions run_request_action obind] in E. injection E as <-.
    assert (forall d, element ((pre ++ a :: w) ++ t :: rest) (Some on_request_uri) d (mark P) (len (pre ++ a :: w)) =
            Ret d) as E2.
    { intros d'. apply element_uri. unfold size. rewrite !length_app. destruct HP. lia. }
    destruct Ht as [[-> ->]|[-> ->]].
    + rewrite (run_enter 30 (Z.eqb 32) [QueryString; RequestUri] 4) by (by_table || reflexivity).
      actions. at_text. unfold on_request_query. rewrite string_at_app. actions.
      rewrite app_assoc, E2. actions. by rewrite <- ?app_assoc.
    + rewrite (run_enter 30 (Z.eqb 35) [QueryString; RequestUri] 20) by (by_table || reflexivity).
      actions. at_text. unfold on_request_query. rewrite string_at_app. actions.
      rewrite app_assoc, E2. actions. by rewrite <- ?app_assoc.
Qed.

Lemma run_fragment w pre rest P d :
  escaped is_query w = true -> len (pre ++ w ++ blank ++ rest) < 2 ^ 31 -> marks P (len pre) ->
  reaches (run pre (w ++ blank ++ rest) 20 (P, d)) P (pre ++ w ++ blank) rest 4
    (setFragment d.1 (string_of_list_ascii w), d.2).
Proof.
  intros Hw Hs HP. unfold blank in *. simpl app in *.
  exists (set_mark P (len pre)). split_and!; [|by repeat split|].
  2: { destruct HP as (_ & ? & ?). unfold marks. simpl. rewrite !length_app. simpl. lia. }
  destruct w as [|a w].
  - simpl app. rewrite (run_enter 20 (Z.eqb 32) [Mark; Fragment] 4) by (by_table || reflexivity).
    actions. rewrite element_nil by (simpl in *; lia). unfold on_request_fragment.
    by rewrite string_at_nil.
  - destruct (run_tail 20 21 22 23 [Mark] is_query (a :: w) pre (" "%char :: rest) P d)
      as (P' & E & ->); [exact at_21|by_table|exact Hw|discriminate|reflexivity|].
    cbn [run_request_actions run_request_action obind] in E. injection E as <-.
    rewrite (run_enter 21 (Z.eqb 32) [Fragment] 4) by (by_table || reflexivity).
    actions. at_text. unfold on_request_fragment. rewrite string_at_app. actions. by rewrite <- ?app_assoc.
Qed.

(** ** The version *)
Lemma on_request_version_text v d rest :
  on_request_version d (version_text v ++ rest) 8 = Ret (setVersion d.1 (version_byte v), d.2).
Proof. unfold on_request_version. by rewrite version_at_text. Qed.

(** The character [a] at the front leads to [n]. *)
Ltac move_to c n := rewrite (run_move _ (Z.eqb c) n) by (by_table || reflexivity).

Lemma run_version v pre rest P d :
  len (pre ++ version_text v ++ eol ++ rest) < 2 ^ 31 -> marks P (len pre) ->
  reaches (run pre (version_text v ++ eol ++ rest) 4 (P, d)) P (pre ++ version_text v ++ eol) rest 13
    (setVersion d.1 (version_byte v), d.2).
Proof.
  intros Hs HP. exists (set_mark P (len pre)). split_and!; [|by repeat split|].
  2: { destruct HP as (_ & ? & ?). unfold marks. simpl. rewrite !length_app. simpl. lia. }
  unfold version_text, eol. simpl app.
  rewrite (run_enter 4 (Z.eqb 72) [Mark] 5) by (by_table || reflexivity). actions.
  move_to 84 6. move_to 84 7. move_to 80 8. move_to 47 9. move_to 49 10. move_to 46 11.
  assert ((fun c => (c =? 48) || (c =? 49)) (schar (if v then "1" else "0")%char) = true) as Hv
    by (destruct v; reflexivity).
  rewrite (run_move 11 _ 12 _ _ _ _ ltac:(by_table) Hv).
  rewrite <- !app_assoc. simpl app.
  change (["H"; "T"; "T"; "P"; "/"; "1"; "."; if v then "1" else "0"]%char) with (version_text v).
  rewrite (run_enter 12 (Z.eqb 13) [HttpVersion] 17) by (by_table || reflexivity). actions.
  rewrite <- ?app_assoc. rewrite element_app by (eapply Z.lt_trans; [exact Hs|lia]).
  change (len (version_text v)) with 8. rewrite on_request_version_text. actions.
  move_to 10 13. rewrite <- !app_assoc. reflexivity.
Qed.

(** ** The header fields *)

(** A field: its name, the blanks before its value, and the value, which begins
    with none. *)
Definition field_ok (f : field) : bool :=
  negb (bool_decide (f_name f = [])) && forallb (fun a => is_token (schar a)) (f_name f) &&
  forallb (fun a => is_blank (schar a)) (f_blanks f) &&
  forallb (fun a => is_value (schar a)) (f_value f) &&
  match f_value f with a :: _ => negb (is_blank (schar a)) | [] => true end.

Definition with_field d (f : field) : Data :=
  (setHeaderEntry d.1 (string_of_list_ascii (f_name f)) (string_of_list_ascii (f_value f)), d.2).

Lemma run_name w pre rest P d :
  w <> [] -> forallb (fun a => is_token (schar a)) w = true ->
  len (pre ++ w ++ ":"%char :: rest) < 2 ^ 31 ->
  run pre (w ++ ":"%char :: rest) 13 (P, d) =
  run (pre ++ w ++ [":"%char]) rest 15 (set_field_len (set_field_start P (len pre)) (len w), d).
Proof.
  intros Hne Hw Hs. destruct w as [|a w]; [congruence|]. simpl in Hw.
  apply andb_true_iff in Hw as [Ha Hw]. simpl app.
  rewrite (run_enter 13 is_token [StartField] 14 _ _ _ _ _ ltac:(by_table) Ha). actions.
  rewrite (run_loop 14 is_token w) by
    ((by apply forallb_Forall) || by_table).
  rewrite (run_enter 14 (Z.eqb 58) [WriteField] 15) by (by_table || reflexivity). actions.
  rewrite <- !app_assoc. simpl app. do 4 f_equal.
  rewrite !length_app in *. simpl in *. rewrite wrapu_small by lia. lia.
Qed.

Lemma run_blanks b pre rest P d :
  forallb (fun a => is_blank (schar a)) b = true ->
  exists m, run pre (b ++ rest) 15 (P, d) = run (pre ++ b) rest 15 (set_mark P m, d).
Proof.
  intros Hb%forallb_Forall. revert pre P. induction Hb as [|a b Ha Hb IH]; intros pre P.
  - exists (mark P). rewrite app_nil_r. by destruct P.
  - simpl app. rewrite (run_enter 15 is_blank [Mark] 15 _ _ _ _ _ ltac:(by_table) Ha). actions.
    destruct (IH (pre ++ [a]) (set_mark P (len pre))) as (m & ->). exists m.
    by rewrite <- app_assoc.
Qed.

(** The callback of a field whose name and value are in the buffer. *)
Lemma write_value P d a name b v rest :
  name <> [] -> len (a ++ name ++ b ++ v ++ rest) < 2 ^ 31 ->
  field_start P = len a -> field_len P = len name -> mark P = len (a ++ name ++ b) ->
  run_request_action request_callbacks (a ++ name ++ b ++ v ++ rest) WriteValue
    (len (a ++ name ++ b ++ v)) (P, d) =
  Ret (P, (setHeaderEntry d.1 (string_of_list_ascii name) (string_of_list_ascii v), d.2)).
Proof.
  intros Hne Hs Hf Hl Hm. actions. rewrite Hf, Hl, Hm, at_app. actions.
  replace (a ++ name ++ b ++ v ++ rest) with ((a ++ name ++ b) ++ v ++ rest) by (by rewrite <- !app_assoc).
  rewrite at_app. actions. unfold on_request_http_field.
  destruct (Z.eqb_spec (len name) 0) as [E|_]; [destruct name; [congruence|simpl in E; lia]|].
  replace (u64 _) with (len v).
  2: { rewrite !length_app in *. rewrite wrapu_small by lia. lia. }
  by rewrite !string_at_app.
Qed.

Lemma run_value v pre rest P d a name b :
  pre = a ++ name ++ b -> name <> [] -> field_start P = len a -> field_len P = len name ->
  forallb (fun a => is_value (schar a)) v = true ->
  match v with x :: _ => is_blank (schar x) = false | [] => True end ->
  len (pre ++ v ++ eol ++ rest) < 2 ^ 31 ->
  run pre (v ++ eol ++ rest) 15 (P, d) =
  run (pre ++ v ++ eol) rest 13 (set_mark P (len pre),
    (setHeaderEntry d.1 (string_of_list_ascii name) (string_of_list_ascii v), d.2)).
Proof.
  intros -> Hne Hf Hl Hv Hx Hs. rewrite <- !app_assoc in *.
  pose proof (fun rest' => write_value (set_mark P (len (a ++ name ++ b))) d a name b v rest' Hne) as Hw.
  unfold eol in *. destruct v as [|x v].
  - specialize (Hw ("013" :: "010" :: rest)%char Hs Hf Hl eq_refl).
    simpl app in *. rewrite app_nil_r in *.
    rewrite (run_enter 15 (Z.eqb 13) [Mark; WriteValue] 17) by (by_table || reflexivity).
    cbn [run_request_actions]. rewrite <- !app_assoc.
    change (run_request_action ?cb ?buf Mark ?p (P, d)) with (Ret (set_mark P p, d)). cbn [obind].
    rewrite Hw. cbn [obind]. move_to 10 13. by rewrite <- !app_assoc.
  - simpl in Hv. apply andb_true_iff in Hv as [Hv Hvs%forallb_Forall].
    specialize (Hw ("013" :: "010" :: rest)%char Hs Hf Hl eq_refl). simpl app in *.
    assert ((fun c => is_value c && negb (is_blank c)) (schar x) = true) as Hxv by (by rewrite Hv, Hx).
    rewrite (run_enter 15 _ [Mark] 16 _ _ _ _ _ ltac:(by_table) Hxv). actions.
    rewrite (run_loop 16 is_value v) by (exact Hvs || by_table).
    rewrite (run_enter 16 (Z.eqb 13) [WriteValue] 17) by (by_table || reflexivity).
    cbn [run_request_actions]. rewrite <- !app_assoc in *. simpl app in *.
    rewrite Hw. cbn [obind]. move_to 10 13. rewrite <- !app_assoc. cbn [app]. by rewrite <- !app_assoc.
Qed.

Lemma run_field f pre rest P d :
  field_ok f = true -> len (pre ++ field_text f ++ rest) < 2 ^ 31 ->
  reaches (run pre (field_text f ++ rest) 13 (P, d)) P (pre ++ field_text f) rest 13 (with_field d f).
Proof.
  destruct f as [name b v]. unfold field_ok, field_text, with_field. simpl.
  intros [[[[Hne%negb_true_iff%bool_decide_eq_false Hn]%andb_true_iff Hb]%andb_true_iff Hv]%andb_true_iff Hx]%andb_true_iff.
  rewrite <- !app_assoc. simpl app. rewrite <- !app_assoc. intros Hs.
  rewrite (run_name name pre _ P d Hne Hn) by exact Hs.
  destruct (run_blanks b (pre ++ name ++ [":"%char]) (v ++ eol ++ rest)
    (set_field_len (set_field_start P (len pre)) (len name)) d Hb) as (m & ->).
  rewrite (run_value v _ rest _ d pre name (":"%char :: b)); try done.
  2: by rewrite <- !app_assoc.
  2: { destruct v; [done|]. by apply negb_true_iff in Hx. }
  2: { rewrite <- !app_assoc. exact Hs. }
  rewrite <- !app_assoc. simpl app.
  eexists. split_and!; [reflexivity|by repeat split|].
  unfold marks. simpl. rewrite !length_app in *. simpl in *. rewrite !length_app in *. lia.
Qed.

Fixpoint fields_text (fs : list field) : list ascii :=
  match fs with [] => [] | f :: fs => field_text f ++ fields_text fs end.

Lemma run_fields fs pre rest P d :
  forallb field_ok fs = true -> len (pre ++ fields_text fs ++ rest) < 2 ^ 31 -> marks P (len pre) ->
  reaches (run pre (fields_text fs ++ rest) 13 (P, d)) P (pre ++ fields_text fs) rest 13
    (fold_left with_field fs d).
Proof.
  revert pre P d. induction fs as [|f fs IH]; intros pre P d; simpl.
  - intros _ _ HP. rewrite app_nil_r. exists P. split_and!; [done|apply kept_refl|done].
  - intros [Hf Hfs]%andb_true_iff. rewrite <- app_assoc. intros Hs HP.
    eapply reaches_trans; [apply (run_field f pre _ P d Hf Hs)| |reflexivity].
    intros P' _ HP'. rewrite (app_assoc pre (field_text f) (fields_text fs)).
    apply IH; [done| |done]. by rewrite <- app_assoc.
Qed.

(** ** A target cut short, and what follows it in another buffer *)
Lemma run_path_rest w rest P d :
  escaped is_path w = true -> len (w ++ blank ++ rest) < 2 ^ 31 -> mark P = 0 -> marks P 0 ->
  reaches (run [] (w ++ blank ++ rest) 26 (P, d)) P (w ++ blank) rest 4
    (setPath d.1 (string_of_list_ascii w), d.2).
Proof.
  intros Hw Hs Hm HP. unfold blank in *. simpl app in *.
  rewrite (run_escaped _ _ _ _ _ _ _ _ at_26 Hw).
  exists P. split_and!; [|apply kept_refl|by apply (marks_weaken _ 0); [|lia]].
  rewrite (run_enter 26 (Z.eqb 32) [RequestPath; RequestUri] 4) by (by_table || reflexivity).
  actions. rewrite Hm. simpl app.
  assert (element (w ++ " "%char :: rest) (Some on_request_path) d 0 (len w) =
          on_request_path d (w ++ " "%char :: rest) (len w)) as ->.
  { apply (element_app on_request_path d [] w). simpl in *. lia. }
  unfold on_request_path. rewrite string_at_app. actions.
  rewrite element_uri by (unfold size; lia). by actions.
Qed.

Lemma run_query_rest w rest P d k :
  escaped is_query w = true -> len (w ++ blank ++ rest) < 2 ^ 31 ->
  query_start P = Some k -> len w < k < 2 ^ 31 ->
  run [] (w ++ blank ++ rest) 30 (P, d) = Fault Undefined.
Proof.
  intros Hw Hs Hq Hk. unfold blank in *. simpl app in *.
  rewrite (run_escaped _ _ _ _ _ _ _ _ at_30 Hw).
  rewrite (run_enter 30 (Z.eqb 32) [QueryString; RequestUri] 4) by (by_table || reflexivity).
  cbn [run_request_actions run_request_action query_string request_callbacks]. rewrite Hq. actions.
  unfold element, at_. destruct (_ && _); [|done]. actions. unfold on_request_query, string_at.
  rewrite (proj2 (Z.leb_gt _ _)); [done|]. simpl app. rewrite length_drop.
  rewrite length_app in *. simpl in *.
  replace (u64 (len w - k)) with (len w - k + 2 ^ 64); [lia|].
  unfold wrapu. apply Z.mod_unique_pos with (q := -1); lia.
Qed.

(** ** The end of the head *)
Lemma run_end pre rest P d :
  xml_sent P = 0 -> json_sent P = 0 ->
  run pre (eol ++ rest) 13 (P, d) =
  Ret (348, len pre + 2, (set_body (set_field_start P (len pre)) (len pre + 2) (content_len P), d)).
Proof.
  intros Hx Hj. unfold eol. simpl app.
  rewrite (run_enter 13 (Z.eqb 13) [StartField] 18) by (by_table || reflexivity). actions.
  rewrite (run_enter 18 (Z.eqb 10) [Done 348] 348) by (by_table || reflexivity).
  cbn [run_request_actions]. unfold request_done. cbn [set_field_start xml_sent json_sent].
  rewrite Hx, Hj. simpl negb. cbn [orb header_done request_callbacks].
  rewrite <- app_assoc. simpl app.
  replace (len (pre ++ ["013"%char]) + 1) with (len (pre ++ ["013"; "010"]%char))
    by (rewrite !length_app; simpl; lia).
  replace (pre ++ "013" :: "010" :: rest)%char with ((pre ++ ["013"; "010"]%char) ++ rest)
    by (by rewrite <- app_assoc).
  rewrite at_app. cbn [obind on_request_header_done].
  replace (len (pre ++ ["013"; "010"]%char)) with (len pre + 2) by (rewrite length_app; simpl; lia).
  reflexivity.
Qed.

(** ** Requests in origin form *)
Record request : Set := mkRequestText {
  r_method : list ascii;
  r_path : list ascii;
  r_query : option (list ascii);
  r_fragment : option (list ascii);
  r_version : bool;                           (** HTTP/1.1 or HTTP/1.0 *)
  r_fields : list field
}.

Definition request_ok (r : request) : bool :=
  (1 <=? len (r_method r)) && (len (r_method r) <=? 20) &&
  forallb (fun a => is_method (schar a)) (r_method r) &&
  path_ok (r_path r) &&
  from_option (escaped is_query) true (r_query r) &&
  from_option (escaped is_query) true (r_fragment r) &&
  forallb field_ok (r_fields r).

Definition query_text (q : option (list ascii)) : list ascii :=
  match q with Some w => "?"%char :: w | None => [] end.
Definition fragment_text (q : option (list ascii)) : list ascii :=
  match q with Some w => "#"%char :: w | None => [] end.

Definition request_text (r : request) : list ascii :=
  r_method r ++ blank ++ r_path r ++ query_text (r_query r) ++ fragment_text (r_fragment r) ++ blank ++
  version_text (r_version r) ++ eol ++ fields_text (r_fields r) ++ eol.

(** What the callbacks make of the target. *)
Definition with_fragment d (g : option (list ascii)) : Data :=
  match g with Some w => (setFragment d.1 (string_of_list_ascii w), d.2) | None => d end.
Definition with_query d (q : option (list ascii)) : Data :=
  match q with Some w => (setQuery d.1 (string_of_list_ascii w), d.2) | None => d end.
Definition with_target d (r : request) : Data :=
  with_fragment (with_query (setPath d.1 (string_of_list_ascii (r_path r)), d.2) (r_query r))
    (r_fragment r).

(** The fragment and the blank: their first character, and what is left. *)
Definition last_char (g : option (list ascii)) : ascii :=
  match g with Some _ => "#" | None => " " end%char.
Definition last_state (g : option (list ascii)) : Z := match g with Some _ => 20 | None => 4 end.
Definition last_rest (g : option (list ascii)) : list ascii :=
  match g with Some w => w ++ blank | None => [] end.

Lemma at_end_last g : at_end (last_char g) (last_state g).
Proof. destruct g; [by right|by left]. Qed.

Lemma fragment_text_last g rest :
  fragment_text g ++ blank ++ rest = last_char g :: last_rest g ++ rest.
Proof. destruct g; simpl; [by rewrite <- app_assoc|done]. Qed.

Lemma run_last g pre rest P d :
  from_option (escaped is_query) true g = true ->
  len (pre ++ last_rest g ++ rest) < 2 ^ 31 -> marks P (len pre) ->
  reaches (run pre (last_rest g ++ rest) (last_state g) (P, d)) P (pre ++ last_rest g) rest 4
    (with_fragment d g).
Proof.
  destruct g as [w|]; simpl; intros Hw Hs HP.
  - rewrite <- app_assoc in *. by apply run_fragment.
  - rewrite app_nil_r. exists P. split_and!; [done|apply kept_refl|done].
Qed.

Lemma run_target r pre rest P d :
  path_ok (r_path r) = true -> from_option (escaped is_query) true (r_query r) = true ->
  from_option (escaped is_query) true (r_fragment r) = true ->
  len (pre ++ r_path r ++ query_text (r_query r) ++ last_char (r_fragment r) :: last_rest (r_fragment r) ++ rest)
    < 2 ^ 31 -> marks P (len pre) ->
  reaches
    (run pre (r_path r ++ query_text (r_query r) ++ last_char (r_fragment r) :: last_rest (r_fragment r) ++ rest)
       3 (P, d)) P
    (pre ++ r_path r ++ query_text (r_query r) ++ last_char (r_fragment r) :: last_rest (r_fragment r)) rest 4
    (with_target d r).
Proof.
  destruct r as [m path q g v fs]. unfold with_target. simpl. intros Hp Hq Hg Hs HP.
  destruct q as [q|]; simpl in *.
  - eapply reaches_trans; [apply (run_path_end "?" 29); [by right|done|done|done]| |reflexivity].
    intros P1 _ H1.
    eapply reaches_trans; [apply (run_query_end (last_char g) (last_state g)); [apply at_end_last|done| |done]
      | |reflexivity]. { same_size Hs. }
    intros P2 _ H2. unfold with_query. cbn [fst snd].
    replace (pre ++ path ++ "?"%char :: q ++ last_char g :: last_rest g)
      with (((pre ++ path ++ ["?"%char]) ++ q ++ [last_char g]) ++ last_rest g) by (by same_text).
    apply run_last; [done| |done]. same_size Hs.
  - eapply reaches_trans; [apply (run_path_end (last_char g) (last_state g));
      [left; apply at_end_last|done|done|done]| |reflexivity].
    intros P1 _ H1. unfold with_query. cbn [fst snd].
    replace (pre ++ path ++ last_char g :: last_rest g)
      with ((pre ++ path ++ [last_char g]) ++ last_rest g) by (by same_text).
    apply run_last; [done| |done]. same_size Hs.
Qed.

(** The request object and the error a request leaves. *)
Definition stored (r : request) : Data :=
  fold_left with_field (r_fields r)
    (let d := with_target (with_method (new_HttpRequest, 0) (r_method r)) r in
     (setVersion d.1 (version_byte (r_version r)), d.2)).
End run.
