(* ===== verification/HttpRequestCorrect.v ===== *)
(** * Correctness of the request parser

    What [HttpRequestParser] makes of a request in origin form, of one that
    arrives in two reads, and of a target with a character whose treatment
    depends on the indeterminate [uri_relaxed]. *)
From stdpp Require Import base list gmap strings.
From Stdlib Require Import ZArith Ascii String Lia.
From S2P Require Import Prelude CLib RegExp Ragel Http HttpCommon HttpCorrect HttpRequestTable.
From S2P Require Import HttpRequestParser HttpRequestRun.
Open Scope Z_scope.

(** ** Methods *)
Lemma c_str_method m rest :
  forallb (fun a => is_method (schar a)) m = true ->
  c_str (string_of_list_ascii (m ++ rest)) =
  (string_of_list_ascii m ++ c_str (string_of_list_ascii rest))%string.
Proof.
  induction m as [|a m IH]; simpl; [done|]. intros [Ha Hm]%andb_true_iff.
  destruct (Z.eqb_spec (uchar a) 0) as [E|_]; [|by rewrite IH].
  exfalso. revert Ha. unfold schar. rewrite E. done.
Qed.

(** A prefix without blanks of a text is one of its first word. *)
Lemma is_prefix_word p m rest :
  existsb (fun c => c =? 32) (chars p) = false ->
  is_prefix p (m ++ String " " rest) = is_prefix p m.
Proof.
  revert m. induction p as [|a p IH]; intros m Hp; [by destruct m|]. simpl in Hp.
  apply orb_false_iff in Hp as [Ha Hp]. destruct m as [|b m]; simpl; [|by rewrite IH].
  rewrite bool_decide_eq_false_2; [done|]. intros ->. done.
Qed.

Lemma method_names_words :
  forallb (fun e => bool_decide (c_str (snd e) = snd e) &&
                    negb (existsb (fun c => c =? 32) (chars (snd e)))) HTTP_METHOD_MAP = true.
Proof. vm_compute. reflexivity. Qed.

(** What follows the method in the text makes no difference. *)
Lemma with_method_text d m rest :
  forallb (fun a => is_method (schar a)) m = true ->
  with_method d (m ++ blank ++ rest) = with_method d m.
Proof.
  intros Hm. unfold with_method.
  assert (CharsToHttpMethod (string_of_list_ascii (m ++ blank ++ rest)) =
          CharsToHttpMethod (string_of_list_ascii m)) as ->; [|done].
  assert (c_str (string_of_list_ascii (m ++ blank ++ rest)) =
    (string_of_list_ascii m ++ String " " (c_str (string_of_list_ascii rest)))%string) as E1
    by (by rewrite c_str_method).
  assert (c_str (string_of_list_ascii m) = string_of_list_ascii m) as E2.
  { rewrite <- (app_nil_r m) at 1. rewrite c_str_method by done. simpl.
    generalize (string_of_list_ascii m). intros t. induction t as [|a t IH]; [done|].
    change (String a (t ++ "") = String a t)%string. by rewrite IH. }
  pose proof method_names_words as Hn. unfold CharsToHttpMethod. revert Hn.
  generalize HTTP_METHOD_MAP. intros l. induction l as [|[[n k] name] l IH]; [done|].
  cbn [forallb find_method snd fst].
  intros [[Hc%bool_decide_eq_true Hb%negb_true_iff]%andb_true_iff Hl]%andb_true_iff.
  rewrite !strncmp_prefix, E1, E2, is_prefix_word, IH by done. done.
Qed.

(** ** A whole request *)
#[local] Opaque exec request_case_map run.

Lemma request_text_parts r body :
  request_text r ++ body =
  r_method r ++ blank ++ (r_path r ++ query_text (r_query r) ++
    last_char (r_fragment r) :: last_rest (r_fragment r) ++
    (version_text (r_version r) ++ eol ++ fields_text (r_fields r) ++ eol ++ body)).
Proof.
  unfold request_text. rewrite <- !app_assoc. rewrite fragment_text_last. by rewrite <- ?app_assoc.
Qed.

Lemma run_request r body P d :
  request_ok r = true -> len (request_text r ++ body) < 2 ^ 31 -> marks P 0 ->
  xml_sent P = 0 -> json_sent P = 0 ->
  exists P', kept (set_body P (len (request_text r)) (content_len P)) P' /\
    marks P' (len (request_text r) - 1) /\
    run [] (request_text r ++ body) 1 (P, d) =
    Ret (348, len (request_text r), (P',
      fold_left with_field (r_fields r)
        (let d := with_target (with_method d (r_method r)) r in
         (setVersion d.1 (version_byte (r_version r)), d.2)))).
Proof.
  destruct r as [m path q g v fs]. unfold request_ok. simpl.
  intros [[[[[[Hm1%Z.leb_le Hm2%Z.leb_le]%andb_true_iff Hm]%andb_true_iff Hp]%andb_true_iff
    Hq]%andb_true_iff Hg]%andb_true_iff Hf]%andb_true_iff Hs HP Hx Hj.
  set (r := mkRequestText m path q g v fs) in *.
  set (tail := version_text v ++ eol ++ fields_text fs ++ eol ++ body) in *.
  set (target := path ++ query_text q ++ last_char g :: last_rest g ++ tail) in *.
  pose proof (request_text_parts r body) as Et. change (request_text r ++ body = m ++ blank ++ target) in Et.
  rewrite Et in Hs |- *.
  set (d1 := with_target (with_method d m) r).
  set (pre := m ++ blank ++ path ++ query_text q ++ last_char g :: last_rest g).
  assert (forall rest, (m ++ blank) ++ path ++ query_text q ++ last_char g :: last_rest g ++ rest =
                       pre ++ rest) as Hpre.
  { intros rest. unfold pre. rewrite <- !app_assoc. by cbn [app]. }
  destruct (run_method m target P d) as (P1 & E1 & K1 & M1);
    [lia|by apply forallb_Forall|exact Hs|exact HP|].
  rewrite with_method_text in E1 by done.
  destruct (run_target r (m ++ blank) tail P1 (with_method d m)) as (P2 & E2 & K2 & M2);
    [done|done|done| |exact M1|]. { unfold target in Hs. simpl. same_size Hs. }
  simpl r_path in *. simpl r_query in *. simpl r_fragment in *.
  rewrite <- (app_nil_r (last_rest g)) in E2 at 2. rewrite <- (app_nil_r (last_rest g)) in M2.
  rewrite Hpre, app_nil_r in E2. rewrite Hpre, app_nil_r in M2.
  assert (len (pre ++ tail) < 2 ^ 31) as Hs2. { unfold target in Hs. unfold pre. same_size Hs. }
  destruct (run_version v pre (fields_text fs ++ eol ++ body) P2 d1) as (P3 & E3 & K3 & M3);
    [exact Hs2|exact M2|].
  destruct (run_fields fs (pre ++ version_text v ++ eol) (eol ++ body) P3
    (setVersion d1.1 (version_byte v), d1.2)) as (P4 & E4 & K4 & M4);
    [done|rewrite <- !app_assoc; exact Hs2|exact M3|].
  assert (kept P P4) as K by (repeat (eapply kept_trans; [eassumption|]); apply kept_refl).
  destruct K as (? & ? & ? & ? & ? & ? & ?).
  rewrite E1. unfold target. rewrite E2. fold d1. unfold tail. rewrite E3, E4, run_end by congruence.
  assert (len ((pre ++ version_text v ++ eol) ++ fields_text fs) + 2 = len (request_text r)) as Hl.
  { pose proof (request_text_parts r []) as E. rewrite app_nil_r in E. rewrite E. unfold pre, eol. simpl.
    repeat (rewrite length_app || cbn [List.length]). lia. }
  eexists. rewrite Hl. split_and!; [| |reflexivity].
  - unfold kept. simpl. repeat split; congruence.
  - apply (marks_weaken _ (len ((pre ++ version_text v ++ eol) ++ fields_text fs))); [|lia].
    destruct M4 as (? & ? & ?). unfold marks. cbn [mark field_start field_len set_body set_field_start]. lia.
Qed.

(** [http_parser_execute] around its program: the fields it resets, and the
    assertions at its end. *)
Definition reset (P : http_parser) : http_parser :=
  set_field_start (set_field_len (set_mark (set_nread P 0) 0) 0) 0.

Lemma execute_body {D} (cb : http_callbacks D) P d data :
  0 < len data < 2 ^ 31 ->
  http_parser_execute cb data P d 0 =
  let! r := exec cb data data (cs P) 0 (reset P, d) in
  let '(cs, p, (P, d)) := r in
  let P := if http_parser_has_error P then P else set_cs P cs in
  let P := set_nread P (u64 (nread P + p)) in
  let! _ := request_asserts data P p in
  Ret (nread P, P, d).
Proof.
  intros [H1 H2]. unfold http_parser_execute, size.
  destruct (Z.eqb_spec (len data) 0) as [|_]; [lia|]. unfold cassert, signed.
  rewrite (proj2 (Z.leb_le 0 _)) by lia. cbn [obind].
  assert (in_int 32 (len data) = true) as Hi.
  { unfold in_int. change (2 ^ (32 - 1)) with (2 ^ 31).
    apply andb_true_iff. split; [apply Z.leb_le|apply Z.ltb_lt]; lia. }
  rewrite (wraps_small 32 (len data)), (wraps_small 32 0), Z.sub_0_r by (done || exact Hi).
  rewrite Hi. cbn [obind]. rewrite Z.eqb_refl. cbn [obind].
  change (Z.to_nat 0) with 0%nat. rewrite drop_0. fold (reset P).
  change (cs (reset P)) with (cs P). destruct (exec _ _ _ _ _ _) as [[[q p] [P' d']]|f]; [|done].
  cbn [obind]. by rewrite Z.sub_0_r.
Qed.

Lemma execute_exec R data q p P d :
  0 < len data < 2 ^ 31 -> cs P <> 0 ->
  exec request_callbacks data data (cs (m_parser R)) 0 (reset (m_parser R), (m_data R, m_error R)) =
    Ret (q, p, (P, d)) ->
  nread P = 0 -> 0 <= p <= len data -> body_start P <= len data -> marks P (len data - 1) ->
  execute R data =
  Ret (p, drop (Z.to_nat p) data ++ drop (List.length data - Z.to_nat p) data,
       mkHttpRequestParser (set_nread (set_cs P q) p) d.1 d.2).
Proof.
  intros Hd Hcs E Hn Hp Hb (? & ? & ?). unfold execute. rewrite execute_body by done.
  match goal with |- context [exec ?cb ?b ?s ?q ?p ?x] =>
    change (exec cb b s q p x) with (exec request_callbacks data data (cs (m_parser R)) 0
      (reset (m_parser R), (m_data R, m_error R))) end.
  rewrite E. cbn [obind].
  unfold http_parser_has_error, http_parser_error. rewrite (proj2 (Z.eqb_neq _ _) Hcs).
  change (nread (set_cs P q)) with (nread P). rewrite Hn, Z.add_0_l, wrapu_small by lia.
  unfold request_asserts, cassert, size. cbn [set_nread set_cs nread body_start mark field_len field_start].
  rewrite !(proj2 (Z.leb_le _ _)), !(proj2 (Z.ltb_lt _ _)) by lia. cbn [obind]. by destruct d.
Qed.

(** A new parser on a request in origin form. *)
Lemma execute_request r body :
  request_ok r = true -> len (request_text r ++ body) < 2 ^ 31 ->
  exists R rest,
    execute new_HttpRequestParser (request_text r ++ body) =
      Ret (len (request_text r), body ++ rest, R) /\
    isFinished R = 1 /\ hasError R = negb ((stored r).2 =? 0) /\
    (m_data R, m_error R) = stored r.
Proof.
  intros Hr Hs. set (P := m_parser new_HttpRequestParser).
  destruct (run_request r body (reset P) (new_HttpRequest, 0) Hr Hs) as (P' & K & M & E);
    [done|done|done|].
  change (fold_left _ _ _) with (stored r) in E. destruct (stored r) as [q err] eqn:Est.
  destruct K as (Kb & _ & Kn & Kcs & _). destruct M as (? & ? & ?).
  pose proof (length_app (request_text r) body) as Hlen.
  exists (mkHttpRequestParser (set_nread (set_cs P' 348) (len (request_text r))) q err),
    (drop (List.length body) (request_text r ++ body)).
  split_and!; [|reflexivity|by destruct err|reflexivity].
  rewrite (execute_exec new_HttpRequestParser _ 348 (len (request_text r)) P' (q, err)).
  - rewrite Nat2Z.id, drop_app_length.
    replace (_ - _)%nat with (List.length body) by lia. reflexivity.
  - lia.
  - by rewrite Kcs.
  - exact E.
  - exact Kn.
  - lia.
  - rewrite Kb. simpl. lia.
  - unfold marks. lia.
Qed.

(** C3: a request in origin form is read as it was written: from a new parser,
    its head is consumed to the last character, the body is left at the front of
    the buffer, the parser is finished, and the request object holds the method,
    path, query, fragment, version and header fields of the text, in order; a
    method without a name sets the error 1000. *)
Theorem execute_reads_request r body :
  request_ok r = true -> len (request_text r ++ body) < 2 ^ 31 ->
  exists R rest,
    execute new_HttpRequestParser (request_text r ++ body) =
      Ret (len (request_text r), body ++ rest, R) /\
    isFinished R = 1 /\ hasError R = negb ((stored r).2 =? 0) /\
    (m_data R, m_error R) = stored r.
Proof. exact (execute_request r body). Qed.

(** ** A request that arrives in two reads *)

Definition method_ok (m : list ascii) : bool :=
  (1 <=? len m) && (len m <=? 20) && forallb (fun a => is_method (schar a)) m.

(** A first read that ends within the path, or within the query. *)
Lemma first_read_path m w d :
  method_ok m = true -> path_ok w = true -> (1 < List.length w)%nat ->
  len (m ++ blank ++ w) < 2 ^ 31 ->
  exists P, kept (reset (m_parser new_HttpRequestParser)) P /\ marks P (len (m ++ blank)) /\
    run [] (m ++ blank ++ w) 1 (reset (m_parser new_HttpRequestParser), d) =
    Ret (26, len (m ++ blank ++ w), (P, with_method d m)).
Proof.
  intros [[H1%Z.leb_le H2%Z.leb_le]%andb_true_iff Hm]%andb_true_iff Hw Hl Hs.
  destruct (run_method m w (reset (m_parser new_HttpRequestParser)) d) as (P & -> & K & M);
    [lia|by apply forallb_Forall|done|done|]. rewrite with_method_text by done.
  destruct (run_path w (m ++ blank) [] P (with_method d m) Hw) as (q & _ & Hq & E).
  rewrite app_nil_r in E. rewrite E, run_nil, Hq, <- app_assoc by done.
  exists (set_mark P (len (m ++ blank))). split_and!; [exact K| |done].
  destruct M as (? & ? & ?). unfold marks. cbn [mark field_start field_len set_mark]. lia.
Qed.

Lemma first_read_query m w q d :
  method_ok m = true -> path_ok w = true -> escaped is_query q = true -> q <> [] ->
  len (m ++ blank ++ w ++ "?"%char :: q) < 2 ^ 31 ->
  exists P d', kept (reset (m_parser new_HttpRequestParser)) P /\
    marks P (len (m ++ blank ++ w ++ ["?"%char])) /\
    query_start P = Some (len (m ++ blank ++ w ++ ["?"%char])) /\
    run [] (m ++ blank ++ w ++ "?"%char :: q) 1 (reset (m_parser new_HttpRequestParser), d) =
    Ret (30, len (m ++ blank ++ w ++ "?"%char :: q), (P, d')).
Proof.
  intros [[H1%Z.leb_le H2%Z.leb_le]%andb_true_iff Hm]%andb_true_iff Hw Hq Hne Hs.
  destruct (run_method m (w ++ "?"%char :: q) (reset (m_parser new_HttpRequestParser)) d) as (P & -> & K & M);
    [lia|by apply forallb_Forall|done|done|]. rewrite with_method_text by done.
  destruct (run_path_end "?" 29 w (m ++ blank) q P (with_method d m)) as (P1 & -> & K1 & M1);
    [by right|done| |done|]. { same_size Hs. }
  match goal with |- context [run ?pre q 29 (?P, ?d)] =>
    destruct (run_tail 29 30 31 32 [StartQuery] is_query q pre [] P d) as (P2 & E2 & E);
      [exact at_30|vm_cast_no_check (eq_refl true)|done|done|done|] end.
  cbn [run_request_actions run_request_action obind] in E2. injection E2 as <-.
  rewrite app_nil_r in E. rewrite E, run_nil. rewrite <- !app_assoc in *. cbn [app] in *.
  eexists (set_query_start P1 (len (m ++ blank ++ w ++ ["?"%char]))), _.
  split_and!; [by apply (kept_trans _ P)|exact M1|reflexivity|reflexivity].
Qed.

Lemma fields_keep_path fs d : path_ (fold_left with_field fs d).1 = path_ d.1.
Proof. revert d. induction fs as [|f fs IH]; intros d; [done|]. simpl. by rewrite IH. Qed.

Lemma body_start_end P n m : body_start P = 0 -> body_start (set_body (set_field_start P n) m (content_len P)) = m.
Proof. done. Qed.

(** From within a path on. *)
Lemma run_from_path w v fs rest P d :
  escaped is_path w = true -> forallb field_ok fs = true -> mark P = 0 -> marks P 0 ->
  len (w ++ blank ++ version_text v ++ eol ++ fields_text fs ++ rest) < 2 ^ 31 ->
  reaches (run [] (w ++ blank ++ version_text v ++ eol ++ fields_text fs ++ rest) 26 (P, d)) P
    (((w ++ blank) ++ version_text v ++ eol) ++ fields_text fs) rest 13
    (fold_left with_field fs (setVersion (setPath d.1 (string_of_list_ascii w)) (version_byte v), d.2)).
Proof.
  intros Hw Hf Hm HP Hs.
  destruct (run_path_rest w (version_text v ++ eol ++ fields_text fs ++ rest) P d) as (P2 & E2 & K2 & M2); [done..|].
  match type of E2 with _ = run _ _ _ (_, ?d) =>
  destruct (run_version v (w ++ blank) (fields_text fs ++ rest) P2 d) as (P3 & E3 & K3 & M3);
    [by rewrite <- app_assoc|done|];
  destruct (run_fields fs ((w ++ blank) ++ version_text v ++ eol) rest P3
    (setVersion d.1 (version_byte v), d.2)) as (P4 & E4 & K4 & M4); [done|by rewrite <- !app_assoc|done|] end.
  exists P4. split_and!; [by rewrite E2, E3, E4| |done]. repeat (eapply kept_trans; [eassumption|]). apply kept_refl.
Qed.

(** When a read ends within the path of a request, the path that is stored
    is only what the next read begins with: the mark is an offset into the first
    buffer, and every call resets it. *)
Theorem split_path_keeps_its_end m w1 w2 v fs body :
  method_ok m = true -> path_ok w1 = true -> (1 < List.length w1)%nat ->
  escaped is_path w2 = true -> forallb field_ok fs = true ->
  len (m ++ blank ++ w1) < 2 ^ 31 ->
  len (w2 ++ blank ++ version_text v ++ eol ++ fields_text fs ++ eol ++ body) < 2 ^ 31 ->
  exists rest R1 rest' R2,
    execute new_HttpRequestParser (m ++ blank ++ w1) = Ret (len (m ++ blank ++ w1), rest, R1) /\
    isFinished R1 = 0 /\
    execute R1 (w2 ++ blank ++ version_text v ++ eol ++ fields_text fs ++ eol ++ body) =
      Ret (len (w2 ++ blank ++ version_text v ++ eol ++ fields_text fs ++ eol), rest', R2) /\
    isFinished R2 = 1 /\ path_ (m_data R2) = string_of_list_ascii w2.
Proof.
  intros Hm Hw1 Hl Hw2 Hf Hs1 Hs2.
  destruct (first_read_path m w1 (new_HttpRequest, 0) Hm Hw1 Hl Hs1) as (P & K & M & E).
  destruct K as (Kb & _ & Kn & Kcs & Kx & Kj & _).
  destruct (with_method (new_HttpRequest, 0) m) as [q err] eqn:Eq.
  set (R1 := mkHttpRequestParser (set_nread (set_cs P 26) (len (m ++ blank ++ w1))) q err).
  destruct (run_from_path w2 v fs (eol ++ body) (reset (m_parser R1)) (q, err)) as (P4 & E4 & K5 & M4); [done..|].
  destruct K5 as (Kb5 & _ & Kn5 & Kcs5 & Kx5 & Kj5 & _).
  assert (len (m ++ blank ++ w1) = len (m ++ blank) + len w1) as Hl1
    by (rewrite app_assoc, length_app; lia).
  set (text := w2 ++ blank ++ version_text v ++ eol ++ fields_text fs ++ eol).
  set (pre := ((w2 ++ blank) ++ version_text v ++ eol) ++ fields_text fs) in *.
  assert (len text = len pre + 2) as Ht.
  { unfold text, pre, eol. repeat (rewrite length_app || cbn [List.length]). lia. }
  assert (w2 ++ blank ++ version_text v ++ eol ++ fields_text fs ++ eol ++ body = text ++ body) as Etext
    by (unfold text; rewrite <- !app_assoc; done).
  pose proof (length_app text body) as Hlen. rewrite Etext in *.
  assert (exec request_callbacks (text ++ body) (text ++ body) (cs (m_parser R1)) 0
    (reset (m_parser R1), (m_data R1, m_error R1)) =
    Ret (348, len text, (set_body (set_field_start P4 (len pre)) (len pre + 2) (content_len P4),
      fold_left with_field fs (setVersion (setPath q (string_of_list_ascii w2)) (version_byte v), err)))) as E5.
  { match goal with |- _ = ?X =>
      change (run [] (text ++ body) 26 (@pair http_parser Data (reset (m_parser R1)) (q, err)) = X) end.
    rewrite E4, run_end by (rewrite ?Kx5, ?Kj5; done). by rewrite Ht. }
  eexists _, R1, _, _. split_and!.
  - apply (execute_exec new_HttpRequestParser _ 26 _ P (q, err)).
    + lia.
    + by rewrite Kcs.
    + exact E.
    + by rewrite Kn.
    + lia.
    + rewrite Kb. simpl. lia.
    + apply (marks_weaken _ (len (m ++ blank))); [exact M|]. rewrite Hl1. lia.
  - done.
  - assert (0 < len (text ++ body) < 2 ^ 31) as Hd by lia.
    eapply (execute_exec R1 (text ++ body) 348); [exact Hd| |exact E5| | | |]; [by simpl; rewrite Kcs5| | | |].
    + simpl. by rewrite Kn5.
    + lia.
    + simpl. lia.
    + destruct M4 as (? & ? & ?). unfold marks. cbn [mark field_start field_len set_body set_field_start]. lia.
  - done.
  - simpl. by rewrite fields_keep_path.
Qed.

Lemma execute_fault R data f :
  0 < len data < 2 ^ 31 ->
  exec request_callbacks data data (cs (m_parser R)) 0 (reset (m_parser R), (m_data R, m_error R)) =
    Fault f ->
  execute R data = Fault f.
Proof.
  intros [H1 H2] E. unfold execute. rewrite execute_body by done.
  match goal with |- context [exec ?cb ?b ?s ?q ?p ?x] =>
    change (exec cb b s q p x) with (exec request_callbacks data data (cs (m_parser R)) 0
      (reset (m_parser R), (m_data R, m_error R))) end.
  by rewrite E.
Qed.

(** When a read ends within the query, and what is left of the query is
    shorter than what came before it, the callback is handed a length that has
    wrapped around: the text is read out of bounds. *)
Theorem split_query_undefined m w q1 q2 rest :
  method_ok m = true -> path_ok w = true -> escaped is_query q1 = true -> q1 <> [] ->
  escaped is_query q2 = true -> len q2 <= len (m ++ blank ++ w) ->
  len (m ++ blank ++ w ++ "?"%char :: q1) < 2 ^ 31 -> len (q2 ++ blank ++ rest) < 2 ^ 31 ->
  exists data R1,
    execute new_HttpRequestParser (m ++ blank ++ w ++ "?"%char :: q1) =
      Ret (len (m ++ blank ++ w ++ "?"%char :: q1), data, R1) /\
    isFinished R1 = 0 /\ execute R1 (q2 ++ blank ++ rest) = Fault Undefined.
Proof.
  intros Hm Hw Hq1 Hne Hq2 Hl Hs1 Hs2.
  destruct (first_read_query m w q1 (new_HttpRequest, 0) Hm Hw Hq1 Hne Hs1) as (P & [q err] & K & M & Hk & E).
  destruct K as (Kb & _ & Kn & Kcs & _).
  set (R1 := mkHttpRequestParser (set_nread (set_cs P 30) (len (m ++ blank ++ w ++ "?"%char :: q1))) q err).
  set (k := len (m ++ blank ++ w ++ ["?"%char])) in *.
  assert (k = len (m ++ blank ++ w) + 1) as Hk1.
  { unfold k. repeat (rewrite length_app || cbn [List.length]). lia. }
  assert (k < len (m ++ blank ++ w ++ "?"%char :: q1)) as Hk2.
  { destruct q1; [done|]. unfold k. repeat (rewrite length_app || cbn [List.length]). lia. }
  eexists _, R1. split_and!.
  - apply (execute_exec new_HttpRequestParser _ 30 _ P (q, err)).
    + lia.
    + by rewrite Kcs.
    + exact E.
    + by rewrite Kn.
    + lia.
    + rewrite Kb. simpl. lia.
    + apply (marks_weaken _ k); [exact M|lia].
  - done.
  - apply execute_fault.
    + rewrite length_app in *. simpl in *. lia.
    + change (run [] (q2 ++ blank ++ rest) 30 (reset (m_parser R1), (q, err)) = Fault Undefined).
      apply (run_query_rest _ _ _ _ k); [done|done|exact Hk|lia].
Qed.

(** ** A target with [^], [{] or [}] *)
Lemma wide_undefined q c :
  path_state q -> widened c = true ->
  is_Some (request_case_map !! q) /\ request_goto None q c = Fault Undefined.
Proof.
  intros Hq Hc. unfold request_goto, jump, widec. rewrite Hc.
  destruct Hq as [-> | ->]; (split; [by eexists|vm_compute; reflexivity]).
Qed.

Lemma run_wide m w c rest d :
  method_ok m = true -> path_ok w = true -> widened (schar c) = true ->
  len (m ++ blank ++ w ++ c :: rest) < 2 ^ 31 ->
  run [] (m ++ blank ++ w ++ c :: rest) 1 (reset (m_parser new_HttpRequestParser), d) = Fault Undefined.
Proof.
  intros [[H1%Z.leb_le H2%Z.leb_le]%andb_true_iff Hm]%andb_true_iff Hw Hc Hs.
  destruct (run_method m (w ++ c :: rest) (reset (m_parser new_HttpRequestParser)) d)
    as (P & -> & K & _); [lia|by apply forallb_Forall|done|done|].
  destruct (run_path w (m ++ blank) (c :: rest) P
    (with_method d (m ++ blank ++ w ++ c :: rest)) Hw) as (q & Hq & _ & ->).
  destruct (wide_undefined q (schar c) Hq Hc) as [Hcase Hgo].
  destruct K as (_ & _ & _ & _ & _ & _ & Hr).
  with_strategy transparent [run exec] unfold run, exec. cbn [program].
  rewrite bool_decide_true by exact Hcase. cbn [fst set_mark uri_relaxed].
  rewrite Hr. cbn [reset m_parser new_HttpRequestParser http_parser_init set_field_start set_field_len set_mark set_nread uri_relaxed].
  by rewrite Hgo.
Qed.

(** The constructor does not set [uri_relaxed], and the machine reads it: a
    new parser's behaviour on a path with one of the characters [^], [{] and [}]
    is undefined. *)
Theorem wide_path_undefined m w c rest :
  method_ok m = true -> path_ok w = true -> widened (schar c) = true ->
  len (m ++ blank ++ w ++ c :: rest) < 2 ^ 31 ->
  execute new_HttpRequestParser (m ++ blank ++ w ++ c :: rest) = Fault Undefined.
Proof.
  intros Hm Hw Hc Hs. apply execute_fault.
  - repeat (rewrite length_app in * || cbn [List.length] in * ). lia.
  - exact (run_wide m w c rest (new_HttpRequest, 0) Hm Hw Hc Hs).
Qed.

(** ** Witnesses *)
Definition text_of : string -> list ascii := list_ascii_of_string.
Definition sample : request :=
  mkRequestText (text_of "GET") (text_of "/a") (Some (text_of "x=1")) None true
    [Field (text_of "Host") (text_of " ") (text_of "q")].

Lemma execute_reads_request_witness :
  request_ok sample = true /\
  exists R rest,
    execute new_HttpRequestParser (request_text sample ++ text_of "body") =
      Ret (len (request_text sample), text_of "body" ++ rest, R) /\
    isFinished R = 1 /\ hasError R = negb ((stored sample).2 =? 0) /\
    (m_data R, m_error R) = stored sample.
Proof.
  split; [reflexivity|].
  apply (execute_reads_request sample (text_of "body")); [reflexivity|vm_compute; reflexivity].
Defined.

Lemma split_path_keeps_its_end_witness :
  exists rest R1 rest' R2,
    execute new_HttpRequestParser (text_of "GET /ab") = Ret (7, rest, R1) /\
    isFinished R1 = 0 /\
    execute R1 (text_of "cd" ++ blank ++ version_text true ++ eol ++ fields_text [] ++ eol ++ []) =
      Ret (15, rest', R2) /\
    isFinished R2 = 1 /\ path_ (m_data R2) = "cd"%string.
Proof.
  apply (split_path_keeps_its_end (text_of "GET") (text_of "/ab") (text_of "cd") true [] []);
    first [reflexivity | vm_compute; reflexivity | simpl; lia].
Defined.

Lemma split_query_undefined_witness :
  exists data R1,
    execute new_HttpRequestParser (text_of "GET /a?x=") = Ret (9, data, R1) /\
    isFinished R1 = 0 /\ execute R1 (text_of "1" ++ blank ++ []) = Fault Undefined.
Proof.
  apply (split_query_undefined (text_of "GET") (text_of "/a") (text_of "x=") (text_of "1") []);
    first [discriminate | vm_compute; done].
Defined.

Lemma wide_path_undefined_witness :
  execute new_HttpRequestParser (text_of "GET /{}") = Fault Undefined.
Proof.
  apply (wide_path_undefined (text_of "GET") (text_of "/") "{"%char (text_of "}"));
    vm_compute; reflexivity.
Defined.
