(* ===== verification/HttpRequestSafe.v ===== *)
(** * The request parser is safe, and decides its grammar

    On a buffer that holds the beginning of a request, the parser makes no
    access outside the buffer and fails no assertion; it stops at the end of the
    first request of the grammar, or at the first character behind which there
    is none. *)
From stdpp Require Import base list gmap strings.
From Stdlib Require Import ZArith Ascii String Lia.
From S2P Require Import Prelude CLib RegExp Ragel Http HttpCommon HttpRequestTable.
From S2P Require Import HttpRequestParser HttpGrammar HttpRequestCheck HttpRequestRun.
From S2P Require Import HttpRequestCorrect.
Open Scope Z_scope.

(** ** Which fields a state relies on

    In the states within a query, [query_start] is set; in those behind a field's
    name, [field_start] and [field_len] are that name's. *)
Definition flags : Set := bool * bool.
Definition state_flags (q : Z) : flags := (one_of [30; 31; 32] q, one_of [15; 16] q).

(** The flags behind an action, [None] when it uses a field that is not set. *)
Definition abs_request_action (a : request_action) (fl : flags) : option flags :=
  match a with
  | StartQuery => Some (true, fl.2)
  | QueryString => if fl.1 then Some fl else None
  | StartField => Some (fl.1, false)
  | WriteField => Some (fl.1, true)
  | WriteValue => if fl.2 then Some fl else None
  | _ => Some fl
  end.

Fixpoint abs_request_actions (acts : list request_action) (fl : flags) : option flags :=
  match acts with
  | [] => Some fl
  | Done _ :: _ => Some fl
  | a :: acts => match abs_request_action a fl with
                 | Some fl => abs_request_actions acts fl
                 | None => None
                 end
  end.

Definition stops (acts : list request_action) : option Z :=
  from_option (fun a => match a with Done n => Some n | _ => None end) None (last acts).

(** A jump keeps to the flags, has its [Done] at the end, and leads to a state
    that has a case. *)
Definition jump_safe (q : Z) (g : outcome (list request_action * Z)) : bool :=
  match g with
  | Fault _ => false
  | Ret (acts, n) =>
      forallb (fun a => match a with Done m => m =? n | _ => true end) acts &&
      match abs_request_actions acts (state_flags q) with
      | None => false
      | Some fl =>
          implb (state_flags n).1 fl.1 && implb (state_flags n).2 fl.2 &&
          match stops acts with
          | Some _ => request_final n
          | None =>
              forallb (fun a => match a with Done _ => false | _ => true end) acts &&
              if n =? 0 then bool_decide (acts = [])
              else negb (request_final n) && bool_decide (is_Some (request_case_map !! n))
          end
      end
  end.

Lemma jumps_safe_ok b :
  forallb (fun q => forallb (fun c => jump_safe q (request_goto (relaxed_flag b) q c)) request_reps)
    (map fst request_cases) = true.
Proof. destruct b; vm_cast_no_check (eq_refl true). Qed.

(** ** Actions *)
Definition holds (fl : flags) (P : http_parser) (p : Z) : Prop :=
  (fl.1 = true -> exists k, query_start P = Some k /\ 0 <= k <= p) /\
  (fl.2 = true -> field_start P + field_len P <= p).

Definition same (P P' : http_parser) : Prop :=
  uri_relaxed P' = uri_relaxed P /\ nread P' = nread P /\ cs P' = cs P.

Lemma total_method : total_cb on_request_method.
Proof. intros d text n _. rewrite on_request_method_ret. eauto. Qed.
Lemma total_version : total_cb on_request_version.
Proof. intros d text n _. unfold on_request_version. destruct (version_at text n); eauto. Qed.

Section safe.
Context (buffer : list ascii) (Hsize : len buffer < 2 ^ 31).

Lemma field_ok_cb d s n m k :
  0 <= n -> 0 <= s -> s + n <= len buffer -> 0 <= m -> 0 <= k -> m + k <= len buffer ->
  exists d', (let! name := at_ buffer s in let! value := at_ buffer m in
              on_request_http_field d name n value k) = Ret d'.
Proof.
  intros. destruct (at_ok buffer s) as (t1 & -> & Ht1); [lia|]. destruct (at_ok buffer m) as (t2 & -> & Ht2); [lia|].
  cbn [obind]. unfold on_request_http_field. destruct (n =? 0); [eauto|].
  destruct (string_at_ok t1 n) as [s1 ->]; [lia|]. destruct (string_at_ok t2 k) as [s2 ->]; [lia|].
  cbn [obind]. eauto.
Qed.

Lemma action_safe a p P d fl fl' :
  0 <= p < len buffer -> marks P p -> holds fl P p ->
  (forall n, a <> Done n) -> abs_request_action a fl = Some fl' ->
  exists P' d', run_request_action request_callbacks buffer a p (P, d) = Ret (P', d') /\
    marks P' p /\ holds fl' P' p /\ same P P'.
Proof.
  intros Hp HP Hfl Ha Habs. pose proof HP as (? & ? & ?).
  assert (forall f : Data -> list ascii -> Z -> outcome Data, total_cb f -> forall s, 0 <= s <= p -> exists d',
    (let! d' := element buffer (Some f) d s p in Ret (P, d')) = Ret (P, d')) as Hcb.
  { intros f Hf s Hs. destruct (element_ok buffer f d s p ltac:(lia) Hf Hs) as [d' ->]; [lia|]. eauto. }
  assert (forall f : Data -> list ascii -> Z -> outcome Data, total_cb f -> forall s, 0 <= s <= p -> Some fl = Some fl' ->
    exists P' d', (let! d' := element buffer (Some f) d s p in Ret (P, d')) = Ret (P', d') /\
      marks P' p /\ holds fl' P' p /\ same P P') as Hkeep.
  { intros f Hf s Hs [= <-]. destruct (Hcb f Hf s Hs) as [d' ->]. by exists P, d'. }
  destruct a as [| | | | | | | | | | | | |n]; cbn [abs_request_action] in Habs; actions.
  all: try (apply Hkeep; [first [apply total_method|apply total_version|apply total_string|apply total_skip]|lia|done]).
  - injection Habs as <-. exists (set_mark P p), d. split_and!; [done| |done|done].
    unfold marks. cbn [set_mark mark field_start field_len]. lia.
  - injection Habs as <-. exists (set_query_start P p), d. split_and!; [done|done| |done].
    split; [|apply Hfl]. intros _. exists p. split; [done|lia].
  - destruct fl as [[] ff]; [|done]. destruct Hfl as [Hq Hff]. destruct Hq as (k & Hk & Hkp); [done|].
    cbn [query_string request_callbacks]. rewrite Hk. actions.
    apply Hkeep; [apply total_string|lia|done].
  - injection Habs as <-. exists (set_field_start P p), d. split_and!; [done| | |done].
    + unfold marks. cbn [set_field_start mark field_start field_len]. lia.
    + split; [apply Hfl|done].
  - injection Habs as <-. exists (set_field_len P (u64 (p - field_start P))), d.
    rewrite wrapu_small by lia. split_and!; [done| | |done].
    + unfold marks. cbn [set_field_len mark field_start field_len]. lia.
    + split; [apply Hfl|]. intros _. cbn [set_field_len field_start field_len]. lia.
  - destruct fl as [qs []]; [|done]. injection Habs as <-. destruct Hfl as [Hq Hff].
    specialize (Hff eq_refl). cbn [snd] in *.
    destruct (field_ok_cb d (field_start P) (field_len P) (mark P) (u64 (p - mark P))) as [d' E];
      try lia; [rewrite wrapu_small by lia; lia|rewrite wrapu_small by lia; lia|].
    exists P, d'. split; [|done]. revert E. generalize (at_ buffer (field_start P)), (at_ buffer (mark P)).
    intros [t1|] [t2|]; cbn [obind]; try discriminate. intros ->. done.
  - injection Habs as <-. by exists (set_sent P 1 (json_sent P)), d.
  - injection Habs as <-. by exists (set_sent P (xml_sent P) 1), d.
  - by destruct (Ha n).
Qed.

Definition no_done (acts : list request_action) : bool :=
  forallb (fun a => match a with Done _ => false | _ => true end) acts.

Lemma same_trans P P' P'' : same P P' -> same P' P'' -> same P P''.
Proof. unfold same. intuition congruence. Qed.

Lemma done_safe p P d :
  0 <= p < len buffer -> marks P p ->
  exists P' d', request_done request_callbacks buffer p (P, d) = Ret (P', d') /\
    marks P' p /\ same P P' /\ 0 <= body_start P' <= p + 1.
Proof.
  intros Hp HP. unfold request_done. destruct (_ || _).
  - eexists _, d. split_and!; [reflexivity|done|done| |]; destruct HP; simpl; lia.
  - cbn [header_done request_callbacks]. destruct (at_ok buffer (p + 1)) as (text & -> & _); [lia|].
    eexists _, d. split_and!; [reflexivity|done|done| |]; simpl; lia.
Qed.

(** The actions of a jump: a [Done] in them is the last one, with the state [n]. *)
Lemma actions_safe acts p P d fl fl' n :
  0 <= p < len buffer -> marks P p -> holds fl P p -> 0 <= body_start P <= len buffer ->
  abs_request_actions acts fl = Some fl' ->
  forallb (fun a => match a with Done m => m =? n | _ => true end) acts = true ->
  exists P' d' o, run_request_actions request_callbacks buffer acts p (P, d) = Ret (P', d', o) /\
    marks P' p /\ same P P' /\ 0 <= body_start P' <= len buffer /\
    (o = None /\ no_done acts = true /\ holds fl' P' p \/ o = Some n /\ no_done acts = false).
Proof.
  intros Hp. revert P d fl. induction acts as [|a acts IH]; intros P d fl HP Hfl Hb Habs Hn; simpl in Habs, Hn.
  - injection Habs as <-. exists P, d, None. split_and!; [done|done|done|lia|lia|by left].
  - apply andb_true_iff in Hn as [Ha Hn].
    destruct (match a with Done _ => true | _ => false end) eqn:Hd.
    + destruct a; try done. cbn [run_request_actions].
      destruct (done_safe p P d Hp HP) as (P' & d' & -> & HP' & Hs & Hb').
      apply Z.eqb_eq in Ha as ->. exists P', d', (Some n). split_and!; [done|done|done|lia|lia|by right].
    + destruct (abs_request_action a fl) as [fl1|] eqn:E1; [|by destruct a].
      assert (forall n, a <> Done n) as Hnd by (by intros m ->).
      destruct (action_safe a p P d fl fl1 Hp HP Hfl Hnd E1) as (P1 & d1 & E & HP1 & Hfl1 & Hs1).
      assert (body_start P1 = body_start P) as Hb1.
      { clear -E Hnd. destruct a; try (by destruct (Hnd n)); revert E; cbn [run_request_action];
        repeat (match goal with |- context [obind ?m _] => destruct m; cbn [obind]; [|done] end);
        try (by intros [= <- _]); repeat case_match; try done; try (by intros [= <- _]); intros E;
        repeat (match type of E with context [obind ?m _] => destruct m; cbn [obind] in E; [|done] end);
        by injection E as <- _. }
      destruct (IH P1 d1 fl1 HP1 Hfl1) as (P2 & d2 & o & E2 & HP2 & Hs2 & Hb2 & Ho);
        [by rewrite Hb1|by destruct a|done|].
      exists P2, d2, o. split_and!; [|done|by apply (same_trans _ P1)|lia|lia|].
      * destruct a; try discriminate Hd; cbn [run_request_actions]; rewrite E; exact E2.
      * destruct a; try done; exact Ho.
Qed.

(** ** The program *)

Lemma jump_flag r k c : jump (Some r) k c = jump (relaxed_flag (negb (r =? 0))) k c.
Proof. destruct k; [done|]. simpl. unfold widec. destruct (widened c); [|done]. simpl.
  destruct (r =? 0); reflexivity. Qed.

Lemma active_case q : q ∈ request_states -> is_Some (request_case_map !! q) /\ request_final q = false.
Proof.
  unfold request_states. intros [Hf Hq]%list_elem_of_filter. split; [|exact Hf].
  exact (lookup_map_fst _ _ Hq).
Qed.

Lemma case_active q : is_Some (request_case_map !! q) -> request_final q = false -> q ∈ request_states.
Proof.
  unfold request_states. intros Hk Hf. apply list_elem_of_filter. split; [exact Hf|].
  exact (map_fst_lookup _ _ Hk).
Qed.

Lemma class_rep c : char_range c -> request_class c ∈ request_reps.
Proof.
  intros Hc%all_chars_spec.
  assert (forallb (fun c => bool_decide (request_class c ∈ request_reps)) all_chars = true) as H
    by (vm_cast_no_check (eq_refl true)).
  rewrite forallb_forall in H. by apply H, bool_decide_eq_true in Hc.
Qed.

Lemma jump_safe_at b q c :
  q ∈ request_states -> char_range c -> jump_safe q (request_goto (relaxed_flag b) q c) = true.
Proof.
  intros Hq Hc. rewrite (request_goto_class b q c Hc). unfold request_states in Hq.
  apply list_elem_of_filter in Hq as [_ Hq].
  exact (forallb_grid (fun q c => jump_safe q (request_goto (relaxed_flag b) q c)) _ _ _ _
    (jumps_safe_ok b) Hq (class_rep c Hc)).
Qed.


#[local] Opaque request_states request_case_map request_goto.

Lemma request_goto_flag r q c :
  request_goto (Some r) q c = request_goto (relaxed_flag (negb (r =? 0))) q c.
Proof. with_strategy transparent [request_goto] unfold request_goto. by rewrite jump_flag. Qed.

Lemma holds_weaken fl fl' P p p' :
  holds fl P p -> implb fl'.1 fl.1 = true -> implb fl'.2 fl.2 = true -> p <= p' -> holds fl' P p'.
Proof.
  destruct fl as [a b], fl' as [a' b']. unfold holds. simpl. intros [H1 H2] Ha Hb Hp. split.
  - intros ->. destruct a; [|done]. destruct (H1 eq_refl) as (k & E & ?). exists k. split; [done|lia].
  - intros ->. destruct b; [|done]. specialize (H2 eq_refl). lia.
Qed.

(** One step of the machine is safe. *)
Lemma step_safe r q a rest p P d :
  q ∈ request_states -> uri_relaxed P = Some r -> 0 <= p < len buffer ->
  marks P p -> holds (state_flags q) P p -> 0 <= body_start P <= len buffer ->
  let n := request_next (negb (r =? 0)) q (schar a) in
  exists P' d',
    exec request_callbacks buffer (a :: rest) q p (P, d) =
      (if n =? 0 then Ret (0, p, (P', d'))
       else if request_final n then Ret (n, p + 1, (P', d'))
       else exec request_callbacks buffer rest n (p + 1) (P', d')) /\
    marks P' p /\ same P P' /\ 0 <= body_start P' <= len buffer /\
    (n = 0 \/ request_final n = true \/ n ∈ request_states /\ holds (state_flags n) P' (p + 1)).
Proof.
  intros Hq Hr Hp HP Hfl Hb n. destruct (active_case q Hq) as [Hcase Hfin].
  pose proof (jump_safe_at (negb (r =? 0)) q (schar a) Hq (schar_range a)) as Hj.
  assert (n = match request_goto (relaxed_flag (negb (r =? 0))) q (schar a) with
              | Ret (_, n) => n | Fault _ => 0 end) as Hn.
  { unfold n, request_next. by rewrite Hfin. }
  unfold exec. cbn [program]. rewrite bool_decide_true by exact Hcase. cbn [fst]. rewrite Hr, request_goto_flag.
  destruct (request_goto _ q (schar a)) as [[acts m]|f]; [|done]. subst m. cbn [obind jump_safe] in *.
  apply andb_true_iff in Hj as [Hm Hj].
  destruct (abs_request_actions acts (state_flags q)) as [fl|] eqn:Ha; [|done].
  apply andb_true_iff in Hj as [[Hi1 Hi2]%andb_true_iff Hj].
  destruct (actions_safe acts p P d _ fl n Hp HP Hfl Hb Ha Hm) as (P' & d' & o & -> & HP' & Hs & Hb' & Ho).
  cbn [obind]. exists P', d'. destruct Ho as [(-> & Hnd & Hfl')|(-> & Hnd)].
  - assert (stops acts = None) as Hst.
    { unfold stops. destruct (last acts) as [x|] eqn:El; [|done].
      apply last_Some in El as (l & ->). unfold no_done in Hnd. rewrite forallb_app in Hnd.
      apply andb_true_iff in Hnd as [_ Hnd]. by destruct x. }
    rewrite Hst in Hj. apply andb_true_iff in Hj as [_ Hj].
    destruct (Z.eqb_spec n 0) as [E|E].
    + split_and!; [done|done|done|lia|lia|by left].
    + apply andb_true_iff in Hj as [Hf%negb_true_iff Hc%bool_decide_eq_true]. rewrite Hf.
      split_and!; [done|done|done|lia|lia|]. right. right. split; [by apply case_active|].
      apply (holds_weaken fl _ _ p); [done|done|done|lia].
  - destruct (stops acts) as [x|] eqn:Hst.
    + destruct (Z.eqb_spec n 0) as [E|E]; [by rewrite E in Hj|]. rewrite Hj.
      split_and!; [done|done|done|lia|lia|]. by right; left.
    + apply andb_true_iff in Hj as [Hj _]. unfold no_done in Hnd. congruence.
Qed.

(** The invariant of the program, and what is left of it at its end. *)
Definition inv (r : Z) (P0 : http_parser) (q p : Z) (Pd : http_parser * Data) : Prop :=
  uri_relaxed Pd.1 = Some r /\ marks Pd.1 (Z.max 0 (p - 1)) /\ holds (state_flags q) Pd.1 p /\
  same P0 Pd.1 /\ 0 <= body_start Pd.1 <= len buffer.
Definition settled (P0 : http_parser) (Pd : http_parser * Data) : Prop :=
  marks Pd.1 (len buffer - 1) /\ same P0 Pd.1 /\ 0 <= body_start Pd.1 <= len buffer.

Lemma exec_safe r P d :
  0 < len buffer -> inv r P 1 0 (P, d) -> 1 ∈ request_states ->
  exists q k P' d',
    exec request_callbacks buffer buffer 1 0 (P, d) = Ret (q, k, (P', d')) /\
    reading (request_next (negb (r =? 0))) request_final request_states buffer 1 q k /\
    0 <= k <= len buffer /\ settled P (P', d').
Proof.
  intros Hne HI H1.
  destruct (program_safe (request_next (negb (r =? 0))) request_final request_states
    (fun cs => bool_decide (is_Some (request_case_map !! cs)))
    (fun Pd => request_goto (uri_relaxed Pd.1)) (run_request_actions request_callbacks buffer)
    (len buffer) (inv r P) (settled P)) with (rest := buffer) (q := 1) (p := 0) (s := @pair http_parser Data P d)
    as (q & k & [P' d'] & E & H); [| |done|lia|lia|done|done|].
  - intros q p [P1 d1] Hp _ (_ & HP & _ & Hs & Hb). split_and!; [|done|apply Hb|apply Hb].
    apply (marks_weaken _ _ _ HP). lia.
  - intros q a rest p [P1 d1] Hq Hp (Hr & HP & Hfl & Hs & Hb) n.
    destruct (step_safe r q a rest p P1 d1 Hq Hr Hp) as (P2 & d2 & E & HP2 & Hs2 & Hb2 & Hn);
      [by apply (marks_weaken _ _ _ HP); lia|done|done|].
    exists (P2, d2). split; [exact E|]. split.
    + split_and!; [|by apply (same_trans _ P1)|apply Hb2|apply Hb2]. apply (marks_weaken _ _ _ HP2). lia.
    + destruct Hn as [?|[?|[Hact Hfl2]]]; [by left|by right; left|]. right; right.
      split; [done|]. split_and!; [|by apply (marks_weaken _ _ _ HP2); simpl; lia|done|by apply (same_trans _ P1)|apply Hb2|apply Hb2].
      destruct Hs2 as (Hr2 & _). simpl. by rewrite Hr2.
  - exists q, k, P', d'. split; [exact E|]. exact H.
Qed.
End safe.

(** ** What has been read *)
Abbreviation chars data := (map schar data).

Lemma next_error b w : fold_left (request_next b) w 0 = 0.
Proof.
  assert (forall c, request_next b 0 c = 0) as H.
  { intros c. unfold request_next. change (request_final 0) with false. cbv iota.
    with_strategy transparent [request_goto request_case_map] reflexivity. }
  induction w as [|c w IH]; [done|]. simpl. by rewrite H.
Qed.

(** From the initial state, in terms of the grammar. *)
Definition request_of (b : bool) (w : list Z) : Prop := matches (Request.main b) w.

Lemma active_viable b w :
  Forall char_range w -> fold_left (request_next b) w 1 ∈ request_states ->
  ~ request_of b w /\ viable (request_of b) w.
Proof.
  intros Hw Hq. split.
  - apply (state_unread _ _ _ _ (request_language b) w Hw). by apply active_case.
  - apply (state_viable _ _ _ _ (request_language b) w Hw). by apply request_completes.
Qed.

Lemma final_finished q P : request_final q = true -> http_parser_finish (set_cs P q) = 1.
Proof.
  unfold http_parser_finish, http_parser_has_error, http_parser_is_finished, request_final.
  cbn [set_cs cs]. unfold http_parser_first_final, http_parser_error. intros H%Z.leb_le.
  destruct (Z.eqb_spec q 0); [lia|]. by rewrite (proj2 (Z.leb_le _ _)).
Qed.

Lemma active_unfinished q P : q ∈ request_states -> http_parser_finish (set_cs P q) = 0.
Proof.
  intros Hq. destruct (active_case q Hq) as [[k Hk] Hf].
  unfold http_parser_finish, http_parser_has_error, http_parser_is_finished.
  unfold request_final in Hf. cbn [set_cs cs]. rewrite Hf. unfold http_parser_error.
  destruct (Z.eqb_spec q 0) as [->|]; [|done].
  assert (request_case_map !! 0 = None) as E
    by (with_strategy transparent [request_case_map] vm_compute; reflexivity).
  congruence.
Qed.

(** What a whole buffer is, and the answer of the parser. *)
Definition answers (b : bool) (data : list ascii) (n answer : Z) : Prop :=
  let read := chars (take (Z.to_nat n) data) in
  (forall j : nat, Z.of_nat j < n -> ~ request_of b (chars (take j data))) /\
  ((answer = 1 /\ request_of b read) \/
   (answer = 0 /\ n = len data /\ ~ request_of b read /\ viable (request_of b) read) \/
   (answer = -1 /\ n < len data /\ ~ request_of b read /\ viable (request_of b) read /\
    ~ viable (request_of b) (chars (take (Z.to_nat (n + 1)) data)))).

Lemma reading_answers b data q k P :
  reading (request_next b) request_final request_states data 1 q k ->
  answers b data k (http_parser_finish (set_cs P q)).
Proof.
  intros H. pose proof (reading_active _ _ _ _ _ _ _ H) as Hact.
  destruct (reading_end _ _ _ _ _ _ _ H) as [Hk Hend].
  split; [intros j Hj; by apply active_viable, Hact; [apply text_range|]|].
  destruct Hend as [(Hkl & Hq & E)|[(Hk0 & Hf & E)|(Hkl & -> & Hq & E)]].
  - right; left. rewrite (active_unfinished _ _ Hq). subst k. rewrite Nat2Z.id, firstn_all.
    rewrite <- E in Hq. destruct (active_viable b _ (text_range data) Hq). done.
  - left. rewrite (final_finished _ _ Hf). split; [done|].
    apply request_language; [apply text_range|]. congruence.
  - right; right. split; [done|]. split; [done|].
    destruct (active_viable b _ (text_range _) Hq) as [Hno Hv].
    split; [exact Hno|]. split; [exact Hv|].
    apply (state_dead _ _ _ _ (request_language b) _ 0 (text_range _) E).
    intros v. by rewrite next_error.
Qed.

Lemma start_active : 1 ∈ request_states.
Proof.
  assert (forallb (fun q => bool_decide (q ∈ request_states)) [1] = true) as H
    by (with_strategy transparent [request_states] vm_cast_no_check (eq_refl true)).
  rewrite forallb_forall in H. specialize (H 1 (or_introl eq_refl)).
  by apply bool_decide_eq_true in H.
Qed.

(** C2: with [uri_relaxed] set, a new parser handles any non-empty buffer below
    2^31 characters without an access out of bounds and without a failed
    assertion, and its answer is the grammar's. It stops behind the first prefix
    that is a request, and is finished; or, when no prefix is one, it reads the
    whole buffer if some continuation makes it a request, and wants more; or it
    stops in front of the first character behind which no continuation is a
    request, and reports the error. *)
Theorem execute_decides_grammar R r data :
  cs (m_parser R) = http_parser_start -> body_start (m_parser R) = 0 ->
  uri_relaxed (m_parser R) = Some r -> 0 < len data < 2 ^ 31 ->
  exists n rest R', execute R data = Ret (n, rest, R') /\ 0 <= n <= len data /\
    answers (negb (r =? 0)) data n (isFinished R').
Proof.
  intros Hcs Hb Hr Hd.
  destruct (exec_safe data (proj2 Hd) r (reset (m_parser R)) (m_data R, m_error R))
    as (q & k & P & d & E & Hrd & Hk & HP & (Hs1 & Hs2 & Hs3) & Hb').
  - lia.
  - split_and!; [exact Hr|unfold marks; simpl; lia|by split|done..| |]; simpl; lia.
  - exact start_active.
  - cbn [fst] in *. eexists k, _, _. split.
    + apply (execute_exec R data q k P d Hd); [|by rewrite Hcs|exact Hs2|lia|lia|exact HP].
      rewrite Hs3. change (cs (m_parser R) <> 0). rewrite Hcs. by unfold http_parser_start.
    + split; [lia|]. change (isFinished _) with (http_parser_finish (set_cs P q)).
      by apply reading_answers.
Qed.

Lemma execute_decides_grammar_witness :
  exists n rest R', execute (mkHttpRequestParser (http_parser_init (mkParser 0 0 0 0 0 0 0 None 0 0 (Some 0)))
                               new_HttpRequest 0) (list_ascii_of_string "GET /")
    = Ret (n, rest, R') /\ 0 <= n <= 5 /\
    answers false (list_ascii_of_string "GET /") n (isFinished R').
Proof.
  apply (execute_decides_grammar _ 0 (list_ascii_of_string "GET /"));
    [reflexivity|reflexivity|reflexivity|vm_compute; split; reflexivity].
Defined.
