(* ===== verification/HttpResponseTable.v ===== *)
(** * The response parser's state machine

    [httpclient_parser_execute] (src/qslary/http/http_response_parser.cc) runs a
    goto program made by Ragel. This file holds that program, block by block in
    the order of the source: [response_cases_k] gives, for each [case n:] of the
    block, the label the code jumps to, and [response_trans_k] gives, for each
    label [trn:], the actions it executes and the state it continues in. *)
From stdpp Require Import base list.
From Stdlib Require Import ZArith.
From S2P Require Import Prelude Ragel.
Import ListNotations.
Open Scope Z_scope.

(** The action blocks, named after the callback or the field they are about;
    the bodies are given in HttpResponseParser.v. [Done n] is the last action,
    which stops in the final state [n]. *)
Inductive response_action : Set :=
| Mark
| StartField
| WriteField
| ContentLen
| ConnClose
| WriteValue
| ReasonPhrase
| StatusCode
| HttpVersion
| ChunkSize
| TransChunked
| Done (n : Z).


(** http_response_parser.cc, lines 120-256 *)
Definition response_cases_1 : list (Z * (Z -> label)) :=
  [(1, fun c =>
    if c =? 72 then tr 2
    else if c <? 65 then
      if (48 <=? c) && (c <=? 57) then tr 0
      else st 0
    else if c >? 70 then
      if (97 <=? c) && (c <=? 102) then tr 0
      else st 0
    else tr 0);
   (2, fun c =>
    switch c
      [(10, tr 3); (13, tr 4); (59, tr 6)]
      (if c <? 65 then
          if (48 <=? c) && (c <=? 57) then st 2
          else st 0
        else if c >? 70 then
          if (97 <=? c) && (c <=? 102) then st 2
          else st 0
        else st 2));
   (120, fun _ => st 0)].

Definition response_trans_1 : list (Z * (list response_action * Z)) :=
  [(0, ([Mark], 2));
   (3, ([ChunkSize; Done 120], 120));
   (7, ([Done 120], 120));
   (9, ([WriteField; Mark; WriteValue; Done 120], 120));
   (15, ([WriteValue; Done 120], 120));
   (74, ([ConnClose; Done 120], 120));
   (4, ([ChunkSize], 3))].

(** http_response_parser.cc, lines 257-400 *)
Definition response_cases_2 : list (Z * (Z -> label)) :=
  [(3, fun c =>
    if c =? 10 then tr 7
    else st 0);
   (4, fun c =>
    switch c
      [(33, tr 8); (124, tr 8); (126, tr 8)]
      (if c <? 45 then
          if c >? 39 then
            if (42 <=? c) && (c <=? 43) then tr 8
            else st 0
          else if c >=? 35 then tr 8
          else st 0
        else if c >? 46 then
          if c <? 65 then
            if (48 <=? c) && (c <=? 57) then tr 8
            else st 0
          else if c >? 90 then
            if (94 <=? c) && (c <=? 122) then tr 8
            else st 0
          else tr 8
        else tr 8));
   (5, fun c =>
    switch c
      [(10, tr 9); (13, tr 10); (33, st 5); (59, tr 12); (61, tr 13);
       (124, st 5); (126, st 5)]
      (if c <? 45 then
          if c >? 39 then
            if (42 <=? c) && (c <=? 43) then st 5
            else st 0
          else if c >=? 35 then st 5
          else st 0
        else if c >? 46 then
          if c <? 65 then
            if (48 <=? c) && (c <=? 57) then st 5
            else st 0
          else if c >? 90 then
            if (94 <=? c) && (c <=? 122) then st 5
            else st 0
          else st 5
        else st 5))].

Definition response_trans_2 : list (Z * (list response_action * Z)) :=
  [(10, ([WriteField; Mark; WriteValue], 3));
   (16, ([WriteValue], 3));
   (75, ([ConnClose], 3));
   (6, ([ChunkSize], 4));
   (12, ([WriteField; Mark; WriteValue], 4));
   (18, ([WriteValue], 4));
   (8, ([StartField], 5));
   (13, ([WriteField; Mark], 6))].

(** http_response_parser.cc, lines 401-547 *)
Definition response_cases_3 : list (Z * (Z -> label)) :=
  [(6, fun c =>
    switch c
      [(33, tr 14); (124, tr 14); (126, tr 14)]
      (if c <? 45 then
          if c >? 39 then
            if (42 <=? c) && (c <=? 43) then tr 14
            else st 0
          else if c >=? 35 then tr 14
          else st 0
        else if c >? 46 then
          if c <? 65 then
            if (48 <=? c) && (c <=? 57) then tr 14
            else st 0
          else if c >? 90 then
            if (94 <=? c) && (c <=? 122) then tr 14
            else st 0
          else tr 14
        else tr 14));
   (7, fun c =>
    switch c
      [(10, tr 15); (13, tr 16); (33, st 7); (59, tr 18); (124, st 7);
       (126, st 7)]
      (if c <? 45 then
          if c >? 39 then
            if (42 <=? c) && (c <=? 43) then st 7
            else st 0
          else if c >=? 35 then st 7
          else st 0
        else if c >? 46 then
          if c <? 65 then
            if (48 <=? c) && (c <=? 57) then st 7
            else st 0
          else if c >? 90 then
            if (94 <=? c) && (c <=? 122) then st 7
            else st 0
          else st 7
        else st 7));
   (8, fun c =>
    if c =? 84 then st 9
    else st 0);
   (9, fun c =>
    if c =? 84 then st 10
    else st 0);
   (10, fun c =>
    if c =? 80 then st 11
    else st 0);
   (11, fun c =>
    if c =? 47 then st 12
    else st 0);
   (12, fun c =>
    if (48 <=? c) && (c <=? 57) then st 13
    else st 0);
   (13, fun c =>
    if c =? 46 then st 14
    else if (48 <=? c) && (c <=? 57) then st 13
    else st 0);
   (14, fun c =>
    if (48 <=? c) && (c <=? 57) then st 15
    else st 0);
   (15, fun c =>
    if c =? 32 then tr 26
    else if (48 <=? c) && (c <=? 57) then st 15
    else st 0);
   (16, fun c =>
    if (48 <=? c) && (c <=? 57) then tr 27
    else st 0)].

Definition response_trans_3 : list (Z * (list response_action * Z)) :=
  [(14, ([Mark], 7));
   (2, ([Mark], 8));
   (26, ([HttpVersion], 16));
   (27, ([Mark], 17))].

(** http_response_parser.cc, lines 548-689 *)
Definition response_cases_4 : list (Z * (Z -> label)) :=
  [(17, fun c =>
    if c =? 32 then tr 28
    else if (48 <=? c) && (c <=? 57) then st 17
    else st 0);
   (18, fun c =>
    if c =? 10 then st 0
    else tr 30);
   (19, fun c =>
    switch c
      [(10, tr 32); (13, tr 33)]
      (st 19));
   (20, fun c =>
    switch c
      [(10, tr 7); (13, st 3); (33, tr 35); (67, tr 36); (84, tr 37);
       (99, tr 36); (116, tr 37); (124, tr 35); (126, tr 35)]
      (if c <? 45 then
          if c >? 39 then
            if (42 <=? c) && (c <=? 43) then tr 35
            else st 0
          else if c >=? 35 then tr 35
          else st 0
        else if c >? 46 then
          if c <? 65 then
            if (48 <=? c) && (c <=? 57) then tr 35
            else st 0
          else if c >? 90 then
            if (94 <=? c) && (c <=? 122) then tr 35
            else st 0
          else tr 35
        else tr 35))].

Definition response_trans_4 : list (Z * (list response_action * Z)) :=
  [(28, ([StatusCode], 18));
   (30, ([Mark], 19));
   (45, ([WriteValue], 20));
   (32, ([ReasonPhrase], 20));
   (42, ([Mark; WriteValue], 20));
   (111, ([WriteValue; TransChunked], 20));
   (113, ([TransChunked], 20));
   (158, ([ContentLen; WriteValue], 20));
   (35, ([StartField], 21));
   (76, ([ConnClose; StartField], 21))].

(** http_response_parser.cc, lines 690-812 *)
Definition response_cases_5 : list (Z * (Z -> label)) :=
  [(21, fun c =>
    switch c
      [(33, st 21); (58, tr 39); (124, st 21); (126, st 21)]
      (if c <? 45 then
          if c >? 39 then
            if (42 <=? c) && (c <=? 43) then st 21
            else st 0
          else if c >=? 35 then st 21
          else st 0
        else if c >? 46 then
          if c <? 65 then
            if (48 <=? c) && (c <=? 57) then st 21
            else st 0
          else if c >? 90 then
            if (94 <=? c) && (c <=? 122) then st 21
            else st 0
          else st 21
        else st 21));
   (22, fun c =>
    switch c
      [(10, tr 42); (13, tr 43); (32, tr 41)]
      (if (9 <=? c) && (c <=? 12) then tr 41
        else tr 40));
   (23, fun c =>
    switch c
      [(10, tr 45); (13, tr 46)]
      (st 23));
   (24, fun c =>
    if c =? 10 then st 20
    else st 0)].

Definition response_trans_5 : list (Z * (list response_action * Z)) :=
  [(41, ([Mark], 22));
   (39, ([WriteField], 22));
   (40, ([Mark], 23));
   (46, ([WriteValue], 24));
   (33, ([ReasonPhrase], 24));
   (43, ([Mark; WriteValue], 24));
   (159, ([ContentLen; WriteValue], 24));
   (36, ([StartField], 25));
   (77, ([ConnClose; StartField], 25))].

(** http_response_parser.cc, lines 813-935 *)
Definition response_cases_6 : list (Z * (Z -> label)) :=
  [(25, fun c =>
    switch c
      [(33, st 21); (58, tr 39); (79, st 26); (111, st 26); (124, st 21);
       (126, st 21)]
      (if c <? 45 then
          if c >? 39 then
            if (42 <=? c) && (c <=? 43) then st 21
            else st 0
          else if c >=? 35 then st 21
          else st 0
        else if c >? 46 then
          if c <? 65 then
            if (48 <=? c) && (c <=? 57) then st 21
            else st 0
          else if c >? 90 then
            if (94 <=? c) && (c <=? 122) then st 21
            else st 0
          else st 21
        else st 21));
   (26, fun c =>
    switch c
      [(33, st 21); (58, tr 39); (78, st 27); (110, st 27); (124, st 21);
       (126, st 21)]
      (if c <? 45 then
          if c >? 39 then
            if (42 <=? c) && (c <=? 43) then st 21
            else st 0
          else if c >=? 35 then st 21
          else st 0
        else if c >? 46 then
          if c <? 65 then
            if (48 <=? c) && (c <=? 57) then st 21
            else st 0
          else if c >? 90 then
            if (94 <=? c) && (c <=? 122) then st 21
            else st 0
          else st 21
        else st 21));
   (27, fun c =>
    switch c
      [(33, st 21); (58, tr 39); (78, st 28); (84, st 101); (110, st 28);
       (116, st 101); (124, st 21); (126, st 21)]
      (if c <? 45 then
          if c >? 39 then
            if (42 <=? c) && (c <=? 43) then st 21
            else st 0
          else if c >=? 35 then st 21
          else st 0
        else if c >? 46 then
          if c <? 65 then
            if (48 <=? c) && (c <=? 57) then st 21
            else st 0
          else if c >? 90 then
            if (94 <=? c) && (c <=? 122) then st 21
            else st 0
          else st 21
        else st 21));
   (28, fun c =>
    switch c
      [(33, st 21); (58, tr 39); (69, st 29); (101, st 29); (124, st 21);
       (126, st 21)]
      (if c <? 45 then
          if c >? 39 then
            if (42 <=? c) && (c <=? 43) then st 21
            else st 0
          else if c >=? 35 then st 21
          else st 0
        else if c >? 46 then
          if c <? 65 then
            if (48 <=? c) && (c <=? 57) then st 21
            else st 0
          else if c >? 90 then
            if (94 <=? c) && (c <=? 122) then st 21
            else st 0
          else st 21
        else st 21))].

(** http_response_parser.cc, lines 936-1085 *)
Definition response_cases_7 : list (Z * (Z -> label)) :=
  [(29, fun c =>
    switch c
      [(33, st 21); (58, tr 39); (67, st 30); (99, st 30); (124, st 21);
       (126, st 21)]
      (if c <? 45 then
          if c >? 39 then
            if (42 <=? c) && (c <=? 43) then st 21
            else st 0
          else if c >=? 35 then st 21
          else st 0
        else if c >? 46 then
          if c <? 65 then
            if (48 <=? c) && (c <=? 57) then st 21
            else st 0
          else if c >? 90 then
            if (94 <=? c) && (c <=? 122) then st 21
            else st 0
          else st 21
        else st 21));
   (30, fun c =>
    switch c
      [(33, st 21); (58, tr 39); (84, st 31); (116, st 31); (124, st 21);
       (126, st 21)]
      (if c <? 45 then
          if c >? 39 then
            if (42 <=? c) && (c <=? 43) then st 21
            else st 0
          else if c >=? 35 then st 21
          else st 0
        else if c >? 46 then
          if c <? 65 then
            if (48 <=? c) && (c <=? 57) then st 21
            else st 0
          else if c >? 90 then
            if (94 <=? c) && (c <=? 122) then st 21
            else st 0
          else st 21
        else st 21));
   (31, fun c =>
    switch c
      [(33, st 21); (58, tr 39); (73, st 32); (105, st 32); (124, st 21);
       (126, st 21)]
      (if c <? 45 then
          if c >? 39 then
            if (42 <=? c) && (c <=? 43) then st 21
            else st 0
          else if c >=? 35 then st 21
          else st 0
        else if c >? 46 then
          if c <? 65 then
            if (48 <=? c) && (c <=? 57) then st 21
            else st 0
          else if c >? 90 then
            if (94 <=? c) && (c <=? 122) then st 21
            else st 0
          else st 21
        else st 21));
   (32, fun c =>
    switch c
      [(33, st 21); (58, tr 39); (79, st 33); (111, st 33); (124, st 21);
       (126, st 21)]
      (if c <? 45 then
          if c >? 39 then
            if (42 <=? c) && (c <=? 43) then st 21
            else st 0
          else if c >=? 35 then st 21
          else st 0
        else if c >? 46 then
          if c <? 65 then
            if (48 <=? c) && (c <=? 57) then st 21
            else st 0
          else if c >? 90 then
            if (94 <=? c) && (c <=? 122) then st 21
            else st 0
          else st 21
        else st 21));
   (33, fun c =>
    switch c
      [(33, st 21); (58, tr 39); (78, st 34); (110, st 34); (124, st 21);
       (126, st 21)]
      (if c <? 45 then
          if c >? 39 then
            if (42 <=? c) && (c <=? 43) then st 21
            else st 0
          else if c >=? 35 then st 21
          else st 0
        else if c >? 46 then
          if c <? 65 then
            if (48 <=? c) && (c <=? 57) then st 21
            else st 0
          else if c >? 90 then
            if (94 <=? c) && (c <=? 122) then st 21
            else st 0
          else st 21
        else st 21))].

(** http_response_parser.cc, lines 1086-1234 *)
Definition response_cases_8 : list (Z * (Z -> label)) :=
  [(34, fun c =>
    switch c
      [(33, st 21); (58, tr 58); (124, st 21); (126, st 21)]
      (if c <? 45 then
          if c >? 39 then
            if (42 <=? c) && (c <=? 43) then st 21
            else st 0
          else if c >=? 35 then st 21
          else st 0
        else if c >? 46 then
          if c <? 65 then
            if (48 <=? c) && (c <=? 57) then st 21
            else st 0
          else if c >? 90 then
            if (94 <=? c) && (c <=? 122) then st 21
            else st 0
          else st 21
        else st 21));
   (35, fun c =>
    switch c
      [(10, tr 60); (13, tr 61); (32, tr 59); (67, tr 62); (99, tr 62)]
      (if (9 <=? c) && (c <=? 12) then tr 59
        else tr 40));
   (36, fun c =>
    switch c
      [(10, tr 64); (13, st 89); (32, st 37); (33, tr 35); (67, tr 66);
       (84, tr 37); (99, tr 66); (116, tr 37); (124, tr 35); (126, tr 35)]
      (if c <? 45 then
          if c <? 35 then
            if (9 <=? c) && (c <=? 12) then st 37
            else st 0
          else if c >? 39 then
            if (42 <=? c) && (c <=? 43) then tr 35
            else st 0
          else tr 35
        else if c >? 46 then
          if c <? 65 then
            if (48 <=? c) && (c <=? 57) then tr 35
            else st 0
          else if c >? 90 then
            if (94 <=? c) && (c <=? 122) then tr 35
            else st 0
          else tr 35
        else tr 35));
   (37, fun c =>
    switch c
      [(32, st 37); (67, st 38); (99, st 38)]
      (if (9 <=? c) && (c <=? 13) then st 37
        else st 0));
   (38, fun c =>
    switch c
      [(76, st 39); (108, st 39)]
      (st 0));
   (39, fun c =>
    switch c
      [(79, st 40); (111, st 40)]
      (st 0));
   (40, fun c =>
    switch c
      [(83, st 41); (115, st 41)]
      (st 0));
   (41, fun c =>
    switch c
      [(69, st 42); (101, st 42)]
      (st 0))].

Definition response_trans_8 : list (Z * (list response_action * Z)) :=
  [(59, ([Mark], 35));
   (58, ([WriteField], 35));
   (60, ([Mark; WriteValue], 36))].

(** http_response_parser.cc, lines 1235-1358 *)
Definition response_cases_9 : list (Z * (Z -> label)) :=
  [(42, fun c =>
    switch c
      [(10, st 43); (13, st 88)]
      (st 0));
   (43, fun c =>
    switch c
      [(10, tr 74); (13, tr 75); (33, tr 76); (67, tr 77); (84, tr 78);
       (99, tr 77); (116, tr 78); (124, tr 76); (126, tr 76)]
      (if c <? 45 then
          if c >? 39 then
            if (42 <=? c) && (c <=? 43) then tr 76
            else st 0
          else if c >=? 35 then tr 76
          else st 0
        else if c >? 46 then
          if c <? 65 then
            if (48 <=? c) && (c <=? 57) then tr 76
            else st 0
          else if c >? 90 then
            if (94 <=? c) && (c <=? 122) then tr 76
            else st 0
          else tr 76
        else tr 76));
   (44, fun c =>
    switch c
      [(33, st 21); (58, tr 39); (82, st 45); (114, st 45); (124, st 21);
       (126, st 21)]
      (if c <? 45 then
          if c >? 39 then
            if (42 <=? c) && (c <=? 43) then st 21
            else st 0
          else if c >=? 35 then st 21
          else st 0
        else if c >? 46 then
          if c <? 65 then
            if (48 <=? c) && (c <=? 57) then st 21
            else st 0
          else if c >? 90 then
            if (94 <=? c) && (c <=? 122) then st 21
            else st 0
          else st 21
        else st 21));
   (45, fun c =>
    switch c
      [(33, st 21); (58, tr 39); (65, st 46); (97, st 46); (124, st 21);
       (126, st 21)]
      (if c <? 45 then
          if c >? 39 then
            if (42 <=? c) && (c <=? 43) then st 21
            else st 0
          else if c >=? 35 then st 21
          else st 0
        else if c >? 46 then
          if c <? 66 then
            if (48 <=? c) && (c <=? 57) then st 21
            else st 0
          else if c >? 90 then
            if (94 <=? c) && (c <=? 122) then st 21
            else st 0
          else st 21
        else st 21))].

Definition response_trans_9 : list (Z * (list response_action * Z)) :=
  [(136, ([WriteValue], 43));
   (37, ([StartField], 44));
   (78, ([ConnClose; StartField], 44))].

(** http_response_parser.cc, lines 1359-1508 *)
Definition response_cases_10 : list (Z * (Z -> label)) :=
  [(46, fun c =>
    switch c
      [(33, st 21); (58, tr 39); (78, st 47); (110, st 47); (124, st 21);
       (126, st 21)]
      (if c <? 45 then
          if c >? 39 then
            if (42 <=? c) && (c <=? 43) then st 21
            else st 0
          else if c >=? 35 then st 21
          else st 0
        else if c >? 46 then
          if c <? 65 then
            if (48 <=? c) && (c <=? 57) then st 21
            else st 0
          else if c >? 90 then
            if (94 <=? c) && (c <=? 122) then st 21
            else st 0
          else st 21
        else st 21));
   (47, fun c =>
    switch c
      [(33, st 21); (58, tr 39); (83, st 48); (115, st 48); (124, st 21);
       (126, st 21)]
      (if c <? 45 then
          if c >? 39 then
            if (42 <=? c) && (c <=? 43) then st 21
            else st 0
          else if c >=? 35 then st 21
          else st 0
        else if c >? 46 then
          if c <? 65 then
            if (48 <=? c) && (c <=? 57) then st 21
            else st 0
          else if c >? 90 then
            if (94 <=? c) && (c <=? 122) then st 21
            else st 0
          else st 21
        else st 21));
   (48, fun c =>
    switch c
      [(33, st 21); (58, tr 39); (70, st 49); (102, st 49); (124, st 21);
       (126, st 21)]
      (if c <? 45 then
          if c >? 39 then
            if (42 <=? c) && (c <=? 43) then st 21
            else st 0
          else if c >=? 35 then st 21
          else st 0
        else if c >? 46 then
          if c <? 65 then
            if (48 <=? c) && (c <=? 57) then st 21
            else st 0
          else if c >? 90 then
            if (94 <=? c) && (c <=? 122) then st 21
            else st 0
          else st 21
        else st 21));
   (49, fun c =>
    switch c
      [(33, st 21); (58, tr 39); (69, st 50); (101, st 50); (124, st 21);
       (126, st 21)]
      (if c <? 45 then
          if c >? 39 then
            if (42 <=? c) && (c <=? 43) then st 21
            else st 0
          else if c >=? 35 then st 21
          else st 0
        else if c >? 46 then
          if c <? 65 then
            if (48 <=? c) && (c <=? 57) then st 21
            else st 0
          else if c >? 90 then
            if (94 <=? c) && (c <=? 122) then st 21
            else st 0
          else st 21
        else st 21));
   (50, fun c =>
    switch c
      [(33, st 21); (58, tr 39); (82, st 51); (114, st 51); (124, st 21);
       (126, st 21)]
      (if c <? 45 then
          if c >? 39 then
            if (42 <=? c) && (c <=? 43) then st 21
            else st 0
          else if c >=? 35 then st 21
          else st 0
        else if c >? 46 then
          if c <? 65 then
            if (48 <=? c) && (c <=? 57) then st 21
            else st 0
          else if c >? 90 then
            if (94 <=? c) && (c <=? 122) then st 21
            else st 0
          else st 21
        else st 21))].

(** http_response_parser.cc, lines 1509-1655 *)
Definition response_cases_11 : list (Z * (Z -> label)) :=
  [(51, fun c =>
    switch c
      [(33, st 21); (45, st 52); (46, st 21); (58, tr 39); (124, st 21);
       (126, st 21)]
      (if c <? 48 then
          if c >? 39 then
            if (42 <=? c) && (c <=? 43) then st 21
            else st 0
          else if c >=? 35 then st 21
          else st 0
        else if c >? 57 then
          if c >? 90 then
            if (94 <=? c) && (c <=? 122) then st 21
            else st 0
          else if c >=? 65 then st 21
          else st 0
        else st 21));
   (52, fun c =>
    switch c
      [(33, st 21); (58, tr 39); (69, st 53); (101, st 53); (124, st 21);
       (126, st 21)]
      (if c <? 45 then
          if c >? 39 then
            if (42 <=? c) && (c <=? 43) then st 21
            else st 0
          else if c >=? 35 then st 21
          else st 0
        else if c >? 46 then
          if c <? 65 then
            if (48 <=? c) && (c <=? 57) then st 21
            else st 0
          else if c >? 90 then
            if (94 <=? c) && (c <=? 122) then st 21
            else st 0
          else st 21
        else st 21));
   (53, fun c =>
    switch c
      [(33, st 21); (58, tr 39); (78, st 54); (110, st 54); (124, st 21);
       (126, st 21)]
      (if c <? 45 then
          if c >? 39 then
            if (42 <=? c) && (c <=? 43) then st 21
            else st 0
          else if c >=? 35 then st 21
          else st 0
        else if c >? 46 then
          if c <? 65 then
            if (48 <=? c) && (c <=? 57) then st 21
            else st 0
          else if c >? 90 then
            if (94 <=? c) && (c <=? 122) then st 21
            else st 0
          else st 21
        else st 21));
   (54, fun c =>
    switch c
      [(33, st 21); (58, tr 39); (67, st 55); (99, st 55); (124, st 21);
       (126, st 21)]
      (if c <? 45 then
          if c >? 39 then
            if (42 <=? c) && (c <=? 43) then st 21
            else st 0
          else if c >=? 35 then st 21
          else st 0
        else if c >? 46 then
          if c <? 65 then
            if (48 <=? c) && (c <=? 57) then st 21
            else st 0
          else if c >? 90 then
            if (94 <=? c) && (c <=? 122) then st 21
            else st 0
          else st 21
        else st 21));
   (55, fun c =>
    switch c
      [(33, st 21); (58, tr 39); (79, st 56); (111, st 56); (124, st 21);
       (126, st 21)]
      (if c <? 45 then
          if c >? 39 then
            if (42 <=? c) && (c <=? 43) then st 21
            else st 0
          else if c >=? 35 then st 21
          else st 0
        else if c >? 46 then
          if c <? 65 then
            if (48 <=? c) && (c <=? 57) then st 21
            else st 0
          else if c >? 90 then
            if (94 <=? c) && (c <=? 122) then st 21
            else st 0
          else st 21
        else st 21))].

(** http_response_parser.cc, lines 1656-1803 *)
Definition response_cases_12 : list (Z * (Z -> label)) :=
  [(56, fun c =>
    switch c
      [(33, st 21); (58, tr 39); (68, st 57); (100, st 57); (124, st 21);
       (126, st 21)]
      (if c <? 45 then
          if c >? 39 then
            if (42 <=? c) && (c <=? 43) then st 21
            else st 0
          else if c >=? 35 then st 21
          else st 0
        else if c >? 46 then
          if c <? 65 then
            if (48 <=? c) && (c <=? 57) then st 21
            else st 0
          else if c >? 90 then
            if (94 <=? c) && (c <=? 122) then st 21
            else st 0
          else st 21
        else st 21));
   (57, fun c =>
    switch c
      [(33, st 21); (58, tr 39); (73, st 58); (105, st 58); (124, st 21);
       (126, st 21)]
      (if c <? 45 then
          if c >? 39 then
            if (42 <=? c) && (c <=? 43) then st 21
            else st 0
          else if c >=? 35 then st 21
          else st 0
        else if c >? 46 then
          if c <? 65 then
            if (48 <=? c) && (c <=? 57) then st 21
            else st 0
          else if c >? 90 then
            if (94 <=? c) && (c <=? 122) then st 21
            else st 0
          else st 21
        else st 21));
   (58, fun c =>
    switch c
      [(33, st 21); (58, tr 39); (78, st 59); (110, st 59); (124, st 21);
       (126, st 21)]
      (if c <? 45 then
          if c >? 39 then
            if (42 <=? c) && (c <=? 43) then st 21
            else st 0
          else if c >=? 35 then st 21
          else st 0
        else if c >? 46 then
          if c <? 65 then
            if (48 <=? c) && (c <=? 57) then st 21
            else st 0
          else if c >? 90 then
            if (94 <=? c) && (c <=? 122) then st 21
            else st 0
          else st 21
        else st 21));
   (59, fun c =>
    switch c
      [(33, st 21); (58, tr 39); (71, st 60); (103, st 60); (124, st 21);
       (126, st 21)]
      (if c <? 45 then
          if c >? 39 then
            if (42 <=? c) && (c <=? 43) then st 21
            else st 0
          else if c >=? 35 then st 21
          else st 0
        else if c >? 46 then
          if c <? 65 then
            if (48 <=? c) && (c <=? 57) then st 21
            else st 0
          else if c >? 90 then
            if (94 <=? c) && (c <=? 122) then st 21
            else st 0
          else st 21
        else st 21));
   (60, fun c =>
    switch c
      [(33, st 21); (58, tr 95); (124, st 21); (126, st 21)]
      (if c <? 45 then
          if c >? 39 then
            if (42 <=? c) && (c <=? 43) then st 21
            else st 0
          else if c >=? 35 then st 21
          else st 0
        else if c >? 46 then
          if c <? 65 then
            if (48 <=? c) && (c <=? 57) then st 21
            else st 0
          else if c >? 90 then
            if (94 <=? c) && (c <=? 122) then st 21
            else st 0
          else st 21
        else st 21))].

(** http_response_parser.cc, lines 1804-1947 *)
Definition response_cases_13 : list (Z * (Z -> label)) :=
  [(61, fun c =>
    switch c
      [(10, tr 97); (13, tr 98); (32, tr 96); (67, tr 99); (99, tr 99)]
      (if (9 <=? c) && (c <=? 12) then tr 96
        else tr 40));
   (62, fun c =>
    switch c
      [(10, tr 101); (13, st 72); (32, st 63); (33, tr 35); (67, tr 103);
       (84, tr 37); (99, tr 103); (116, tr 37); (124, tr 35); (126, tr 35)]
      (if c <? 45 then
          if c <? 35 then
            if (9 <=? c) && (c <=? 12) then st 63
            else st 0
          else if c >? 39 then
            if (42 <=? c) && (c <=? 43) then tr 35
            else st 0
          else tr 35
        else if c >? 46 then
          if c <? 65 then
            if (48 <=? c) && (c <=? 57) then tr 35
            else st 0
          else if c >? 90 then
            if (94 <=? c) && (c <=? 122) then tr 35
            else st 0
          else tr 35
        else tr 35));
   (63, fun c =>
    switch c
      [(32, st 63); (67, tr 104); (99, tr 104)]
      (if (9 <=? c) && (c <=? 13) then st 63
        else st 0));
   (64, fun c =>
    switch c
      [(72, st 65); (104, st 65)]
      (st 0));
   (65, fun c =>
    switch c
      [(85, st 66); (117, st 66)]
      (st 0));
   (66, fun c =>
    switch c
      [(78, st 67); (110, st 67)]
      (st 0));
   (67, fun c =>
    switch c
      [(75, st 68); (107, st 68)]
      (st 0));
   (68, fun c =>
    switch c
      [(69, st 69); (101, st 69)]
      (st 0));
   (69, fun c =>
    switch c
      [(68, st 70); (100, st 70)]
      (st 0))].

Definition response_trans_13 : list (Z * (list response_action * Z)) :=
  [(96, ([Mark], 61));
   (95, ([WriteField], 61));
   (97, ([Mark; WriteValue], 62));
   (104, ([Mark], 64))].

(** http_response_parser.cc, lines 1948-2076 *)
Definition response_cases_14 : list (Z * (Z -> label)) :=
  [(70, fun c =>
    switch c
      [(10, tr 111); (13, tr 112)]
      (st 0));
   (71, fun c =>
    if c =? 10 then tr 113
    else st 0);
   (121, fun c =>
    switch c
      [(32, st 63); (67, tr 104); (99, tr 104)]
      (if (9 <=? c) && (c <=? 13) then st 63
        else st 0));
   (72, fun c =>
    switch c
      [(10, tr 101); (32, st 63); (67, tr 104); (99, tr 104)]
      (if (9 <=? c) && (c <=? 13) then st 63
        else st 0));
   (73, fun c =>
    switch c
      [(33, st 21); (58, tr 39); (72, st 74); (79, st 26); (104, st 74);
       (111, st 26); (124, st 21); (126, st 21)]
      (if c <? 45 then
          if c >? 39 then
            if (42 <=? c) && (c <=? 43) then st 21
            else st 0
          else if c >=? 35 then st 21
          else st 0
        else if c >? 46 then
          if c <? 65 then
            if (48 <=? c) && (c <=? 57) then st 21
            else st 0
          else if c >? 90 then
            if (94 <=? c) && (c <=? 122) then st 21
            else st 0
          else st 21
        else st 21));
   (74, fun c =>
    switch c
      [(33, st 21); (58, tr 39); (85, st 75); (117, st 75); (124, st 21);
       (126, st 21)]
      (if c <? 45 then
          if c >? 39 then
            if (42 <=? c) && (c <=? 43) then st 21
            else st 0
          else if c >=? 35 then st 21
          else st 0
        else if c >? 46 then
          if c <? 65 then
            if (48 <=? c) && (c <=? 57) then st 21
            else st 0
          else if c >? 90 then
            if (94 <=? c) && (c <=? 122) then st 21
            else st 0
          else st 21
        else st 21))].

Definition response_trans_14 : list (Z * (list response_action * Z)) :=
  [(112, ([WriteValue], 71));
   (101, ([Done 121], 121));
   (103, ([Mark; StartField], 73))].

(** http_response_parser.cc, lines 2077-2226 *)
Definition response_cases_15 : list (Z * (Z -> label)) :=
  [(75, fun c =>
    switch c
      [(33, st 21); (58, tr 39); (78, st 76); (110, st 76); (124, st 21);
       (126, st 21)]
      (if c <? 45 then
          if c >? 39 then
            if (42 <=? c) && (c <=? 43) then st 21
            else st 0
          else if c >=? 35 then st 21
          else st 0
        else if c >? 46 then
          if c <? 65 then
            if (48 <=? c) && (c <=? 57) then st 21
            else st 0
          else if c >? 90 then
            if (94 <=? c) && (c <=? 122) then st 21
            else st 0
          else st 21
        else st 21));
   (76, fun c =>
    switch c
      [(33, st 21); (58, tr 39); (75, st 77); (107, st 77); (124, st 21);
       (126, st 21)]
      (if c <? 45 then
          if c >? 39 then
            if (42 <=? c) && (c <=? 43) then st 21
            else st 0
          else if c >=? 35 then st 21
          else st 0
        else if c >? 46 then
          if c <? 65 then
            if (48 <=? c) && (c <=? 57) then st 21
            else st 0
          else if c >? 90 then
            if (94 <=? c) && (c <=? 122) then st 21
            else st 0
          else st 21
        else st 21));
   (77, fun c =>
    switch c
      [(33, st 21); (58, tr 39); (69, st 78); (101, st 78); (124, st 21);
       (126, st 21)]
      (if c <? 45 then
          if c >? 39 then
            if (42 <=? c) && (c <=? 43) then st 21
            else st 0
          else if c >=? 35 then st 21
          else st 0
        else if c >? 46 then
          if c <? 65 then
            if (48 <=? c) && (c <=? 57) then st 21
            else st 0
          else if c >? 90 then
            if (94 <=? c) && (c <=? 122) then st 21
            else st 0
          else st 21
        else st 21));
   (78, fun c =>
    switch c
      [(33, st 21); (58, tr 39); (68, st 79); (100, st 79); (124, st 21);
       (126, st 21)]
      (if c <? 45 then
          if c >? 39 then
            if (42 <=? c) && (c <=? 43) then st 21
            else st 0
          else if c >=? 35 then st 21
          else st 0
        else if c >? 46 then
          if c <? 65 then
            if (48 <=? c) && (c <=? 57) then st 21
            else st 0
          else if c >? 90 then
            if (94 <=? c) && (c <=? 122) then st 21
            else st 0
          else st 21
        else st 21));
   (79, fun c =>
    switch c
      [(10, tr 111); (13, tr 112); (33, st 21); (58, tr 39); (124, st 21);
       (126, st 21)]
      (if c <? 45 then
          if c >? 39 then
            if (42 <=? c) && (c <=? 43) then st 21
            else st 0
          else if c >=? 35 then st 21
          else st 0
        else if c >? 46 then
          if c <? 65 then
            if (48 <=? c) && (c <=? 57) then st 21
            else st 0
          else if c >? 90 then
            if (94 <=? c) && (c <=? 122) then st 21
            else st 0
          else st 21
        else st 21))].

(** http_response_parser.cc, lines 2227-2368 *)
Definition response_cases_16 : list (Z * (Z -> label)) :=
  [(80, fun c =>
    switch c
      [(10, st 62); (32, st 63); (67, tr 104); (99, tr 104)]
      (if (9 <=? c) && (c <=? 13) then st 63
        else st 0));
   (81, fun c =>
    switch c
      [(10, tr 45); (13, tr 46); (72, st 82); (104, st 82)]
      (st 23));
   (82, fun c =>
    switch c
      [(10, tr 45); (13, tr 46); (85, st 83); (117, st 83)]
      (st 23));
   (83, fun c =>
    switch c
      [(10, tr 45); (13, tr 46); (78, st 84); (110, st 84)]
      (st 23));
   (84, fun c =>
    switch c
      [(10, tr 45); (13, tr 46); (75, st 85); (107, st 85)]
      (st 23));
   (85, fun c =>
    switch c
      [(10, tr 45); (13, tr 46); (69, st 86); (101, st 86)]
      (st 23));
   (86, fun c =>
    switch c
      [(10, tr 45); (13, tr 46); (68, st 87); (100, st 87)]
      (st 23));
   (87, fun c =>
    switch c
      [(10, tr 111); (13, tr 112)]
      (st 23));
   (88, fun c =>
    if c =? 10 then st 43
    else st 0);
   (122, fun c =>
    switch c
      [(32, st 37); (67, st 38); (99, st 38)]
      (if (9 <=? c) && (c <=? 13) then st 37
        else st 0))].

Definition response_trans_16 : list (Z * (list response_action * Z)) :=
  [(98, ([Mark; WriteValue], 80));
   (99, ([Mark], 81));
   (137, ([WriteValue], 88));
   (64, ([Done 122], 122))].

(** http_response_parser.cc, lines 2369-2508 *)
Definition response_cases_17 : list (Z * (Z -> label)) :=
  [(89, fun c =>
    switch c
      [(10, tr 64); (32, st 37); (67, st 38); (99, st 38)]
      (if (9 <=? c) && (c <=? 13) then st 37
        else st 0));
   (90, fun c =>
    switch c
      [(33, st 21); (58, tr 39); (76, st 91); (79, st 26); (108, st 91);
       (111, st 26); (124, st 21); (126, st 21)]
      (if c <? 45 then
          if c >? 39 then
            if (42 <=? c) && (c <=? 43) then st 21
            else st 0
          else if c >=? 35 then st 21
          else st 0
        else if c >? 46 then
          if c <? 65 then
            if (48 <=? c) && (c <=? 57) then st 21
            else st 0
          else if c >? 90 then
            if (94 <=? c) && (c <=? 122) then st 21
            else st 0
          else st 21
        else st 21));
   (91, fun c =>
    switch c
      [(33, st 21); (58, tr 39); (79, st 92); (111, st 92); (124, st 21);
       (126, st 21)]
      (if c <? 45 then
          if c >? 39 then
            if (42 <=? c) && (c <=? 43) then st 21
            else st 0
          else if c >=? 35 then st 21
          else st 0
        else if c >? 46 then
          if c <? 65 then
            if (48 <=? c) && (c <=? 57) then st 21
            else st 0
          else if c >? 90 then
            if (94 <=? c) && (c <=? 122) then st 21
            else st 0
          else st 21
        else st 21));
   (92, fun c =>
    switch c
      [(33, st 21); (58, tr 39); (83, st 93); (115, st 93); (124, st 21);
       (126, st 21)]
      (if c <? 45 then
          if c >? 39 then
            if (42 <=? c) && (c <=? 43) then st 21
            else st 0
          else if c >=? 35 then st 21
          else st 0
        else if c >? 46 then
          if c <? 65 then
            if (48 <=? c) && (c <=? 57) then st 21
            else st 0
          else if c >? 90 then
            if (94 <=? c) && (c <=? 122) then st 21
            else st 0
          else st 21
        else st 21));
   (93, fun c =>
    switch c
      [(33, st 21); (58, tr 39); (69, st 94); (101, st 94); (124, st 21);
       (126, st 21)]
      (if c <? 45 then
          if c >? 39 then
            if (42 <=? c) && (c <=? 43) then st 21
            else st 0
          else if c >=? 35 then st 21
          else st 0
        else if c >? 46 then
          if c <? 65 then
            if (48 <=? c) && (c <=? 57) then st 21
            else st 0
          else if c >? 90 then
            if (94 <=? c) && (c <=? 122) then st 21
            else st 0
          else st 21
        else st 21))].

Definition response_trans_17 : list (Z * (list response_action * Z)) :=
  [(66, ([StartField], 90))].

(** http_response_parser.cc, lines 2509-2650 *)
Definition response_cases_18 : list (Z * (Z -> label)) :=
  [(94, fun c =>
    switch c
      [(10, st 43); (13, st 88); (33, st 21); (58, tr 39); (124, st 21);
       (126, st 21)]
      (if c <? 45 then
          if c >? 39 then
            if (42 <=? c) && (c <=? 43) then st 21
            else st 0
          else if c >=? 35 then st 21
          else st 0
        else if c >? 46 then
          if c <? 65 then
            if (48 <=? c) && (c <=? 57) then st 21
            else st 0
          else if c >? 90 then
            if (94 <=? c) && (c <=? 122) then st 21
            else st 0
          else st 21
        else st 21));
   (95, fun c =>
    switch c
      [(10, st 36); (32, st 37); (67, st 38); (99, st 38)]
      (if (9 <=? c) && (c <=? 13) then st 37
        else st 0));
   (96, fun c =>
    switch c
      [(10, tr 45); (13, tr 46); (76, st 97); (108, st 97)]
      (st 23));
   (97, fun c =>
    switch c
      [(10, tr 45); (13, tr 46); (79, st 98); (111, st 98)]
      (st 23));
   (98, fun c =>
    switch c
      [(10, tr 45); (13, tr 46); (83, st 99); (115, st 99)]
      (st 23));
   (99, fun c =>
    switch c
      [(10, tr 45); (13, tr 46); (69, st 100); (101, st 100)]
      (st 23));
   (100, fun c =>
    switch c
      [(10, tr 136); (13, tr 137)]
      (st 23));
   (101, fun c =>
    switch c
      [(33, st 21); (58, tr 39); (69, st 102); (101, st 102);
       (124, st 21); (126, st 21)]
      (if c <? 45 then
          if c >? 39 then
            if (42 <=? c) && (c <=? 43) then st 21
            else st 0
          else if c >=? 35 then st 21
          else st 0
        else if c >? 46 then
          if c <? 65 then
            if (48 <=? c) && (c <=? 57) then st 21
            else st 0
          else if c >? 90 then
            if (94 <=? c) && (c <=? 122) then st 21
            else st 0
          else st 21
        else st 21))].

Definition response_trans_18 : list (Z * (list response_action * Z)) :=
  [(61, ([Mark; WriteValue], 95));
   (62, ([Mark], 96))].

(** http_response_parser.cc, lines 2651-2797 *)
Definition response_cases_19 : list (Z * (Z -> label)) :=
  [(102, fun c =>
    switch c
      [(33, st 21); (58, tr 39); (78, st 103); (110, st 103);
       (124, st 21); (126, st 21)]
      (if c <? 45 then
          if c >? 39 then
            if (42 <=? c) && (c <=? 43) then st 21
            else st 0
          else if c >=? 35 then st 21
          else st 0
        else if c >? 46 then
          if c <? 65 then
            if (48 <=? c) && (c <=? 57) then st 21
            else st 0
          else if c >? 90 then
            if (94 <=? c) && (c <=? 122) then st 21
            else st 0
          else st 21
        else st 21));
   (103, fun c =>
    switch c
      [(33, st 21); (58, tr 39); (84, st 104); (116, st 104);
       (124, st 21); (126, st 21)]
      (if c <? 45 then
          if c >? 39 then
            if (42 <=? c) && (c <=? 43) then st 21
            else st 0
          else if c >=? 35 then st 21
          else st 0
        else if c >? 46 then
          if c <? 65 then
            if (48 <=? c) && (c <=? 57) then st 21
            else st 0
          else if c >? 90 then
            if (94 <=? c) && (c <=? 122) then st 21
            else st 0
          else st 21
        else st 21));
   (104, fun c =>
    switch c
      [(33, st 21); (45, st 105); (46, st 21); (58, tr 39); (124, st 21);
       (126, st 21)]
      (if c <? 48 then
          if c >? 39 then
            if (42 <=? c) && (c <=? 43) then st 21
            else st 0
          else if c >=? 35 then st 21
          else st 0
        else if c >? 57 then
          if c >? 90 then
            if (94 <=? c) && (c <=? 122) then st 21
            else st 0
          else if c >=? 65 then st 21
          else st 0
        else st 21));
   (105, fun c =>
    switch c
      [(33, st 21); (58, tr 39); (76, st 106); (108, st 106);
       (124, st 21); (126, st 21)]
      (if c <? 45 then
          if c >? 39 then
            if (42 <=? c) && (c <=? 43) then st 21
            else st 0
          else if c >=? 35 then st 21
          else st 0
        else if c >? 46 then
          if c <? 65 then
            if (48 <=? c) && (c <=? 57) then st 21
            else st 0
          else if c >? 90 then
            if (94 <=? c) && (c <=? 122) then st 21
            else st 0
          else st 21
        else st 21));
   (106, fun c =>
    switch c
      [(33, st 21); (58, tr 39); (69, st 107); (101, st 107);
       (124, st 21); (126, st 21)]
      (if c <? 45 then
          if c >? 39 then
            if (42 <=? c) && (c <=? 43) then st 21
            else st 0
          else if c >=? 35 then st 21
          else st 0
        else if c >? 46 then
          if c <? 65 then
            if (48 <=? c) && (c <=? 57) then st 21
            else st 0
          else if c >? 90 then
            if (94 <=? c) && (c <=? 122) then st 21
            else st 0
          else st 21
        else st 21))].

(** http_response_parser.cc, lines 2798-2945 *)
Definition response_cases_20 : list (Z * (Z -> label)) :=
  [(107, fun c =>
    switch c
      [(33, st 21); (58, tr 39); (78, st 108); (110, st 108);
       (124, st 21); (126, st 21)]
      (if c <? 45 then
          if c >? 39 then
            if (42 <=? c) && (c <=? 43) then st 21
            else st 0
          else if c >=? 35 then st 21
          else st 0
        else if c >? 46 then
          if c <? 65 then
            if (48 <=? c) && (c <=? 57) then st 21
            else st 0
          else if c >? 90 then
            if (94 <=? c) && (c <=? 122) then st 21
            else st 0
          else st 21
        else st 21));
   (108, fun c =>
    switch c
      [(33, st 21); (58, tr 39); (71, st 109); (103, st 109);
       (124, st 21); (126, st 21)]
      (if c <? 45 then
          if c >? 39 then
            if (42 <=? c) && (c <=? 43) then st 21
            else st 0
          else if c >=? 35 then st 21
          else st 0
        else if c >? 46 then
          if c <? 65 then
            if (48 <=? c) && (c <=? 57) then st 21
            else st 0
          else if c >? 90 then
            if (94 <=? c) && (c <=? 122) then st 21
            else st 0
          else st 21
        else st 21));
   (109, fun c =>
    switch c
      [(33, st 21); (58, tr 39); (84, st 110); (116, st 110);
       (124, st 21); (126, st 21)]
      (if c <? 45 then
          if c >? 39 then
            if (42 <=? c) && (c <=? 43) then st 21
            else st 0
          else if c >=? 35 then st 21
          else st 0
        else if c >? 46 then
          if c <? 65 then
            if (48 <=? c) && (c <=? 57) then st 21
            else st 0
          else if c >? 90 then
            if (94 <=? c) && (c <=? 122) then st 21
            else st 0
          else st 21
        else st 21));
   (110, fun c =>
    switch c
      [(33, st 21); (58, tr 39); (72, st 111); (104, st 111);
       (124, st 21); (126, st 21)]
      (if c <? 45 then
          if c >? 39 then
            if (42 <=? c) && (c <=? 43) then st 21
            else st 0
          else if c >=? 35 then st 21
          else st 0
        else if c >? 46 then
          if c <? 65 then
            if (48 <=? c) && (c <=? 57) then st 21
            else st 0
          else if c >? 90 then
            if (94 <=? c) && (c <=? 122) then st 21
            else st 0
          else st 21
        else st 21));
   (111, fun c =>
    switch c
      [(33, st 21); (58, tr 148); (124, st 21); (126, st 21)]
      (if c <? 45 then
          if c >? 39 then
            if (42 <=? c) && (c <=? 43) then st 21
            else st 0
          else if c >=? 35 then st 21
          else st 0
        else if c >? 46 then
          if c <? 65 then
            if (48 <=? c) && (c <=? 57) then st 21
            else st 0
          else if c >? 90 then
            if (94 <=? c) && (c <=? 122) then st 21
            else st 0
          else st 21
        else st 21))].

(** http_response_parser.cc, lines 2946-3089 *)
Definition response_cases_21 : list (Z * (Z -> label)) :=
  [(112, fun c =>
    switch c
      [(10, tr 150); (13, tr 151); (32, tr 149)]
      (if c >? 12 then
          if (48 <=? c) && (c <=? 57) then tr 152
          else tr 40
        else if c >=? 9 then tr 149
        else tr 40));
   (113, fun c =>
    switch c
      [(10, tr 154); (13, st 116); (32, st 114); (33, tr 35); (67, tr 36);
       (84, tr 37); (99, tr 36); (116, tr 37); (124, tr 35); (126, tr 35)]
      (if c <? 45 then
          if c <? 35 then
            if (9 <=? c) && (c <=? 12) then st 114
            else st 0
          else if c >? 39 then
            if (42 <=? c) && (c <=? 43) then tr 35
            else st 0
          else tr 35
        else if c >? 46 then
          if c <? 65 then
            if (48 <=? c) && (c <=? 57) then tr 156
            else st 0
          else if c >? 90 then
            if (94 <=? c) && (c <=? 122) then tr 35
            else st 0
          else tr 35
        else tr 35));
   (114, fun c =>
    if c =? 32 then st 114
    else if c >? 13 then
      if (48 <=? c) && (c <=? 57) then tr 157
      else st 0
    else if c >=? 9 then st 114
    else st 0);
   (115, fun c =>
    switch c
      [(10, tr 158); (13, tr 159)]
      (if (48 <=? c) && (c <=? 57) then st 115
        else st 0));
   (123, fun c =>
    if c =? 32 then st 114
    else if c >? 13 then
      if (48 <=? c) && (c <=? 57) then tr 157
      else st 0
    else if c >=? 9 then st 114
    else st 0);
   (116, fun c =>
    switch c
      [(10, tr 154); (32, st 114)]
      (if c >? 13 then
          if (48 <=? c) && (c <=? 57) then tr 157
          else st 0
        else if c >=? 9 then st 114
        else st 0))].

Definition response_trans_21 : list (Z * (list response_action * Z)) :=
  [(149, ([Mark], 112));
   (148, ([WriteField], 112));
   (150, ([Mark; WriteValue], 113));
   (157, ([Mark], 115));
   (154, ([Done 123], 123));
   (156, ([Mark; StartField], 117))].

(** http_response_parser.cc, lines 3090-3161 *)
Definition response_cases_22 : list (Z * (Z -> label)) :=
  [(117, fun c =>
    switch c
      [(10, tr 158); (13, tr 159); (33, st 21); (58, tr 39); (124, st 21);
       (126, st 21)]
      (if c <? 45 then
          if c >? 39 then
            if (42 <=? c) && (c <=? 43) then st 21
            else st 0
          else if c >=? 35 then st 21
          else st 0
        else if c >? 46 then
          if c <? 65 then
            if (48 <=? c) && (c <=? 57) then st 117
            else st 0
          else if c >? 90 then
            if (94 <=? c) && (c <=? 122) then st 21
            else st 0
          else st 21
        else st 21));
   (118, fun c =>
    switch c
      [(10, st 113); (32, st 114)]
      (if c >? 13 then
          if (48 <=? c) && (c <=? 57) then tr 157
          else st 0
        else if c >=? 9 then st 114
        else st 0));
   (119, fun c =>
    switch c
      [(10, tr 158); (13, tr 159)]
      (if (48 <=? c) && (c <=? 57) then st 119
        else st 23))].

Definition response_trans_22 : list (Z * (list response_action * Z)) :=
  [(151, ([Mark; WriteValue], 118));
   (152, ([Mark], 119))].

Definition response_cases : list (Z * (Z -> label)) :=
  concat
    [response_cases_1; response_cases_2; response_cases_3;
     response_cases_4; response_cases_5; response_cases_6;
     response_cases_7; response_cases_8; response_cases_9;
     response_cases_10; response_cases_11; response_cases_12;
     response_cases_13; response_cases_14; response_cases_15;
     response_cases_16; response_cases_17; response_cases_18;
     response_cases_19; response_cases_20; response_cases_21;
     response_cases_22].

Definition response_trans : list (Z * (list response_action * Z)) :=
  concat
    [response_trans_1; response_trans_2; response_trans_3;
     response_trans_4; response_trans_5; response_trans_8;
     response_trans_9; response_trans_13; response_trans_14;
     response_trans_16; response_trans_17; response_trans_18;
     response_trans_21; response_trans_22].
