(* ===== verification/HttpResponseParser.v ===== *)
(** * The response parser
    (src/qslary/http/http_response_parser.h, http_response_parser.cc,
    HttpParser.h, HttpParser.cc)

    The struct [httpclient_parser], the program that runs the table of
    HttpResponseTable.v over a buffer and calls back what it finds, and
    [HttpResponseParser], whose callbacks store it in a response. *)
From stdpp Require Import base list gmap strings.
From Stdlib Require Import ZArith Ascii String Lia.
From S2P Require Import Prelude CLib Ragel Http HttpCommon HttpResponseTable.
Open Scope Z_scope.

(** ** The struct

    [httpclient_parser_init] does not set [status]: it is indeterminate ([None])
    until a status line does. *)
Record httpclient_parser : Set := mkClientParser {
  cs : Z;
  body_start : Z;
  content_len : Z;                                      (** [int] *)
  status : option Z;
  chunked : Z;
  chunks_done : Z;
  close : Z;
  nread : Z;
  mark : Z;
  field_start : Z;
  field_len : Z
}.

Definition httpclient_parser_start : Z := 1.
Definition httpclient_parser_first_final : Z := 120.
Definition httpclient_parser_error : Z := 0.

Definition httpclient_parser_init (P : httpclient_parser) : httpclient_parser :=
  mkClientParser httpclient_parser_start 0 (-1) (status P) 0 0 0 0 0 0 0.

Definition httpclient_parser_has_error (P : httpclient_parser) : bool :=
  cs P =? httpclient_parser_error.
(** Only the first of the final states 120 to 123 counts. *)
Definition httpclient_parser_is_finished (P : httpclient_parser) : bool :=
  cs P =? httpclient_parser_first_final.
Definition httpclient_parser_finish (P : httpclient_parser) : Z :=
  if httpclient_parser_has_error P then -1
  else if httpclient_parser_is_finished P then 1
  else 0.

Definition set_cs (P : httpclient_parser) (x : Z) : httpclient_parser :=
  mkClientParser x (body_start P) (content_len P) (status P) (chunked P) (chunks_done P) (close P)
    (nread P) (mark P) (field_start P) (field_len P).
Definition set_body_start (P : httpclient_parser) (x : Z) : httpclient_parser :=
  mkClientParser (cs P) x (content_len P) (status P) (chunked P) (chunks_done P) (close P)
    (nread P) (mark P) (field_start P) (field_len P).
Definition set_content_len (P : httpclient_parser) (x : Z) : httpclient_parser :=
  mkClientParser (cs P) (body_start P) x (status P) (chunked P) (chunks_done P) (close P)
    (nread P) (mark P) (field_start P) (field_len P).
Definition set_status (P : httpclient_parser) (x : Z) : httpclient_parser :=
  mkClientParser (cs P) (body_start P) (content_len P) (Some x) (chunked P) (chunks_done P) (close P)
    (nread P) (mark P) (field_start P) (field_len P).
Definition set_chunked (P : httpclient_parser) (x : Z) : httpclient_parser :=
  mkClientParser (cs P) (body_start P) (content_len P) (status P) x (chunks_done P) (close P)
    (nread P) (mark P) (field_start P) (field_len P).
Definition set_chunks_done (P : httpclient_parser) (x : Z) : httpclient_parser :=
  mkClientParser (cs P) (body_start P) (content_len P) (status P) (chunked P) x (close P)
    (nread P) (mark P) (field_start P) (field_len P).
Definition set_close (P : httpclient_parser) (x : Z) : httpclient_parser :=
  mkClientParser (cs P) (body_start P) (content_len P) (status P) (chunked P) (chunks_done P) x
    (nread P) (mark P) (field_start P) (field_len P).
Definition set_nread (P : httpclient_parser) (x : Z) : httpclient_parser :=
  mkClientParser (cs P) (body_start P) (content_len P) (status P) (chunked P) (chunks_done P) (close P)
    x (mark P) (field_start P) (field_len P).
Definition set_mark (P : httpclient_parser) (x : Z) : httpclient_parser :=
  mkClientParser (cs P) (body_start P) (content_len P) (status P) (chunked P) (chunks_done P) (close P)
    (nread P) x (field_start P) (field_len P).
Definition set_field_start (P : httpclient_parser) (x : Z) : httpclient_parser :=
  mkClientParser (cs P) (body_start P) (content_len P) (status P) (chunked P) (chunks_done P) (close P)
    (nread P) (mark P) x (field_len P).
Definition set_field_len (P : httpclient_parser) (x : Z) : httpclient_parser :=
  mkClientParser (cs P) (body_start P) (content_len P) (status P) (chunked P) (chunks_done P) (close P)
    (nread P) (mark P) (field_start P) x.

(** ** The machine *)
Definition response_case_map : gmap Z (Z -> label) := list_to_map response_cases.
Definition response_trans_map : gmap Z (list response_action * Z) := list_to_map response_trans.

Definition follow_response (l : label) : list response_action * Z :=
  match l with
  | st n => ([], n)
  | tr n => default ([], httpclient_parser_error) (response_trans_map !! n)
  end.

(** The actions of the jump out of a state, and the state it leads to. *)
Definition response_goto (cs c : Z) : list response_action * Z :=
  match response_case_map !! cs with
  | Some f => follow_response (f c)
  | None => ([], httpclient_parser_error)
  end.

(** ** The actions

    The memory that starts at [buffer] is [mem], and [len], the length handed to
    the function, is within it. *)
Section execute.
Context {D : Type}.

Record httpclient_callbacks : Type := {
  http_field : field_cb D;
  reason_phrase : element_cb D;
  status_code : element_cb D;
  chunk_size : element_cb D;
  http_version : element_cb D;
  header_done : element_cb D;
  last_chunk : element_cb D
}.
Context (cb : httpclient_callbacks) (mem : list ascii) (len : Z).

(** [strtol(PTR_TO(mark), NULL, base)] *)
Definition strtol_mark (strtol : string -> Z) (P : httpclient_parser) : outcome Z :=
  let! text := at_ mem (mark P) in Ret (i32 (strtol (string_of_list_ascii text))).

Definition run_response_action (a : response_action) (p : Z) (Pd : httpclient_parser * D)
    : outcome (httpclient_parser * D) :=
  let '(P, d) := Pd in
  match a with
  | Mark => Ret (set_mark P p, d)
  | StartField => Ret (set_field_start P p, d)
  | WriteField => Ret (set_field_len P (u64 (p - field_start P)), d)
  | ContentLen => let! n := strtol_mark strtol10 P in Ret (set_content_len P n, d)
  | ConnClose => Ret (set_close P 1, d)
  | WriteValue =>
      match http_field cb with
      | Some f =>
          let! name := at_ mem (field_start P) in
          let! value := at_ mem (mark P) in
          let! d := f d name (field_len P) value (u64 (p - mark P)) in Ret (P, d)
      | None => Ret (P, d)
      end
  | ReasonPhrase => let! d := element mem (reason_phrase cb) d (mark P) p in Ret (P, d)
  | StatusCode =>
      let! n := strtol_mark strtol10 P in
      let P := set_status P n in
      let! d := element mem (status_code cb) d (mark P) p in Ret (P, d)
  | HttpVersion => let! d := element mem (http_version cb) d (mark P) p in Ret (P, d)
  | ChunkSize =>
      let P := set_chunked P 1 in
      let! n := strtol_mark strtol16 P in
      let P := set_chunks_done (set_content_len P n) (if n <=? 0 then 1 else 0) in
      let f := match last_chunk cb with
               | Some f => if n <=? 0 then Some f else chunk_size cb
               | None => chunk_size cb
               end in
      let! d := element mem f d (mark P) p in Ret (P, d)
  | TransChunked => Ret (set_chunked P 1, d)
  | Done _ =>
      let P := set_body_start P (p + 1) in
      let! d := match header_done cb with
                | Some f => let! text := at_ mem (p + 1) in f d text (u64 (len - p - 1))
                | None => Ret d
                end in
      Ret (P, d)
  end.

(** The actions of a jump; a [Done n] among them leaves the program, with [p]
    advanced and [cs = n]. *)
Fixpoint run_response_actions (acts : list response_action) (p : Z) (Pd : httpclient_parser * D)
    : outcome (httpclient_parser * D * option Z) :=
  match acts with
  | [] => Ret (Pd, None)
  | a :: acts =>
      let! Pd := run_response_action a p Pd in
      match a with
      | Done n => Ret (Pd, Some n)
      | _ => run_response_actions acts p Pd
      end
  end.

(** The program of http_response_parser.cc. *)
Definition exec : list ascii -> Z -> Z -> httpclient_parser * D ->
    outcome (Z * Z * (httpclient_parser * D)) :=
  program (fun cs => bool_decide (is_Some (response_case_map !! cs)))
    (fun _ cs c => Ret (response_goto cs c)) run_response_actions.

(** [httpclient_parser_execute(parser, buffer, len, off)]: the [int] returned,
    the struct and the callbacks' data. The last three conditions are not
    assertions: where one fails, the result is -1. *)
Definition httpclient_parser_execute (P : httpclient_parser) (d : D) (off : Z)
    : outcome (Z * httpclient_parser * D) :=
  let P := set_field_start (set_field_len (set_mark (set_nread P 0) 0) 0) 0 in
  let! _ := cassert (off <=? len) in
  let! end_ := deref (mem !! Z.to_nat len) in
  let! _ := cassert (schar end_ =? 0) in
  let! diff := signed 32 (i32 len - i32 off) in
  let! _ := cassert (len - off =? diff) in
  let! r := exec (drop (Z.to_nat off) (take (Z.to_nat len) mem)) (cs P) off (P, d) in
  let '(cs, p, (P, d)) := r in
  let P := set_nread (set_cs P cs) (u64 (nread P + (p - off))) in
  let! _ := cassert (p <=? len) in
  let! _ := cassert (nread P <=? len) in
  let! _ := cassert (body_start P <=? len) in
  if (mark P <? len) && (field_len P <=? len) && (field_start P <? len)
  then Ret (i32 (nread P), P, d)
  else Ret (-1, P, d).
End execute.
Arguments httpclient_callbacks : clear implicits.

(** ** HttpResponseParser

    The callbacks change the members [m_data] and [m_error]. *)
Definition Data : Set := HttpResponse * Z.

Definition on_response_reason (d : Data) (text : list ascii) (length : Z) : outcome Data :=
  let! s := string_at text length in Ret (rsp_setReason d.1 s, d.2).
Definition on_response_status (d : Data) (text : list ascii) (_ : Z) : outcome Data :=
  Ret (rsp_setStatus d.1 (atoi (string_of_list_ascii text)), d.2).
Definition on_response_chunk (d : Data) (_ : list ascii) (_ : Z) : outcome Data := Ret d.
Definition on_response_version (d : Data) (text : list ascii) (length : Z) : outcome Data :=
  match version_at text length with
  | Some v => Ret (rsp_setVersion d.1 v, d.2)
  | None => Ret (d.1, 1001)
  end.
Definition on_response_header_done (d : Data) (_ : list ascii) (_ : Z) : outcome Data := Ret d.
Definition on_response_last_chunk (d : Data) (_ : list ascii) (_ : Z) : outcome Data := Ret d.
Definition on_response_http_field (d : Data) (field : list ascii) (flen : Z)
    (value : list ascii) (vlen : Z) : outcome Data :=
  if flen =? 0 then Ret d
  else
    let! f := string_at field flen in
    let! v := string_at value vlen in
    Ret (rsp_setHeaderEntry d.1 f v, d.2).

Definition response_callbacks : httpclient_callbacks Data := {|
  http_field := Some on_response_http_field;
  reason_phrase := Some on_response_reason;
  status_code := Some on_response_status;
  chunk_size := Some on_response_chunk;
  http_version := Some on_response_version;
  header_done := Some on_response_header_done;
  last_chunk := Some on_response_last_chunk
|}.

Record HttpResponseParser : Set := mkHttpResponseParser {
  m_parser : httpclient_parser;
  m_data : HttpResponse;
  m_error : Z
}.

Definition new_HttpResponseParser : HttpResponseParser :=
  mkHttpResponseParser (httpclient_parser_init (mkClientParser 0 0 0 None 0 0 0 0 0 0 0))
    new_HttpResponse 0.

(** [execute(data, len, chunck)] with the memory [mem] at [data]: the value
    returned, the memory, to whose front the characters not read are moved, and
    the object. A failed parse returns -1 as a [size_t]: the source of the move
    is then in front of the buffer. *)
Definition execute (R : HttpResponseParser) (mem : list ascii) (len : Z) (chunck : bool)
    : outcome (Z * list ascii * HttpResponseParser) :=
  let P := if chunck then httpclient_parser_init (m_parser R) else m_parser R in
  let! r := httpclient_parser_execute response_callbacks mem len P (m_data R, m_error R) 0 in
  let '(result, P, (rsp, err)) := r in
  let offset := u64 result in
  if offset <=? len then
    let left_ := drop (Z.to_nat offset) (take (Z.to_nat len) mem) in
    Ret (offset, left_ ++ drop (List.length left_) mem, mkHttpResponseParser P rsp err)
  else Fault Undefined.

Definition isFinished (R : HttpResponseParser) : Z := httpclient_parser_finish (m_parser R).
Definition hasError (R : HttpResponseParser) : bool :=
  negb (m_error R =? 0) || httpclient_parser_has_error (m_parser R).
Definition getData (R : HttpResponseParser) : HttpResponse := m_data R.
Definition getParser (R : HttpResponseParser) : httpclient_parser := m_parser R.
Definition setError (R : HttpResponseParser) (v : Z) : HttpResponseParser :=
  mkHttpResponseParser (m_parser R) (m_data R) v.
Definition getContentLength (lexical_cast : string -> option Z) (R : HttpResponseParser) : Z :=
  (rsp_getHeaderEntryAs lexical_cast (m_data R) "content-length" 0).2.

(** ** Examples *)
Definition terminated (s : string) : list ascii := list_ascii_of_string s ++ ["000"%char].

Example parse_response :
  let text := ("HTTP/1.1 200 OK" ++ crlf ++ "Content-Length: 4" ++ crlf ++ "connection: close" ++ crlf
               ++ crlf ++ "body")%string in
  match execute new_HttpResponseParser (terminated text) (Z.of_nat (String.length text)) false with
  | Ret (n, mem, R) =>
      (string_of_list_ascii (take 4 mem), isFinished R, hasError R) = ("body"%string, 1, false) /\
      (rsp_status (m_data R), rsp_version (m_data R), rsp_reason (m_data R), rsp_headers (m_data R)) =
      (200, 0x11, "OK", [("connection", "close"); ("Content-Length", "4")])%string /\
      (content_len (m_parser R), close (m_parser R)) = (4, 1)
  | Fault _ => False
  end.
Proof. vm_compute. done. Qed.
Example parse_chunk :
  match execute new_HttpResponseParser (terminated ("1a;x=y" ++ crlf ++ "data")) 12 true with
  | Ret (n, _, R) => (n, isFinished R, content_len (m_parser R), chunks_done (m_parser R)) = (8, 1, 26, 0)
  | Fault _ => False
  end.
Proof. vm_compute. done. Qed.
