(* ===== verification/HttpResponseCheck.v ===== *)
(** * The response machine against its grammar

    The machine of HttpResponseTable.v as an automaton, the certificate that
    compares it with the grammar of HttpGrammar.v, and the language it decides. *)
From stdpp Require Import base list gmap strings.
From Stdlib Require Import ZArith Ascii String Lia.
From S2P Require Import Prelude CLib RegExp Ragel HttpResponseTable HttpResponseParser HttpGrammar.
Open Scope Z_scope.

(** ** Character classes of the machine *)
Definition response_classes : list (Z * Z * Z) :=
  [(-128, 8, -128); (9, 9, 9); (10, 10, 10); (11, 12, 9); (13, 13, 13); (14,
   31, -128); (32, 32, 32); (33, 33, 33); (34, 34, -128); (35, 39, 33); (40,
   41, -128); (42, 43, 33); (44, 44, -128); (45, 45, 45); (46, 46, 46); (47,
   47, 47); (48, 57, 48); (58, 58, 58); (59, 59, 59); (60, 60, -128); (61,
   61, 61); (62, 64, -128); (65, 65, 65); (66, 66, 66); (67, 67, 67); (68,
   68, 68); (69, 69, 69); (70, 70, 70); (71, 71, 71); (72, 72, 72); (73, 73,
   73); (74, 74, 33); (75, 75, 75); (76, 76, 76); (77, 77, 33); (78, 78,
   78); (79, 79, 79); (80, 80, 80); (81, 81, 33); (82, 82, 82); (83, 83,
   83); (84, 84, 84); (85, 85, 85); (86, 90, 33); (91, 93, -128); (94, 96,
   33); (97, 97, 65); (98, 98, 66); (99, 99, 67); (100, 100, 68); (101, 101,
   69); (102, 102, 70); (103, 103, 71); (104, 104, 104); (105, 105, 73);
   (106, 106, 33); (107, 107, 75); (108, 108, 76); (109, 109, 33); (110,
   110, 78); (111, 111, 79); (112, 113, 33); (114, 114, 82); (115, 115, 83);
   (116, 116, 116); (117, 117, 85); (118, 122, 33); (123, 123, -128); (124,
   124, 33); (125, 125, -128); (126, 126, 33); (127, 127, -128)].
Definition response_class : Z -> Z := class_of response_classes.
Definition response_reps : list Z := remove_dups (map snd response_classes).

Lemma response_classes_ok : classes_respected response_class response_cases = true.
Proof. vm_cast_no_check (eq_refl true). Qed.

Lemma response_goto_class q c :
  char_range c -> response_goto q c = response_goto q (response_class c).
Proof.
  intros Hc. unfold response_goto, response_case_map.
  generalize response_classes_ok. generalize response_cases. intros cases H.
  destruct (list_to_map cases !! q) as [f|] eqn:E; [|done].
  apply elem_of_list_to_map_2 in E.
  by rewrite (classes_respected_lookup response_class _ _ _ c H E Hc).
Qed.

(** ** The automaton

    Unlike the parser, it goes on behind a final state. *)
Definition response_final (q : Z) : bool := httpclient_parser_first_final <=? q.
Definition response_next (q c : Z) : Z := (response_goto q c).2.

Definition response_certificate : certificate :=
  Eval vm_compute in make_certificate 2000 response_next 1 response_reps Response.main.

Lemma response_check :
  dfa_check response_next response_final response_class Response.main 1 response_certificate = true.
Proof. vm_cast_no_check (eq_refl true). Qed.

Lemma response_language w :
  Forall char_range w ->
  response_final (fold_left response_next w 1) = true <-> matches Response.main w.
Proof.
  apply (dfa_check_sound _ _ _ _ _ _ response_check).
  intros q ids c _ Hc. unfold response_next. by rewrite (response_goto_class q c Hc).
Qed.

(** ** Every state but 0 and 120 leads to a final one *)
Definition response_states : list Z :=
  filter (fun q => response_final q = false) (map fst response_cases).

Definition response_alive : list (Z * Z) :=
  Eval vm_compute in
    alive_rounds 60 (map (fun q => (q, map (fun c => (c, response_next q c)) response_reps))
                         ([121; 122; 123] ++ response_states)) response_final ∅.

Definition response_alive_check : bool :=
  match alive_ok response_next response_final ∅ response_alive with
  | Some s => forallb (fun q => bool_decide (q ∈ s)) ([121; 122; 123] ++ response_states)
  | None => false
  end.

Lemma response_alive_ok : response_alive_check = true.
Proof. vm_cast_no_check (eq_refl true). Qed.

#[local] Opaque response_states response_alive.

Lemma response_completes q :
  q ∈ [121; 122; 123] ++ response_states -> completes response_next response_final q.
Proof.
  pose proof response_alive_ok as H. unfold response_alive_check in H.
  destruct (alive_ok _ _ _ _) as [s|] eqn:E; [|discriminate H].
  exact (alive_completes _ _ _ _ _ _ _ E eq_refl H).
Qed.
