(* ===== verification/HttpResponseSafe.v ===== *)
(** * What the response parser decides, and which memory it reads

    On a buffer that holds the beginning of a response, the parser fails no
    assertion, stops at the end of the first response head or chunk header of
    the grammar, or at the first character behind which there is none. It may
    read up to 17 characters behind the buffer's end: a field whose value was to
    follow on the next line leaves the length of its name to the next field. *)
From stdpp Require Import base list gmap strings.
From Stdlib Require Import ZArith Ascii String Lia.
From S2P Require Import Prelude CLib RegExp Ragel Http HttpCommon HttpResponseTable.
From S2P Require Import HttpResponseParser HttpGrammar HttpResponseCheck.
Open Scope Z_scope.

(** ** What the machine knows of the current field

    [known ok off flen]: the field's name ends before [p]; [p] is [off]
    characters behind its start; its length is [flen]. *)
Record known : Set := Known { ok : bool; off : option Z; flen : option Z }.

Definition range (lo hi : Z) (q : Z) : bool := (lo <=? q) && (q <=? hi).

(** Behind [k] characters of the names transfer-encoding and content-length, and
    behind such a name. *)
Definition state_known (q : Z) : known :=
  Known
    (negb (one_of [3; 5; 20; 24; 43; 71; 88; 117] q || range 21 21 q || range 25 34 q ||
           range 44 60 q || range 73 79 q || range 90 94 q || range 101 111 q))
    (if one_of [73; 90] q then Some 1
     else if range 44 60 q then Some (q - 43)
     else if range 25 27 q then Some (q - 24)
     else if range 101 111 q then Some (q - 97)
     else None)
    (if one_of [61; 62; 80] q || range 73 79 q then Some 17
     else if one_of [112; 113; 117; 118] q then Some 14
     else None).

(** How much of the memory behind the buffer a name may reach into. *)
Definition slack : Z := 17.

(** What is known behind an action, [None] when it uses a field that is not
    known to be in the memory. *)
Definition abs_action (a : response_action) (k : known) : option known :=
  match a with
  | StartField => Some (Known false (Some 0) (flen k))
  | WriteField => Some (Known true (off k) (off k))
  | WriteValue =>
      if ok k || match flen k with Some l => (0 <=? l) && (l <=? slack) | None => false end
      then Some k else None
  | _ => Some k
  end.

Fixpoint abs_actions (acts : list response_action) (k : known) : option known :=
  match acts with
  | [] => Some k
  | Done _ :: _ => Some k
  | a :: acts => match abs_action a k with Some k => abs_actions acts k | None => None end
  end.

Definition no_done (acts : list response_action) : bool :=
  forallb (fun a => match a with Done _ => false | _ => true end) acts.

(** What is known in one state is no more than what another and a step give. *)
Definition weaker (k' k : known) : bool :=
  implb (ok k') (ok k) &&
  match off k' with
  | Some o' => match off k with Some o => o' =? o + 1 | None => false end
  | None => true
  end &&
  match flen k' with Some _ => bool_decide (flen k' = flen k) | None => true end.

(** A jump keeps to what is known, has its [Done] at the end, and leads to a
    state that has a case. *)
Definition jump_safe (q : Z) (g : list response_action * Z) : bool :=
  let '(acts, n) := g in
  forallb (fun a => match a with Done m => m =? n | _ => true end) acts &&
  match abs_actions acts (state_known q) with
  | None => false
  | Some k =>
      if no_done acts then
        if n =? 0 then bool_decide (acts = [])
        else negb (response_final n) && bool_decide (is_Some (response_case_map !! n)) &&
             weaker (state_known n) k
      else response_final n
  end.

#[export] Instance response_action_eq_dec : EqDecision response_action.
Proof. solve_decision. Defined.

Lemma rsp_jumps_safe_ok :
  forallb (fun q => forallb (fun c => jump_safe q (response_goto q c)) response_reps)
    (map fst response_cases) = true.
Proof. vm_compute. reflexivity. Qed.

(** ** Actions *)
Definition marks (P : httpclient_parser) (n : Z) : Prop :=
  0 <= mark P <= n /\ 0 <= field_start P <= n /\ 0 <= field_len P <= n.

Lemma rsp_marks_weaken P n m : marks P n -> n <= m -> marks P m.
Proof. unfold marks. lia. Qed.

Definition holds (k : known) (P : httpclient_parser) (p : Z) : Prop :=
  (ok k = true -> field_start P + field_len P <= p) /\
  (forall o, off k = Some o -> p = field_start P + o) /\
  (forall l, flen k = Some l -> field_len P = l).

Definition same (P P' : httpclient_parser) : Prop := nread P' = nread P.

Lemma rsp_holds_weaken k k' P p : weaker k' k = true -> holds k P p -> holds k' P (p + 1).
Proof.
  destruct k as [o f l], k' as [o' f' l']. unfold weaker, holds. simpl.
  intros [[Ho Hf]%andb_true_iff Hl]%andb_true_iff (H1 & H2 & H3). split_and!.
  - intros ->. destruct o; [|done]. specialize (H1 eq_refl). lia.
  - intros x ->. destruct f as [y|]; [|done]. apply Z.eqb_eq in Hf. specialize (H2 y eq_refl). lia.
  - intros x ->. apply bool_decide_eq_true in Hl. by apply H3.
Qed.

Lemma rsp_total_version : total_cb on_response_version.
Proof. intros d text n _. unfold on_response_version. destruct (version_at text n); eauto. Qed.
Lemma total_status : total_cb on_response_status.
Proof. intros d text n _. unfold on_response_status. eauto. Qed.

Section safe.
Context (mem : list ascii) (N : Z) (Hroom : N + slack <= len mem) (Hsize : len mem < 2 ^ 62).

Lemma strtol_mark_ok f P p : 0 <= p < N -> marks P p -> exists n, strtol_mark mem f P = Ret n.
Proof.
  unfold slack in Hroom. intros Hp (Hm & _). unfold strtol_mark.
  destruct (at_ok mem (mark P)) as (t & -> & _); [lia|]. eexists. reflexivity.
Qed.

Lemma element_safe f (d : Data) s p :
  total_cb f -> 0 <= s <= p -> p < N -> exists d', element mem (Some f) d s p = Ret d'.
Proof. unfold slack in Hroom. intros Hf Hs Hp. apply element_ok; [lia|done|done|lia]. Qed.

Lemma field_safe d s n m k :
  0 <= n -> 0 <= s -> s + n <= len mem -> 0 <= m -> 0 <= k -> m + k <= len mem ->
  exists d', (let! name := at_ mem s in let! value := at_ mem m in
              on_response_http_field d name n value k) = Ret d'.
Proof.
  intros. destruct (at_ok mem s) as (t1 & -> & Ht1); [lia|]. destruct (at_ok mem m) as (t2 & -> & Ht2); [lia|].
  cbn [obind]. unfold on_response_http_field. destruct (n =? 0); [eauto|].
  destruct (string_at_ok t1 n) as [s1 ->]; [lia|]. destruct (string_at_ok t2 k) as [s2 ->]; [lia|].
  cbn [obind]. eauto.
Qed.

(** The text of the name is in the memory when [WriteValue] uses it. *)
Lemma write_value_safe P d p k :
  0 <= p < N -> marks P p -> holds k P p ->
  ok k || match flen k with Some l => (0 <=? l) && (l <=? slack) | None => false end = true ->
  exists d', run_response_action response_callbacks mem N WriteValue p (P, d) = Ret (P, d').
Proof.
  unfold slack in *. intros Hp (Hm & Hfs & Hfl) (H1 & _ & H3) Hk.
  assert (field_start P + field_len P <= len mem) as Hin.
  { apply orb_true_iff in Hk as [Hk|Hk]; [specialize (H1 Hk); lia|].
    destruct (flen k) as [l|]; [|done]. specialize (H3 l eq_refl).
    apply andb_true_iff in Hk as [_ Hk%Z.leb_le]. lia. }
  destruct (field_safe d (field_start P) (field_len P) (mark P) (u64 (p - mark P))) as [d' E];
    try lia; [rewrite wrapu_small by lia; lia|rewrite wrapu_small by lia; lia|].
  exists d'. cbn [run_response_action http_field response_callbacks]. revert E.
  generalize (at_ mem (field_start P)), (at_ mem (mark P)).
  intros [t1|] [t2|]; cbn [obind]; try discriminate. by intros ->.
Qed.

Lemma rsp_action_safe a p P d k k' :
  0 <= p < N -> marks P p -> holds k P p -> (forall n, a <> Done n) -> abs_action a k = Some k' ->
  exists P' d', run_response_action response_callbacks mem N a p (P, d) = Ret (P', d') /\
    marks P' p /\ holds k' P' p /\ same P P' /\ body_start P' = body_start P.
Proof.
  intros Hp HP Hk Ha Habs. pose proof HP as (? & ? & ?).
  destruct a as [| | | | | | | | | | |n]; cbn [abs_action] in Habs.
  - injection Habs as <-. exists (set_mark P p), d. split_and!; [done| |done..].
    unfold marks. cbn [set_mark mark field_start field_len]. lia.
  - injection Habs as <-. exists (set_field_start P p), d. split_and!; [done| | |done|done].
    + unfold marks. cbn [set_field_start mark field_start field_len]. lia.
    + split_and!; [done| |apply Hk]. intros o [= <-]. cbn [set_field_start field_start]. lia.
  - injection Habs as <-. exists (set_field_len P (u64 (p - field_start P))), d.
    cbn [run_response_action]. unfold slack in Hroom. rewrite wrapu_small by lia.
    destruct Hk as (_ & H2 & _).
    split_and!; [done| | |done|done].
    + unfold marks. cbn [set_field_len mark field_start field_len]. lia.
    + split_and!; cbn [ok off flen set_field_len field_start field_len].
      * lia.
      * intros o Ho. by apply H2.
      * intros l Hl. specialize (H2 l Hl). lia.
  - injection Habs as <-. cbn [run_response_action].
    destruct (strtol_mark_ok strtol10 P p Hp HP) as [n ->]. by exists (set_content_len P n), d.
  - injection Habs as <-. by exists (set_close P 1), d.
  - destruct (_ || _) eqn:Ek; [|done]. injection Habs as <-.
    destruct (write_value_safe P d p k Hp HP Hk Ek) as [d' E]. by exists P, d'.
  - injection Habs as <-. cbn [run_response_action reason_phrase response_callbacks].
    destruct (element_safe on_response_reason d (mark P) p) as [d' ->]; [apply total_string|lia|lia|].
    by exists P, d'.
  - injection Habs as <-. cbn [run_response_action status_code response_callbacks].
    destruct (strtol_mark_ok strtol10 P p Hp HP) as [n ->]. cbn [obind set_status mark].
    destruct (element_safe on_response_status d (mark P) p) as [d' ->]; [apply total_status|lia|lia|].
    by exists (set_status P n), d'.
  - injection Habs as <-. cbn [run_response_action http_version response_callbacks].
    destruct (element_safe on_response_version d (mark P) p) as [d' ->]; [apply rsp_total_version|lia|lia|].
    by exists P, d'.
  - injection Habs as <-. cbn [run_response_action last_chunk chunk_size response_callbacks].
    change (strtol_mark mem strtol16 (set_chunked P 1)) with (strtol_mark mem strtol16 P).
    destruct (strtol_mark_ok strtol16 P p Hp HP) as [n ->]. cbn [obind].
    cbn [set_chunks_done set_content_len set_chunked mark].
    destruct (element_safe (fun d _ _ => Ret d) d (mark P) p) as [d' E]; [apply total_skip|lia|lia|].
    exists (set_chunks_done (set_content_len (set_chunked P 1) n) (if n <=? 0 then 1 else 0)), d'. split.
    + destruct (n <=? 0); [change on_response_last_chunk with (fun (d : Data) (_ : list ascii) (_ : Z) => Ret d)
                          |change on_response_chunk with (fun (d : Data) (_ : list ascii) (_ : Z) => Ret d)];
        rewrite E; reflexivity.
    + done.
  - injection Habs as <-. by exists (set_chunked P 1), d.
  - by destruct (Ha n).
Qed.

Lemma rsp_done_safe n p P d :
  0 <= p < N -> marks P p ->
  exists P' d', run_response_action response_callbacks mem N (Done n) p (P, d) = Ret (P', d') /\
    marks P' p /\ same P P' /\ body_start P' = p + 1.
Proof.
  unfold slack in Hroom. intros Hp HP. cbn [run_response_action header_done response_callbacks].
  destruct (at_ok mem (p + 1)) as (text & -> & _); [lia|]. cbn [obind]. by eexists _, d.
Qed.

(** The actions of a jump: a [Done] in them is the last one, with the state [n]. *)
Lemma rsp_actions_safe acts p P d k k' n :
  0 <= p < N -> marks P p -> holds k P p -> 0 <= body_start P <= N ->
  abs_actions acts k = Some k' ->
  forallb (fun a => match a with Done m => m =? n | _ => true end) acts = true ->
  exists P' d' o, run_response_actions response_callbacks mem N acts p (P, d) = Ret (P', d', o) /\
    marks P' p /\ same P P' /\ 0 <= body_start P' <= N /\
    (o = None /\ no_done acts = true /\ holds k' P' p \/ o = Some n /\ no_done acts = false).
Proof.
  intros Hp. revert P d k. induction acts as [|a acts IH]; intros P d k HP Hk Hb Habs Hn; simpl in Habs, Hn.
  - injection Habs as <-. exists P, d, None. split_and!; [done|done|done|lia|lia|by left].
  - apply andb_true_iff in Hn as [Ha Hn]. cbn [run_response_actions].
    destruct (match a with Done _ => true | _ => false end) eqn:Hd.
    + destruct a; try done.
      destruct (rsp_done_safe n0 p P d Hp HP) as (P' & d' & -> & HP' & Hs & Hb').
      apply Z.eqb_eq in Ha as ->. exists P', d', (Some n). split_and!; [done|done|done|lia|lia|by right].
    + destruct (abs_action a k) as [k1|] eqn:E1; [|by destruct a].
      assert (forall n, a <> Done n) as Hnd by (by intros m ->).
      destruct (rsp_action_safe a p P d k k1 Hp HP Hk Hnd E1) as (P1 & d1 & -> & HP1 & Hk1 & Hs1 & Hb1).
      destruct (IH P1 d1 k1 HP1 Hk1) as (P2 & d2 & o & E2 & HP2 & Hs2 & Hb2 & Ho);
        [by rewrite Hb1|by destruct a|done|].
      exists P2, d2, o. split_and!; [|done|by unfold same in *; congruence|lia|lia|].
      * destruct a; try discriminate Hd; exact E2.
      * destruct a; try done; exact Ho.
Qed.

(** ** The program *)
Lemma rsp_active_case q :
  q ∈ response_states -> is_Some (response_case_map !! q) /\ response_final q = false.
Proof.
  unfold response_states. intros [Hf Hq]%list_elem_of_filter. split; [|exact Hf].
  exact (lookup_map_fst _ _ Hq).
Qed.

Lemma rsp_case_active q :
  is_Some (response_case_map !! q) -> response_final q = false -> q ∈ response_states.
Proof.
  unfold response_states. intros Hk Hf. apply list_elem_of_filter. split; [exact Hf|].
  exact (map_fst_lookup _ _ Hk).
Qed.

Lemma rsp_class_rep c : char_range c -> response_class c ∈ response_reps.
Proof.
  intros Hc%all_chars_spec.
  assert (forallb (fun c => bool_decide (response_class c ∈ response_reps)) all_chars = true) as H
    by (vm_cast_no_check (eq_refl true)).
  rewrite forallb_forall in H. by apply H, bool_decide_eq_true in Hc.
Qed.

Lemma rsp_jump_safe_at q c :
  q ∈ response_states -> char_range c -> jump_safe q (response_goto q c) = true.
Proof.
  intros Hq Hc. rewrite (response_goto_class q c Hc). unfold response_states in Hq.
  apply list_elem_of_filter in Hq as [_ Hq].
  exact (forallb_grid (fun q c => jump_safe q (response_goto q c)) _ _ _ _ rsp_jumps_safe_ok Hq (rsp_class_rep c Hc)).
Qed.

#[local] Opaque response_states response_case_map response_goto.

(** One step of the machine is safe. *)
Lemma rsp_step_safe q a rest p P d :
  q ∈ response_states -> 0 <= p < N ->
  marks P p -> holds (state_known q) P p -> 0 <= body_start P <= N ->
  let n := response_next q (schar a) in
  exists P' d',
    exec response_callbacks mem N (a :: rest) q p (P, d) =
      (if n =? 0 then Ret (0, p, (P', d'))
       else if response_final n then Ret (n, p + 1, (P', d'))
       else exec response_callbacks mem N rest n (p + 1) (P', d')) /\
    marks P' p /\ same P P' /\ 0 <= body_start P' <= N /\
    (n = 0 \/ response_final n = true \/ n ∈ response_states /\ holds (state_known n) P' (p + 1)).
Proof.
  intros Hq Hp HP Hk Hb n. destruct (rsp_active_case q Hq) as [Hcase Hfin].
  pose proof (rsp_jump_safe_at q (schar a) Hq (schar_range a)) as Hj.
  unfold exec. rewrite (program_step _ _ _ a rest q p (P, d) (response_goto q (schar a)).1 n);
    [|by apply bool_decide_true|by unfold n, response_next; destruct (response_goto q (schar a))].
  subst n. unfold response_next. destruct (response_goto q (schar a)) as [acts n]. cbn [fst snd jump_safe] in *.
  apply andb_true_iff in Hj as [Hm Hj].
  destruct (abs_actions acts (state_known q)) as [k|] eqn:Ha; [|done].
  destruct (rsp_actions_safe acts p P d _ k n Hp HP Hk Hb Ha Hm) as (P' & d' & o & -> & HP' & Hs & Hb' & Ho).
  cbn [obind]. exists P', d'. destruct Ho as [(-> & Hnd & Hk')|(-> & Hnd)]; rewrite Hnd in Hj.
  - destruct (Z.eqb_spec n 0) as [E|E].
    + split_and!; [done|done|done|lia|lia|by left].
    + apply andb_true_iff in Hj as [[Hf%negb_true_iff Hc%bool_decide_eq_true]%andb_true_iff Hw].
      rewrite Hf. split_and!; [done|done|done|lia|lia|]. right. right.
      split; [by apply rsp_case_active|]. by apply (rsp_holds_weaken k).
  - destruct (Z.eqb_spec n 0) as [E|E]; [by rewrite E in Hj|]. rewrite Hj.
    split_and!; [done|done|done|lia|lia|]. by right; left.
Qed.

(** The invariant of the program, and what is left of it at its end. *)
Definition inv (P0 : httpclient_parser) (q p : Z) (Pd : httpclient_parser * Data) : Prop :=
  marks Pd.1 (Z.max 0 (p - 1)) /\ holds (state_known q) Pd.1 p /\
  same P0 Pd.1 /\ 0 <= body_start Pd.1 <= N.
Definition settled (P0 : httpclient_parser) (Pd : httpclient_parser * Data) : Prop :=
  marks Pd.1 (N - 1) /\ same P0 Pd.1 /\ 0 <= body_start Pd.1 <= N.

Lemma rsp_exec_safe text P d :
  0 < N -> len text = N -> inv P 1 0 (P, d) -> 1 ∈ response_states ->
  exists q k P' d',
    exec response_callbacks mem N text 1 0 (P, d) = Ret (q, k, (P', d')) /\
    reading response_next response_final response_states text 1 q k /\
    0 <= k <= len text /\ settled P (P', d').
Proof.
  intros Hne Ht HI H1.
  destruct (program_safe response_next response_final response_states
    (fun cs => bool_decide (is_Some (response_case_map !! cs)))
    (fun _ cs c => Ret (response_goto cs c)) (run_response_actions response_callbacks mem N)
    N (inv P) (settled P)) with (rest := text) (q := 1) (p := 0) (s := @pair httpclient_parser Data P d)
    as (q & k & [P' d'] & E & H); [| |done|lia|lia|done|done|].
  - intros q p [P1 d1] Hp _ (HP & _ & Hs & Hb). split_and!; [|done|apply Hb|apply Hb].
    apply (rsp_marks_weaken _ _ _ HP). lia.
  - intros q a rest p [P1 d1] Hq Hp (HP & Hk & Hs & Hb) n.
    destruct (rsp_step_safe q a rest p P1 d1 Hq Hp) as (P2 & d2 & E & HP2 & Hs2 & Hb2 & Hn);
      [by apply (rsp_marks_weaken _ _ _ HP); lia|done|done|].
    assert (same P P2) as Hs' by (unfold same in *; simpl in *; congruence).
    exists (P2, d2). split; [exact E|]. split.
    + split_and!; [|done|apply Hb2|apply Hb2]. apply (rsp_marks_weaken _ _ _ HP2). lia.
    + destruct Hn as [?|[?|[Hact Hk2]]]; [by left|by right; left|]. right; right.
      split; [done|]. split_and!; [|done..|apply Hb2|apply Hb2].
      apply (rsp_marks_weaken _ _ _ HP2). lia.
  - exists q, k, P', d'. split; [exact E|]. exact H.
Qed.
End safe.

#[local] Opaque response_states response_case_map response_goto exec.

(** ** [execute] around the program *)
Definition reset (P : httpclient_parser) : httpclient_parser :=
  set_field_start (set_field_len (set_mark (set_nread P 0) 0) 0) 0.
Definition start_parser (R : HttpResponseParser) (chunck : bool) : httpclient_parser :=
  reset (if chunck then httpclient_parser_init (m_parser R) else m_parser R).

(** The buffer of [N] characters in the memory, with the NUL behind it. *)
Definition buffer_of (mem : list ascii) (N : Z) : list ascii := take (Z.to_nat N) mem.
Definition nul_ended (mem : list ascii) (N : Z) : Prop := mem !! Z.to_nat N = Some "000"%char.

Lemma buffer_length mem N : 0 <= N -> nul_ended mem N -> len (buffer_of mem N) = N /\ N < len mem.
Proof.
  intros HN H. apply lookup_lt_Some in H as Hl. unfold buffer_of. rewrite length_take. lia.
Qed.

Lemma rsp_execute_exec R mem N chunck q p P d :
  0 < N < 2 ^ 31 -> nul_ended mem N ->
  exec response_callbacks mem N (buffer_of mem N) (cs (start_parser R chunck)) 0
    (start_parser R chunck, (m_data R, m_error R)) = Ret (q, p, (P, d)) ->
  nread P = 0 -> 0 <= p <= N -> body_start P <= N -> marks P (N - 1) ->
  execute R mem N chunck =
  Ret (p, drop (Z.to_nat p) (buffer_of mem N) ++
          drop (List.length (drop (Z.to_nat p) (buffer_of mem N))) mem,
       mkHttpResponseParser (set_nread (set_cs P q) p) d.1 d.2).
Proof.
  intros Hd Hnul E Hn Hp Hb (? & ? & ?). unfold execute, httpclient_parser_execute.
  rewrite Hnul. unfold cassert, signed. rewrite (proj2 (Z.leb_le 0 _)) by lia. cbn [obind deref].
  change (schar "000" =? 0) with true. cbn [obind].
  assert (in_int 32 N = true) as Hi.
  { unfold in_int. change (2 ^ (32 - 1)) with (2 ^ 31).
    apply andb_true_iff. split; [apply Z.leb_le|apply Z.ltb_lt]; lia. }
  rewrite (wraps_small 32 N), (wraps_small 32 0), Z.sub_0_r by (done || exact Hi).
  rewrite Hi. cbn [obind]. rewrite Z.eqb_refl. cbn [obind].
  change (Z.to_nat 0) with 0%nat. rewrite drop_0.
  change (set_field_start (set_field_len (set_mark (set_nread _ 0) 0) 0) 0) with (start_parser R chunck).
  fold (buffer_of mem N).
  match goal with |- context [exec ?cb ?b ?n ?t ?q ?p ?x] =>
    change (exec cb b n t q p x) with (exec response_callbacks mem N (buffer_of mem N)
      (cs (start_parser R chunck)) 0 (start_parser R chunck, (m_data R, m_error R))) end.
  rewrite E. cbn [obind]. change (nread (set_cs P q)) with (nread P).
  rewrite Hn, Z.add_0_l, Z.sub_0_r, wrapu_small by lia.
  cbn [set_nread set_cs nread body_start mark field_len field_start].
  rewrite !(proj2 (Z.leb_le _ _)), !(proj2 (Z.ltb_lt _ _)) by lia. cbn [obind andb].
  assert (in_int 32 p = true) as Hip.
  { unfold in_int. change (2 ^ (32 - 1)) with (2 ^ 31).
    apply andb_true_iff. split; [apply Z.leb_le|apply Z.ltb_lt]; lia. }
  destruct d as [rsp err]. rewrite (wraps_small 32 p) by exact Hip || done.
  rewrite wrapu_small by lia. by rewrite (proj2 (Z.leb_le p N)) by lia.
Qed.

(** ** What has been read *)
Abbreviation chars data := (map schar data).
Definition response_of (w : list Z) : Prop := matches Response.main w.

Lemma next_fixed q : q = 0 \/ q = 120 -> forall w, w <> [] -> fold_left response_next w q = 0.
Proof.
  assert (forall c, response_next 0 c = 0) as H0
    by (intros c; with_strategy transparent [response_goto response_case_map] reflexivity).
  assert (forall c, response_next 120 c = 0) as H1
    by (intros c; with_strategy transparent [response_goto response_case_map] reflexivity).
  assert (forall w, fold_left response_next w 0 = 0) as H.
  { induction w as [|c w IH]; [done|]. simpl. by rewrite H0. }
  intros Hq [|c w] Hw; [done|]. simpl. destruct Hq as [-> | ->]; [by rewrite H0|by rewrite H1].
Qed.

Lemma rsp_active_viable w :
  Forall char_range w -> fold_left response_next w 1 ∈ response_states ->
  ~ response_of w /\ viable response_of w.
Proof.
  intros Hw Hq. split.
  - apply (state_unread _ _ _ _ response_language w Hw). by apply rsp_active_case.
  - apply (state_viable _ _ _ _ response_language w Hw), response_completes.
    apply elem_of_app. by right.
Qed.

Lemma rsp_active_unfinished q P : q ∈ response_states -> httpclient_parser_finish (set_cs P q) = 0.
Proof.
  intros Hq. destruct (rsp_active_case q Hq) as [[k Hk] Hf].
  unfold httpclient_parser_finish, httpclient_parser_has_error, httpclient_parser_is_finished.
  cbn [set_cs cs]. unfold httpclient_parser_error.
  unfold response_final in Hf. apply Z.leb_gt in Hf.
  destruct (Z.eqb_spec q 0) as [->|]; [|by destruct (Z.eqb_spec q httpclient_parser_first_final); [lia|]].
  assert (response_case_map !! 0 = None) as E
    by (with_strategy transparent [response_case_map] vm_compute; reflexivity).
  congruence.
Qed.

(** What a buffer is, and the answer of the parser. *)
Definition answers (data : list ascii) (n answer : Z) : Prop :=
  let read := chars (take (Z.to_nat n) data) in
  (forall j : nat, Z.of_nat j < n -> ~ response_of (chars (take j data))) /\
  ((answer = 1 /\ response_of read /\ ~ extendable response_of read) \/
   (answer = 0 /\ response_of read /\ extendable response_of read) \/
   (answer = 0 /\ n = len data /\ ~ response_of read /\ viable response_of read) \/
   (answer = -1 /\ n < len data /\ ~ response_of read /\ viable response_of read /\
    ~ viable response_of (chars (take (Z.to_nat (n + 1)) data)))).

(** The final states: 120 leads nowhere, the others on. *)
Lemma final_states q c :
  q ∈ response_states -> char_range c -> response_final (response_next q c) = true ->
  response_next q c ∈ [120; 121; 122; 123].
Proof.
  intros Hq Hc. unfold response_next. rewrite (response_goto_class q c Hc).
  assert (forallb (fun q => forallb (fun c =>
    implb (response_final (response_goto q c).2) (bool_decide ((response_goto q c).2 ∈ [120; 121; 122; 123])))
    response_reps) (map fst response_cases) = true) as H
    by (with_strategy transparent [response_goto response_case_map] vm_cast_no_check (eq_refl true)).
  with_strategy transparent [response_states] unfold response_states in Hq.
  apply list_elem_of_filter in Hq as [_ Hq].
  pose proof (forallb_grid _ _ _ _ _ H Hq (rsp_class_rep c Hc)) as Hi. cbn beta in Hi.
  intros Hf. rewrite Hf in Hi. by apply bool_decide_eq_true in Hi.
Qed.

Lemma reading_final data q k :
  reading response_next response_final response_states data 1 q k -> response_final q = true ->
  0 < k -> fold_left response_next (chars (take (Z.to_nat k) data)) 1 = q -> k <= len data ->
  q ∈ [120; 121; 122; 123].
Proof.
  intros H Hf Hk E Hl. pose proof (reading_active _ _ _ _ _ _ _ H (Z.to_nat (k - 1))) as Hact.
  destruct (lookup_lt_is_Some_2 data (Z.to_nat (k - 1))) as [a Ha]; [lia|].
  replace (Z.to_nat k) with (S (Z.to_nat (k - 1))) in E by lia.
  rewrite (take_S_r _ _ _ Ha), map_app, fold_left_app in E. simpl in E. subst q.
  apply final_states; [apply Hact; lia|apply schar_range|exact Hf].
Qed.

Lemma final_answer q P :
  q ∈ [120; 121; 122; 123] ->
  httpclient_parser_finish (set_cs P q) = (if q =? 120 then 1 else 0).
Proof.
  intros Hq. repeat (apply elem_of_cons in Hq as [->|Hq]; [done|]). by apply elem_of_nil in Hq.
Qed.

Lemma final_extends q data :
  q ∈ [120; 121; 122; 123] -> fold_left response_next (chars data) 1 = q ->
  (q = 120 /\ ~ extendable response_of (chars data)) \/
  (q <> 120 /\ extendable response_of (chars data)).
Proof.
  intros Hq E. destruct (decide (q = 120)) as [Hq0|Hq0]; [left|right]; (split; [exact Hq0|]).
  - intros (v & Hne & Hv & HL). apply response_language in HL; [|by apply Forall_app; split; [apply text_range|]].
    rewrite fold_left_app, E in HL. rewrite (next_fixed q) in HL by auto. discriminate HL.
  - apply (state_extendable _ _ _ _ response_language _ (text_range data)). rewrite E.
    apply response_completes, elem_of_app. left.
    apply elem_of_cons in Hq as [?|Hq]; [done|exact Hq].
Qed.

Lemma rsp_reading_answers data q k P :
  reading response_next response_final response_states data 1 q k ->
  answers data k (httpclient_parser_finish (set_cs P q)).
Proof.
  intros H. pose proof (reading_active _ _ _ _ _ _ _ H) as Hact.
  destruct (reading_end _ _ _ _ _ _ _ H) as [Hk Hend].
  split; [intros j Hj; by apply rsp_active_viable, Hact; [apply text_range|]|].
  destruct Hend as [(Hkl & Hq & E)|[(Hk0 & Hf & E)|(Hkl & -> & Hq & E)]].
  - right; right; left. rewrite (rsp_active_unfinished _ _ Hq). subst k. rewrite Nat2Z.id, firstn_all.
    rewrite <- E in Hq. by destruct (rsp_active_viable _ (text_range data) Hq).
  - assert (q ∈ [120; 121; 122; 123]) as Hq by (apply (reading_final data q k H); [done|done|done|lia]).
    rewrite (final_answer _ _ Hq).
    assert (response_of (chars (take (Z.to_nat k) data))) as HL.
    { apply response_language; [apply text_range|]. by rewrite E. }
    destruct (final_extends _ _ Hq E) as [[-> Hx]|[Hne Hx]].
    + by left.
    + right; left. by rewrite (proj2 (Z.eqb_neq _ _) Hne).
  - right; right; right. split; [done|]. split; [done|].
    destruct (rsp_active_viable _ (text_range _) Hq) as [Hno Hv].
    split; [exact Hno|]. split; [exact Hv|].
    apply (state_dead _ _ _ _ response_language _ 0 (text_range _) E).
    intros [|c v]; [done|]. rewrite (next_fixed 0) by auto. done.
Qed.

Lemma rsp_start_active : 1 ∈ response_states.
Proof.
  assert (forallb (fun q => bool_decide (q ∈ response_states)) [1] = true) as H
    by (with_strategy transparent [response_states] vm_cast_no_check (eq_refl true)).
  rewrite forallb_forall in H. specialize (H 1 (or_introl eq_refl)).
  by apply bool_decide_eq_true in H.
Qed.

Lemma fresh_exec R mem N chunck :
  chunck = true \/ cs (m_parser R) = httpclient_parser_start /\ body_start (m_parser R) = 0 ->
  0 < N < 2 ^ 31 -> N + slack <= len mem < 2 ^ 62 -> nul_ended mem N ->
  exists q k P d,
    execute R mem N chunck =
      Ret (k, drop (Z.to_nat k) (buffer_of mem N) ++
              drop (List.length (drop (Z.to_nat k) (buffer_of mem N))) mem,
           mkHttpResponseParser (set_nread (set_cs P q) k) d.1 d.2) /\
    reading response_next response_final response_states (buffer_of mem N) 1 q k /\ 0 <= k <= N.
Proof.
  intros HR HN Hmem Hnul. destruct (buffer_length mem N) as [Hb Hlt]; [lia|done|].
  assert (cs (start_parser R chunck) = 1 /\ body_start (start_parser R chunck) = 0) as [Hcs Hbs].
  { unfold start_parser. destruct chunck; [done|]. destruct HR as [?|[? ?]]; [discriminate|]. done. }
  destruct (rsp_exec_safe mem N (proj1 Hmem) (proj2 Hmem) (buffer_of mem N) (start_parser R chunck)
    (m_data R, m_error R)) as (q & k & P & d & E & Hrd & Hk & HP & Hs & Hb').
  - lia.
  - exact Hb.
  - split_and!; [unfold marks; simpl; lia|by split_and!| done |simpl in *; lia|simpl in *; lia].
  - exact rsp_start_active.
  - exists q, k, P, d. split; [|split; [exact Hrd|lia]].
    apply rsp_execute_exec; [exact HN|exact Hnul| | |lia|apply Hb'|exact HP].
    + rewrite Hcs. exact E.
    + exact Hs.
Qed.

(** C7: for a new parser, or a chunk header, any buffer that is not empty, below 2^31
    characters, ended by NUL and with 17 characters of memory behind it, is handled without
    an access outside the memory and without a failed assertion. The parser stops
    behind the first prefix that is a response head or chunk header of the
    grammar, and is finished exactly when no longer text is one; or it reads the
    whole buffer, when only a continuation can be one, and wants more; or it
    stops in front of the first character behind which there is none, and
    reports the error. *)
Theorem response_decides_grammar R mem N chunck :
  chunck = true \/ cs (m_parser R) = httpclient_parser_start /\ body_start (m_parser R) = 0 ->
  0 < N < 2 ^ 31 -> N + slack <= len mem < 2 ^ 62 -> nul_ended mem N ->
  exists n mem' R', execute R mem N chunck = Ret (n, mem', R') /\ 0 <= n <= N /\
    answers (buffer_of mem N) n (isFinished R').
Proof.
  intros HR HN Hmem Hnul. destruct (fresh_exec R mem N chunck HR HN Hmem Hnul) as (q & k & P & d & E & Hrd & Hk).
  eexists k, _, _. split; [exact E|]. split; [exact Hk|].
  change (isFinished _) with (httpclient_parser_finish (set_cs P q)). by apply rsp_reading_answers.
Qed.

Lemma response_decides_grammar_witness :
  let mem := list_ascii_of_string "HTTP/1.1 20" ++ replicate 17 "000"%char in
  exists n mem' R', execute new_HttpResponseParser mem 11 false = Ret (n, mem', R') /\ 0 <= n <= 11 /\
    answers (buffer_of mem 11) n (isFinished R').
Proof.
  apply (response_decides_grammar new_HttpResponseParser
    (list_ascii_of_string "HTTP/1.1 20" ++ replicate 17 "000"%char) 11 false).
  - right. split; reflexivity.
  - split; reflexivity.
  - vm_compute. split; [discriminate|reflexivity].
  - reflexivity.
Defined.
