(* ===== verification/HttpResponseRun.v ===== *)
(** * Running the response machine

    What [exec] of HttpResponseParser.v does on the parts of a response head: the
    sets of states each part goes through, and the callbacks made at their ends. *)
From stdpp Require Import base list gmap strings.
From Stdlib Require Import ZArith Ascii String Lia.
From S2P Require Import Prelude CLib RegExp Ragel Http HttpCommon HttpResponseTable.
From S2P Require Import HttpResponseParser HttpResponseSafe.
Open Scope Z_scope.

(** ** What the table says, for sets of states *)

(** From every state of [A], the characters of [K] lead to jumps that satisfy
    [next]. *)
Definition leads (A : list Z) (K : Z -> bool) (next : list response_action -> Z -> bool) : bool :=
  forallb (fun q =>
    bool_decide (is_Some (response_case_map !! q)) &&
    forallb (fun c => implb (K c) (let '(acts, n) := response_goto q c in negb (n =? 0) && next acts n))
      all_chars) A.

Lemma leads_goto A K next q c :
  leads A K next = true -> q ∈ A -> char_range c -> K c = true ->
  is_Some (response_case_map !! q) /\
  exists acts n, response_goto q c = (acts, n) /\ n <> 0 /\ next acts n = true.
Proof.
  unfold leads. intros H Hq%list_elem_of_In Hc HK. rewrite forallb_forall in H.
  apply H, andb_true_iff in Hq as [Hs%bool_decide_eq_true Hq]. split; [exact Hs|].
  rewrite forallb_forall in Hq. specialize (Hq c (all_chars_spec c Hc)). rewrite HK in Hq.
  destruct (response_goto q c) as [acts n]. exists acts, n. simpl in Hq.
  apply andb_true_iff in Hq as [Hn%negb_true_iff%Z.eqb_neq Hq]. done.
Qed.

(** The actions are among the given ones, and lead into [B]. *)
Definition to (actss : list (list response_action)) (B : list Z)
    (acts : list response_action) (n : Z) : bool :=
  bool_decide (acts ∈ actss) && bool_decide (n ∈ B).

Lemma to_spec actss B acts n : to actss B acts n = true -> acts ∈ actss /\ n ∈ B.
Proof. unfold to. by intros [?%bool_decide_eq_true ?%bool_decide_eq_true]%andb_true_iff. Qed.

(** The states at the front of a line, within and behind a field's name, and
    within its value; behind the CR of a field with and without a value. *)
Definition line_starts : list Z := [20; 43; 36; 62; 113].
Definition names : list Z :=
  [21; 25; 26; 27; 28; 29; 30; 31; 32; 33; 34; 44; 45; 46; 47; 48; 49; 50; 51; 52; 53; 54; 55; 56; 57;
   58; 59; 60; 73; 74; 75; 76; 77; 78; 79; 90; 91; 92; 93; 94; 101; 102; 103; 104; 105; 106; 107; 108;
   109; 110; 111; 117].
Definition value_starts : list Z := [22; 35; 61; 112].
Definition values : list Z := [23; 81; 82; 83; 84; 85; 86; 87; 96; 97; 98; 99; 100; 119].
Definition value_ends : list Z := [24; 71; 88].
Definition empty_ends : list Z := [24; 80; 95; 118].

Definition in_line (c : Z) : bool := negb (one_of [10; 13] c).
Definition is_space (c : Z) : bool := one_of [9; 11; 12; 32] c.

Lemma name_starts : leads line_starts is_token
  (to [[StartField]; [Mark; StartField]; [ConnClose; StartField]] names) = true.
Proof. vm_cast_no_check (eq_refl true). Qed.
Lemma name_goes_on : leads names is_token (to [[]] names) = true.
Proof. vm_cast_no_check (eq_refl true). Qed.
Lemma name_ends : leads names (Z.eqb 58) (to [[WriteField]] value_starts) = true.
Proof. vm_cast_no_check (eq_refl true). Qed.
Lemma blanks_go_on : leads value_starts is_blank (to [[Mark]] value_starts) = true.
Proof. vm_cast_no_check (eq_refl true). Qed.
Lemma value_begins : leads value_starts (fun c => in_line c && negb (is_space c)) (to [[Mark]] values) = true.
Proof. vm_cast_no_check (eq_refl true). Qed.
Lemma value_goes_on : leads values in_line (to [[]] values) = true.
Proof. vm_cast_no_check (eq_refl true). Qed.
Lemma value_stops : leads values (Z.eqb 13) (to [[WriteValue]; [ContentLen; WriteValue]] value_ends) = true.
Proof. vm_cast_no_check (eq_refl true). Qed.
Lemma value_line_ends : leads value_ends (Z.eqb 10) (to [[]; [TransChunked]] [20; 43]) = true.
Proof. vm_cast_no_check (eq_refl true). Qed.
Lemma empty_stops : leads value_starts (Z.eqb 13) (to [[Mark; WriteValue]] empty_ends) = true.
Proof. vm_cast_no_check (eq_refl true). Qed.
Lemma empty_line_ends : leads empty_ends (Z.eqb 10) (to [[]] line_starts) = true.
Proof. vm_cast_no_check (eq_refl true). Qed.
Lemma head_stops : leads [20; 43] (Z.eqb 13) (to [[]; [ConnClose]] [3]) = true.
Proof. vm_cast_no_check (eq_refl true). Qed.
Lemma head_ends : leads [3] (Z.eqb 10) (to [[Done 120]] [120]) = true.
Proof. vm_cast_no_check (eq_refl true). Qed.

#[local] Opaque leads response_case_map response_goto.

(** A jump of the table, by computation. *)
Ltac by_table :=
  lazymatch goal with
  | |- leads _ _ _ = true => vm_cast_no_check (eq_refl true)
  | _ => reflexivity
  end.

(** ** Steps *)
Section run.
Context (tail : list ascii).
Implicit Types (P : httpclient_parser) (d : Data) (pre w rest : list ascii).

(** The program in state [q] behind [pre], with the memory [tail] behind the
    buffer. *)
Definition run pre rest (q : Z) (Pd : httpclient_parser * Data)
    : outcome (Z * Z * (httpclient_parser * Data)) :=
  exec response_callbacks (pre ++ rest ++ tail) (len (pre ++ rest)) rest q (len pre) Pd.
Definition act pre rest acts (Pd : httpclient_parser * Data) :=
  run_response_actions response_callbacks (pre ++ rest ++ tail) (len (pre ++ rest)) acts (len pre) Pd.

Lemma rsp_run_nil pre q Pd : run pre [] q Pd = Ret (q, len pre, Pd).
Proof. done. Qed.

Lemma rsp_run_enter A K next q pre a rest Pd :
  leads A K next = true -> q ∈ A -> K (schar a) = true ->
  exists acts n, next acts n = true /\
    run pre (a :: rest) q Pd =
    let! r := act pre (a :: rest) acts Pd in
    match r with
    | (Pd, Some n) => Ret (n, len pre + 1, Pd)
    | (Pd, None) => run (pre ++ [a]) rest n Pd
    end.
Proof.
  intros Hl Hq HK. destruct (leads_goto _ _ _ _ _ Hl Hq (schar_range a) HK) as (Hs & acts & n & Hg & Hn & Hx).
  exists acts, n. split; [exact Hx|]. unfold run at 1, exec.
  rewrite (program_step _ _ _ a rest q _ _ acts n) by (by apply bool_decide_true || by rewrite Hg).
  fold (act pre (a :: rest) acts Pd). apply Z.eqb_neq in Hn. rewrite Hn. unfold run, exec.
  rewrite <- !app_assoc. replace (len (pre ++ [a])) with (len pre + 1) by (rewrite length_app; simpl; lia).
  reflexivity.
Qed.

(** Without actions. *)
Lemma rsp_run_move A K B q pre a rest Pd :
  leads A K (to [[]] B) = true -> q ∈ A -> K (schar a) = true ->
  exists n, n ∈ B /\ run pre (a :: rest) q Pd = run (pre ++ [a]) rest n Pd.
Proof.
  intros Hl Hq HK. destruct (rsp_run_enter _ _ _ q pre a rest Pd Hl Hq HK) as (acts & n & Hn & ->).
  apply to_spec in Hn as [->%list_elem_of_singleton Hn]. by exists n.
Qed.

Lemma rsp_run_loop A K q w pre rest Pd :
  leads A K (to [[]] A) = true -> q ∈ A -> forallb (fun a => K (schar a)) w = true ->
  exists n, n ∈ A /\ run pre (w ++ rest) q Pd = run (pre ++ w) rest n Pd.
Proof.
  intros Hl Hq Hw%forallb_Forall. revert pre q Hq. induction Hw as [|a w HK Hw IH]; intros pre q Hq; simpl.
  - exists q. by rewrite app_nil_r.
  - destruct (rsp_run_move _ _ _ q pre a (w ++ rest) Pd Hl Hq HK) as (n & Hn & ->).
    destruct (IH (pre ++ [a]) n Hn) as (n' & Hn' & ->). exists n'. by rewrite <- app_assoc.
Qed.

(** One state, one jump. *)
Lemma run_one q K acts n pre a rest Pd :
  leads [q] K (to [acts] [n]) = true -> K (schar a) = true ->
  run pre (a :: rest) q Pd =
  let! r := act pre (a :: rest) acts Pd in
  match r with
  | (Pd, Some n) => Ret (n, len pre + 1, Pd)
  | (Pd, None) => run (pre ++ [a]) rest n Pd
  end.
Proof.
  intros Hl HK. destruct (rsp_run_enter _ _ _ q pre a rest Pd Hl (list_elem_of_here _ _) HK) as (acts' & n' & Hn & ->).
  by apply to_spec in Hn as [->%list_elem_of_singleton ->%list_elem_of_singleton].
Qed.

(** ** What the parts of a head leave alone *)
Definition kept P P' : Prop := body_start P' = body_start P /\ nread P' = nread P.

Definition reaches (r : outcome (Z * Z * (httpclient_parser * Data))) P pre rest (A : list Z) d : Prop :=
  exists P' q, r = run pre rest q (P', d) /\ q ∈ A /\ kept P P' /\ marks P' (len pre).

Lemma rsp_kept_trans P P' P'' : kept P P' -> kept P' P'' -> kept P P''.
Proof. unfold kept. intuition congruence. Qed.

Lemma rsp_reaches_trans r P pre pre' rest rest' A B d d' :
  reaches r P pre rest A d ->
  (forall P' q, q ∈ A -> marks P' (len pre) -> reaches (run pre rest q (P', d)) P' pre' rest' B d') ->
  reaches r P pre' rest' B d'.
Proof.
  intros (P1 & q & -> & Hq & Hk & Hm) H. destruct (H P1 q Hq Hm) as (P2 & q2 & E & Hq2 & Hk' & Hm').
  exists P2, q2. split_and!; [exact E|exact Hq2|by apply (rsp_kept_trans _ P1)|exact Hm'].
Qed.

Lemma reaches_from r P P' pre rest A d : kept P P' -> reaches r P' pre rest A d -> reaches r P pre rest A d.
Proof.
  intros HK (P1 & q & E & Hq & HK' & HM). exists P1, q. split; [exact E|]. split; [exact Hq|].
  split; [by apply (rsp_kept_trans _ P')|exact HM].
Qed.

(** A callback on the text [w] between the mark and the position. *)
Lemma element_text (f : Data -> list ascii -> Z -> outcome Data) d pre w rest :
  len (pre ++ w ++ rest) < 2 ^ 62 ->
  element ((pre ++ w) ++ rest) (Some f) d (len pre) (len (pre ++ w)) = f d (w ++ rest) (len w).
Proof. intros Hs. rewrite <- app_assoc. apply element_app. lia. Qed.

(** ** The status line *)
Lemma rsp_run_version v rest P d :
  len (version_text v ++ blank ++ rest ++ tail) < 2 ^ 62 -> marks P 0 ->
  reaches (run [] (version_text v ++ blank ++ rest) 1 (P, d)) P (version_text v ++ blank) rest [16]
    (rsp_setVersion d.1 (version_byte v), d.2).
Proof.
  intros Hs HP. exists (set_mark P 0), 16. split_and!; [|by constructor|done..|].
  2: { destruct HP as (_ & ? & ?). unfold marks. simpl. lia. }
  unfold version_text, blank. cbn [app].
  rewrite (run_one 1 (Z.eqb 72) [Mark] 8) by by_table.
  cbn [act run_response_actions run_response_action obind].
  assert (forall q c n pre a rest Pd, leads [q] (Z.eqb c) (to [[]] [n]) = true -> Z.eqb c (schar a) = true ->
    run pre (a :: rest) q Pd = run (pre ++ [a]) rest n Pd) as Hmove.
  { intros q c n pre a rest' Pd Hl Hc. by rewrite (run_one q (Z.eqb c) [] n). }
  rewrite (Hmove 8 84 9), (Hmove 9 84 10), (Hmove 10 80 11), (Hmove 11 47 12), (Hmove 12 49 13), (Hmove 13 46 14)
    by by_table.
  cbn [app]. set (c := (if v then "1" else "0")%char).
  rewrite (run_one 14 (fun c => one_of [48; 49] c) [] 15) by (by_table || by destruct v).
  cbn [act run_response_actions obind app].
  rewrite (run_one 15 (Z.eqb 32) [HttpVersion] 16) by by_table.
  change (["H"; "T"; "T"; "P"; "/"; "1"; "."; c]%char) with (version_text v).
  cbn [act run_response_actions run_response_action http_version response_callbacks set_mark mark].
  match goal with |- context [element ?b ?f ?d ?s ?p] => change (element b f d s p) with
    (element (([] ++ version_text v) ++ (" "%char :: rest) ++ tail) (Some on_response_version) d
       (len (@nil ascii)) (len ([] ++ version_text v))) end.
  rewrite element_text by exact Hs.
  unfold on_response_version. change (len (version_text v)) with 8. rewrite version_at_text. reflexivity.
Qed.

(** [strtol] reads the digits up to the blank. *)
Definition is_digits (w : list ascii) : bool :=
  negb (bool_decide (w = [])) && forallb (fun a => isdigit (schar a)) w.

Lemma digits_value_stop n w b rest :
  forallb (fun a => isdigit (schar a)) w = true -> isdigit (schar b) = false ->
  digits_value n (map schar (w ++ b :: rest)) = digits_value n (map schar w).
Proof.
  intros Hw Hb. revert n. induction w as [|a w IH]; intros n; simpl in *.
  - by rewrite Hb.
  - apply andb_true_iff in Hw as [Ha Hw]. rewrite Ha. by apply IH.
Qed.

Lemma strtol10_stop w b rest :
  is_digits w = true -> isdigit (schar b) = false ->
  strtol10 (string_of_list_ascii (w ++ b :: rest)) = strtol10 (string_of_list_ascii w).
Proof.
  unfold is_digits. intros [Hne Hw]%andb_true_iff Hb. unfold strtol10, CLib.chars.
  rewrite !list_ascii_of_string_of_list_ascii.
  destruct w as [|a w]; [done|]. simpl in Hw. apply andb_true_iff in Hw as [Ha Hw]. simpl.
  assert (isspace (schar a) = false) as ->.
  { revert Ha. unfold isdigit, isspace. intros [H1%Z.leb_le H2%Z.leb_le]%andb_true_iff. lia. }
  by rewrite !digits_value_stop.
Qed.

(** The text between the mark and the position, with its NUL behind. *)
Lemma at_text pre w rest : at_ ((pre ++ w) ++ rest) (len pre) = Ret (w ++ rest).
Proof. rewrite <- app_assoc. apply at_app. Qed.

Lemma run_status w pre rest P d :
  is_digits w = true -> len (pre ++ w ++ blank ++ rest ++ tail) < 2 ^ 62 -> marks P (len pre) ->
  reaches (run pre (w ++ blank ++ rest) 16 (P, d)) P (pre ++ w ++ blank) rest [18]
    (rsp_setStatus d.1 (atoi (string_of_list_ascii w)), d.2).
Proof.
  intros Hw Hs HP. pose proof (strtol10_stop w " " (rest ++ tail) Hw eq_refl) as Hstop.
  unfold is_digits in Hw. apply andb_true_iff in Hw as [Hne Hw].
  assert (exists n, run pre (w ++ blank ++ rest) 16 (P, d) =
    run (pre ++ w) (blank ++ rest) n (set_mark P (len pre), d) /\ n = 17) as (n & -> & ->).
  { destruct w as [|a w]; [done|]. simpl in Hw. apply andb_true_iff in Hw as [Ha Hw]. cbn [app].
    rewrite (run_one 16 isdigit [Mark] 17 _ _ _ _ ltac:(by_table) Ha).
    cbn [act run_response_actions run_response_action obind].
    destruct (rsp_run_loop [17] isdigit 17 w (pre ++ [a]) (blank ++ rest) (set_mark P (len pre), d)
      ltac:(by_table) (list_elem_of_here _ _) Hw) as (n & Hn%list_elem_of_singleton & ->).
    exists n. by rewrite <- app_assoc. }
  unfold blank at 1. cbn [app].
  rewrite (run_one 17 (Z.eqb 32) [StatusCode] 18) by by_table.
  cbn [act run_response_actions run_response_action status_code response_callbacks].
  unfold strtol_mark. cbn [set_mark mark]. rewrite at_text. cbn [obind app]. rewrite Hstop.
  cbn [set_status mark]. rewrite element_text by (by rewrite <- ?app_assoc in *; exact Hs).
  unfold on_response_status, atoi at 1. cbn [app]. rewrite Hstop. cbn [obind].
  eexists _, 18. split; [by rewrite <- app_assoc|]. split; [by constructor|]. split; [done|].
  destruct HP as (_ & ? & ?). unfold marks. cbn [set_status set_mark mark field_start field_len].
  rewrite !length_app. lia.
Qed.

Lemma run_reason w pre rest P d :
  w <> [] -> forallb (fun a => in_line (schar a)) w = true ->
  len (pre ++ w ++ eol ++ rest ++ tail) < 2 ^ 62 -> marks P (len pre) ->
  reaches (run pre (w ++ eol ++ rest) 18 (P, d)) P (pre ++ w ++ eol) rest [20]
    (rsp_setReason d.1 (string_of_list_ascii w), d.2).
Proof.
  intros Hne Hw Hs HP.
  assert (exists n, run pre (w ++ eol ++ rest) 18 (P, d) =
    run (pre ++ w) (eol ++ rest) n (set_mark P (len pre), d) /\ n = 19) as (n & -> & ->).
  { destruct w as [|a w]; [done|]. simpl in Hw. apply andb_true_iff in Hw as [Ha Hw]. cbn [app].
    rewrite (run_one 18 in_line [Mark] 19 _ _ _ _ ltac:(by_table) Ha).
    cbn [act run_response_actions run_response_action obind].
    destruct (rsp_run_loop [19] in_line 19 w (pre ++ [a]) (eol ++ rest) (set_mark P (len pre), d)
      ltac:(by_table) (list_elem_of_here _ _) Hw) as (n & Hn%list_elem_of_singleton & ->).
    exists n. by rewrite <- app_assoc. }
  unfold eol at 1. cbn [app]. rewrite (run_one 19 (Z.eqb 13) [ReasonPhrase] 24) by by_table.
  cbn [act run_response_actions run_response_action reason_phrase response_callbacks set_mark mark].
  rewrite element_text by (by rewrite <- ?app_assoc in *; exact Hs).
  unfold on_response_reason. rewrite string_at_app. cbn [obind].
  rewrite (run_one 24 (Z.eqb 10) [] 20) by by_table. cbn [act run_response_actions obind].
  eexists _, 20. split; [by rewrite <- !app_assoc|]. split; [by constructor|]. split; [done|].
  destruct HP as (_ & ? & ?). unfold marks. cbn [set_mark mark field_start field_len].
  rewrite !length_app. lia.
Qed.

(** ** The header fields *)
Definition rsp_field_ok (f : field) : bool :=
  negb (bool_decide (f_name f = [])) && forallb (fun a => is_token (schar a)) (f_name f) &&
  forallb (fun a => is_blank (schar a)) (f_blanks f) &&
  forallb (fun a => in_line (schar a)) (f_value f) &&
  match f_value f with a :: _ => negb (is_space (schar a)) | [] => true end.

Definition with_rsp_field d (f : field) : Data :=
  (rsp_setHeaderEntry d.1 (string_of_list_ascii (f_name f)) (string_of_list_ascii (f_value f)), d.2).

Lemma rsp_run_name w pre rest P d q :
  w <> [] -> forallb (fun a => is_token (schar a)) w = true -> q ∈ line_starts ->
  len (pre ++ w ++ ":"%char :: rest) < 2 ^ 62 -> marks P (len pre) ->
  exists P' q', run pre (w ++ ":"%char :: rest) q (P, d) = run (pre ++ w ++ [":"%char]) rest q' (P', d) /\
    q' ∈ value_starts /\ kept P P' /\ 0 <= mark P' <= len pre /\
    field_start P' = len pre /\ field_len P' = len w.
Proof.
  intros Hne Hw Hq Hs HP. destruct w as [|a w]; [done|]. simpl in Hw.
  apply andb_true_iff in Hw as [Ha Hw]. cbn [app].
  destruct (rsp_run_enter _ _ _ q pre a (w ++ ":"%char :: rest) (P, d) name_starts Hq Ha) as (acts & n & Hn & ->).
  apply to_spec in Hn as [Hacts Hn].
  assert (exists P1, act pre (a :: w ++ ":"%char :: rest) acts (P, d) = Ret (P1, d, None) /\
    kept P P1 /\ 0 <= mark P1 <= len pre /\ field_start P1 = len pre) as (P1 & -> & K1 & M1 & F1).
  { destruct HP as (Hm & _).
    repeat (apply elem_of_cons in Hacts as [->|Hacts]; [eexists; split; [reflexivity|];
      repeat split; simpl; lia|]). by apply elem_of_nil in Hacts. }
  cbn [obind].
  destruct (rsp_run_loop _ _ n w (pre ++ [a]) (":"%char :: rest) (P1, d) name_goes_on Hn Hw) as (n' & Hn' & ->).
  destruct (rsp_run_enter _ _ _ n' ((pre ++ [a]) ++ w) ":" rest (P1, d) name_ends Hn' eq_refl)
    as (acts' & q' & Hq' & ->).
  apply to_spec in Hq' as [->%list_elem_of_singleton Hq'].
  cbn [act run_response_actions run_response_action obind].
  exists (set_field_len P1 (len (a :: w))), q'.
  replace (u64 _) with (len (a :: w)).
  2: { rewrite F1. repeat (rewrite length_app in * || cbn [List.length] in * ).
       rewrite wrapu_small by lia. lia. }
  split_and!; [by rewrite <- !app_assoc|exact Hq'|exact K1|apply M1|apply M1|exact F1|reflexivity].
Qed.

Lemma rsp_run_blanks b pre rest P d q :
  forallb (fun a => is_blank (schar a)) b = true -> q ∈ value_starts -> 0 <= mark P <= len pre ->
  exists m q', run pre (b ++ rest) q (P, d) = run (pre ++ b) rest q' (set_mark P m, d) /\
    q' ∈ value_starts /\ 0 <= m <= len (pre ++ b).
Proof.
  intros Hb%forallb_Forall. revert pre P q.
  induction Hb as [|a b Ha Hb IH]; intros pre P q Hq Hm.
  - exists (mark P), q. rewrite app_nil_r. split; [by destruct P|done].
  - cbn [app].
    destruct (rsp_run_enter _ _ _ q pre a (b ++ rest) (P, d) blanks_go_on Hq Ha) as (acts & n & Hn & ->).
    apply to_spec in Hn as [->%list_elem_of_singleton Hn].
    cbn [act run_response_actions run_response_action obind].
    destruct (IH (pre ++ [a]) (set_mark P (len pre)) n Hn) as (m & q' & -> & Hq' & Hm').
    { simpl. rewrite length_app. lia. }
    exists m, q'. by rewrite <- app_assoc in *.
Qed.

(** The callback of a field whose name and value are in the buffer. *)
Lemma rsp_write_value N P d a name b v rest :
  name <> [] -> len (a ++ name ++ b ++ v ++ rest) < 2 ^ 62 ->
  field_start P = len a -> field_len P = len name -> mark P = len (a ++ name ++ b) ->
  run_response_action response_callbacks ((a ++ name ++ b ++ v) ++ rest) N WriteValue
    (len (a ++ name ++ b ++ v)) (P, d) =
  Ret (P, (rsp_setHeaderEntry d.1 (string_of_list_ascii name) (string_of_list_ascii v), d.2)).
Proof.
  intros Hne Hs Hf Hl Hm. cbn [run_response_action http_field response_callbacks].
  rewrite Hf, Hl, Hm. rewrite <- !app_assoc, at_app. cbn [obind].
  replace (a ++ name ++ b ++ v ++ rest) with ((a ++ name ++ b) ++ v ++ rest) by (by rewrite <- !app_assoc).
  rewrite at_app. cbn [obind]. unfold on_response_http_field.
  destruct (Z.eqb_spec (len name) 0) as [E|_]; [destruct name; [congruence|simpl in E; lia]|].
  replace (u64 _) with (len v).
  2: { rewrite !length_app in *. rewrite wrapu_small by lia. lia. }
  by rewrite !string_at_app.
Qed.

(** What [ContentLen] changes makes no difference to the callback. *)
Lemma stop_value acts N P d a name b v rest :
  acts ∈ [[WriteValue]; [ContentLen; WriteValue]] ->
  name <> [] -> len (a ++ name ++ b ++ v ++ rest) < 2 ^ 62 ->
  field_start P = len a -> field_len P = len name -> mark P = len (a ++ name ++ b) ->
  exists P', run_response_actions response_callbacks ((a ++ name ++ b ++ v) ++ rest) N acts
      (len (a ++ name ++ b ++ v)) (P, d) =
    Ret (P', (rsp_setHeaderEntry d.1 (string_of_list_ascii name) (string_of_list_ascii v), d.2), None) /\
    kept P P' /\ mark P' = mark P /\ field_start P' = field_start P /\ field_len P' = field_len P.
Proof.
  intros Hacts Hne Hs Hf Hl Hm.
  apply elem_of_cons in Hacts as [-> | ->%list_elem_of_singleton]; cbn [run_response_actions].
  - rewrite rsp_write_value by done. by exists P.
  - cbn [run_response_action]. unfold strtol_mark at 1. rewrite Hm.
    assert (at_ ((a ++ name ++ b ++ v) ++ rest) (len (a ++ name ++ b)) = Ret (v ++ rest)) as ->.
    { rewrite <- (at_text (a ++ name ++ b) v rest). by rewrite <- !app_assoc. }
    cbn [obind]. rewrite rsp_write_value by done. by eexists.
Qed.

Lemma rsp_run_value v pre rest P d q a name b :
  pre = a ++ name ++ b -> name <> [] -> field_start P = len a -> field_len P = len name ->
  q ∈ value_starts -> v <> [] -> forallb (fun a => in_line (schar a)) v = true ->
  match v with x :: _ => is_space (schar x) = false | [] => True end ->
  len (pre ++ v ++ eol ++ rest ++ tail) < 2 ^ 62 -> marks P (len pre) ->
  reaches (run pre (v ++ eol ++ rest) q (P, d)) P (pre ++ v ++ eol) rest [20; 43]
    (rsp_setHeaderEntry d.1 (string_of_list_ascii name) (string_of_list_ascii v), d.2).
Proof.
  intros Hpre Hne Hf Hl Hq Hv0 Hv Hx Hs HP. destruct v as [|x v]; [done|].
  simpl in Hv. apply andb_true_iff in Hv as [Hvx Hv]. cbn [app].
  assert (in_line (schar x) && negb (is_space (schar x)) = true) as Hxv by (by rewrite Hvx, Hx).
  destruct (rsp_run_enter _ _ _ q pre x (v ++ eol ++ rest) (P, d) value_begins Hq Hxv) as (acts & n & Hn & ->).
  apply to_spec in Hn as [->%list_elem_of_singleton Hn].
  cbn [act run_response_actions run_response_action obind].
  destruct (rsp_run_loop _ _ n v (pre ++ [x]) (eol ++ rest) (set_mark P (len pre), d) value_goes_on Hn Hv) as (n1 & Hn1 & ->).
  replace ((pre ++ [x]) ++ v) with (pre ++ x :: v) by (by rewrite <- app_assoc). set (w := x :: v) in *.
  unfold eol at 1. cbn [app].
  destruct (rsp_run_enter _ _ _ n1 (pre ++ w) "013" ("010"%char :: rest) (set_mark P (len pre), d) value_stops Hn1 eq_refl)
    as (acts & n2 & Hn2 & ->). apply to_spec in Hn2 as [Hacts Hn2].
  destruct (stop_value acts (len ((pre ++ w) ++ "013"%char :: "010"%char :: rest)) (set_mark P (len pre)) d
    a name b w ("013"%char :: "010"%char :: rest ++ tail) Hacts Hne) as (P2 & E & K2 & M2 & F2 & L2).
  { rewrite Hpre in Hs. rewrite <- !app_assoc in Hs. exact Hs. }
  { exact Hf. } { exact Hl. } { by rewrite <- Hpre. }
  unfold act. replace (pre ++ w) with (a ++ name ++ b ++ w) in E |- * by (by rewrite Hpre, <- !app_assoc).
  cbn [app] in E |- *. rewrite E. cbn [obind].
  destruct (rsp_run_enter _ _ _ n2 ((a ++ name ++ b ++ w) ++ ["013"%char]) "010" rest
    (P2, (rsp_setHeaderEntry d.1 (string_of_list_ascii name) (string_of_list_ascii w), d.2)) value_line_ends Hn2 eq_refl)
    as (acts2 & n3 & Hn3 & ->). apply to_spec in Hn3 as [Hacts2 Hn3].
  assert (exists P3, act ((a ++ name ++ b ++ w) ++ ["013"%char]) ("010"%char :: rest) acts2
      (P2, (rsp_setHeaderEntry d.1 (string_of_list_ascii name) (string_of_list_ascii w), d.2)) =
    Ret (P3, (rsp_setHeaderEntry d.1 (string_of_list_ascii name) (string_of_list_ascii w), d.2), None) /\
    kept P2 P3 /\ mark P3 = mark P2 /\ field_start P3 = field_start P2 /\ field_len P3 = field_len P2)
    as (P3 & -> & K3 & M3 & F3 & L3).
  { apply elem_of_cons in Hacts2 as [-> | ->%list_elem_of_singleton]; eexists; by split. }
  cbn [obind]. exists P3, n3. split_and!.
  - change (x :: v ++ eol) with (w ++ eol).
    replace (pre ++ w ++ eol) with (((a ++ name ++ b ++ w) ++ ["013"%char]) ++ ["010"%char]) by
      (by rewrite Hpre, <- !app_assoc). reflexivity.
  - exact Hn3.
  - apply (rsp_kept_trans P (set_mark P (len pre)) P3); [done|exact (rsp_kept_trans _ _ _ K2 K3)].
  - unfold marks. rewrite M3, F3, L3, M2, F2, L2. cbn [set_mark mark field_start field_len].
    destruct HP as (? & ? & ?). rewrite !length_app. lia.
Qed.

Lemma run_no_value pre rest P d q a name b :
  pre = a ++ name ++ b -> name <> [] -> field_start P = len a -> field_len P = len name ->
  q ∈ value_starts -> len (pre ++ eol ++ rest ++ tail) < 2 ^ 62 -> marks P (len pre) ->
  reaches (run pre (eol ++ rest) q (P, d)) P (pre ++ eol) rest line_starts
    (rsp_setHeaderEntry d.1 (string_of_list_ascii name) "", d.2).
Proof.
  intros Hpre Hne Hf Hl Hq Hs HP. unfold eol at 1. cbn [app].
  destruct (rsp_run_enter _ _ _ q pre "013" ("010"%char :: rest) (P, d) empty_stops Hq eq_refl) as (acts & n & Hn & ->).
  apply to_spec in Hn as [->%list_elem_of_singleton Hn]. unfold act. cbn [run_response_actions].
  change (run_response_action _ _ _ Mark _ _) with (Ret (set_mark P (len pre), d)). cbn [obind].
  pose proof (rsp_write_value (len (pre ++ "013"%char :: "010"%char :: rest)) (set_mark P (len pre)) d a name b []
    ("013"%char :: "010"%char :: rest ++ tail) Hne) as E.
  rewrite app_nil_r, <- Hpre in E. cbn [app] in E |- *.
  rewrite E; [|by rewrite Hpre in Hs; rewrite <- !app_assoc in Hs|done..]. cbn [obind].
  match goal with |- context [run (pre ++ ["013"%char]) ("010"%char :: rest) n ?Pd] =>
    destruct (rsp_run_move _ _ _ n (pre ++ ["013"%char]) "010" rest Pd empty_line_ends Hn eq_refl) as (n2 & Hn2 & ->) end.
  exists (set_mark P (len pre)), n2. split_and!; [by rewrite <- app_assoc|exact Hn2|done|].
  unfold marks. cbn [set_mark mark field_start field_len].
  destruct HP as (? & ? & ?). rewrite !length_app. lia.
Qed.

Lemma rsp_run_field f pre rest P d q :
  rsp_field_ok f = true -> q ∈ line_starts ->
  len (pre ++ field_text f ++ rest ++ tail) < 2 ^ 62 -> marks P (len pre) ->
  reaches (run pre (field_text f ++ rest) q (P, d)) P (pre ++ field_text f) rest
    (if bool_decide (f_value f = []) then line_starts else [20; 43]) (with_rsp_field d f).
Proof.
  destruct f as [name b v]. unfold rsp_field_ok, field_text, with_rsp_field. cbn [f_name f_blanks f_value].
  intros [[[[Hne%negb_true_iff%bool_decide_eq_false Hn]%andb_true_iff Hb]%andb_true_iff Hv]%andb_true_iff Hx]%andb_true_iff Hq Hs HP.
  assert (forall r, (name ++ ":"%char :: b ++ v ++ eol) ++ r = name ++ ":"%char :: b ++ v ++ eol ++ r) as Ht
    by (intros r; by rewrite <- !app_assoc; cbn [app]; rewrite <- !app_assoc).
  rewrite Ht in Hs |- *.
  destruct (rsp_run_name name pre (b ++ v ++ eol ++ rest) P d q Hne Hn Hq) as (P1 & q1 & -> & Hq1 & K1 & M1 & F1 & L1);
    [|exact HP|].
  { repeat (rewrite length_app in * || cbn [List.length] in * ). lia. }
  set (pre1 := pre ++ name ++ [":"%char]) in *.
  assert (len pre1 = len pre + len name + 1) as Hl1
    by (unfold pre1; repeat (rewrite length_app || cbn [List.length]); lia).
  destruct (rsp_run_blanks b pre1 (v ++ eol ++ rest) P1 d q1 Hb Hq1) as (m & q2 & -> & Hq2 & Hm); [lia|].
  assert (marks (set_mark P1 m) (len (pre1 ++ b))) as HP2.
  { unfold marks. cbn [set_mark mark field_start field_len]. rewrite F1, L1. rewrite length_app in *. lia. }
  assert (pre1 ++ b = pre ++ name ++ ":"%char :: b) as Hpre by (unfold pre1; by rewrite <- !app_assoc).
  assert (len ((pre1 ++ b) ++ v ++ eol ++ rest ++ tail) < 2 ^ 62) as Hs2
    by (rewrite Hpre; rewrite <- !app_assoc; cbn [app]; exact Hs).
  assert (forall w, pre ++ name ++ ":"%char :: b ++ w = (pre1 ++ b) ++ w) as Hw
    by (intros w; rewrite Hpre, <- !app_assoc; reflexivity).
  rewrite Hw. apply (reaches_from _ P (set_mark P1 m)); [exact K1|].
  destruct v as [|x v]; [rewrite bool_decide_true by done|rewrite bool_decide_false by done].
  - apply (run_no_value _ rest (set_mark P1 m) d q2 pre name (":"%char :: b)); done.
  - apply (rsp_run_value _ _ rest (set_mark P1 m) d q2 pre name (":"%char :: b)); try done.
    by apply negb_true_iff in Hx.
Qed.

Definition fields_text (fs : list field) : list ascii := List.concat (map field_text fs).

Lemma rsp_run_fields fs pre rest P d q :
  forallb rsp_field_ok fs = true -> q ∈ line_starts ->
  len (pre ++ fields_text fs ++ rest ++ tail) < 2 ^ 62 -> marks P (len pre) ->
  reaches (run pre (fields_text fs ++ rest) q (P, d)) P (pre ++ fields_text fs) rest
    (match last fs with
     | Some f => if bool_decide (f_value f = []) then line_starts else [20; 43]
     | None => [q]
     end) (fold_left with_rsp_field fs d).
Proof.
  intros Hok. revert pre P d q. induction fs as [|f fs IH]; intros pre P d q Hq Hs HP.
  - cbn [fields_text map List.concat app last fold_left]. rewrite app_nil_r. exists P, q.
    split_and!; [done|by constructor|done|done].
  - simpl in Hok. apply andb_true_iff in Hok as [Hf Hfs].
    change (fields_text (f :: fs)) with (field_text f ++ fields_text fs) in *. rewrite <- app_assoc in Hs |- *.
    eapply rsp_reaches_trans; [apply (rsp_run_field f pre (fields_text fs ++ rest) P d q Hf Hq)|].
    + by rewrite <- app_assoc.
    + exact HP.
    + intros P' q' Hq' HP'. rewrite (app_assoc pre).
      assert (q' ∈ line_starts) as Hl.
      { destruct (bool_decide _); [exact Hq'|]. clear -Hq'. unfold line_starts.
        repeat (apply elem_of_cons in Hq' as [->|Hq']; [by repeat constructor|]). by apply elem_of_nil in Hq'. }
      destruct fs as [|f' fs].
      * cbn [fields_text map List.concat app last fold_left]. rewrite app_nil_r. exists P', q'.
        split_and!; [done|done|done|done].
      * change (last (f :: f' :: fs)) with (last (f' :: fs)).
        pose proof (IH Hfs (pre ++ field_text f) P' (with_rsp_field d f) q' Hl) as E.
        destruct (last (f' :: fs)) as [fl|] eqn:El; [|by apply last_None in El].
        apply E; [by rewrite <- !app_assoc|exact HP'].
Qed.

(** ** The end of the head *)
Lemma rsp_run_end pre rest P d q :
  q ∈ [20; 43] -> len (pre ++ eol ++ rest ++ tail) < 2 ^ 62 -> marks P (len pre) ->
  exists P', run pre (eol ++ rest) q (P, d) = Ret (120, len pre + 2, (P', d)) /\
    body_start P' = len pre + 2 /\ nread P' = nread P /\ marks P' (len pre).
Proof.
  intros Hq Hs HP. unfold eol. cbn [app].
  destruct (rsp_run_enter _ _ _ q pre "013" ("010"%char :: rest) (P, d) head_stops Hq eq_refl) as (acts & n & Hn & ->).
  apply to_spec in Hn as [Hacts ->%list_elem_of_singleton].
  assert (exists P1, act pre ("013"%char :: "010"%char :: rest) acts (P, d) = Ret (P1, d, None) /\
    nread P1 = nread P /\ marks P1 (len pre)) as (P1 & -> & N1 & M1).
  { apply elem_of_cons in Hacts as [-> | ->%list_elem_of_singleton]; eexists; by split. }
  cbn [obind].
  destruct (rsp_run_enter _ _ _ 3 (pre ++ ["013"%char]) "010" rest (P1, d) head_ends (list_elem_of_here _ _) eq_refl)
    as (acts' & n & Hn & ->).
  apply to_spec in Hn as [->%list_elem_of_singleton ->%list_elem_of_singleton].
  unfold act. cbn [run_response_actions run_response_action header_done response_callbacks].
  destruct (at_ok ((pre ++ ["013"%char]) ++ ("010"%char :: rest) ++ tail) (len (pre ++ ["013"%char]) + 1))
    as (t & -> & _).
  { repeat (rewrite length_app || cbn [List.length]). lia. }
  cbn [obind]. exists (set_body_start P1 (len (pre ++ ["013"%char]) + 1)).
  assert (len (pre ++ ["013"%char]) + 1 = len pre + 2) as -> by (rewrite length_app; simpl; lia).
  by split_and!.
Qed.
End run.
