(* ===== verification/HttpResponseCorrect.v ===== *)
(** * Correctness of the response parser

    What [HttpResponseParser] makes of a response head, of the text
    [HttpResponse::toString] prints, of a chunk header, and where it goes wrong. *)
From stdpp Require Import base list gmap strings.
From Stdlib Require Import ZArith Ascii String Lia.
From S2P Require Import Prelude CLib RegExp Ragel Http HttpCommon HttpCorrect HttpResponseTable.
From S2P Require Import HttpResponseParser HttpResponseSafe HttpResponseRun.
Open Scope Z_scope.

(** ** A response head *)
Record response : Set := mkResponseText {
  r_version : bool;                           (** HTTP/1.1 or HTTP/1.0 *)
  r_status : list ascii;
  r_reason : list ascii;
  r_fields : list field
}.

Definition response_ok (r : response) : bool :=
  is_digits (r_status r) &&
  negb (bool_decide (r_reason r = [])) && forallb (fun a => in_line (schar a)) (r_reason r) &&
  forallb rsp_field_ok (r_fields r) &&
  match last (r_fields r) with Some f => negb (bool_decide (f_value f = [])) | None => true end.

Definition response_text (r : response) : list ascii :=
  version_text (r_version r) ++ blank ++ r_status r ++ blank ++ r_reason r ++ eol ++
  fields_text (r_fields r) ++ eol.

(** What the callbacks make of it. *)
Definition stored (d : Data) (r : response) : Data :=
  fold_left with_rsp_field (r_fields r)
    (rsp_setReason (rsp_setStatus (rsp_setVersion d.1 (version_byte (r_version r)))
                      (atoi (string_of_list_ascii (r_status r))))
       (string_of_list_ascii (r_reason r)), d.2).

#[local] Opaque run exec.

Lemma run_response r body tail P d :
  response_ok r = true -> len (response_text r ++ body ++ tail) < 2 ^ 62 -> marks P 0 ->
  exists P', run tail [] (response_text r ++ body) 1 (P, d) =
    Ret (120, len (response_text r), (P', stored d r)) /\
    body_start P' = len (response_text r) /\ nread P' = nread P /\ marks P' (len (response_text r) - 1).
Proof.
  destruct r as [v st rs fs]. unfold response_ok, response_text, stored.
  cbn [r_version r_status r_reason r_fields].
  intros [[[[Hst Hr0%negb_true_iff%bool_decide_eq_false]%andb_true_iff Hr]%andb_true_iff Hf]%andb_true_iff Hlast]%andb_true_iff Hs HP.
  rewrite <- !app_assoc in Hs |- *.
  set (t4 := eol ++ body). set (t3 := fields_text fs ++ t4). set (t2 := rs ++ eol ++ t3).
  set (t1 := st ++ blank ++ t2).
  set (p1 := version_text v ++ blank). set (p2 := p1 ++ st ++ blank). set (p3 := p2 ++ rs ++ eol).
  set (p4 := p3 ++ fields_text fs).
  assert (version_text v ++ blank ++ st ++ blank ++ rs ++ eol ++ fields_text fs ++ eol = p4 ++ eol) as ->
    by (unfold p4, p3, p2, p1; by rewrite <- !app_assoc).
  assert (forall w, len (p4 ++ w) <= len (p4 ++ eol ++ body ++ tail) -> len (p4 ++ w) < 2 ^ 62) as Hb.
  { intros w Hw. eapply Z.le_lt_trans; [exact Hw|]. eapply Z.le_lt_trans; [|exact Hs].
    unfold p4, p3, p2, p1. rewrite <- !app_assoc. lia. }
  assert (len (p4 ++ eol ++ body ++ tail) < 2 ^ 62) as H4 by (apply Hb; lia).
  assert (p4 ++ eol ++ body ++ tail = p3 ++ fields_text fs ++ t4 ++ tail) as E4
    by (unfold p4, t4; by rewrite <- !app_assoc).
  assert (p4 ++ eol ++ body ++ tail = p2 ++ rs ++ eol ++ t3 ++ tail) as E3
    by (rewrite E4; unfold p3, t3; by rewrite <- !app_assoc).
  assert (p4 ++ eol ++ body ++ tail = p1 ++ st ++ blank ++ t2 ++ tail) as E2
    by (rewrite E3; unfold p2, t2; by rewrite <- !app_assoc).
  assert (p4 ++ eol ++ body ++ tail = version_text v ++ blank ++ t1 ++ tail) as E1
    by (rewrite E2; unfold p1, t1; by rewrite <- !app_assoc).
  destruct (rsp_run_version tail v t1 P d) as (P1 & q1 & -> & ->%list_elem_of_singleton & K1 & M1);
    [by rewrite <- E1|done|]. fold p1 in M1 |- *.
  destruct (run_status tail st p1 t2 P1 (rsp_setVersion d.1 (version_byte v), d.2) Hst)
    as (P2 & q2 & R2 & ->%list_elem_of_singleton & K2 & M2); [by rewrite <- E2|exact M1|].
  unfold t1. rewrite R2. fold p2 in M2 |- *. cbn [fst snd].
  match goal with |- context [run _ p2 t2 18 (P2, ?d2)] =>
    destruct (run_reason tail rs p2 t3 P2 d2 Hr0 Hr) as (P3 & q3 & R3 & ->%list_elem_of_singleton & K3 & M3);
      [by rewrite <- E3|exact M2|] end.
  unfold t2. rewrite R3. fold p3 in M3 |- *. cbn [fst snd].
  match goal with |- context [run _ p3 t3 20 (P3, ?d3)] =>
    destruct (rsp_run_fields tail fs p3 t4 P3 d3 20 Hf) as (P4 & q4 & R4 & Hq4 & K4 & M4);
      [by repeat constructor|by rewrite <- E4|exact M3|] end.
  unfold t3. rewrite R4. fold p4 in M4 |- *.
  assert (q4 ∈ [20; 43]) as Hq.
  { destruct (last fs) as [f|]; [|by apply list_elem_of_singleton in Hq4 as ->; constructor].
    destruct (bool_decide (f_value f = [])); [discriminate Hlast|exact Hq4]. }
  match goal with |- context [run _ p4 t4 q4 (P4, ?d4)] =>
    destruct (rsp_run_end tail p4 body P4 d4 q4 Hq H4 M4) as (P5 & R5 & B5 & N5 & M5) end.
  unfold t4. rewrite R5.
  assert (len p4 + 2 = len (p4 ++ eol)) as -> by (rewrite length_app; simpl; lia).
  exists P5. split_and!; [reflexivity| | |].
  - rewrite B5, length_app. simpl. lia.
  - rewrite N5. destruct K1 as [_ ?], K2 as [_ ?], K3 as [_ ?], K4 as [_ ?]. congruence.
  - apply (rsp_marks_weaken _ _ _ M5). rewrite length_app. simpl. lia.
Qed.

Lemma stored_error r : (stored (new_HttpResponse, 0) r).2 = 0.
Proof.
  unfold stored. generalize (r_fields r). intros fs.
  match goal with |- (fold_left _ _ ?d).2 = 0 => assert (d.2 = 0) as Hd by done; revert Hd; generalize d end.
  induction fs as [|f fs IH]; intros d Hd; [exact Hd|]. apply IH. exact Hd.
Qed.

(** A response head is read as it was written: from a new parser, it is
    consumed to the last character, the body is left at the front of the memory,
    the parser is finished, and the response object holds the version, status,
    reason and header fields of the text, in order. *)
Lemma execute_reads_response r body tail :
  response_ok r = true -> len (response_text r ++ body) < 2 ^ 31 ->
  len (response_text r ++ body ++ "000"%char :: tail) < 2 ^ 62 ->
  exists R rest,
    execute new_HttpResponseParser (response_text r ++ body ++ "000"%char :: tail)
        (len (response_text r ++ body)) false =
      Ret (len (response_text r), body ++ rest, R) /\
    isFinished R = 1 /\ hasError R = false /\ (m_data R, m_error R) = stored (new_HttpResponse, 0) r.
Proof.
  intros Hr Hs Hs2. set (P := start_parser new_HttpResponseParser false).
  destruct (run_response r body ("000"%char :: tail) P (new_HttpResponse, 0) Hr Hs2) as (P' & E & B & N & M); [done|].
  pose proof (stored_error r) as m_error_stored.
  destruct (stored (new_HttpResponse, 0) r) as [q err] eqn:Est. cbn [snd] in m_error_stored. subst err.
  set (text := response_text r) in *.
  assert (len text <= len (text ++ body)) as Hle by (rewrite length_app; lia).
  assert (0 < len text) as Hpos.
  { unfold text, response_text. rewrite length_app. simpl. lia. }
  assert (buffer_of (text ++ body ++ "000"%char :: tail) (len (text ++ body)) = text ++ body) as Hbuf.
  { unfold buffer_of. rewrite Nat2Z.id, (app_assoc text body). by rewrite take_app_length. }
  eexists _, _. split.
  - rewrite (rsp_execute_exec new_HttpResponseParser _ _ false 120 (len text) P' (q, 0)).
    + rewrite Hbuf, Nat2Z.id, drop_app_length. reflexivity.
    + lia.
    + unfold nul_ended. rewrite Nat2Z.id, app_assoc, lookup_app_r by lia.
      by rewrite Nat.sub_diag.
    + rewrite Hbuf. with_strategy transparent [run] unfold run in E. rewrite !app_nil_l in E.
      rewrite <- app_assoc in E. exact E.
    + exact N.
    + lia.
    + rewrite B. lia.
    + apply (rsp_marks_weaken _ _ _ M). lia.
  - split; [reflexivity|]. split; reflexivity.
Qed.

(** ** What [toString] prints is read back *)
(** *** Decimal numbers *)
Lemma digit_char_value d : 0 <= d < 10 -> schar (digit_char d) = 48 + d.
Proof.
  intros Hd. assert (forallb (fun d => schar (digit_char d) =? 48 + d) (map Z.of_nat (seq 0 10)) = true) as H
    by (vm_compute; reflexivity).
  rewrite forallb_forall in H. apply Z.eqb_eq, H, in_map_iff.
  exists (Z.to_nat d). split; [lia|]. apply in_seq. lia.
Qed.

Lemma decimal_aux_digits fuel n acc :
  0 <= n ->
  exists w, list_ascii_of_string (decimal_aux fuel n acc) = w ++ list_ascii_of_string acc /\
    forallb (fun a => isdigit (schar a)) w = true /\ (fuel <> O -> w <> []) /\
    (n < 10 ^ Z.of_nat fuel -> forall a l, digits_value a (map schar (w ++ l)) =
       digits_value (a * 10 ^ len w + n) (map schar l)).
Proof.
  revert n acc. induction fuel as [|fuel IH]; intros n acc Hn; cbn [decimal_aux].
  - exists []. split_and!; [done|done|by intros []|]. intros Hlt a l. simpl in *. f_equal. lia.
  - pose proof (Z.mod_pos_bound n 10) as Hm. pose proof (digit_char_value (n mod 10)) as Hd.
    assert (isdigit (schar (digit_char (n mod 10))) = true) as Hdig.
    { rewrite Hd by lia. unfold isdigit. rewrite andb_true_iff, !Z.leb_le. lia. }
    destruct (Z.ltb_spec n 10) as [Hs|Hb].
    + exists [digit_char (n mod 10)]. split_and!; [done|cbn [forallb]; by rewrite Hdig|done|].
      intros _ a l. cbn [app map digits_value]. rewrite Hdig, Hd by lia.
      rewrite Z.mod_small by lia. f_equal. simpl. lia.
    + destruct (IH (n / 10) (String (digit_char (n mod 10)) acc)) as (w & E & Hw & _ & Hv);
        [by apply Z.div_pos|].
      exists (w ++ [digit_char (n mod 10)]). split_and!.
      * rewrite E. cbn [list_ascii_of_string]. by rewrite <- app_assoc.
      * rewrite forallb_app, Hw. simpl. by rewrite Hdig.
      * intros _. by destruct w.
      * intros Hlt a l. rewrite <- app_assoc, Hv.
        2: { apply Z.div_lt_upper_bound; [lia|]. rewrite Nat2Z.inj_succ, Z.pow_succ_r in Hlt by lia. lia. }
        cbn [app map digits_value]. rewrite Hdig, Hd by lia. f_equal.
        rewrite length_app, Nat2Z.inj_add. cbn [List.length]. rewrite Z.pow_add_r by lia.
        pose proof (Z.div_mod n 10). change (10 ^ Z.of_nat 1) with 10. lia.
Qed.

Lemma decimal_digits n :
  0 <= n < 2 ^ 31 ->
  is_digits (list_ascii_of_string (decimal n)) = true /\
  atoi (decimal n) = n.
Proof.
  intros Hn. unfold decimal. rewrite (proj2 (Z.ltb_ge n 0)) by lia.
  destruct (decimal_aux_digits 20 n "" ltac:(lia)) as (w & E & Hw & Hne & Hv).
  rewrite app_nil_r in E. split.
  - unfold is_digits. rewrite E, Hw, bool_decide_eq_false_2 by auto. done.
  - specialize (Hv ltac:(lia) 0 []). rewrite app_nil_r in Hv. cbn [map digits_value] in Hv.
    unfold atoi, strtol10, CLib.chars. rewrite E. specialize (Hne ltac:(lia)).
    destruct w as [|a w]; [done|]. simpl in Hw. apply andb_true_iff in Hw as [Ha Hw].
    cbn [map skip_space]. pose proof Ha as Hd. unfold isdigit in Ha.
    apply andb_true_iff in Ha as [H1%Z.leb_le H2%Z.leb_le].
    assert (isspace (schar a) = false) as -> by (unfold isspace; lia).
    rewrite (proj2 (Z.eqb_neq _ 45)), (proj2 (Z.eqb_neq _ 43)) by lia.
    change (schar a :: map schar w) with (map schar (a :: w)). rewrite Hv.
    rewrite Z.min_r, Z.max_r by lia. apply (wraps_small 32); [done|].
    unfold in_int. change (2 ^ (32 - 1)) with (2 ^ 31).
    apply andb_true_iff. split; [apply Z.leb_le|apply Z.ltb_lt]; lia.
Qed.

(** *** The text of a response *)
Definition entry_field (kv : string * string) : field :=
  Field (list_ascii_of_string kv.1) blank (list_ascii_of_string kv.2).

(** The header lines, in order; the entry spelled "connection" is left out. *)
Definition entries (r : HttpResponse) : list (string * string) :=
  filter (fun kv => kv.1 <> "connection"%string) (rsp_headers r) ++
  [("connection", if rsp_close r then "close" else "keep-alive")]%string ++
  (if bool_decide (rsp_body r = ""%string) then [] else [("content-length"%string, size_text (rsp_body r))]).

Definition printed_reason (r : HttpResponse) : string :=
  if bool_decide (rsp_reason r = ""%string) then HttpStatusToString (rsp_status r) else rsp_reason r.
Definition printed_body (r : HttpResponse) : string :=
  if bool_decide (rsp_body r = ""%string) then ""%string else (rsp_body r ++ crlf)%string.

Definition printed (r : HttpResponse) : response :=
  mkResponseText (bool_decide (rsp_version r = 0x11)) (list_ascii_of_string (decimal (rsp_status r)))
    (list_ascii_of_string (printed_reason r)) (map entry_field (entries r)).

(** A response that can be printed in a line-based text: one-line reason and
    values, names of token characters, values that do not begin with a blank. *)
Definition printable (r : HttpResponse) : bool :=
  one_of [0x10; 0x11] (rsp_version r) && (0 <=? rsp_status r) && (rsp_status r <? 2 ^ 31) &&
  forallb (fun a => in_line (schar a)) (list_ascii_of_string (rsp_reason r)) &&
  forallb (fun kv => rsp_field_ok (entry_field kv)) (rsp_headers r).

Lemma fields_text_app fs gs : fields_text (fs ++ gs) = fields_text fs ++ fields_text gs.
Proof. unfold fields_text. by rewrite map_app, concat_app. Qed.

Lemma entry_text k v :
  list_ascii_of_string (k ++ ": " ++ v ++ crlf)%string = field_text (entry_field (k, v)).
Proof. rewrite !ascii_list_app. reflexivity. Qed.

Lemma header_lines_text m :
  list_ascii_of_string (header_lines m) =
  fields_text (map entry_field (filter (fun kv => kv.1 <> "connection"%string) m)).
Proof.
  induction m as [|[k v] m IH]; [done|]. cbn [header_lines]. rewrite ascii_list_app, IH, filter_cons.
  case_bool_decide as E.
  - subst k. rewrite decide_False by (intros H; by apply H). reflexivity.
  - rewrite decide_True by exact E. rewrite entry_text. reflexivity.
Qed.

Lemma printed_version r :
  one_of [0x10; 0x11] (rsp_version r) = true ->
  list_ascii_of_string (Http.version_text (rsp_version r)) =
    version_text (bool_decide (rsp_version r = 0x11)) /\
  version_byte (bool_decide (rsp_version r = 0x11)) = rsp_version r.
Proof.
  unfold one_of. simpl. intros [E%Z.eqb_eq|E]%orb_true_iff; [rewrite E; split; reflexivity|].
  rewrite orb_false_r in E. apply Z.eqb_eq in E. rewrite E. split; reflexivity.
Qed.

Lemma printed_text r :
  one_of [0x10; 0x11] (rsp_version r) = true ->
  list_ascii_of_string (HttpResponse_toString r) =
  response_text (printed r) ++ list_ascii_of_string (printed_body r).
Proof.
  intros Hv. destruct (printed_version r Hv) as [Ev _].
  unfold HttpResponse_toString, response_text, printed. cbn [r_version r_status r_reason r_fields].
  unfold entries. rewrite !map_app, !fields_text_app. rewrite !ascii_list_app, Ev, header_lines_text.
  fold (printed_reason r). rewrite <- !app_assoc. change (list_ascii_of_string " ") with blank.
  change (list_ascii_of_string crlf) with eol. do 7 f_equal.
  assert (forall c, list_ascii_of_string "connection: " ++ list_ascii_of_string c ++ eol =
    fields_text (map entry_field [("connection", c)]%string)) as Hc.
  { intros c. unfold fields_text. cbn [map List.concat]. rewrite app_nil_r, <- entry_text.
    by rewrite !ascii_list_app. }
  rewrite !app_assoc. rewrite <- (app_assoc (list_ascii_of_string "connection: ")), Hc.
  rewrite <- !app_assoc. f_equal. unfold printed_body. destruct (bool_decide (rsp_body r = ""%string)); [reflexivity|].
  unfold fields_text. cbn [map List.concat].
  rewrite app_nil_r, <- entry_text, !ascii_list_app, <- !app_assoc. reflexivity.
Qed.

Definition one_line (s : string) : bool := forallb (fun a => in_line (schar a)) (list_ascii_of_string s).

Lemma status_names_one_line :
  forallb (fun e => one_line e.2 && negb (bool_decide (e.2 = ""%string))) HTTP_STATUS_MAP = true.
Proof. vm_compute. reflexivity. Qed.

Lemma status_name_ok s : one_line (HttpStatusToString s) = true /\ HttpStatusToString s <> ""%string.
Proof.
  unfold HttpStatusToString. pose proof status_names_one_line as H. revert H.
  generalize HTTP_STATUS_MAP. intros l. induction l as [|[n name] l IH]; [done|].
  cbn [forallb snd status_name].
  intros [[Ho Hne%negb_true_iff%bool_decide_eq_false]%andb_true_iff Hl]%andb_true_iff.
  destruct (s =? n); [done|by apply IH].
Qed.

Lemma nonempty_list s : s <> ""%string -> list_ascii_of_string s <> [].
Proof. by destruct s. Qed.

Lemma digits_one_line w :
  is_digits w = true ->
  forallb (fun a => in_line (schar a)) w = true /\ w <> [] /\
  match w with a :: _ => negb (is_space (schar a)) | [] => true end = true.
Proof.
  unfold is_digits. intros [Hne%negb_true_iff%bool_decide_eq_false Hw]%andb_true_iff.
  assert (forall c, isdigit c = true -> in_line c = true /\ negb (is_space c) = true) as Hc.
  { unfold isdigit, in_line, is_space, one_of. cbn [existsb].
    intros c [H1%Z.leb_le H2%Z.leb_le]%andb_true_iff. lia. }
  split_and!; [|exact Hne|].
  - apply forallb_forall. intros a Ha. rewrite forallb_forall in Hw. by apply Hc, Hw.
  - destruct w as [|a w]; [done|]. simpl in Hw. apply andb_true_iff in Hw as [Ha _]. by apply Hc.
Qed.

Lemma printable_ok r :
  printable r = true -> Z.of_nat (String.length (rsp_body r)) < 2 ^ 31 -> response_ok (printed r) = true.
Proof.
  unfold printable.
  intros [[[[Hv H1%Z.leb_le]%andb_true_iff H2%Z.ltb_lt]%andb_true_iff Hr]%andb_true_iff Hh]%andb_true_iff Hb.
  destruct (decimal_digits (rsp_status r)) as [Hst _]; [lia|].
  unfold response_ok, printed. cbn [r_status r_reason r_fields]. rewrite Hst. cbn [andb].
  assert (one_line (printed_reason r) = true /\ printed_reason r <> ""%string) as [Ho Hne].
  { unfold printed_reason. case_bool_decide; [apply status_name_ok|by split]. }
  rewrite bool_decide_eq_false_2 by (by apply nonempty_list). unfold one_line in Ho. rewrite Ho. cbn [negb andb].
  set (c := ("connection"%string, if rsp_close r then "close" else "keep-alive")%string).
  assert (rsp_field_ok (entry_field c) = true /\ negb (bool_decide (f_value (entry_field c) = [])) = true) as [Hc Hcv]
    by (unfold c; destruct (rsp_close r); split; reflexivity).
  assert (forall n, 0 <= n < 2 ^ 31 -> rsp_field_ok (entry_field ("content-length", decimal n)%string) = true /\
    negb (bool_decide (f_value (entry_field ("content-length", decimal n)%string) = [])) = true) as Hl.
  { intros n Hn. destruct (decimal_digits n Hn) as [Hd _]. apply digits_one_line in Hd as (Hd1 & Hd2 & Hd3).
    unfold rsp_field_ok, entry_field. cbn [f_name f_blanks f_value fst snd]. rewrite Hd1, Hd3.
    split; [reflexivity|]. by rewrite bool_decide_eq_false_2. }
  assert (forallb rsp_field_ok
    (map entry_field (filter (fun kv => kv.1 <> "connection"%string) (rsp_headers r))) = true) as Hf.
  { apply forallb_forall. intros f (kv & <- & Hkv)%in_map_iff. rewrite forallb_forall in Hh. apply Hh.
    apply list_elem_of_In in Hkv. apply list_elem_of_filter in Hkv as [_ Hkv]. by apply list_elem_of_In. }
  unfold entries. fold c. rewrite !map_app, !forallb_app, Hf. cbn [map forallb andb]. rewrite Hc. cbn [andb].
  destruct (bool_decide (rsp_body r = ""%string)); cbn [map forallb andb app].
  - rewrite last_snoc. exact Hcv.
  - destruct (Hl (Z.of_nat (String.length (rsp_body r)))) as [Hl1 Hl2]; [lia|].
    unfold size_text. rewrite Hl1. cbn [andb].
    change [entry_field c; entry_field ("content-length"%string, decimal (Z.of_nat (String.length (rsp_body r))))]
      with ([entry_field c] ++ [entry_field ("content-length"%string, decimal (Z.of_nat (String.length (rsp_body r))))]).
    rewrite app_assoc, last_snoc. exact Hl2.
Qed.

(** *** The header map that is read back *)
Definition set_entries (l : list (string * string)) (m : HttpMap) : HttpMap :=
  fold_left (fun m kv => map_set m kv.1 kv.2) l m.

Lemma set_entries_ok l m : map_ok m -> map_ok (set_entries l m).
Proof.
  revert m. induction l as [|kv l IH]; intros m Hm; [done|]. apply IH. by apply map_set_spec.
Qed.

(** The last entry of a name decides. *)
Lemma set_entries_app l1 l2 m : set_entries (l1 ++ l2) m = set_entries l2 (set_entries l1 m).
Proof. unfold set_entries. by rewrite fold_left_app. Qed.

Lemma set_entries_other l m k :
  map_ok m -> Forall (fun kv => norm kv.1 <> k) l -> denote (set_entries l m) !! k = denote m !! k.
Proof.
  intros Hm Hl. revert m Hm. induction Hl as [|kv l Hkv Hl IH]; intros m Hm; [done|].
  destruct (map_set_spec m kv.1 kv.2 Hm) as (Hok & Hd & _).
  cbn [set_entries fold_left]. fold (set_entries l (map_set m kv.1 kv.2)).
  by rewrite IH, Hd, lookup_insert_ne by done.
Qed.

(** The entries of an ordered map, those spelled "connection" left out, build it
    again as far as other names are concerned. *)
Lemma set_entries_filter l m k :
  map_ok l -> map_ok m -> k <> "connection"%string -> denote m !! k = None ->
  denote (set_entries (filter (fun kv => kv.1 <> "connection"%string) l) m) !! k = denote l !! k.
Proof.
  intros Hl Hm Hk. revert m Hm. induction l as [|[k' v'] l IH]; intros m Hm Hn; [done|].
  apply map_ok_tail in Hl as [Hl Hlater]. rewrite filter_cons, denote_cons.
  case_decide as E.
  - match goal with |- context [set_entries (_ :: ?l) m] =>
      change (set_entries (_ :: l) m) with (set_entries l (map_set m k' v')) end.
    destruct (map_set_spec m k' v' Hm) as (Hok & Hd & _).
    destruct (decide (norm k' = k)) as [<-|Hne].
    + rewrite lookup_insert_eq, set_entries_other; [by rewrite Hd, lookup_insert_eq|done|].
      apply Forall_forall. intros y [_ Hy]%list_elem_of_filter Heq. rewrite Forall_forall in Hlater.
      specialize (Hlater y Hy). by rewrite (less_irrefl k' y.1 (eq_sym Heq)) in Hlater.
    + rewrite lookup_insert_ne by done. apply IH; [done|done|]. by rewrite Hd, lookup_insert_ne.
  - assert (k' = "connection"%string) as -> by exact E.
    rewrite lookup_insert_ne by (intros <-; by apply Hk). by apply IH.
Qed.

Lemma stored_entries l d :
  fold_left with_rsp_field (map entry_field l) d = (rsp_setHeaders d.1 (set_entries l (rsp_headers d.1)), d.2).
Proof.
  revert d. induction l as [|kv l IH]; intros d; cbn [map fold_left].
  - destruct d as [q e]. by destruct q.
  - rewrite IH. unfold with_rsp_field, entry_field. cbn [f_name f_value fst snd].
    by rewrite !string_of_list_ascii_of_string.
Qed.

(** The response object that holds the head of what [toString] prints. *)
Lemma stored_printed r :
  printable r = true -> map_ok (rsp_headers r) ->
  let q := (stored (new_HttpResponse, 0) (printed r)).1 in
  rsp_version q = rsp_version r /\ rsp_status q = rsp_status r /\ rsp_reason q = printed_reason r /\
  rsp_getHeaderEntry q "connection" = (if rsp_close r then "close" else "keep-alive")%string /\
  (rsp_body r <> ""%string -> map_find (rsp_headers q) "content-length" = Some (size_text (rsp_body r))) /\
  forall k, norm k <> "connection"%string ->
    (norm k <> "content-length"%string \/ rsp_body r = ""%string) ->
    map_find (rsp_headers q) k = map_find (rsp_headers r) k.
Proof.
  intros Hp Hm q.
  assert (one_of [0x10; 0x11] (rsp_version r) = true /\ 0 <= rsp_status r < 2 ^ 31) as [Hv Hst].
  { unfold printable in Hp. repeat (apply andb_true_iff in Hp as [Hp ?]). bool_hyps. split; [done|lia]. }
  assert (q = (stored (new_HttpResponse, 0) (printed r)).1) as Hd by reflexivity. clearbody q.
  unfold stored, printed in Hd. cbn [r_version r_status r_reason r_fields] in Hd.
  rewrite stored_entries, !string_of_list_ascii_of_string in Hd. cbn [fst] in Hd.
  set (h := set_entries (entries r) []).
  assert (rsp_headers q = h) as Hh by (rewrite Hd; reflexivity).
  assert (map_ok []) as H0 by constructor.
  assert (map_ok h) as Hok by (by apply set_entries_ok).
  split; [rewrite Hd; apply (printed_version r Hv)|].
  split; [rewrite Hd; apply (decimal_digits _ Hst)|]. split; [rewrite Hd; reflexivity|].
  assert (forall k, map_find (rsp_headers q) k = denote h !! norm k) as Hget.
  { intros k. by rewrite Hh, map_find_denote. }
  set (l1 := filter (fun kv => kv.1 <> "connection"%string) (rsp_headers r)) in *.
  set (c := (if rsp_close r then "close" else "keep-alive")%string) in *.
  set (l3 := if bool_decide (rsp_body r = ""%string) then []
             else [("content-length"%string, size_text (rsp_body r))]) in *.
  assert (map_ok (set_entries l1 [])) as Hok1 by (by apply set_entries_ok).
  destruct (map_set_spec (set_entries l1 []) "connection" c Hok1) as (Hok2 & Hd2 & _).
  assert (h = set_entries l3 (map_set (set_entries l1 []) "connection" c)) as Eh
    by (unfold h, entries; rewrite !set_entries_app; reflexivity).
  assert (denote (map_set (set_entries l1 []) "connection" c) !! "connection"%string = Some c) as Hdc.
  { rewrite Hd2. change (norm "connection") with "connection"%string. by rewrite lookup_insert_eq. }
  split; [|split].
  - unfold rsp_getHeaderEntry, map_get. rewrite Hget, Eh, set_entries_other; [|done|].
    + change (norm "connection") with "connection"%string. by rewrite Hdc.
    + unfold l3. destruct (bool_decide (rsp_body r = ""%string)); repeat constructor.
      intros E'. vm_compute in E'. discriminate E'.
  - intros Hb0. rewrite Hget, Eh. unfold l3. rewrite bool_decide_eq_false_2 by done.
    destruct (map_set_spec _ "content-length" (size_text (rsp_body r)) Hok2) as (_ & Hd3 & _).
    cbn [set_entries fold_left fst snd]. rewrite Hd3.
    change (norm "content-length") with "content-length"%string. by rewrite lookup_insert_eq.
  - intros k Hk Hl. rewrite Hget, Eh, set_entries_other, Hd2; [|done|].
    + rewrite lookup_insert_ne by (intros E'; by apply Hk). unfold l1. rewrite set_entries_filter by done.
      by rewrite map_find_denote.
    + unfold l3. destruct (bool_decide_reflect (rsp_body r = ""%string)) as [Eb|Eb]; repeat constructor.
      destruct Hl as [Hl|Hl]; [|done]. intros E'. by apply Hl.
Qed.

(** A new parser on what [HttpResponse::toString] prints. *)
Lemma execute_printed r tail :
  printable r = true -> map_ok (rsp_headers r) ->
  let text := list_ascii_of_string (HttpResponse_toString r) in
  len text < 2 ^ 31 -> len (text ++ "000"%char :: tail) < 2 ^ 62 ->
  exists n rest R,
    execute new_HttpResponseParser (text ++ "000"%char :: tail) (len text) false =
      Ret (n, list_ascii_of_string (printed_body r) ++ rest, R) /\
    n + len (list_ascii_of_string (printed_body r)) = len text /\
    isFinished R = 1 /\ hasError R = false /\ m_data R = (stored (new_HttpResponse, 0) (printed r)).1.
Proof.
  intros Hp Hm text Hs Hs2.
  assert (one_of [0x10; 0x11] (rsp_version r) = true) as Hv.
  { unfold printable in Hp. repeat (apply andb_true_iff in Hp as [Hp ?]). done. }
  pose proof (printed_text r Hv) as Et. fold text in Et.
  assert (Z.of_nat (String.length (rsp_body r)) < 2 ^ 31) as Hb.
  { revert Hs. rewrite Et, length_app. unfold printed_body. case_bool_decide as E; [by rewrite E|].
    rewrite ascii_list_app, length_app, list_ascii_length. lia. }
  destruct (execute_reads_response (printed r) (list_ascii_of_string (printed_body r)) tail
    (printable_ok r Hp Hb)) as (R & rest & E & Hfin & Herr & Hd).
  { by rewrite <- Et. } { by rewrite app_assoc, <- Et. }
  rewrite <- Et, app_assoc, <- Et in E. eexists _, rest, R. split; [exact E|].
  split; [rewrite Et, length_app; lia|]. split; [exact Hfin|]. split; [exact Herr|]. by rewrite <- Hd.
Qed.

(** C4: what [HttpResponse::toString] prints is read back by a response parser, for a
    response that is printable: of version 1.0 or 1.1, with a status that is not
    negative, a reason of one line, headers whose names are tokens and whose values
    are of one line and do not begin with a blank, and a text below 2^31 characters.
    (A new response has the version 0, and is not.) The parser consumes the head,
    leaves the body at the front of the memory, and holds the version, the status,
    the reason (the name of the status when there was none), every header but those
    printed from [close_] and the body, in place of "connection" what [close_] says,
    and as "content-length" the size of the body when there is one. *)
Theorem response_round_trip r tail :
  printable r = true -> map_ok (rsp_headers r) ->
  let text := list_ascii_of_string (HttpResponse_toString r) in
  len text < 2 ^ 31 -> len (text ++ "000"%char :: tail) < 2 ^ 62 ->
  exists n rest R,
    execute new_HttpResponseParser (text ++ "000"%char :: tail) (len text) false =
      Ret (n, list_ascii_of_string (printed_body r) ++ rest, R) /\
    n + len (list_ascii_of_string (printed_body r)) = len text /\
    isFinished R = 1 /\ hasError R = false /\
    rsp_version (m_data R) = rsp_version r /\ rsp_status (m_data R) = rsp_status r /\
    rsp_reason (m_data R) = printed_reason r /\
    rsp_getHeaderEntry (m_data R) "connection" = (if rsp_close r then "close" else "keep-alive")%string /\
    (rsp_body r <> ""%string ->
     map_find (rsp_headers (m_data R)) "content-length" = Some (size_text (rsp_body r))) /\
    forall k, norm k <> "connection"%string ->
      (norm k <> "content-length"%string \/ rsp_body r = ""%string) ->
      map_find (rsp_headers (m_data R)) k = map_find (rsp_headers r) k.
Proof.
  intros Hp Hm text Hs Hs2. destruct (execute_printed r tail Hp Hm Hs Hs2) as (n & rest & R & E & Hn & Hfin & He & Hd).
  exists n, rest, R. rewrite Hd. do 4 (split; [assumption|]). exact (stored_printed r Hp Hm).
Qed.

(** ** Chunk headers *)
Lemma xdigits_value_stop n w b rest :
  forallb (fun a => is_xdigit (schar a)) w = true -> xdigit_value (schar b) = None ->
  xdigits_value n (map schar (w ++ b :: rest)) = xdigits_value n (map schar w).
Proof.
  intros Hw Hb. revert n. induction w as [|a w IH]; intros n.
  - cbn [app map xdigits_value]. by rewrite Hb.
  - cbn [forallb] in Hw. apply andb_true_iff in Hw as [Ha Hw]. cbn [app map xdigits_value].
    destruct (xdigit_value (schar a)); [by apply IH|done].
Qed.

Lemma xdigit_plain c : is_xdigit c = true -> isspace c = false /\ c <> 45 /\ c <> 43 /\ c <> 120 /\ c <> 88.
Proof. unfold is_xdigit, isdigit, isspace. lia. Qed.

Lemma skip_0x_none a b rest : schar b <> 120 -> schar b <> 88 ->
  skip_0x (map schar (a :: b :: rest)) = map schar (a :: b :: rest).
Proof.
  intros H1 H2. destruct rest as [|c rest]; [done|]. cbn [map skip_0x].
  rewrite (proj2 (Z.eqb_neq _ _) H1), (proj2 (Z.eqb_neq _ _) H2). by rewrite andb_false_r.
Qed.

Lemma strtol16_digits w b rest :
  w <> [] -> forallb (fun a => is_xdigit (schar a)) w = true ->
  xdigit_value (schar b) = None -> schar b <> 120 -> schar b <> 88 ->
  0 <= xdigits_value 0 (map schar w) < 2 ^ 63 ->
  strtol16 (string_of_list_ascii (w ++ b :: rest)) = xdigits_value 0 (map schar w).
Proof.
  intros Hne Hw Hb Hb1 Hb2 Hv. unfold strtol16, CLib.chars. rewrite list_ascii_of_string_of_list_ascii.
  pose proof (xdigits_value_stop 0 w b rest Hw Hb) as Hstop.
  destruct w as [|a w]; [done|]. cbn [forallb] in Hw. apply andb_true_iff in Hw as [Ha Hw].
  destruct (xdigit_plain _ Ha) as (Hsp & H45 & H43 & _).
  assert (skip_0x (map schar ((a :: w) ++ b :: rest)) = map schar ((a :: w) ++ b :: rest)) as Hskip.
  { destruct w as [|a' w]; [by apply skip_0x_none|]. cbn [forallb] in Hw.
    apply andb_true_iff in Hw as [Ha' _]. destruct (xdigit_plain _ Ha') as (_ & _ & _ & ? & ?).
    by apply skip_0x_none. }
  cbn [app map skip_space] in Hskip, Hstop |- *. rewrite Hsp.
  rewrite (proj2 (Z.eqb_neq _ _) H45), (proj2 (Z.eqb_neq _ _) H43), Hskip, Hstop.
  cbn [map] in Hv. lia.
Qed.

Lemma run_chunk_header w body tail P d :
  w <> [] -> forallb (fun a => is_xdigit (schar a)) w = true ->
  0 <= xdigits_value 0 (map schar w) < 2 ^ 63 -> len (w ++ eol ++ body ++ tail) < 2 ^ 62 -> marks P 0 ->
  let n := i32 (xdigits_value 0 (map schar w)) in
  exists P', run tail [] (w ++ eol ++ body) 1 (P, d) = Ret (120, len w + 2, (P', d)) /\
    chunked P' = 1 /\ content_len P' = n /\ chunks_done P' = (if n <=? 0 then 1 else 0) /\
    body_start P' = len w + 2 /\ nread P' = nread P /\ marks P' (len w).
Proof.
  intros Hne Hw Hv Hs HP n.
  assert (run tail [] (w ++ eol ++ body) 1 (P, d) = run tail w (eol ++ body) 2 (set_mark P 0, d)) as ->.
  { destruct w as [|a w]; [done|]. cbn [forallb] in Hw. apply andb_true_iff in Hw as [Ha Hw]. cbn [app].
    rewrite (run_one tail 1 is_xdigit [Mark] 2 [] a (w ++ eol ++ body) (P, d) ltac:(by_table) Ha).
    cbn [act run_response_actions run_response_action obind].
    destruct (rsp_run_loop tail [2] is_xdigit 2 w ([] ++ [a]) (eol ++ body) (set_mark P 0, d)
      ltac:(by_table) (list_elem_of_here _ _) Hw) as (q & Hq%list_elem_of_singleton & E).
    subst q. exact E. }
  unfold eol. cbn [app].
  rewrite (run_one tail 2 (Z.eqb 13) [ChunkSize] 3) by by_table.
  cbn [act run_response_actions run_response_action last_chunk chunk_size response_callbacks].
  unfold strtol_mark. cbn [set_chunked set_mark mark]. 
  match goal with |- context [at_ ?m 0] => rewrite (at_app [] m : at_ m 0 = Ret m) end.
  cbn [obind app]. rewrite strtol16_digits by (done || lia). fold n.
  cbn [set_chunks_done set_content_len set_chunked set_mark mark].
  match goal with |- context [element _ ?f d 0 _] =>
    assert (exists g, f = Some g /\ forall d t l, g d t l = Ret d) as (g & -> & Hg) by
      (destruct (n <=? 0); eexists; split; reflexivity) end.
  pose proof (element_text g d [] w ("013"%char :: "010"%char :: body ++ tail)) as E.
  cbn [app] in E. change (len []) with 0 in E. rewrite E by exact Hs. rewrite Hg. cbn [obind].
  rewrite (run_one tail 3 (Z.eqb 10) [Done 120] 120) by by_table. unfold act.
  cbn [run_response_actions run_response_action header_done response_callbacks].
  destruct (at_ok ((w ++ ["013"%char]) ++ ("010"%char :: body) ++ tail) (len (w ++ ["013"%char]) + 1))
    as (t & -> & _).
  { repeat (rewrite length_app || cbn [List.length]). lia. }
  cbn [obind].
  assert (len (w ++ ["013"%char]) + 1 = len w + 2) as -> by (rewrite length_app; simpl; lia).
  destruct HP as (? & ? & ?). eexists. split; [reflexivity|]. unfold marks.
  cbn [set_body_start set_chunks_done set_content_len set_chunked set_mark chunked content_len chunks_done
       body_start nread mark field_start field_len].
  split_and!; first [reflexivity|lia].
Qed.

(** A parser made ready for a chunk header. *)
Lemma execute_chunk_header R w body tail :
  w <> [] -> forallb (fun a => is_xdigit (schar a)) w = true ->
  let v := xdigits_value 0 (map schar w) in
  0 <= v < 2 ^ 63 -> len (w ++ eol ++ body) < 2 ^ 31 ->
  len (w ++ eol ++ body ++ "000"%char :: tail) < 2 ^ 62 ->
  exists R' rest,
    execute R (w ++ eol ++ body ++ "000"%char :: tail) (len (w ++ eol ++ body)) true =
      Ret (len w + 2, body ++ rest, R') /\
    isFinished R' = 1 /\ m_data R' = m_data R /\ m_error R' = m_error R /\
    chunked (m_parser R') = 1 /\ content_len (m_parser R') = i32 v /\
    (chunks_done (m_parser R') = if i32 v <=? 0 then 1 else 0) /\
    (v < 2 ^ 31 -> content_len (m_parser R') = v) /\
    (2 ^ 31 <= v < 2 ^ 32 -> content_len (m_parser R') < 0 /\ chunks_done (m_parser R') = 1).
Proof.
  intros Hne Hw v Hv Hs Hs2.
  destruct (run_chunk_header w body ("000"%char :: tail) (start_parser R true) (m_data R, m_error R)
    Hne Hw Hv Hs2) as (P' & E & C1 & C2 & C3 & B & N & M).
  { unfold marks. cbn. lia. }
  set (mem := w ++ eol ++ body ++ "000"%char :: tail) in *.
  assert (mem = (w ++ eol ++ body) ++ "000"%char :: tail) as Hmem by (unfold mem; by rewrite <- !app_assoc).
  assert (buffer_of mem (len (w ++ eol ++ body)) = w ++ eol ++ body) as Hbuf.
  { unfold buffer_of. by rewrite Nat2Z.id, Hmem, take_app_length. }
  assert (len w + 2 <= len (w ++ eol ++ body)) as Hle.
  { rewrite !length_app. simpl. lia. }
  eexists _, _. split.
  - rewrite (rsp_execute_exec R mem _ true 120 (len w + 2) P' (m_data R, m_error R)).
    + rewrite Hbuf. replace (Z.to_nat (len w + 2)) with (List.length (w ++ eol)) by (rewrite length_app; simpl; lia).
      rewrite app_assoc, drop_app_length. reflexivity.
    + lia.
    + unfold nul_ended. rewrite Nat2Z.id, Hmem, lookup_app_r by lia. by rewrite Nat.sub_diag.
    + rewrite Hbuf. with_strategy transparent [run] unfold run in E. rewrite !app_nil_l in E.
      rewrite <- !app_assoc in E. exact E.
    + exact N.
    + lia.
    + lia.
    + apply (rsp_marks_weaken _ _ _ M). lia.
  - split; [reflexivity|]. split; [reflexivity|]. split; [reflexivity|].
    cbn [m_parser set_nread set_cs chunked content_len chunks_done]. split; [exact C1|]. split; [exact C2|].
    rewrite C2, C3. fold v. split; [done|]. split.
    + intros Hlt. apply (wraps_small 32); [done|]. unfold in_int. change (2 ^ (32 - 1)) with (2 ^ 31).
      apply andb_true_iff. split; [apply Z.leb_le|apply Z.ltb_lt]; lia.
    + intros Hbig. assert (i32 v < 0) as Hneg.
      { unfold wraps. rewrite Z.mod_small by lia. change (32 - 1) with 31.
        rewrite (proj2 (Z.ltb_ge v (2 ^ 31))) by lia. lia. }
      split; [exact Hneg|]. by rewrite (proj2 (Z.leb_le _ 0)) by lia.
Qed.

(** A chunk header, hexadecimal digits and CRLF, is read by a parser made
    ready for one: what follows is left at the front of the memory, the parser is
    finished, and the chunk's size is the number cut to an [int]. So a chunk of
    2^31 bytes and more has a negative size and counts as the last one. *)
Theorem chunk_header_read R w body tail :
  w <> [] -> forallb (fun a => is_xdigit (schar a)) w = true ->
  let v := xdigits_value 0 (map schar w) in
  0 <= v < 2 ^ 63 -> len (w ++ eol ++ body) < 2 ^ 31 ->
  len (w ++ eol ++ body ++ "000"%char :: tail) < 2 ^ 62 ->
  exists R' rest,
    execute R (w ++ eol ++ body ++ "000"%char :: tail) (len (w ++ eol ++ body)) true =
      Ret (len w + 2, body ++ rest, R') /\
    isFinished R' = 1 /\ m_data R' = m_data R /\ m_error R' = m_error R /\
    chunked (m_parser R') = 1 /\ content_len (m_parser R') = i32 v /\
    (chunks_done (m_parser R') = if i32 v <=? 0 then 1 else 0) /\
    (v < 2 ^ 31 -> content_len (m_parser R') = v) /\
    (2 ^ 31 <= v < 2 ^ 32 -> content_len (m_parser R') < 0 /\ chunks_done (m_parser R') = 1).
Proof. exact (execute_chunk_header R w body tail). Qed.

(** ** Where it goes wrong *)

(** After an error, [execute] without [chunck] on a buffer that is not empty
    forgets it: nothing is read, the machine is left in state 2, as if within a
    chunk's size, and [isFinished] says that more is wanted. *)
Theorem error_forgotten R mem N :
  cs (m_parser R) = httpclient_parser_error -> 0 <= body_start (m_parser R) <= N ->
  0 < N < 2 ^ 31 -> nul_ended mem N ->
  exists mem' R', execute R mem N false = Ret (0, mem', R') /\
    cs (m_parser R') = 2 /\ isFinished R' = 0 /\ hasError R' = negb (m_error R =? 0).
Proof.
  intros Hcs Hb HN Hnul. destruct (buffer_length mem N) as [Hbl _]; [lia|done|].
  eexists _, _. split.
  - rewrite (rsp_execute_exec R mem N false 2 0 (start_parser R false) (m_data R, m_error R)); [reflexivity|done|done| |done|lia|apply Hb|].
    + change (cs (start_parser R false)) with (cs (m_parser R)). rewrite Hcs.
      destruct (buffer_of mem N) as [|a l]; [simpl in Hbl; lia|].
      with_strategy transparent [exec] reflexivity.
    + unfold marks. cbn. lia.
  - split; [reflexivity|]. split; [reflexivity|]. unfold hasError. cbn. by rewrite orb_false_r.
Qed.

(** On an empty buffer the result is -1, which [execute] takes for a length:
    it moves memory from in front of the buffer. *)
Theorem execute_empty_undefined R mem chunck :
  nul_ended mem 0 -> chunck = true \/ body_start (m_parser R) = 0 ->
  execute R mem 0 chunck = Fault Undefined.
Proof.
  intros Hnul Hb. unfold execute, httpclient_parser_execute. rewrite Hnul. cbn [deref obind].
  destruct chunck; [reflexivity|]. destruct Hb as [?|Hb]; [discriminate|].
  destruct R as [P q e]. destruct P. simpl in Hb. subst. reflexivity.
Qed.

(** When the value of Transfer-Encoding or Content-Length begins on the next
    line, that line is also read as a field, whose name has the length of the
    first one. Where the buffer ends before, the callback reads past it. *)
Definition next_line_text : list ascii :=
  list_ascii_of_string ("HTTP/1.1 200 OK" ++ crlf ++ "Transfer-Encoding:" ++ crlf ++ "chunked" ++ crlf).
Lemma next_line_undefined :
  execute new_HttpResponseParser (next_line_text ++ ["000"%char]) (len next_line_text) false = Fault Undefined.
Proof. with_strategy transparent [exec] vm_compute. reflexivity. Qed.

(** An empty Connection field in front of the end of the head leaves the machine
    in a final state that does not count as finished. *)
Definition empty_connection_text : list ascii :=
  list_ascii_of_string ("HTTP/1.1 200 OK" ++ crlf ++ "Connection:" ++ crlf ++ crlf).
Lemma empty_connection_unfinished :
  match execute new_HttpResponseParser (empty_connection_text ++ ["000"%char]) (len empty_connection_text) false with
  | Ret (n, _, R) => n = len empty_connection_text /\ isFinished R = 0 /\ cs (m_parser R) = 122
  | Fault _ => False
  end.
Proof. with_strategy transparent [exec] vm_compute. split_and!; reflexivity. Qed.

(** ** Witnesses *)
Definition sample : HttpResponse :=
  rsp_setHeaderEntry (rsp_setVersion new_HttpResponse 0x11) "Server" "qslary".

Lemma response_round_trip_witness :
  let text := list_ascii_of_string (HttpResponse_toString sample) in
  exists n rest R,
    execute new_HttpResponseParser (text ++ ["000"%char]) (len text) false = Ret (n, [] ++ rest, R) /\
    isFinished R = 1 /\ hasError R = false /\ rsp_version (m_data R) = 0x11 /\
    rsp_status (m_data R) = 200 /\ rsp_reason (m_data R) = "OK"%string /\
    rsp_getHeaderEntry (m_data R) "connection" = "close"%string /\
    forall k, norm k <> "connection"%string -> (norm k <> "content-length"%string \/ True) ->
      map_find (rsp_headers (m_data R)) k = map_find (rsp_headers sample) k.
Proof.
  destruct (response_round_trip sample []) as (n & rest & R & H1 & _ & H2 & H3 & H4 & H5 & H6 & H7 & _ & H8);
    [reflexivity|repeat constructor|vm_compute; reflexivity|vm_compute; reflexivity|].
  exists n, rest, R. repeat (split; [assumption|]). intros k Hk _. apply H8; [exact Hk|right; reflexivity].
Defined.

Lemma chunk_header_read_witness :
  exists R' rest,
    execute new_HttpResponseParser (list_ascii_of_string "ffffffff" ++ eol ++ [] ++ ["000"%char]) 10 true =
      Ret (10, rest, R') /\
    isFinished R' = 1 /\ content_len (m_parser R') < 0 /\ chunks_done (m_parser R') = 1.
Proof.
  destruct (chunk_header_read new_HttpResponseParser (list_ascii_of_string "ffffffff") [] [])
    as (R' & rest & H1 & H2 & _ & _ & _ & _ & _ & _ & H3);
    [discriminate|reflexivity|vm_compute; split; [discriminate|reflexivity]|reflexivity|reflexivity|].
  exists R', rest. split; [exact H1|]. split; [exact H2|].
  apply H3. vm_compute. split; [discriminate|reflexivity].
Defined.

Lemma error_forgotten_witness :
  let R := mkHttpResponseParser (set_cs (m_parser new_HttpResponseParser) 0) new_HttpResponse 0 in
  exists mem' R', execute R (list_ascii_of_string "x" ++ ["000"%char]) 1 false = Ret (0, mem', R') /\
    cs (m_parser R') = 2 /\ isFinished R' = 0 /\ hasError R' = false.
Proof.
  apply (error_forgotten (mkHttpResponseParser (set_cs (m_parser new_HttpResponseParser) 0) new_HttpResponse 0)
    (list_ascii_of_string "x" ++ ["000"%char]) 1);
    [reflexivity|split; discriminate|split; reflexivity|reflexivity].
Defined.

Lemma execute_empty_undefined_witness :
  execute new_HttpResponseParser ["000"%char] 0 false = Fault Undefined.
Proof. apply (execute_empty_undefined new_HttpResponseParser ["000"%char] false); [reflexivity|right; reflexivity]. Defined.
