(* ===== verification/HttpSession.v ===== *)
(** * Sessions of the server (src/qslary/http/HttpSession.h, HttpSession.cc)

    [HttpSession] is a [SockStream] from which requests are received and on which
    responses are sent. What it uses of the stream is the interface [Stream] and
    [close]. *)
From stdpp Require Import base list gmap strings.
From Stdlib Require Import ZArith Ascii String Lia.
From S2P Require Import Prelude CLib Http HttpCommon HttpRequestParser Stream.
Open Scope Z_scope.

(** [buff_size] of [recvRequest] and [recvResponse] *)
Definition buff_size : Z := 65532.

Section session.
Context {W : Type} `{!Stream W} (close : W -> W).

(** [boost::lexical_cast] to [uint64_t] and to [std::string]; whether a
    [std::string] can be resized to a length, the exception it throws otherwise. *)
Context (cast_length : string -> option Z) (cast_text : string -> option string).
Context (resizable : Z -> bool).

(** A result that may be a null pointer, with the stream after it. *)
Definition refused {A} (w : W) : outcome (option (option A * W)) := Ret (Some (None, close w)).

(** The loop of [recvRequest]. [kept] is what the parser has left at the front of
    the buffer: its length is [offset], and [read] appends to it. The result is
    the finished parser with what is left in the buffer. *)
Fixpoint recv_head (fuel : nat) (R : HttpRequestParser) (kept : list ascii) (w : W)
    : outcome (option (option (HttpRequestParser * list ascii) * W)) :=
  match fuel with
  | O => Ret None
  | S fuel =>
      let '(n, d, w) := read w (buff_size - len kept) in
      if n <=? 0 then refused w
      else
        let data := kept ++ d in
        let! r := execute R data in
        let '(nparse, data, R) := r in
        if hasError R then refused w
        else
          let kept := take (Z.to_nat (i32 (len data - nparse))) data in
          if len kept =? buff_size then refused w
          else if negb (isFinished R =? 0) then Ret (Some (Some (R, kept), w))
          else recv_head fuel R kept w
  end.

(** What is left in the buffer, then from the stream, up to [length]; [None] when
    the stream ends before that. *)
Definition recv_body (length : Z) (kept : list ascii) (w : W) : option (option (list ascii) * W) :=
  let body := if len kept <=? length then kept else take (Z.to_nat length) kept in
  let left_ := length - len kept in
  if 0 <? left_ then
    match readFixSize w left_ with
    | Some (r, d, w) => if r <=? 0 then Some (None, w) else Some (Some (body ++ d), w)
    | None => None
    end
  else Some (Some body, w).

(** What [recvRequest] does with the finished parser's request. *)
Definition finish_request (q : HttpRequest) (length : Z) (kept : list ascii) (w : W)
    : outcome (option (option HttpRequest * W)) :=
  if 0 <? length then
    if resizable length then
      match recv_body length kept w with
      | Some (Some body, w) =>
          Ret (Some (Some (init cast_text (setBody q (string_of_list_ascii body))), w))
      | Some (None, w) => refused w
      | None => Ret None
      end
    else Fault Thrown
  else Ret (Some (Some (init cast_text q), w)).

(** [HttpSession::recvRequest]; the reference argument gets the result too. *)
Definition recvRequest (fuel : nat) (w : W) : outcome (option (option HttpRequest * W)) :=
  let! r := recv_head fuel new_HttpRequestParser [] w in
  match r with
  | Some (Some (R, kept), w) =>
      finish_request (getData R) (i64 (getContentLength cast_length R)) kept w
  | Some (None, w) => Ret (Some (None, w))
  | None => Ret None
  end.

(** [HttpSession::sendResponse]: whatever the transfer returns, the result is the
    length of the text. *)
Definition sendResponse (response : HttpResponse) (w : W) : option (Z * W) :=
  let data := list_ascii_of_string (HttpResponse_toString response) in
  match writeFixSize w data with
  | Some (_, w) => Some (i32 (len data), w)
  | None => None
  end.
End session.
