(* ===== verification/HttpSessionCorrect.v ===== *)
(** * Correctness of sessions

    What [recvRequest] of HttpSession.v delivers, over any stream that keeps the
    laws of StreamCorrect.v: it ends, the requests it delivers are well formed,
    and a request whose head comes in one read is received as it was sent. *)
From stdpp Require Import base list gmap strings.
From Stdlib Require Import ZArith Ascii String Lia.
From S2P Require Import Prelude CLib Ragel Http HttpCommon HttpCorrect HttpRequestParser.
From S2P Require Import HttpRequestRun HttpRequestCorrect Stream StreamCorrect HttpSession.
Open Scope Z_scope.

(** ** What the parser stores *)

(** What holds of the request in a parser's hands. *)
Definition parsed_ok (q : HttpRequest) : Prop :=
  map_ok (headres_ q) /\ one_of [0; 0x10; 0x11] (mVersion q) = true /\
  method_ q <> HttpMethod.UNKNOW /\ parmas_ q = [] /\ cookies_ q = [] /\
  status_ q = OK_STATUS /\ close_ q = true /\ mURL q = ""%string /\ body_ q = ""%string.

Lemma parsed_new : parsed_ok new_HttpRequest.
Proof. split_and!; done || constructor. Qed.

(** A callback that keeps the request well formed. *)
Definition keeps_parsed (f : Data -> list ascii -> Z -> outcome Data) : Prop :=
  forall d text n d', parsed_ok d.1 -> f d text n = Ret d' -> parsed_ok d'.1.

Lemma element_parsed buffer f d a p d' :
  keeps_parsed f -> parsed_ok d.1 -> element buffer (Some f) d a p = Ret d' -> parsed_ok d'.1.
Proof. unfold element. intros Hf Hd (text & _ & H)%obind_Ret_inv. exact (Hf _ _ _ _ Hd H). Qed.

Lemma keeps_string (g : HttpRequest -> string -> HttpRequest) :
  (forall q s, parsed_ok q -> parsed_ok (g q s)) ->
  keeps_parsed (fun d text n => let! s := string_at text n in Ret (g d.1 s, d.2)).
Proof. intros Hg d text n d' Hd (s & _ & [= <-])%obind_Ret_inv. by apply Hg. Qed.

Lemma keeps_skip : keeps_parsed (fun d _ _ => Ret d).
Proof. by intros d text n d' Hd [= <-]. Qed.

Lemma parsed_method q m : m <> HttpMethod.UNKNOW -> parsed_ok q -> parsed_ok (setMethod q m).
Proof. intros Hm (A & B & _ & C). exact (conj A (conj B (conj Hm C))). Qed.

Lemma keeps_method : keeps_parsed on_request_method.
Proof.
  intros d text n d' Hd. unfold on_request_method. generalize (CharsToHttpMethod (string_of_list_ascii text)).
  intros m H. assert (d' = (d.1, 1000) \/ d' = (setMethod d.1 m, d.2) /\ m <> HttpMethod.UNKNOW) as [->|[-> Hm]].
  { destruct m; injection H as <-; first [by left|by right]. }
  - exact Hd.
  - by apply parsed_method.
Qed.

Lemma keeps_version : keeps_parsed on_request_version.
Proof.
  intros d text n d' (? & ? & ?). unfold on_request_version, version_at.
  destruct (strncmp _ _ _ =? 0); [|destruct (strncmp _ _ _ =? 0)]; intros [= <-]; by split.
Qed.

Lemma parsed_header q k v : parsed_ok q -> parsed_ok (setHeaderEntry q k v).
Proof.
  intros (Hm & H). split; [|exact H]. exact (proj1 (map_set_spec (headres_ q) k v Hm)).
Qed.

Lemma field_parsed d f n v m d' :
  parsed_ok d.1 -> on_request_http_field d f n v m = Ret d' -> parsed_ok d'.1.
Proof.
  intros Hd. unfold on_request_http_field. destruct (n =? 0); [by intros [= <-]|].
  intros (s & _ & (t & _ & [= <-])%obind_Ret_inv)%obind_Ret_inv. by apply parsed_header.
Qed.

Lemma done_parsed buffer p P d x :
  parsed_ok d.1 -> request_done request_callbacks buffer p (P, d) = Ret x -> parsed_ok x.2.1.
Proof.
  intros Hd. unfold request_done. destruct (negb _ || negb _); [by intros [= <-]|].
  cbn [header_done request_callbacks].
  intros (d' & (text & _ & [= <-])%obind_Ret_inv & [= <-])%obind_Ret_inv. exact Hd.
Qed.

Lemma action_parsed buffer a p Pd x :
  parsed_ok Pd.2.1 -> run_request_action request_callbacks buffer a p Pd = Ret x -> parsed_ok x.2.1.
Proof.
  destruct Pd as [P d]. cbn [snd]. intros Hd.
  destruct a; cbn [run_request_action request_callbacks request_method request_uri fragment request_path
    query_string http_version http_field]; intros H;
    lazymatch type of H with
    | request_done _ _ _ _ = _ => by apply done_parsed in H
    | Ret _ = _ => by injection H as <-
    | _ => idtac
    end.
  - apply obind_Ret_inv in H as (d' & H & [= <-]). exact (element_parsed _ _ _ _ _ _ keeps_method Hd H).
  - apply obind_Ret_inv in H as (d' & H & [= <-]). exact (element_parsed _ _ _ _ _ _ keeps_skip Hd H).
  - apply obind_Ret_inv in H as (d' & H & [= <-]).
    by apply (element_parsed _ _ _ _ _ _ (keeps_string setFragment (fun q s H => H)) Hd H).
  - apply obind_Ret_inv in H as (q & _ & H). apply obind_Ret_inv in H as (d' & H & [= <-]).
    by apply (element_parsed _ _ _ _ _ _ (keeps_string setQuery (fun q s H => H)) Hd H).
  - apply obind_Ret_inv in H as (d' & H & [= <-]). exact (element_parsed _ _ _ _ _ _ keeps_version Hd H).
  - apply obind_Ret_inv in H as (d' & H & [= <-]).
    by apply (element_parsed _ _ _ _ _ _ (keeps_string setPath (fun q s H => H)) Hd H).
  - apply obind_Ret_inv in H as (f & _ & H). apply obind_Ret_inv in H as (v & _ & H).
    apply obind_Ret_inv in H as (d' & H & [= <-]). exact (field_parsed _ _ _ _ _ _ Hd H).
Qed.

Lemma actions_parsed buffer acts p Pd x n :
  parsed_ok Pd.2.1 -> run_request_actions request_callbacks buffer acts p Pd = Ret (x, n) ->
  parsed_ok x.2.1.
Proof.
  revert Pd. induction acts as [|a acts IH]; intros Pd Hd; cbn [run_request_actions]; [by intros [= <- _]|].
  destruct a; intros (Pd' & H & H')%obind_Ret_inv;
    first [apply action_parsed in H; [by apply (IH Pd')|done]
          |destruct Pd; apply done_parsed in H; [by injection H' as <- _|done]].
Qed.

Lemma execute_parsed R data n rest R' :
  parsed_ok (m_data R) -> execute R data = Ret (n, rest, R') -> parsed_ok (m_data R').
Proof.
  intros HR. unfold execute. intros ([[off P] [q e]] & H & [= _ _ <-])%obind_Ret_inv. revert H.
  unfold http_parser_execute. destruct (size data =? 0); [by intros [= _ _ <- _]|].
  intros (u1 & _ & (diff & _ & (u2 & _ & ([[cs p] [P' d']] & He & H)%obind_Ret_inv)%obind_Ret_inv)%obind_Ret_inv)%obind_Ret_inv.
  apply obind_Ret_inv in H as (u & _ & [= _ _ ->]).
  apply (program_keeps _ _ _ (fun Pd => parsed_ok Pd.2.1)) in He; [exact He| |exact HR].
  intros acts p0 s s' m. apply actions_parsed.
Qed.

(** The buffer keeps its size. *)
Lemma execute_length R data n rest R' :
  execute R data = Ret (n, rest, R') -> List.length rest = List.length data.
Proof.
  unfold execute. intros ([[off P] [q e]] & _ & [= _ <- _])%obind_Ret_inv.
  rewrite length_app, !length_drop. lia.
Qed.

(** ** Receiving *)

(** Whether a request asks for the connection to be closed: its connection
    header does, unless it is "keep-alive". *)
Definition asks_close (cast_text : string -> option string) (q : HttpRequest) : bool :=
  negb (strcasecmp (getHeaderEntryAs cast_text q "connection" "").2 "keep-alive" =? 0).

(** What holds of a request that [recvRequest] delivers. *)
Definition request_wf (cast_text : string -> option string) (length : Z) (q : HttpRequest) : Prop :=
  map_ok (headres_ q) /\ one_of [0; 0x10; 0x11] (mVersion q) = true /\
  method_ q <> HttpMethod.UNKNOW /\ parmas_ q = [] /\ cookies_ q = [] /\
  close_ q = asks_close cast_text q /\
  Z.of_nat (String.length (body_ q)) = Z.max 0 length.

Lemma init_wf cast_text q body length :
  parsed_ok q -> Z.of_nat (String.length body) = Z.max 0 length ->
  request_wf cast_text length (init cast_text (setBody q body)).
Proof.
  intros (A & B & C & D & E & _ & F & _) Hb. unfold init, asks_close.
  set (conn := (getHeaderEntryAs cast_text (setBody q body) "connection" "").2).
  case_bool_decide as Hc.
  - split_and!; try assumption. unfold asks_close. fold conn. by rewrite Hc.
  - split_and!; try assumption. reflexivity.
Qed.

Lemma setBody_same q : setBody q (body_ q) = q.
Proof. by destruct q. Qed.

Section receive.
Context {W : Type} `{!Stream W, !StreamLaws W} (close : W -> W).
Context (cast_length : string -> option Z) (cast_text : string -> option string).
Context (resizable : Z -> bool).
Abbreviation recv_head := (recv_head close).
Abbreviation recvRequest := (recvRequest close cast_length cast_text resizable).
Abbreviation finish_request := (finish_request close cast_text resizable).
Implicit Types w : W.

(** [w'] comes after [w], having read the text [d]. *)
Definition has_read w (d : list ascii) w' : Prop := inbox w = d ++ inbox w'.

Lemma has_read_trans w1 w2 w3 d1 d2 :
  has_read w1 d1 w2 -> has_read w2 d2 w3 -> has_read w1 (d1 ++ d2) w3.
Proof. unfold has_read. intros -> ->. by rewrite app_assoc. Qed.

Lemma read_part w n r d w' :
  0 < n -> read w n = (r, d, w') ->
  if r <=? 0 then has_read w [] w' else has_read w d w' /\ len d = r /\ r <= n.
Proof.
  intros Hn E. destruct (read_law w n r d w' Hn E) as (H1 & H2 & H3). unfold has_read.
  destruct (Z.leb_spec r 0); [by rewrite (proj2 (Z.ltb_ge 0 r)) in H2 by lia|].
  rewrite (proj2 (Z.ltb_lt 0 r)) in H2 by lia. split; [exact H2|]. split; [by apply H3|lia].
Qed.

(** One turn of the loop of [recvRequest]. *)
Lemma recv_head_turn fuel R kept w x :
  len kept < buff_size -> recv_head (S fuel) R kept w = Ret x ->
  (exists d w', has_read w d w' /\ x = Some (None, close w')) \/
  exists d w' n data R' kept', d <> [] /\ has_read w d w' /\ len (kept ++ d) <= buff_size /\
    execute R (kept ++ d) = Ret (n, data, R') /\ hasError R' = false /\
    kept' = take (Z.to_nat (i32 (len (kept ++ d) - n))) data /\ len kept' < buff_size /\
    (isFinished R' <> 0 /\ x = Some (Some (R', kept'), w') \/
     isFinished R' = 0 /\ recv_head fuel R' kept' w' = Ret x).
Proof.
  intros Hk. cbn [HttpSession.recv_head]. destruct (read w (buff_size - len kept)) as [[r d] w1] eqn:Er.
  pose proof (read_part w (buff_size - len kept) r d w1 ltac:(lia) Er) as Hr. destruct (Z.leb_spec r 0) as [Hr0|Hr0].
  { intros [= <-]. left. by exists [], w1. }
  destruct Hr as (Hin & Hd & Hle).
  destruct (execute R (kept ++ d)) as [[[n data] R']|f] eqn:Ex; cbn [obind]; [|discriminate].
  destruct (hasError R') eqn:He.
  { intros [= <-]. left. by exists d, w1. }
  rewrite (execute_length _ _ _ _ _ Ex).
  set (kept' := take (Z.to_nat (i32 (len (kept ++ d) - n))) data).
  destruct (Z.eqb_spec (len kept') buff_size) as [Hf|Hf].
  { intros [= <-]. left. by exists d, w1. }
  assert (len kept' < buff_size) as Hk'.
  { assert (len (kept ++ d) <= buff_size) by (rewrite length_app; lia).
    pose proof (execute_length _ _ _ _ _ Ex) as El.
    assert (List.length kept' <= List.length data)%nat by (unfold kept'; rewrite length_take; lia). lia. }
  intros H. right. exists d, w1, n, data, R', kept'.
  split_and!; [by intros ->; cbn in Hd; lia|done|rewrite length_app; lia|done|done|done|done|].
  revert H. destruct (Z.eqb_spec (isFinished R') 0) as [E|E]; cbn [negb].
  - intros H. by right.
  - intros [= <-]. by left.
Qed.

(** The loop ends, and the parser it ends with is finished. *)
Lemma recv_head_spec fuel : forall R kept w x,
  len kept < buff_size -> (List.length (inbox w) < fuel)%nat -> parsed_ok (m_data R) ->
  recv_head fuel R kept w = Ret x ->
  (exists d w', has_read w d w' /\ x = Some (None, close w')) \/
  exists R' kept' d w', x = Some (Some (R', kept'), w') /\ has_read w d w' /\ d <> [] /\
    parsed_ok (m_data R') /\ len kept' < buff_size.
Proof.
  induction fuel as [|fuel IH]; intros R kept w x Hk Hf HR H; [lia|].
  destruct (recv_head_turn _ _ _ _ _ Hk H)
    as [Hn|(d & w' & n & data & R' & kept' & Hd & Hin & _ & Ex & _ & _ & Hk' & Hx)]; [by left|].
  pose proof (execute_parsed _ _ _ _ _ HR Ex) as HR'.
  destruct Hx as [[_ ->]|[_ Hx]].
  { right. by exists R', kept', d, w'. }
  assert (List.length (inbox w') < fuel)%nat as Hf'.
  { unfold has_read in Hin. rewrite Hin, length_app in Hf. destruct d; [done|]. cbn in Hf. lia. }
  destruct (IH _ _ _ _ Hk' Hf' HR' Hx) as [(d2 & w2 & Hin2 & ->)|(R2 & k2 & d2 & w2 & -> & Hin2 & Hd2 & H2)].
  { left. exists (d ++ d2), w2. split; [|done]. by apply (has_read_trans w w'). }
  right. exists R2, k2, (d ++ d2), w2. split_and!; [done| |by destruct d|apply H2..].
  by apply (has_read_trans w w').
Qed.

(** The body, when the stream gives what is missing, and when it does not. *)
Abbreviation missing length kept := (Z.max 0 (length - len kept)).
Lemma recv_body_gets length kept w d w' :
  0 < length < 2 ^ 63 -> missing length kept < 2 ^ 31 -> reads (missing length kept) w d w' -> len d = missing length kept ->
  recv_body length kept w = Some (Some (take (Z.to_nat length) (kept ++ d)), w').
Proof.
  intros Hl Hs Hr Hd. unfold recv_body. destruct (Z.ltb_spec 0 (length - len kept)) as [Hlt|Hge].
  - rewrite Z.max_r in * by lia. rewrite (readFixSize_gets _ w d w') by (done || lia). rewrite wraps_fits by lia.
    rewrite (proj2 (Z.leb_gt _ 0)), (proj2 (Z.leb_le (len kept) length)) by lia.
    rewrite take_ge; [done|]. rewrite length_app. lia.
  - rewrite Z.max_l in * by lia. apply reads_no_more in Hr as [-> ->]. rewrite app_nil_r.
    destruct (Z.leb_spec (len kept) length); [|done]. by rewrite take_ge by lia.
Qed.
Lemma recv_body_fails length kept w d w1 w' :
  0 < length < 2 ^ 63 -> reads (missing length kept) w d w1 -> len d < missing length kept ->
  read_fails w1 (missing length kept - len d) w' -> recv_body length kept w = Some (None, w').
Proof.
  intros Hl Hr Hd Hf. unfold recv_body. assert (0 < length - len kept) as Hlt by lia.
  rewrite Z.max_r in * by lia. rewrite (proj2 (Z.ltb_lt _ _)) by lia.
  destruct (readFixSize_fails (length - len kept) w d w1 w') as (r & -> & Hr0); [lia|done|done|done|].
  by rewrite (proj2 (Z.leb_le r 0)).
Qed.

(** The body: as much as there is left in the buffer, then from the stream. *)
Lemma recv_body_spec length kept w :
  0 < length < 2 ^ 63 ->
  exists d w', has_read w d w' /\ (length <= len kept -> w' = w) /\
    ((len d = Z.max 0 (length - len kept) /\
      (length - len kept < 2 ^ 31 ->
       recv_body length kept w = Some (Some (take (Z.to_nat length) (kept ++ d)), w'))) \/
     (len d < length - len kept /\ recv_body length kept w = Some (None, w'))) /\
    exists o, recv_body length kept w = Some (o, w') /\
      (forall body, o = Some body -> len body = length).
Proof.
  intros Hl. unfold recv_body. destruct (Z.ltb_spec 0 (length - len kept)) as [Hlt|Hge].
  2:{ exists [], w. split; [done|]. split; [done|].
      assert ((if len kept <=? length then kept else take (Z.to_nat length) kept)
              = take (Z.to_nat length) kept) as ->.
      { destruct (Z.leb_spec (len kept) length); [|done]. by rewrite take_ge by lia. }
      split; [left; split; [cbn; lia|by rewrite app_nil_r]|].
      eexists. split; [reflexivity|]. intros body [= <-]. rewrite length_take. lia. }
  unfold readFixSize. rewrite wraps_fits by lia.
  destruct (read_loop_ok (length - len kept) (Z.to_nat (length - len kept)) (length - len kept) w [])
    as (r & d & w' & -> & Hin & Hd); [lia|lia|cbn; lia|].
  rewrite (proj2 (Z.leb_le (len kept) length)) by lia.
  exists d, w'. split; [exact Hin|]. split; [lia|]. destruct Hd as [[Hd Hr]|[Hd Hr]].
  - split.
    + left. split; [lia|]. intros Hs. rewrite Hr, wraps_fits by lia.
      rewrite (proj2 (Z.leb_gt _ 0)) by lia. rewrite take_ge; [done|]. rewrite length_app. lia.
    + exists (if r <=? 0 then None else Some (kept ++ d)). split; [by destruct (r <=? 0)|].
      destruct (r <=? 0); [done|]. intros body [= <-]. rewrite length_app. lia.
  - rewrite (proj2 (Z.leb_le r 0)) by lia. split; [right; by split|]. by exists None.
Qed.

(** What is delivered of the request of a finished parser. *)
Lemma finish_request_spec q length kept w x :
  length < 2 ^ 63 -> parsed_ok q -> finish_request q length kept w = Ret x ->
  exists d w', has_read w d w' /\
    (x = Some (None, close w') \/
     exists body, x = Some (Some (init cast_text (setBody q body)), w') /\
       Z.of_nat (String.length body) = Z.max 0 length).
Proof.
  intros Hl Hq. unfold HttpSession.finish_request. destruct (Z.ltb_spec 0 length) as [Hpos|Hneg].
  - destruct (resizable length); [|discriminate].
    destruct (recv_body_spec length kept w) as (d & w' & Hin & _ & _ & o & -> & Ho); [lia|].
    destruct o as [body|]; intros [= <-]; exists d, w'; (split; [exact Hin|]); [right|by left].
    eexists. split; [reflexivity|]. rewrite <- (Ho body eq_refl), length_string. lia.
  - intros [= <-]. exists [], w. split; [done|]. right. exists ""%string. split; [|cbn; lia].
    destruct Hq as (_ & _ & _ & _ & _ & _ & _ & _ & Hb). by rewrite <- Hb, setBody_same.
Qed.

(** The length a request announces. *)
Definition announced (q : HttpRequest) : Z :=
  i64 (getHeaderEntryAs cast_length q "content-length" 0).2.

Lemma recvRequest_spec fuel w x :
  (List.length (inbox w) < fuel)%nat -> recvRequest fuel w = Ret x ->
  exists d w', has_read w d w' /\
    (x = Some (None, close w') \/
     exists q, x = Some (Some q, w') /\ d <> [] /\ request_wf cast_text (announced q) q).
Proof.
  intros Hf. unfold HttpSession.recvRequest. intros (r & Hr & H)%obind_Ret_inv.
  destruct (recv_head_spec fuel new_HttpRequestParser [] w r ltac:(done) Hf parsed_new Hr)
    as [(d & w1 & Hin & ->)|(R & kept & d & w1 & -> & Hin & Hd & HR & _)].
  { injection H as <-. exists d, w1. split; [exact Hin|by left]. }
  apply finish_request_spec in H as (d2 & w2 & Hin2 & Hx); [|apply wraps_range; lia|exact HR].
  exists (d ++ d2), w2. split; [by apply (has_read_trans w w1)|].
  destruct Hx as [->|(body & -> & Hb)]; [by left|right].
  eexists. split; [reflexivity|]. split; [by destruct d|].
  assert (announced (init cast_text (setBody (getData R) body)) = i64 (getContentLength cast_length R)) as ->.
  { unfold announced, init. by case_bool_decide. }
  by apply init_wf.
Qed.

(** Receiving a request ends: with fuel for one more read than the peer will send
    characters, it returns or faults. What it has read is the beginning of what
    the peer sends; when it returns a null pointer, it has closed the stream. *)
Theorem recvRequest_ends fuel w :
  (List.length (inbox w) < fuel)%nat ->
  (exists f, recvRequest fuel w = Fault f) \/
  exists (o : option HttpRequest) d w', has_read w d w' /\
    recvRequest fuel w = Ret (Some (o, match o with Some _ => w' | None => close w' end)) /\ (is_Some o -> d <> []).
Proof.
  intros Hf. destruct (recvRequest fuel w) as [x|f] eqn:E; [right|left; by exists f].
  destruct (recvRequest_spec fuel w x Hf E) as (d & w' & Hin & [->|(q & -> & Hd & _)]).
  - exists None, d, w'. split_and!; [done|done|]. by intros [??].
  - by exists (Some q), d, w'.
Qed.

(** C27: every request a stream delivers is well formed, whatever the peer sends: its
    headers are ordered and without duplicates, its method is a known one, its
    version is 1.0, 1.1 or, for the socket forms, 0; it has neither parameters
    nor cookies; it is to be closed unless its connection header is "keep-alive",
    and its body has the length its content-length header announces. *)
Theorem recvRequest_wf fuel w q w' :
  (List.length (inbox w) < fuel)%nat -> recvRequest fuel w = Ret (Some (Some q, w')) ->
  request_wf cast_text (announced q) q.
Proof.
  intros Hf H. destruct (recvRequest_spec fuel w _ Hf H) as (d & w1 & _ & [[=]|(q' & [= -> ->] & _ & Hq)]).
  exact Hq.
Qed.

Lemma stored_body r : body_ (stored r).1 = ""%string.
Proof.
  unfold stored. assert (forall fs d, body_ (fold_left with_field fs d).1 = body_ d.1) as ->.
  { intros fs. induction fs as [|f fs IH]; intros d; [done|]. simpl. by rewrite IH. }
  cbn. unfold with_target, with_fragment, with_query, with_method.
  destruct (r_fragment r), (r_query r), (CharsToHttpMethod _); reflexivity.
Qed.

Lemma request_text_nonempty r : 0 < len (request_text r).
Proof. unfold request_text, blank. rewrite !length_app. cbn [List.length]. lia. Qed.

(** The head of a request that comes with the first read. *)
Lemma recv_head_request r part fuel w w1 :
  request_ok r = true -> (stored r).2 = 0 ->
  read w buff_size = (len (request_text r ++ part), request_text r ++ part, w1) ->
  exists R, recv_head (S fuel) new_HttpRequestParser [] w = Ret (Some (Some (R, part), w1)) /\
    m_data R = (stored r).1.
Proof.
  intros Hr Herr Hread.
  destruct (read_law w buff_size _ _ _ ltac:(done) Hread) as ([_ Hle] & _).
  pose proof (request_text_nonempty r) as Hne. pose proof (length_app (request_text r) part) as Hla.
  assert (buff_size < 2 ^ 31) as Hbs by reflexivity.
  destruct (execute_request r part Hr ltac:(lia)) as (R & rest & E & Hfin & He & Hd).
  exists R. split; [|by rewrite <- Hd].
  cbn [HttpSession.recv_head]. change (buff_size - len []) with buff_size. rewrite Hread.
  rewrite (proj2 (Z.leb_gt _ 0)) by lia. cbn [app]. rewrite E. cbn [obind].
  rewrite He, Herr, Hfin. cbn [negb Z.eqb].
  pose proof (execute_length _ _ _ _ _ E) as El.
  replace (len (part ++ rest) - len (request_text r)) with (len part) by lia.
  rewrite wraps_fits, Nat2Z.id, take_app_length by lia.
  rewrite (proj2 (Z.eqb_neq (len part) buff_size)) by lia. reflexivity.
Qed.

Lemma recvRequest_first_read r part fuel w w1 :
  request_ok r = true -> (stored r).2 = 0 ->
  read w buff_size = (len (request_text r ++ part), request_text r ++ part, w1) ->
  recvRequest (S fuel) w = finish_request (stored r).1 (announced (stored r).1) part w1.
Proof.
  intros Hr Herr Hread. destruct (recv_head_request r part fuel w w1 Hr Herr Hread) as (R & E & HR).
  unfold HttpSession.recvRequest. rewrite E. cbn [obind]. unfold getContentLength, getData. by rewrite HR.
Qed.

Lemma finish_request_gets r part w1 d w2 :
  let q := (stored r).1 in
  let length := announced q in
  (0 < length -> resizable length = true) -> missing length part < 2 ^ 31 ->
  reads (missing length part) w1 d w2 -> len d = missing length part ->
  finish_request q length part w1 =
    Ret (Some (Some (init cast_text (setBody q (string_of_list_ascii (take (Z.to_nat length) (part ++ d))))), w2)).
Proof.
  intros q length Hres Hs Hrd Hd. unfold HttpSession.finish_request.
  assert (length < 2 ^ 63) as Hl by (apply wraps_range; lia).
  destruct (Z.ltb_spec 0 length) as [Hpos|Hneg].
  - rewrite Hres by done. by rewrite (recv_body_gets length part w1 d w2) by (done || lia).
  - rewrite Z.max_l in * by lia. apply reads_no_more in Hrd as [-> ->].
    replace (Z.to_nat length) with 0%nat by lia.
    change (string_of_list_ascii (take 0 (part ++ []))) with ""%string.
    by rewrite <- (stored_body r), setBody_same.
Qed.

(** C5: a request in origin form ([request_ok]), of a method that has a name, whose
    head comes with the first read, is delivered as it was sent: with the method,
    target, version and fields of its text, and with a body of the length that the
    fields announce, when the stream gives what is missing behind the head, in
    however many reads. When instead one of these reads delivers nothing, because
    the stream has ended or failed, the result is a null pointer and the stream is
    closed; and one of both is the case. The announced length must be one that a
    string can have, and what is missing of it less than 2^31; characters behind the
    body that came with the first read are lost. *)
Theorem recvRequest_reads r part fuel w w1 :
  request_ok r = true -> (stored r).2 = 0 ->
  read w buff_size = (len (request_text r ++ part), request_text r ++ part, w1) ->
  let q := (stored r).1 in
  let length := announced q in
  let need := missing length part in
  (0 < length -> resizable length = true) -> need < 2 ^ 31 ->
  (forall d w2, reads need w1 d w2 -> len d = need ->
     recvRequest (S fuel) w =
       Ret (Some (Some (init cast_text (setBody q (string_of_list_ascii (take (Z.to_nat length) (part ++ d))))), w2))) /\
  (forall d w' w2, reads need w1 d w' -> len d < need -> read_fails w' (need - len d) w2 ->
     recvRequest (S fuel) w = Ret (Some (None, close w2))) /\
  (exists d w', reads need w1 d w' /\ (len d = need \/ len d < need /\ exists w2, read_fails w' (need - len d) w2)).
Proof.
  intros Hr Herr Hread q length need Hres Hs. rewrite (recvRequest_first_read r part fuel w w1 Hr Herr Hread).
  split; [|split].
  - intros d w2 Hrd Hd. by apply finish_request_gets.
  - intros d w' w2 Hrd Hd Hf. fold q length. unfold HttpSession.finish_request. unfold need in *.
    assert (length < 2 ^ 63) as Hl by (apply wraps_range; lia).
    rewrite (proj2 (Z.ltb_lt 0 length)), Hres by lia. by rewrite (recv_body_fails length part w1 d w' w2) by (done || lia).
  - apply (reads_total (Z.to_nat need)); [unfold need; lia|done].
Qed.
End receive.

(** ** Witnesses

    A peer that sends packets, each of which comes with one read, and takes all it
    is sent. *)
Abbreviation Pipe := (list (list ascii) * list ascii)%type.
Definition pipe_read (w : Pipe) (n : Z) : Z * list ascii * Pipe :=
  match w.1 with
  | [] => (0, [], w)
  | p :: ps =>
      let d := take (Z.to_nat n) p in
      (len d, d, ((if drop (Z.to_nat n) p is [] then ps else drop (Z.to_nat n) p :: ps), w.2))
  end.
Definition pipe_write (w : Pipe) (d : list ascii) : Z * Pipe := (len d, (w.1, w.2 ++ d)).

#[export] Instance pipe_stream : Stream Pipe := {
  read := pipe_read;
  write := pipe_write;
  read_array w b _ := Ret (-1, w, b);
  write_array w b _ := Ret (-1, w, b)
}.

Lemma pipe_read_law (w : Pipe) n r d w' :
  0 < n -> pipe_read w n = (r, d, w') ->
  - 2 ^ 31 <= r <= n /\ List.concat w.1 = (if 0 <? r then d else []) ++ List.concat w'.1 /\
  (0 < r -> len d = r).
Proof.
  intros Hn. destruct w as [[|p ps] out]; unfold pipe_read; cbn [fst snd].
  { intros [= <- <- <-]. split; [lia|]. by split. }
  intros [= <- <- <-]. rewrite length_take. split; [lia|]. split; [|done]. cbn [fst List.concat].
  assert (List.concat (if drop (Z.to_nat n) p is [] then ps else drop (Z.to_nat n) p :: ps)
          = drop (Z.to_nat n) p ++ List.concat ps) as -> by (by destruct (drop (Z.to_nat n) p)).
  rewrite app_assoc. f_equal. destruct (Z.ltb_spec 0 (Z.of_nat (Z.to_nat n `min` List.length p))) as [|Hz].
  - by rewrite take_drop.
  - destruct p; [by rewrite drop_nil|]. cbn [List.length] in Hz. lia.
Qed.

Lemma pipe_write_law (w : Pipe) b r w' :
  b <> [] -> pipe_write w b = (r, w') ->
  - 2 ^ 31 <= r <= len b /\ w'.2 = w.2 ++ take (Z.to_nat r) b.
Proof. intros _ [= <- <-]. cbn [snd]. split; [lia|]. by rewrite Nat2Z.id, take_ge by lia. Qed.

#[export] Instance pipe_laws : StreamLaws Pipe :=
  Build_StreamLaws Pipe pipe_stream (fun w => List.concat w.1) snd pipe_read_law pipe_write_law.

(** Casts of decimal numbers and of any text. *)
Definition decimal_cast (s : string) : option Z :=
  if forallb isdigit (chars s) then Some (strtol10 s) else None.
Definition small (n : Z) : bool := n <? 2 ^ 20.

Definition post : request :=
  mkRequestText (text_of "POST") (text_of "/a") None None true
    [Field (text_of "content-length") (text_of " ") (text_of "6");
     Field (text_of "connection") (text_of " ") (text_of "keep-alive")].
Definition post_pipe : Pipe := ([request_text post ++ text_of "abc"; text_of "de"; text_of "f"; text_of "g"], []).

Lemma recvRequest_ends_witness :
  (List.length (inbox post_pipe) < 100)%nat /\
  ((exists f, recvRequest id decimal_cast Some small 100 post_pipe = Fault f) \/
   exists (o : option HttpRequest) d w', has_read post_pipe d w' /\
  recvRequest id decimal_cast Some small 100 post_pipe =
       Ret (Some (o, match o with Some _ => w' | None => w' end)) /\ (is_Some o -> d <> [])).
Proof.
  assert (List.length (inbox post_pipe) < 100)%nat as H by (vm_compute; lia).
  split; [exact H|]. exact (recvRequest_ends id decimal_cast Some small 100 post_pipe H).
Defined.

Lemma recvRequest_wf_witness :
  exists q w', recvRequest id decimal_cast Some small 100 post_pipe = Ret (Some (Some q, w')) /\
  request_wf Some 6 q /\ close_ q = false.
Proof.
  assert (List.length (inbox post_pipe) < 100)%nat as H by (vm_compute; lia).
  destruct (recvRequest id decimal_cast Some small 100 post_pipe) as [[[[q|] w']|]|] eqn:E;
    [|vm_compute in E; discriminate E..].
  exists q, w'. pose proof (recvRequest_wf id decimal_cast Some small 100 post_pipe q w' H E) as Hq.
  assert (announced decimal_cast q = 6 /\ close_ q = false) as [E6 Ec]
    by (vm_compute in E; injection E as <- <-; split; reflexivity).
  rewrite E6 in Hq. exact (conj eq_refl (conj Hq Ec)).
Defined.

(** A body that comes in three pieces, and one that breaks off. *)
Definition cut_pipe : Pipe := ([request_text post ++ text_of "abc"; text_of "de"], []).
Lemma recvRequest_reads_witness :
  recvRequest id decimal_cast Some small 1 post_pipe =
    Ret (Some (Some (init Some (setBody (stored post).1 "abcdef")), ([text_of "g"], []))) /\
  recvRequest (fun w : Pipe => ([], text_of "closed")) decimal_cast Some small 1 cut_pipe =
    Ret (Some (None, ([], text_of "closed"))).
Proof.
  split.
  - destruct (recvRequest_reads id decimal_cast Some small post (text_of "abc") 0 post_pipe
      ([text_of "de"; text_of "f"; text_of "g"], [])) as (H & _ & _); [reflexivity..|].
    apply (H (text_of "def") ([text_of "g"], [])); [|reflexivity].
    apply (reads_some 3 _ 2 (text_of "de") ([text_of "f"; text_of "g"], []) (text_of "f")); [reflexivity..|].
    apply (reads_some 1 _ 1 (text_of "f") ([text_of "g"], []) []); [reflexivity..|]. constructor.
  - destruct (recvRequest_reads (fun w : Pipe => ([], text_of "closed")) decimal_cast Some small post (text_of "abc") 0 cut_pipe
      ([text_of "de"], [])) as (_ & H & _); [reflexivity..|].
    apply (H (text_of "de") ([], []) ([], [])); [|reflexivity|].
    + apply (reads_some 3 _ 2 (text_of "de") ([], []) []); [reflexivity..|]. constructor.
    + exists 0, []. split; [reflexivity|done].
Defined.
