(* ===== verification/Servlet.v ===== *)
(** * Servlets (src/qslary/http/Servlet.h, Servlet.cc)

    The dispatcher's table of exact addresses, its list of patterns, and the
    servlets it hands requests to. A servlet of the application is an object
    whose [handle] is a parameter; the session is whatever those handlers
    change. [fnmatch] is a parameter too. *)
From stdpp Require Import base list gmap strings.
From Stdlib Require Import ZArith Ascii String Lia.
From S2P Require Import Prelude CLib Http HttpCorrect.
#[local] Set Warnings "-clear-no-such-hyp".
Open Scope Z_scope.

Definition NOT_FOUND : Z := 404.

Section servlet.
Context {C Session : Type}.
Context (call : C -> HttpRequest -> HttpResponse -> Session -> Z * HttpResponse * Session).
Context (fnmatch : string -> string -> Z -> Z).

(** The classes derived from [Servlet]; [FunctionServlet]'s callback and any
    class of the application are [FunctionServlet c]. *)
Inductive Servlet : Type :=
| FunctionServlet (cb_ : C)
| NotFoundServlet (name_ content_ : string).

(** [NotFoundServlet::NotFoundServlet] *)
Definition new_NotFoundServlet (name : string) : Servlet :=
  NotFoundServlet name
    ("<html><head><title>404 Not Found" ++
     "</title></head><body><center><h1>404 Not Found</h1></center>" ++
     "<hr><center>" ++ name ++ "</center></body></html>").

(** The virtual [handle]. *)
Definition handle (slt : Servlet) (request : HttpRequest) (response : HttpResponse) (s : Session)
    : Z * HttpResponse * Session :=
  match slt with
  | FunctionServlet cb => call cb request response s
  | NotFoundServlet _ content =>
      let response := rsp_setStatus response NOT_FOUND in
      let response := rsp_setHeaderEntry response "Server" "sylar/1.0.0" in
      let response := rsp_setHeaderEntry response "Content-Type" "text/html" in
      (0, rsp_setBody response content, s)
  end.

(** A null pointer is [None]. *)
Record ServletDispatch : Type := mkDispatch {
  mp_data_ : gmap string (option Servlet);
  v_data_ : list (string * option Servlet);
  defaultServlet_ : option Servlet
}.

Definition new_ServletDispatch : ServletDispatch :=
  mkDispatch ∅ [] (Some (new_NotFoundServlet "NotFound")).

Definition setDefaultServlet (d : ServletDispatch) (slt : option Servlet) : ServletDispatch :=
  mkDispatch (mp_data_ d) (v_data_ d) slt.

(** [insert] keeps an entry that is there. *)
Definition addServlet (d : ServletDispatch) (url : string) (slt : option Servlet) : ServletDispatch :=
  mkDispatch (match mp_data_ d !! url with
              | Some _ => mp_data_ d
              | None => <[url := slt]> (mp_data_ d)
              end) (v_data_ d) (defaultServlet_ d).

Definition addGlobalServlet (d : ServletDispatch) (url : string) (slt : option Servlet)
    : ServletDispatch :=
  mkDispatch (mp_data_ d) (v_data_ d ++ [(url, slt)]) (defaultServlet_ d).

Definition delServlet (d : ServletDispatch) (url : string) : ServletDispatch :=
  mkDispatch (delete url (mp_data_ d)) (v_data_ d) (defaultServlet_ d).

(** The first entry with the address. *)
Fixpoint erase_first (url : string) (l : list (string * option Servlet))
    : list (string * option Servlet) :=
  match l with
  | [] => []
  | e :: l => if bool_decide (e.1 = url) then l else e :: erase_first url l
  end.
Definition delGlobalServlet (d : ServletDispatch) (url : string) : ServletDispatch :=
  mkDispatch (mp_data_ d) (erase_first url (v_data_ d)) (defaultServlet_ d).

Definition getServlet (d : ServletDispatch) (url : string) : option Servlet :=
  match mp_data_ d !! url with Some slt => slt | None => None end.

Fixpoint find_first (url : string) (l : list (string * option Servlet)) : option Servlet :=
  match l with
  | [] => None
  | e :: l => if bool_decide (e.1 = url) then e.2 else find_first url l
  end.
Definition getGlobalServlet (d : ServletDispatch) (url : string) : option Servlet :=
  find_first url (v_data_ d).

(** The loop over the patterns: it looks at [it], the entry the table was
    searched for, instead of the loop's own entry. *)
Fixpoint match_loop (d : ServletDispatch) (url : string) (it : option (string * option Servlet))
    (pv : list (string * option Servlet)) : outcome (option Servlet) :=
  match pv with
  | [] => Ret (defaultServlet_ d)
  | _ :: pv =>
      let! e := deref it in
      if fnmatch (c_str e.1) (c_str url) 0 =? 0 then Ret e.2 else match_loop d url it pv
  end.

Definition getMatchServlet (d : ServletDispatch) (url : string) : outcome (option Servlet) :=
  match mp_data_ d !! url with
  | Some slt => Ret slt
  | None => match_loop d url None (v_data_ d)
  end.

(** [ServletDispatch::handle] *)
Definition dispatch (d : ServletDispatch) (request : HttpRequest) (response : HttpResponse)
    (s : Session) : outcome (Z * HttpResponse * Session) :=
  let! slt := getMatchServlet d (path_ request) in
  match slt with
  | Some slt => Ret (handle slt request response s)
  | None => Ret (0, response, s)
  end.

(** ** Properties *)

(** The calls that change the tables. *)
Inductive table_op : Type :=
| OpAdd (url : string) (slt : Servlet)
| OpDel (url : string).

Definition run_table_op (d : ServletDispatch) (o : table_op) : ServletDispatch :=
  match o with
  | OpAdd url slt => addServlet d url (Some slt)
  | OpDel url => delServlet d url
  end.

(** The servlet in charge of an address: the first one added since the address
    was last deleted. *)
Definition in_charge (url : string) (before : option Servlet) (o : table_op) : option Servlet :=
  match o with
  | OpAdd u slt => if bool_decide (u = url) then Some (default slt before) else before
  | OpDel u => if bool_decide (u = url) then None else before
  end.

Lemma run_table_op_lookup d o url x :
  mp_data_ d !! url = Some <$> x ->
  mp_data_ (run_table_op d o) !! url = Some <$> in_charge url x o.
Proof.
  intros Hx. destruct o as [u slt|u]; cbn; case_bool_decide as Hu; subst.
  - destruct x as [y|]; cbn in *; rewrite Hx; [done|by rewrite lookup_insert_eq].
  - destruct (mp_data_ d !! u); [done|by rewrite lookup_insert_ne].
  - by rewrite lookup_delete_eq.
  - by rewrite lookup_delete_ne.
Qed.

Lemma run_table_ops_lookup ops url : forall d x,
  mp_data_ d !! url = Some <$> x ->
  mp_data_ (fold_left run_table_op ops d) !! url = Some <$> fold_left (in_charge url) ops x.
Proof.
  induction ops as [|o ops IH]; intros d x Hx; cbn [fold_left]; [done|].
  by apply IH, run_table_op_lookup.
Qed.

Lemma run_table_ops_rest ops : forall d,
  v_data_ (fold_left run_table_op ops d) = v_data_ d /\
  defaultServlet_ (fold_left run_table_op ops d) = defaultServlet_ d.
Proof.
  induction ops as [|o ops IH]; intros d; cbn [fold_left]; [done|].
  destruct (IH (run_table_op d o)) as [-> ->]. by destruct o.
Qed.

(** The table as the requests see it. *)
Definition built (ops : list table_op) : ServletDispatch := fold_left run_table_op ops new_ServletDispatch.

Lemma built_lookup ops url : mp_data_ (built ops) !! url = Some <$> fold_left (in_charge url) ops None.
Proof. by apply run_table_ops_lookup. Qed.

(** Of the servlets added and deleted, the first one added since the
    request's address was last deleted answers the request; an address nobody
    is in charge of is answered with status 404, in HTML, with the page of the
    default servlet. *)
Theorem dispatch_correct ops request response s :
  match fold_left (in_charge (path_ request)) ops None with
  | Some slt => dispatch (built ops) request response s = Ret (handle slt request response s)
  | None =>
      exists response', dispatch (built ops) request response s = Ret (0, response', s) /\
        rsp_status response' = NOT_FOUND /\
        (map_ok (rsp_headers response) -> rsp_getHeaderEntry response' "content-type" = "text/html"%string) /\
        rsp_body response' <> ""%string
  end.
Proof.
  unfold dispatch, getMatchServlet. rewrite built_lookup.
  destruct (fold_left _ ops None) as [slt|]; cbn [fmap option_fmap option_map obind]; [done|].
  destruct (run_table_ops_rest ops new_ServletDispatch) as [Hv Hd]. unfold built. rewrite Hv. cbn [match_loop v_data_ new_ServletDispatch].
  rewrite Hd. cbn [obind]. eexists. split; [reflexivity|]. split_and!; [done| |done].
  intros Hm. unfold rsp_getHeaderEntry, map_get. cbn [rsp_headers rsp_setBody rsp_setHeaderEntry rsp_setHeaders rsp_setStatus].
  destruct (map_set_spec (rsp_headers response) "Server" "sylar/1.0.0" Hm) as (H1 & _).
  destruct (map_set_spec _ "Content-Type" "text/html" H1) as (H2 & D2 & _).
  rewrite map_find_denote, D2 by done.
  change (norm "Content-Type") with (norm "content-type"). by rewrite lookup_insert_eq.
Qed.

(** As soon as one pattern is registered, a request for an address that is
    not in the table makes the dispatcher read past the table's end, whatever
    the pattern. *)
Theorem global_servlet_undefined ops url slt request response s :
  fold_left (in_charge (path_ request)) ops None = None ->
  dispatch (addGlobalServlet (built ops) url slt) request response s = Fault Undefined.
Proof.
  intros Hn. unfold dispatch, getMatchServlet. cbn [mp_data_ addGlobalServlet]. rewrite built_lookup, Hn.
  cbn [fmap option_fmap option_map]. destruct (run_table_ops_rest ops new_ServletDispatch) as [Hv _].
  cbn [v_data_ addGlobalServlet]. unfold built at 2. rewrite Hv. done.
Qed.
End servlet.

Lemma global_servlet_undefined_witness :
  dispatch (C := unit) (Session := unit) (fun _ _ r s => (0, r, s)) (fun _ _ _ => 0)
    (addGlobalServlet (built []) "/*" (Some (new_NotFoundServlet "x"))) new_HttpRequest new_HttpResponse ()
  = Fault Undefined.
Proof. apply (global_servlet_undefined (C := unit) (Session := unit)). reflexivity. Defined.

Definition example_call (c : Z) (_ : HttpRequest) (r : HttpResponse) (s : unit) : Z * HttpResponse * unit :=
  (c, rsp_setStatus r c, s).

Lemma dispatch_correct_witness :
  dispatch example_call (fun _ _ _ => 0)
    (built [OpAdd "/a" (FunctionServlet 201); OpAdd "/a" (FunctionServlet 202)])
    (setPath new_HttpRequest "/a") new_HttpResponse () =
  Ret (201, rsp_setStatus new_HttpResponse 201, ()).
Proof.
  exact (dispatch_correct example_call (fun _ _ _ => 0)
    [OpAdd "/a" (FunctionServlet 201); OpAdd "/a" (FunctionServlet 202)]
    (setPath new_HttpRequest "/a") new_HttpResponse ()).
Defined.
