(* ===== verification/HttpServer.v ===== *)
(** * The HTTP server (src/qslary/http/HttpServer.h, HttpServer.cc)

    [handleClient], which the workers run for every accepted socket: requests are
    received on a session, handed to the dispatcher, and answered. The servlets
    of the application may change the session. *)
From stdpp Require Import base list gmap strings.
From Stdlib Require Import ZArith Ascii String Lia.
From S2P Require Import Prelude CLib Http HttpCommon HttpCorrect HttpRequestParser HttpRequestRun HttpRequestCorrect.
From S2P Require Import Stream StreamCorrect HttpSession HttpSessionCorrect Servlet.
Open Scope Z_scope.

Section server.
Context {W : Type} `{!Stream W} (close : W -> W).
Context (cast_length : string -> option Z) (cast_text : string -> option string).
Context (resizable : Z -> bool).
Context {C : Type} (call : C -> HttpRequest -> HttpResponse -> W -> Z * HttpResponse * W).
Context (fnmatch : string -> string -> Z -> Z).

(** The members; [TcpServer] has its own file. *)
Record HttpServer : Type := mkHttpServer {
  keepAlive_ : bool;
  dispatch_ : ServletDispatch (C := C)
}.

Definition new_HttpServer (keepAlive : bool) : HttpServer := mkHttpServer keepAlive new_ServletDispatch.
Definition getServletDispatch (s : HttpServer) : ServletDispatch := dispatch_ s.
Definition setServletDispatch (s : HttpServer) (slt : ServletDispatch) : HttpServer :=
  mkHttpServer (keepAlive_ s) slt.

(** The response [handleClient] makes for a request. *)
Definition new_response (s : HttpServer) (request : HttpRequest) : HttpResponse :=
  new_HttpResponse_of OK_STATUS (mVersion request) (close_ request || negb (keepAlive_ s)).

(** One turn of the loop: whether it breaks, and the session. *)
Definition serve_one (s : HttpServer) (fuel : nat) (w : W) : outcome (option (bool * W)) :=
  let! r := recvRequest close cast_length cast_text resizable fuel w in
  match r with
  | Some (Some request, w) =>
      let! h := dispatch call fnmatch (dispatch_ s) request (new_response s request) w in
      let '(_, response, w) := h in
      match sendResponse response w with
      | Some (_, w) => Ret (Some (negb (keepAlive_ s) || rsp_close response, w))
      | None => Ret None
      end
  | Some (None, _) => Fault AssertFailed
  | None => Ret None
  end.

(** [HttpServer::handleClient] with the session of the client's socket, whose
    destructor leaves the socket alone. *)
Fixpoint serve (s : HttpServer) (turns fuel : nat) (w : W) : outcome (option W) :=
  match turns with
  | O => Ret None
  | S turns =>
      let! r := serve_one s fuel w in
      match r with
      | Some (true, w) => Ret (Some (close w))
      | Some (false, w) => serve s turns fuel w
      | None => Ret None
      end
  end.
Definition handleClient (s : HttpServer) (fuel : nat) (w : W) : outcome (option W) :=
  serve s fuel fuel w.
End server.

(** ** Properties *)
Section properties.
Context {W : Type} `{!Stream W, !StreamLaws W} (close : W -> W).
Context (cast_length : string -> option Z) (cast_text : string -> option string).
Context (resizable : Z -> bool).
Context {C : Type} (call : C -> HttpRequest -> HttpResponse -> W -> Z * HttpResponse * W).
Context (fnmatch : string -> string -> Z -> Z).
Implicit Types (s : HttpServer (C := C)) (w : W).
Abbreviation serve_one := (serve_one close cast_length cast_text resizable call fnmatch).
Abbreviation serve := (serve close cast_length cast_text resizable call fnmatch).
Abbreviation handleClient := (handleClient close cast_length cast_text resizable call fnmatch).
Abbreviation announced := (announced cast_length).
Abbreviation response_text r := (list_ascii_of_string (HttpResponse_toString r)).

(** What a response that is sent leaves in the outbox. *)
Lemma sendResponse_sends r w w' : len (response_text r) < 2 ^ 63 -> writes w (response_text r) [] w' ->
  sendResponse r w = Some (i32 (len (response_text r)), w') /\ outbox w' = outbox w ++ response_text r.
Proof. intros Hl Hw. unfold sendResponse. by destruct (writeFixSize_sends w (response_text r) w' Hl Hw) as [-> Ho]. Qed.
Lemma sendResponse_fails r w rest w1 w' : len (response_text r) < 2 ^ 63 ->
  writes w (response_text r) rest w1 -> rest <> [] -> write_fails w1 rest w' ->
  sendResponse r w = Some (i32 (len (response_text r)), w') /\
  outbox w' = outbox w ++ take (List.length (response_text r) - List.length rest) (response_text r).
Proof.
  intros Hl Hw Hne Hf. unfold sendResponse.
  by destruct (writeFixSize_fails w (response_text r) rest w1 w' Hl Hw Hne Hf) as (x & -> & _ & Ho).
Qed.

(** One turn, for a request that comes with one read. *)
Lemma serve_one_request s fuel r part w w1 code response w2 n w3 :
  request_ok r = true -> (stored r).2 = 0 ->
  read w buff_size = (len (request_text r ++ part), request_text r ++ part, w1) ->
  let q := (stored r).1 in
  announced q <= len part -> (0 < announced q -> resizable (announced q) = true) ->
  let request := init cast_text (setBody q (string_of_list_ascii (take (Z.to_nat (announced q)) part))) in
  dispatch call fnmatch (dispatch_ s) request (new_response s request) w1 = Ret (code, response, w2) ->
  sendResponse response w2 = Some (n, w3) ->
  serve_one s (S fuel) w = Ret (Some (negb (keepAlive_ s) || rsp_close response, w3)).
Proof.
  intros Hr Herr Hread q Hlen Hres request Hd Hsend. unfold HttpServer.serve_one.
  rewrite (recvRequest_first_read close cast_length cast_text resizable r part fuel w w1 Hr Herr Hread). fold q.
  assert (Z.max 0 (announced q - len part) = 0) as E0 by lia.
  pose proof (finish_request_gets close cast_length cast_text resizable r part w1 [] w1 Hres) as Hg.
  cbn zeta in Hg. fold q in Hg. rewrite E0 in Hg. rewrite Hg by (done || constructor). rewrite app_nil_r. fold request.
  cbn [obind]. rewrite Hd. cbn [obind]. by rewrite Hsend.
Qed.

(** C19: a request in origin form ([request_ok]), of a method that has a name, that
    comes with one read, to a server that does not keep connections alive, is handed
    to the dispatcher with a response of status 200 and the request's version that
    says close. What the servlet makes of it is sent, the whole text of it and
    nothing else, when all writes to the session send something; when one of them
    does not, what was sent before it is the beginning of the text that the writes
    before it took. Either is the case, and in both the connection is closed. *)
Theorem handleClient_answers s fuel r part w w1 code response w2 :
  keepAlive_ s = false -> request_ok r = true -> (stored r).2 = 0 ->
  read w buff_size = (len (request_text r ++ part), request_text r ++ part, w1) ->
  let q := (stored r).1 in
  announced q <= len part -> (0 < announced q -> resizable (announced q) = true) ->
  let request := init cast_text (setBody q (string_of_list_ascii (take (Z.to_nat (announced q)) part))) in
  dispatch call fnmatch (dispatch_ s) request (new_HttpResponse_of OK_STATUS (mVersion q) true) w1 =
    Ret (code, response, w2) ->
  let text := response_text response in
  len text < 2 ^ 63 ->
  (forall w3, writes w2 text [] w3 ->
     handleClient s (S fuel) w = Ret (Some (close w3)) /\ outbox w3 = outbox w2 ++ text) /\
  (forall rest w' w3, writes w2 text rest w' -> rest <> [] -> write_fails w' rest w3 ->
     handleClient s (S fuel) w = Ret (Some (close w3)) /\
     outbox w3 = outbox w2 ++ take (List.length text - List.length rest) text) /\
  (exists rest w', writes w2 text rest w' /\ (rest = [] \/ rest <> [] /\ exists w3, write_fails w' rest w3)).
Proof.
  intros Hk Hr Herr Hread q Hlen Hres request Hd text Hout.
  assert (new_response s request = new_HttpResponse_of OK_STATUS (mVersion q) true) as Hn.
  { unfold new_response. rewrite Hk, orb_true_r. f_equal. unfold request, init. by case_bool_decide. }
  assert (forall n w3, sendResponse response w2 = Some (n, w3) -> handleClient s (S fuel) w = Ret (Some (close w3))) as Hone.
  { intros n w3 Hs. unfold HttpServer.handleClient. cbn [HttpServer.serve].
    rewrite (serve_one_request s fuel r part w w1 code response w2 n w3 Hr Herr Hread Hlen Hres); [by rewrite Hk| |exact Hs].
    fold q request. by rewrite Hn. }
  split; [|split].
  - intros w3 Hw. destruct (sendResponse_sends response w2 w3 Hout Hw) as [E Ho]. split; [by apply Hone in E|exact Ho].
  - intros rest w' w3 Hw Hne Hf. destruct (sendResponse_fails response w2 rest w' w3 Hout Hw Hne Hf) as [E Ho].
    split; [by apply Hone in E|exact Ho].
  - by apply (writes_total (List.length text)).
Qed.

(** ** The end of a connection *)
Section ending.
(** Neither writing nor a servlet takes back what has been read. *)
Hypothesis write_inbox : forall w b r w', write w b = (r, w') -> (len (inbox w') <= len (inbox w)).
Hypothesis call_inbox : forall c q p w, len (inbox (call c q p w).2) <= len (inbox w).

Lemma write_loop_inbox length fuel : forall left_ w b r w',
  write_loop fuel length left_ w b = Some (r, w') -> len (inbox w') <= len (inbox w).
Proof using write_inbox.
  induction fuel as [|fuel IH]; intros left_ w b r w'; cbn [write_loop].
  - destruct (0 <? left_); [done|]. by intros [= _ <-].
  - destruct (0 <? left_); [|by intros [= _ <-]]. destruct (write w b) as [n w1] eqn:E.
    pose proof (write_inbox _ _ _ _ E). destruct (n <=? 0); [by intros [= _ <-]|].
    intros H1%IH. lia.
Qed.

Lemma dispatch_inbox d q p w code response w' :
  dispatch call fnmatch d q p w = Ret (code, response, w') -> len (inbox w') <= len (inbox w).
Proof using call_inbox.
  unfold dispatch. intros ([slt|] & _ & H)%obind_Ret_inv; [|by injection H as _ _ <-].
  destruct slt as [c|name content]; cbn [handle] in H; [|by injection H as _ _ <-].
  pose proof (call_inbox c q p w) as Hc. injection H as H. by rewrite H in Hc.
Qed.

(** A turn that ends has read something. *)
Lemma serve_one_progress s fuel w b w' :
  (List.length (inbox w) < fuel)%nat -> serve_one s fuel w = Ret (Some (b, w')) ->
  len (inbox w') < len (inbox w).
Proof using call_inbox write_inbox.
  intros Hf. unfold HttpServer.serve_one. intros (x & Hx & H)%obind_Ret_inv.
  destruct (recvRequest_spec close cast_length cast_text resizable fuel w x Hf Hx)
    as (d & w1 & Hin & [->|(q & -> & Hd & _)]); [discriminate|].
  apply obind_Ret_inv in H as ([[code response] w2] & Hdis & H).
  unfold sendResponse, writeFixSize in H.
  destruct (write_loop _ _ _ _ _) as [[r w3]|] eqn:Ew; [|discriminate]. injection H as _ <-.
  apply write_loop_inbox in Ew. apply dispatch_inbox in Hdis.
  unfold has_read in Hin. rewrite Hin, length_app. destruct d; [done|]. cbn [List.length]. lia.
Qed.

Lemma write_loop_ends length fuel : forall left_ w b,
  (Z.to_nat left_ <= fuel)%nat -> exists r, write_loop fuel length left_ w b = Some r.
Proof.
  induction fuel as [|fuel IH]; intros left_ w b Hf; cbn [write_loop];
    (destruct (Z.ltb_spec 0 left_); [|by eexists]); [lia|].
  destruct (write w b) as [n w1]. destruct (Z.leb_spec n 0); [by eexists|]. apply IH. lia.
Qed.

Lemma serve_one_some s fuel w : (List.length (inbox w) < fuel)%nat -> serve_one s fuel w <> Ret None.
Proof.
  intros Hf. unfold HttpServer.serve_one. intros (x & Hx & H)%obind_Ret_inv.
  destruct (recvRequest_spec close cast_length cast_text resizable fuel w x Hf Hx)
    as (d & w1 & Hin & [->|(q & -> & Hd & _)]); [discriminate|].
  apply obind_Ret_inv in H as ([[code response] w2] & Hdis & H).
  unfold sendResponse, writeFixSize in H.
  destruct (write_loop_ends (len (response_text response)) _ (i64 (len (response_text response))) w2
    (response_text response) (le_n _)) as [[r w3] E]. by rewrite E in H.
Qed.

(** A request of the session is received, the dispatcher makes the response, and it is
    sent. *)
Definition answered s fuel w (request : HttpRequest) (response : HttpResponse) w' : Prop :=
  exists w1 w2 code n, recvRequest close cast_length cast_text resizable fuel w = Ret (Some (Some request, w1)) /\
    dispatch call fnmatch (dispatch_ s) request
      (new_HttpResponse_of OK_STATUS (mVersion request) (close_ request || negb (keepAlive_ s))) w1 = Ret (code, response, w2) /\
    sendResponse response w2 = Some (n, w').

Lemma serve_one_answered s fuel w b w' : serve_one s fuel w = Ret (Some (b, w')) <->
  exists request response, answered s fuel w request response w' /\ b = negb (keepAlive_ s) || rsp_close response.
Proof.
  unfold HttpServer.serve_one, answered, new_response. split.
  - intros ([[[q|] w1]|] & E & H)%obind_Ret_inv; try discriminate.
    apply obind_Ret_inv in H as ([[code p] w2] & Hd & H). destruct (sendResponse p w2) as [[n w3]|] eqn:Es; [|discriminate].
    injection H as <- <-. exists q, p. split; [|done]. by exists w1, w2, code, n.
  - intros (q & p & (w1 & w2 & code & n & -> & Hd & Hs) & ->). cbn [obind]. rewrite Hd. cbn [obind]. by rewrite Hs.
Qed.

(** [w'] is the session after some turns with responses that keep the connection. *)
Definition kept_alive s fuel : W -> W -> Prop :=
  rtc (fun a b => keepAlive_ s = true /\ exists request response, answered s fuel a request response b /\ rsp_close response = false).

Lemma kept_turn s fuel w w' : serve_one s fuel w = Ret (Some (false, w')) <->
  keepAlive_ s = true /\ exists request response, answered s fuel w request response w' /\ rsp_close response = false.
Proof.
  rewrite serve_one_answered. split.
  - intros (q & p & H & E). symmetry in E. apply orb_false_iff in E as [E1 E2]. apply negb_false_iff in E1. eauto.
  - intros (Hk & q & p & H & E). exists q, p. split; [done|]. by rewrite Hk, E.
Qed.

Lemma serve_ends s fuel : forall turns w,
  (List.length (inbox w) < turns)%nat -> (List.length (inbox w) < fuel)%nat ->
  (exists w1 f, kept_alive s fuel w w1 /\ serve_one s fuel w1 = Fault f /\ serve s turns fuel w = Fault f) \/
  exists w1 w2, kept_alive s fuel w w1 /\ serve_one s fuel w1 = Ret (Some (true, w2)) /\
    serve s turns fuel w = Ret (Some (close w2)).
Proof using call_inbox write_inbox.
  induction turns as [|turns IH]; intros w Ht Hf; [lia|]. cbn [HttpServer.serve].
  destruct (serve_one s fuel w) as [[[[|] w1]|]|f] eqn:E; cbn [obind].
  - right. exists w, w1. split_and!; [apply rtc_refl|exact E|done].
  - pose proof (serve_one_progress _ _ _ _ _ Hf E) as Hp. apply kept_turn in E.
    destruct (IH w1) as [(w2 & f & Hr & E2 & E3)|(w2 & w3 & Hr & E2 & E3)]; [lia|lia|left|right];
      (eexists w2, _; split; [by eapply rtc_l|by split]).
  - by apply serve_one_some in E.
  - left. exists w, f. split_and!; [apply rtc_refl|exact E|done].
Qed.

Lemma serve_after s fuel w w' : kept_alive s fuel w w' ->
  (List.length (inbox w) < fuel)%nat -> forall turns, (List.length (inbox w) < turns)%nat ->
  exists turns', (List.length (inbox w') < turns')%nat /\ (List.length (inbox w') < fuel)%nat /\
    serve s turns fuel w = serve s turns' fuel w'.
Proof using call_inbox write_inbox.
  induction 1 as [w|w w1 w' E _ IH]; intros Hf turns Ht; [by exists turns|].
  apply kept_turn in E. destruct turns as [|turns]; [lia|]. pose proof (serve_one_progress _ _ _ _ _ Hf E).
  destruct (IH ltac:(lia) turns ltac:(lia)) as (turns' & H1 & H2 & H3).
  exists turns'. split_and!; [done|done|]. rewrite <- H3. cbn [HttpServer.serve]. by rewrite E.
Qed.

(** C28: serving a client ends, and the connection is closed behind the first response
    that says close, or behind the first one of all on a server that does not keep
    connections alive: until then every request is received, given to the dispatcher
    with a new response, and what that makes of it is sent. Else a turn of the loop
    has had a fault; and a client that leaves while the connection is kept makes the
    server fail an assertion. *)
Theorem handleClient_ends s fuel w :
  (List.length (inbox w) < fuel)%nat ->
  ((exists w1 f, kept_alive s fuel w w1 /\ serve_one s fuel w1 = Fault f /\ handleClient s fuel w = Fault f) \/
   exists w1 request response w2, kept_alive s fuel w w1 /\ answered s fuel w1 request response w2 /\
     (keepAlive_ s = false \/ rsp_close response = true) /\ handleClient s fuel w = Ret (Some (close w2))) /\
  (forall w', kept_alive s fuel w w' -> inbox w' = [] -> handleClient s fuel w = Fault AssertFailed).
Proof using call_inbox write_inbox.
  intros Hf. split.
  { destruct (serve_ends s fuel fuel w Hf Hf) as [H|(w1 & w2 & Hk & E & Hs)]; [by left|right].
    apply serve_one_answered in E as (q & p & Ha & E). exists w1, q, p, w2. split_and!; try done.
    symmetry in E. apply orb_true_iff in E as [E%negb_true_iff|E]; auto. }
  intros w' Hk Hw.
  destruct (serve_after s fuel w w' Hk Hf fuel Hf) as (turns & Ht & Hf' & E).
  unfold HttpServer.handleClient. rewrite E. destruct turns as [|turns]; [lia|]. cbn [HttpServer.serve].
  assert (serve_one s fuel w' = Fault AssertFailed) as ->; [|done].
  unfold HttpServer.serve_one, recvRequest. destruct fuel as [|fuel]; [lia|]. cbn [recv_head].
  destruct (read w' (buff_size - len [])) as [[n d] w1] eqn:Er.
  pose proof (read_part w' (buff_size - len []) n d w1 ltac:(reflexivity) Er) as Hr. destruct (Z.leb_spec n 0) as [|Hn]; [reflexivity|].
  destruct Hr as (Hr & Hd & _). unfold has_read in Hr. rewrite Hw in Hr.
  destruct d; [cbn in Hd; lia|discriminate].
Qed.
End ending.
End properties.

(** ** Witnesses *)
Definition hello (_ : unit) (q : HttpRequest) (p : HttpResponse) (w : Pipe) : Z * HttpResponse * Pipe :=
  (0, rsp_setBody p ("hello " ++ body_ q), w).
Definition hello_server (keepAlive : bool) : HttpServer (C := unit) :=
  setServletDispatch (new_HttpServer keepAlive)
    (addServlet (getServletDispatch (new_HttpServer keepAlive)) "/a" (Some (FunctionServlet tt))).
Definition one_post : Pipe := ([request_text post ++ text_of "abcdef"], []).

Lemma handleClient_answers_witness :
  let text := list_ascii_of_string ("HTTP/1.1 200 OK" ++ crlf ++ "connection: close" ++ crlf ++
                    "content-length: 12" ++ crlf ++ crlf ++ "hello abcdef" ++ crlf) in
  handleClient id decimal_cast Some small hello (fun _ _ _ => 1) (hello_server false) 1 one_post = Ret (Some ([], text)).
Proof.
  destruct (handleClient_answers (C := unit) id decimal_cast Some small hello (fun _ _ _ => 1) (hello_server false) 0 post
    (text_of "abcdef") one_post ([], []) 0
    (rsp_setBody (new_HttpResponse_of OK_STATUS 0x11 true) "hello abcdef") ([], []))
    as (H & _ & _); [reflexivity..| |done|vm_compute; reflexivity|reflexivity|].
  - vm_compute. done.
  - match type of H with forall w3, writes ?w2 ?t [] w3 -> _ => destruct (H ([], t)) as [E _] end.
    + eapply writes_some; [vm_compute; discriminate|reflexivity|vm_compute; reflexivity|].
      rewrite Nat2Z.id, drop_all. apply writes_none.
    + rewrite E. vm_compute. reflexivity.
Defined.

Lemma handleClient_ends_witness :
  handleClient id decimal_cast Some small hello (fun _ _ _ => 1) (hello_server true) 200 one_post =
  Fault AssertFailed.
Proof.
  assert (forall (w : Pipe) b r w', write w b = (r, w') -> len (inbox w') <= len (inbox w)) as Hw
    by (intros w b r w' [= _ <-]; reflexivity).
  assert (forall c q p (w : Pipe), len (inbox (hello c q p w).2) <= len (inbox w)) as Hc by reflexivity.
  destruct (handleClient_ends id decimal_cast Some small hello (fun _ _ _ => 1) Hw Hc (hello_server true) 200 one_post)
    as [_ H]; [vm_compute; lia|].
  destruct (serve_one id decimal_cast Some small hello (fun _ _ _ => 1) (hello_server true) 200 one_post)
    as [[[[|] w']|]|] eqn:E; [vm_compute in E; discriminate E| |vm_compute in E; discriminate E..].
  apply (H w'); [apply rtc_once, kept_turn; exact E|]. vm_compute in E. by injection E as <-.
Defined.
