(* ===== verification/HttpConnection.v ===== *)
(** * Connections of the client (src/qslary/http/HttpConnection.h, HttpConnection.cc)

    [HttpConnection] is a [SockStream] on which requests are sent and responses
    received, in one piece or in chunks; [DoRequest] makes one connection per
    request. The buffer of [recvResponse] is memory: its contents before the first
    read are a parameter. *)
From stdpp Require Import base list gmap strings.
From Stdlib Require Import ZArith Ascii String Lia.
From S2P Require Import Prelude CLib ByteArray Address Uri UriAddress Http HttpCommon HttpResponseParser.
From S2P Require Import Socket Stream HttpSession.
Open Scope Z_scope.

(** ** Receiving *)
Section receive.
Context {W : Type} `{!Stream W} (close : W -> W).
Context (cast_length : string -> option Z) (resizable : Z -> bool).
Context (junk : list ascii).

(** [new char[buff_size + 1]] *)
Definition new_buffer : list ascii := take (Z.to_nat (buff_size + 1)) (junk ++ repeat zero (Z.to_nat (buff_size + 1))).

Record receiver : Type := mkReceiver {
  parser : HttpResponseParser;
  data : list ascii;                          (** the buffer *)
  offset : Z                                  (** how much of it is filled *)
}.

(** The store of the terminating NUL, [parser->execute], and the tests behind it:
    whether the connection is given up. *)
Definition execute_from (r : receiver) (chunck : bool) : outcome (receiver * bool) :=
  let! mem := store (data r) (offset r) [zero] in
  let! x := execute (parser r) mem (offset r) chunck in
  let '(nparse, mem, p) := x in
  Ret (mkReceiver p mem (i32 (u64 (offset r - nparse))),
       hasError p || (i32 (u64 (offset r - nparse)) =? buff_size)).

(** The loop that reads the head. *)
Fixpoint recv_head (fuel : nat) (r : receiver) (w : W) : outcome (option (option receiver * W)) :=
  match fuel with
  | O => Ret None
  | S fuel =>
      let '(n, d, w) := read w (buff_size - offset r) in
      if n <=? 0 then refused close w
      else
        let! mem := store (data r) (offset r) d in
        let! x := execute_from (mkReceiver (parser r) mem (offset r + n)) false in
        let '(r, failed) := x in
        if (failed : bool) then refused close w
        else if negb (isFinished (parser r) =? 0) then Ret (Some (Some r, w))
        else recv_head fuel r w
  end.

(** The loop that reads a chunk's header. *)
Fixpoint recv_chunk_head (fuel : nat) (begin : bool) (r : receiver) (w : W)
    : outcome (option (option receiver * W)) :=
  match fuel with
  | O => Ret None
  | S fuel =>
      let parse r w :=
        let! x := execute_from r true in
        let '(r, failed) := x in
        if (failed : bool) then refused close w
        else if negb (isFinished (parser r) =? 0) then Ret (Some (Some r, w))
        else recv_chunk_head fuel false r w in
      if negb begin || (offset r =? 0) then
        let '(n, d, w) := read w (buff_size - offset r) in
        if n <=? 0 then refused close w
        else
          let! mem := store (data r) (offset r) d in
          parse (mkReceiver (parser r) mem (offset r + n)) w
      else parse r w
  end.

(** The loop that reads the rest of a chunk from the stream; every turn reads, so
    [left_] turns are enough. *)
Fixpoint recv_rest (fuel : nat) (left_ : Z) (mem body : list ascii) (w : W)
    : outcome (option (option (list ascii * list ascii) * W)) :=
  if 0 <? left_ then
    match fuel with
    | O => Ret None
    | S fuel =>
        let '(n, d, w) := read w (if left_ >? buff_size then buff_size else left_) in
        if n <=? 0 then refused close w
        else
          let! mem := store mem 0 d in
          recv_rest fuel (left_ - n) mem (body ++ d) w
    end
  else Ret (Some (Some (mem, body), w)).

(** What follows a chunk's header: the chunk and the line end behind it. A
    negative size is a huge [size_t] for [append], which throws; so does [resize]
    to a size below zero. *)
Definition recv_chunk_body (r : receiver) (body : list ascii) (w : W)
    : outcome (option (option (receiver * list ascii) * W)) :=
  let size := content_len (m_parser (parser r)) in
  let! size2 := signed 32 (size + 2) in
  if size2 <=? offset r then
    if size <? 0 then Fault Thrown
    else
      let! chunk := load (data r) 0 size in
      let! tail := load (data r) size2 (offset r - size - 2) in
      let! mem := store (data r) 0 tail in
      Ret (Some (Some (mkReceiver (parser r) mem (offset r - size2), body ++ chunk), w))
  else
    let! chunk := load (data r) 0 (offset r) in
    let! x := recv_rest (Z.to_nat (size - offset r + 2)) (size - offset r + 2) (data r) (body ++ chunk) w in
    match x with
    | Some (Some (mem, body), w) =>
        if len body <? 2 then Fault Thrown
        else Ret (Some (Some (mkReceiver (parser r) mem 0, take (List.length body - 2) body), w))
    | Some (None, w) => Ret (Some (None, w))
    | None => Ret None
    end.

(** The loop over the chunks. *)
Fixpoint recv_chunks (fuel : nat) (r : receiver) (body : list ascii) (w : W)
    : outcome (option (option (receiver * list ascii) * W)) :=
  match fuel with
  | O => Ret None
  | S fuel =>
      let! x := recv_chunk_head fuel true r w in
      match x with
      | Some (Some r, w) =>
          let! y := recv_chunk_body r body w in
          match y with
          | Some (Some (r, body), w) =>
              if negb (chunks_done (m_parser (parser r)) =? 0) then Ret (Some (Some (r, body), w))
              else recv_chunks fuel r body w
          | _ => Ret y
          end
      | Some (None, w) => Ret (Some (None, w))
      | None => Ret None
      end
  end.

(** The body of a response that is not chunked. *)
Definition recv_whole (r : receiver) (w : W) : outcome (option (option (receiver * list ascii) * W)) :=
  let length := i64 (getContentLength cast_length (parser r)) in
  if 0 <? length then
    if resizable length then
      let! kept := load (data r) 0 (offset r) in
      match recv_body length kept w with
      | Some (Some body, w) => Ret (Some (Some (r, body), w))
      | Some (None, w) => refused close w
      | None => Ret None
      end
    else Fault Thrown
  else Ret (Some (Some (r, []), w)).

(** [HttpConnection::recvResponse] *)
Definition recvResponse (fuel : nat) (w : W) : outcome (option (option HttpResponse * W)) :=
  let! x := recv_head fuel (mkReceiver new_HttpResponseParser new_buffer 0) w in
  match x with
  | Some (Some r, w) =>
      let! y := (if negb (chunked (m_parser (parser r)) =? 0) then recv_chunks fuel r [] w
                 else recv_whole r w) in
      match y with
      | Some (Some (r, body), w) =>
          Ret (Some (Some (rsp_setBody (getData (parser r)) (string_of_list_ascii body)), w))
      | Some (None, w) => Ret (Some (None, w))
      | None => Ret None
      end
  | Some (None, w) => Ret (Some (None, w))
  | None => Ret None
  end.

(** [HttpConnection::sendRequest]: whatever the transfer returns, the result is
    the length of the text. *)
Definition sendRequest (request : HttpRequest) (w : W) : option (Z * W) :=
  let data := list_ascii_of_string (HttpRequest_toString request) in
  match writeFixSize w data with
  | Some (_, w) => Some (i32 (len data), w)
  | None => None
  end.
End receive.

(** ** Requests of the client *)

(** [HttpResult::Error] *)
Definition ERROR_OK : Z := 0.
Definition INVALID_URL : Z := 1.
Definition INVALID_HOST : Z := 2.
Definition CONNECTION_FALID : Z := 3.
Definition SEND_CLOSE_BY_PEER : Z := 4.
Definition SEND_SOCKET_ERROR : Z := 5.
Definition TIMEOUT : Z := 6.
Definition POLL_GET_CONNECTION : Z := 7.

Record HttpResult : Set := mkResult {
  result : Z;
  res_response : option HttpResponse;
  error : string
}.

Definition HttpResult_toString (r : HttpResult) : string :=
  ("[HttpResult result=" ++ decimal (result r) ++ " error=" ++ error r ++ " response=" ++
   match res_response r with Some p => HttpResponse_toString p | None => "nullptr" end ++ "]")%string.

(** The loop over the headers of a caller, in the order of their [std::map]:
    whether one of them is a host, and the request. *)
Fixpoint add_headers (headers : list (string * string)) (has_host : bool) (req : HttpRequest)
    : bool * HttpRequest :=
  match headers with
  | [] => (has_host, req)
  | (k, v) :: headers =>
      if strcasecmp k "connection" =? 0 then
        add_headers headers has_host (if strcasecmp v "keep-alive" =? 0 then setClose req false else req)
      else
        let has_host :=
          if negb has_host && (strcasecmp k "host" =? 0) then negb (bool_decide (v = ""%string)) else has_host in
        add_headers headers has_host (setHeaderEntry req k v)
  end.

(** The request [DoRequest] makes for a URI. *)
Definition uri_request (m : HttpMethod.t) (u : URI) (headers : list (string * string)) (body : string)
    : HttpRequest :=
  let req := setPath new_HttpRequest (getPath u) in
  let req := setMethod req m in
  let req := setQuery req (Uri.query_ u) in
  let req := setFragment req (Uri.fragment_ u) in
  let '(has_host, req) := add_headers headers false req in
  let req := if has_host then req else setHeaderEntry req "Host" (host_ u) in
  setBody req body.

Section requests.
Context {K : Type} (sys : System K).
Context (getaddrinfo : string -> option string -> Z -> Z -> option (list sockaddr)).
Context (cast_length : string -> option Z) (resizable : Z -> bool) (junk : list ascii).
(** [errno] and its text, as [DoRequest] prints them. *)
Context (errno_text : K -> string).

Definition send_request := @sendRequest (SockStream K) (SockStream_stream sys).
Definition recv_response := @recvResponse (SockStream K) (SockStream_stream sys) (SockStream_close sys)
                              cast_length resizable junk.

(** What is done on a connection: the result, and the connection. [peer] prints
    the peer's address when it is needed. *)
Definition exchange (fuel : nat) (req : HttpRequest)
    (peer : SockStream K -> outcome (string * SockStream K)) (ok : string) (timeout : Z)
    (conn : SockStream K)
    : outcome (option (HttpResult * SockStream K)) :=
  match send_request req conn with
  | Some (rt, conn) =>
      if rt =? 0 then
        let! a := peer conn in
        Ret (Some (mkResult SEND_CLOSE_BY_PEER None ("send request closed by peer: " ++ a.1)%string, a.2))
      else if rt <? 0 then
        Ret (Some (mkResult SEND_SOCKET_ERROR None
          ("send request socket error " ++ errno_text (kernel conn))%string, conn))
      else
        let! r := recv_response fuel conn in
        match r with
        | Some (None, conn) =>
            let! a := peer conn in
            Ret (Some (mkResult TIMEOUT None
              ("recv response timeout: " ++ a.1 ++ " timeout_ms:" ++ decimal timeout)%string, a.2))
        | Some (Some rsp, conn) => Ret (Some (mkResult ERROR_OK (Some rsp) ok, conn))
        | None => Ret None
        end
  | None => Ret None
  end.

(** [DoRequest] of a request object: the connection and its socket are destroyed
    when the function returns, which closes the socket. *)
Definition DoRequest (fuel : nat) (req : HttpRequest) (u : URI) (timeout : Z) (k : K)
    : outcome (option (HttpResult * K)) :=
  let! addr := createAddress getaddrinfo u in
  match addr with
  | None => Ret (Some (mkResult INVALID_HOST None ("Invalid host " ++ host_ u)%string, k))
  | Some addr =>
      let! c := connect sys (CreateTCPSocket_for addr) k addr in
      let '(ok, sock, k) := c in
      if negb ok then
        Ret (Some (mkResult CONNECTION_FALID None ("Connection falid " ++ ToString addr)%string,
                   (Socket.close sys sock k).2))
      else
        let! t := setRecvTimeout sys sock k timeout in
        let! x := exchange fuel req (fun c => Ret (ToString addr, c)) "OK" timeout
                    (mkSockStream (Some sock) true t.2) in
        match x with
        | Some (r, conn) => Ret (Some (r, kernel (delete_SockStream sys conn)))
        | None => Ret None
        end
  end.

(** [DoRequest], [DoGet] and [DoPost] of a URI and of a text. *)
Definition DoRequest_uri (fuel : nat) (m : HttpMethod.t) (u : URI) (timeout : Z)
    (headers : list (string * string)) (body : string) (k : K) : outcome (option (HttpResult * K)) :=
  DoRequest fuel (uri_request m u headers body) u timeout k.
Definition DoGet_uri (fuel : nat) := DoRequest_uri fuel HttpMethod.GET.
Definition DoPost_uri (fuel : nat) := DoRequest_uri fuel HttpMethod.POST.

(** [URI::Create] of a caller's text, and the error when it is not a URI. *)
Definition with_uri (url : string) (f : URI -> K -> outcome (option (HttpResult * K))) (k : K)
    : outcome (option (HttpResult * K)) :=
  let! u := Create url in
  match u with
  | Some u => f u k
  | None => Ret (Some (mkResult INVALID_URL None ("Invalid uri: " ++ url)%string, k))
  end.

Definition DoRequest_url (fuel : nat) (m : HttpMethod.t) (url : string) (timeout : Z)
    (headers : list (string * string)) (body : string) : K -> outcome (option (HttpResult * K)) :=
  with_uri url (fun u => DoRequest_uri fuel m u timeout headers body).
Definition DoGet (fuel : nat) (url : string) (timeout : Z) (headers : list (string * string))
    (body : string) : K -> outcome (option (HttpResult * K)) :=
  with_uri url (fun u => DoGet_uri fuel u timeout headers body).
Definition DoPost (fuel : nat) (url : string) (timeout : Z) (headers : list (string * string))
    (body : string) : K -> outcome (option (HttpResult * K)) :=
  with_uri url (fun u => DoPost_uri fuel u timeout headers body).
End requests.
