(* ===== verification/HttpConnectionCorrect.v ===== *)
(** * Correctness of connections

    What [recvResponse] of HttpConnection.v makes of a response in chunks, of what
    [HttpSession::sendResponse] sends, and of a chunk whose size does not fit. *)
From stdpp Require Import base list gmap strings.
From Stdlib Require Import ZArith Ascii String Lia.
From S2P Require Import Prelude CLib ByteArray ByteArrayCorrect Http HttpCommon HttpCorrect HttpResponseParser.
From S2P Require Import HttpResponseSafe HttpResponseRun HttpResponseCorrect.
From S2P Require Import Stream StreamCorrect HttpSession HttpSessionCorrect HttpConnection.
Open Scope Z_scope.

(** ** The buffer *)

(** The buffer has its size and begins with the text [K], up to the offset. *)
Definition holds (r : receiver) (K : list ascii) : Prop :=
  offset r = len K /\ len K <= buff_size /\
  exists junk, data r = K ++ junk /\ len (data r) = buff_size + 1.

Lemma store_end K junk d :
  (List.length d <= List.length junk)%nat ->
  store (K ++ junk) (len K) d = Ret (K ++ d ++ drop (List.length d) junk).
Proof.
  intros Hd. rewrite store_ok by (rewrite length_app; lia).
  rewrite take_app_length, drop_app_ge by lia.
  by replace (List.length K + List.length d - List.length K)%nat with (List.length d) by lia.
Qed.

Lemma load_front K junk : load (K ++ junk) 0 (len K) = Ret K.
Proof.
  change 0 with (Z.of_nat 0). rewrite load_ok by (rewrite length_app; lia). by rewrite drop_0, take_app_length.
Qed.

Lemma store_front mem d :
  (List.length d <= List.length mem)%nat -> store mem 0 d = Ret (d ++ drop (List.length d) mem).
Proof. intros Hd. change 0 with (Z.of_nat 0). by rewrite store_ok by lia. Qed.

Lemma execute_length_kept R mem N chunck n mem' R' :
  0 <= N <= len mem -> execute R mem N chunck = Ret (n, mem', R') -> 0 <= n -> List.length mem' = List.length mem.
Proof.
  intros HN. unfold execute. intros ([[x P] [q e]] & _ & H)%obind_Ret_inv Hn. revert H.
  destruct (Z.leb_spec (u64 x) N) as [Hx|]; [|discriminate]. intros [= <- <- _].
  rewrite length_app, !length_drop, length_take. lia.
Qed.

(** A parser that finishes on a text [H] of the buffer leaves what is behind. *)
Lemma execute_from_holds r H K chunck R' n rest junk :
  data r = (H ++ K) ++ junk -> len (data r) = buff_size + 1 -> offset r = len (H ++ K) ->
  len (H ++ K) <= buff_size -> H <> [] -> n = len H -> hasError R' = false ->
  execute (parser r) ((H ++ K) ++ zero :: drop 1 junk) (len (H ++ K)) chunck = Ret (n, K ++ rest, R') ->
  exists r', execute_from r chunck = Ret (r', false) /\ parser r' = R' /\ holds r' K.
Proof.
  intros Hd Hl Ho Hle Hne -> He E. assert (buff_size < 2 ^ 31) as Hb by reflexivity.
  assert (1 <= List.length junk)%nat as Hj by (rewrite Hd, (length_app (H ++ K)) in Hl; lia).
  assert (len (H ++ K) = len H + len K) as Hla by (rewrite length_app; lia).
  assert (0 < len H) by (destruct H; [done|]; cbn [List.length]; lia).
  unfold execute_from. rewrite Hd, Ho, store_end by (cbn; lia). cbn [obind List.length app].
  rewrite E. cbn [obind]. rewrite He. replace (len (H ++ K) - len H) with (len K) by lia.
  rewrite wrapu_small, wraps_fits by lia. rewrite (proj2 (Z.eqb_neq (len K) buff_size)) by lia.
  eexists. split; [reflexivity|]. split; [done|]. split; [done|]. split; [lia|].
  exists rest. split; [done|]. cbn [data].
  assert (0 <= len (H ++ K) <= len ((H ++ K) ++ zero :: drop 1 junk)) as HN
    by (rewrite (length_app (H ++ K)); lia).
  pose proof (execute_length_kept _ _ _ _ _ _ _ HN E ltac:(lia)) as El.
  rewrite El, <- Hl, Hd, !(length_app (H ++ K)). cbn [List.length]. rewrite length_drop. lia.
Qed.

(** ** Chunks *)
Record chunk : Set := mkChunk { c_size : list ascii; c_data : list ascii }.

Definition chunk_ok (c : chunk) : bool :=
  negb (bool_decide (c_size c = [])) && forallb (fun a => is_xdigit (schar a)) (c_size c) &&
  (xdigits_value 0 (map schar (c_size c)) =? len (c_data c)) && (len (c_data c) <? 2 ^ 31 - 2).
Definition chunk_head (c : chunk) : list ascii := c_size c ++ eol.
Definition chunk_tail (c : chunk) : list ascii := c_data c ++ eol.
Definition chunk_text (c : chunk) : list ascii := chunk_head c ++ chunk_tail c.

Section chunks.
Context {W : Type} `{!Stream W, !StreamLaws W} (close : W -> W).
Implicit Types (w : W) (r : receiver) (K : list ascii) (c : chunk).
Abbreviation recv_chunk_head := (recv_chunk_head close).
Abbreviation recv_chunk_body := (recv_chunk_body close).
Abbreviation recv_rest := (recv_rest close).
Abbreviation recv_chunks := (recv_chunks close).

(** Hexadecimal digits and a line end at the front of the buffer. *)
Lemma execute_from_header r ds K :
  ds <> [] -> forallb (fun a => is_xdigit (schar a)) ds = true ->
  let v := xdigits_value 0 (map schar ds) in
  0 <= v < 2 ^ 63 -> m_error (parser r) = 0 -> holds r ((ds ++ eol) ++ K) ->
  exists r', execute_from r true = Ret (r', false) /\ holds r' K /\ isFinished (parser r') = 1 /\
    m_error (parser r') = 0 /\ m_data (parser r') = m_data (parser r) /\
    content_len (m_parser (parser r')) = i32 v /\
    chunks_done (m_parser (parser r')) = (if i32 v <=? 0 then 1 else 0).
Proof.
  intros H0 H1 v H2 He (Ho & Hle & junk & Hd & Hl). assert (buff_size < 2 ^ 31) as Hb by reflexivity.
  assert (len (ds ++ eol) = len ds + 2) as Hh by (rewrite length_app; cbn; lia).
  assert (len (((ds ++ eol) ++ K) ++ zero :: drop 1 junk) < 2 ^ 62) as Hs2.
  { rewrite Hd, length_app in Hl. rewrite length_app. cbn [List.length]. rewrite length_drop. lia. }
  rewrite <- !app_assoc in Hs2. rewrite <- app_assoc in Hle.
  destruct (execute_chunk_header (parser r) ds K (drop 1 junk) H0 H1 H2) as
    (R' & rest & E & Hfin & Hda & Her & _ & Hcl & Hdone & _); [lia|exact Hs2|].
  destruct (execute_from_holds r (ds ++ eol) K true R' (len ds + 2) rest junk) as (r' & Ex & Hp & Hk).
  - done.
  - done.
  - done.
  - by rewrite <- app_assoc.
  - by destruct ds.
  - done.
  - unfold hasError. rewrite Her, He. cbn [Z.eqb negb orb].
    unfold isFinished, httpclient_parser_finish in Hfin. by destruct (httpclient_parser_has_error (m_parser R')).
  - rewrite <- !app_assoc. exact E.
  - exists r'. rewrite Hp. split_and!; try assumption. by rewrite Her.
Qed.

(** The header of a chunk at the front of the buffer. *)
Lemma execute_from_chunk r c K :
  chunk_ok c = true -> m_error (parser r) = 0 -> holds r (chunk_head c ++ K) ->
  exists r', execute_from r true = Ret (r', false) /\ holds r' K /\ isFinished (parser r') = 1 /\
    m_error (parser r') = 0 /\ m_data (parser r') = m_data (parser r) /\
    content_len (m_parser (parser r')) = len (c_data c) /\
    chunks_done (m_parser (parser r')) = (if len (c_data c) <=? 0 then 1 else 0).
Proof.
  intros [[[H0 H1]%andb_true_iff H2%Z.eqb_eq]%andb_true_iff H3%Z.ltb_lt]%andb_true_iff He Hr.
  apply negb_true_iff, bool_decide_eq_false in H0.
  pose proof (execute_from_header r (c_size c) K H0 H1) as H. cbn zeta in H. rewrite H2 in H.
  rewrite wraps_fits in H by lia. apply H; [lia|exact He|exact Hr].
Qed.

(** The stream gives the text [d] in as many reads as it likes, none of which
    fails, when [recv_rest] asks for it. *)
Inductive gives : W -> list ascii -> W -> Prop :=
| gives_all w : gives w [] w
| gives_part w w1 w2 d d' :
    d <> [] -> read w (if len (d ++ d') >? buff_size then buff_size else len (d ++ d')) = (len d, d, w1) ->
    len d <= buff_size -> gives w1 d' w2 -> gives w (d ++ d') w2.

Lemma recv_rest_gives w d w' : gives w d w' ->
  forall fuel mem body, (List.length d <= fuel)%nat -> len mem = buff_size + 1 ->
  exists mem', recv_rest fuel (len d) mem body w = Ret (Some (Some (mem', body ++ d), w')) /\
    len mem' = buff_size + 1.
Proof.
  induction 1 as [w|w w1 w2 d d' Hne Hread Hle _ IH]; intros fuel mem body Hf Hm.
  - exists mem. rewrite app_nil_r. by destruct fuel.
  - assert (0 < len d) by (destruct d; [done|]; cbn [List.length]; lia).
    assert (len (d ++ d') = len d + len d') as Hl by (rewrite length_app; lia).
    destruct fuel as [|fuel]; [lia|]. cbn [HttpConnection.recv_rest].
    rewrite (proj2 (Z.ltb_lt 0 (len (d ++ d')))) by lia. rewrite Hread.
    rewrite (proj2 (Z.leb_gt (len d) 0)) by lia.
    rewrite store_front by lia. cbn [obind].
    replace (len (d ++ d') - len d) with (len d') by lia.
    destruct (IH fuel (d ++ drop (List.length d) mem) (body ++ d)) as (mem' & E & Hm'); [lia| |].
    { rewrite length_app, length_drop. lia. }
    exists mem'. by rewrite E, <- app_assoc.
Qed.

(** A chunk that is in the buffer with what follows it. *)
Lemma recv_chunk_body_kept r c K body w :
  chunk_ok c = true -> content_len (m_parser (parser r)) = len (c_data c) ->
  holds r (chunk_tail c ++ K) ->
  exists r', recv_chunk_body r body w = Ret (Some (Some (r', body ++ c_data c), w)) /\
    parser r' = parser r /\ holds r' K.
Proof.
  intros [_ H3%Z.ltb_lt]%andb_true_iff Hc (Ho & Hle & junk & Hd & Hl).
  assert (len (chunk_tail c ++ K) = len (c_data c) + 2 + len K) as Hlen
    by (unfold chunk_tail, eol; rewrite !length_app; cbn [List.length]; lia).
  unfold HttpConnection.recv_chunk_body. rewrite Hc, Ho. unfold signed.
  assert (in_int 32 (len (c_data c) + 2) = true) as ->
    by (unfold in_int; change (2 ^ (32 - 1)) with (2 ^ 31);
        apply andb_true_iff; split; [apply Z.leb_le|apply Z.ltb_lt]; lia).
  cbn [obind]. rewrite (proj2 (Z.leb_le (len (c_data c) + 2) (len (chunk_tail c ++ K)))) by lia.
  rewrite (proj2 (Z.ltb_ge (len (c_data c)) 0)) by lia.
  assert (data r = c_data c ++ (eol ++ K ++ junk)) as Hd1
    by (rewrite Hd; unfold chunk_tail; by rewrite <- !app_assoc).
  replace (load (data r) 0 (len (c_data c))) with (Ret (c_data c)) by (rewrite Hd1; symmetry; apply load_front). cbn [obind].
  assert (load (data r) (len (c_data c) + 2) (len (chunk_tail c ++ K) - len (c_data c) - 2) = Ret K) as ->.
  { replace (len (c_data c) + 2) with (Z.of_nat (List.length (chunk_tail c)))
      by (unfold chunk_tail; rewrite length_app; cbn [List.length eol]; lia).
    replace (len (chunk_tail c ++ K) - len (c_data c) - 2) with (Z.of_nat (List.length K)) by lia.
    rewrite Hd, <- app_assoc, load_ok by (rewrite !length_app; lia). by rewrite drop_app_length, take_app_length. }
  cbn [obind].
  assert (List.length K <= List.length (data r))%nat as HK by (rewrite Hd, !length_app; lia).
  rewrite store_front by lia. cbn [obind].
  eexists. split; [reflexivity|]. split; [done|]. split; [cbn [offset]; lia|]. split; [lia|].
  exists (drop (List.length K) (data r)). split; [done|]. cbn [data]. rewrite length_app, length_drop. lia.
Qed.

(** A chunk of which the buffer ends within the data or the line end behind it. *)
Lemma recv_chunk_body_part r c part rest body w w' :
  chunk_ok c = true -> content_len (m_parser (parser r)) = len (c_data c) ->
  chunk_tail c = part ++ rest -> rest <> [] -> holds r part -> gives w rest w' ->
  exists r', recv_chunk_body r body w = Ret (Some (Some (r', body ++ c_data c), w')) /\
    parser r' = parser r /\ holds r' [].
Proof.
  intros [_ H3%Z.ltb_lt]%andb_true_iff Hc Ht Hne (Ho & Hle & junk & Hd & Hl) Hg.
  assert (len (c_data c) + 2 = len part + len rest) as Hlen.
  { rewrite <- Nat2Z.inj_add, <- length_app, <- Ht. unfold chunk_tail, eol. rewrite length_app. cbn [List.length]. lia. }
  assert (0 < len rest) as Hpos by (destruct rest; [done|]; cbn [List.length]; lia).
  unfold HttpConnection.recv_chunk_body. rewrite Hc, Ho. unfold signed.
  assert (in_int 32 (len (c_data c) + 2) = true) as ->
    by (unfold in_int; change (2 ^ (32 - 1)) with (2 ^ 31);
        apply andb_true_iff; split; [apply Z.leb_le|apply Z.ltb_lt]; lia).
  cbn [obind]. rewrite (proj2 (Z.leb_gt (len (c_data c) + 2) (len part))) by lia.
  replace (load (data r) 0 (len part)) with (Ret part) by (rewrite Hd; symmetry; apply load_front). cbn [obind].
  replace (len (c_data c) - len part + 2) with (len rest) by lia.
  destruct (recv_rest_gives w rest w' Hg (Z.to_nat (len rest)) (data r) (body ++ part) ltac:(lia) Hl)
    as (mem & -> & Hm).
  cbn [obind]. rewrite <- app_assoc, <- Ht. unfold chunk_tail. rewrite app_assoc.
  assert (List.length ((body ++ c_data c) ++ eol) = List.length (body ++ c_data c) + 2)%nat as Hb
    by (rewrite length_app; reflexivity).
  rewrite Hb, (proj2 (Z.ltb_ge _ 2)) by lia.
  replace (List.length (body ++ c_data c) + 2 - 2)%nat with (List.length (body ++ c_data c)) by lia.
  rewrite take_app_length. eexists. split; [reflexivity|]. split; [done|]. split; [done|]. split; [done|].
  by exists mem.
Qed.

(** Where the header of a chunk is: in the buffer, or in the next read when there
    is nothing in the buffer. *)
Inductive head_in : list ascii -> W -> chunk -> list ascii -> W -> Prop :=
| head_kept K w c : chunk_ok c = true -> head_in (chunk_head c ++ K) w c K w
| head_read w w1 c K :
    chunk_ok c = true -> len (chunk_head c ++ K) <= buff_size ->
    read w buff_size = (len (chunk_head c ++ K), chunk_head c ++ K, w1) -> head_in [] w c K w1.

(** Where its data and the line end behind it are: in the buffer, or partly there
    and partly still to be read. *)
Inductive tail_in : list ascii -> W -> chunk -> list ascii -> W -> Prop :=
| tail_kept K w c : tail_in (chunk_tail c ++ K) w c K w
| tail_part part rest w w' c :
    chunk_tail c = part ++ rest -> rest <> [] -> gives w rest w' -> tail_in part w c [] w'.

(** Chunks up to the first empty one. *)
Inductive chunks_in : list ascii -> W -> list chunk -> list ascii -> W -> Prop :=
| chunks_last K1 K2 K3 w1 w2 w3 c :
    head_in K1 w1 c K2 w2 -> tail_in K2 w2 c K3 w3 -> c_data c = [] -> chunks_in K1 w1 [c] K3 w3
| chunks_more K1 K2 K3 K4 w1 w2 w3 w4 c cs :
    head_in K1 w1 c K2 w2 -> tail_in K2 w2 c K3 w3 -> c_data c <> [] ->
    chunks_in K3 w3 cs K4 w4 -> chunks_in K1 w1 (c :: cs) K4 w4.

Lemma recv_chunk_head_in fuel r K w c K' w' :
  head_in K w c K' w' -> m_error (parser r) = 0 -> holds r K ->
  exists r', recv_chunk_head (S fuel) true r w = Ret (Some (Some r', w')) /\ holds r' K' /\
    chunk_ok c = true /\ m_error (parser r') = 0 /\ m_data (parser r') = m_data (parser r) /\
    content_len (m_parser (parser r')) = len (c_data c) /\
    chunks_done (m_parser (parser r')) = (if len (c_data c) <=? 0 then 1 else 0).
Proof.
  intros H He Hr. cbn [HttpConnection.recv_chunk_head].
  assert (chunk_ok c = true -> 0 < len (chunk_head c)) as Hpos
    by (intros _; unfold chunk_head; rewrite length_app; cbn [List.length eol]; lia).
  destruct H as [K w c Hc|w w1 c K Hc Hl Hread].
  - destruct (execute_from_chunk r c K Hc He Hr) as (r' & -> & Hk & Hf & H).
    exists r'. destruct Hr as (-> & _). pose proof (Hpos Hc). rewrite (length_app (chunk_head c)).
    rewrite (proj2 (Z.eqb_neq _ 0)) by lia. cbn [negb orb obind]. by rewrite Hf.
  - destruct Hr as (Ho & _ & junk & Hd & Hl').
    rewrite Ho. cbn [List.length Z.of_nat Z.eqb orb negb]. rewrite Z.sub_0_r, Hread.
    pose proof (Hpos Hc). rewrite (length_app (chunk_head c)) in Hl |- *.
    rewrite (proj2 (Z.leb_gt _ 0)) by lia. cbn [app] in Hd.
    rewrite store_front by (rewrite length_app; lia). cbn [obind].
    match goal with |- context [execute_from ?r1 true] =>
      destruct (execute_from_chunk r1 c K Hc He) as (r' & -> & Hk & Hf & H') end.
    { split; [cbn [offset]; rewrite length_app; lia|]. split; [rewrite length_app; lia|].
      eexists. split; [reflexivity|]. cbn [data]. rewrite length_app, length_drop, length_app. lia. }
    exists r'. cbn [obind]. by rewrite Hf.
Qed.

Lemma recv_chunk_body_in r K w c K' w' body :
  tail_in K w c K' w' -> chunk_ok c = true -> content_len (m_parser (parser r)) = len (c_data c) ->
  holds r K ->
  exists r', recv_chunk_body r body w = Ret (Some (Some (r', body ++ c_data c), w')) /\
    parser r' = parser r /\ holds r' K'.
Proof.
  intros H Hc Hl Hr. destruct H as [K w c|part rest w w' c Ht Hne Hg].
  - by apply recv_chunk_body_kept.
  - by apply (recv_chunk_body_part r c part rest body w w').
Qed.

Lemma recv_chunks_turn fuel r body w :
  recv_chunks (S fuel) r body w =
    let! x := recv_chunk_head fuel true r w in
    match x with
    | Some (Some r, w) =>
        let! y := recv_chunk_body r body w in
        match y with
        | Some (Some (r, body), w) =>
            if negb (chunks_done (m_parser (parser r)) =? 0) then Ret (Some (Some (r, body), w))
            else recv_chunks fuel r body w
        | _ => Ret y
        end
    | Some (None, w) => Ret (Some (None, w))
    | None => Ret None
    end.
Proof. reflexivity. Qed.

Lemma recv_chunks_in K w cs K' w' :
  chunks_in K w cs K' w' ->
  forall fuel r body, (List.length cs < fuel)%nat -> m_error (parser r) = 0 -> holds r K ->
  exists r', recv_chunks fuel r body w =
      Ret (Some (Some (r', body ++ List.concat (map c_data cs)), w')) /\
    holds r' K' /\ m_data (parser r') = m_data (parser r).
Proof.
  induction 1 as [K1 K2 K3 w1 w2 w3 c Hh Ht Hd|K1 K2 K3 K4 w1 w2 w3 w4 c cs Hh Ht Hd _ IH];
    intros [|[|fuel]] r body Hf He Hr; cbn [List.length] in Hf; try lia; rewrite recv_chunks_turn.
  all: destruct (recv_chunk_head_in fuel r _ _ _ _ _ Hh He Hr) as (r1 & -> & Hr1 & Hc & He1 & Hda & Hl & Hdone).
  all: cbn [obind].
  all: destruct (recv_chunk_body_in r1 _ _ _ _ _ body Ht Hc Hl Hr1) as (r2 & -> & Hp & Hr2).
  all: cbn [obind]; rewrite Hp, Hdone.
  - exists r2. cbn [map List.concat]. rewrite Hd, Hp. split_and!; [reflexivity|exact Hr2|exact Hda].
  - assert (0 < len (c_data c)) by (destruct (c_data c); [done|]; cbn [List.length]; lia).
    rewrite (proj2 (Z.leb_gt _ 0)) by lia. cbn [Z.eqb negb].
    destruct (IH (S fuel) r2 (body ++ c_data c)) as (r3 & -> & Hr3 & Hda3); [lia|by rewrite Hp|exact Hr2|].
    exists r3. rewrite Hda3, Hp. cbn [map List.concat]. by rewrite <- app_assoc.
Qed.

(** C40: a chunk whose size is too large for an [int] is not received. The size that
    its header, which is in the buffer, announces, below 2^63, is converted to
    [int]: when that gives 2^31 - 2 or 2^31 - 1 the sum of it and 2 is beyond an
    [int], which C++ leaves undefined; when it gives less than -1 [append] throws,
    which nothing catches. These are the sizes from 2^31 - 2 to 2^32 - 2, and those
    that differ from one of them by a multiple of 2^32. *)
Theorem chunk_size_faults fuel r ds K body w :
  ds <> [] -> forallb (fun a => is_xdigit (schar a)) ds = true ->
  let v := xdigits_value 0 (map schar ds) in
  let n := i32 v in
  0 <= v < 2 ^ 63 -> 2 ^ 31 - 2 <= n \/ n < -1 -> m_error (parser r) = 0 -> holds r ((ds ++ eol) ++ K) ->
  recv_chunks (S (S fuel)) r body w = Fault (if n <? 0 then Thrown else Undefined).
Proof.
  intros H0 H1 v n Hv Hn He Hr. rewrite recv_chunks_turn. cbn [HttpConnection.recv_chunk_head].
  destruct (execute_from_header r ds K H0 H1) as (r' & -> & (Ho & _) & Hf & _ & _ & Hc & _); [exact Hv|exact He|exact Hr|].
  fold v n in Hc. destruct Hr as (-> & _).
  assert (0 < len ((ds ++ eol) ++ K)) by (rewrite !length_app; cbn [List.length eol]; lia).
  rewrite (proj2 (Z.eqb_neq _ 0)) by lia. cbn [negb orb obind]. rewrite Hf. cbn [Z.eqb negb obind].
  unfold HttpConnection.recv_chunk_body. rewrite Hc, Ho. unfold signed, in_int.
  change (2 ^ (32 - 1)) with (2 ^ 31). pose proof (wraps_range 32 v ltac:(lia)) as Hb. fold n in Hb.
  clearbody n. destruct (Z.ltb_spec n 0) as [Hlt|Hge].
  - rewrite (proj2 (Z.leb_le (- 2 ^ 31) _)), (proj2 (Z.ltb_lt _ (2 ^ 31))) by lia. cbn [andb obind].
    by rewrite (proj2 (Z.leb_le _ (len K))), ?(proj2 (Z.ltb_lt n 0)) by lia.
  - by rewrite (proj2 (Z.ltb_ge (n + 2) (2 ^ 31))), andb_false_r by lia.
Qed.
End chunks.

(** ** Responses *)
Section responses.
Context {W : Type} `{!Stream W, !StreamLaws W} (close : W -> W).
Context (cast_length : string -> option Z) (resizable : Z -> bool) (junk : list ascii).
Implicit Types (w : W) (r : response).
Abbreviation recvResponse := (recvResponse close cast_length resizable junk).
Abbreviation fresh := (mkReceiver new_HttpResponseParser (new_buffer junk) 0).

Lemma new_buffer_length : len (new_buffer junk) = buff_size + 1.
Proof.
  unfold new_buffer. rewrite length_take, length_app, repeat_length.
  assert (0 < buff_size) by reflexivity. lia.
Qed.

(** Whether a response whose head is at the front of the first read is in chunks,
    as the parser finds. *)
Definition in_chunks (text : list ascii) : bool :=
  match execute new_HttpResponseParser (text ++ zero :: drop (S (List.length text)) (new_buffer junk))
          (len text) false with
  | Ret (_, _, R) => negb (chunked (m_parser R) =? 0)
  | Fault _ => false
  end.

(** What the fields of a response say of its length. *)
Definition rsp_announced (q : HttpResponse) : Z :=
  i64 (rsp_getHeaderEntryAs cast_length q "content-length" 0).2.

Lemma response_text_nonempty r : response_text r <> [].
Proof. unfold response_text, version_text. by destruct (r_version r). Qed.

(** The head of a response that comes with the first read. *)
Lemma recv_head_response r part fuel w w1 :
  response_ok r = true ->
  read w buff_size = (len (response_text r ++ part), response_text r ++ part, w1) ->
  exists rc, HttpConnection.recv_head close (S fuel) fresh w = Ret (Some (Some rc, w1)) /\
    holds rc part /\ (m_data (parser rc), m_error (parser rc)) = stored (new_HttpResponse, 0) r /\
    negb (chunked (m_parser (parser rc)) =? 0) = in_chunks (response_text r ++ part).
Proof.
  intros Hr Hread. destruct (read_law w buff_size _ _ _ ltac:(done) Hread) as ([_ Hle] & _).
  pose proof new_buffer_length as Hb. assert (buff_size < 2 ^ 31) as Hbs by reflexivity.
  pose proof (response_text_nonempty r) as Hne.
  assert (len (response_text r ++ part) = len (response_text r) + len part) as Hla by (rewrite length_app; lia).
  assert (0 < len (response_text r)) by (destruct (response_text r); [done|]; cbn [List.length]; lia).
  set (text := response_text r ++ part) in *.
  set (jk := drop (List.length text) (new_buffer junk)).
  assert (len jk = buff_size + 1 - len text) as Hjk by (unfold jk; rewrite length_drop; lia).
  destruct (execute_reads_response r part (drop 1 jk) Hr) as (R & rest & E & Hfin & Herr & Hd).
  { fold text. lia. }
  { rewrite (app_assoc (response_text r)). fold text. rewrite length_app. cbn [List.length]. rewrite length_drop. lia. }
  rewrite (app_assoc (response_text r)) in E. fold text in E.
  destruct (execute_from_holds (mkReceiver new_HttpResponseParser (text ++ jk) (len text)) (response_text r) part
    false R (len (response_text r)) rest jk) as (rc & Ex & Hp & Hk); try done.
  { cbn [data]. rewrite length_app. lia. }
  exists rc. split; [|split; [exact Hk|split; [by rewrite Hp|]]].
  - cbn [HttpConnection.recv_head offset]. rewrite Z.sub_0_r, Hread.
    rewrite (proj2 (Z.leb_gt _ 0)) by lia. cbn [data]. rewrite store_front by lia. cbn [obind].
    change (0 + len text) with (len text). cbn [parser]. fold jk. rewrite Ex. cbn [obind]. rewrite Hp, Hfin.
    reflexivity.
  - unfold in_chunks. rewrite Hp. unfold jk in E. rewrite drop_drop in E.
    replace (List.length text + 1)%nat with (S (List.length text)) in E by lia. change zero with "000"%char. by rewrite E.
Qed.

(** The body of a response that is not in chunks, whose head comes with the first
    read. *)
Abbreviation missing length kept := (Z.max 0 (length - len kept)).
Lemma recvResponse_first_read r part fuel w w1 :
  response_ok r = true ->
  read w buff_size = (len (response_text r ++ part), response_text r ++ part, w1) ->
  in_chunks (response_text r ++ part) = false ->
  let q := (stored (new_HttpResponse, 0) r).1 in
  let length := rsp_announced q in
  let need := missing length part in
  (0 < length -> resizable length = true) -> need < 2 ^ 31 ->
  (forall d w2, reads need w1 d w2 -> len d = need ->
     recvResponse (S fuel) w =
       Ret (Some (Some (rsp_setBody q (string_of_list_ascii (take (Z.to_nat length) (part ++ d)))), w2))) /\
  (forall d w' w2, reads need w1 d w' -> len d < need -> read_fails w' (need - len d) w2 ->
     recvResponse (S fuel) w = Ret (Some (None, close w2))).
Proof.
  intros Hr Hread Hch q length need Hres Hs.
  destruct (recv_head_response r part fuel w w1 Hr Hread) as (rc & E & (Ho & Hle & jk & Hd & Hl) & HR & Hc).
  unfold HttpConnection.recvResponse. rewrite E. cbn [obind]. rewrite Hc, Hch.
  assert (m_data (parser rc) = q) as Hq by (unfold q; by rewrite <- HR).
  unfold recv_whole, getContentLength, getData. rewrite Hq. change (i64 _) with length. unfold need in *.
  assert (length < 2 ^ 63) as Hl63 by (apply wraps_range; lia). rewrite Ho, Hd, load_front. split.
  - intros d w2 Hrd Hld. destruct (Z.ltb_spec 0 length) as [Hpos|Hneg].
    + rewrite Hres by done. cbn [obind]. rewrite (recv_body_gets length part w1 d w2) by (done || lia).
      cbn [obind]. by rewrite Hq.
    + rewrite Z.max_l in * by lia. apply reads_no_more in Hrd as [-> ->]. cbn [obind].
      replace (Z.to_nat length) with 0%nat by lia. by rewrite Hq.
  - intros d w' w2 Hrd Hld Hf. rewrite (proj2 (Z.ltb_lt 0 length)), Hres by lia. cbn [obind].
    by rewrite (recv_body_fails length part w1 d w' w2) by (done || lia).
Qed.

(** What a printed response says of itself once it is read back. *)
Definition same_response (r q : HttpResponse) : Prop :=
  rsp_version q = rsp_version r /\ rsp_status q = rsp_status r /\ rsp_reason q = printed_reason r /\
  rsp_body q = rsp_body r /\
  rsp_getHeaderEntry q "connection" = (if rsp_close r then "close" else "keep-alive")%string /\
  forall k, norm k <> "connection"%string -> norm k <> "content-length"%string ->
    map_find (rsp_headers q) k = map_find (rsp_headers r) k.

Lemma received_same (r : HttpResponse) part d rest more : printable r = true -> map_ok (rsp_headers r) ->
  let size := Z.of_nat (String.length (rsp_body r)) in
  part ++ d ++ rest = list_ascii_of_string (printed_body r) ++ more -> len d = missing size part ->
  same_response r (rsp_setBody (stored (new_HttpResponse, 0) (printed r)).1
    (string_of_list_ascii (take (Z.to_nat size) (part ++ d)))).
Proof.
  intros Hp Hm size Hall Hd. pose proof (stored_printed r Hp Hm) as Hq. cbn zeta in Hq. destruct Hq as (Q1 & Q2 & Q3 & Q4 & Q5 & Q6).
  unfold same_response. cbn [rsp_setBody rsp_version rsp_status rsp_reason rsp_body]. split_and!; try assumption.
  - assert (size <= len (part ++ d)) as Hle by (rewrite length_app; lia).
    rewrite <- (take_app_le (part ++ d) rest) by lia. rewrite <- (app_assoc part d), Hall.
    unfold printed_body, size. case_bool_decide as Eb; [by rewrite Eb|].
    rewrite ascii_list_app, <- app_assoc, Nat2Z.id, <- (list_ascii_length (rsp_body r)), take_app_length.
    apply string_of_list_ascii_of_string.
  - intros k Hk1 Hk2. apply Q6; [exact Hk1|by left].
Qed.

Lemma printed_announces (r : HttpResponse) : printable r = true -> map_ok (rsp_headers r) ->
  (rsp_body r = ""%string -> map_find (rsp_headers r) "content-length" = None) ->
  let size := Z.of_nat (String.length (rsp_body r)) in
  size < 2 ^ 31 -> cast_length (size_text (rsp_body r)) = Some size ->
  rsp_announced (stored (new_HttpResponse, 0) (printed r)).1 = size.
Proof.
  intros Hp Hm Hnone size Hs Hcast. pose proof (stored_printed r Hp Hm) as Hq. cbn zeta in Hq. destruct Hq as (_ & _ & _ & _ & Q5 & Q6).
  unfold rsp_announced, rsp_getHeaderEntryAs, getAs. destruct (decide (rsp_body r = ""%string)) as [Eb|Eb].
  - rewrite Q6, Hnone by (done || by right). unfold size. by rewrite Eb.
  - rewrite (Q5 Eb), Hcast. cbn [snd]. apply wraps_fits; lia.
Qed.

(** C6: what a client gets of a response that a server sends as
    [HttpResponse::toString] prints it, when the head comes with the first read. The
    response must be printable: of version 1.0 or 1.1, with a reason and values of
    one line and names that are tokens; without a content-length of its own when its
    body is empty, not in chunks, and with a body below 2^31 characters, of a size
    that a string can have and whose digits are read as that number; and the server
    sends it, or the beginning of it. When the stream gives what is missing of the
    body, in however many reads, the client gets the version, status, reason,
    headers and body; when instead one of these reads delivers nothing, because the
    stream has ended or failed, it gets a null pointer and the stream is closed; and
    one of both is the case. The line end that [toString] prints behind a body is
    not part of it. *)
Theorem client_receives (r : HttpResponse) part unsent more fuel w w1 :
  printable r = true -> map_ok (rsp_headers r) ->
  (rsp_body r = ""%string -> map_find (rsp_headers r) "content-length" = None) ->
  let size := Z.of_nat (String.length (rsp_body r)) in
  size < 2 ^ 31 -> (0 < size -> resizable size = true) -> cast_length (size_text (rsp_body r)) = Some size ->
  let text := response_text (printed r) ++ part in
  in_chunks text = false -> read w buff_size = (len text, text, w1) ->
  text ++ inbox w1 ++ unsent = list_ascii_of_string (HttpResponse_toString r) ++ more ->
  let need := missing size part in
  (forall d w2, reads need w1 d w2 -> len d = need ->
     exists q, recvResponse (S fuel) w = Ret (Some (Some q, w2)) /\ same_response r q) /\
  (forall d w' w2, reads need w1 d w' -> len d < need -> read_fails w' (need - len d) w2 ->
     recvResponse (S fuel) w = Ret (Some (None, close w2))) /\
  (exists d w', reads need w1 d w' /\ (len d = need \/ len d < need /\ exists w2, read_fails w' (need - len d) w2)).
Proof.
  intros Hp Hm Hnone size Hs Hres Hcast text Hch Hread Hall need.
  assert (one_of [0x10; 0x11] (rsp_version r) = true) as Hv.
  { unfold printable in Hp. repeat (apply andb_true_iff in Hp as [Hp ?]). done. }
  rewrite (printed_text r Hv) in Hall. unfold text in Hall. rewrite <- !app_assoc in Hall. apply app_inv_head in Hall.
  pose proof (recvResponse_first_read (printed r) part fuel w w1 (printable_ok r Hp Hs) Hread Hch) as H. cbn zeta in H.
  rewrite (printed_announces r Hp Hm Hnone Hs Hcast) in H.
  destruct H as [H1 H2]; [exact Hres|unfold size in *; lia|]. split; [|split; [exact H2|]].
  - intros d w2 Hrd Hd. eexists. split; [by apply H1|]. rewrite (reads_inbox _ _ _ _ Hrd), <- app_assoc in Hall. by eapply received_same.
  - apply (reads_total (Z.to_nat need)); [unfold need; lia|done].
Qed.

End responses.

(** ** Witnesses *)
Definition page : HttpResponse :=
  rsp_setBody (rsp_setHeaderEntry (rsp_setVersion new_HttpResponse 0x11) "server" "qslary") "<p>hello</p>".
Definition page_text : list ascii := list_ascii_of_string (HttpResponse_toString page).
Definition page_head : nat := List.length (response_text (printed page)).
Definition page_pipe : Pipe := ([take (page_head + 5) page_text; drop (page_head + 5) page_text], []).

(** The rest of the body comes with a second read; or the stream ends. *)
Definition body_part : list ascii := take 5 (list_ascii_of_string "<p>hello</p>").
Definition page_cut : Pipe := ([take (page_head + 5) page_text], []).
Definition shut (_ : Pipe) : Pipe := ([], list_ascii_of_string "closed").
Lemma client_receives_witness :
  (exists q, recvResponse id decimal_cast small [] 1 page_pipe = Ret (Some (Some q, ([eol], []))) /\ same_response page q) /\
  recvResponse shut decimal_cast small [] 1 page_cut = Ret (Some (None, ([], list_ascii_of_string "closed"))).
Proof.
  split.
  - destruct (client_receives id decimal_cast small [] page body_part [] [] 0 page_pipe ([drop (page_head + 5) page_text], []))
      as (H & _ & _); [vm_compute; reflexivity|repeat constructor|intros E; vm_compute in E; discriminate E
        |vm_compute; reflexivity|intros _; vm_compute; reflexivity|vm_compute; reflexivity..|].
    apply (H (drop 5 (list_ascii_of_string "<p>hello</p>"))); [|reflexivity].
    apply (reads_some 7 _ 7 (drop 5 (list_ascii_of_string "<p>hello</p>")) ([eol], []) []);
      [reflexivity|vm_compute; reflexivity|reflexivity|constructor].
  - destruct (client_receives shut decimal_cast small [] page body_part (drop 5 (list_ascii_of_string "<p>hello</p>") ++ eol) [] 0 page_cut ([], []))
      as (_ & H & _); [vm_compute; reflexivity|repeat constructor|intros E; vm_compute in E; discriminate E
        |vm_compute; reflexivity|intros _; vm_compute; reflexivity|vm_compute; reflexivity..|].
    apply (H [] ([], []) ([], [])); [constructor|reflexivity|]. exists 0, []. split; [reflexivity|done].
Defined.

Definition chunked_head : response :=
  mkResponseText true (list_ascii_of_string "200") (list_ascii_of_string "OK")
    [Field (list_ascii_of_string "Transfer-Encoding") blank (list_ascii_of_string "chunked")].
Definition chunk_of (size data : string) : chunk :=
  mkChunk (list_ascii_of_string size) (list_ascii_of_string data).
Definition c1 : chunk := chunk_of "5" "hello".
Definition c2 : chunk := chunk_of "0b" " chunked wo".
Definition c3 : chunk := chunk_of "3" "rld".
Definition c4 : chunk := chunk_of "0" "".
(** The first chunk comes with the head, the second is cut within its data, the
    others come together. *)
Definition chunked_pipe : Pipe :=
  ([response_text chunked_head ++ chunk_text c1 ++ chunk_head c2 ++ take 4 (c_data c2);
    drop 4 (chunk_tail c2); chunk_text c3 ++ chunk_text c4 ++ list_ascii_of_string "next"], []).


Definition huge (ds : string) : receiver :=
  mkReceiver new_HttpResponseParser
    ((list_ascii_of_string ds ++ eol) ++ repeat zero (Z.to_nat (buff_size + 1) - String.length ds - 2))
    (Z.of_nat (String.length ds + 2)).

Lemma chunk_size_faults_witness :
  recv_chunks id 2 (huge "7fffffff") [] post_pipe = Fault Undefined /\
  recv_chunks id 2 (huge "80000000") [] post_pipe = Fault Thrown /\
  recv_chunks id 2 (huge "1fffffffe") [] post_pipe = Fault Thrown.
Proof.
  split_and!.
  - apply (chunk_size_faults id 0 (huge "7fffffff") (list_ascii_of_string "7fffffff") []);
      [done|reflexivity|vm_compute; split; [discriminate|reflexivity]|left; vm_compute; discriminate|reflexivity|].
    split; [reflexivity|]. split; [vm_compute; discriminate|]. eexists. split; [reflexivity|vm_compute; reflexivity].
  - apply (chunk_size_faults id 0 (huge "80000000") (list_ascii_of_string "80000000") []);
      [done|reflexivity|vm_compute; split; [discriminate|reflexivity]|right; vm_compute; reflexivity|reflexivity|].
    split; [reflexivity|]. split; [vm_compute; discriminate|]. eexists. split; [reflexivity|vm_compute; reflexivity].
  - apply (chunk_size_faults id 0 (huge "1fffffffe") (list_ascii_of_string "1fffffffe") []);
      [done|reflexivity|vm_compute; split; [discriminate|reflexivity]|right; vm_compute; reflexivity|reflexivity|].
    split; [reflexivity|]. split; [vm_compute; discriminate|]. eexists. split; [reflexivity|vm_compute; reflexivity].
Defined.
