(* ===== verification/HttpPool.v ===== *)
(** * The connection pool (src/qslary/http/HttpConnection.h, HttpConnection.cc)

    [HttpConnectionPool] keeps the connections nobody uses; [getConnection] hands
    one out, and [ReleasePtr] runs when its last user drops it. A connection is in
    the pool or with one user, so it is a value; the system its socket lives in is
    passed along. *)
From stdpp Require Import base list gmap strings.
From Stdlib Require Import ZArith Ascii String Lia.
From S2P Require Import Prelude CLib CurrentThread.
From S2P Require Import Address Uri Http HttpConnection Socket Stream.
Open Scope Z_scope.

(** [HttpConnection] without the system: what [SockStream] has, and
    [create_time], which nothing sets. *)
Record HttpConnection : Set := mkConnection {
  conn_sock : option Socket;
  conn_ower : bool;
  create_time : Z                                       (** [uint64_t] *)
}.
Definition new_HttpConnection (sock : Socket) : HttpConnection := mkConnection (Some sock) true 0.

Record HttpConnectionPool : Set := mkPool {
  pool_host_ : string;
  vhost_ : string;
  port_ : Z;                                            (** [uint32_t] *)
  maxSize_ : Z;
  maxAliveTime_ : Z;
  maxRequest_ : Z;
  conns_ : list HttpConnection;
  total_ : Z                                            (** [std::atomic<int32_t>] *)
}.

Definition new_HttpConnectionPool (host vhost : string) (port : Z) (is_https : bool)
    (max_size max_alive_time max_request : Z) : HttpConnectionPool :=
  mkPool host vhost (if port =? 0 then (if is_https then 443 else 80) else port)
    max_size max_alive_time max_request [] 0.

Definition set_conns (p : HttpConnectionPool) (conns : list HttpConnection) (total : Z) : HttpConnectionPool :=
  mkPool (pool_host_ p) (vhost_ p) (port_ p) (maxSize_ p) (maxAliveTime_ p) (maxRequest_ p) conns total.

Section pool.
Context {K : Type} (sys : System K).
Context (getaddrinfo : string -> option string -> Z -> Z -> option (list sockaddr)).
Context (cast_length : string -> option Z) (resizable : Z -> bool) (junk : list ascii).
Context (errno_text : K -> string).
(** [gettimeofday]: seconds and microseconds *)
Context (gettimeofday : K -> Z * Z).

Definition now_ms (k : K) : Z := GetCurrentMs (gettimeofday k).

Definition stream_of (c : HttpConnection) (k : K) : SockStream K := mkSockStream (conn_sock c) (conn_ower c) k.
Definition connection_of (c : HttpConnection) (w : SockStream K) : HttpConnection :=
  mkConnection (sock_ w) (ower_ w) (create_time c).
Definition conn_connected (c : HttpConnection) : bool :=
  match conn_sock c with Some s => isConnected_ s | None => false end.
Definition delete_HttpConnection (c : HttpConnection) (k : K) : K :=
  kernel (delete_SockStream sys (stream_of c k)).

(** The loop of [getConnection]: the connections to delete, the one to hand out,
    and the ones left. *)
Fixpoint pick (maxAlive now : Z) (conns : list HttpConnection)
    : list HttpConnection * option HttpConnection * list HttpConnection :=
  match conns with
  | [] => ([], None, [])
  | c :: conns =>
      if negb (conn_connected c) || (u64 (create_time c + maxAlive) >? now) then
        let '(invalid, ptr, rest) := pick maxAlive now conns in (c :: invalid, ptr, rest)
      else ([], Some c, conns)
  end.

(** A new connection to the pool's host; [addrs[0]] of an empty vector is
    undefined. *)
Definition connect_new (p : HttpConnectionPool) (k : K) : outcome (option HttpConnection * K) :=
  let! addrs := HostNameToAddress getaddrinfo (pool_host_ p) AF_UNSPEC 0 in
  let! addr := deref (head addrs) in
  let addr := Address.SetPort addr (u16 (port_ p)) in
  let! c := connect sys (CreateTCPSocket_for addr) k addr in
  let '(ok, sock, k) := c in
  if (ok : bool) then Ret (Some (new_HttpConnection sock), k)
  else Ret (None, (Socket.close sys sock k).2).

(** [HttpConnectionPool::getConnection] *)
Definition getConnection (p : HttpConnectionPool) (k : K)
    : outcome (option HttpConnection * HttpConnectionPool * K) :=
  let '(invalid, ptr, rest) := pick (maxAliveTime_ p) (now_ms k) (conns_ p) in
  let k := fold_left (fun k c => delete_HttpConnection c k) invalid k in
  let p := set_conns p rest (i32 (total_ p - Z.of_nat (List.length invalid))) in
  match ptr with
  | Some c => Ret (Some c, p, k)
  | None =>
      let! c := connect_new p k in
      match c with
      | (Some c, k) => Ret (Some c, set_conns p (conns_ p) (i32 (total_ p + 1)), k)
      | (None, k) => Ret (None, p, k)
      end
  end.

(** [HttpConnectionPool::ReleasePtr] *)
Definition ReleasePtr (c : HttpConnection) (p : HttpConnectionPool) (k : K) : HttpConnectionPool * K :=
  if negb (conn_connected c) || (u64 (create_time c + maxAliveTime_ p) >=? now_ms k)
  then (set_conns p (conns_ p) (i32 (total_ p - 1)), delete_HttpConnection c k)
  else (set_conns p (conns_ p ++ [c]) (total_ p), k).

(** The peer's address, printed; a null pointer when the system has none. *)
Definition print_peer (w : SockStream K) : outcome (string * SockStream K) :=
  let! s := deref (sock_ w) in
  let! a := getRemoteAddress sys s (kernel w) in
  let! addr := deref a.1 in
  Ret (ToString addr, mkSockStream (Some a.2) (ower_ w) (kernel w)).

(** [doRequest] of a request object; the connection is released when the function
    returns. *)
Definition doRequest (fuel : nat) (req : HttpRequest) (timeout_ms : Z) (p : HttpConnectionPool) (k : K)
    : outcome (option (HttpResult * HttpConnectionPool * K)) :=
  let! g := getConnection p k in
  let '(c, p, k) := g in
  match c with
  | None => Fault AssertFailed
  | Some c =>
      match conn_sock c with
      | None => Fault AssertFailed
      | Some sock =>
          let! t := setRecvTimeout sys sock k timeout_ms in
          let! x := exchange sys cast_length resizable junk errno_text fuel req print_peer "ok" timeout_ms
                      (stream_of c t.2) in
          match x with
          | Some (r, w) =>
              let '(p, k) := ReleasePtr (connection_of c w) p (kernel w) in Ret (Some (r, p, k))
          | None => Ret None
          end
      end
  end.

(** The request made for a path. *)
Definition pool_request (m : HttpMethod.t) (url : string) (headers : list (string * string))
    (body : string) (p : HttpConnectionPool) : HttpRequest :=
  let req := setClose (setMethod (setPath new_HttpRequest url) m) false in
  let '(has_host, req) := add_headers headers false req in
  let req :=
    if has_host then req
    else setHeaderEntry req "Host" (if bool_decide (vhost_ p = "") then pool_host_ p else vhost_ p) in
  setBody req body.

Definition doRequest_path (fuel : nat) (m : HttpMethod.t) (url : string) (timeout_ms : Z)
    (headers : list (string * string)) (body : string) (p : HttpConnectionPool) (k : K)
    : outcome (option (HttpResult * HttpConnectionPool * K)) :=
  doRequest fuel (pool_request m url headers body p) timeout_ms p k.
Definition doGet (fuel : nat) := doRequest_path fuel HttpMethod.GET.
Definition doPost (fuel : nat) := doRequest_path fuel HttpMethod.POST.

(** The path, query and fragment of a URI. *)
Definition target_of (u : URI) : string :=
  (getPath u ++ (if bool_decide (Uri.query_ u = "") then "" else "?") ++ Uri.query_ u
   ++ (if bool_decide (Uri.fragment_ u = "") then "" else "#") ++ Uri.fragment_ u)%string.

Definition doRequest_uri (fuel : nat) (m : HttpMethod.t) (u : URI) := doRequest_path fuel m (target_of u).
Definition doGet_uri (fuel : nat) (u : URI) := doGet fuel (target_of u).
Definition doPost_uri (fuel : nat) (u : URI) := doPost fuel (target_of u).
End pool.

(** ** Properties *)
Section properties.
Context {K : Type} (sys : System K).
Context (getaddrinfo : string -> option string -> Z -> Z -> option (list sockaddr)).
Context (gettimeofday : K -> Z * Z).
Abbreviation now_ms := (now_ms gettimeofday).
Abbreviation getConnection := (getConnection sys getaddrinfo gettimeofday).
Abbreviation ReleasePtr := (ReleasePtr sys gettimeofday).
Implicit Types (p : HttpConnectionPool) (c : HttpConnection) (k : K).

(** A pool with the connections its users have: one asks for a connection, one
    drops a connection whose socket it may have used and closed, and the system
    goes on. *)
Inductive pool_step : HttpConnectionPool * list HttpConnection * K ->
                      HttpConnectionPool * list HttpConnection * K -> Prop :=
| step_get p used k c p' k' :
    getConnection p k = Ret (Some c, p', k') -> pool_step (p, used, k) (p', used ++ [c], k')
| step_fail p used k p' k' :
    getConnection p k = Ret (None, p', k') -> pool_step (p, used, k) (p', used, k')
| step_release p l c l' k sock p' k' :
    ReleasePtr (mkConnection sock (conn_ower c) (create_time c)) p k = (p', k') ->
    pool_step (p, l ++ c :: l', k) (p', l ++ l', k')
| step_system p used k k' : pool_step (p, used, k) (p, used, k').

(** What holds of a pool whose users have [used]. *)
Record pool_inv (p : HttpConnectionPool) (used : list HttpConnection) : Prop := {
  inv_total : total_ p = i32 (Z.of_nat (List.length (conns_ p)) + Z.of_nat (List.length used));
  inv_time : Forall (fun c => create_time c = 0) (conns_ p ++ used);
  inv_connected : Forall (fun c => conn_connected c = true) (conns_ p)
}.

Lemma pick_spec maxAlive now conns :
  let '(invalid, ptr, rest) := pick maxAlive now conns in
  conns = invalid ++ match ptr with Some c => c :: rest | None => [] end /\
  (ptr = None -> rest = []).
Proof.
  induction conns as [|c conns IH]; cbn [pick]; [done|].
  destruct (_ || _); [|done]. destruct (pick maxAlive now conns) as [[invalid ptr] rest].
  destruct IH as [-> Hr]. by split.
Qed.

Lemma pick_connected maxAlive now conns c rest :
  Forall (fun c => conn_connected c = true) conns -> Forall (fun c => create_time c = 0) conns ->
  0 <= maxAlive < 2 ^ 32 -> maxAlive < now -> conns = c :: rest ->
  pick maxAlive now conns = ([], Some c, rest).
Proof.
  intros Hc Ht Hm Hn ->. cbn [pick].
  apply Forall_cons in Hc as [-> _]. apply Forall_cons in Ht as [-> _].
  rewrite Z.add_0_l, wrapu_small by lia. cbn [negb orb].
  rewrite Z.gtb_ltb. by rewrite (proj2 (Z.ltb_ge now maxAlive)) by lia.
Qed.

Lemma getConnection_inv p used k oc p' k' :
  pool_inv p used -> getConnection p k = Ret (oc, p', k') ->
  pool_inv p' (used ++ match oc with Some c => [c] | None => [] end).
Proof.
  intros [Ht Hz Hc]. unfold HttpPool.getConnection.
  pose proof (pick_spec (maxAliveTime_ p) (now_ms k) (conns_ p)) as Hp.
  destruct (pick _ _ _) as [[invalid ptr] rest]. destruct Hp as [Hp Hr].
  set (k1 := fold_left _ _ _).
  assert (i32 (total_ p - Z.of_nat (List.length invalid)) = i32 (Z.of_nat (List.length (match ptr with Some c => c :: rest | None => [] end)) + Z.of_nat (List.length used))) as Htot.
  { rewrite Ht, Hp, length_app, <- Z.add_opp_r, wraps_add_l. f_equal. lia. }
  rewrite Hp in Hz, Hc. rewrite <- app_assoc in Hz. apply Forall_app in Hz as [_ Hz].
  apply Forall_app in Hc as [_ Hc]. destruct ptr as [c|].
  - intros [= <- <- _]. cbn [app] in Hz. apply Forall_cons in Hz as [Hz0 Hz]. apply Forall_cons in Hc as [_ Hc].
    constructor; cbn [conns_ total_ set_conns].
    + rewrite Htot, length_app. cbn [List.length]. f_equal. lia.
    + rewrite app_assoc. apply Forall_app. split; [done|]. by constructor.
    + done.
  - rewrite (Hr eq_refl) in *. cbn [app] in Hz.
    intros ([[c|] k2] & Hnew & H)%obind_Ret_inv; injection H as <- <- _.
    + constructor; cbn [conns_ total_ set_conns].
      * rewrite Htot, wraps_add_l, length_app. cbn [List.length]. f_equal. lia.
      * rewrite app_nil_l. apply Forall_app. split; [done|]. constructor; [|done].
        unfold connect_new in Hnew. apply obind_Ret_inv in Hnew as (addrs & _ & Hnew).
        apply obind_Ret_inv in Hnew as (a & _ & Hnew). apply obind_Ret_inv in Hnew as ([[ok s] k3] & _ & Hnew).
        by destruct ok; [injection Hnew as <- _|].
      * done.
    + rewrite app_nil_r. by constructor.
Qed.

Lemma getConnection_keeps p k oc p' k' :
  getConnection p k = Ret (oc, p', k') -> maxAliveTime_ p' = maxAliveTime_ p.
Proof.
  unfold HttpPool.getConnection. destruct (pick _ _ _) as [[invalid [c|]] rest]; [by intros [= _ <- _]|].
  by intros ([[c|] k2] & _ & [= _ <- _])%obind_Ret_inv.
Qed.

Lemma ReleasePtr_inv p l c l' k sock p' k' :
  pool_inv p (l ++ c :: l') ->
  ReleasePtr (mkConnection sock (conn_ower c) (create_time c)) p k = (p', k') -> pool_inv p' (l ++ l').
Proof.
  intros [Ht Hz Hc]. unfold HttpPool.ReleasePtr.
  assert (create_time c = 0 /\ Forall (fun c => create_time c = 0) (conns_ p ++ l ++ l')) as [Hz0 Hz'].
  { apply Forall_app in Hz as [Hz1 [Hz2 [Hz3 Hz4]%Forall_cons]%Forall_app].
    split; [done|]. by rewrite !Forall_app. }
  destruct (negb _ || _) eqn:E; intros [= <- _]; constructor; cbn [conns_ total_ set_conns].
  - rewrite Ht, <- Z.add_opp_r, wraps_add_l, !length_app. cbn [List.length]. f_equal. lia.
  - done.
  - done.
  - rewrite Ht, !length_app. cbn [List.length]. f_equal. lia.
  - apply Forall_app in Hz' as [Hz1 Hz2]. rewrite <- app_assoc. apply Forall_app. split; [done|]. by constructor.
  - apply orb_false_iff in E as [E _]. apply negb_false_iff in E. apply Forall_app. split; [done|].
    by constructor.
Qed.

(** A pool as its users have left it. *)
Definition pool_reachable host vhost port is_https max_size max_alive max_request (k0 : K)
    (p : HttpConnectionPool) (used : list HttpConnection) (k : K) : Prop :=
  rtc pool_step
    (new_HttpConnectionPool host vhost port is_https max_size max_alive max_request, [], k0) (p, used, k).

Lemma pool_step_inv s s' :
  pool_step s s' -> pool_inv s.1.1 s.1.2 -> pool_inv s'.1.1 s'.1.2 /\ maxAliveTime_ s'.1.1 = maxAliveTime_ s.1.1.
Proof.
  intros [p used k c p' k' H|p used k p' k' H|p l c l' k sock p' k' H|p used k k'] HI; cbn [fst snd] in *.
  - split; [exact (getConnection_inv _ _ _ _ _ _ HI H)|by apply getConnection_keeps in H].
  - split; [|by apply getConnection_keeps in H].
    pose proof (getConnection_inv _ _ _ _ _ _ HI H) as HI'. by rewrite app_nil_r in HI'.
  - split; [exact (ReleasePtr_inv _ _ _ _ _ _ _ _ HI H)|].
    revert H. unfold HttpPool.ReleasePtr. by destruct (_ || _); intros [= <- _].
  - done.
Qed.

Lemma reachable_pool_inv host vhost port is_https max_size max_alive max_request k0 p used k :
  pool_reachable host vhost port is_https max_size max_alive max_request k0 p used k ->
  pool_inv p used /\ maxAliveTime_ p = max_alive.
Proof.
  intros H. apply (rtc_ind_r (fun s => pool_inv s.1.1 s.1.2 /\ maxAliveTime_ s.1.1 = max_alive)) in H; [exact H| |].
  - split; [|done]. by constructor.
  - intros s s' _ Hs [HI Hm]. destruct (pool_step_inv s s' Hs HI) as [HI' Hm']. split; [exact HI'|congruence].
Qed.

(** However the pool is used, its counter is the number of the idle connections
    and of those its users have, cut to an [int]; the creation time of each of
    them is still 0, and the idle ones are connected. *)
Theorem pool_counts host vhost port is_https max_size max_alive max_request k0 p used k :
  pool_reachable host vhost port is_https max_size max_alive max_request k0 p used k ->
  total_ p = i32 (Z.of_nat (List.length (conns_ p)) + Z.of_nat (List.length used)) /\
  Forall (fun c => create_time c = 0) (conns_ p ++ used) /\
  Forall (fun c => conn_connected c = true) (conns_ p).
Proof. intros H. by destruct (reachable_pool_inv _ _ _ _ _ _ _ _ _ _ _ H) as [[A B C] _]. Qed.

(** Once the clock is past [max_alive] milliseconds of 1970, neither the maximal
    age nor the maximal number of connections has an effect: an idle connection is
    handed out again, the oldest first, and a connection that its user has not
    closed goes back to the pool, whatever their age and however many there are. *)
Theorem pool_never_expires host vhost port is_https max_size max_alive max_request k0 p used k :
  pool_reachable host vhost port is_https max_size max_alive max_request k0 p used k ->
  0 <= max_alive < 2 ^ 32 -> max_alive < now_ms k ->
  (forall c rest, conns_ p = c :: rest ->
     getConnection p k = Ret (Some c, set_conns p rest (total_ p), k)) /\
  (forall c sock, c ∈ used ->
     let c' := mkConnection sock (conn_ower c) (create_time c) in
     conn_connected c' = true -> ReleasePtr c' p k = (set_conns p (conns_ p ++ [c']) (total_ p), k)).
Proof.
  intros H Hm Hn. destruct (reachable_pool_inv _ _ _ _ _ _ _ _ _ _ _ H) as [[Ht Hz Hc] Ha].
  apply Forall_app in Hz as [Hz1 Hz2]. split.
  - intros c rest E. unfold HttpPool.getConnection.
    rewrite Ha, (pick_connected _ _ _ c rest Hc Hz1 Hm Hn E).
    assert (i32 (total_ p - 0) = total_ p) as Et by (by rewrite Ht, <- Z.add_opp_r, wraps_add_l, Z.add_0_r).
    cbn [fold_left List.length]. change (Z.of_nat 0) with 0. by rewrite Et.
  - intros c sock Hu c' Hc'. unfold HttpPool.ReleasePtr. rewrite Hc', Ha.
    rewrite Forall_forall in Hz2. unfold c' at 1. cbn [create_time]. rewrite (Hz2 c Hu), Z.add_0_l, wrapu_small by lia.
    rewrite Z.geb_leb. cbn [negb orb]. by rewrite (proj2 (Z.leb_gt _ _)) by lia.
Qed.
End properties.

(** ** Witnesses *)
Definition pool_now (_ : option Address) : Z * Z := (1700000000, 0).
Definition pool_resolver (_ : string) (_ : option string) (_ _ : Z) : option (list sockaddr) :=
  Some [Sock_in (mkIn AF_INET 0 0 0)].
Definition one_idle : outcome (HttpConnectionPool * option Address) :=
  let! g := getConnection toy_net pool_resolver pool_now
              (new_HttpConnectionPool "localhost" "" 0 false 1 1000 1) None in
  match g with
  | (Some c, p, k) => Ret (ReleasePtr toy_net pool_now c p k)
  | _ => Fault Undefined
  end.

Lemma one_idle_reachable :
  exists p k, one_idle = Ret (p, k) /\ total_ p = 1 /\
    pool_reachable toy_net pool_resolver pool_now "localhost" "" 0 false 1 1000 1 None p [] k.
Proof.
  unfold one_idle.
  destruct (getConnection toy_net pool_resolver pool_now
    (new_HttpConnectionPool "localhost" "" 0 false 1 1000 1) None) as [[[[c|] p] k]|] eqn:E;
    [|vm_compute in E; discriminate E..].
  cbn [obind]. destruct (ReleasePtr toy_net pool_now c p k) as [p' k'] eqn:E'.
  exists p', k'. split; [reflexivity|]. split.
  - vm_compute in E. injection E as <- <- <-. vm_compute in E'. by injection E' as <- <-.
  - eapply rtc_l; [apply step_get; exact E|]. apply rtc_once. cbn [app].
    apply (step_release _ _ _ p [] c [] k (conn_sock c)). by destruct c.
Qed.

Lemma pool_counts_witness :
  exists p k, one_idle = Ret (p, k) /\ total_ p = 1 /\
    total_ p = i32 (Z.of_nat (List.length (conns_ p)) + 0).
Proof.
  destruct one_idle_reachable as (p & k & E & Et & H). exists p, k.
  destruct (pool_counts _ _ _ _ _ _ _ _ _ _ _ _ _ _ H) as (Hc & _). exact (conj E (conj Et Hc)).
Defined.

Lemma pool_never_expires_witness :
  exists p k, one_idle = Ret (p, k) /\
    (forall c rest, conns_ p = c :: rest ->
       getConnection toy_net pool_resolver pool_now p k = Ret (Some c, set_conns p rest (total_ p), k)).
Proof.
  destruct one_idle_reachable as (p & k & E & Et & H). exists p, k.
  destruct (pool_never_expires _ _ _ _ _ _ _ _ _ _ _ _ _ _ H) as (Hc & _); [lia|reflexivity|].
  exact (conj E Hc).
Defined.
