(* ===== verification/HttpClient.v ===== *)
(** * What the client sends

    The request [HttpConnection::DoRequest] and [HttpConnectionPool::doRequest]
    make and print (HttpConnection.v, HttpPool.v), read by the request parser of
    the server. *)
From stdpp Require Import base list gmap strings.
From Stdlib Require Import ZArith Ascii String Lia.
From S2P Require Import Prelude CLib Ragel Uri Http HttpCommon HttpRequestTable HttpRequestParser.
From S2P Require Import HttpRequestRun HttpRequestCorrect HttpConnection HttpPool.
Open Scope Z_scope.

(** ** The request objects *)
Lemma add_headers_line headers : forall has_host q,
  let q' := (add_headers headers has_host q).2 in
  mURL q' = mURL q /\ mVersion q' = mVersion q /\ method_ q' = method_ q.
Proof.
  induction headers as [|[k v] headers IH]; intros has_host q; cbn [add_headers]; [done|].
  destruct (strcasecmp k "connection" =? 0).
  - destruct (IH has_host (if strcasecmp v "keep-alive" =? 0 then setClose q false else q)) as (-> & -> & ->).
    by destruct (strcasecmp v "keep-alive" =? 0).
  - match goal with |- context [add_headers headers ?h ?r] => destruct (IH h r) as (-> & -> & ->) end. done.
Qed.

(** The request line is made of [mURL], which nothing sets, and of the version,
    which is 0. *)
Definition line_unset (q : HttpRequest) (m : HttpMethod.t) : Prop :=
  mURL q = ""%string /\ mVersion q = 0 /\ method_ q = m.

Lemma uri_request_line m u headers body : line_unset (uri_request m u headers body) m.
Proof.
  unfold uri_request, line_unset.
  match goal with |- context [add_headers headers false ?r] =>
    pose proof (add_headers_line headers false r) as H; destruct (add_headers headers false r) as [h q] end.
  cbn in H. by destruct h.
Qed.

Lemma pool_request_line m url headers body p : line_unset (pool_request m url headers body p) m.
Proof.
  unfold pool_request, line_unset.
  match goal with |- context [add_headers headers false ?r] =>
    pose proof (add_headers_line headers false r) as H; destruct (add_headers headers false r) as [h q] end.
  cbn in H. by destruct h.
Qed.

(** ** Their text *)
Definition bad_version : list ascii := list_ascii_of_string " HTTP/0".

Lemma line_unset_text q m :
  line_unset q m ->
  exists rest, list_ascii_of_string (HttpRequest_toString q) =
    list_ascii_of_string (HttpMethodToString m) ++ blank ++ bad_version ++ rest.
Proof.
  intros (Hu & Hv & Hm). unfold HttpRequest_toString. rewrite Hu, Hv, Hm.
  rewrite ascii_list_app. eexists. reflexivity.
Qed.

Lemma line_unset_line q m :
  line_unset q m ->
  exists rest, list_ascii_of_string (HttpRequest_toString q) =
    list_ascii_of_string (HttpMethodToString m ++ "  HTTP/0.0" ++ crlf) ++ rest.
Proof.
  intros (Hu & Hv & Hm). unfold HttpRequest_toString. rewrite Hu, Hv, Hm.
  rewrite !(ascii_list_app (HttpMethodToString m)). eexists. rewrite <- app_assoc. reflexivity.
Qed.

(** Requests with the same headers have the same text. *)
Lemma add_headers_same headers : forall has_host q q', headres_ q' = headres_ q ->
  (add_headers headers has_host q').1 = (add_headers headers has_host q).1 /\
  headres_ (add_headers headers has_host q').2 = headres_ (add_headers headers has_host q).2.
Proof.
  induction headers as [|[k v] headers IH]; intros has_host q q' Hq; cbn [add_headers]; [done|].
  destruct (strcasecmp k "connection" =? 0); apply IH.
  - by destruct (strcasecmp v "keep-alive" =? 0).
  - unfold setHeaderEntry. cbn. by rewrite Hq.
Qed.

Lemma toString_same q q' m :
  line_unset q m -> line_unset q' m -> headres_ q' = headres_ q -> body_ q' = body_ q ->
  HttpRequest_toString q' = HttpRequest_toString q.
Proof.
  intros (Hu & Hv & Hm) (Hu' & Hv' & Hm') Hh Hb. unfold HttpRequest_toString.
  by rewrite Hu, Hv, Hm, Hu', Hv', Hm', Hh, Hb.
Qed.

Lemma uri_request_text m u u' headers body : host_ u' = host_ u ->
  list_ascii_of_string (HttpRequest_toString (uri_request m u' headers body)) =
  list_ascii_of_string (HttpRequest_toString (uri_request m u headers body)).
Proof.
  intros Hh. f_equal. apply (toString_same _ _ m); [apply uri_request_line..| |];
    unfold uri_request;
    match goal with |- context [add_headers headers false (setFragment ?q (Uri.fragment_ u'))] =>
      match goal with |- context [add_headers headers false (setFragment ?r (Uri.fragment_ u))] =>
        destruct (add_headers_same headers false (setFragment r (Uri.fragment_ u))
                    (setFragment q (Uri.fragment_ u')) eq_refl) as [H1 H2] end end;
    destruct (add_headers headers false _) as [h1 q1]; destruct (add_headers headers false _) as [h2 q2];
    cbn [fst snd] in H1, H2; subst h1; rewrite ?Hh; destruct h2; cbn; congruence.
Qed.

Lemma pool_request_text m url url' headers body p :
  list_ascii_of_string (HttpRequest_toString (pool_request m url' headers body p)) =
  list_ascii_of_string (HttpRequest_toString (pool_request m url headers body p)).
Proof.
  f_equal. apply (toString_same _ _ m); [apply pool_request_line..| |]; unfold pool_request;
    match goal with |- context [setPath new_HttpRequest url'] =>
      destruct (add_headers_same headers false (setClose (setMethod (setPath new_HttpRequest url) m) false)
                  (setClose (setMethod (setPath new_HttpRequest url') m) false) eq_refl) as [H1 H2] end;
    destruct (add_headers headers false _) as [h1 q1]; destruct (add_headers headers false _) as [h2 q2];
    cbn [fst snd] in H1, H2; subst h1; destruct h2; cbn; congruence.
Qed.

Lemma client_method_names_ok m : method_ok (list_ascii_of_string (HttpMethodToString m)) = true.
Proof. destruct m; vm_compute; reflexivity. Qed.

(** ** The parser on it *)
#[local] Opaque exec request_case_map run.
Ltac by_jump := vm_cast_no_check (eq_refl true).

Lemma run_bad_version m rest P d :
  method_ok m = true -> len (m ++ blank ++ bad_version ++ rest) < 2 ^ 31 -> marks P 0 ->
  exists P' d', kept P P' /\ marks P' (len (m ++ blank) + 1) /\
    run [] (m ++ blank ++ bad_version ++ rest) 1 (P, d) = Ret (0, len (m ++ blank) + 6, (P', d')).
Proof.
  intros [[H1%Z.leb_le H2%Z.leb_le]%andb_true_iff Hm]%andb_true_iff Hs HP.
  destruct (run_method m (bad_version ++ rest) P d) as (P1 & -> & K & M);
    [lia|by apply forallb_Forall|done|done|].
  set (pre := m ++ blank) in *. set (d1 := with_method _ _).
  assert (len (pre ++ bad_version ++ rest) < 2 ^ 31) as Hs2 by (unfold pre; by rewrite <- app_assoc).
  assert (List.length bad_version = 7%nat) as H7 by reflexivity.
  unfold bad_version in *. cbn [list_ascii_of_string app] in *.
  rewrite (run_enter 3 (Z.eqb 32) [Mark; RequestPath; RequestUri] 4) by (by_jump || reflexivity). actions.
  rewrite element_nil by lia. unfold on_request_path. rewrite string_at_nil. actions.
  rewrite element_uri by (unfold size; rewrite length_app; lia). cbn [obind].
  rewrite (run_enter 4 (Z.eqb 72) [Mark] 5) by (by_jump || reflexivity). actions.
  rewrite (run_move _ (Z.eqb 84) 6), (run_move _ (Z.eqb 84) 7), (run_move _ (Z.eqb 80) 8),
    (run_move _ (Z.eqb 47) 9) by (by_jump || reflexivity).
  exists (set_mark (set_mark P1 (len pre)) (len (pre ++ [" "%char]))), (setPath d1.1 "", d1.2).
  split; [exact K|]. split; last first.
  - rewrite <- !app_assoc. cbn [app].
    with_strategy transparent [run exec] unfold run, exec. cbn [program].
    rewrite bool_decide_true by (by eexists). cbn [fst set_mark uri_relaxed].
    rewrite (request_goto_any _ 9 48 ([], 0)) by (vm_compute; reflexivity).
    cbn [obind run_request_actions Z.eqb]. 
    match goal with |- Ret (_, ?n, _) = _ => replace n with (len pre + 6) by (rewrite length_app; cbn [List.length]; lia) end.
    reflexivity.
  - destruct M as (? & ? & ?). unfold marks. cbn [mark field_start field_len set_mark].
    rewrite length_app. cbn [List.length]. lia.
Qed.

(** A request of the client is refused by the parser of the server. *)
Lemma refuses_line_unset q m :
  line_unset q m -> let text := list_ascii_of_string (HttpRequest_toString q) in
  len text < 2 ^ 31 ->
  exists n rest R, execute new_HttpRequestParser text = Ret (n, rest, R) /\ hasError R = true.
Proof.
  intros Hq text Hs. destruct (line_unset_text q m Hq) as (rest & Et). fold text in Et.
  rewrite Et in Hs |- *. set (w := list_ascii_of_string (HttpMethodToString m)) in *.
  destruct (run_bad_version w rest (reset (m_parser new_HttpRequestParser)) (new_HttpRequest, 0)
    (client_method_names_ok m) Hs) as (P & d & K & M & E); [done|].
  destruct K as (Kb & _ & Kn & Kcs & _).
  assert (len (w ++ blank ++ bad_version ++ rest) = len (w ++ blank) + 7 + len rest) as Hl
    by (rewrite app_assoc, (length_app (w ++ blank)), (length_app bad_version);
        change (List.length bad_version) with 7%nat; lia).
  eexists _, _, _. split.
  - eapply (execute_exec new_HttpRequestParser _ 0 _ P d); [lia|by rewrite Kcs|exact E|by rewrite Kn|lia| |].
    + rewrite Kb. simpl. lia.
    + apply (marks_weaken _ (len (w ++ blank) + 1)); [exact M|lia].
  - unfold hasError. cbn. by rewrite orb_true_r.
Qed.

(** What is sent does not contain the path, the query or the fragment that was
    asked for: requests for two targets of a host have the same text. Its request
    line is the method, nothing, and HTTP/0.0, which the request parser refuses, so
    a server of the library closes the connection of its client. *)
Theorem client_request_refused m u u' headers body :
  host_ u' = host_ u ->
  let text u := list_ascii_of_string (HttpRequest_toString (uri_request m u headers body)) in
  text u' = text u /\
  (exists rest, text u = list_ascii_of_string (HttpMethodToString m ++ "  HTTP/0.0" ++ crlf) ++ rest) /\
  (len (text u) < 2 ^ 31 ->
   exists n rest R, execute new_HttpRequestParser (text u) = Ret (n, rest, R) /\ hasError R = true).
Proof.
  intros Hh text. split; [by apply uri_request_text|]. split; [|exact (refuses_line_unset _ m (uri_request_line m u headers body))].
  destruct (line_unset_line _ m (uri_request_line m u headers body)) as (rest & E). exists rest. exact E.
Qed.

(** The same holds for what the pool sends. *)
Theorem pool_request_refused m url url' headers body p :
  let text url := list_ascii_of_string (HttpRequest_toString (pool_request m url headers body p)) in
  text url' = text url /\
  (len (text url) < 2 ^ 31 ->
   exists n rest R, execute new_HttpRequestParser (text url) = Ret (n, rest, R) /\ hasError R = true).
Proof.
  intros text. split; [by apply pool_request_text|].
  exact (refuses_line_unset _ m (pool_request_line m url headers body p)).
Qed.

Definition asked : URI := mkURI "http" "" "a" "/x" "q" "f" 0.

Lemma client_request_refused_witness :
  list_ascii_of_string (HttpRequest_toString (uri_request HttpMethod.GET asked [] "")) =
    list_ascii_of_string (HttpRequest_toString (uri_request HttpMethod.GET (mkURI "" "" "a" "/y" "" "" 0) [] "")) /\
  exists n rest R,
    execute new_HttpRequestParser (list_ascii_of_string (HttpRequest_toString (uri_request HttpMethod.GET asked [] ""))) =
      Ret (n, rest, R) /\ hasError R = true.
Proof.
  destruct (client_request_refused HttpMethod.GET asked (mkURI "" "" "a" "/y" "" "" 0) [] "" eq_refl) as (H1 & _ & H2).
  exact (conj (eq_sym H1) (H2 eq_refl)).
Defined.

Definition asked_pool : HttpConnectionPool := new_HttpConnectionPool "a" "" 0 false 1 1 1.
Lemma pool_request_refused_witness :
  exists n rest R,
    execute new_HttpRequestParser (list_ascii_of_string (HttpRequest_toString
      (pool_request HttpMethod.GET "/x" [] "" asked_pool))) = Ret (n, rest, R) /\ hasError R = true.
Proof. destruct (pool_request_refused HttpMethod.GET "/x" "/y" [] "" asked_pool) as (_ & H). exact (H eq_refl). Defined.
